(* ===== verification/_CoqProject ===== *)
-Q . S2P
Prelude.v
Text.v
ThingBuf.v
Buddy.v
Sv48.v
PageTable.v
Translate.v
Mapping.v
Layout.v
Abi.v
Perms.v
Thread.v
Sched.v
Completion.v
Shootdown.v
Spsc.v
NetChannel.v
Work.v
Syscall.v
Process.v
Creds.v
Futex.v
PageCache.v
Virtqueue.v
Blk.v
Tar.v
Readdir.v
FsRead.v
UserMem.v
Mmap.v
Argv.v
Elf.v
Surface.v
Files.v
Regions.v
NetThread.v
UserThread.v
Accounting.v
Input.v
Ecall.v
Hw.v
Manager.v
