(* ===== verification/Prelude.v ===== *)
(** * Orbit: a verification library for a RISC-V 64 kernel

    Orbit ([src/]) is a multi-hart RISC-V kernel in Rust. Harts run user threads;
    a system call that needs more than the calling hart's own state is queued for
    the manager, which one hart at a time runs under the kernel lock; results come
    back by publishing values to a parked thread and waking it. This library is a
    shallow embedding: a function of the source is a Rocq function on explicit
    state, a Rust panic is the value [Panic] of [panics], an error is a value of
    [result] or [option], and code that harts run concurrently is a step relation
    over its atomic accesses. The kernel is built with [--release], so [u64]
    arithmetic wraps; the models write the wrap out ([wadd], [wsub], [u64]).

    ** Parts of the program and where they are modelled

    Memory.
    - [Buddy.v]: [mem/src/lib.rs], [mem/src/frame.rs], the buddy frame allocator.
    - [Sv48.v], [PageTable.v]: [mmu/src/], address fields, entries, walks, mapping,
      reserving, unmapping, teardown over an explicit memory. [Translate.v] and
      [Mapping.v] hold the theory: the table as a tree, what an address maps to.
    - [Layout.v]: [orbit-abi/src/layout.rs], the user memory map and range checks.
    - [Shootdown.v]: [orbit-core/src/tlb_shootdown.rs], [kmain/src/kernel/shootdown.rs]
      and [tlb.rs], invalidation of other harts' translation caches.

    Threads and scheduling.
    - [Thread.v]: [process/src/lib.rs], [process/src/cap.rs], the thread record, its
      state machine, the verbs of the access capabilities, system-call outcomes.
    - [Completion.v]: [process/src/completion.rs], the signal and park race.
    - [Sched.v]: [orbit-core/src/ready_queue.rs], [sleep_heap.rs], [sched.rs].
    - [Manager.v]: [manager/src/lib.rs] with the parking, dispatch, wake, exit-group
      and reaping paths of [kmain]; the whole scheduler as one step relation.
    - [Accounting.v]: [orbit-core/src/accounting.rs], [kmain/src/kernel/accounting.rs].

    System calls.
    - [Abi.v]: [orbit-abi/src/syscall.rs], [errno.rs], [handle.rs].
    - [Perms.v]: [orbit-abi/src/perms.rs], [roles.rs], [denial.rs] and
      [orbit-core/src/denial_ring.rs], permissions, spawn gates, the audit log.
    - [Work.v], [Syscall.v]: [orbit-core/src/pending_work.rs], [syscall.rs], the
      handlers over the interface [Hardware]. [Ecall.v]: the trap arm of
      [kmain/src/bin/orbit.rs] and the handlers of [kmain/src/lib.rs]. [Hw.v]: the
      instance of the interface in [kmain/src/hw.rs].

    The manager's services ([kmain/src/kernel/mod.rs]).
    - [Process.v]: pids, waiting for children, exit statuses.
    - [Creds.v]: user and group ids, pledge, [vaccess].
    - [Futex.v]: futex wait, wake and the sweep of a dead process.
    - [PageCache.v]: [kmain/src/kernel/page_cache.rs], the cached disk pages.
    - [Tar.v], [Readdir.v]: [kmain/src/kernel/fs/], the scan of the disk's archive,
      lookups, directory listing, with the reader of [umode/src/main.rs].
    - [FsRead.v]: reads of files and the loading of programs through the page cache.
    - [Files.v]: [kmain/src/kernel/handle.rs], descriptors, paths and the other file calls.
    - [Regions.v]: [kmain/src/kernel/shared_user_ptr.rs], [pending_frees.rs], the pages
      the kernel shares with a process: channels, event descriptors, [close].
    - [NetThread.v]: [k_net] of [kmain/src/lib.rs], [orbit-core/src/net.rs], the network
      thread and the manager's sockets.
    - [UserThread.v]: [SlotAlloc] and [UserMapping] of [process/src/lib.rs], the stack, trap
      frame and thread-local data of user threads, [create_thread] and [dealloc_thread].
    - [UserMem.v], [Mmap.v]: copies to and from user memory, [mmap], the pools behind it
      and the release of a process's memory.
    - [Elf.v]: [load_elf]. [Argv.v]: [orbit-abi/src/argv.rs], the argument and
      environment blobs from parent to child.
    - [Surface.v]: [kmain/src/kernel/surface.rs], drawing surfaces, with the damage and
      the blit of [kmain/src/drivers/display.rs].

    Devices and channels.
    - [Spsc.v]: the two single-producer single-consumer rings.
    - [ThingBuf.v]: the external bounded queue as a class with laws and an instance.
    - [NetChannel.v]: [net_channel/src/lib.rs], the shared TCP channel.
    - [Input.v]: [orbit-abi/src/input.rs], [virtio_input/src/proto.rs],
      [kmain/src/kernel/input.rs], [stdin.rs], [key_events.rs], [process/src/stdin.rs],
      [key_events.rs].
    - [Virtqueue.v]: [virtio/src/queue.rs], the split queue with its device.
    - [Blk.v]: [virtio_blk/src/device.rs], [kmain/src/drivers/virtio_blk_dev.rs].

    [Prelude.v] has the words, the panic and result types, the loops, the ordered
    set and map of the source's B-trees, and the lemmas the other files share;
    [Text.v] has bytes, UTF-8 and the order of byte strings.

    ** What the theorems show

    - Memory: no frame is handed out twice and every frame is accounted for; mapping
      and unmapping change exactly the translations they should, keep the tables a
      tree and free each table once; no stale translation survives a shootdown.
    - Scheduling: a thread is claimed at most once in every reachable state; the
      manager never panics; a published result reaches its thread; a deadline is not
      slept over; statuses move along the documented edges only.
    - System calls: the permission gate is complete; no unvalidated request reaches
      the manager; authority and credentials never grow; every call leaves a
      well-typed thread.
    - Services: exit statuses are delivered once, futex queues refine per-address
      FIFO queues and lose no wake, cached frames are conserved and a page in flight
      is pinned.
    - Files: mounting an archive gives back what was archived, pages never share a
      cache key, a directory lists exactly its children; each read accepted by the
      block driver completes once with its own key and its own sectors; every read
      of a file is answered once; a file is opened exactly for those who may read it.
      [FsRead.fill_frame_reused] shows a way a frame is reused too early.
    - Programs and memory: [mmap] shows zeroed memory of the process's own, a loaded
      program reads its file's bytes, arguments reach the child unchanged, a surface
      shows on the screen what its process drew; a shared region leaves its process when it
      is closed and its frame is freed when nobody holds it; a new thread has memory of its
      own, which its end gives back. [Mmap.mmap_overlap_dangles],
      [UserThread.failed_create_dangles], [Elf.elf_shows_stale] and [Surface.surface_size_wraps] show how memory of others
      becomes visible.
    - Channels and input: rings deliver in order under every interleaving, a hostile
      user cannot make the network reconciler or the network thread panic, no key press
      is lost.

    ** Bounds and fuel

    Loops of the source whose bound is not a list are [while64] loops: at most 2^64
    iterations, more than any counter of the source can take; totality lemmas show
    the loops end before. Walks of the page tables recurse over the list of the four
    levels. The pid search has one try per pid plus one.

    ** Parameters

    Code outside the repository is a class or a section variable: the bounded queue
    [thingbuf] ([ThingBuf], [ThingBufLaws]), the TCP socket of [smoltcp]
    ([TcpSocket], [TcpSocketLaws]) and its stack ([NetStack], [NetStackLaws]), the parser of ELF files ([Elf.v]), the processor's own translation of a user access
    ([Hw.v]). The result of the polled boot-time read ([Tar.v]), the page allocator
    behind the page cache and the installation of a loaded program ([FsRead.v]) are
    arguments too. Each has a concrete instance in a witness.

    ** Not modelled

    Memory orderings weaker than sequential consistency; device registers and bring-up
    (the other drivers under [kmain/src/drivers], [virtio_gpu], [serial]); assembly, boot ([bl]) and trap entry; text panes and fonts;
    the rest of process creation; statistics reports; the user programs and
    their runtime. Log output is left out everywhere. *)

From Stdlib Require Import ZArith Lia Bool Sorted.
From stdpp Require Import base list option numbers sets gmap.

Declare Scope orbit_scope.
Delimit Scope orbit_scope with orbit.
#[global] Open Scope Z_scope.
#[global] Open Scope orbit_scope.

Create HintDb orbit.

(** ** Machine words

    [usize], [isize] and [u64] are 64 bits wide on the riscv64 target. A word
    is a [Z]; the kernel is built with [--release], where the plain operators
    wrap at the word width and shift amounts are taken modulo 64. *)

Definition W64 : Z := 2 ^ 64.

(** The predicate "is the value of a u64". *)
Definition is_u64 (z : Z) : Prop := 0 <= z < W64.

Definition u64 (z : Z) : Z := z mod W64.

Definition wadd (a b : Z) : Z := u64 (a + b).
Definition wsub (a b : Z) : Z := u64 (a - b).
Definition wmul (a b : Z) : Z := u64 (a * b).
Definition wnot (a : Z) : Z := W64 - 1 - a.
Definition wshl (a s : Z) : Z := u64 (Z.shiftl a (s mod 64)).
Definition wshr (a s : Z) : Z := Z.shiftr a (s mod 64).

(** [u64::checked_add]. *)
Definition checked_add (a b : Z) : option Z :=
  if a + b <? W64 then Some (a + b) else None.

(** [u64::saturating_add]. *)
Definition saturating_add (a b : Z) : Z :=
  if a + b <? W64 then a + b else W64 - 1.

(** [usize::leading_zeros], [trailing_zeros] and [next_power_of_two]. *)
Definition leading_zeros (n : Z) : Z :=
  if n =? 0 then 64 else 63 - Z.log2 n.

Fixpoint pos_tz (p : positive) : Z :=
  match p with
  | xO q => 1 + pos_tz q
  | _ => 0
  end.

Definition trailing_zeros (n : Z) : Z :=
  match n with
  | Zpos p => pos_tz p
  | _ => 64
  end.

Definition next_power_of_two (n : Z) : Z :=
  if n <=? 1 then 1 else u64 (2 ^ (Z.log2 (n - 1) + 1)).

(** ** Fallible code

    [result] is Rust's [Result]; [panics] separates a Rust panic from every
    value the function can return. *)

Inductive result (T E : Type) : Type :=
| Ok (t : T)
| Err (e : E).
Arguments Ok {T E} t.
Arguments Err {T E} e.

Inductive panics (A : Type) : Type :=
| Done (a : A)
| Panic.
Arguments Done {A} a.
Arguments Panic {A}.

Definition pbind {A B} (m : panics A) (k : A -> panics B) : panics B :=
  match m with
  | Done a => k a
  | Panic => Panic
  end.

Notation "x <-! m ;; k" := (pbind m (fun x => k))
  (at level 100, m at next level, right associativity) : orbit_scope.

(** ** Loops

    [iter_until n body s] runs [body] at most [2 ^ n] times, stopping at the
    first [inr]. [while64] bounds a loop by [2 ^ 64] iterations, more than a
    loop whose measure is a word can use, and still computes at once when the
    body leaves early. *)

Fixpoint iter_until {S R} (n : nat) (body : S -> S + R) (s : S) : S + R :=
  match n with
  | O => body s
  | Datatypes.S n' =>
      match iter_until n' body s with
      | inl s' => iter_until n' body s'
      | inr r => inr r
      end
  end.

Definition while64 {S R} (body : S -> S + R) (s : S) : option R :=
  match iter_until 64 body s with
  | inl _ => None
  | inr r => Some r
  end.

(** ** [alloc::collections::BTreeSet] over machine words: a strictly sorted list *)

Fixpoint bt_insert (x : Z) (s : list Z) : list Z :=
  match s with
  | [] => [x]
  | y :: s' =>
      if x <? y then x :: s
      else if x =? y then s
      else y :: bt_insert x s'
  end.

(** [BTreeSet::remove]: the new set and whether the key was present. *)
Fixpoint bt_remove (x : Z) (s : list Z) : list Z * bool :=
  match s with
  | [] => ([], false)
  | y :: s' =>
      if x =? y then (s', true)
      else let '(s'', b) := bt_remove x s' in (y :: s'', b)
  end.

(** [set.iter().next()]: the least element. *)
Definition bt_first (s : list Z) : option Z := head s.

Fixpoint bt_sorted (s : list Z) : Prop :=
  match s with
  | [] => True
  | x :: s' => (forall y, y ∈ s' -> x < y) /\ bt_sorted s'
  end.

(** ** [alloc::collections::BTreeMap] with word keys: an association list sorted
    by key, which is the order [iter] visits it in *)

Fixpoint bm_insert {V} (k : Z) (v : V) (m : list (Z * V)) : list (Z * V) :=
  match m with
  | [] => [(k, v)]
  | (k', v') :: m' =>
      if k <? k' then (k, v) :: m
      else if k =? k' then (k, v) :: m'
      else (k', v') :: bm_insert k v m'
  end.

Definition bm_get {V} (k : Z) (m : list (Z * V)) : option V :=
  snd <$> head (filter (fun e => e.1 = k) m).

Definition bm_remove {V} (k : Z) (m : list (Z * V)) : list (Z * V) :=
  filter (fun e => e.1 <> k) m.

(** A fold that stops at the first panic: the shape of a [for] loop. *)
Fixpoint pfold {A S} (f : A -> S -> panics S) (l : list A) (s : S) : panics S :=
  match l with
  | [] => Done s
  | x :: l' => s' <-! f x s ;; pfold f l' s'
  end.

(** ** Tactics *)

(** Splits on every boolean comparison the goal or a hypothesis tests. *)
Ltac cases_b :=
  repeat match goal with
  | H : context [if ?b then _ else _] |- _ =>
      lazymatch b with
      | context [if _ then _ else _] => fail
      | _ => let E := fresh "E" in destruct b eqn:E
      end
  | |- context [if ?b then _ else _] =>
      lazymatch b with
      | context [if _ then _ else _] => fail
      | _ => let E := fresh "E" in destruct b eqn:E
      end
  end.

(** [ltac:(set_field eta proj)] is the function that replaces the field [proj]
    of a record, from the record's eta expansion [eta]. *)
Ltac set_field eta proj :=
  let e := eval unfold eta in eta in
  let p := eval pattern proj in e in
  lazymatch p with
  | ?s _ => let r := eval cbv beta in (fun v t => s (fun _ => v) t) in exact r
  end.

(** Reflects boolean tests into propositions. *)
Ltac to_prop :=
  repeat match goal with
  | H : (_ && _)%bool = true |- _ => apply andb_true_iff in H as [? ?]
  | H : (_ || _)%bool = false |- _ => apply orb_false_iff in H as [? ?]
  | H : negb _ = true |- _ => apply negb_true_iff in H
  | H : negb _ = false |- _ => apply negb_false_iff in H
  | H : (_ =? _) = true |- _ => apply Z.eqb_eq in H
  | H : (_ =? _) = false |- _ => apply Z.eqb_neq in H
  | H : (_ <? _) = true |- _ => apply Z.ltb_lt in H
  | H : (_ <? _) = false |- _ => apply Z.ltb_ge in H
  | H : (_ <=? _) = true |- _ => apply Z.leb_le in H
  | H : (_ <=? _) = false |- _ => apply Z.leb_gt in H
  end.

(** ** Word lemmas *)

Lemma W64_pos : 0 < W64.
Proof. reflexivity. Qed.

Lemma u64_range z : is_u64 (u64 z).
Proof. apply Z.mod_pos_bound, W64_pos. Qed.

Lemma u64_small z : is_u64 z -> u64 z = z.
Proof. apply Z.mod_small. Qed.

Lemma wadd_small a b : 0 <= a + b < W64 -> wadd a b = a + b.
Proof. apply u64_small. Qed.

Lemma wsub_small a b : 0 <= a - b < W64 -> wsub a b = a - b.
Proof. apply u64_small. Qed.

Lemma wmul_small a b : 0 <= a * b < W64 -> wmul a b = a * b.
Proof. apply u64_small. Qed.

Lemma wshl_pow2 k : 0 <= k < 64 -> wshl 1 k = 2 ^ k.
Proof.
  intros H. unfold wshl. rewrite (Z.mod_small k 64) by lia.
  rewrite Z.shiftl_1_l. apply u64_small. split; [lia |].
  apply Z.pow_lt_mono_r; lia.
Qed.

Lemma pos_tz_nonneg p : 0 <= pos_tz p.
Proof. induction p; simpl; lia. Qed.

Lemma trailing_zeros_pow2 k : 0 <= k -> trailing_zeros (2 ^ k) = k.
Proof.
  intros Hk. rewrite <- (Z2Nat.id k) by lia. generalize (Z.to_nat k) as n.
  induction n as [| n IH]; [reflexivity |].
  rewrite Nat2Z.inj_succ, Z.pow_succ_r by lia.
  pose proof (Z.pow_pos_nonneg 2 (Z.of_nat n)).
  destruct (2 ^ Z.of_nat n) as [| p | p]; try lia.
  change (2 * Zpos p) with (Zpos (xO p)).
  cbn [trailing_zeros pos_tz] in *. lia.
Qed.

Lemma pow2_bounds k : 0 <= k -> 0 < 2 ^ k.
Proof. intros. apply Z.pow_pos_nonneg; lia. Qed.

(** [x & !m] clears the bits of [m]; [x & !(2^k - 1)] rounds down. *)
Lemma land_wnot a m : is_u64 a -> is_u64 m -> Z.land a (wnot m) = Z.ldiff a m.
Proof.
  intros Ha Hm. rewrite Z.ldiff_land. assert (wnot m = Z.land (Z.lnot m) (Z.ones 64)) as ->.
  { rewrite Z.land_ones by lia. unfold wnot, is_u64, W64, Z.lnot in *.
    apply (Z.mod_unique _ _ (-1)); lia. }
  rewrite (Z.land_comm (Z.lnot m)), Z.land_assoc, Z.land_ones by lia.
  rewrite Z.mod_small by exact Ha. done.
Qed.

Lemma land_round_down a k : is_u64 a -> 0 <= k < 64 -> Z.land a (wnot (2 ^ k - 1)) = a - a mod 2 ^ k.
Proof.
  intros Ha Hk. assert (0 < 2 ^ k < W64) by (split; [lia | apply Z.pow_lt_mono_r; lia]).
  rewrite land_wnot; [| done | unfold is_u64; lia].
  rewrite Z.sub_1_r, <- Z.ones_equiv, Z.ldiff_ones_r, Z.shiftl_mul_pow2, Z.shiftr_div_pow2 by lia.
  pose proof (Z.div_mod a (2 ^ k) ltac:(lia)). lia.
Qed.

(** ** Loop rule *)

(** Total correctness of [iter_until] from a state invariant and a measure. *)
Lemma iter_until_total {S R} (body : S -> S + R)
    (Inv : S -> Prop) (m : S -> Z) (Post : R -> Prop) :
  (forall s, Inv s ->
     match body s with
     | inl s' => Inv s' /\ 0 <= m s' < m s
     | inr r => Post r
     end) ->
  forall n s, Inv s ->
    match iter_until n body s with
    | inl s' => Inv s' /\ 0 <= m s' <= m s - 2 ^ Z.of_nat n
    | inr r => Post r
    end.
Proof.
  intros Hb n. induction n as [| n IH]; intros s Hs.
  - simpl. specialize (Hb s Hs). destruct (body s); [| done].
    destruct Hb as [? ?]. split; [done | lia].
  - cbn [iter_until]. pose proof (IH s Hs) as H1.
    destruct (iter_until n body s) as [s1 | r1]; [| done].
    destruct H1 as [Hi1 Hm1]. pose proof (IH s1 Hi1) as H2.
    destruct (iter_until n body s1) as [s2 | r2]; [| done].
    destruct H2 as [Hi2 Hm2]. split; [done |].
    rewrite Nat2Z.inj_succ, Z.pow_succ_r by lia. lia.
Qed.

Lemma while64_total {S R} (body : S -> S + R)
    (Inv : S -> Prop) (m : S -> Z) (Post : R -> Prop) s :
  (forall s, Inv s ->
     match body s with
     | inl s' => Inv s' /\ 0 <= m s' < m s
     | inr r => Post r
     end) ->
  Inv s -> m s < W64 ->
  exists r, while64 body s = Some r /\ Post r.
Proof.
  intros Hb Hs Hm. pose proof (iter_until_total body Inv m Post Hb 64 s Hs) as H.
  unfold while64. destruct (iter_until 64 body s) as [s' | r].
  - destruct H as [_ H]. change (2 ^ Z.of_nat 64) with W64 in H. lia.
  - eauto.
Qed.

(** A loop that leaves in its first, or in its second, turn. *)
Lemma iter_until_leaves {S R} (body : S -> S + R) n s r : body s = inr r -> iter_until n body s = inr r.
Proof. intros Hb. induction n as [| n IH]; cbn [iter_until]; [done |]. by rewrite IH. Qed.

Lemma while64_leaves {S R} (body : S -> S + R) s r : body s = inr r -> while64 body s = Some r.
Proof. intros Hb. unfold while64. by rewrite (iter_until_leaves body 64 s r Hb). Qed.

Lemma while64_leaves2 {S R} (body : S -> S + R) s s1 r :
  body s = inl s1 -> body s1 = inr r -> while64 body s = Some r.
Proof.
  intros Hs Hs1. assert (forall n, iter_until (Datatypes.S n) body s = inr r) as Hn.
  { induction n as [| n IH]; cbn [iter_until] in *; [by rewrite Hs | by rewrite IH]. }
  unfold while64. by rewrite (Hn 63%nat).
Qed.

(** Two loops whose bodies correspond along [f] return the same. *)
Lemma while64_sim {S S' R} (f : S -> S') (body : S -> S + R) (body' : S' -> S' + R) s :
  (forall s, body' (f s) = match body s with inl s1 => inl (f s1) | inr r => inr r end) ->
  while64 body' (f s) = while64 body s.
Proof.
  intros Hb. assert (forall n s, iter_until n body' (f s) =
    match iter_until n body s with inl s1 => inl (f s1) | inr r => inr r end) as Hn.
  { induction n as [| n IH]; intros s'; cbn [iter_until]; [apply Hb |].
    rewrite IH. destruct (iter_until n body s'); [apply IH | done]. }
  unfold while64. rewrite Hn. by destruct (iter_until 64 body s).
Qed.

(** ** BTreeSet lemmas *)

Lemma elem_of_bt_insert x y s : y ∈ bt_insert x s <-> y = x \/ y ∈ s.
Proof.
  induction s as [| z s IH]; simpl; [set_solver |].
  cases_b; to_prop; subst; set_solver.
Qed.

Lemma bt_insert_sorted x s : bt_sorted s -> bt_sorted (bt_insert x s).
Proof.
  induction s as [| z s IH]; simpl; [set_solver |].
  intros [Hz Hs]. cases_b; to_prop; subst; simpl; try done.
  - split; [| done]. intros y Hy. set_unfold in Hy. destruct Hy as [-> | Hy]; [done |].
    specialize (Hz y Hy). lia.
  - split; [| auto]. intros y Hy%elem_of_bt_insert. destruct Hy as [-> | Hy]; [lia | auto].
Qed.

Lemma bt_insert_length x s :
  bt_sorted s -> x ∉ s -> length (bt_insert x s) = S (length s).
Proof.
  induction s as [| z s IH]; simpl; [done |].
  intros [Hz Hs] Hx. cases_b; to_prop; subst; simpl; try done.
  - set_solver.
  - rewrite IH; set_solver.
Qed.

Lemma bt_remove_absent x s : x ∉ s -> bt_remove x s = (s, false).
Proof.
  induction s as [| z s IH]; simpl; [done |]. intros Hx.
  destruct (Z.eqb_spec x z); [set_solver |]. rewrite IH by set_solver. done.
Qed.

Lemma bt_remove_spec x s :
  bt_sorted s ->
  let '(s', b) := bt_remove x s in
  (b = true <-> x ∈ s) /\ bt_sorted s' /\ (forall y, y ∈ s' <-> y ∈ s /\ y <> x).
Proof.
  induction s as [| z s IH]; simpl; [set_solver |]. intros [Hz Hs].
  destruct (Z.eqb_spec x z) as [-> | Hne].
  - split; [set_solver |]. split; [done |]. intros y. split.
    + intros Hy. specialize (Hz y Hy). split; [set_solver | lia].
    + set_solver.
  - specialize (IH Hs). destruct (bt_remove x s) as [s' b].
    destruct IH as (Hb & Hs' & Hel). split; [set_solver |].
    split; [| set_solver]. simpl. split; [| done].
    intros y Hy%Hel. apply Hz, Hy.
Qed.

Lemma bt_first_elem s x : bt_first s = Some x -> x ∈ s.
Proof. destruct s; simpl; [done |]. intros [= ->]. set_solver. Qed.

Lemma bt_first_least s x y : bt_sorted s -> bt_first s = Some x -> y ∈ s -> x <= y.
Proof.
  destruct s; simpl; [done |]. intros [Hz _] [= ->] Hy. set_unfold in Hy.
  destruct Hy as [-> | Hy]; [lia |]. specialize (Hz y Hy). lia.
Qed.

(** ** List lemmas *)

Lemma list_filter_ext_in {A} (P Q : A -> Prop) `{forall x, Decision (P x), forall x, Decision (Q x)} (l : list A) :
  (forall x, x ∈ l -> P x <-> Q x) -> filter P l = filter Q l.
Proof.
  induction l as [| x l IH]; intros Hl; [done |]. rewrite !filter_cons.
  rewrite IH by set_solver. specialize (Hl x ltac:(set_solver)).
  destruct (decide (P x)), (decide (Q x)); tauto || done.
Qed.

(** ** Loops that may panic *)

(** Total correctness of [pfold] from an invariant. *)
Lemma pfold_inv {A S} (f : A -> S -> panics S) (I : S -> Prop) l s :
  I s -> (forall x s, x ∈ l -> I s -> exists s', f x s = Done s' /\ I s') ->
  exists s', pfold f l s = Done s' /\ I s'.
Proof.
  revert s. induction l as [| x l IH]; intros s Hs Hf; simpl; [eauto |].
  destruct (Hf x s ltac:(set_solver) Hs) as (s1 & -> & H1). simpl.
  apply IH; [done |]. intros y s2 Hy. apply Hf. set_solver.
Qed.

(** ** Map entries *)

Lemma bm_get_cons {V} k k' (v : V) m : bm_get k ((k', v) :: m) = if decide (k' = k) then Some v else bm_get k m.
Proof. unfold bm_get. rewrite filter_cons. by destruct (decide (k' = k)); destruct (decide _). Qed.

Lemma bm_get_insert_eq {V} k (v : V) m : bm_get k (bm_insert k v m) = Some v.
Proof.
  induction m as [| [k' v'] m IH]; simpl; [by rewrite bm_get_cons, decide_True |].
  destruct (k <? k'); [by rewrite bm_get_cons, decide_True |].
  destruct (Z.eqb_spec k k'); rewrite bm_get_cons; [by rewrite decide_True |]. by rewrite decide_False.
Qed.

Lemma bm_get_insert_ne {V} k j (v : V) m : j <> k -> bm_get j (bm_insert k v m) = bm_get j m.
Proof.
  intros Hne. induction m as [| [k' v'] m IH]; simpl; [by rewrite bm_get_cons, decide_False |].
  destruct (k <? k'); [by rewrite bm_get_cons, decide_False |].
  destruct (Z.eqb_spec k k') as [-> |]; rewrite !bm_get_cons; [by rewrite !decide_False |]. by rewrite IH.
Qed.

Lemma bm_get_remove_eq {V} k (m : list (Z * V)) : bm_get k (bm_remove k m) = None.
Proof.
  unfold bm_remove. induction m as [| [k' v'] m IH]; [done |]. rewrite filter_cons. destruct (decide _) as [Hd |]; [| done].
  rewrite bm_get_cons, decide_False by done. exact IH.
Qed.

Lemma bm_get_remove_ne {V} k j (m : list (Z * V)) : j <> k -> bm_get j (bm_remove k m) = bm_get j m.
Proof.
  intros Hne. unfold bm_remove. induction m as [| [k' v'] m IH]; [done |]. rewrite filter_cons, bm_get_cons.
  destruct (decide _) as [Hd | Hd]; simpl in Hd.
  - rewrite bm_get_cons. by rewrite IH.
  - rewrite decide_False by (intros ->; by apply Hd). exact IH.
Qed.

Lemma bm_get_insert {V} k j (v : V) m : bm_get j (bm_insert k v m) = if decide (j = k) then Some v else bm_get j m.
Proof. destruct (decide _) as [-> |]; [apply bm_get_insert_eq | by apply bm_get_insert_ne]. Qed.

Lemma bm_get_remove {V} k j (m : list (Z * V)) : bm_get j (bm_remove k m) = if decide (j = k) then None else bm_get j m.
Proof. destruct (decide _) as [-> |]; [apply bm_get_remove_eq | by apply bm_get_remove_ne]. Qed.

(** The keys of a map built by [bm_insert] are strictly ascending. *)
Definition bm_sorted {V} (m : list (Z * V)) : Prop := StronglySorted Z.lt (fst <$> m).

Lemma bm_insert_keys {V} k (v : V) m x : x ∈ fst <$> bm_insert k v m <-> x = k \/ x ∈ fst <$> m.
Proof.
  induction m as [| [k' v'] m IH]; simpl; [set_solver |].
  destruct (k <? k'); simpl; [set_solver |]. destruct (Z.eqb_spec k k') as [-> |]; simpl; set_solver.
Qed.

Lemma bm_insert_sorted {V} k (v : V) m : bm_sorted m -> bm_sorted (bm_insert k v m).
Proof.
  unfold bm_sorted. induction m as [| [k' v'] m IH]; simpl; intros H; [by repeat constructor |].
  apply StronglySorted_inv in H as [H Hall]. destruct (Z.ltb_spec k k'); simpl.
  { constructor; [by constructor |]. constructor; [done |]. eapply Forall_impl; [exact Hall | simpl; lia]. }
  destruct (Z.eqb_spec k k') as [-> |]; simpl; constructor; try done; [by apply IH |].
  apply Forall_forall. intros x [-> | Hx]%bm_insert_keys; [lia |]. by apply (proj1 (Forall_forall _ _) Hall).
Qed.

(** Filtering the entries keeps the order. *)
Lemma bm_filter_sorted {V} (P : Z * V -> Prop) `{!forall e, Decision (P e)} m : bm_sorted m -> bm_sorted (filter P m).
Proof.
  unfold bm_sorted. induction m as [| e m IH]; intros Hs; [done |]. apply StronglySorted_inv in Hs as [Hs Hall].
  rewrite filter_cons. destruct (decide (P e)); [| by apply IH]. simpl. constructor; [by apply IH |].
  rewrite Forall_forall in Hall |- *. intros x (e' & -> & [_ He]%list_elem_of_filter)%list_elem_of_fmap.
  apply Hall. by apply list_elem_of_fmap_2.
Qed.

Lemma bm_get_sorted {V} k (v : V) m : bm_sorted m -> bm_get k m = Some v <-> (k, v) ∈ m.
Proof.
  unfold bm_sorted. induction m as [| [k' v'] m IH]; intros H.
  - split; [done |]. by intros ?%not_elem_of_nil.
  - apply StronglySorted_inv in H as [H Hall]. rewrite bm_get_cons, elem_of_cons.
    destruct (decide (k' = k)) as [-> |]; [| rewrite IH by done; naive_solver].
    split; [intros [= ->]; by left |]. intros [[= ->] | Hin]; [done |]. exfalso.
    rewrite Forall_forall in Hall. specialize (Hall k). simpl in Hall.
    assert (k < k) by (apply Hall; apply (list_elem_of_fmap_2 fst) in Hin; exact Hin). lia.
Qed.

Lemma bm_insert_perm {V} k (v : V) m : k ∉ m.*1 -> bm_insert k v m ≡ₚ (k, v) :: m.
Proof.
  induction m as [| [k' v'] m IH]; cbn; intros Hk; [done |]. apply not_elem_of_cons in Hk as [Hne Hk].
  destruct (k <? k'); [done |]. destruct (Z.eqb_spec k k'); [done |]. rewrite IH by done. apply Permutation_swap.
Qed.

Lemma filter_keep {A} (P : A -> Prop) `{!forall x, Decision (P x)} l : Forall P l -> filter P l = l.
Proof. induction 1 as [| x l Hx _ IH]; [done |]. by rewrite filter_cons, decide_True, IH. Qed.

Lemma bm_remove_perm {V} k (v : V) m : bm_sorted m -> bm_get k m = Some v -> m ≡ₚ (k, v) :: bm_remove k m.
Proof.
  unfold bm_sorted. induction m as [| [k' v'] m IH]; intros Hs; [done |]. apply StronglySorted_inv in Hs as [Hs Hall]. rewrite bm_get_cons.
  unfold bm_remove in *. rewrite filter_cons. cbn [fst]. destruct (decide (k' = k)) as [-> | Hne].
  - intros [= ->]. rewrite decide_False by (intros ?; done). rewrite filter_keep; [done |]. apply (Forall_fmap (fst : Z * V -> Z) (Z.lt k) m) in Hall. eapply Forall_impl; [exact Hall |]. intros e He ?. cbn in He. lia.
  - intros Hg. rewrite decide_True by done. rewrite Permutation_swap. by apply Permutation_cons, IH.
Qed.

Lemma bm_insert_same {V A} (f : V -> A) k v v' m : bm_sorted m -> bm_get k m = Some v -> f v' = f v -> (fun e => f e.2) <$> bm_insert k v' m = (fun e => f e.2) <$> m.
Proof.
  intros Hs. induction m as [| [j u] m IH]; [done |]. apply StronglySorted_inv in Hs as [Hs Hall]. rewrite Forall_forall in Hall. rewrite bm_get_cons. cbn [bm_insert].
  destruct (decide (j = k)) as [-> | Hne].
  - intros [= ->] E. rewrite Z.ltb_irrefl, Z.eqb_refl. cbn. by rewrite E.
  - intros Hg E. assert (k ∈ fst <$> m) as Hk by (apply (bm_get_sorted _ _ _ Hs) in Hg; by apply (list_elem_of_fmap_2 fst _ (k, v))). apply Hall in Hk. cbn in Hk.
    destruct (Z.ltb_spec k j), (Z.eqb_spec k j); try lia. cbn. by rewrite IH.
Qed.

Lemma bm_sorted_nodup {V} (m : list (Z * V)) : bm_sorted m -> NoDup (fst <$> m).
Proof.
  unfold bm_sorted. induction (fst <$> m) as [| x l IH]; [constructor |]. intros [Hs Hall]%StronglySorted_inv. constructor; [| by apply IH]. intros Hx. rewrite Forall_forall in Hall. pose proof (Hall x Hx). lia.
Qed.

Lemma bm_get_none {V} k (m : list (Z * V)) : bm_get k m = None -> k ∉ m.*1.
Proof.
  induction m as [| [j u] m IH]; [intros _; apply not_elem_of_nil |]. rewrite bm_get_cons. destruct (decide (j = k)); [done |]. intros Hg. apply not_elem_of_cons. split; [done | by apply IH].
Qed.

Lemma NoDup_fmap_eq {A B} (f : A -> B) (l : list A) x y : NoDup (f <$> l) -> x ∈ l -> y ∈ l -> f x = f y -> x = y.
Proof.
  induction l as [| z l IH]; simpl; [by intros _ ?%not_elem_of_nil |]. intros [Hz Hnd]%NoDup_cons Hx Hy E.
  apply elem_of_cons in Hx as [-> | Hx]; apply elem_of_cons in Hy as [-> | Hy]; [done | | | by apply IH];
    exfalso; apply Hz; [rewrite E | rewrite <- E]; by apply list_elem_of_fmap_2.
Qed.

(** ** Bit fields *)

Lemma land_mod a k : 0 <= k -> Z.land a (2 ^ k - 1) = a mod 2 ^ k.
Proof. intros Hk. rewrite <- Z.land_ones by done. by rewrite Z.ones_equiv, <- Z.sub_1_r. Qed.

Lemma wshl_val a k : 0 <= k < 64 -> 0 <= a -> a * 2 ^ k < W64 -> wshl a k = a * 2 ^ k.
Proof.
  intros Hk Ha Hw. unfold wshl. rewrite (Z.mod_small k) by lia. rewrite Z.shiftl_mul_pow2 by lia. apply u64_small. split; [nia | done].
Qed.

(** Fields side by side: a shifted value above the bits of the lower one. *)
Lemma lor_above lo hi k : 0 <= k < 64 -> 0 <= lo < 2 ^ k -> 0 <= hi -> hi * 2 ^ k < W64 ->
  Z.lor lo (wshl hi k) = lo + hi * 2 ^ k.
Proof.
  intros Hk Hlo Hhi Hw. rewrite wshl_val, <- Z.shiftl_mul_pow2 by lia. rewrite <- Z.add_nocarry_lor; [done |].
  apply Z.bits_inj'. intros n Hn. rewrite Z.land_spec, Z.bits_0. destruct (Z.ltb_spec n k).
  - rewrite Z.shiftl_spec_low by lia. apply andb_false_r.
  - rewrite <- (Z.mod_small lo (2 ^ k)), Z.mod_pow2_bits_high by lia. done.
Qed.

#[export] Hint Resolve u64_range bt_insert_sorted : orbit.

