(* ===== verification/Text.v ===== *)
(** * Bytes and text

    What the sources use of Rust's strings and integers as bytes: UTF-8 validity,
    the order and prefixes of byte strings, little-endian words, and a memory
    of bytes. *)

From stdpp Require Import base list option numbers sets gmap.
From S2P Require Import Prelude.
#[local] Open Scope Z_scope.

Definition checked_mul (a b : Z) : option Z := if a * b <? W64 then Some (a * b) else None.

(** An integer as [n] bytes, the least first, and back. *)
Fixpoint le_bytes (n : nat) (x : Z) : list Z :=
  match n with O => [] | S n => x mod 256 :: le_bytes n (x / 256) end.

Fixpoint le_value (l : list Z) : Z :=
  match l with [] => 0 | b :: l => b + 256 * le_value l end.

(** [core::str::from_utf8], as a test. *)
Definition cont (b : Z) : bool := (0x80 <=? b) && (b <=? 0xBF).

Fixpoint utf8_valid (l : list Z) : bool :=
  match l with
  | [] => true
  | a :: l1 =>
      if a <? 0x80 then utf8_valid l1
      else if (0xC2 <=? a) && (a <=? 0xDF) then
        match l1 with b :: l2 => cont b && utf8_valid l2 | _ => false end
      else if (0xE0 <=? a) && (a <=? 0xEF) then
        match l1 with
        | b :: c :: l3 =>
            cont b && (if a =? 0xE0 then 0xA0 <=? b else if a =? 0xED then b <=? 0x9F else true) && cont c && utf8_valid l3
        | _ => false
        end
      else if (0xF0 <=? a) && (a <=? 0xF4) then
        match l1 with
        | b :: c :: d :: l4 =>
            cont b && (if a =? 0xF0 then 0x90 <=? b else if a =? 0xF4 then b <=? 0x8F else true) && cont c && cont d && utf8_valid l4
        | _ => false
        end
      else false
  end.

(** The lexicographic order of byte strings. *)
Fixpoint bytes_lt (a b : list Z) : bool :=
  match a, b with
  | [], [] => false
  | [], _ :: _ => true
  | _ :: _, [] => false
  | x :: a, y :: b => if x <? y then true else if y <? x then false else bytes_lt a b
  end.

Fixpoint starts_with (p s : list Z) : bool :=
  match p, s with
  | [], _ => true
  | _ :: _, [] => false
  | x :: p, y :: s => (x =? y) && starts_with p s
  end.

(** [n] bytes from [f 0 ..] at [pa], in a memory of bytes. *)
Definition write_bytes (pa : Z) (n : nat) (f : nat -> Z) (m : gmap Z Z) : gmap Z Z :=
  foldl (fun m i => <[pa + Z.of_nat i := f i]> m) m (seq 0 n).

(** [out[at..at+len].copy_from_slice(l)]. *)
Definition write_at (at_ : nat) (l out : list Z) : list Z := take at_ out ++ l ++ drop (at_ + length l) out.

(** ** Memory *)

Lemma write_bytes_other pa n g m a : ~ (pa <= a < pa + Z.of_nat n) -> write_bytes pa n g m !! a = m !! a.
Proof.
  unfold write_bytes. induction n as [| n IH]; intros Ha; [done |]. rewrite seq_S, foldl_app. simpl.
  rewrite lookup_insert_ne by lia. apply IH. lia.
Qed.

Lemma write_bytes_at pa n g m i : 0 <= i < Z.of_nat n -> write_bytes pa n g m !! (pa + i) = Some (g (Z.to_nat i)).
Proof.
  unfold write_bytes. induction n as [| n IH]; intros Hi; [lia |]. rewrite seq_S, foldl_app. simpl.
  destruct (decide (i = Z.of_nat n)) as [-> | Hne]; [by rewrite lookup_insert_eq, Nat2Z.id |].
  rewrite lookup_insert_ne by lia. apply IH. lia.
Qed.

Lemma write_at_app a b c l : length b = length l -> write_at (length a) l (a ++ b ++ c) = a ++ l ++ c.
Proof.
  intros Hl. unfold write_at. rewrite take_app_length, <- Hl, <- drop_drop. by rewrite !drop_app_length.
Qed.

(** ** Words *)

Lemma le_bytes_length n x : length (le_bytes n x) = n.
Proof. revert x. induction n as [| n IH]; intros x; [done |]. simpl. by rewrite IH. Qed.

Lemma le_value_bytes n x : 0 <= x < 256 ^ Z.of_nat n -> le_value (le_bytes n x) = x.
Proof.
  revert x. induction n as [| n IH]; intros x Hx; [simpl in *; lia |]. rewrite Nat2Z.inj_succ, Z.pow_succ_r in Hx by lia. cbn [le_bytes le_value].
  pose proof (Z.div_mod x 256 ltac:(lia)). rewrite IH; [lia |]. split; [apply Z.div_pos; lia | apply Z.div_lt_upper_bound; lia].
Qed.

(** ** Order and prefixes *)

Lemma bytes_lt_irrefl a : bytes_lt a a = false.
Proof. induction a as [| x a IH]; [done |]. simpl. by destruct (Z.ltb_spec x x); [lia |]. Qed.

Lemma bytes_lt_total a b : bytes_lt a b = false -> bytes_lt b a = false -> a = b.
Proof.
  revert b. induction a as [| x a IH]; intros [| y b]; simpl; try done. destruct (Z.ltb_spec x y), (Z.ltb_spec y x); try done.
  intros H1 H2. f_equal; [lia | by apply IH].
Qed.

Lemma bytes_lt_trans a b c : bytes_lt a b = true -> bytes_lt b c = true -> bytes_lt a c = true.
Proof.
  revert b c. induction a as [| x a IH]; intros [| y b] [| z c]; simpl; try done.
  destruct (Z.ltb_spec x y), (Z.ltb_spec y x), (Z.ltb_spec y z), (Z.ltb_spec z y), (Z.ltb_spec x z), (Z.ltb_spec z x); try done; try lia. apply IH.
Qed.

Lemma bytes_lt_asym a b : bytes_lt a b = true -> bytes_lt b a = false.
Proof.
  intros H. destruct (bytes_lt b a) eqn:E; [| done]. pose proof (bytes_lt_trans _ _ _ H E) as H'. by rewrite bytes_lt_irrefl in H'.
Qed.

Lemma starts_with_spec p s : starts_with p s = true <-> exists t, s = p ++ t.
Proof.
  revert s. induction p as [| x p IH]; intros s; simpl; [by split; [exists s |] |]. destruct s as [| y s]; [by split; [| intros [? ?]] |].
  rewrite andb_true_iff, IH, Z.eqb_eq. split; [intros [-> [t ->]]; by exists t | intros [t [= -> ->]]; by eauto].
Qed.

Lemma starts_not_below p a : starts_with p a = true -> bytes_lt a p = false.
Proof.
  revert a. induction p as [| x p IH]; intros [| y a]; simpl; try done. rewrite andb_true_iff, Z.eqb_eq. intros [-> H].
  destruct (Z.ltb_spec y y); [lia |]. by apply IH.
Qed.

(** The paths below a prefix are contiguous. *)
Lemma starts_between p a b : bytes_lt a p = false -> bytes_lt a b = true -> starts_with p b = true -> starts_with p a = true.
Proof.
  revert a b. induction p as [| x p IH]; intros [| y a] [| z b]; simpl; try done.
  rewrite !andb_true_iff, !Z.eqb_eq. intros H1 H2 [-> H3].
  destruct (Z.ltb_spec y z), (Z.ltb_spec z y); try done. split; [lia | by eapply IH].
Qed.

(** ** UTF-8 *)

(** The encodings of one character. *)
Definition utf8_char (c : list Z) : bool :=
  match c with
  | [a] => a <? 0x80
  | [a; b] => (0xC2 <=? a) && (a <=? 0xDF) && cont b
  | [a; b; c] => (0xE0 <=? a) && (a <=? 0xEF) && (cont b && (if a =? 0xE0 then 0xA0 <=? b else if a =? 0xED then b <=? 0x9F else true) && cont c)
  | [a; b; c; d] =>
      (0xF0 <=? a) && (a <=? 0xF4) && (cont b && (if a =? 0xF0 then 0x90 <=? b else if a =? 0xF4 then b <=? 0x8F else true) && cont c && cont d)
  | _ => false
  end.

Inductive utf8_str : list Z -> Prop :=
| utf8_nil : utf8_str []
| utf8_more c l : utf8_char c = true -> utf8_str l -> utf8_str (c ++ l).

Lemma utf8_sound_upto n : forall l, (length l <= n)%nat -> utf8_valid l = true -> utf8_str l.
Proof.
  induction n as [| n IH]; intros [| a l] Hl Hv; [constructor | simpl in Hl; lia | constructor |]. simpl length in Hl.
  simpl in Hv. destruct (a <? 128) eqn:E1; [apply (utf8_more [a]); [done | apply IH; [lia | done]] |].
  destruct ((194 <=? a) && (a <=? 223))%bool eqn:E2.
  - destruct l as [| b l]; [done |]. apply andb_true_iff in Hv as [Hb Hv]. apply (utf8_more [a; b]); [| apply IH; [simpl in Hl; lia | done]].
    unfold utf8_char. by rewrite E2, Hb.
  - destruct ((224 <=? a) && (a <=? 239))%bool eqn:E3.
    + destruct l as [| b [| c l]]; [done | done |]. apply andb_true_iff in Hv as [Hb Hv]. apply (utf8_more [a; b; c]); [| apply IH; [simpl in Hl; lia | done]].
      unfold utf8_char. by rewrite E3, Hb.
    + destruct ((240 <=? a) && (a <=? 244))%bool eqn:E4; [| done].
      destruct l as [| b [| c [| d l]]]; [done | done | done |]. apply andb_true_iff in Hv as [Hb Hv].
      apply (utf8_more [a; b; c; d]); [| apply IH; [simpl in Hl; lia | done]]. unfold utf8_char. by rewrite E4, Hb.
Qed.

Lemma utf8_complete l : utf8_str l -> utf8_valid l = true.
Proof.
  induction 1 as [| c l Hc _ IH]; [done |].
  destruct c as [| a [| b [| c [| d [| ? ?]]]]]; try done; cbn [utf8_char] in Hc; cbn [app utf8_valid]; [by rewrite Hc | | |];
    apply andb_true_iff in Hc as [Hr Hc]; assert (128 <= a) by (to_prop; lia); (destruct (Z.ltb_spec a 128); [lia |]).
  - by rewrite Hr, Hc.
  - destruct (_ && (a <=? 223))%bool eqn:E2; [to_prop; lia |]. by rewrite Hr, Hc.
  - destruct (_ && (a <=? 223))%bool eqn:E2; [to_prop; lia |]. destruct (_ && (a <=? 239))%bool eqn:E3; [to_prop; lia |]. by rewrite Hr, Hc.
Qed.

Lemma utf8_valid_str l : utf8_valid l = true <-> utf8_str l.
Proof. split; [by apply (utf8_sound_upto (length l)) | apply utf8_complete]. Qed.

Lemma utf8_app a b : utf8_str a -> utf8_str b -> utf8_str (a ++ b).
Proof. induction 1 as [| c l Hc _ IH]; intros Hb; [done |]. rewrite <- app_assoc. constructor; auto. Qed.

(** Only the first byte of a character can be plain. *)
Lemma utf8_char_tail c x : utf8_char c = true -> x ∈ tail c -> 0x80 <= x.
Proof.
  assert (forall y, cont y = true -> 128 <= y) as Hcont by (unfold cont; intros y Hy; to_prop; lia).
  destruct c as [| a [| b [| c [| d [| ? ?]]]]]; try done; cbn [utf8_char tail]; intros Hc; to_prop;
    rewrite ?elem_of_cons; intros Hx; destruct_or?; subst; auto; by apply not_elem_of_nil in Hx.
Qed.

Lemma utf8_char_head c x l : utf8_char c = true -> c = x :: l -> x < 0x80 -> l = [].
Proof. intros Hc -> Hx. destruct l as [| b [| c [| d [| ? ?]]]]; try done; cbn [utf8_char] in Hc; to_prop; lia. Qed.

(** A plain byte separates text into text. *)
Lemma utf8_split x l : x < 0x80 -> utf8_str l -> forall a b, l = a ++ x :: b -> utf8_str a /\ utf8_str b.
Proof.
  intros Hx. induction 1 as [| c l Hc Hl IH]; intros a b E; [by destruct a |].
  apply app_eq_app in E as (t & [[E1 E2] | [E1 E2]]).
  - destruct t as [| y t].
    + rewrite app_nil_r in E1. subst c. simpl in E2. destruct (IH [] b) as [_ Hb]; [by rewrite E2 |]. split; [rewrite <- (app_nil_r a); constructor; [done | constructor] | done].
    + injection E2 as <- ->. destruct a as [| z a].
      * simpl in E1. pose proof (utf8_char_head _ _ _ Hc E1 Hx) as ->. split; [constructor | done].
      * exfalso. pose proof (utf8_char_tail c x Hc) as Ht. rewrite E1 in Ht. simpl in Ht. specialize (Ht ltac:(set_solver)). lia.
  - subst a. destruct (IH t b E2) as [Ha Hb]. split; [by constructor | done].
Qed.

Lemma utf8_plain x : 0 <= x < 0x80 -> utf8_str [x].
Proof. intros Hx. apply (utf8_more [x] []); [apply Z.ltb_lt; lia | constructor]. Qed.
