(* ===== verification/ThingBuf.v ===== *)
(** * Bounded queues

    The kernel hands work between traps and the manager through [thingbuf]'s
    bounded lock-free queues, which are not part of the repository. [ThingBuf] is
    what the sources call of them, [ThingBufLaws] the documented behaviour of a
    bounded FIFO, and [ring] a lawful instance. *)

From stdpp Require Import base list option numbers sets gmap.
From S2P Require Import Prelude.
#[local] Open Scope Z_scope.

Class ThingBuf (B : Type -> Type) := {
  tb_push : forall {A}, A -> B A -> result (B A) A;
  tb_pop : forall {A}, B A -> option (A * B A);
  tb_len : forall {A}, B A -> Z;
}.

Class ThingBufLaws (B : Type -> Type) `{ThingBuf B} := {
  items : forall {A}, B A -> list A;
  tb_push_ok : forall A (x : A) b b', tb_push x b = Ok b' -> items b' = items b ++ [x];
  tb_push_err : forall A (x y : A) b, tb_push x b = Err y -> y = x;
  tb_pop_some : forall A (x : A) b b', tb_pop b = Some (x, b') -> items b = x :: items b';
  tb_pop_none : forall A (b : B A), tb_pop b = None -> items b = [];
  tb_len_items : forall A (b : B A), tb_len b = Z.of_nat (length (items b));
}.

(** A bounded list, the simplest lawful ring. *)
Record ring (A : Type) := mkRing { rcap : nat; rlist : list A }.
Arguments mkRing {A}.
Arguments rcap {A}.
Arguments rlist {A}.

#[export] Instance ring_buf : ThingBuf ring := {
  tb_push A x b := if decide (length (rlist b) < rcap b)%nat
                   then Ok (mkRing (rcap b) (rlist b ++ [x])) else Err x;
  tb_pop A b := match rlist b with
                | [] => None
                | x :: l => Some (x, mkRing (rcap b) l)
                end;
  tb_len A b := Z.of_nat (length (rlist b));
}.

#[export] Program Instance ring_laws : ThingBufLaws ring := {| items := @rlist |}.
Next Obligation. intros A x b b'. simpl. case_match; [| done]. by intros [= <-]. Qed.
Next Obligation. intros A x y b. simpl. case_match; [done |]. by intros [= <-]. Qed.
Next Obligation. intros A x b b'. simpl. destruct (rlist b); [done |]. by intros [= -> <-]. Qed.
Next Obligation. intros A b. simpl. by destruct (rlist b). Qed.
Next Obligation. done. Qed.
