(* ===== verification/Buddy.v ===== *)
(** * The physical frame allocator ([mem/src/lib.rs], [mem/src/frame.rs])

    Word rounding helpers and the buddy-system [FrameAllocator]. The free list
    is the source's array of [ORDER] ordered sets; an operation takes the
    allocator and returns the new one with its result. *)

From stdpp Require Import base list option numbers sets gmap.
From S2P Require Import Prelude.

#[local] Open Scope Z_scope.

(** ** Rounding helpers *)

Definition prev_power_of_two (num : Z) : Z :=
  wshl 1 (wsub (wsub 64 (leading_zeros num)) 1).

Definition round_u64_up (n modulo : Z) : Z :=
  if n mod modulo =? 0 then n else wmul (wadd (n / modulo) 1) modulo.

Definition round_u64_down (n modulo : Z) : Z :=
  if n mod modulo =? 0 then n else wmul (n / modulo) modulo.

(** ** The allocator *)

Record FrameAllocator := mkFrameAllocator {
  free_list : list (list Z);
  allocated : Z;
  total : Z;
}.

(** [core::alloc::Layout], the two fields the allocator reads. *)
Record Layout := mkLayout { lsize : Z; lalign : Z }.

Definition new (ORDER : nat) : FrameAllocator :=
  mkFrameAllocator (replicate ORDER []) 0 0.

(** The free list of a size class. *)
Definition class_list (fl : list (list Z)) (c : nat) : list Z := default [] (fl !! c).

(** One iteration of the [while] of [add_frame]; the state is
    [(current_start, total, free_list)]. *)
Definition add_frame_step (end_ : Z) (st : Z * Z * list (list Z))
    : Z * Z * list (list Z) + panics (Z * list (list Z)) :=
  let '(current_start, tot, fl) := st in
  if current_start <? end_ then
    let lowbit :=
      if 0 <? current_start
      then Z.land current_start (wadd (wnot current_start) 1)
      else 32 in
    let size :=
      Z.min (Z.min lowbit (prev_power_of_two (wsub end_ current_start)))
            (wshl 1 (Z.of_nat (length fl) - 1)) in
    let c := Z.to_nat (trailing_zeros size) in
    match fl !! c with
    | None => inr Panic
    | Some s =>
        inl (wadd current_start size, wadd tot size, <[c := bt_insert current_start s]> fl)
    end
  else inr (Done (tot, fl)).

(** [add_frame] asserts [start <= end] and panics otherwise. [None] is a loop
    that does not stop; [add_frame_total] shows it does not occur. *)
Definition add_frame (fa : FrameAllocator) (start end_ : Z) : option (panics FrameAllocator) :=
  if start <=? end_ then
    match while64 (add_frame_step end_) (start, 0, free_list fa) with
    | None => None
    | Some Panic => Some Panic
    | Some (Done (tot, fl)) =>
        Some (Done (mkFrameAllocator fl (allocated fa) (wadd (total fa) tot)))
    end
  else Some Panic.

(** First class [>= c] with a free block: the [for i in class..len] search. *)
Fixpoint find_class (n : nat) (fl : list (list Z)) (c : nat) : option nat :=
  match n with
  | O => None
  | S n' =>
      match class_list fl c with
      | [] => find_class n' fl (S c)
      | _ => Some c
      end
  end.

(** The [for j in (class + 1..i + 1).rev()] split loop, [n = i - class]
    iterations; [false] is the early [return None]. *)
Fixpoint split_loop (n : nat) (class : nat) (fl : list (list Z)) : list (list Z) * bool :=
  match n with
  | O => (fl, true)
  | S n' =>
      let j := (class + n)%nat in
      match bt_first (class_list fl j) with
      | Some block =>
          let fl1 := <[(j - 1)%nat := bt_insert (wadd block (wshl 1 (Z.of_nat j - 1)))
                                          (class_list fl (j - 1))]> fl in
          let fl2 := <[(j - 1)%nat := bt_insert block (class_list fl1 (j - 1))]> fl1 in
          let fl3 := <[j := fst (bt_remove block (class_list fl2 j))]> fl2 in
          split_loop n' class fl3
      | None => (fl, false)
      end
  end.

Definition set_free_list (fa : FrameAllocator) (fl : list (list Z)) : FrameAllocator :=
  mkFrameAllocator fl (allocated fa) (total fa).

Definition alloc_power_of_two (fa : FrameAllocator) (size : Z) : FrameAllocator * option Z :=
  let class := Z.to_nat (trailing_zeros size) in
  match find_class (length (free_list fa) - class) (free_list fa) class with
  | None => (fa, None)
  | Some i =>
      let '(fl, ok) := split_loop (i - class) class (free_list fa) in
      if ok then
        match bt_first (class_list fl class) with
        | Some r =>
            (mkFrameAllocator (<[class := fst (bt_remove r (class_list fl class))]> fl)
                              (wadd (allocated fa) size) (total fa), Some r)
        | None => (set_free_list fa fl, None)
        end
      else (set_free_list fa fl, None)
  end.

Definition alloc (fa : FrameAllocator) (count : Z) : FrameAllocator * option Z :=
  alloc_power_of_two fa (next_power_of_two count).

Definition layout_size (layout : Layout) : Z :=
  Z.max (next_power_of_two (lsize layout)) (lalign layout).

Definition alloc_aligned (fa : FrameAllocator) (layout : Layout) : FrameAllocator * option Z :=
  alloc_power_of_two fa (layout_size layout).

(** The merge loop of [dealloc_power_of_two], [n = len - current_class]
    iterations at most; falling off the end inserts nothing. *)
Fixpoint dealloc_loop (n : nat) (fl : list (list Z)) (current_ptr : Z) (current_class : nat)
    : list (list Z) :=
  match n with
  | O => fl
  | S n' =>
      let buddy := Z.lxor current_ptr (wshl 1 (Z.of_nat current_class)) in
      let '(s, found) := bt_remove buddy (class_list fl current_class) in
      if found
      then dealloc_loop n' (<[current_class := s]> fl) (Z.min current_ptr buddy) (S current_class)
      else <[current_class := bt_insert current_ptr (class_list fl current_class)]> fl
  end.

Definition dealloc_power_of_two (fa : FrameAllocator) (start_frame size : Z) : FrameAllocator :=
  let class := Z.to_nat (trailing_zeros size) in
  mkFrameAllocator
    (dealloc_loop (length (free_list fa) - class) (free_list fa) start_frame class)
    (wsub (allocated fa) size) (total fa).

Definition dealloc (fa : FrameAllocator) (start_frame count : Z) : FrameAllocator :=
  dealloc_power_of_two fa start_frame (next_power_of_two count).

Definition dealloc_aligned (fa : FrameAllocator) (start_frame : Z) (layout : Layout)
    : FrameAllocator :=
  dealloc_power_of_two fa start_frame (layout_size layout).

(** ** Specification

    [cov fl x] counts the free blocks that contain frame [x]. The free set is
    where it is 1; well-formedness says it is never more. *)

Definition in_block (c : nat) (b x : Z) : nat :=
  if (b <=? x) && (x <? b + 2 ^ Z.of_nat c) then 1%nat else 0%nat.

Fixpoint cov_list (c : nat) (s : list Z) (x : Z) : nat :=
  match s with
  | [] => 0%nat
  | b :: s' => (in_block c b x + cov_list c s' x)%nat
  end.

Fixpoint cov_from (c : nat) (fl : list (list Z)) (x : Z) : nat :=
  match fl with
  | [] => 0%nat
  | s :: fl' => (cov_list c s x + cov_from (S c) fl' x)%nat
  end.

Definition cov (fl : list (list Z)) (x : Z) : nat := cov_from 0 fl x.

(** Units on the free lists. *)
Fixpoint units_from (c : nat) (fl : list (list Z)) : Z :=
  match fl with
  | [] => 0
  | s :: fl' => 2 ^ Z.of_nat c * Z.of_nat (length s) + units_from (S c) fl'
  end.

Definition free_units (fl : list (list Z)) : Z := units_from 0 fl.

(** A block of class [c] at [b]: naturally aligned and inside the word range. *)
Definition block_ok (c : nat) (b : Z) : Prop :=
  0 <= b /\ (2 ^ Z.of_nat c | b) /\ b + 2 ^ Z.of_nat c <= W64.

Record fl_wf (fl : list (list Z)) : Prop := {
  wf_order : (1 <= length fl <= 64)%nat;
  wf_sorted : forall c s, fl !! c = Some s -> bt_sorted s;
  wf_blocks : forall c s b, fl !! c = Some s -> b ∈ s -> block_ok c b;
  wf_disjoint : forall x, (cov fl x <= 1)%nat;
}.

(** The free set of an allocator state: the abstract state of the component. *)
Definition is_free (fa : FrameAllocator) (x : Z) : Prop := cov (free_list fa) x = 1%nat.

(** The allocator invariant: disjoint aligned free blocks, and the two
    counters account for every unit ever added. *)
Record fa_wf (fa : FrameAllocator) : Prop := {
  fa_lists : fl_wf (free_list fa);
  fa_units : total fa = allocated fa + free_units (free_list fa);
  fa_alloc : 0 <= allocated fa;
  fa_total : total fa < W64;
}.

(** ** Counting lemmas *)

Lemma in_block_1 c b x : in_block c b x = 1%nat <-> b <= x < b + 2 ^ Z.of_nat c.
Proof.
  unfold in_block. destruct ((b <=? x) && (x <? b + 2 ^ Z.of_nat c)) eqn:E.
  - to_prop. lia.
  - split; [done |]. intros ?. apply andb_false_iff in E as [E | E]; to_prop; lia.
Qed.

Lemma in_block_le c b x : (in_block c b x <= 1)%nat.
Proof. unfold in_block. cases_b; lia. Qed.

Lemma in_block_0 c b x : in_block c b x = 0%nat <-> ~ (b <= x < b + 2 ^ Z.of_nat c).
Proof.
  rewrite <- in_block_1. pose proof (in_block_le c b x). lia.
Qed.

(** A block is the disjoint union of its two halves. *)
Lemma in_block_split c b x :
  (in_block (S c) b x = in_block c b x + in_block c (b + 2 ^ Z.of_nat c) x)%nat.
Proof.
  assert (2 ^ Z.of_nat (S c) = 2 * 2 ^ Z.of_nat c) as E.
  { rewrite Nat2Z.inj_succ, Z.pow_succ_r by lia. done. }
  pose proof (pow2_bounds (Z.of_nat c)).
  unfold in_block. rewrite E.
  destruct (Z.leb_spec b x), (Z.ltb_spec x (b + 2 * 2 ^ Z.of_nat c)),
    (Z.ltb_spec x (b + 2 ^ Z.of_nat c)), (Z.leb_spec (b + 2 ^ Z.of_nat c) x),
    (Z.ltb_spec x (b + 2 ^ Z.of_nat c + 2 ^ Z.of_nat c)); simpl; lia.
Qed.

Lemma cov_list_insert c s b x :
  b ∉ s -> cov_list c (bt_insert b s) x = (in_block c b x + cov_list c s x)%nat.
Proof.
  induction s as [| y s IH]; simpl; [done |]. intros Hb.
  destruct (b <? y); [done |]. destruct (Z.eqb_spec b y); [set_solver |].
  simpl. rewrite IH by set_solver. lia.
Qed.

Lemma cov_list_remove c s b x :
  b ∈ s -> (in_block c b x + cov_list c (fst (bt_remove b s)) x = cov_list c s x)%nat.
Proof.
  induction s as [| y s IH]; simpl; [set_solver |]. intros Hb.
  destruct (Z.eqb_spec b y) as [-> | Hne]; [done |].
  destruct (bt_remove b s) as [s' f]. simpl in *. rewrite <- IH by set_solver. lia.
Qed.

Lemma bt_remove_length b s :
  b ∈ s -> S (length (fst (bt_remove b s))) = length s.
Proof.
  induction s as [| y s IH]; simpl; [set_solver |]. intros Hb.
  destruct (Z.eqb_spec b y) as [-> | Hne]; [done |].
  destruct (bt_remove b s) as [s' f]. simpl in *. rewrite IH by set_solver. done.
Qed.

Lemma cov_list_elem c s b x :
  b ∈ s -> b <= x < b + 2 ^ Z.of_nat c -> (1 <= cov_list c s x)%nat.
Proof.
  intros Hb Hx. rewrite <- (cov_list_remove c s b x Hb).
  rewrite (proj2 (in_block_1 c b x) Hx). lia.
Qed.

Lemma cov_from_insert k c fl s s' x :
  fl !! c = Some s ->
  (cov_from k (<[c := s']> fl) x + cov_list (k + c) s x
   = cov_from k fl x + cov_list (k + c) s' x)%nat.
Proof.
  revert k c. induction fl as [| t fl IH]; intros k [| c]; simpl; try done.
  - intros [= ->]. rewrite Nat.add_0_r. lia.
  - intros Hc. specialize (IH (S k) c Hc).
    replace (k + S c)%nat with (S k + c)%nat by lia. lia.
Qed.

Lemma cov_insert c fl s s' x :
  fl !! c = Some s ->
  (cov (<[c := s']> fl) x + cov_list c s x = cov fl x + cov_list c s' x)%nat.
Proof. apply (cov_from_insert 0). Qed.

Lemma cov_ge c fl s x : fl !! c = Some s -> (cov_list c s x <= cov fl x)%nat.
Proof.
  intros H. pose proof (cov_insert c fl s [] x H) as E. simpl in E. lia.
Qed.

Lemma units_from_insert k c fl s s' :
  fl !! c = Some s ->
  units_from k (<[c := s']> fl) + 2 ^ Z.of_nat (k + c) * Z.of_nat (length s)
  = units_from k fl + 2 ^ Z.of_nat (k + c) * Z.of_nat (length s').
Proof.
  revert k c. induction fl as [| t fl IH]; intros k [| c]; simpl; try done.
  - intros [= ->]. rewrite Nat.add_0_r. lia.
  - intros Hc. specialize (IH (S k) c Hc).
    replace (k + S c)%nat with (S k + c)%nat by lia. lia.
Qed.

Lemma units_insert c fl s s' :
  fl !! c = Some s ->
  free_units (<[c := s']> fl) + 2 ^ Z.of_nat c * Z.of_nat (length s)
  = free_units fl + 2 ^ Z.of_nat c * Z.of_nat (length s').
Proof. apply (units_from_insert 0). Qed.

Lemma units_from_nonneg k fl : 0 <= units_from k fl.
Proof.
  revert k. induction fl as [| s fl IH]; intros k; simpl; [lia |].
  specialize (IH (S k)). pose proof (pow2_bounds (Z.of_nat k)). lia.
Qed.

Lemma units_elem c fl s b : fl !! c = Some s -> b ∈ s -> 2 ^ Z.of_nat c <= free_units fl.
Proof.
  intros Hc Hb. pose proof (units_insert c fl s [] Hc) as E.
  pose proof (units_from_nonneg 0 (<[c := []]> fl)) as Hn. fold (free_units (<[c := []]> fl)) in Hn.
  pose proof (bt_remove_length b s Hb). pose proof (pow2_bounds (Z.of_nat c)).
  simpl length in E. nia.
Qed.

Lemma class_list_some fl c s : fl !! c = Some s -> class_list fl c = s.
Proof. unfold class_list. by intros ->. Qed.

(** ** Adding and removing one block *)

(** [fl'] is [fl] with the block [(c, b)] added. *)
Definition adds (c : nat) (b : Z) (fl fl' : list (list Z)) : Prop :=
  fl_wf fl' /\ length fl' = length fl /\
  (forall x, cov fl' x = cov fl x + in_block c b x)%nat /\
  free_units fl' = free_units fl + 2 ^ Z.of_nat c.

(** Inserting a block whose frames are not free. *)
Lemma insert_block fl c b s :
  fl_wf fl -> fl !! c = Some s -> block_ok c b ->
  (forall x, (cov fl x + in_block c b x <= 1)%nat) ->
  adds c b fl (<[c := bt_insert b s]> fl).
Proof.
  intros Hwf Hc Hb Hd.
  assert (b ∉ s) as Hnin.
  { intros Hin. specialize (Hd b). destruct Hb as (? & ? & ?).
    pose proof (pow2_bounds (Z.of_nat c)).
    pose proof (cov_list_elem c s b b Hin). pose proof (cov_ge c fl s b Hc).
    assert (in_block c b b = 1%nat) by (apply in_block_1; lia). lia. }
  assert (forall x, cov (<[c := bt_insert b s]> fl) x = cov fl x + in_block c b x)%nat as Hcov.
  { intros x. pose proof (cov_insert c fl s (bt_insert b s) x Hc) as E.
    rewrite cov_list_insert in E by done. lia. }
  unfold adds. rewrite length_insert. split_and!; try done.
  - destruct Hwf as [Ho Hs Hbl Hdis]. split.
    + by rewrite length_insert.
    + intros c' s' H. apply list_lookup_insert_Some in H as [(-> & <- & ?) | [? ?]]; eauto with orbit.
    + intros c' s' b' H Hin. apply list_lookup_insert_Some in H as [(-> & <- & ?) | [? ?]]; [| eauto].
      apply elem_of_bt_insert in Hin as [-> | Hin]; eauto.
    + intros x. rewrite Hcov. apply Hd.
  - pose proof (units_insert c fl s (bt_insert b s) Hc) as E.
    rewrite bt_insert_length in E by (eauto using wf_sorted). lia.
Qed.

(** Removing a free block. *)
Lemma remove_block fl c b s :
  fl_wf fl -> fl !! c = Some s -> b ∈ s ->
  adds c b (<[c := fst (bt_remove b s)]> fl) fl /\ fl_wf (<[c := fst (bt_remove b s)]> fl).
Proof.
  intros Hwf Hc Hb.
  assert (forall x, cov fl x = cov (<[c := fst (bt_remove b s)]> fl) x + in_block c b x)%nat as Hcov.
  { intros x. pose proof (cov_insert c fl s (fst (bt_remove b s)) x Hc) as E.
    pose proof (cov_list_remove c s b x Hb). lia. }
  split.
  - unfold adds. rewrite length_insert. split_and!; try done.
    pose proof (units_insert c fl s (fst (bt_remove b s)) Hc) as E.
    pose proof (bt_remove_length b s Hb). nia.
  - pose proof (bt_remove_spec b s (wf_sorted _ Hwf _ _ Hc)) as Hr.
    destruct (bt_remove b s) as [s' f]. simpl in *. destruct Hr as (_ & Hs' & Hel).
    destruct Hwf as [Ho Hs Hbl Hdis]. split.
    + by rewrite length_insert.
    + intros c' s1 H. apply list_lookup_insert_Some in H as [(-> & <- & ?) | [? ?]]; eauto.
    + intros c' s1 b' H Hin. apply list_lookup_insert_Some in H as [(-> & <- & ?) | [? ?]]; [| eauto].
      apply Hel in Hin as [Hin _]; eauto.
    + intros x. specialize (Hdis x). specialize (Hcov x). lia.
Qed.

Lemma half_blocks c b :
  block_ok (S c) b -> block_ok c b /\ block_ok c (b + 2 ^ Z.of_nat c).
Proof.
  unfold block_ok. rewrite Nat2Z.inj_succ, Z.pow_succ_r by lia.
  intros (H0 & Hd & Hr). pose proof (pow2_bounds (Z.of_nat c)).
  assert ((2 ^ Z.of_nat c | b)) as Hd'. { etrans; [| exact Hd]. by exists 2. }
  split_and!; try lia; try done. apply Z.divide_add_r; [done | by exists 1; lia].
Qed.

(** ** Splitting *)

(** [fl'] describes the same free frames as [fl]. *)
Definition same_frames (fl fl' : list (list Z)) : Prop :=
  fl_wf fl' /\ length fl' = length fl /\
  (forall x, cov fl' x = cov fl x) /\ free_units fl' = free_units fl.

(** One iteration of the split loop, in the order the code performs it. *)
Definition split_step (fl : list (list Z)) (j : nat) (block : Z) : list (list Z) :=
  let fl1 := <[(j - 1)%nat := bt_insert (wadd block (wshl 1 (Z.of_nat j - 1)))
                                  (class_list fl (j - 1))]> fl in
  let fl2 := <[(j - 1)%nat := bt_insert block (class_list fl1 (j - 1))]> fl1 in
  <[j := fst (bt_remove block (class_list fl2 j))]> fl2.

Lemma split_step_reorder fl c b s s0 :
  fl !! S c = Some s -> fl !! c = Some s0 ->
  wadd b (wshl 1 (Z.of_nat (S c) - 1)) = b + 2 ^ Z.of_nat c ->
  split_step fl (S c) b
  = <[c := bt_insert b (bt_insert (b + 2 ^ Z.of_nat c) s0)]>
      (<[c := bt_insert (b + 2 ^ Z.of_nat c) s0]> (<[S c := fst (bt_remove b s)]> fl)).
Proof.
  intros Hs Hs0 Hw. unfold split_step. rewrite Hw.
  replace (S c - 1)%nat with c by lia.
  assert (c < length fl)%nat by (by eapply lookup_lt_Some).
  rewrite (class_list_some fl c s0) by done.
  unfold class_list. rewrite !list_lookup_insert_ne, Hs by lia.
  rewrite list_lookup_insert_eq by done. simpl default.
  rewrite !list_insert_insert_eq.
  by rewrite (list_insert_insert_ne _ (S c) c) by lia.
Qed.

Lemma split_step_ok fl c b :
  fl_wf fl -> bt_first (class_list fl (S c)) = Some b ->
  same_frames fl (split_step fl (S c) b) /\ b ∈ class_list (split_step fl (S c) b) c.
Proof.
  intros Hwf Hf.
  destruct (fl !! S c) as [s |] eqn:Hs; [| by unfold class_list in Hf; rewrite Hs in Hf].
  rewrite (class_list_some _ _ _ Hs) in Hf. apply bt_first_elem in Hf as Hb.
  assert (S c < length fl)%nat as Hlt by (by eapply lookup_lt_Some).
  destruct (lookup_lt_is_Some_2 fl c) as [s0 Hs0]; [lia |].
  pose proof (wf_blocks _ Hwf _ _ _ Hs Hb) as Hok.
  destruct (half_blocks c b Hok) as [Hok1 Hok2].
  assert (wadd b (wshl 1 (Z.of_nat (S c) - 1)) = b + 2 ^ Z.of_nat c) as Hw.
  { pose proof (wf_order _ Hwf). replace (Z.of_nat (S c) - 1) with (Z.of_nat c) by lia.
    pose proof (pow2_bounds (Z.of_nat c)).
    rewrite wshl_pow2 by lia. apply wadd_small. unfold block_ok in *. lia. }
  rewrite (split_step_reorder fl c b s s0) by done.
  destruct (remove_block fl (S c) b s Hwf Hs Hb) as [(_ & _ & Hcov0 & Hu0) Hwf0].
  set (fl0 := <[S c := fst (bt_remove b s)]> fl) in *.
  assert (fl0 !! c = Some s0) as Hs0'.
  { subst fl0. rewrite list_lookup_insert_ne by lia. done. }
  assert (forall x, (cov fl0 x + in_block c b x + in_block c (b + 2 ^ Z.of_nat c) x <= 1)%nat) as Hroom.
  { intros x. pose proof (wf_disjoint _ Hwf x) as Hd. rewrite Hcov0, in_block_split in Hd. lia. }
  destruct (insert_block fl0 c (b + 2 ^ Z.of_nat c) s0) as (Hwf1 & Hl1 & Hcov1 & Hu1);
    [done | done | done | intros x; specialize (Hroom x); lia |].
  set (fl1 := <[c := bt_insert (b + 2 ^ Z.of_nat c) s0]> fl0) in *.
  assert (fl1 !! c = Some (bt_insert (b + 2 ^ Z.of_nat c) s0)) as Hs1.
  { subst fl1 fl0. apply list_lookup_insert_eq. rewrite length_insert. lia. }
  destruct (insert_block fl1 c b _ Hwf1 Hs1) as (Hwf2 & Hl2 & Hcov2 & Hu2);
    [done | intros x; rewrite Hcov1; specialize (Hroom x); lia |].
  split.
  - unfold same_frames. split_and!; try done.
    + rewrite Hl2, Hl1. subst fl0. apply length_insert.
    + intros x. rewrite Hcov2, Hcov1, Hcov0, in_block_split. lia.
    + rewrite Nat2Z.inj_succ, Z.pow_succ_r in Hu0 by lia. lia.
  - unfold class_list. rewrite list_lookup_insert_eq by (subst fl1 fl0; rewrite !length_insert; lia).
    simpl. apply elem_of_bt_insert. by left.
Qed.

Lemma same_frames_refl fl : fl_wf fl -> same_frames fl fl.
Proof. by intros. Qed.

Lemma same_frames_trans fl1 fl2 fl3 :
  same_frames fl1 fl2 -> same_frames fl2 fl3 -> same_frames fl1 fl3.
Proof.
  intros (? & ? & Hc1 & ?) (? & ? & Hc2 & ?). unfold same_frames. split_and!; try done; try congruence.
Qed.

Lemma bt_first_nonempty s : s <> [] -> is_Some (bt_first s).
Proof. destruct s; simpl; eauto. done. Qed.

Lemma split_loop_ok n class fl :
  fl_wf fl -> class_list fl (class + n) <> [] ->
  exists fl', split_loop n class fl = (fl', true) /\ same_frames fl fl' /\
              class_list fl' class <> [].
Proof.
  revert fl. induction n as [| n IH]; intros fl Hwf Hne.
  - rewrite Nat.add_0_r in Hne. exists fl. split_and!; [done | by apply same_frames_refl | done].
  - destruct (bt_first_nonempty _ Hne) as [b Hb].
    replace (class + S n)%nat with (S (class + n))%nat in * by lia.
    destruct (split_step_ok fl (class + n) b Hwf Hb) as [Hsame Hin].
    destruct (IH (split_step fl (S (class + n)) b)) as (fl' & E & Hsame' & Hne').
    { apply Hsame. }
    { intros E. rewrite E in Hin. set_solver. }
    exists fl'. split_and!; [| by eapply same_frames_trans | done].
    cbn [split_loop]. replace (class + S n)%nat with (S (class + n))%nat by lia.
    rewrite Hb. exact E.
Qed.

Lemma find_class_some n fl c i :
  find_class n fl c = Some i -> (c <= i < c + n)%nat /\ class_list fl i <> [].
Proof.
  revert c. induction n as [| n IH]; intros c; simpl; [done |].
  destruct (class_list fl c) eqn:E; [| intros [= ->]; split; [lia | congruence]].
  intros H%IH. split; [lia | apply H].
Qed.

Lemma find_class_none n fl c :
  find_class n fl c = None <-> forall i, (c <= i < c + n)%nat -> class_list fl i = [].
Proof.
  revert c. induction n as [| n IH]; intros c; simpl; [split; [lia | done] |].
  destruct (class_list fl c) eqn:E.
  - rewrite IH. split; intros H i Hi; [| apply H; lia].
    destruct (decide (i = c)) as [-> |]; [done | apply H; lia].
  - split; [done |]. intros H. specialize (H c). rewrite E in H. discriminate H. lia.
Qed.

(** ** Allocation *)

Lemma alloc_pow2_ok fa k :
  fa_wf fa -> (k < 64)%nat ->
  match alloc_power_of_two fa (2 ^ Z.of_nat k) with
  | (fa', Some r) =>
      fa_wf fa' /\ adds k r (free_list fa') (free_list fa) /\ block_ok k r /\
      allocated fa' = allocated fa + 2 ^ Z.of_nat k /\ total fa' = total fa /\
      exists c, (k <= c)%nat /\ class_list (free_list fa) c <> []
  | (fa', None) =>
      fa' = fa /\ forall c, (k <= c)%nat -> class_list (free_list fa) c = []
  end.
Proof.
  intros [Hwf Hu Ha Ht] Hk. unfold alloc_power_of_two.
  rewrite trailing_zeros_pow2, Nat2Z.id by lia.
  destruct (find_class _ _ _) as [i |] eqn:Hf.
  2: { split; [done |]. intros c Hc. rewrite find_class_none in Hf.
       destruct (decide (c < length (free_list fa))%nat); [apply Hf; lia |].
       unfold class_list. by rewrite lookup_ge_None_2 by lia. }
  apply find_class_some in Hf as [Hi Hne].
  destruct (split_loop_ok (i - k) k (free_list fa) Hwf) as (fl & -> & (Hwf1 & Hl1 & Hc1 & Hu1) & Hne1).
  { by replace (k + (i - k))%nat with i by lia. }
  destruct (bt_first_nonempty _ Hne1) as [r Hr]. rewrite Hr.
  destruct (fl !! k) as [s |] eqn:Hs; [| by unfold class_list in Hne1; rewrite Hs in Hne1].
  rewrite (class_list_some _ _ _ Hs) in *. apply bt_first_elem in Hr as Hin.
  destruct (remove_block fl k r s Hwf1 Hs Hin) as [(_ & Hl2 & Hc2 & Hu2) Hwf2].
  pose proof (units_from_nonneg 0 (<[k := fst (bt_remove r s)]> fl)) as Hnn.
  fold (free_units (<[k := fst (bt_remove r s)]> fl)) in Hnn.
  pose proof (pow2_bounds (Z.of_nat k)).
  assert (wadd (allocated fa) (2 ^ Z.of_nat k) = allocated fa + 2 ^ Z.of_nat k) as Hw
    by (apply wadd_small; lia).
  simpl. rewrite Hw. split_and!; try done.
  - split; simpl; try done; lia.
  - unfold adds. split_and!; try done; try congruence; try lia.
  - exact (wf_blocks _ Hwf1 _ _ _ Hs Hin).
  - exists i. split; [lia | done].
Qed.

(** ** Freeing *)

Lemma lxor_1_bits q i : 0 < i -> Z.testbit (Z.lxor q 1) i = Z.testbit q i.
Proof.
  intros Hi. rewrite Z.lxor_spec, (Z.bits_above_log2 1 i), xorb_false_r by (simpl; lia). done.
Qed.

Lemma lxor_1 q : Z.lxor q 1 = if Z.even q then q + 1 else q - 1.
Proof.
  apply Z.bits_inj'; intros i Hi. destruct (Z.even q) eqn:E.
  - apply Z.even_spec in E as [m ->]. destruct (Z.eq_dec i 0) as [-> |].
    + by rewrite Z.lxor_spec, Z.testbit_even_0, Z.testbit_odd_0.
    + rewrite lxor_1_bits by lia. replace i with (Z.succ (Z.pred i)) by lia.
      rewrite Z.testbit_odd_succ, Z.testbit_even_succ by lia. done.
  - assert (Z.odd q = true) as [m ->]%Z.odd_spec by (rewrite <- Z.negb_even, E; done).
    replace (2 * m + 1 - 1) with (2 * m) by lia. destruct (Z.eq_dec i 0) as [-> |].
    + by rewrite Z.lxor_spec, Z.testbit_even_0, Z.testbit_odd_0.
    + rewrite lxor_1_bits by lia. replace i with (Z.succ (Z.pred i)) by lia.
      rewrite Z.testbit_odd_succ, Z.testbit_even_succ by lia. done.
Qed.

(** The buddy is the other half of the enclosing block of the next class. *)
Lemma buddy_cases c p :
  (2 ^ Z.of_nat c | p) ->
  let b := Z.lxor p (2 ^ Z.of_nat c) in
  (b = p + 2 ^ Z.of_nat c /\ (2 ^ Z.of_nat (S c) | p)) \/
  (b = p - 2 ^ Z.of_nat c /\ (2 ^ Z.of_nat (S c) | b)).
Proof.
  intros [q ->]. rewrite Nat2Z.inj_succ, Z.pow_succ_r by lia.
  assert (Z.lxor (q * 2 ^ Z.of_nat c) (2 ^ Z.of_nat c) = Z.lxor q 1 * 2 ^ Z.of_nat c) as E.
  { rewrite <- !Z.shiftl_mul_pow2 by lia. rewrite <- (Z.shiftl_1_l (Z.of_nat c)).
    by rewrite <- Z.shiftl_lxor. }
  cbv zeta. rewrite E, lxor_1. destruct (Z.even q) eqn:Eq; [left | right].
  - apply Z.even_spec in Eq as [m ->]. split; [lia |]. exists m. lia.
  - assert (Z.odd q = true) as [m ->]%Z.odd_spec by (rewrite <- Z.negb_even, Eq; done).
    split; [lia |]. exists m. lia.
Qed.

(** Merging a block with its free buddy. *)
Lemma merge_block c p :
  let b := Z.lxor p (2 ^ Z.of_nat c) in
  block_ok c p -> block_ok c b ->
  block_ok (S c) (Z.min p b) /\
  forall x, in_block (S c) (Z.min p b) x = (in_block c p x + in_block c b x)%nat.
Proof.
  intros b (Hp0 & Hpd & Hpr) (Hb0 & Hbd & Hbr). pose proof (pow2_bounds (Z.of_nat c)).
  assert (2 ^ Z.of_nat (S c) = 2 * 2 ^ Z.of_nat c) as E2
    by (rewrite Nat2Z.inj_succ, Z.pow_succ_r by lia; done).
  destruct (buddy_cases c p Hpd) as [[Eb Hd] | [Eb Hd]]; fold b in Eb, Hd.
  - rewrite Z.min_l by lia. split; [unfold block_ok; split_and!; try done; lia |].
    intros x. rewrite in_block_split. by rewrite Eb.
  - rewrite Z.min_r by lia. split; [unfold block_ok; split_and!; try done; lia |].
    intros x. rewrite in_block_split. replace (b + 2 ^ Z.of_nat c) with p by lia. lia.
Qed.

Lemma dealloc_loop_ok n fl p c :
  fl_wf fl -> (c < length fl)%nat -> n = (length fl - c)%nat ->
  block_ok c p -> (forall x, (cov fl x + in_block c p x <= 1)%nat) ->
  free_units fl + 2 ^ Z.of_nat c < 2 ^ Z.of_nat (length fl) ->
  adds c p fl (dealloc_loop n fl p c).
Proof.
  revert fl p c. induction n as [| n IH]; intros fl p c Hwf Hc Hn Hok Hroom Hbig; [lia |].
  cbn [dealloc_loop]. pose proof (wf_order _ Hwf) as Hlen. rewrite wshl_pow2 by lia.
  set (b := Z.lxor p (2 ^ Z.of_nat c)).
  destruct (lookup_lt_is_Some_2 fl c Hc) as [s Hs]. rewrite (class_list_some _ _ _ Hs).
  pose proof (bt_remove_spec b s (wf_sorted _ Hwf _ _ Hs)) as Hr.
  pose proof (remove_block fl c b s Hwf Hs) as Hrb.
  destruct (bt_remove b s) as [s' found]. destruct Hr as (Hfound & _ & _).
  destruct found; [| by apply insert_block].
  assert (b ∈ s) as Hb by (by apply Hfound).
  destruct (Hrb Hb) as [(_ & Hl0 & Hc0 & Hu0) Hwf0]. simpl in *.
  destruct (merge_block c p Hok (wf_blocks _ Hwf _ _ _ Hs Hb)) as [Hokm Hinm]. fold b in Hokm, Hinm.
  pose proof (units_elem c fl s b Hs Hb) as Hub.
  assert (2 ^ Z.of_nat (S c) = 2 * 2 ^ Z.of_nat c) as E2
    by (rewrite Nat2Z.inj_succ, Z.pow_succ_r by lia; done).
  assert (S c < length fl)%nat as Hsc.
  { destruct (decide (S c = length fl)) as [E |]; [| lia]. rewrite <- E in Hbig. lia. }
  destruct (IH (<[c := s']> fl) (Z.min p b) (S c)) as (Hwf1 & Hl1 & Hc1 & Hu1);
    rewrite ?length_insert; try done; try lia.
  - intros x. specialize (Hroom x). rewrite Hinm. specialize (Hc0 x). lia.
  - unfold adds. split_and!; [done | by rewrite Hl1, length_insert | | lia].
    intros x. rewrite Hc1, Hinm, Hc0. lia.
Qed.

(** What a caller owes to free [(c, p)]: the block was handed out. *)
Definition owned_block (fa : FrameAllocator) (c : nat) (p : Z) : Prop :=
  (c < length (free_list fa))%nat /\ block_ok c p /\
  (forall x, p <= x < p + 2 ^ Z.of_nat c -> ~ is_free fa x) /\
  2 ^ Z.of_nat c <= allocated fa.

Lemma owned_room fa c p :
  fl_wf (free_list fa) -> owned_block fa c p ->
  forall x, (cov (free_list fa) x + in_block c p x <= 1)%nat.
Proof.
  intros Hwf (_ & _ & Hnf & _) x. pose proof (wf_disjoint _ Hwf x).
  pose proof (in_block_le c p x).
  destruct (decide (in_block c p x = 1%nat)) as [E |]; [| lia].
  apply in_block_1 in E. specialize (Hnf x E). unfold is_free in Hnf. lia.
Qed.

Lemma dealloc_pow2_ok fa c p :
  fa_wf fa -> owned_block fa c p -> total fa < 2 ^ Z.of_nat (length (free_list fa)) ->
  let fa' := dealloc_power_of_two fa p (2 ^ Z.of_nat c) in
  fa_wf fa' /\ adds c p (free_list fa) (free_list fa') /\
  allocated fa' = allocated fa - 2 ^ Z.of_nat c /\ total fa' = total fa.
Proof.
  intros [Hwf Hu Ha Ht] Hown Hbig. pose proof (owned_room fa c p Hwf Hown) as Hroom.
  destruct Hown as (Hc & Hok & _ & Hal). pose proof (pow2_bounds (Z.of_nat c)).
  unfold dealloc_power_of_two. rewrite trailing_zeros_pow2, Nat2Z.id by lia. simpl.
  rewrite wsub_small by (pose proof (units_from_nonneg 0 (free_list fa)); unfold free_units in *; lia).
  destruct (dealloc_loop_ok (length (free_list fa) - c) (free_list fa) p c) as (Hwf1 & Hl1 & Hc1 & Hu1);
    try done; [lia |].
  split_and!; [| done | done | done]. split; simpl; try done; lia.
Qed.

(** ** Adding a range *)

Lemma land_opp_odd m : Z.land (2 * m + 1) (- (2 * m + 1)) = 1.
Proof.
  replace (- (2 * m + 1)) with (2 * Z.lnot m + 1) by (unfold Z.lnot; lia).
  apply Z.bits_inj'; intros i Hi. rewrite Z.land_spec. destruct (Z.eq_dec i 0) as [-> |].
  - by rewrite !Z.testbit_odd_0.
  - rewrite (Z.bits_above_log2 1 i) by (simpl; lia). replace i with (Z.succ (Z.pred i)) by lia.
    rewrite !Z.testbit_odd_succ, Z.lnot_spec by lia. by destruct (Z.testbit m (Z.pred i)).
Qed.

Lemma land_opp p : Z.land (Zpos p) (- Zpos p) = 2 ^ pos_tz p.
Proof.
  induction p as [p IH | p IH |]; cbn [pos_tz].
  - rewrite Pos2Z.inj_xI. apply land_opp_odd.
  - rewrite Pos2Z.inj_xO, Z.pow_add_r, <- IH by (try lia; apply pos_tz_nonneg).
    replace (- (2 * Zpos p)) with (2 * (- Zpos p)) by lia.
    rewrite !(Z.mul_comm 2), <- !(Z.shiftl_mul_pow2 _ 1) by lia.
    rewrite <- Z.shiftl_land. rewrite !Z.shiftl_mul_pow2 by lia. lia.
  - reflexivity.
Qed.

(** [x & (!x + 1)] isolates the lowest set bit. *)
Lemma lowbit_spec x :
  0 < x < W64 -> Z.land x (wadd (wnot x) 1) = 2 ^ trailing_zeros x.
Proof.
  intros Hx. unfold wadd, wnot, u64. replace (W64 - 1 - x + 1) with (- x + 1 * W64) by lia.
  rewrite Z.mod_add by (unfold W64; lia). unfold W64 at 1.
  rewrite <- Z.land_ones, Z.land_assoc, (Z.land_comm x), <- Z.land_assoc by lia.
  rewrite Z.land_ones, (Z.mod_small x) by (unfold W64 in *; lia).
  destruct x as [| p | p]; try lia. rewrite Z.land_comm. apply land_opp.
Qed.

Lemma pos_tz_divide p : (2 ^ pos_tz p | Zpos p).
Proof.
  induction p as [p IH | p IH |]; cbn [pos_tz]; try apply Z.divide_1_l.
  rewrite Z.pow_add_r, Z.pow_1_r by (try lia; apply pos_tz_nonneg).
  change (Zpos (xO p)) with (2 * Zpos p). by apply Z.mul_divide_mono_l.
Qed.

Lemma pow2_min a b : 0 <= a -> 0 <= b -> Z.min (2 ^ a) (2 ^ b) = 2 ^ Z.min a b.
Proof.
  intros. destruct (Z.le_ge_cases a b).
  - rewrite !Z.min_l; [done | lia | apply Z.pow_le_mono_r; lia].
  - rewrite !Z.min_r; [done | lia | apply Z.pow_le_mono_r; lia].
Qed.

Lemma prev_power_of_two_spec n : 0 < n < W64 -> prev_power_of_two n = 2 ^ Z.log2 n.
Proof.
  intros Hn. unfold prev_power_of_two, leading_zeros.
  destruct (Z.eqb_spec n 0); [lia |].
  pose proof (Z.log2_nonneg n). assert (Z.log2 n < 64) by (apply Z.log2_lt_pow2; unfold W64 in *; lia).
  assert (wsub (wsub 64 (63 - Z.log2 n)) 1 = Z.log2 n) as ->.
  { rewrite (wsub_small 64) by (unfold W64; lia). rewrite wsub_small by (unfold W64; lia). lia. }
  apply wshl_pow2. lia.
Qed.

(** The block [add_frame] carves at [cur]: aligned, inside the range, and of
    a class the allocator has. *)
Lemma add_size_spec cur end_ L :
  0 <= cur < end_ -> end_ < W64 -> (1 <= L <= 64)%nat ->
  exists k, (k < L)%nat /\ block_ok k cur /\ cur + 2 ^ Z.of_nat k <= end_ /\
    Z.min (Z.min (if 0 <? cur then Z.land cur (wadd (wnot cur) 1) else 32)
                 (prev_power_of_two (wsub end_ cur)))
          (wshl 1 (Z.of_nat L - 1)) = 2 ^ Z.of_nat k.
Proof.
  intros Hc He HL.
  assert (exists a, 0 <= a /\ (2 ^ a | cur) /\
    (if 0 <? cur then Z.land cur (wadd (wnot cur) 1) else 32) = 2 ^ a) as (a & Ha & Hd & ->).
  { destruct (Z.ltb_spec 0 cur).
    - destruct cur as [| p | p]; try lia. exists (pos_tz p). split_and!.
      + apply pos_tz_nonneg.
      + apply pos_tz_divide.
      + apply lowbit_spec. lia.
    - exists 5. split_and!; [lia | | done]. replace cur with 0 by lia. apply Z.divide_0_r. }
  rewrite wsub_small, prev_power_of_two_spec, wshl_pow2 by lia.
  pose proof (Z.log2_nonneg (end_ - cur)). rewrite !pow2_min by lia.
  set (k := Z.min (Z.min a (Z.log2 (end_ - cur))) (Z.of_nat L - 1)).
  assert (0 <= k <= Z.log2 (end_ - cur) /\ k <= a /\ k < Z.of_nat L) as (Hk1 & Hk2 & Hk3) by (subst k; lia).
  assert (2 ^ k <= end_ - cur) as Hle.
  { etrans; [apply Z.pow_le_mono_r with (c := Z.log2 (end_ - cur)); lia |].
    apply Z.log2_spec. lia. }
  exists (Z.to_nat k). rewrite Z2Nat.id by lia.
  split_and!; try lia. unfold block_ok. rewrite Z2Nat.id by lia. split_and!; try lia.
  etrans; [| exact Hd]. exists (2 ^ (a - k)). rewrite <- Z.pow_add_r by lia. f_equal. lia.
Qed.

(** The frames of a half-open range. *)
Definition in_range (lo hi x : Z) : nat :=
  if (lo <=? x) && (x <? hi) then 1%nat else 0%nat.

Lemma in_range_extend lo mid c x :
  lo <= mid -> (in_range lo (mid + 2 ^ Z.of_nat c) x = in_range lo mid x + in_block c mid x)%nat.
Proof.
  intros. pose proof (pow2_bounds (Z.of_nat c)). unfold in_range, in_block.
  destruct (Z.leb_spec lo x), (Z.ltb_spec x (mid + 2 ^ Z.of_nat c)), (Z.ltb_spec x mid),
    (Z.leb_spec mid x); simpl; lia.
Qed.

Lemma in_range_in lo hi x : in_range lo hi x = 1%nat <-> lo <= x < hi.
Proof. unfold in_range. destruct (Z.leb_spec lo x), (Z.ltb_spec x hi); simpl; split; lia. Qed.

Lemma in_range_le lo hi x : (in_range lo hi x <= 1)%nat.
Proof. unfold in_range. cases_b; lia. Qed.

Lemma add_frame_loop fl start end_ :
  fl_wf fl -> 0 <= start <= end_ -> end_ < W64 ->
  (forall x, start <= x < end_ -> cov fl x = 0%nat) ->
  exists fl', while64 (add_frame_step end_) (start, 0, fl) = Some (Done (end_ - start, fl')) /\
    fl_wf fl' /\ length fl' = length fl /\
    (forall x, cov fl' x = cov fl x + in_range start end_ x)%nat /\
    free_units fl' = free_units fl + (end_ - start).
Proof.
  intros Hwf Hse He Hfresh.
  destruct (while64_total (add_frame_step end_)
    (fun '(cur, tot, g) => start <= cur <= end_ /\ tot = cur - start /\ fl_wf g /\
       length g = length fl /\ (forall x, cov g x = cov fl x + in_range start cur x)%nat /\
       free_units g = free_units fl + (cur - start))
    (fun '(cur, _, _) => end_ - cur)
    (fun r => exists fl', r = Done (end_ - start, fl') /\ fl_wf fl' /\ length fl' = length fl /\
       (forall x, cov fl' x = cov fl x + in_range start end_ x)%nat /\
       free_units fl' = free_units fl + (end_ - start))
    (start, 0, fl)) as (r & Hr & fl' & -> & Hfl'); [| | lia | eauto].
  - intros [[cur tot] g] (Hcur & -> & Hg & Hlen & Hcov & Hun). unfold add_frame_step.
    destruct (Z.ltb_spec cur end_) as [Hlt | Hge].
    2: { assert (cur = end_) as -> by lia. eauto 10. }
    pose proof (wf_order _ Hg) as HL.
    destruct (add_size_spec cur end_ (length g)) as (k & Hk & Hok & Hend & ->); [lia | done | done |].
    rewrite trailing_zeros_pow2, Nat2Z.id by lia.
    destruct (lookup_lt_is_Some_2 g k Hk) as [s Hs]. rewrite Hs.
    pose proof (pow2_bounds (Z.of_nat k)). rewrite !wadd_small by lia.
    destruct (insert_block g k cur s Hg Hs Hok) as (Hwf1 & Hl1 & Hc1 & Hu1).
    { intros x. rewrite Hcov. pose proof (wf_disjoint _ Hwf x). pose proof (in_block_le k cur x).
      pose proof (in_range_extend start cur k x). pose proof (in_range_le start (cur + 2 ^ Z.of_nat k) x).
      destruct (decide (in_range start (cur + 2 ^ Z.of_nat k) x = 1%nat)) as [E |]; [| lia].
      apply in_range_in in E. rewrite Hfresh by lia. lia. }
    split_and!; try lia; try done.
    intros x. rewrite Hc1, Hcov, in_range_extend by lia. lia.
  - split_and!; try lia; try done. intros x. unfold in_range.
    destruct (Z.leb_spec start x), (Z.ltb_spec x start); simpl; lia.
Qed.

(** ** The interface the page-table code relies on

    A page source hands out page frames it owns and takes them back; [psrc_free]
    is its abstract free set. *)

Class PageSource (T : Type) := {
  psrc_alloc : T -> T * option Z;
  psrc_free : T -> Z -> Prop;
  psrc_inv : T -> Prop;
}.

Class PageSourceLaws (T : Type) `{PageSource T} : Prop := {
  psrc_alloc_some t t' pa :
    psrc_inv t -> psrc_alloc t = (t', Some pa) ->
    psrc_inv t' /\ 0 <= pa /\ pa + 4096 <= W64 /\ (4096 | pa) /\
    (forall x, pa <= x < pa + 4096 -> psrc_free t x) /\
    (forall x, psrc_free t' x <-> psrc_free t x /\ ~ (pa <= x < pa + 4096));
  psrc_alloc_none t t' :
    psrc_inv t -> psrc_alloc t = (t', None) -> t' = t;
}.

(** ** Layouts *)

(** A valid [Layout]: a power-of-two alignment, a size whose rounding fits. *)
Definition layout_ok (l : Layout) : Prop :=
  0 <= lsize l <= 2 ^ 63 /\ exists a, 0 <= a < 64 /\ lalign l = 2 ^ a.

Lemma next_power_of_two_spec n :
  n <= 2 ^ 63 -> exists k, 0 <= k < 64 /\ next_power_of_two n = 2 ^ k /\ n <= 2 ^ k.
Proof.
  intros Hn. unfold next_power_of_two. destruct (Z.leb_spec n 1).
  - exists 0. split_and!; [lia | lia | done | lia].
  - pose proof (Z.log2_nonneg (n - 1)).
    assert (Z.log2 (n - 1) < 63) by (apply Z.log2_lt_pow2; lia).
    exists (Z.log2 (n - 1) + 1). split_and!; try lia.
    + apply u64_small. split; [apply Z.pow_nonneg; lia | apply Z.pow_lt_mono_r; lia].
    + pose proof (Z.log2_spec (n - 1)) as [_ Hs]; [lia |].
      rewrite <- Z.add_1_r in Hs. lia.
Qed.

Lemma layout_size_spec l :
  layout_ok l -> exists k, (k < 64)%nat /\ layout_size l = 2 ^ Z.of_nat k /\ lsize l <= 2 ^ Z.of_nat k.
Proof.
  intros [Hs (a & Ha & Ea)]. unfold layout_size. rewrite Ea.
  destruct (next_power_of_two_spec (lsize l)) as (k & Hk & -> & Hle); [lia |].
  destruct (Z.le_ge_cases k a).
  - exists (Z.to_nat a). rewrite Z2Nat.id, Z.max_r by (try apply Z.pow_le_mono_r; lia).
    split_and!; [lia | done |]. etrans; [done |]. apply Z.pow_le_mono_r; lia.
  - exists (Z.to_nat k). rewrite Z2Nat.id, Z.max_l by (try apply Z.pow_le_mono_r; lia).
    split_and!; [lia | done | done].
Qed.

(** ** The abstract allocator: a set of free frames *)

Definition spec_alloc (F : Z -> Prop) (size : Z) (r : option Z) (F' : Z -> Prop) : Prop :=
  match r with
  | Some p => 0 <= p /\ (size | p) /\ (forall x, p <= x < p + size -> F x) /\
              (forall x, F' x <-> F x /\ ~ (p <= x < p + size))
  | None => forall x, F' x <-> F x
  end.

Definition spec_dealloc (F : Z -> Prop) (p size : Z) (F' : Z -> Prop) : Prop :=
  forall x, F' x <-> F x \/ p <= x < p + size.

Lemma adds_free fl fl' c b x :
  fl_wf fl' -> (forall x, cov fl' x = cov fl x + in_block c b x)%nat ->
  (cov fl' x = 1%nat <-> cov fl x = 1%nat \/ b <= x < b + 2 ^ Z.of_nat c) /\
  (b <= x < b + 2 ^ Z.of_nat c -> cov fl x = 0%nat).
Proof.
  intros Hwf Hc. pose proof (wf_disjoint _ Hwf x) as Hd. rewrite Hc in Hd.
  rewrite Hc, <- in_block_1. pose proof (in_block_le c b x). lia.
Qed.

Lemma alloc_spec fa k fa' o :
  fa_wf fa -> (k < 64)%nat -> alloc_power_of_two fa (2 ^ Z.of_nat k) = (fa', o) ->
  fa_wf fa' /\ spec_alloc (is_free fa) (2 ^ Z.of_nat k) o (is_free fa').
Proof.
  intros Hwf Hk E. pose proof (alloc_pow2_ok fa k Hwf Hk) as H. rewrite E in H.
  destruct o as [r |]; [| by destruct H as [-> _]].
  destruct H as (Hwf' & (_ & _ & Hc & _) & (Hr0 & Hrd & _) & _). split; [done |].
  unfold spec_alloc, is_free. split_and!; try done.
  - intros x Hx. apply (adds_free _ _ k r x (fa_lists _ Hwf) Hc). by right.
  - intros x. pose proof (adds_free _ _ k r x (fa_lists _ Hwf) Hc) as [H1 H2]. rewrite H1.
    split; [intros Hx; split; [by left |] | tauto]. intros Hin. specialize (H2 Hin). lia.
Qed.

#[export] Instance FrameAllocator_PageSource : PageSource FrameAllocator := {|
  psrc_alloc fa := alloc_aligned fa (mkLayout 4096 4096);
  psrc_free := is_free;
  psrc_inv := fa_wf;
|}.

#[export] Instance FrameAllocator_PageSourceLaws : PageSourceLaws FrameAllocator.
Proof.
  split; intros t t'; simpl; unfold alloc_aligned; change (layout_size _) with (2 ^ Z.of_nat 12);
    intros *.
  - intros Hinv E. pose proof (alloc_pow2_ok t 12 Hinv ltac:(lia)) as H. rewrite E in H.
    pose proof (alloc_spec t 12 t' (Some pa) Hinv ltac:(lia) E) as [? (? & ? & ? & ?)].
    destruct H as (_ & _ & (_ & _ & ?) & _).
    change (2 ^ Z.of_nat 12) with 4096 in *. split_and!; done.
  - intros Hinv E. pose proof (alloc_pow2_ok t 12 Hinv ltac:(lia)) as H. rewrite E in H. apply H.
Qed.

(** ** Histories

    [reach ORDER fa out]: [fa] is reached from an empty allocator by the
    public operations, and [out] lists the blocks handed out and not freed. *)

Inductive reach (ORDER : nat) : FrameAllocator -> list (nat * Z) -> Prop :=
| reach_new : (1 <= ORDER <= 64)%nat -> reach ORDER (new ORDER) []
| reach_add fa out start end_ fa' :
    reach ORDER fa out -> 0 <= start <= end_ ->
    total fa + (end_ - start) < 2 ^ Z.of_nat ORDER -> end_ < W64 ->
    (forall x, start <= x < end_ -> ~ is_free fa x) ->
    (forall x k p, start <= x < end_ -> (k, p) ∈ out -> ~ (p <= x < p + 2 ^ Z.of_nat k)) ->
    add_frame fa start end_ = Some (Done fa') ->
    reach ORDER fa' out
| reach_alloc fa out k fa' p :
    reach ORDER fa out -> (k < 64)%nat ->
    alloc_power_of_two fa (2 ^ Z.of_nat k) = (fa', Some p) ->
    reach ORDER fa' ((k, p) :: out)
| reach_alloc_none fa out k fa' :
    reach ORDER fa out -> (k < 64)%nat ->
    alloc_power_of_two fa (2 ^ Z.of_nat k) = (fa', None) ->
    reach ORDER fa' out
| reach_dealloc fa l1 k p l2 :
    reach ORDER fa (l1 ++ (k, p) :: l2) ->
    reach ORDER (dealloc_power_of_two fa p (2 ^ Z.of_nat k)) (l1 ++ l2).

Fixpoint cov_out (out : list (nat * Z)) (x : Z) : nat :=
  match out with
  | [] => 0%nat
  | (k, p) :: out' => (in_block k p x + cov_out out' x)%nat
  end.

Fixpoint units_out (out : list (nat * Z)) : Z :=
  match out with
  | [] => 0
  | (k, _) :: out' => 2 ^ Z.of_nat k + units_out out'
  end.

Lemma cov_out_app l1 l2 x : cov_out (l1 ++ l2) x = (cov_out l1 x + cov_out l2 x)%nat.
Proof. induction l1 as [| [k p] l1 IH]; simpl; [done |]. rewrite IH. lia. Qed.

Lemma units_out_app l1 l2 : units_out (l1 ++ l2) = units_out l1 + units_out l2.
Proof. induction l1 as [| [k p] l1 IH]; simpl; [done |]. rewrite IH. lia. Qed.

Lemma units_out_nonneg l : 0 <= units_out l.
Proof.
  induction l as [| [k p] l IH]; simpl; [lia |]. pose proof (pow2_bounds (Z.of_nat k)). lia.
Qed.

Lemma cov_out_elem out k p x :
  (k, p) ∈ out -> p <= x < p + 2 ^ Z.of_nat k -> (1 <= cov_out out x)%nat.
Proof.
  intros Hin Hx. apply list_elem_of_split in Hin as (l1 & l2 & ->).
  rewrite cov_out_app. simpl. rewrite (proj2 (in_block_1 k p x) Hx). lia.
Qed.

Lemma cov_out_0 out x :
  (forall k p, (k, p) ∈ out -> ~ (p <= x < p + 2 ^ Z.of_nat k)) -> cov_out out x = 0%nat.
Proof.
  induction out as [| [k p] out IH]; simpl; [done |]. intros H.
  rewrite (proj2 (in_block_0 k p x)) by (apply H; set_solver). apply IH. intros. apply H. set_solver.
Qed.

(** The history invariant. *)
Record hist_inv (ORDER : nat) (fa : FrameAllocator) (out : list (nat * Z)) : Prop := {
  hi_wf : fa_wf fa;
  hi_order : length (free_list fa) = ORDER;
  hi_total : total fa < 2 ^ Z.of_nat ORDER;
  hi_units : allocated fa = units_out out;
  hi_blocks : forall k p, (k, p) ∈ out -> (k < ORDER)%nat /\ block_ok k p;
  hi_disj : forall x, (cov (free_list fa) x + cov_out out x <= 1)%nat;
}.

Lemma cov_replicate n k x : cov_from k (replicate n []) x = 0%nat.
Proof. revert k. induction n as [| n IH]; intros k; simpl; [done | apply IH]. Qed.

Lemma units_replicate n k : units_from k (replicate n []) = 0.
Proof. revert k. induction n as [| n IH]; intros k; simpl; [done |]. rewrite IH. lia. Qed.

Lemma new_wf ORDER : (1 <= ORDER <= 64)%nat -> fa_wf (new ORDER).
Proof.
  intros H. split; simpl; try done.
  - split.
    + by rewrite length_replicate.
    + intros c s Hs. apply lookup_replicate in Hs as [-> _]. done.
    + intros c s b Hs. apply lookup_replicate in Hs as [-> _]. set_solver.
    + intros x. unfold cov. rewrite cov_replicate. lia.
  - unfold free_units. by rewrite units_replicate.
Qed.

Lemma add_frame_ok fa start end_ :
  fa_wf fa -> 0 <= start <= end_ -> end_ < W64 -> total fa + (end_ - start) < W64 ->
  (forall x, start <= x < end_ -> ~ is_free fa x) ->
  exists fa', add_frame fa start end_ = Some (Done fa') /\ fa_wf fa' /\
    length (free_list fa') = length (free_list fa) /\
    (forall x, cov (free_list fa') x = cov (free_list fa) x + in_range start end_ x)%nat /\
    allocated fa' = allocated fa /\ total fa' = total fa + (end_ - start).
Proof.
  intros [Hwf Hu Ha Ht] Hse He Htot Hfresh. unfold add_frame.
  destruct (Z.leb_spec start end_); [| lia].
  destruct (add_frame_loop (free_list fa) start end_) as (fl' & -> & Hwf' & Hl & Hc & Hun); try done.
  { intros x Hx. specialize (Hfresh x Hx). unfold is_free in Hfresh.
    pose proof (wf_disjoint _ Hwf x). lia. }
  pose proof (units_from_nonneg 0 (free_list fa)) as Hnn. fold (free_units (free_list fa)) in Hnn.
  rewrite wadd_small by lia. eexists. split; [done |]. simpl.
  split_and!; try done. split; simpl; try done; lia.
Qed.

Lemma hist_new ORDER : (1 <= ORDER <= 64)%nat -> hist_inv ORDER (new ORDER) [].
Proof.
  intros Ho. split; simpl; try (set_solver || done).
  - by apply new_wf.
  - by rewrite length_replicate.
  - apply pow2_bounds. lia.
  - intros x. unfold cov. rewrite cov_replicate. lia.
Qed.

Lemma hist_add ORDER fa out start end_ fa' :
  hist_inv ORDER fa out -> 0 <= start <= end_ ->
  total fa + (end_ - start) < 2 ^ Z.of_nat ORDER -> end_ < W64 ->
  (forall x, start <= x < end_ -> ~ is_free fa x) ->
  (forall x k p, start <= x < end_ -> (k, p) ∈ out -> ~ (p <= x < p + 2 ^ Z.of_nat k)) ->
  add_frame fa start end_ = Some (Done fa') ->
  hist_inv ORDER fa' out.
Proof.
  intros [Hwf Ho Ht Hu Hb Hd] Hse Htot He Hf Hout E.
  assert (2 ^ Z.of_nat ORDER <= W64) as Hpow
    by (apply Z.pow_le_mono_r; [lia |]; pose proof (wf_order _ (fa_lists _ Hwf)); lia).
  destruct (add_frame_ok fa start end_ Hwf Hse He) as (fa1 & E1 & Hwf1 & Hl1 & Hc1 & Ha1 & Ht1);
    [lia | done |]. rewrite E in E1. injection E1 as <-.
  split; try done; try congruence; try lia. intros x. rewrite Hc1. specialize (Hd x).
  pose proof (in_range_le start end_ x).
  destruct (decide (in_range start end_ x = 1%nat)) as [Ein |]; [| lia].
  apply in_range_in in Ein. rewrite (cov_out_0 out x) in * by eauto.
  specialize (Hf x Ein). unfold is_free in Hf. lia.
Qed.

Lemma hist_alloc ORDER fa out k fa' p :
  hist_inv ORDER fa out -> (k < 64)%nat ->
  alloc_power_of_two fa (2 ^ Z.of_nat k) = (fa', Some p) ->
  hist_inv ORDER fa' ((k, p) :: out).
Proof.
  intros [Hwf Ho Ht Hu Hb Hd] Hk E. pose proof (alloc_pow2_ok fa k Hwf Hk) as H. rewrite E in H.
  destruct H as (Hwf' & (_ & Hl & Hc & Hun) & Hok & Ha & Ht' & _).
  split; simpl; try done; try congruence; try lia.
  - intros k' p' Hin. apply elem_of_cons in Hin as [[= -> ->] | Hin]; [| by apply Hb].
    split; [| done]. destruct (decide (k < ORDER)%nat) as [| Hge]; [done |]. exfalso.
    pose proof (pow2_bounds (Z.of_nat k)).
    assert (2 ^ Z.of_nat ORDER <= 2 ^ Z.of_nat k) by (apply Z.pow_le_mono_r; lia).
    pose proof (fa_units _ Hwf'). pose proof (units_out_nonneg out).
    pose proof (units_from_nonneg 0 (free_list fa')) as Hnn. fold (free_units (free_list fa')) in Hnn. lia.
  - intros x. specialize (Hd x). rewrite Hc in Hd. lia.
Qed.

Lemma hist_owned ORDER fa l1 k p l2 :
  hist_inv ORDER fa (l1 ++ (k, p) :: l2) -> owned_block fa k p.
Proof.
  intros [Hwf Ho Ht Hu Hb Hd]. destruct (Hb k p) as [Hk Hok]; [set_solver |].
  rewrite units_out_app in Hu. simpl in Hu.
  pose proof (units_out_nonneg l1). pose proof (units_out_nonneg l2).
  split_and!; [lia | done | | lia]. intros x Hx Hfree. specialize (Hd x). unfold is_free in Hfree.
  rewrite cov_out_app in Hd. simpl in Hd. rewrite (proj2 (in_block_1 k p x) Hx) in Hd. lia.
Qed.

Lemma hist_dealloc ORDER fa l1 k p l2 :
  hist_inv ORDER fa (l1 ++ (k, p) :: l2) ->
  hist_inv ORDER (dealloc_power_of_two fa p (2 ^ Z.of_nat k)) (l1 ++ l2).
Proof.
  intros Hi. pose proof (hist_owned _ _ _ _ _ _ Hi) as Hown. destruct Hi as [Hwf Ho Ht Hu Hb Hd].
  destruct (dealloc_pow2_ok fa k p) as (Hwf' & (_ & Hl & Hc & _) & Ha & Ht'); [done | done | by rewrite Ho |].
  rewrite units_out_app in Hu. simpl in Hu.
  split; try done; try congruence.
  - rewrite Ha, units_out_app. lia.
  - intros k' p' Hin. apply Hb. set_solver.
  - intros x. rewrite Hc. specialize (Hd x). rewrite cov_out_app in *. simpl in Hd. lia.
Qed.

Lemma reach_inv ORDER fa out : reach ORDER fa out -> hist_inv ORDER fa out.
Proof.
  induction 1 as [| | | fa out k fa' _ IH Hk E |]; eauto using hist_new, hist_add, hist_alloc, hist_dealloc.
  pose proof (alloc_pow2_ok fa k (hi_wf _ _ _ IH) Hk) as H. rewrite E in H. by destruct H as [-> _].
Qed.

(** ** Properties *)

(** C9. Blocks handed out and not yet freed never overlap: in any history of
    [add_frame], allocations and frees within the documented capacity (a total
    below [2 ^ ORDER]), two outstanding blocks are disjoint, none of their
    frames is on a free list, and the counters account for every frame. *)
Theorem no_double_allocation ORDER fa out :
  reach ORDER fa out ->
  (forall i j k p k' p' x, i <> j -> out !! i = Some (k, p) -> out !! j = Some (k', p') ->
     p <= x < p + 2 ^ Z.of_nat k -> ~ (p' <= x < p' + 2 ^ Z.of_nat k')) /\
  (forall k p x, (k, p) ∈ out -> p <= x < p + 2 ^ Z.of_nat k -> ~ is_free fa x) /\
  allocated fa = units_out out /\
  total fa = units_out out + free_units (free_list fa).
Proof.
  intros [Hwf _ _ Hu _ Hd]%reach_inv. split_and!.
  - intros i j k p k' p' x Hij Hi Hj Hx Hx'. specialize (Hd x).
    enough (2 <= cov_out out x)%nat by lia. clear Hd Hu.
    revert i j Hij Hi Hj. induction out as [| [k0 p0] out IH]; intros [| i] [| j] Hij; simpl; try done.
    + intros [= -> ->] Hj. pose proof (cov_out_elem out k' p' x (list_elem_of_lookup_2 _ _ _ Hj) Hx').
      rewrite (proj2 (in_block_1 k p x) Hx). lia.
    + intros Hi [= -> ->]. pose proof (cov_out_elem out k p x (list_elem_of_lookup_2 _ _ _ Hi) Hx).
      rewrite (proj2 (in_block_1 k' p' x) Hx'). lia.
    + intros Hi Hj. specialize (IH i j ltac:(lia) Hi Hj). lia.
  - intros k p x Hin Hx Hf. specialize (Hd x). pose proof (cov_out_elem out k p x Hin Hx).
    unfold is_free in Hf. lia.
  - done.
  - rewrite (fa_units _ Hwf). lia.
Qed.

(** [alloc_aligned] refines the abstract allocator: it keeps the invariant;
    a returned block has the rounded size, is aligned to it, was entirely free
    and is exactly what leaves the free set; on failure nothing changes and no
    free list can serve the request. *)
Theorem alloc_aligned_refines fa layout :
  fa_wf fa -> layout_ok layout ->
  let '(fa', r) := alloc_aligned fa layout in
  fa_wf fa' /\ spec_alloc (is_free fa) (layout_size layout) r (is_free fa') /\
  allocated fa' = allocated fa + (if r then layout_size layout else 0) /\
  (r = None <-> forall c, 2 ^ Z.of_nat c >= layout_size layout -> class_list (free_list fa) c = []).
Proof.
  intros Hwf Hl. destruct (layout_size_spec layout Hl) as (k & Hk & E & _).
  unfold alloc_aligned. rewrite E. pose proof (alloc_pow2_ok fa k Hwf Hk) as H.
  destruct (alloc_power_of_two fa _) as [fa' r] eqn:Ea.
  destruct (alloc_spec fa k fa' r Hwf Hk Ea) as [Hwf' Hspec]. split_and!; try done.
  - destruct r as [p |]; [by destruct H as (_ & _ & _ & -> & _) | destruct H as [-> _]; lia].
  - assert (forall c, 2 ^ Z.of_nat c >= 2 ^ Z.of_nat k <-> (k <= c)%nat) as Hpow.
    { intros c. rewrite Z.ge_le_iff, <- Z.pow_le_mono_r_iff by lia. lia. }
    setoid_rewrite Hpow. destruct r as [p |]; [| by split; intros; try apply H].
    destruct H as (_ & _ & _ & _ & _ & c & Hc & Hne). split; [done |]. intros Hall.
    by destruct (Hne (Hall c Hc)).
Qed.

(** [dealloc_aligned] of a block that was handed out gives exactly its
    frames back to the free set, whatever buddies it merges with, and keeps the
    invariant and the accounting; the capacity bound rules out a merge past the
    largest class. *)
Theorem dealloc_aligned_refines fa start layout k :
  fa_wf fa -> layout_size layout = 2 ^ Z.of_nat k -> owned_block fa k start ->
  total fa < 2 ^ Z.of_nat (length (free_list fa)) ->
  let fa' := dealloc_aligned fa start layout in
  fa_wf fa' /\ spec_dealloc (is_free fa) start (layout_size layout) (is_free fa') /\
  allocated fa' = allocated fa - layout_size layout /\ total fa' = total fa.
Proof.
  intros Hwf E Hown Hbig. unfold dealloc_aligned. rewrite E.
  destruct (dealloc_pow2_ok fa k start Hwf Hown Hbig) as (Hwf' & (Hfl & _ & Hc & _) & Ha & Ht).
  cbv zeta. split_and!; try done. intros x. apply (adds_free _ _ k start x Hfl Hc).
Qed.

(** Allocating and freeing with the same layout restores the free set and
    both counters. *)
Theorem alloc_dealloc_roundtrip fa layout fa' p :
  fa_wf fa -> layout_ok layout -> total fa < 2 ^ Z.of_nat (length (free_list fa)) ->
  alloc_aligned fa layout = (fa', Some p) ->
  let fa'' := dealloc_aligned fa' p layout in
  (forall x, is_free fa'' x <-> is_free fa x) /\
  allocated fa'' = allocated fa /\ total fa'' = total fa.
Proof.
  intros Hwf Hl Hbig Ea. destruct (layout_size_spec layout Hl) as (k & Hk & E & _).
  unfold alloc_aligned, dealloc_aligned in *. rewrite E in *.
  pose proof (alloc_pow2_ok fa k Hwf Hk) as H. rewrite Ea in H.
  destruct H as (Hwf' & (_ & Hlen & Hc & Hu) & Hok & Ha & Ht & _).
  pose proof (fa_units _ Hwf). pose proof (fa_alloc _ Hwf).
  destruct (dealloc_pow2_ok fa' k p Hwf') as (_ & (_ & _ & Hc' & _) & Ha' & Ht').
  - split_and!; [| done | | lia].
    + destruct (decide (k < length (free_list fa'))%nat) as [| Hge]; [done |].
      assert (2 ^ Z.of_nat (length (free_list fa)) <= 2 ^ Z.of_nat k) by (apply Z.pow_le_mono_r; lia).
      pose proof (units_from_nonneg 0 (free_list fa')) as Hnn. fold (free_units (free_list fa')) in Hnn. lia.
    + intros x Hx. pose proof (adds_free _ _ k p x (fa_lists _ Hwf) Hc) as [_ Hnone].
      unfold is_free. specialize (Hnone Hx). lia.
  - rewrite Ht. by rewrite <- Hlen.
  - cbv zeta. unfold is_free. split_and!; [| lia | lia]. intros x. by rewrite Hc', Hc.
Qed.

(** [add_frame] on a fresh range always terminates without a panic and
    adds exactly the frames of [start, end), whatever alignment the range has;
    on a reversed range it panics. *)
Theorem add_frame_total fa start end_ :
  fa_wf fa -> 0 <= start -> end_ < W64 -> total fa + (end_ - start) < W64 ->
  (forall x, start <= x < end_ -> ~ is_free fa x) ->
  if start <=? end_ then
    exists fa', add_frame fa start end_ = Some (Done fa') /\ fa_wf fa' /\
      (forall x, is_free fa' x <-> is_free fa x \/ start <= x < end_) /\
      total fa' = total fa + (end_ - start) /\ allocated fa' = allocated fa
  else add_frame fa start end_ = Some Panic.
Proof.
  intros Hwf Hs He Ht Hf. destruct (Z.leb_spec start end_) as [Hle | Hgt].
  - destruct (add_frame_ok fa start end_) as (fa' & E & Hwf' & _ & Hc & Ha & Ht'); try done.
    exists fa'. split_and!; try done. intros x. unfold is_free. rewrite Hc, <- in_range_in.
    pose proof (wf_disjoint _ (fa_lists _ Hwf') x) as Hd. rewrite Hc in Hd.
    pose proof (in_range_le start end_ x). lia.
  - unfold add_frame. by destruct (Z.leb_spec start end_); [lia |].
Qed.

(** [round_u64_up] and [round_u64_down] return the nearest multiples: the
    least one at or above [n] and the greatest one at or below it. *)
Theorem round_u64_nearest n m :
  0 <= n -> 0 < m -> n + m <= W64 ->
  (exists q, round_u64_up n m = q * m) /\ n <= round_u64_up n m < n + m /\
  (exists q, round_u64_down n m = q * m) /\ n - m < round_u64_down n m <= n.
Proof.
  intros Hn Hm Hr. pose proof (Z.div_mod n m ltac:(lia)). pose proof (Z.mod_pos_bound n m Hm).
  assert (0 <= n / m) by (apply Z.div_pos; lia).
  unfold round_u64_up, round_u64_down. destruct (Z.eqb_spec (n mod m) 0) as [E | E].
  - split_and!; try lia; exists (n / m); lia.
  - assert (n / m < W64) by (unfold W64 in *; nia).
    assert (n / m + 1 < W64). { destruct (decide (m = 1)) as [-> |]; [| nia]. rewrite Z.mod_1_r in E. lia. }
    rewrite wadd_small by lia. rewrite !wmul_small by nia.
    split_and!; try nia; eauto.
Qed.

(** ** Witnesses: a four-frame allocator of order 4 with one block out *)

Definition ex_fa : FrameAllocator := mkFrameAllocator [[2]; [0]; []; []] 1 4.

Lemma ex_reach : reach 4 ex_fa [(0%nat, 3)].
Proof.
  assert (reach 4 (mkFrameAllocator [[]; []; [0]; []] 0 4) []) as H1.
  { eapply (reach_add 4 (new 4) [] 0 4); [apply reach_new; lia | lia | vm_compute; done | vm_compute; done
      | | set_solver | vm_compute; reflexivity].
    intros x _. unfold is_free, cov. simpl. lia. }
  assert (reach 4 (mkFrameAllocator [[1]; [2]; []; []] 1 4) [(0%nat, 0)]) as H2.
  { eapply (reach_alloc 4 _ _ 0); [exact H1 | lia | vm_compute; reflexivity]. }
  assert (reach 4 (mkFrameAllocator [[]; [2]; []; []] 2 4) [(0%nat, 1); (0%nat, 0)]) as H3.
  { eapply (reach_alloc 4 _ _ 0); [exact H2 | lia | vm_compute; reflexivity]. }
  assert (reach 4 (mkFrameAllocator [[3]; []; []; []] 3 4) [(0%nat, 2); (0%nat, 1); (0%nat, 0)]) as H4.
  { eapply (reach_alloc 4 _ _ 0); [exact H3 | lia | vm_compute; reflexivity]. }
  assert (reach 4 (mkFrameAllocator [[]; []; []; []] 4 4)
            [(0%nat, 3); (0%nat, 2); (0%nat, 1); (0%nat, 0)]) as H5.
  { eapply (reach_alloc 4 _ _ 0); [exact H4 | lia | vm_compute; reflexivity]. }
  pose proof (reach_dealloc 4 _ [(0%nat, 3)] 0 2 [(0%nat, 1); (0%nat, 0)] H5) as H6.
  pose proof (reach_dealloc 4 _ [(0%nat, 3)] 0 1 [(0%nat, 0)] H6) as H7.
  exact (reach_dealloc 4 _ [(0%nat, 3)] 0 0 [] H7).
Qed.

Lemma ex_wf : fa_wf ex_fa.
Proof. exact (hi_wf _ _ _ (reach_inv _ _ _ ex_reach)). Qed.

Lemma no_double_allocation_witness :
  allocated ex_fa = 1 /\ (forall x, 3 <= x < 4 -> ~ is_free ex_fa x).
Proof.
  destruct (no_double_allocation 4 ex_fa [(0%nat, 3)] ex_reach) as (_ & H & Ha & _).
  split; [exact Ha |]. intros x Hx. apply (H 0%nat 3 x); [set_solver | exact Hx].
Defined.

Lemma alloc_aligned_refines_witness :
  snd (alloc_aligned ex_fa (mkLayout 2 1)) = Some 0 /\
  allocated (fst (alloc_aligned ex_fa (mkLayout 2 1))) = 3.
Proof.
  pose proof (alloc_aligned_refines ex_fa (mkLayout 2 1) ex_wf) as H.
  assert (layout_ok (mkLayout 2 1)) as Hl by (split; [simpl; lia | exists 0; split; [lia | reflexivity]]).
  specialize (H Hl). destruct (alloc_aligned ex_fa (mkLayout 2 1)) as [fa' r] eqn:E.
  vm_compute in E. injection E as <- <-. split; [reflexivity |].
  destruct H as (_ & _ & Ha & _). exact Ha.
Defined.

Lemma dealloc_aligned_refines_witness :
  free_list (dealloc_aligned ex_fa 3 (mkLayout 1 1)) = [[]; []; [0]; []] /\
  is_free (dealloc_aligned ex_fa 3 (mkLayout 1 1)) 3.
Proof.
  split; [reflexivity |].
  pose proof (hist_owned 4 ex_fa [] 0 3 [] (reach_inv _ _ _ ex_reach)) as Hown.
  destruct (dealloc_aligned_refines ex_fa 3 (mkLayout 1 1) 0 ex_wf eq_refl Hown eq_refl) as (_ & H & _).
  apply H. right. change (layout_size (mkLayout 1 1)) with 1. lia.
Defined.

Lemma alloc_dealloc_roundtrip_witness :
  layout_ok (mkLayout 2 1) /\
  (forall x, is_free (dealloc_aligned (mkFrameAllocator [[2]; []; []; []] 3 4) 0 (mkLayout 2 1)) x
             <-> is_free ex_fa x).
Proof.
  assert (layout_ok (mkLayout 2 1)) as Hl by (split; [simpl; lia | exists 0; split; [lia | reflexivity]]).
  split; [exact Hl |].
  apply (alloc_dealloc_roundtrip ex_fa (mkLayout 2 1) _ 0 ex_wf Hl eq_refl). reflexivity.
Defined.

Lemma add_frame_total_witness :
  exists fa', add_frame ex_fa 5 12 = Some (Done fa') /\ total fa' = 11 /\ is_free fa' 11.
Proof.
  destruct (add_frame_total ex_fa 5 12 ex_wf ltac:(lia) eq_refl eq_refl) as (fa' & E & _ & Hf & Ht & _).
  { intros x Hx. unfold is_free, cov. simpl. unfold in_block. simpl. cases_b; to_prop; lia. }
  exists fa'. split; [exact E |]. split; [exact Ht |]. apply Hf. lia.
Defined.

Lemma round_u64_nearest_witness :
  round_u64_up 4097 4096 = 8192 /\ 4097 - 4096 < round_u64_down 4097 4096 <= 4097.
Proof.
  split; [reflexivity |].
  apply (round_u64_nearest 4097 4096); [lia | lia | unfold W64; lia].
Defined.
