(* ===== verification/Sv48.v ===== *)
(** * Sv48 addresses and page-table entries

    Models [mmu/src/sv48.rs] and [mmu/src/lib.rs]: the field extractors of
    virtual and physical addresses, the packing of leaf and table entries, the
    entry's accessors and atomic setters as functions on the raw word. The
    first half translates the code; the second half gives each extractor its
    arithmetic meaning, from which the page-table files reason. *)

From stdpp Require Import base list option numbers sets gmap.
From S2P Require Import Prelude.
#[local] Open Scope Z_scope.

Definition PAGE_SIZE : Z := 4096.
Definition KB : Z := 1024.
Definition MB : Z := KB * 1024.
Definition GB : Z := MB * 1024.

Inductive PagePermissions := PR | PW | PX | PU | PG.

Definition perm_bits (p : PagePermissions) : Z :=
  match p with PR => 0x2 | PW => 0x4 | PX => 0x8 | PU => 0x10 | PG => 0x20 end.

(** The [BitOr] and [BitAnd] impls: all of them act on the discriminants. *)
Definition perm_or (a b : PagePermissions) : Z := Z.lor (perm_bits a) (perm_bits b).
Definition perm_and (a b : PagePermissions) : Z := Z.land (perm_bits a) (perm_bits b).
Definition perm_or_u64 (a : PagePermissions) (b : Z) : Z := Z.lor (perm_bits a) b.
Definition perm_and_u64 (a : PagePermissions) (b : Z) : Z := Z.land (perm_bits a) b.

Inductive SupervisorTag := TagNone | SharedRevocable.

Definition tag_bits (t : SupervisorTag) : Z :=
  match t with TagNone => 0 | SharedRevocable => 1 end.

Record MappingConfig := mkMappingConfig {
  permissions : Z;
  levels : Z;
  page_size : Z;
  vaddr : Z;
  paddr : Z;
  log : bool;
  supervisor_tag : SupervisorTag;
}.

(** ** Virtual and physical addresses, as their raw words *)

Definition PAGE_OFFSET_MASK : Z := 0xFFF.
Definition VIRT_PAGE_NUM_MASK : Z := 0x1FF.
Definition VPN_OFFSETS : list Z := [12; 21; 30; 39].

(** [arr[n]] on a fixed array: a panic out of bounds. *)
Definition index (arr : list Z) (n : Z) : panics Z :=
  match arr !! Z.to_nat n with
  | Some x => if n <? 0 then Panic else Done x
  | None => Panic
  end.

Definition va_page_offset (a : Z) : Z := Z.land a PAGE_OFFSET_MASK.

Definition vpn_n (a n : Z) : panics Z :=
  i <-! index VPN_OFFSETS n ;;
  Done (wshr (Z.land a (wshl VIRT_PAGE_NUM_MASK i)) i).

Definition vpn0 (a : Z) : Z := wshr (Z.land a (wshl VIRT_PAGE_NUM_MASK 12)) 12.
Definition vpn1 (a : Z) : Z := wshr (Z.land a (wshl VIRT_PAGE_NUM_MASK 21)) 21.
Definition vpn2 (a : Z) : Z := wshr (Z.land a (wshl VIRT_PAGE_NUM_MASK 30)) 30.
Definition vpn3 (a : Z) : Z := wshr (Z.land a (wshl VIRT_PAGE_NUM_MASK 39)) 39.

Definition PHYS_PAGE_NUM_MASK : Z := 0x1FF.
Definition PHYS_PAGE_NUM_MASK3 : Z := 0x1FFFF.
Definition PA_PPN_OFFSETS : list Z := [12; 21; 30; 39].

Definition pa_page_offset (a : Z) : Z := Z.land a PAGE_OFFSET_MASK.
Definition pa_ppn (a : Z) : Z := wshr (Z.land a (wnot PAGE_OFFSET_MASK)) 12.

Definition pa_ppn_n (a n : Z) : panics Z :=
  i <-! index PA_PPN_OFFSETS n ;;
  let pm := if n =? 3 then PHYS_PAGE_NUM_MASK3 else PHYS_PAGE_NUM_MASK in
  Done (wshr (Z.land a (wshl pm i)) i).

Definition pa_ppn3 (a : Z) : Z := wshr (Z.land a (wshl PHYS_PAGE_NUM_MASK 39)) 39.

(** [From<Satp>]: the argument is [satp.ppn()]. *)
Definition pa_from_satp (satp_ppn : Z) : Z := wshl satp_ppn 12.

(** ** Page-table entries *)

Definition STATUS_BITS_MASK : Z := 0x3FF.
Definition PTE_PPN_OFFSETS : list Z := [10; 19; 28; 37].
Definition VALID : Z := 0x1.
Definition READABLE : Z := 0x2.
Definition WRITEABLE : Z := 0x4.
Definition EXECUTABLE : Z := 0x8.
Definition USER_PAGE : Z := 0x10.
Definition GLOBAL : Z := 0x20.
Definition ACCESSED : Z := 0x40.
Definition DIRTY : Z := 0x80.
Definition PERMS_MASK : Z := 0x3E.

Definition pack_leaf (ppn perms rsw : Z) : Z :=
  Z.lor (Z.lor (Z.lor (Z.lor (Z.lor
    (wshl ppn 10) (Z.land perms PERMS_MASK)) (wshl (Z.land rsw 3) 8)) VALID) ACCESSED) DIRTY.

Definition pack_table (ppn : Z) : Z := Z.lor (wshl ppn 10) VALID.

Definition get_ppn (raw : Z) : Z := Z.land raw 0x3FFFFFFFFFFC00.

Definition get_bit (raw bit : Z) : bool := 0 <? Z.land raw (wshl 1 bit).

Definition set_bit (raw bit : Z) (b : bool) : Z :=
  let m := wshl 1 bit in
  if b then Z.lor raw m else Z.land raw (wnot m).

Definition is_valid (raw : Z) : bool := get_bit raw 0.
Definition set_valid (raw : Z) (b : bool) : Z := set_bit raw 0 b.
Definition pte_is_readable (raw : Z) : bool := get_bit raw 1.
Definition set_readable (raw : Z) (b : bool) : Z := set_bit raw 1 b.
Definition is_writeable (raw : Z) : bool := get_bit raw 2.
Definition set_writeable (raw : Z) (b : bool) : Z := set_bit raw 2 b.
Definition is_executable (raw : Z) : bool := get_bit raw 3.
Definition set_executable (raw : Z) (b : bool) : Z := set_bit raw 3 b.
Definition is_leaf (raw : Z) : bool := 0 <? Z.land raw 0xE.
Definition is_user_page (raw : Z) : bool := get_bit raw 4.
Definition set_user_page (raw : Z) (b : bool) : Z := set_bit raw 4 b.
Definition is_global_page (raw : Z) : bool := get_bit raw 5.
Definition set_global_page (raw : Z) (b : bool) : Z := set_bit raw 5 b.
Definition was_accessed (raw : Z) : bool := get_bit raw 6.
Definition set_accessed (raw : Z) (b : bool) : Z := set_bit raw 6 b.
Definition is_dirty (raw : Z) : bool := get_bit raw 7.
Definition set_dirty (raw : Z) (b : bool) : Z := set_bit raw 7 b.

Definition get_supervisor_bits (raw : Z) : Z := wshr (Z.land raw (wshl 3 8)) 8.
Definition set_supervisor_bits (raw bits : Z) : Z :=
  Z.lor (Z.land raw (wnot (wshl 3 8))) (wshl (Z.land bits 3) 8).

Definition pte_ppn (raw : Z) : Z := wshr (Z.land raw (wnot STATUS_BITS_MASK)) 10.

Definition pte_ppn_n (raw n : Z) : panics Z :=
  i <-! index PTE_PPN_OFFSETS n ;;
  Done (wshr (Z.land raw (wshl PHYS_PAGE_NUM_MASK i)) i).

Definition pte_ppn0 (raw : Z) : Z := wshr (Z.land raw (wshl PHYS_PAGE_NUM_MASK 10)) 10.
Definition pte_ppn1 (raw : Z) : Z := wshr (Z.land raw (wshl PHYS_PAGE_NUM_MASK 19)) 19.
Definition pte_ppn2 (raw : Z) : Z := wshr (Z.land raw (wshl PHYS_PAGE_NUM_MASK 28)) 28.
Definition pte_ppn3 (raw : Z) : Z := wshr (Z.land raw (wshl PHYS_PAGE_NUM_MASK3 37)) 37.

Definition PAGE_TABLE_ENTRY_COUNT : Z := 512.

(** ** Arithmetic meaning *)

(** The virtual page number at level [l], as arithmetic. *)
Definition vpn (a l : Z) : Z := (a / 2 ^ (12 + 9 * l)) mod 512.

Lemma vpn_range a l : 0 <= vpn a l < 512.
Proof. apply Z.mod_pos_bound. lia. Qed.

(** Extracting a field with a shifted mask is division and remainder. *)
Lemma field_extract a k w :
  0 <= k -> 0 <= w -> k + w <= 64 ->
  wshr (Z.land a (wshl (2 ^ w - 1) k)) k = (a / 2 ^ k) mod 2 ^ w.
Proof.
  intros Hk Hw Hkw. destruct (decide (w = 0)) as [-> | Hw0].
  { unfold wshr, wshl. change (2 ^ 0 - 1) with 0. rewrite Z.shiftl_0_l.
    change (u64 0) with 0. rewrite Z.land_0_r, Z.shiftr_0_l. symmetry. apply Z.mod_1_r. }
  unfold wshr, wshl. rewrite (Z.mod_small k 64) by lia.
  rewrite u64_small.
  - rewrite Z.shiftr_land, Z.shiftr_shiftl_l, Z.sub_diag, Z.shiftl_0_r by lia.
    replace (2 ^ w - 1) with (Z.ones w) by (rewrite Z.ones_equiv; lia).
    rewrite Z.land_ones, Z.shiftr_div_pow2 by lia. done.
  - rewrite Z.shiftl_mul_pow2 by lia. pose proof (pow2_bounds k). pose proof (pow2_bounds w).
    assert (2 ^ w * 2 ^ k <= W64); [| split; nia].
    rewrite <- Z.pow_add_r by lia. apply Z.pow_le_mono_r; lia.
Qed.

Lemma index_VPN_OFFSETS l : 0 <= l <= 3 -> index VPN_OFFSETS l = Done (12 + 9 * l).
Proof.
  intros Hl. assert (l = 0 \/ l = 1 \/ l = 2 \/ l = 3) as [-> | [-> | [-> | ->]]] by lia; done.
Qed.

Lemma vpn_n_spec a l : 0 <= l <= 3 -> vpn_n a l = Done (vpn a l).
Proof.
  intros Hl. unfold vpn_n. rewrite index_VPN_OFFSETS by done. cbn [pbind]. f_equal.
  apply (field_extract a _ 9); lia.
Qed.

Lemma pte_ppn_div raw : is_u64 raw -> pte_ppn raw = raw / 1024.
Proof.
  intros Hr. unfold pte_ppn. change (wnot STATUS_BITS_MASK) with (wshl (2 ^ 54 - 1) 10).
  rewrite field_extract by lia. apply Z.mod_small. unfold is_u64, W64 in Hr.
  split; [apply Z.div_pos; lia |]. apply Z.div_lt_upper_bound; lia.
Qed.

(** Masking a field that starts at bit 10 in place. *)
Lemma land_field raw w :
  0 <= w -> Z.land raw (Z.shiftl (Z.ones w) 10) = (raw / 1024) mod 2 ^ w * 1024.
Proof.
  intros Hw. replace (raw / 1024) with (Z.shiftr raw 10) by (apply Z.shiftr_div_pow2; lia).
  change 1024 with (2 ^ 10). rewrite <- Z.land_ones, <- Z.shiftl_mul_pow2 by lia.
  apply Z.bits_inj'. intros n Hn. rewrite Z.land_spec. destruct (Z.lt_ge_cases n 10).
  - rewrite !Z.shiftl_spec_low by lia. by rewrite andb_false_r.
  - rewrite !Z.shiftl_spec, Z.land_spec, Z.shiftr_spec by lia. by rewrite Z.sub_add.
Qed.

Lemma get_ppn_div raw : get_ppn raw = (raw / 1024) mod 2 ^ 44 * 1024.
Proof. apply (land_field raw 44). lia. Qed.

Lemma land_status raw : is_u64 raw -> Z.land raw (wnot STATUS_BITS_MASK) = raw / 1024 * 1024.
Proof.
  intros Hr. change (wnot STATUS_BITS_MASK) with (Z.shiftl (Z.ones 54) 10).
  rewrite land_field by lia. f_equal. apply Z.mod_small. unfold is_u64, W64 in Hr.
  split; [apply Z.div_pos; lia | apply Z.div_lt_upper_bound; lia].
Qed.

(** A mask below bit 10 sees only the low ten bits. *)
Lemma land_low raw c : 0 <= c < 1024 -> Z.land raw c = Z.land (raw mod 1024) c.
Proof.
  intros Hc. change 1024 with (2 ^ 10) in *. rewrite <- Z.land_ones, <- Z.land_assoc by lia.
  by rewrite (Z.land_comm (Z.ones 10) c), Z.land_ones, (Z.mod_small c) by lia.
Qed.

Lemma lor_fields p s :
  0 <= s < 1024 -> Z.lor (Z.shiftl p 10) s = p * 1024 + s.
Proof.
  intros Hs. change 1024 with (2 ^ 10) in *.
  rewrite (Z.div_mod (Z.lor (Z.shiftl p 10) s) (2 ^ 10)) by lia.
  rewrite Z.mul_comm. f_equal.
  - f_equal. rewrite <- Z.shiftr_div_pow2, Z.shiftr_lor, Z.shiftr_shiftl_l by lia.
    rewrite Z.sub_diag, Z.shiftl_0_r, (Z.shiftr_div_pow2 s), Z.div_small by lia. apply Z.lor_0_r.
  - rewrite <- Z.land_ones, Z.land_lor_distr_l, !Z.land_ones, Z.shiftl_mul_pow2 by lia.
    rewrite Z.mod_mul, Z.mod_small by lia. done.
Qed.

(** The ten status bits [pack_leaf] composes. *)
Definition leaf_status (perms rsw : Z) : Z :=
  Z.lor (Z.lor (Z.lor (Z.lor (Z.land perms PERMS_MASK) (wshl (Z.land rsw 3) 8)) VALID) ACCESSED) DIRTY.

(** Checks a property of every permission and tag combination. *)
Definition all_status (P : Z -> Z -> bool) : bool :=
  forallb (fun x => forallb (P x) (seqZ 0 4)) (seqZ 0 64).

Lemma leaf_status_mod perms rsw :
  leaf_status perms rsw = leaf_status (perms mod 64) (rsw mod 4).
Proof.
  unfold leaf_status. change 64 with (2 ^ 6). change 4 with (2 ^ 2).
  rewrite <- !Z.land_ones, <- !Z.land_assoc by lia. done.
Qed.

Lemma all_status_correct (P : Z -> Z -> bool) :
  all_status P = true -> forall x y, P (x mod 64) (y mod 4) = true.
Proof.
  unfold all_status. rewrite forallb_forall. intros H x y.
  pose proof (Z.mod_pos_bound x 64). pose proof (Z.mod_pos_bound y 4).
  specialize (H (x mod 64)). rewrite forallb_forall in H.
  apply H; apply list_elem_of_In, elem_of_seqZ; lia.
Qed.

Lemma leaf_status_range perms rsw : 0 <= leaf_status perms rsw < 1024.
Proof.
  rewrite leaf_status_mod.
  pose proof (all_status_correct (fun x y =>
    (0 <=? leaf_status x y) && (leaf_status x y <? 1024)) ltac:(by vm_compute) perms rsw) as H.
  cbv beta in H. to_prop. lia.
Qed.

Lemma pack_leaf_fields ppn perms rsw :
  0 <= ppn < 2 ^ 54 -> pack_leaf ppn perms rsw = ppn * 1024 + leaf_status perms rsw.
Proof.
  intros Hp. rewrite <- lor_fields by apply leaf_status_range.
  unfold pack_leaf, leaf_status. rewrite !Z.lor_assoc. do 5 f_equal.
  unfold wshl. apply u64_small. rewrite Z.shiftl_mul_pow2 by lia.
  unfold is_u64, W64. change (10 mod 64) with 10. lia.
Qed.

Lemma pack_table_fields ppn : 0 <= ppn < 2 ^ 54 -> pack_table ppn = ppn * 1024 + 1.
Proof.
  intros Hp. rewrite <- lor_fields by lia. unfold pack_table, wshl. f_equal.
  apply u64_small. rewrite Z.shiftl_mul_pow2 by lia.
  unfold is_u64, W64. change (10 mod 64) with 10. lia.
Qed.

Lemma get_bit_testbit raw b : 0 <= b < 64 -> get_bit raw b = Z.testbit raw b.
Proof.
  intros Hb. unfold get_bit. rewrite wshl_pow2 by done.
  destruct (Z.testbit raw b) eqn:E.
  - apply Z.ltb_lt. assert (Z.land raw (2 ^ b) = 2 ^ b) as ->; [| apply pow2_bounds; lia].
    apply Z.bits_inj'. intros n Hn. rewrite Z.land_spec, Z.pow2_bits_eqb by lia.
    destruct (Z.eqb_spec b n) as [-> |]; [by rewrite E | apply andb_false_r].
  - assert (Z.land raw (2 ^ b) = 0) as ->; [| done].
    apply Z.bits_inj'. intros n Hn. rewrite Z.land_spec, Z.pow2_bits_eqb, Z.bits_0 by lia.
    destruct (Z.eqb_spec b n) as [-> |]; [by rewrite E | apply andb_false_r].
Qed.

Lemma get_bit_low raw b : 0 <= b < 10 -> get_bit raw b = get_bit (raw mod 1024) b.
Proof.
  intros Hb. rewrite !get_bit_testbit by lia. change 1024 with (2 ^ 10).
  by rewrite Z.mod_pow2_bits_low by lia.
Qed.

Lemma is_leaf_low raw : is_leaf raw = is_leaf (raw mod 1024).
Proof. unfold is_leaf. by rewrite land_low by lia. Qed.

Lemma is_leaf_perms perms : is_leaf perms = is_leaf (perms mod 64).
Proof.
  unfold is_leaf. change 64 with (2 ^ 6). by rewrite <- Z.land_ones, <- Z.land_assoc by lia.
Qed.

Lemma fields_mod p s : 0 <= s < 1024 -> (p * 1024 + s) mod 1024 = s.
Proof. intros. rewrite Z.add_comm, Z.mod_add, Z.mod_small by lia. done. Qed.

Lemma fields_div p s : 0 <= s < 1024 -> (p * 1024 + s) / 1024 = p.
Proof. intros. rewrite Z.add_comm, Z.div_add, Z.div_small by lia. lia. Qed.

(** What the walkers test and follow of a leaf and of a table entry. *)
Lemma pack_leaf_leaf ppn perms rsw :
  0 <= ppn < 2 ^ 54 ->
  is_valid (pack_leaf ppn perms rsw) = true /\ is_leaf (pack_leaf ppn perms rsw) = is_leaf perms.
Proof.
  intros Hp. rewrite pack_leaf_fields by done. unfold is_valid.
  rewrite get_bit_low, is_leaf_low, (is_leaf_perms perms) by lia.
  rewrite fields_mod, leaf_status_mod by apply leaf_status_range.
  pose proof (all_status_correct (fun x y => get_bit (leaf_status x y) 0 &&
    eqb (is_leaf (leaf_status x y)) (is_leaf x)) ltac:(by vm_compute) perms rsw) as H.
  cbv beta in H. apply andb_true_iff in H as [? H%eqb_prop]. done.
Qed.

Lemma pack_leaf_base ppn perms rsw :
  0 <= ppn < 2 ^ 54 ->
  is_u64 (pack_leaf ppn perms rsw) /\ pack_leaf ppn perms rsw / 1024 = ppn.
Proof.
  intros Hp. rewrite pack_leaf_fields by done. pose proof (leaf_status_range perms rsw).
  split; [unfold is_u64, W64; lia | by apply fields_div].
Qed.

Lemma pack_table_table ppn :
  0 <= ppn < 2 ^ 44 ->
  is_valid (pack_table ppn) = true /\ is_leaf (pack_table ppn) = false /\
  0 <= pack_table ppn < 2 ^ 54 /\ pte_ppn (pack_table ppn) = ppn.
Proof.
  intros Hp. rewrite pack_table_fields by lia. split_and!; try lia.
  - unfold is_valid. rewrite get_bit_low, fields_mod by lia. done.
  - rewrite is_leaf_low, fields_mod by lia. done.
  - rewrite pte_ppn_div, fields_div by (unfold is_u64, W64; lia). done.
Qed.

(** The two ways the code follows a table entry agree below 2^54. *)
Lemma follow_agree raw :
  0 <= raw < 2 ^ 54 -> wshl (get_ppn raw) 2 = wmul (pte_ppn raw) 4096.
Proof.
  intros Hr. rewrite pte_ppn_div, get_ppn_div by (unfold is_u64, W64; lia).
  assert (0 <= raw / 1024 < 2 ^ 44).
  { split; [apply Z.div_pos; lia | apply Z.div_lt_upper_bound; lia]. }
  rewrite (Z.mod_small (raw / 1024)) by done. unfold wshl, wmul.
  change (2 mod 64) with 2. rewrite Z.shiftl_mul_pow2 by lia. f_equal. lia.
Qed.

(** ** The codec *)

(** The five permission flags as the accessors report them. *)
Definition flags (raw : Z) : list bool :=
  [pte_is_readable raw; is_writeable raw; is_executable raw; is_user_page raw; is_global_page raw].

Lemma flags_status perms rsw :
  flags (leaf_status perms rsw) = flags perms /\
  was_accessed (leaf_status perms rsw) = true /\ is_dirty (leaf_status perms rsw) = true /\
  get_supervisor_bits (leaf_status perms rsw) = rsw mod 4.
Proof.
  assert (flags perms = flags (perms mod 64)) as ->.
  { unfold flags, pte_is_readable, is_writeable, is_executable, is_user_page, is_global_page.
    rewrite !get_bit_testbit by lia. change 64 with (2 ^ 6).
    by rewrite !Z.mod_pow2_bits_low by lia. }
  rewrite leaf_status_mod.
  pose proof (all_status_correct (fun x y => bool_decide (flags (leaf_status x y) = flags x /\
    was_accessed (leaf_status x y) = true /\ is_dirty (leaf_status x y) = true /\
    get_supervisor_bits (leaf_status x y) = y)) ltac:(by vm_compute) perms rsw) as H.
  cbv beta in H. by apply bool_decide_eq_true in H.
Qed.

Lemma is_leaf_rwx perms :
  is_leaf perms = pte_is_readable perms || is_writeable perms || is_executable perms.
Proof.
  rewrite is_leaf_low. unfold pte_is_readable, is_writeable, is_executable.
  rewrite (get_bit_low perms 1), (get_bit_low perms 2), (get_bit_low perms 3) by lia.
  pose proof (Z.mod_pos_bound perms 1024 ltac:(lia)) as Hb. revert Hb.
  generalize (perms mod 1024) as x. intros x Hx.
  assert (forallb (fun x => eqb (is_leaf x) (get_bit x 1 || get_bit x 2 || get_bit x 3))
    (seqZ 0 1024) = true) as H by (vm_compute; done).
  rewrite forallb_forall in H. apply eqb_prop, H, list_elem_of_In, elem_of_seqZ. lia.
Qed.

Lemma flags_low raw : flags raw = flags (raw mod 1024).
Proof.
  unfold flags, pte_is_readable, is_writeable, is_executable, is_user_page, is_global_page.
  by rewrite (get_bit_low raw 1), (get_bit_low raw 2), (get_bit_low raw 3),
    (get_bit_low raw 4), (get_bit_low raw 5) by lia.
Qed.

Lemma supervisor_bits_low raw : get_supervisor_bits raw = get_supervisor_bits (raw mod 1024).
Proof. unfold get_supervisor_bits. by rewrite land_low by (vm_compute; done). Qed.

(** A leaf entry packed from a 44-bit page number, a permission word and a
    tag reads back exactly: the accessors return that page number (in both its
    shifted and its in-place form), the five permission flags of the request and
    nothing else of it, the two tag bits, and V, A and D set; the entry counts
    as a leaf exactly when the request has R, W or X, and it fits the 54
    architected bits. A table entry reads back as valid, not a leaf, with its
    page number and no flag. *)
Theorem pte_pack_roundtrip ppn perms rsw :
  0 <= ppn < 2 ^ 44 ->
  let e := pack_leaf ppn perms rsw in
  let t := pack_table ppn in
  (0 <= e < 2 ^ 54 /\ pte_ppn e = ppn /\ wshr (get_ppn e) 10 = ppn /\ flags e = flags perms /\
   get_supervisor_bits e = rsw mod 4 /\ is_valid e = true /\ was_accessed e = true /\
   is_dirty e = true /\ is_leaf e = pte_is_readable perms || is_writeable perms || is_executable perms) /\
  (0 <= t < 2 ^ 54 /\ pte_ppn t = ppn /\ wshr (get_ppn t) 10 = ppn /\ is_valid t = true /\
   is_leaf t = false /\ flags t = [false; false; false; false; false] /\ get_supervisor_bits t = 0).
Proof.
  intros Hp e t. pose proof (leaf_status_range perms rsw) as Hs.
  destruct (flags_status perms rsw) as (Hf & Ha & Hd & Hr).
  assert (e = ppn * 1024 + leaf_status perms rsw) as He by (apply pack_leaf_fields; lia).
  assert (t = ppn * 1024 + 1) as Ht by (apply pack_table_fields; lia).
  assert (is_u64 e /\ is_u64 t) as [Hue Hut] by (rewrite He, Ht; unfold is_u64, W64; lia).
  assert (forall r, r = e \/ r = t -> r / 1024 = ppn) as Hdiv.
  { intros r [-> | ->]; [rewrite He | rewrite Ht]; apply fields_div; lia. }
  assert (forall r, r = e \/ r = t -> wshr (get_ppn r) 10 = ppn) as Hget.
  { intros r Hr'. rewrite get_ppn_div, Hdiv, (Z.mod_small ppn) by done.
    unfold wshr. rewrite Z.shiftr_div_pow2 by (vm_compute; done). apply Z.div_mul. done. }
  destruct (pack_leaf_leaf ppn perms rsw) as [Hv Hl]; [lia |].
  destruct (pack_table_table ppn) as (Hv' & Hl' & Hb' & _); [lia |].
  split; split_and!; rewrite ?pte_ppn_div by done; auto; try (rewrite He; lia).
  - rewrite flags_low, He, fields_mod by done. done.
  - rewrite supervisor_bits_low, He, fields_mod by done. done.
  - unfold was_accessed. rewrite get_bit_low, He, fields_mod by lia. done.
  - unfold is_dirty. rewrite get_bit_low, He, fields_mod by lia. done.
  - unfold e. rewrite Hl. apply is_leaf_rwx.
  - apply Hb'.
  - apply Hb'.
  - rewrite flags_low, Ht, fields_mod by lia. done.
  - rewrite supervisor_bits_low, Ht, fields_mod by lia. done.
Qed.

Lemma pte_pack_roundtrip_witness :
  pte_ppn (pack_leaf 0x80200 (perm_or_u64 PR (perm_or PW PU)) 1) = 0x80200.
Proof.
  apply (pte_pack_roundtrip 0x80200 (perm_or_u64 PR (perm_or PW PU)) 1). lia.
Defined.

(** The flag setters act on one bit. *)
Lemma get_set_bit raw b b' v :
  0 <= b < 64 -> 0 <= b' < 64 -> is_u64 raw ->
  get_bit (set_bit raw b v) b' = if b =? b' then v else get_bit raw b'.
Proof.
  intros Hb Hb' Hr. rewrite !get_bit_testbit by done. unfold set_bit.
  rewrite wshl_pow2 by done. destruct v.
  - rewrite Z.lor_spec, Z.pow2_bits_eqb by lia.
    destruct (b =? b'); [apply orb_true_r | apply orb_false_r].
  - unfold wnot. replace (W64 - 1 - 2 ^ b) with (Z.ldiff (Z.ones 64) (2 ^ b)).
    + rewrite Z.land_spec, Z.ldiff_spec, Z.ones_spec_low, Z.pow2_bits_eqb by lia.
      destruct (b =? b'); simpl; [apply andb_false_r | apply andb_true_r].
    + change (W64 - 1) with (Z.ones 64). symmetry. apply Z.sub_nocarry_ldiff.
      apply Z.bits_inj'. intros n Hn. rewrite Z.ldiff_spec, Z.pow2_bits_eqb, Z.bits_0 by lia.
      destruct (Z.eqb_spec b n) as [<- |]; [| done]. by rewrite Z.ones_spec_low by lia.
Qed.
