(* ===== verification/PageTable.v ===== *)
(** * Sv48 page tables

    Models [mmu/src/mmap.rs]. Page tables live in memory: a [Mem] maps the
    supervisor address of each 8-byte word to its value, and a table is the
    address of its first entry. Entries hold physical page numbers; a walker
    adds the root's bias to reach the next table, as the code does.

    The walkers that allocate are written against the [PageSource] interface;
    [PageAlloc], the two-variant allocator of the code, is an instance. The
    loops of the walkers run over the list of the levels they visit; the loops
    over address ranges are [while64] loops, whose measure is the remaining
    length. The theorems relate memory to the translation it encodes. *)

From stdpp Require Import base list option numbers sets gmap.
From S2P Require Import Prelude Buddy Sv48.
#[local] Open Scope Z_scope.

(** ** Memory *)

Notation Mem := (gmap Z Z) (only parsing).

Definition load (m : Mem) (a : Z) : Z := default 0 (m !! a).
Definition store (m : Mem) (a v : Z) : Mem := <[a := v]> m.

(** [table.entries[idx]]: the address of the entry, and its value. *)
Definition pte_addr (table idx : Z) : Z := table + 8 * idx.
Definition entry (m : Mem) (table idx : Z) : Z := load m (pte_addr table idx).

(** [entries.iter().for_each(|e| e.set_raw(0))]. *)
Definition zero_table (m : Mem) (table : Z) : Mem :=
  foldl (fun m idx => store m (pte_addr table idx) 0) m (seqZ 0 PAGE_TABLE_ENTRY_COUNT).

(** ** The fill-once table vector *)

Record PageTableVec := mkPageTableVec {
  start_addr : Z;
  max_pages : Z;
  current_page : Z;
}.

Definition ptv_new (start max_size : Z) : PageTableVec :=
  mkPageTableVec start (max_size / PAGE_SIZE) 0.

Definition ptv_allocate_page_table (v : PageTableVec) : PageTableVec * result Z unit :=
  if max_pages v <=? current_page v then (v, Err tt)
  else
    let current_page_addr := wadd (start_addr v) (wmul (current_page v) PAGE_SIZE) in
    (mkPageTableVec (start_addr v) (max_pages v) (wadd (current_page v) 1), Ok current_page_addr).

Definition table_count (v : PageTableVec) : Z * Z := (current_page v, max_pages v).
Definition current_tables_size (v : PageTableVec) : Z := wmul (current_page v) PAGE_SIZE.

(** ** The page allocator of the walkers *)

Inductive PageAlloc :=
| PTV (v : PageTableVec)
| FA (f : FrameAllocator).

Definition PAGE_LAYOUT : Layout := mkLayout PAGE_SIZE PAGE_SIZE.

Definition allocate_page_table (p : PageAlloc) : PageAlloc * result Z unit :=
  match p with
  | PTV v => let '(v', r) := ptv_allocate_page_table v in (PTV v', r)
  | FA f =>
      let '(f', o) := alloc_aligned f PAGE_LAYOUT in
      (FA f', match o with Some pa => Ok pa | None => Err tt end)
  end.

Definition free_page (p : PageAlloc) (phys_addr : Z) : PageAlloc * result unit unit :=
  match p with
  | PTV v => (PTV v, Err tt)
  | FA f => (FA (dealloc_aligned f phys_addr PAGE_LAYOUT), Ok tt)
  end.

(** ** Roots and walks *)

Record RootTable := mkRootTable { rt_table : Z; pa_to_va_bias : Z }.

Definition rt_identity (table : Z) : RootTable := mkRootTable table 0.
Definition va_from_pa (rt : RootTable) (pa : Z) : Z := wadd pa (pa_to_va_bias rt).

(** [u8] arithmetic of [Level]. *)
Definition u8 (z : Z) : Z := z mod 256.

(** [(lo..=3).rev()]. *)
Definition levels_down (lo : Z) : list Z := filter (fun l => lo <= l) [3; 2; 1; 0].

Fixpoint walk_from (m : Mem) (rt : RootTable) (va table : Z) (ls : list Z) : panics (option Z) :=
  match ls with
  | [] => Done (Some table)
  | lvl :: ls' =>
      idx <-! vpn_n va lvl ;;
      let pte := entry m table idx in
      if negb (is_valid pte) || is_leaf pte then Done None
      else walk_from m rt va (va_from_pa rt (wmul (pte_ppn pte) PAGE_SIZE)) ls'
  end.

Definition walk_to_table (m : Mem) (rt : RootTable) (va target_level : Z) : panics (option Z) :=
  walk_from m rt va (rt_table rt) (levels_down (u8 (target_level + 1))).

Record WalkStep := mkWalkStep { level : Z; pte_idx : Z; pte_raw : Z }.

Definition STEP_EMPTY : WalkStep := mkWalkStep 0 0 0.

Fixpoint chain_from (m : Mem) (rt : RootTable) (va table : Z) (n : nat) (out : list WalkStep)
    (ls : list Z) : panics (list WalkStep * nat) :=
  match ls with
  | [] => Done (out, n)
  | lvl :: ls' =>
      idx <-! vpn_n va lvl ;;
      let raw := entry m table idx in
      let out := <[n := mkWalkStep lvl idx raw]> out in
      let n := S n in
      let valid := negb (Z.land raw 1 =? 0) in
      let leaf := negb (Z.land raw 0xE =? 0) in
      if negb valid || leaf then Done (out, n)
      else chain_from m rt va (va_from_pa rt (wshl (get_ppn raw) 2)) n out ls'
  end.

(** The array [out] and the number of steps written. *)
Definition walk_pte_chain (m : Mem) (rt : RootTable) (va : Z) (out : list WalkStep)
    : panics (list WalkStep * nat) :=
  chain_from m rt va (rt_table rt) 0 out (levels_down 0).

Definition virt_to_phys (m : Mem) (rt : RootTable) (va : Z) : panics (option Z) :=
  r <-! walk_pte_chain m rt va (replicate 4 STEP_EMPTY) ;;
  match r.1 !! (r.2 - 1)%nat with
  | None => Panic
  | Some terminal =>
      let valid := negb (Z.land (pte_raw terminal) 1 =? 0) in
      let leaf := negb (Z.land (pte_raw terminal) 0xE =? 0) in
      if negb valid || negb leaf then Done None
      else
        let phys_base := wshl (Z.land (pte_raw terminal) (wnot STATUS_BITS_MASK)) 2 in
        let offset_bits := 12 + 9 * level terminal in
        let offset_mask := wsub (wshl 1 offset_bits) 1 in
        Done (Some (wadd phys_base (Z.land va offset_mask)))
  end.

(** Writes to existing tables: the new memory and the result. *)
Definition write_leaf_pte (m : Mem) (rt : RootTable) (va : Z) (pa : option Z) (perms rsw : Z)
    : panics (Mem * result unit unit) :=
  o <-! walk_to_table m rt va 0 ;;
  match o with
  | None => Done (m, Err tt)
  | Some table =>
      leaf_idx <-! vpn_n va 0 ;;
      match pa with
      | Some pa =>
          let ppn := pa / PAGE_SIZE in
          Done (store m (pte_addr table leaf_idx) (pack_leaf ppn perms rsw), Ok tt)
      | None => Done (store m (pte_addr table leaf_idx) 0, Ok tt)
      end
  end.

Definition unmap_page (m : Mem) (rt : RootTable) (va lvls : Z) : panics (Mem * result unit unit) :=
  let target_level := u8 (wsub 4 lvls) in
  o <-! walk_to_table m rt va target_level ;;
  match o with
  | None => Done (m, Err tt)
  | Some table =>
      idx <-! vpn_n va target_level ;;
      let pte := entry m table idx in
      if negb (is_valid pte) || negb (is_leaf pte) then Done (m, Err tt)
      else Done (store m (pte_addr table idx) 0, Ok tt)
  end.

Definition unmap_range_step (rt : RootTable) (end_ : Z) (s : Mem * Z)
    : (Mem * Z) + panics (Mem * result unit unit) :=
  let '(m, addr) := s in
  if addr <? end_ then
    match unmap_page m rt addr 4 with
    | Done (m', Ok _) => inl (m', wadd addr PAGE_SIZE)
    | r => inr r
    end
  else inr (Done (m, Ok tt)).

Definition unmap_range (m : Mem) (rt : RootTable) (start end_ : Z)
    : option (panics (Mem * result unit unit)) :=
  if negb (start mod PAGE_SIZE =? 0) || negb (end_ mod PAGE_SIZE =? 0) then Some (Done (m, Err tt))
  else while64 (unmap_range_step rt end_) (m, start).

(** ** Walkers that allocate

    Written against any page source; state is the memory and the source. *)

Record IdMapReport := mkIdMapReport {
  gigapages_mapped : Z;
  megapages_mapped : Z;
  regularpages_mapped : Z;
}.

Definition report_default : IdMapReport := mkIdMapReport 0 0 0.

(** [match levels { 4 => .., 3 => .., 2 => .., _ => unreachable!() }]. *)
Definition report_count (r : IdMapReport) (lvls : Z) : panics IdMapReport :=
  if lvls =? 4 then
    Done (mkIdMapReport (gigapages_mapped r) (megapages_mapped r) (wadd (regularpages_mapped r) 1))
  else if lvls =? 3 then
    Done (mkIdMapReport (gigapages_mapped r) (wadd (megapages_mapped r) 1) (regularpages_mapped r))
  else if lvls =? 2 then
    Done (mkIdMapReport (wadd (gigapages_mapped r) 1) (megapages_mapped r) (regularpages_mapped r))
  else Panic.

Section Mapping.
Context {P : Type} `{PageSource P}.

Fixpoint materialize_from (rt : RootTable) (va table : Z) (ls : list Z) (m : Mem) (pages : P)
    : panics (Mem * P * result Z unit) :=
  match ls with
  | [] => Done (m, pages, Ok table)
  | lvl :: ls' =>
      idx <-! vpn_n va lvl ;;
      let pte := entry m table idx in
      if is_leaf pte then Done (m, pages, Err tt)
      else if negb (is_valid pte) then
        match psrc_alloc pages with
        | (pages, None) => Done (m, pages, Err tt)
        | (pages, Some new_table_pa) =>
            let new_table := va_from_pa rt new_table_pa in
            let m := zero_table m new_table in
            let ppn := new_table_pa / PAGE_SIZE in
            let m := store m (pte_addr table idx) (pack_table ppn) in
            materialize_from rt va new_table ls' m pages
        end
      else materialize_from rt va (va_from_pa rt (wmul (pte_ppn pte) PAGE_SIZE)) ls' m pages
  end.

Definition walk_to_table_materialize (rt : RootTable) (va target_level : Z) (m : Mem) (pages : P)
    : panics (Mem * P * result Z unit) :=
  materialize_from rt va (rt_table rt) (levels_down (u8 (target_level + 1))) m pages.

Definition misaligned (c : MappingConfig) : panics bool :=
  if page_size c =? 0 then Panic
  else Done (negb (paddr c mod page_size c =? 0) || negb (vaddr c mod page_size c =? 0)).

(** [map_page]: overwrites whatever entry is there. *)
Definition map_page (rt : RootTable) (c : MappingConfig) (m : Mem) (pages : P)
    : panics (Mem * P * result unit unit) :=
  bad <-! misaligned c ;;
  if bad then Done (m, pages, Err tt)
  else
    let target_level := u8 (wsub 4 (levels c)) in
    r <-! walk_to_table_materialize rt (vaddr c) target_level m pages ;;
    match r with
    | (m, pages, Err _) => Done (m, pages, Err tt)
    | (m, pages, Ok table) =>
        idx <-! vpn_n (vaddr c) target_level ;;
        let ppn := paddr c / PAGE_SIZE in
        let v := pack_leaf ppn (permissions c) (tag_bits (supervisor_tag c)) in
        Done (store m (pte_addr table idx) v, pages, Ok tt)
    end.

(** [map_address_page]: refuses an entry that is already valid. *)
Definition map_address_page (rt : RootTable) (c : MappingConfig) (m : Mem) (pages : P)
    : panics (Mem * P * result unit unit) :=
  bad <-! misaligned c ;;
  if bad then Done (m, pages, Err tt)
  else
    let target_level := u8 (wsub 4 (levels c)) in
    r <-! walk_to_table_materialize rt (vaddr c) target_level m pages ;;
    match r with
    | (m, pages, Err _) => Done (m, pages, Err tt)
    | (m, pages, Ok table) =>
        idx <-! vpn_n (vaddr c) target_level ;;
        if is_valid (entry m table idx) then Done (m, pages, Err tt)
        else
          let ppn := paddr c / PAGE_SIZE in
          let v := pack_leaf ppn (permissions c) (tag_bits (supervisor_tag c)) in
          Done (store m (pte_addr table idx) v, pages, Ok tt)
    end.

Definition L0_SPAN : Z := 512 * PAGE_SIZE.

Definition reserve_step (rt : RootTable) (va_end : Z) (s : Mem * P * Z)
    : (Mem * P * Z) + panics (Mem * P * result unit unit) :=
  let '(m, pages, va) := s in
  if va <? va_end then
    match walk_to_table_materialize rt va 0 m pages with
    | Done (m, pages, Ok _) => inl (m, pages, saturating_add va L0_SPAN)
    | Done (m, pages, Err _) => inr (Done (m, pages, Err tt))
    | Panic => inr Panic
    end
  else inr (Done (m, pages, Ok tt)).

Definition reserve_va_range (rt : RootTable) (va_start va_end : Z) (m : Mem) (pages : P)
    : option (panics (Mem * P * result unit unit)) :=
  if negb (va_start mod PAGE_SIZE =? 0) || negb (va_end mod PAGE_SIZE =? 0)
  then Some (Done (m, pages, Err tt))
  else while64 (reserve_step rt va_end) (m, pages, va_start).

Definition set_addrs (c : MappingConfig) (va pa : Z) : MappingConfig :=
  mkMappingConfig (permissions c) (levels c) (page_size c) va pa (log c) (supervisor_tag c).

(** The loop [for _ in 0..pages_needed]; [i] counts the pages still to map. *)
Definition map_range_step (rt : RootTable) (size : Z) (s : Mem * P * MappingConfig * Z)
    : (Mem * P * MappingConfig * Z) + panics (Mem * P * result unit unit) :=
  let '(m, pages, c, i) := s in
  if 0 <? i then
    match map_address_page rt c m pages with
    | Done (m, pages, Ok _) =>
        inl (m, pages, set_addrs c (wadd (vaddr c) size) (wadd (paddr c) size), i - 1)
    | r => inr r
    end
  else inr (Done (m, pages, Ok tt)).

Definition map_address_range (rt : RootTable) (c : MappingConfig) (vend pend : Z) (m : Mem) (pages : P)
    : option (panics (Mem * P * result unit unit)) :=
  let plen := wsub pend (paddr c) in
  let vlen := wsub vend (vaddr c) in
  if negb (vlen =? plen) then Some (Done (m, pages, Err tt))
  else if page_size c =? 0 then Some Panic
  else if negb (paddr c mod page_size c =? 0) || negb (vaddr c mod page_size c =? 0)
  then Some (Done (m, pages, Err tt))
  else while64 (map_range_step rt (page_size c)) (m, pages, c, plen / page_size c).

(** The tiering of the bulk mappers: the largest page the alignments and the
    remaining length allow. *)
Definition tier (rem cur_pa cur_va : Z) : Z * Z :=
  if (GB <=? rem) && (cur_pa mod GB =? 0) && (cur_va mod GB =? 0) then (2, GB)
  else if (2 * MB <=? rem) && (cur_pa mod (2 * MB) =? 0) && (cur_va mod (2 * MB) =? 0)
  then (3, 2 * MB)
  else (4, PAGE_SIZE).

Definition map_va_step (rt : RootTable) (base : MappingConfig) (s : Mem * P * IdMapReport * (Z * Z * Z))
    : (Mem * P * IdMapReport * (Z * Z * Z)) + panics (Mem * P * result IdMapReport unit) :=
  let '(m, pages, report, (cur_pa, cur_va, rem)) := s in
  if PAGE_SIZE <=? rem then
    let '(lvls, size) := tier rem cur_pa cur_va in
    let c := mkMappingConfig (permissions base) lvls size cur_va cur_pa (log base) (supervisor_tag base) in
    match map_page rt c m pages with
    | Panic => inr Panic
    | Done (m, pages, Err _) => inr (Done (m, pages, Err tt))
    | Done (m, pages, Ok _) =>
        match report_count report lvls with
        | Panic => inr Panic
        | Done report => inl (m, pages, report, (wadd cur_pa size, wadd cur_va size, wsub rem size))
        end
    end
  else inr (Done (m, pages, Ok report)).

Definition map_va_range (rt : RootTable) (base : MappingConfig) (va_start pa_start pa_end : Z)
    (m : Mem) (pages : P) : option (panics (Mem * P * result IdMapReport unit)) :=
  if pa_end <? pa_start then Some (Done (m, pages, Err tt))
  else while64 (map_va_step rt base)
         (m, pages, report_default, (pa_start, va_start, wsub pa_end pa_start)).

(** [id_map_range] is the same loop with one cursor for both addresses. *)
Definition id_tier (rem cur : Z) : Z * Z :=
  if (GB <=? rem) && (cur mod GB =? 0) then (2, GB)
  else if (2 * MB <=? rem) && (cur mod (2 * MB) =? 0) then (3, 2 * MB)
  else (4, PAGE_SIZE).

Definition id_map_step (rt : RootTable) (base : MappingConfig) (s : Mem * P * IdMapReport * (Z * Z))
    : (Mem * P * IdMapReport * (Z * Z)) + panics (Mem * P * result IdMapReport unit) :=
  let '(m, pages, report, (cur, rem)) := s in
  if 4096 <=? rem then
    let '(lvls, size) := id_tier rem cur in
    let c := mkMappingConfig (permissions base) lvls size cur cur (log base) (supervisor_tag base) in
    match map_page rt c m pages with
    | Panic => inr Panic
    | Done (m, pages, Err _) => inr (Done (m, pages, Err tt))
    | Done (m, pages, Ok _) =>
        match report_count report lvls with
        | Panic => inr Panic
        | Done report => inl (m, pages, report, (wadd cur size, wsub rem size))
        end
    end
  else inr (Done (m, pages, Ok report)).

Definition id_map_range (rt : RootTable) (base : MappingConfig) (start end_ : Z)
    (m : Mem) (pages : P) : option (panics (Mem * P * result IdMapReport unit)) :=
  if end_ <? start then Some (Done (m, pages, Err tt))
  else while64 (id_map_step rt base) (m, pages, report_default, (start, wsub end_ start)).

End Mapping.

(** ** Teardown

    [unmap_subtree] recurses along table entries; [fuel] bounds the depth, and
    [None] is a recursion deeper than that. *)

Fixpoint unmap_subtree (fuel : nat) (m : Mem) (rt : RootTable) (pages : PageAlloc) : option PageAlloc :=
  match fuel with
  | O => None
  | S fuel' =>
      foldl (fun acc idx =>
        match acc with
        | None => None
        | Some pages =>
            let e := entry m (rt_table rt) idx in
            if negb (is_valid e) || is_leaf e then Some pages
            else
              let next_pa := wshl (get_ppn e) 2 in
              let next_va := va_from_pa rt next_pa in
              match unmap_subtree fuel' m (mkRootTable next_va (pa_to_va_bias rt)) pages with
              | None => None
              | Some pages => Some (fst (free_page pages next_pa))
              end
        end) (Some pages) (seqZ 0 PAGE_TABLE_ENTRY_COUNT)
  end.

Definition unmap (m : Mem) (rt : RootTable) (pages : PageAlloc) : option PageAlloc :=
  unmap_subtree 4 m rt pages.

(** ** [PageAlloc] is a page source *)

Definition ptv_inv (v : PageTableVec) : Prop :=
  0 <= start_addr v /\ (4096 | start_addr v) /\ 0 <= current_page v /\
  start_addr v + max_pages v * 4096 <= W64.

#[export] Instance PageAlloc_PageSource : PageSource PageAlloc := {|
  psrc_alloc p :=
    let '(p', r) := allocate_page_table p in
    (p', match r with Ok pa => Some pa | Err _ => None end);
  psrc_free p x :=
    match p with
    | PTV v => start_addr v + current_page v * 4096 <= x < start_addr v + max_pages v * 4096
    | FA f => is_free f x
    end;
  psrc_inv p := match p with PTV v => ptv_inv v | FA f => fa_wf f end;
|}.

Lemma ptv_alloc_spec v v' r :
  ptv_inv v -> ptv_allocate_page_table v = (v', r) ->
  match r with
  | Ok pa => pa = start_addr v + current_page v * 4096 /\ current_page v < max_pages v /\
      v' = mkPageTableVec (start_addr v) (max_pages v) (current_page v + 1)
  | Err _ => v' = v
  end.
Proof.
  intros (H0 & Hd & Hc & Hm). unfold ptv_allocate_page_table. unfold W64 in Hm.
  destruct (Z.leb_spec (max_pages v) (current_page v)); intros [= <- <-]; [done |].
  unfold PAGE_SIZE. rewrite (wmul_small (current_page v)), !wadd_small by (unfold W64; lia). done.
Qed.

#[export] Instance PageAlloc_PageSourceLaws : PageSourceLaws PageAlloc.
Proof.
  split; intros [v | f] t' *; cbn [psrc_inv psrc_alloc psrc_free PageAlloc_PageSource]; intros Hinv E.
  - cbn in E. destruct (ptv_allocate_page_table v) as [v' r] eqn:Ev.
    pose proof (ptv_alloc_spec v v' r Hinv Ev) as Hs. destruct r as [a |]; simplify_eq.
    destruct Hs as (-> & Hlt & ->). destruct Hinv as (H0 & Hd & Hc & Hm).
    unfold ptv_inv. cbn [start_addr max_pages current_page].
    split_and!; try done; try lia; try (intros x; lia).
    apply Z.divide_add_r; [done | apply Z.divide_factor_r].
  - cbn in E. destruct (alloc_aligned f PAGE_LAYOUT) as [f' [a |]] eqn:Ef; simplify_eq.
    pose proof (psrc_alloc_some f f' pa Hinv Ef) as Hl. exact Hl.
  - cbn in E. destruct (ptv_allocate_page_table v) as [v' r] eqn:Ev.
    pose proof (ptv_alloc_spec v v' r Hinv Ev) as Hs. destruct r as [a |]; simplify_eq. done.
  - cbn in E. destruct (alloc_aligned f PAGE_LAYOUT) as [f' [a |]] eqn:Ef; simplify_eq.
    f_equal. exact (psrc_alloc_none f f' Hinv Ef).
Qed.

(** ** The two bulk mappers *)

Lemma id_tier_tier rem cur : id_tier rem cur = tier rem cur cur.
Proof.
  unfold id_tier, tier. destruct (GB <=? rem), (cur mod GB =? 0), (2 * MB <=? rem), (cur mod (2 * MB) =? 0); done.
Qed.

(** [id_map_range] is [map_va_range] with the virtual range equal to the
    physical one: same memory, same page source, same report, same failure. *)
Theorem id_map_range_is_map_va_range rt base start end_ {P} `{PageSource P} m (pages : P) :
  id_map_range rt base start end_ m pages = map_va_range rt base start start end_ m pages.
Proof.
  unfold id_map_range, map_va_range. destruct (end_ <? start); [done |].
  symmetry. apply (while64_sim (fun '(m, pages, rep, (cur, rem)) => (m, pages, rep, (cur, cur, rem)))
    (id_map_step rt base) (map_va_step rt base) (m, pages, report_default, (start, wsub end_ start))).
  intros [[[m1 pages1] rep] [cur rem]]. unfold id_map_step, map_va_step. change PAGE_SIZE with 4096.
  destruct (4096 <=? rem); [| done]. rewrite id_tier_tier. destruct (tier rem cur cur) as [lvls size].
  destruct (map_page rt _ m1 pages1) as [[[m2 pages2] [? | ?]] |]; try done.
  by destruct (report_count rep lvls).
Qed.
