(* ===== verification/Translate.v ===== *)
(** * The translation a page table encodes

    Theorems on the operations of [PageTable.v]. A table is reached from the
    root by a path, the list of the entry indices followed; [maps] is the
    abstract translation: the leaf entry an address resolves to. The
    well-formedness invariant [pt_wf] says that the tables form a tree, that
    no table frame is in the free set of the page source, and that table
    entries fit the architected width. *)

From stdpp Require Import base list option numbers sets gmap.
From S2P Require Import Prelude Buddy Sv48 PageTable.
#[local] Open Scope Z_scope.

(** ** Memory lemmas *)

Lemma load_store m a v b : load (store m a v) b = if a =? b then v else load m b.
Proof.
  unfold load, store. destruct (Z.eqb_spec a b) as [-> |].
  - by rewrite lookup_insert_eq.
  - by rewrite lookup_insert_ne.
Qed.

Definition aligned (t : Z) : Prop := 0 <= t /\ (4096 | t).

Lemma pte_addr_inj t t' i i' :
  (4096 | t) -> (4096 | t') -> 0 <= i < 512 -> 0 <= i' < 512 ->
  pte_addr t i = pte_addr t' i' -> t = t' /\ i = i'.
Proof. intros [k ->] [k' ->] Hi Hi'. unfold pte_addr. lia. Qed.

Lemma entry_store m t i v t' i' :
  (4096 | t) -> (4096 | t') -> 0 <= i < 512 -> 0 <= i' < 512 ->
  entry (store m (pte_addr t i) v) t' i' = if (t =? t') && (i =? i') then v else entry m t' i'.
Proof.
  intros. unfold entry. rewrite load_store.
  destruct (Z.eqb_spec (pte_addr t i) (pte_addr t' i')) as [E%pte_addr_inj | Hne]; try done.
  - destruct E as [-> ->]. by rewrite !Z.eqb_refl.
  - destruct (Z.eqb_spec t t') as [-> |], (Z.eqb_spec i i') as [-> |]; done.
Qed.

Lemma entry_zero_list m t l t' i :
  (4096 | t) -> (4096 | t') -> 0 <= i < 512 -> Forall (fun j => 0 <= j < 512) l ->
  entry (foldl (fun m idx => store m (pte_addr t idx) 0) m l) t' i =
    if (t =? t') && bool_decide (i ∈ l) then 0 else entry m t' i.
Proof.
  intros Ht Ht' Hi Hl. revert m. induction Hl as [| j l Hj Hl IH]; intros m; cbn [foldl].
  - by rewrite bool_decide_false, andb_false_r by set_solver.
  - rewrite IH, entry_store by done. destruct (Z.eqb_spec t t'); simpl; [| done].
    destruct (Z.eqb_spec j i) as [-> |]; repeat case_bool_decide; set_solver.
Qed.

Lemma entry_zero m t t' i :
  (4096 | t) -> (4096 | t') -> 0 <= i < 512 ->
  entry (zero_table m t) t' i = if t =? t' then 0 else entry m t' i.
Proof.
  intros. unfold zero_table. rewrite entry_zero_list; try done.
  - rewrite (bool_decide_true (i ∈ _)), andb_true_r by (apply elem_of_seqZ; unfold PAGE_TABLE_ENTRY_COUNT; lia).
    done.
  - apply Forall_forall. intros j Hj%elem_of_seqZ. unfold PAGE_TABLE_ENTRY_COUNT in Hj. lia.
Qed.

(** ** Paths *)

Definition is_table (e : Z) : bool := is_valid e && negb (is_leaf e).

Definition next (rt : RootTable) (e : Z) : Z := va_from_pa rt (wmul (pte_ppn e) PAGE_SIZE).

Definition step (m : Mem) (rt : RootTable) (t i : Z) : option Z :=
  if is_table (entry m t i) then Some (next rt (entry m t i)) else None.

Fixpoint tbl (m : Mem) (rt : RootTable) (t : Z) (p : list Z) : option Z :=
  match p with
  | [] => Some t
  | i :: p' => step m rt t i ≫= fun t' => tbl m rt t' p'
  end.

Definition indices (p : list Z) : Prop := Forall (fun i => 0 <= i < 512) p.

(** [t] is the table the path [p] leads to from the root. *)
Definition reaches (m : Mem) (rt : RootTable) (p : list Z) (t : Z) : Prop :=
  indices p /\ tbl m rt (rt_table rt) p = Some t.

Lemma tbl_app m rt t p q : tbl m rt t (p ++ q) = tbl m rt t p ≫= fun u => tbl m rt u q.
Proof.
  revert t. induction p as [| i p IH]; intros t; simpl; [done |].
  destruct (step m rt t i); simpl; [apply IH | done].
Qed.

Lemma tbl_snoc m rt t p i : tbl m rt t (p ++ [i]) = tbl m rt t p ≫= fun u => step m rt u i.
Proof. rewrite tbl_app. destruct (tbl m rt t p); simpl; [| done]. by destruct (step m rt z i). Qed.

Lemma indices_snoc p i : indices (p ++ [i]) <-> indices p /\ 0 <= i < 512.
Proof. unfold indices. rewrite Forall_app, Forall_singleton. done. Qed.

Lemma reach_snoc m rt p i t :
  reaches m rt (p ++ [i]) t <->
  exists u, reaches m rt p u /\ 0 <= i < 512 /\ is_table (entry m u i) = true /\ t = next rt (entry m u i).
Proof.
  unfold reaches. rewrite tbl_snoc, indices_snoc. unfold step. split.
  - intros [[Hp Hi] E]. destruct (tbl m rt _ p) as [u |]; simpl in E; [| done].
    exists u. destruct (is_table (entry m u i)); [| done]. by simplify_eq.
  - intros (u & [Hp E] & Hi & Ht & ->). rewrite E. simpl. by rewrite Ht.
Qed.

Lemma reach_prefix m rt p q t : reaches m rt (p ++ q) t -> exists u, reaches m rt p u.
Proof.
  intros [Hi E]. unfold reaches, indices in *. rewrite Forall_app in Hi. rewrite tbl_app in E.
  destruct (tbl m rt _ p) as [u |]; [| done]. exists u. tauto.
Qed.

Lemma reach_unique m rt p t t' : reaches m rt p t -> reaches m rt p t' -> t = t'.
Proof. unfold reaches. intros [_ E] [_ E']. congruence. Qed.

(** ** Well-formed page tables *)

Section Wf.
Context {P : Type} `{PageSourceLaws P}.

Record pt_wf (m : Mem) (rt : RootTable) (pages : P) : Prop := {
  wf_root : is_u64 (rt_table rt) /\ (4096 | rt_table rt);
  wf_bias : is_u64 (pa_to_va_bias rt) /\ (4096 | pa_to_va_bias rt);
  wf_depth p t : reaches m rt p t -> (length p <= 3)%nat;
  wf_tree p q t : reaches m rt p t -> reaches m rt q t -> p = q;
  wf_entries p t i : reaches m rt p t -> 0 <= i < 512 ->
    is_u64 (entry m t i) /\ (is_table (entry m t i) = true -> entry m t i < 2 ^ 54);
  wf_owned p t : reaches m rt p t -> ~ psrc_free pages (wsub t (pa_to_va_bias rt));
  wf_source : psrc_inv pages /\ forall x, psrc_free pages x -> 0 <= x < 2 ^ 56;
}.

Lemma u64_aligned z : (4096 | z) -> (4096 | u64 z).
Proof.
  intros Hz. unfold u64. rewrite Z.mod_eq by done. apply Z.divide_sub_r; [done |].
  apply Z.divide_mul_l. by exists (2 ^ 52).
Qed.

Lemma va_from_pa_aligned rt pa :
  (4096 | pa) -> (4096 | pa_to_va_bias rt) -> is_u64 (va_from_pa rt pa) /\ (4096 | va_from_pa rt pa).
Proof.
  intros. split; [apply u64_range |]. apply u64_aligned. by apply Z.divide_add_r.
Qed.

Lemma next_aligned rt e :
  (4096 | pa_to_va_bias rt) -> is_u64 (next rt e) /\ (4096 | next rt e).
Proof. intros. apply va_from_pa_aligned; [| done]. apply u64_aligned, Z.divide_factor_r. Qed.

Lemma reach_aligned m rt pages p t :
  pt_wf m rt pages -> reaches m rt p t -> is_u64 t /\ (4096 | t).
Proof.
  intros Hwf. destruct p as [| i p _] using rev_ind.
  - intros [_ [= <-]]. apply Hwf.
  - intros (u & _ & _ & _ & ->)%reach_snoc. apply next_aligned, Hwf.
Qed.

(** Tables that do not lie below a changed entry are reached as before. *)
Lemma tbl_frame m m' rt p0 i0 q :
  (forall q u i, reaches m rt q u -> 0 <= i < 512 -> (q, i) <> (p0, i0) -> entry m' u i = entry m u i) ->
  indices q -> ~ (p0 ++ [i0]) `prefix_of` q ->
  tbl m' rt (rt_table rt) q = tbl m rt (rt_table rt) q.
Proof.
  intros Hsame. induction q as [| i q IH] using rev_ind; intros Hq Hpre; [done |].
  apply indices_snoc in Hq as [Hq Hi]. rewrite !tbl_snoc, IH; [| done |].
  2: { intros Hp. apply Hpre. by apply prefix_app_r. }
  destruct (tbl m rt _ q) as [u |] eqn:E; simpl; [| done]. unfold step.
  rewrite (Hsame q u i); [done | done | done |]. intros [= -> ->]. by apply Hpre.
Qed.

Lemma reach_frame m m' rt p0 i0 q t :
  (forall q u i, reaches m rt q u -> 0 <= i < 512 -> (q, i) <> (p0, i0) -> entry m' u i = entry m u i) ->
  ~ (p0 ++ [i0]) `prefix_of` q -> reaches m' rt q t <-> reaches m rt q t.
Proof.
  intros Hsame Hpre. unfold reaches.
  split; intros [Hq E]; (split; [done |]); rewrite <- E;
    [symmetry |]; by apply (tbl_frame m m' rt p0 i0).
Qed.

(** Nothing is reached through an entry that is not a table. *)
Lemma reach_blocked m rt p i u q t :
  reaches m rt p u -> is_table (entry m u i) = false ->
  (p ++ [i]) `prefix_of` q -> ~ reaches m rt q t.
Proof.
  intros Hu Ht [r ->] [w Hw]%reach_prefix.
  apply reach_snoc in Hw as (u' & Hu' & _ & Ht' & _).
  rewrite (reach_unique _ _ _ _ _ Hu Hu') in Ht. congruence.
Qed.

Section SetEntry.
Context (m : Mem) (rt : RootTable) (pages : P) (p0 : list Z) (t0 i0 v : Z).
Hypothesis (Hwf : pt_wf m rt pages) (Hr : reaches m rt p0 t0) (Hi0 : 0 <= i0 < 512).

Let m' := store m (pte_addr t0 i0) v.

Lemma set_entry_entry q u i :
  reaches m rt q u -> 0 <= i < 512 ->
  entry m' u i = if decide (q = p0 /\ i = i0) then v else entry m u i.
Proof.
  intros Hu Hi. unfold m'.
  rewrite entry_store by (try done; eapply reach_aligned; done).
  destruct (decide (q = p0 /\ i = i0)) as [[-> ->] | Hd].
  - rewrite (reach_unique _ _ _ _ _ Hr Hu), !Z.eqb_refl. done.
  - destruct (Z.eqb_spec t0 u) as [Et |]; [| done]. destruct (Z.eqb_spec i0 i) as [Ei |]; [| done].
    destruct Hd. split; [| done]. apply (wf_tree _ _ _ Hwf _ _ u); [done | by rewrite <- Et].
Qed.

Lemma set_entry_same q u i :
  reaches m rt q u -> 0 <= i < 512 -> (q, i) <> (p0, i0) -> entry m' u i = entry m u i.
Proof.
  intros Hu Hi Hne. rewrite (set_entry_entry q) by done. destruct (decide _) as [[-> ->] |]; done.
Qed.

Lemma set_entry_reach_other q t :
  ~ (p0 ++ [i0]) `prefix_of` q -> reaches m' rt q t <-> reaches m rt q t.
Proof. apply reach_frame, set_entry_same. Qed.

Lemma set_entry_p0 : reaches m' rt p0 t0 /\ entry m' t0 i0 = v.
Proof.
  split.
  - apply set_entry_reach_other; [| done]. intros Hp%prefix_length. rewrite length_app in Hp.
    simpl in Hp. lia.
  - rewrite (set_entry_entry p0) by done. by rewrite decide_True.
Qed.

Lemma set_entry_reach q t :
  is_table v = false -> reaches m' rt q t <-> reaches m rt q t /\ ~ (p0 ++ [i0]) `prefix_of` q.
Proof.
  intros Hv. destruct set_entry_p0 as [Hr' He]. destruct (decide ((p0 ++ [i0]) `prefix_of` q)) as [Hp | Hp].
  - split; [| tauto]. intros Hq. destruct (reach_blocked m' rt p0 i0 t0 q t); try done. by rewrite He.
  - rewrite set_entry_reach_other by done. tauto.
Qed.

Lemma set_entry_wf : is_table v = false -> is_u64 v -> pt_wf m' rt pages.
Proof.
  intros Hv Hu. pose proof (fun q t => set_entry_reach q t Hv) as Hre.
  split; try apply Hwf.
  - intros p t [Hp _]%Hre. by apply (wf_depth _ _ _ Hwf p t).
  - intros p q t [Hp _]%Hre [Hq _]%Hre. by apply (wf_tree _ _ _ Hwf p q t).
  - intros p t i [Hp _]%Hre Hi. rewrite (set_entry_entry p) by done. destruct (decide _).
    + split; [done | congruence].
    + by apply (wf_entries _ _ _ Hwf p).
  - intros p t [Hp _]%Hre. by apply (wf_owned _ _ _ Hwf p).
Qed.

End SetEntry.

Lemma wsub_wadd a b : is_u64 a -> wsub (wadd a b) b = a.
Proof.
  intros Ha. unfold wsub, wadd, u64. rewrite Zminus_mod_idemp_l.
  replace (a + b - b) with a by lia. by apply Z.mod_small.
Qed.

Section Install.
Context (m : Mem) (rt : RootTable) (pages pages' : P) (p0 : list Z) (t0 i0 pa : Z).
Hypothesis (Hwf : pt_wf m rt pages) (Hr : reaches m rt p0 t0) (Hi0 : 0 <= i0 < 512).
Hypothesis (Hlen : (length p0 <= 2)%nat) (Hempty : is_table (entry m t0 i0) = false).
Hypothesis (Halloc : psrc_alloc pages = (pages', Some pa)).

#[local] Set Default Proof Using "All".

Let z := va_from_pa rt pa.
Let e := pack_table (pa / PAGE_SIZE).
Let m' := store (zero_table m z) (pte_addr t0 i0) e.

Lemma install_pa :
  psrc_inv pages' /\ 0 <= pa < 2 ^ 56 /\ (4096 | pa) /\ psrc_free pages pa /\
  (forall x, psrc_free pages' x <-> psrc_free pages x /\ ~ (pa <= x < pa + 4096)).
Proof.
  destruct (wf_source _ _ _ Hwf) as [Hinv Hb].
  destruct (psrc_alloc_some _ _ _ Hinv Halloc) as (Hinv' & Hpa0 & Hle & Hd & Hf & Hf').
  assert (psrc_free pages pa) as Hpa by (apply Hf; lia). pose proof (Hb _ Hpa).
  split_and!; try done; lia.
Qed.

Lemma install_entry_value :
  0 <= e < 2 ^ 54 /\ is_table e = true /\ next rt e = z.
Proof.
  destruct install_pa as (_ & Hb & [k Hk] & _). unfold e. rewrite Hk, Z.div_mul by done.
  destruct (pack_table_table k) as (Hv & Hl & He & Hp); [lia |].
  split_and!; try apply He.
  - unfold is_table. by rewrite Hv, Hl.
  - unfold next, z. rewrite Hp, Hk. f_equal. apply wmul_small. unfold W64, PAGE_SIZE. lia.
Qed.

Lemma install_fresh q u : reaches m rt q u -> z <> u.
Proof.
  intros Hu Heq. destruct install_pa as (_ & Hb & _ & Hf & _).
  apply (wf_owned _ _ _ Hwf q u Hu). rewrite <- Heq. unfold z, va_from_pa.
  rewrite wsub_wadd by (unfold is_u64, W64; lia). done.
Qed.

Lemma install_aligned : is_u64 z /\ (4096 | z).
Proof. apply va_from_pa_aligned; [apply install_pa | apply (wf_bias _ _ _ Hwf)]. Qed.

Lemma install_entry q u i :
  reaches m rt q u -> 0 <= i < 512 ->
  entry m' u i = if decide (q = p0 /\ i = i0) then e else entry m u i.
Proof.
  intros Hu Hi. pose proof (install_fresh q u Hu) as Hne.
  pose proof (reach_aligned _ _ _ _ _ Hwf Hr) as [_ Ha0].
  pose proof (reach_aligned _ _ _ _ _ Hwf Hu) as [_ Hau]. pose proof install_aligned as [_ Haz].
  unfold m'. rewrite entry_store, entry_zero by done.
  destruct (Z.eqb_spec z u); [done |].
  destruct (decide (q = p0 /\ i = i0)) as [[-> ->] | Hd].
  - rewrite (reach_unique _ _ _ _ _ Hr Hu), !Z.eqb_refl. done.
  - destruct (Z.eqb_spec t0 u) as [Et |]; [| done]. destruct (Z.eqb_spec i0 i) as [Ei |]; [| done].
    destruct Hd. split; [| done]. apply (wf_tree _ _ _ Hwf _ _ u); [done | by rewrite <- Et].
Qed.

Lemma install_new i : 0 <= i < 512 -> entry m' z i = 0.
Proof.
  intros Hi. pose proof (reach_aligned _ _ _ _ _ Hwf Hr) as [_ Ha0]. pose proof install_aligned as [_ Haz].
  unfold m'. rewrite entry_store, entry_zero, Z.eqb_refl by done.
  destruct (Z.eqb_spec t0 z) as [E |]; [| done]. by destruct (install_fresh p0 t0 Hr).
Qed.

Lemma install_reach_other q t :
  ~ (p0 ++ [i0]) `prefix_of` q -> reaches m' rt q t <-> reaches m rt q t.
Proof.
  apply reach_frame. intros q' u i Hu Hi Hne. rewrite (install_entry q') by done.
  destruct (decide _) as [[-> ->] |]; done.
Qed.

Lemma install_reach_new : reaches m' rt (p0 ++ [i0]) z.
Proof.
  destruct install_entry_value as (_ & Ht & Hn). apply reach_snoc. exists t0.
  rewrite (install_entry p0), decide_True, Hn by done. split_and!; try done; try lia.
  apply install_reach_other; [| done]. intros Hp%prefix_length. rewrite length_app in Hp.
  simpl in Hp. lia.
Qed.

Lemma install_reach q t :
  reaches m' rt q t <-> (reaches m rt q t /\ ~ (p0 ++ [i0]) `prefix_of` q) \/ (q = p0 ++ [i0] /\ t = z).
Proof.
  destruct (decide ((p0 ++ [i0]) `prefix_of` q)) as [[r ->] | Hp].
  - split; [| intros [[_ []] | [Hq ->]]].
    + destruct r as [| j r].
      { rewrite app_nil_r. intros Ht. right. split; [done |].
        by apply (reach_unique _ _ _ _ _ Ht), install_reach_new. }
      intros Ht. exfalso. assert (0 <= j < 512) as Hj.
      { destruct Ht as [Hi _]. unfold indices in Hi. rewrite Forall_app, Forall_cons in Hi. tauto. }
      eapply (reach_blocked m' rt (p0 ++ [i0]) j z); [apply install_reach_new | | | exact Ht].
      * rewrite install_new by done. reflexivity.
      * exists r. by rewrite <- (app_assoc (p0 ++ [i0])).
    + by exists r.
    + rewrite Hq. apply install_reach_new.
  - rewrite install_reach_other by done. split; [tauto |]. intros [[? _] | [-> _]]; [done |].
    by destruct Hp.
Qed.

Lemma install_wf : pt_wf m' rt pages'.
Proof.
  destruct install_pa as (Hinv & Hb & Hd & _ & Hfree).
  split; try apply Hwf.
  - intros p t [[Hp _] | [-> _]]%install_reach; [by apply (wf_depth _ _ _ Hwf p t) |].
    rewrite length_app. simpl. lia.
  - intros p q t [[Hp _] | [-> ->]]%install_reach [[Hq _] | [-> Hz]]%install_reach; try done.
    + by apply (wf_tree _ _ _ Hwf p q t).
    + by destruct (install_fresh p t Hp).
    + by destruct (install_fresh q z Hq).
  - intros p t i [[Hp _] | [-> ->]]%install_reach Hi.
    + rewrite (install_entry p) by done. destruct (decide _); [| by apply (wf_entries _ _ _ Hwf p)].
      destruct install_entry_value as (He & _). unfold is_u64, W64. lia.
    + rewrite install_new by done. split; [by unfold is_u64, W64 | done].
  - intros p t [[Hp _] | [-> ->]]%install_reach Hf; apply Hfree in Hf as [Hf Hno].
    + by apply (wf_owned _ _ _ Hwf p t).
    + apply Hno. unfold z, va_from_pa. rewrite wsub_wadd by (unfold is_u64, W64; lia). lia.
  - split; [done |]. intros x [Hx _]%Hfree. by apply (wf_source _ _ _ Hwf).
Qed.

End Install.

End Wf.

(** ** The path of an address *)

(** The indices a walk for [va] follows to the table at level [l]. *)
Definition vpath (va l : Z) : list Z := map (vpn va) (levels_down (l + 1)).

(** The indices down to the entry at level [l]. *)
Definition fpath (va l : Z) : list Z := map (vpn va) (levels_down l).

(** [a] and [b] lie in the same page of level [l] of the 48-bit space. *)
Definition same_page (l a b : Z) : Prop :=
  (a / 2 ^ (12 + 9 * l)) mod 2 ^ (36 - 9 * l) = (b / 2 ^ (12 + 9 * l)) mod 2 ^ (36 - 9 * l).

#[export] Instance same_page_dec l a b : Decision (same_page l a b) := Z.eq_dec _ _.

Ltac level_cases l :=
  assert (l = 0 \/ l = 1 \/ l = 2 \/ l = 3) as [-> | [-> | [-> | ->]]] by lia.

Lemma fpath_vpath va l : 0 <= l <= 3 -> fpath va l = vpath va l ++ [vpn va l].
Proof. intros Hl. level_cases l; reflexivity. Qed.

Lemma fpath_length va l : 0 <= l <= 3 -> Z.of_nat (length (fpath va l)) = 4 - l.
Proof. intros Hl. level_cases l; reflexivity. Qed.

Lemma vpath_length va l : 0 <= l <= 3 -> Z.of_nat (length (vpath va l)) = 3 - l.
Proof. intros Hl. level_cases l; reflexivity. Qed.

Lemma vpath_fpath va l : vpath va l = fpath va (l + 1).
Proof. done. Qed.

Lemma vpath_indices va l : indices (vpath va l).
Proof.
  apply Forall_forall. intros i (l' & -> & _)%list_elem_of_fmap. apply vpn_range.
Qed.

Lemma split_field x k : 0 < k -> x mod (512 * k) = x mod 512 + 512 * ((x / 512) mod k).
Proof. intros. apply Z.rem_mul_r; lia. Qed.

Lemma same_page_step l a b :
  0 <= l < 3 -> same_page l a b <-> vpn a l = vpn b l /\ same_page (l + 1) a b.
Proof.
  intros Hl. unfold same_page, vpn.
  replace (36 - 9 * l) with (9 + (36 - 9 * (l + 1))) by lia.
  rewrite (Z.pow_add_r 2 9) by lia. change (2 ^ 9) with 512.
  rewrite !split_field by (apply pow2_bounds; lia).
  replace (12 + 9 * (l + 1)) with (12 + 9 * l + 9) by lia.
  rewrite (Z.pow_add_r 2 (12 + 9 * l) 9) by lia. change (2 ^ 9) with 512.
  pose proof (pow2_bounds (12 + 9 * l) ltac:(lia)).
  rewrite <- !Z.div_div by lia.
  generalize (a / 2 ^ (12 + 9 * l)) (b / 2 ^ (12 + 9 * l)) (2 ^ (36 - 9 * (l + 1))). intros x y k.
  pose proof (Z.mod_pos_bound x 512). pose proof (Z.mod_pos_bound y 512). lia.
Qed.

Lemma fpath_same_step a b l :
  0 <= l < 3 -> (fpath a (l + 1) = fpath b (l + 1) <-> same_page (l + 1) a b) ->
  fpath a l = fpath b l <-> same_page l a b.
Proof.
  intros Hl IH. rewrite same_page_step, <- IH, (fpath_vpath a l), (fpath_vpath b l) by lia.
  rewrite (vpath_fpath a l), (vpath_fpath b l).
  split; [intros [? ?]%app_inj_tail; done | intros [-> ->]; done].
Qed.

Lemma fpath_same a b l : 0 <= l <= 3 -> fpath a l = fpath b l <-> same_page l a b.
Proof.
  intros Hl. assert (fpath a 3 = fpath b 3 <-> same_page 3 a b) as H3.
  { change (fpath a 3) with [vpn a 3]. change (fpath b 3) with [vpn b 3].
    change (same_page 3 a b) with (vpn a 3 = vpn b 3). split; [by intros [=] | by intros ->]. }
  level_cases l; [| | | done]; repeat (apply fpath_same_step; [lia |]); done.
Qed.

(** The path to an entry of level [l0] starts the path to an entry of level
    [l] exactly when the latter is not above and in the same page. *)
Lemma fpath_prefix a b l0 l :
  0 <= l0 <= 3 -> 0 <= l <= 4 ->
  fpath a l0 `prefix_of` fpath b l <-> l <= l0 /\ same_page l0 a b.
Proof.
  intros Hl0 Hl. rewrite <- fpath_same by done.
  assert (l <= l0 -> exists r, fpath b l = fpath b l0 ++ r) as Hsplit.
  { intros Hle. level_cases l0; level_cases l; try lia; eexists; reflexivity. }
  split.
  - intros Hp. pose proof (prefix_length _ _ Hp) as Hlen. assert (l <= l0) as Hle.
    { pose proof (fpath_length a l0 Hl0). destruct (decide (l = 4)) as [-> |].
      { change (fpath b 4) with (@nil Z) in Hlen. simpl in Hlen. lia. }
      pose proof (fpath_length b l ltac:(lia)). lia. }
    split; [done |]. destruct (Hsplit Hle) as [r Hr]. rewrite Hr in Hp. destruct Hp as [k Hk].
    apply app_inj_1 in Hk as [-> _]; [done |].
    pose proof (fpath_length a l0 Hl0). pose proof (fpath_length b l0 Hl0). lia.
  - intros [Hle Heq]. destruct (Hsplit Hle) as [r ->]. exists r. by rewrite Heq.
Qed.

Lemma same_page_up l0 l a b : 0 <= l0 -> l0 <= l <= 3 -> same_page l0 a b -> same_page l b a.
Proof.
  intros Hl0 Hl Hs. apply fpath_same in Hs; [| lia].
  apply (fpath_prefix b a l l0); [lia | lia |]. rewrite Hs. apply fpath_prefix; [lia | lia |]. split; [lia | done].
Qed.

(** ** The abstract translation *)

(** [va] resolves to the leaf entry [raw] of level [l]. *)
Definition maps (m : Mem) (rt : RootTable) (va l raw : Z) : Prop :=
  0 <= l <= 3 /\ exists t, reaches m rt (vpath va l) t /\ entry m t (vpn va l) = raw /\
    is_valid raw = true /\ is_leaf raw = true.

(** The physical address a leaf entry of level [l] gives [va]. *)
Definition phys (l raw va : Z) : Z := u64 (raw / 1024 * 4096 + va mod 2 ^ (12 + 9 * l)).

Lemma table_not_leaf e : is_table e = true -> is_leaf e = false.
Proof. unfold is_table. rewrite andb_true_iff, negb_true_iff. tauto. Qed.

Section Effects.
Context {P : Type} `{PageSourceLaws P}.

(** Replacing the entry of level [l0] for [va0] by one that is not a table. *)
Section SetLeaf.
Context (m : Mem) (rt : RootTable) (pages : P) (va0 l0 t0 v : Z).
Hypothesis (Hwf : pt_wf m rt pages) (Hl0 : 0 <= l0 <= 3).
Hypothesis (Hr : reaches m rt (vpath va0 l0) t0) (Hv : is_table v = false).

Let m' := store m (pte_addr t0 (vpn va0 l0)) v.

Lemma set_leaf_reach q t :
  reaches m' rt q t <-> reaches m rt q t /\ ~ fpath va0 l0 `prefix_of` q.
Proof.
  rewrite fpath_vpath by done. apply (set_entry_reach m rt pages); try done. apply vpn_range.
Qed.

Lemma set_leaf_entry va l u :
  reaches m rt (vpath va l) u -> 0 <= l <= 3 ->
  entry m' u (vpn va l) = if decide (l = l0 /\ same_page l0 va0 va) then v else entry m u (vpn va l).
Proof.
  intros Hu Hl. unfold m'.
  rewrite (set_entry_entry m rt pages (vpath va0 l0) t0 _ v Hwf Hr (vpn_range _ _) (vpath va l))
    by (done || apply vpn_range).
  destruct (decide (l = l0 /\ same_page l0 va0 va)) as [[-> Hs] | Hd].
  - apply fpath_same in Hs; [| done]. rewrite !fpath_vpath in Hs by done.
    apply app_inj_tail in Hs as [-> ->]. by rewrite decide_True.
  - rewrite decide_False; [done |]. intros [Hp Hi]. apply Hd.
    pose proof (vpath_length va l Hl). pose proof (vpath_length va0 l0 Hl0).
    assert (l = l0) as -> by (rewrite Hp in *; lia). split; [done |].
    apply fpath_same; [done |]. by rewrite !fpath_vpath, Hp, Hi by done.
Qed.

Lemma set_leaf_other va l raw :
  ~ same_page l0 va0 va -> maps m' rt va l raw <-> maps m rt va l raw.
Proof.
  intros Hns. unfold maps. split; intros [Hl (t & Ht & He & Hvl)]; (split; [done |]); exists t.
  - apply set_leaf_reach in Ht as [Ht _]. rewrite set_leaf_entry, decide_False in He by tauto. done.
  - rewrite set_leaf_reach, set_leaf_entry, decide_False by tauto. split_and!; try done; try apply Hvl.
    rewrite vpath_fpath, fpath_prefix by lia. tauto.
Qed.

Lemma set_leaf_same va l raw :
  same_page l0 va0 va ->
  maps m' rt va l raw <-> l = l0 /\ raw = v /\ is_valid v = true /\ is_leaf v = true.
Proof.
  intros Hs. unfold maps. split.
  - intros [Hl (t & Ht & He & Hvl)]. apply set_leaf_reach in Ht as [Ht Hp].
    rewrite vpath_fpath, fpath_prefix in Hp by lia.
    rewrite set_leaf_entry in He by done. destruct (decide _) as [[-> _] | Hd]; [by subst |].
    exfalso. assert (l0 < l) as Hlt.
    { destruct (Z.lt_trichotomy l l0) as [| []]; [destruct Hp | destruct Hd |]; auto with lia. }
    assert (fpath va l `prefix_of` vpath va0 l0) as [r Hpre].
    { rewrite vpath_fpath. apply fpath_prefix; [done | lia |]. split; [lia |].
      apply (same_page_up l0); [lia | lia | done]. }
    rewrite Hpre in Hr. destruct (reach_prefix _ _ _ _ _ Hr) as [w Hw].
    rewrite fpath_vpath in Hw by done. apply reach_snoc in Hw as (u & Hu & _ & Htb & _).
    rewrite (reach_unique _ _ _ _ _ Hu Ht), He in Htb. apply table_not_leaf in Htb. destruct Hvl; congruence.
  - intros (-> & -> & Hv1 & Hv2). split; [done |]. exists t0.
    assert (vpath va l0 = vpath va0 l0) as Hp.
    { apply fpath_same in Hs; [| done]. rewrite !fpath_vpath in Hs by done.
      by apply app_inj_tail in Hs as [-> _]. }
    rewrite set_leaf_reach, set_leaf_entry, decide_True by (rewrite ?Hp; done).
    split_and!; try done; [by rewrite Hp |]. rewrite vpath_fpath, fpath_prefix by lia. lia.
Qed.

End SetLeaf.

(** Installing a fresh empty table changes no translation. *)
Lemma install_maps m rt pages pages' p0 t0 i0 pa va l raw :
  pt_wf m rt pages -> reaches m rt p0 t0 -> 0 <= i0 < 512 -> (length p0 <= 2)%nat ->
  is_valid (entry m t0 i0) = false -> psrc_alloc pages = (pages', Some pa) ->
  maps (store (zero_table m (va_from_pa rt pa)) (pte_addr t0 i0) (pack_table (pa / PAGE_SIZE)))
    rt va l raw <-> maps m rt va l raw.
Proof.
  intros Hwf Hr Hi0 Hlen Hinv Halloc.
  assert (is_table (entry m t0 i0) = false) as Hnt by (unfold is_table; by rewrite Hinv).
  pose proof (install_reach m rt pages pages' p0 t0 i0 pa Hwf Hr Hi0 Hlen Hnt Halloc) as Hreach.
  pose proof (install_entry m rt pages pages' p0 t0 i0 pa Hwf Hr Hi0 Hlen Hnt Halloc) as Hentry.
  pose proof (install_entry_value m rt pages pages' p0 t0 i0 pa Hwf Hr Hi0 Hlen Hnt Halloc) as (_ & Htab & _).
  unfold maps. split; intros [Hl (t & Ht & He & Hv & Hf)]; (split; [done |]).
  - apply Hreach in Ht as [[Ht _] | [_ ->]].
    + rewrite (Hentry (vpath va l)) in He by (done || apply vpn_range).
      destruct (decide _); [| by exists t]. subst raw. apply table_not_leaf in Htab. congruence.
    + rewrite (install_new m rt pages pages' p0) in He by (done || apply vpn_range). by subst raw.
  - exists t. rewrite Hreach, (Hentry (vpath va l)) by (done || apply vpn_range).
    destruct (decide _) as [[E1 E2] |].
    { rewrite E1 in Ht. rewrite E2, (reach_unique _ _ _ _ _ Ht Hr) in He. congruence. }
    split_and!; try done. left. split; [done |]. intros Hp.
    by apply (reach_blocked m rt p0 i0 t0 (vpath va l) t Hr Hnt Hp).
Qed.

(** ** The walk that materializes tables *)

(** Why a materializing walk fails: no page left, or a leaf in the way. *)
Definition walk_blocked (m : Mem) (rt : RootTable) (pages : P) (va : Z) (p : list Z) (ls : list Z) : Prop :=
  psrc_alloc pages = (pages, None) \/
  exists ls1 lvl ls2 u, ls = ls1 ++ lvl :: ls2 /\ reaches m rt (p ++ map (vpn va) ls1) u /\
    is_leaf (entry m u (vpn va lvl)) = true.

(** The state a walk leaves: a well-formed extension with the same translation. *)
Definition extends (rt : RootTable) (m m' : Mem) (pages' : P) : Prop :=
  pt_wf m' rt pages' /\ (forall va l raw, maps m' rt va l raw <-> maps m rt va l raw) /\
  (forall q u, reaches m rt q u -> reaches m' rt q u).

Lemma extends_trans rt m1 m2 m3 pages2 pages3 :
  extends rt m1 m2 pages2 -> extends rt m2 m3 pages3 -> extends rt m1 m3 pages3.
Proof.
  intros (H1 & M1 & R1) (H2 & M2 & R2). split_and!; [done | | eauto].
  intros va l raw. by rewrite M2, M1.
Qed.

Lemma install_extends m rt pages pages' p0 t0 i0 pa :
  pt_wf m rt pages -> reaches m rt p0 t0 -> 0 <= i0 < 512 -> (length p0 <= 2)%nat ->
  is_valid (entry m t0 i0) = false -> psrc_alloc pages = (pages', Some pa) ->
  extends rt m (store (zero_table m (va_from_pa rt pa)) (pte_addr t0 i0) (pack_table (pa / PAGE_SIZE))) pages'.
Proof.
  intros Hwf Hr Hi0 Hlen Hinv Halloc.
  assert (is_table (entry m t0 i0) = false) as Hnt by (unfold is_table; by rewrite Hinv).
  split_and!.
  - by eapply install_wf.
  - intros. by eapply install_maps.
  - intros q u Hu. eapply install_reach; try done. left. split; [done |]. intros Hp.
    by apply (reach_blocked m rt p0 i0 t0 q u Hr Hnt Hp).
Qed.

Lemma materialize_from_spec rt va ls : forall p t m (pages : P),
  pt_wf m rt pages -> reaches m rt p t -> Forall (fun l => 1 <= l <= 3) ls ->
  (length p + length ls <= 3)%nat ->
  exists m' pages' r, materialize_from rt va t ls m pages = Done (m', pages', r) /\
    extends rt m m' pages' /\
    match r with
    | Ok t' => reaches m' rt (p ++ map (vpn va) ls) t'
    | Err _ => walk_blocked m' rt pages' va p ls
    end.
Proof.
  induction ls as [| lvl ls IH]; intros p t m pages Hwf Hr Hls Hlen; cbn [materialize_from].
  { exists m, pages, (Ok t). rewrite app_nil_r. split_and!; try done. }
  inversion Hls as [| ?? Hlvl Hls' ]; subst. rewrite vpn_n_spec by lia. cbn [pbind].
  simpl in Hlen. pose proof (vpn_range va lvl) as Hi.
  assert (forall m1 pages1 t1, extends rt m m1 pages1 -> reaches m1 rt (p ++ [vpn va lvl]) t1 ->
    exists m' pages' r, materialize_from rt va t1 ls m1 pages1 = Done (m', pages', r) /\
      extends rt m m' pages' /\
      match r with
      | Ok t' => reaches m' rt (p ++ map (vpn va) (lvl :: ls)) t'
      | Err _ => walk_blocked m' rt pages' va p (lvl :: ls)
      end) as Hgo.
  { intros m1 pages1 t1 Hext Hr1.
    destruct (IH (p ++ [vpn va lvl]) t1 m1 pages1) as (m' & pages' & r & -> & Hx & Hres); try done.
    { apply Hext. } { rewrite length_app. simpl. lia. }
    exists m', pages', r. split_and!; [done | by eapply extends_trans |].
    destruct r as [t' | []]; [by rewrite <- app_assoc in Hres |].
    destruct Hres as [Hn | (ls1 & l' & ls2 & u & -> & Hu & Hlf)]; [by left | right].
    exists (lvl :: ls1), l', ls2, u. by rewrite <- app_assoc in Hu. }
  destruct (is_leaf (entry m t (vpn va lvl))) eqn:Elf.
  { exists m, pages, (Err tt). split_and!; try done. right. exists [], lvl, ls, t.
    by rewrite app_nil_r. }
  destruct (is_valid (entry m t (vpn va lvl))) eqn:Ev; cbn [negb].
  - apply Hgo; [done |]. apply reach_snoc. exists t. split_and!; try done; try lia.
    unfold is_table. by rewrite Ev, Elf.
  - destruct (psrc_alloc pages) as [pages1 [pa |]] eqn:Ea.
    + apply Hgo; [eapply install_extends; try done; lia |].
      eapply install_reach_new; try done; [lia |]. unfold is_table. by rewrite Ev.
    + exists m, pages1, (Err tt).
      rewrite (psrc_alloc_none _ _ (proj1 (wf_source _ _ _ Hwf)) Ea) in Ea |- *.
      split_and!; try done. by left.
Qed.

End Effects.

(** ** Read-only walks *)

Lemma walk_from_spec m rt va ls : forall t,
  Forall (fun l => 0 <= l <= 3) ls -> walk_from m rt va t ls = Done (tbl m rt t (map (vpn va) ls)).
Proof.
  induction ls as [| l ls IH]; intros t Hls; simpl; [done |].
  inversion Hls; subst. rewrite vpn_n_spec by done. cbn [pbind]. unfold step.
  replace (negb (is_valid (entry m t (vpn va l))) || is_leaf (entry m t (vpn va l)))
    with (negb (is_table (entry m t (vpn va l)))) by (unfold is_table; by destruct (is_valid _), (is_leaf _)).
  destruct (is_table _); simpl; [by apply IH | done].
Qed.

Lemma levels_down_range lo : Forall (fun l => 0 <= l <= 3) (levels_down lo).
Proof.
  apply Forall_forall. intros l [_ Hl]%list_elem_of_filter. set_unfold in Hl. lia.
Qed.

Lemma levels_down_pos l : 0 <= l -> Forall (fun l => 1 <= l <= 3) (levels_down (l + 1)).
Proof.
  intros Hl0. apply Forall_forall. intros l' [Hlo Hl]%list_elem_of_filter. set_unfold in Hl. lia.
Qed.

Lemma walk_to_table_spec m rt va l :
  0 <= l <= 3 -> exists o, walk_to_table m rt va l = Done o /\
    (forall t, o = Some t <-> reaches m rt (vpath va l) t).
Proof.
  intros Hl. unfold walk_to_table, u8. rewrite Z.mod_small by lia.
  rewrite walk_from_spec by apply levels_down_range. eexists. split; [done |].
  intros t. unfold reaches. pose proof (vpath_indices va l). tauto.
Qed.

(** Along a path every higher level holds a table entry. *)
Lemma reach_above m rt va l' l t :
  0 <= l' < l -> l <= 3 -> reaches m rt (vpath va l') t ->
  exists u, reaches m rt (vpath va l) u /\ is_table (entry m u (vpn va l)) = true.
Proof.
  intros Hl Hl3 Ht. assert (fpath va l `prefix_of` vpath va l') as [r Hp].
  { rewrite vpath_fpath. apply fpath_prefix; [lia | lia |]. split; [lia | done]. }
  rewrite Hp in Ht. apply reach_prefix in Ht as [w Hw]. rewrite fpath_vpath in Hw by lia.
  apply reach_snoc in Hw as (u & Hu & _ & Htb & _). eauto.
Qed.

Lemma land_1 raw : negb (Z.land raw 1 =? 0) = is_valid raw.
Proof.
  unfold is_valid, get_bit. change (wshl 1 0) with 1.
  assert (0 <= Z.land raw 1) by (apply Z.land_nonneg; lia).
  destruct (Z.eqb_spec (Z.land raw 1) 0), (Z.ltb_spec 0 (Z.land raw 1)); simpl; lia || done.
Qed.

Lemma land_E raw : negb (Z.land raw 0xE =? 0) = is_leaf raw.
Proof.
  unfold is_leaf. assert (0 <= Z.land raw 0xE) by (apply Z.land_nonneg; lia).
  destruct (Z.eqb_spec (Z.land raw 0xE) 0), (Z.ltb_spec 0 (Z.land raw 0xE)); simpl; lia || done.
Qed.

Section Walks.
Context {P : Type} `{PageSourceLaws P} (m : Mem) (rt : RootTable) (pages : P).
Hypothesis (Hwf : pt_wf m rt pages).

(** The last step a walk records: the first entry that is not a table, or the
    entry of level 0. *)
Lemma chain_from_spec va (k : nat) : forall t n out,
  (k <= 3)%nat -> reaches m rt (vpath va (Z.of_nat k)) t -> (n + k = 3)%nat -> length out = 4%nat ->
  exists out' n' l u, chain_from m rt va t n out (filter (fun l => l <= Z.of_nat k) [3; 2; 1; 0]) = Done (out', n') /\
    (1 <= n' <= 4)%nat /\ 0 <= l <= Z.of_nat k /\ reaches m rt (vpath va l) u /\
    out' !! (n' - 1)%nat = Some (mkWalkStep l (vpn va l) (entry m u (vpn va l))) /\
    (l = 0 \/ is_table (entry m u (vpn va l)) = false).
Proof.
  induction k as [| k IH]; intros t n out Hk Ht Hn Hout.
  { change (filter (fun l => l <= Z.of_nat 0) [3; 2; 1; 0]) with [0]. cbn [chain_from].
    rewrite vpn_n_spec by lia. cbn [pbind].
    exists (<[n := mkWalkStep 0 (vpn va 0) (entry m t (vpn va 0))]> out), (S n), 0, t.
    split_and!; try lia; try done; [by destruct (_ || _) |].
    replace (S n - 1)%nat with n by lia. apply list_lookup_insert_eq. lia. }
  assert (filter (fun l => l <= Z.of_nat (S k)) [3; 2; 1; 0] =
          Z.of_nat (S k) :: filter (fun l => l <= Z.of_nat k) [3; 2; 1; 0]) as ->.
  { destruct k as [| [| [|]]]; [done | done | done | lia]. }
  cbn [chain_from]. rewrite vpn_n_spec by lia. cbn [pbind]. rewrite land_1, land_E.
  set (e := entry m t (vpn va (Z.of_nat (S k)))).
  assert (negb (is_valid e) || is_leaf e = negb (is_table e)) as ->
    by (unfold is_table; by destruct (is_valid _), (is_leaf _)).
  destruct (is_table e) eqn:Et; cbn [negb].
  - pose proof (vpn_range va (Z.of_nat (S k))) as Hi.
    destruct (wf_entries _ _ _ Hwf _ t _ Ht Hi) as [He0 He]. specialize (He Et).
    rewrite follow_agree by (unfold is_u64 in He0; lia).
    change (va_from_pa rt (wmul (pte_ppn e) 4096)) with (next rt e).
    destruct (IH (next rt e) (S n) (<[n := mkWalkStep (Z.of_nat (S k)) (vpn va (Z.of_nat (S k))) e]> out))
      as (out' & n' & l & u & -> & Hn' & Hl & Hu & Hlast); [lia | | lia | by rewrite length_insert |].
    { rewrite vpath_fpath. replace (Z.of_nat k + 1) with (Z.of_nat (S k)) by lia.
      rewrite fpath_vpath by lia. apply reach_snoc. exists t. split_and!; try done; lia. }
    exists out', n', l, u. split_and!; try lia; try done; apply Hlast.
  - eexists _, (S n), (Z.of_nat (S k)), t. split_and!; try done; try lia; [| by right].
    replace (S n - 1)%nat with n by lia. apply list_lookup_insert_eq. lia.
Qed.

Lemma walk_terminal va :
  exists out n l u, walk_pte_chain m rt va (replicate 4 STEP_EMPTY) = Done (out, n) /\
    0 <= l <= 3 /\ reaches m rt (vpath va l) u /\
    out !! (n - 1)%nat = Some (mkWalkStep l (vpn va l) (entry m u (vpn va l))) /\
    (l = 0 \/ is_table (entry m u (vpn va l)) = false) /\ (1 <= n <= 4)%nat.
Proof.
  destruct (chain_from_spec va 3 (rt_table rt) 0 (replicate 4 STEP_EMPTY)) as (out & n & l & u & E & ? & ? & ? & ? & ?);
    [lia | | lia | done |].
  { split; [constructor | done]. }
  exists out, n, l, u. split_and!; try done; lia.
Qed.

Lemma maps_terminal va l u l' raw' :
  0 <= l <= 3 -> reaches m rt (vpath va l) u ->
  (l = 0 \/ is_table (entry m u (vpn va l)) = false) ->
  maps m rt va l' raw' -> l' = l /\ raw' = entry m u (vpn va l).
Proof.
  intros Hl Hu Hterm [Hl' (t & Ht & He & Hv & Hf)].
  destruct (Z.lt_trichotomy l' l) as [Hlt | [-> | Hgt]].
  - destruct (reach_above m rt va l' l t) as (w & Hw & Htb); [lia | lia | done |].
    rewrite (reach_unique _ _ _ _ _ Hw Hu) in Htb. destruct Hterm; [lia | congruence].
  - by rewrite (reach_unique _ _ _ _ _ Hu Ht).
  - destruct (reach_above m rt va l l' u) as (w & Hw & Htb); [lia | lia | done |].
    rewrite (reach_unique _ _ _ _ _ Hw Ht), He in Htb. apply table_not_leaf in Htb. congruence.
Qed.

Lemma phys_code l raw va :
  0 <= l <= 3 -> is_u64 raw -> is_u64 va ->
  wadd (wshl (Z.land raw (wnot STATUS_BITS_MASK)) 2)
    (Z.land va (wsub (wshl 1 (12 + 9 * l)) 1)) = phys l raw va.
Proof.
  intros Hl Hr Hva. rewrite land_status by done. rewrite wshl_pow2 by lia.
  pose proof (pow2_bounds (12 + 9 * l) ltac:(lia)).
  assert (2 ^ (12 + 9 * l) <= 2 ^ 39) by (apply Z.pow_le_mono_r; lia).
  rewrite wsub_small by (unfold W64; lia).
  replace (2 ^ (12 + 9 * l) - 1) with (Z.ones (12 + 9 * l)) by (rewrite Z.ones_equiv; lia).
  rewrite Z.land_ones by lia. unfold wadd, phys, wshl, u64.
  rewrite Zplus_mod_idemp_l. change (2 mod 64) with 2. rewrite Z.shiftl_mul_pow2 by lia.
  f_equal. lia.
Qed.

(** [virt_to_phys] never panics and computes the abstract translation. *)
Lemma virt_to_phys_spec va :
  is_u64 va -> exists o, virt_to_phys m rt va = Done o /\
    (forall pa, o = Some pa <-> exists l raw, maps m rt va l raw /\ pa = phys l raw va).
Proof.
  intros Hva. destruct (walk_terminal va) as (out & n & l & u & E & Hl & Hu & Hlast & Hterm & _).
  unfold virt_to_phys. rewrite E. cbn [pbind fst snd]. rewrite Hlast. cbn [pte_raw level].
  rewrite land_1, land_E. set (e := entry m u (vpn va l)) in *.
  destruct (is_valid e && is_leaf e) eqn:Evl.
  - apply andb_true_iff in Evl as [Ev Elf]. rewrite Ev, Elf. cbn [negb orb]. eexists. split; [done |].
    rewrite phys_code; [| done | apply (wf_entries _ _ _ Hwf _ u _ Hu), vpn_range | done].
    intros pa. split.
    + intros [= <-]. exists l, e. split; [| done]. split; [done |]. by exists u.
    + intros (l' & raw' & Hm & ->). by destruct (maps_terminal va l u l' raw') as [-> ->].
  - exists None. split; [by destruct (is_valid e), (is_leaf e) |]. intros pa. split; [done |].
    intros (l' & raw' & Hm & _). destruct (maps_terminal va l u l' raw') as [-> ->]; try done.
    destruct Hm as [_ (t & _ & _ & Hv & Hf)]. fold e in Hv, Hf. by rewrite Hv, Hf in Evl.
Qed.

End Walks.

(** Page tables with the same leaves for an address translate it alike. *)
Lemma virt_to_phys_ext {P} `{PageSourceLaws P} m m' rt (pages pages' : P) va :
  pt_wf m rt pages -> pt_wf m' rt pages' -> is_u64 va ->
  (forall l raw, maps m' rt va l raw <-> maps m rt va l raw) ->
  virt_to_phys m' rt va = virt_to_phys m rt va.
Proof.
  intros Hwf Hwf' Hva Hm. destruct (virt_to_phys_spec m rt pages Hwf va Hva) as (o & -> & Ho).
  destruct (virt_to_phys_spec m' rt pages' Hwf' va Hva) as (o' & -> & Ho').
  f_equal. apply option_eq. intros pa. rewrite Ho, Ho'. by setoid_rewrite Hm.
Qed.

Lemma virt_to_phys_is {P} `{PageSourceLaws P} m rt (pages : P) va l raw :
  pt_wf m rt pages -> is_u64 va -> maps m rt va l raw ->
  virt_to_phys m rt va = Done (Some (phys l raw va)).
Proof.
  intros Hwf Hva Hm. destruct (virt_to_phys_spec m rt pages Hwf va Hva) as (o & -> & Ho).
  f_equal. apply Ho. eauto.
Qed.

Lemma virt_to_phys_none {P} `{PageSourceLaws P} m rt (pages : P) va :
  pt_wf m rt pages -> is_u64 va -> (forall l raw, ~ maps m rt va l raw) ->
  virt_to_phys m rt va = Done None.
Proof.
  intros Hwf Hva Hm. destruct (virt_to_phys_spec m rt pages Hwf va Hva) as ([pa |] & -> & Ho); [| done].
  destruct (proj1 (Ho pa) eq_refl) as (l & raw & Hm' & _). by destruct (Hm l raw).
Qed.
