(* ===== verification/Mapping.v ===== *)
(** * Mapping, unmapping, reserving and tearing down

    The theorems of the page-table operations of [PageTable.v], stated on what
    [virt_to_phys] answers before and after. *)

From stdpp Require Import base list option numbers sets gmap.
From S2P Require Import Prelude Buddy Sv48 PageTable Translate.
#[local] Open Scope Z_scope.

(** The size of a page of level [l]. *)
Definition psize (l : Z) : Z := 2 ^ (12 + 9 * l).

(** A mapping request as the callers build it: a level the hardware has, the
    page size of that level, and at least one of R, W and X. *)
Record config_ok (c : MappingConfig) : Prop := {
  cfg_levels : 1 <= levels c <= 4;
  cfg_size : page_size c = psize (4 - levels c);
  cfg_vaddr : is_u64 (vaddr c);
  cfg_paddr : is_u64 (paddr c);
  cfg_perms : is_leaf (permissions c) = true;
}.

Definition cfg_aligned (c : MappingConfig) : Prop :=
  (page_size c | paddr c) /\ (page_size c | vaddr c).

Lemma psize_pos l : 0 <= l -> 0 < psize l.
Proof. intros. apply pow2_bounds. lia. Qed.

Lemma misaligned_spec c :
  config_ok c -> exists b, misaligned c = Done b /\ (b = false <-> cfg_aligned c).
Proof.
  intros Hc. pose proof (psize_pos (4 - levels c) ltac:(pose proof (cfg_levels _ Hc); lia)).
  unfold misaligned. rewrite (cfg_size _ Hc) in *. destruct (Z.eqb_spec (psize (4 - levels c)) 0); [lia |].
  eexists. split; [done |]. unfold cfg_aligned. rewrite (cfg_size _ Hc).
  rewrite orb_false_iff, !negb_false_iff, !Z.eqb_eq, !Z.mod_divide by lia. done.
Qed.

(** The level a request writes its leaf at. *)
Lemma target_level_spec n : 1 <= n <= 4 -> u8 (wsub 4 n) = 4 - n.
Proof. intros. unfold u8. rewrite wsub_small by (unfold W64; lia). apply Z.mod_small. lia. Qed.

(** The physical address of an aligned leaf. *)
Lemma phys_aligned l pa va perms rsw :
  0 <= l <= 3 -> is_u64 pa -> (psize l | pa) ->
  phys l (pack_leaf (pa / PAGE_SIZE) perms rsw) va = pa + va mod psize l.
Proof.
  intros Hl Hpa Hd. unfold phys. unfold is_u64, W64 in Hpa.
  destruct (pack_leaf_base (pa / PAGE_SIZE) perms rsw) as [_ ->].
  { unfold PAGE_SIZE. split; [apply Z.div_pos; lia | apply Z.div_lt_upper_bound; lia]. }
  fold (psize l). pose proof (psize_pos l ltac:(lia)). pose proof (Z.mod_pos_bound va (psize l) ltac:(done)).
  assert ((4096 | pa)) as [k Hk].
  { transitivity (psize l); [| done]. unfold psize. rewrite Z.pow_add_r by lia. apply Z.divide_factor_l. }
  replace (pa / PAGE_SIZE * 4096) with pa by (rewrite Hk; unfold PAGE_SIZE; rewrite Z.div_mul; lia).
  apply u64_small. unfold is_u64. split; [lia |].
  assert (pa + psize l <= W64); [| lia]. destruct Hd as [d ->].
  assert (W64 = 2 ^ (52 - 9 * l) * psize l) as HW.
  { unfold psize. rewrite <- Z.pow_add_r by lia. unfold W64. f_equal. lia. }
  change (2 ^ 64) with W64 in Hpa. rewrite HW in Hpa |- *. clear Hk HW.
  assert (d < 2 ^ (52 - 9 * l)) by (apply (Z.mul_lt_mono_pos_r (psize l)); lia). nia.
Qed.

(** An address whose page has an invalid entry at some level is unmapped. *)
Lemma slot_empty m rt a l t va l' raw' :
  0 <= l <= 3 -> reaches m rt (vpath a l) t -> is_valid (entry m t (vpn a l)) = false ->
  same_page l a va -> ~ maps m rt va l' raw'.
Proof.
  intros Hl Ht Hv Hs Hm. apply fpath_same in Hs; [| done]. rewrite !fpath_vpath in Hs by done.
  apply app_inj_tail in Hs as [Hp Hi]. rewrite Hp in Ht. rewrite Hi in Hv.
  destruct (maps_terminal m rt va l t l' raw') as [-> ->]; try done.
  - right. unfold is_table. by rewrite Hv.
  - destruct Hm as [_ (u & _ & _ & Hv' & _)]. congruence.
Qed.

Section Map.
Context {P : Type} `{PageSourceLaws P}.

(** Writing a leaf at level [l] after a materializing walk. *)
Lemma leaf_write rt m m1 (pages1 : P) va l t v :
  extends rt m m1 pages1 -> 0 <= l <= 3 -> reaches m1 rt (vpath va l) t ->
  is_table v = false -> is_u64 v ->
  let m' := store m1 (pte_addr t (vpn va l)) v in
  pt_wf m' rt pages1 /\
  (forall va' l' raw, same_page l va va' ->
     maps m' rt va' l' raw <-> l' = l /\ raw = v /\ is_valid v = true /\ is_leaf v = true) /\
  (forall va' l' raw, ~ same_page l va va' -> maps m' rt va' l' raw <-> maps m rt va' l' raw).
Proof.
  intros (Hwf & Hmaps & _) Hl Hr Hv Hu m'. split_and!.
  - apply (set_entry_wf m1 rt pages1 (vpath va l)); try done. apply vpn_range.
  - intros. by apply (set_leaf_same m1 rt pages1).
  - intros. rewrite <- Hmaps. by apply (set_leaf_other m1 rt pages1).
Qed.

(** The outcome of a mapping call at level [l]: on success exactly the page's
    addresses change, to the requested frame; on failure none does. *)
Definition mapped (rt : RootTable) (c : MappingConfig) (m m' : Mem) : Prop :=
  forall va, is_u64 va ->
    virt_to_phys m' rt va =
      if decide (same_page (4 - levels c) (vaddr c) va)
      then Done (Some (paddr c + va mod page_size c)) else virt_to_phys m rt va.

Definition unchanged (rt : RootTable) (m m' : Mem) : Prop :=
  forall va, is_u64 va -> virt_to_phys m' rt va = virt_to_phys m rt va.

Lemma extends_refl rt m (pages : P) : pt_wf m rt pages -> extends rt m m pages.
Proof. done. Qed.

Lemma extends_unchanged rt m m' (pages pages' : P) :
  pt_wf m rt pages -> extends rt m m' pages' -> unchanged rt m m'.
Proof.
  intros Hwf (Hwf' & Hm & _) va Hva. by apply (virt_to_phys_ext m m' rt pages pages').
Qed.

Lemma leaf_write_mapped rt c m m1 (pages pages1 : P) t :
  pt_wf m rt pages -> config_ok c -> cfg_aligned c -> extends rt m m1 pages1 ->
  reaches m1 rt (vpath (vaddr c) (4 - levels c)) t ->
  let m' := store m1 (pte_addr t (vpn (vaddr c) (4 - levels c)))
              (pack_leaf (paddr c / PAGE_SIZE) (permissions c) (tag_bits (supervisor_tag c))) in
  pt_wf m' rt pages1 /\ mapped rt c m m' /\
  maps m' rt (vaddr c) (4 - levels c)
    (pack_leaf (paddr c / PAGE_SIZE) (permissions c) (tag_bits (supervisor_tag c))) /\
  (forall va l raw, ~ same_page (4 - levels c) (vaddr c) va -> maps m' rt va l raw <-> maps m rt va l raw).
Proof.
  intros Hwf Hc [Hpa Hva] Hext Hr m'. pose proof (cfg_levels _ Hc). pose proof (cfg_paddr _ Hc) as Hp.
  assert (0 <= paddr c / PAGE_SIZE < 2 ^ 54) as Hppn.
  { unfold is_u64, W64, PAGE_SIZE in *. split; [apply Z.div_pos; lia | apply Z.div_lt_upper_bound; lia]. }
  destruct (pack_leaf_leaf _ (permissions c) (tag_bits (supervisor_tag c)) Hppn) as [Hv Hlf].
  rewrite (cfg_perms _ Hc) in Hlf.
  destruct (pack_leaf_base _ (permissions c) (tag_bits (supervisor_tag c)) Hppn) as [Hu _].
  destruct (leaf_write rt m m1 pages1 (vaddr c) (4 - levels c) t
    (pack_leaf (paddr c / PAGE_SIZE) (permissions c) (tag_bits (supervisor_tag c))))
    as (Hwf' & Hsame & Hother); try done; [lia | unfold is_table; by rewrite Hv, Hlf |].
  split_and!; [done | | by apply Hsame | done]. intros va Hu'. destruct (decide _) as [Hs | Hs].
  - rewrite (virt_to_phys_is _ rt pages1 va (4 - levels c)
      (pack_leaf (paddr c / PAGE_SIZE) (permissions c) (tag_bits (supervisor_tag c)))); try done.
    + rewrite phys_aligned; rewrite <- ?(cfg_size _ Hc); try done. lia.
    + by apply Hsame.
  - apply (virt_to_phys_ext m _ rt pages pages1); try done. intros. by apply Hother.
Qed.

Lemma levels_down_split lo ls1 lvl ls2 :
  1 <= lo <= 4 -> levels_down lo = ls1 ++ lvl :: ls2 ->
  ls1 = levels_down (lvl + 1) /\ lo <= lvl <= 3.
Proof.
  intros Hlo E.
  assert ((lo = 1 /\ levels_down lo = [3; 2; 1]) \/ (lo = 2 /\ levels_down lo = [3; 2]) \/
    (lo = 3 /\ levels_down lo = [3]) \/ levels_down lo = []) as Hcase.
  { assert (lo = 1 \/ lo = 2 \/ lo = 3 \/ lo = 4) as [-> | [-> | [-> | ->]]] by lia; auto. }
  destruct Hcase as [[-> El] | [[-> El] | [[-> El] | El]]]; rewrite El in E;
    destruct ls1 as [| a1 [| a2 [| a3 [| a4 ls1]]]]; simplify_eq/=; (split; [reflexivity | lia]).
Qed.

(** Why a mapping walk to level [l] fails. *)
Definition blocked (m : Mem) (rt : RootTable) (pages : P) (va l : Z) : Prop :=
  psrc_alloc pages = (pages, None) \/
  exists lvl u, l < lvl <= 3 /\ reaches m rt (vpath va lvl) u /\ is_leaf (entry m u (vpn va lvl)) = true.

Lemma materialize_spec rt va l m (pages : P) :
  pt_wf m rt pages -> 0 <= l <= 3 ->
  exists m1 pages1 r, walk_to_table_materialize rt va l m pages = Done (m1, pages1, r) /\
    extends rt m m1 pages1 /\
    match r with
    | Ok t => reaches m1 rt (vpath va l) t
    | Err _ => blocked m1 rt pages1 va l
    end.
Proof.
  intros Hwf Hl. unfold walk_to_table_materialize, u8. rewrite Z.mod_small by lia.
  destruct (materialize_from_spec rt va (levels_down (l + 1)) [] (rt_table rt) m pages)
    as (m1 & pages1 & r & -> & Hext & Hr); [done | by split; [constructor |] | by apply levels_down_pos; lia | |].
  { pose proof (vpath_length va l Hl) as Hlen. unfold vpath in Hlen. rewrite length_map in Hlen. simpl. lia. }
  exists m1, pages1, r. split_and!; try done. destruct r as [t | []]; [done |].
  destruct Hr as [Hn | (ls1 & lvl & ls2 & u & E & Hu & Hlf)]; [by left | right].
  apply levels_down_split in E as [-> Hlvl]; [| lia].
  exists lvl, u. split_and!; try done; lia.
Qed.

Lemma map_page_spec rt c m (pages : P) :
  pt_wf m rt pages -> config_ok c ->
  exists m' pages' r, map_page rt c m pages = Done (m', pages', r) /\ pt_wf m' rt pages' /\
    match r with
    | Ok _ => cfg_aligned c /\ mapped rt c m m'
    | Err _ => unchanged rt m m' /\ (~ cfg_aligned c \/ blocked m' rt pages' (vaddr c) (4 - levels c))
    end.
Proof.
  intros Hwf Hc. pose proof (cfg_levels _ Hc). unfold map_page.
  destruct (misaligned_spec c Hc) as (b & -> & Hb). cbn [pbind]. destruct b.
  { exists m, pages, (Err tt). split_and!; try done. left. intros Ha%Hb. done. }
  rewrite target_level_spec by done.
  destruct (materialize_spec rt (vaddr c) (4 - levels c) m pages Hwf ltac:(lia))
    as (m1 & pages1 & r & -> & Hext & Hr). cbn [pbind].
  destruct r as [t | []].
  - rewrite vpn_n_spec by lia. cbn [pbind]. eexists _, _, _. split; [done |].
    destruct (leaf_write_mapped rt c m m1 pages pages1 t) as (Hwf' & Hm & Hlf); try done; [by apply Hb |].
    split_and!; try done; by apply Hb.
  - exists m1, pages1, (Err tt). split_and!; [done | apply Hext | | by right].
    by apply (extends_unchanged rt m m1 pages pages1).
Qed.

Lemma map_address_page_spec rt c m (pages : P) :
  pt_wf m rt pages -> config_ok c ->
  exists m' pages' r, map_address_page rt c m pages = Done (m', pages', r) /\ pt_wf m' rt pages' /\
    match r with
    | Ok _ => cfg_aligned c /\ mapped rt c m m' /\
        (forall va, is_u64 va -> same_page (4 - levels c) (vaddr c) va -> virt_to_phys m rt va = Done None) /\
        maps m' rt (vaddr c) (4 - levels c)
          (pack_leaf (paddr c / PAGE_SIZE) (permissions c) (tag_bits (supervisor_tag c))) /\
        (forall va l raw, ~ same_page (4 - levels c) (vaddr c) va -> maps m' rt va l raw <-> maps m rt va l raw)
    | Err _ => unchanged rt m m' /\ (forall va l raw, maps m' rt va l raw <-> maps m rt va l raw) /\
        (~ cfg_aligned c \/ blocked m' rt pages' (vaddr c) (4 - levels c) \/
         exists t, reaches m' rt (vpath (vaddr c) (4 - levels c)) t /\
           is_valid (entry m' t (vpn (vaddr c) (4 - levels c))) = true)
    end.
Proof.
  intros Hwf Hc. pose proof (cfg_levels _ Hc). unfold map_address_page.
  destruct (misaligned_spec c Hc) as (b & -> & Hb). cbn [pbind]. destruct b.
  { exists m, pages, (Err tt). split_and!; try done. left. intros Ha%Hb. done. }
  rewrite target_level_spec by done.
  destruct (materialize_spec rt (vaddr c) (4 - levels c) m pages Hwf ltac:(lia))
    as (m1 & pages1 & r & -> & Hext & Hr). cbn [pbind].
  destruct r as [t | []].
  2: { exists m1, pages1, (Err tt). split_and!; [done | apply Hext | by apply (extends_unchanged rt m m1 pages pages1) | apply Hext | auto]. }
  rewrite vpn_n_spec by lia. cbn [pbind].
  destruct (is_valid (entry m1 t (vpn (vaddr c) (4 - levels c)))) eqn:Ev.
  { exists m1, pages1, (Err tt). split_and!; [done | apply Hext | by apply (extends_unchanged rt m m1 pages pages1) | apply Hext | eauto]. }
  eexists _, _, _. split; [done |].
  destruct (leaf_write_mapped rt c m m1 pages pages1 t) as (Hwf' & Hm & Hlf & Hot); try done; [by apply Hb |].
  split_and!; try done; [by apply Hb .. |]. intros va Hva Hs.
  rewrite <- (extends_unchanged rt m m1 pages pages1 Hwf Hext va Hva).
  apply (virt_to_phys_none _ _ pages1); [apply Hext | done |]. intros l' raw' Hmp.
  apply (slot_empty m1 rt (vaddr c) (4 - levels c) t va l' raw'); try done. lia.
Qed.

(** C3. In a well-formed page table [map_address_page] always returns and keeps
    the tables well formed. On success the request was aligned, no address of
    the page was mapped before, every address of the page now translates into
    the requested frame at its offset (superpages included), and every other
    address translates as before. On failure no translation changes, and the
    cause is a misaligned request, an exhausted page source, a superpage on the
    path, or an entry that is already valid. *)
Theorem map_address_page_correct rt c m (pages : P) :
  pt_wf m rt pages -> config_ok c ->
  exists m' pages' r, map_address_page rt c m pages = Done (m', pages', r) /\ pt_wf m' rt pages' /\
    match r with
    | Ok _ => cfg_aligned c /\ mapped rt c m m' /\
        (forall va, is_u64 va -> same_page (4 - levels c) (vaddr c) va -> virt_to_phys m rt va = Done None)
    | Err _ => unchanged rt m m' /\
        (~ cfg_aligned c \/ blocked m' rt pages' (vaddr c) (4 - levels c) \/
         exists t, reaches m' rt (vpath (vaddr c) (4 - levels c)) t /\
           is_valid (entry m' t (vpn (vaddr c) (4 - levels c))) = true)
    end.
Proof.
  intros Hwf Hc. destruct (map_address_page_spec rt c m pages Hwf Hc) as (m' & pages' & r & E & Hwf' & Hr).
  exists m', pages', r. split_and!; try done. destruct r; tauto.
Qed.

(** ** Address ranges

    Walks ignore the bits above 48, so the position of [va] in a range that
    starts at [base] is its distance modulo 2^48. *)

Definition off (base va : Z) : Z := (va - base) mod 2 ^ 48.

Lemma off_range base va : 0 <= off base va < 2 ^ 48.
Proof. apply Z.mod_pos_bound. lia. Qed.

Lemma off_split l base va :
  0 <= l <= 3 -> (psize l | base) ->
  off base va = va mod psize l + psize l * ((va / psize l - base / psize l) mod 2 ^ (36 - 9 * l)).
Proof.
  intros Hl [k ->]. pose proof (psize_pos l ltac:(lia)). pose proof (pow2_bounds (36 - 9 * l) ltac:(lia)).
  unfold off. replace (2 ^ 48) with (psize l * 2 ^ (36 - 9 * l)).
  2: { unfold psize. rewrite <- Z.pow_add_r by lia. f_equal. lia. }
  rewrite Z.rem_mul_r by lia. replace (va - k * psize l) with (va + (- k) * psize l) by lia.
  rewrite Z.mod_add, Z.div_add, Z.div_mul by lia. done.
Qed.

Lemma same_page_off l base va :
  0 <= l <= 3 -> (psize l | base) ->
  (same_page l base va <-> off base va < psize l) /\ (off base va < psize l -> off base va = va mod psize l).
Proof.
  intros Hl Hd. rewrite (off_split l) by done. unfold same_page. fold (psize l).
  pose proof (psize_pos l ltac:(lia)). pose proof (pow2_bounds (36 - 9 * l) ltac:(lia)) as HK.
  pose proof (Z.mod_pos_bound va (psize l) ltac:(done)).
  set (K := 2 ^ (36 - 9 * l)) in *. set (q := va / psize l). set (k := base / psize l).
  pose proof (Z.mod_pos_bound (q - k) K HK).
  assert ((q - k) mod K = 0 <-> k mod K = q mod K) as Hmod.
  { rewrite Zminus_mod. pose proof (Z.mod_pos_bound q K HK). pose proof (Z.mod_pos_bound k K HK). split.
    - intros Hz. apply Z.mod_divide in Hz as [d Hd']; [| lia]. assert (d = 0) by nia. lia.
    - intros ->. rewrite Z.sub_diag. apply Z.mod_0_l. lia. }
  split; [| nia]. rewrite <- Hmod. split; [intros ->; lia | nia].
Qed.

(** Extending a mapped prefix of length [d] by a page at its end. *)
Lemma off_extend base d size va :
  0 <= d -> 0 < size -> d + size <= 2 ^ 48 ->
  (off (base + d) va < size -> off base va = d + off (base + d) va) /\
  (off base va < d + size <-> off base va < d \/ off (base + d) va < size).
Proof.
  intros Hd Hs Hle. pose proof (off_range base va). pose proof (off_range (base + d) va).
  assert (off (base + d) va = if off base va <? d then off base va - d + 2 ^ 48 else off base va - d) as E.
  { unfold off in *. replace (va - (base + d)) with ((va - base) - d) by lia.
    rewrite <- Zminus_mod_idemp_l. set (x := (va - base) mod 2 ^ 48) in *.
    destruct (Z.ltb_spec x d).
    - rewrite <- (Z.mod_add (x - d) 1), Z.mul_1_l by lia. apply Z.mod_small. lia.
    - apply Z.mod_small. lia. }
  destruct (Z.ltb_spec (off base va) d); lia.
Qed.

(** The first [d] bytes from [va0] translate to consecutive addresses from
    [pa0]; everything else translates as in [m]. *)
Definition range_mapped (rt : RootTable) (va0 pa0 d : Z) (m m' : Mem) : Prop :=
  forall va, is_u64 va ->
    virt_to_phys m' rt va =
      if decide (off va0 va < d) then Done (Some (pa0 + off va0 va)) else virt_to_phys m rt va.

Lemma range_mapped_0 rt va0 pa0 m : range_mapped rt va0 pa0 0 m m.
Proof. intros va _. pose proof (off_range va0 va). by rewrite decide_False by lia. Qed.

Lemma range_mapped_unchanged rt va0 pa0 d m m1 m2 :
  range_mapped rt va0 pa0 d m m1 -> unchanged rt m1 m2 -> range_mapped rt va0 pa0 d m m2.
Proof. intros H1 H2 va Hva. by rewrite H2, H1. Qed.

Lemma range_mapped_step rt c va0 pa0 d m m1 m2 :
  config_ok c -> cfg_aligned c -> vaddr c = va0 + d -> paddr c = pa0 + d ->
  0 <= d -> d + page_size c <= 2 ^ 48 ->
  range_mapped rt va0 pa0 d m m1 -> mapped rt c m1 m2 ->
  range_mapped rt va0 pa0 (d + page_size c) m m2.
Proof.
  intros Hc [_ Ha] Hv Hp Hd Hle H1 H2 va Hva. pose proof (cfg_levels _ Hc).
  rewrite (cfg_size _ Hc) in *. pose proof (psize_pos (4 - levels c) ltac:(lia)) as Hps.
  destruct (same_page_off (4 - levels c) (vaddr c) va) as [Hsp Hoff]; [lia | done |].
  destruct (off_extend va0 d (psize (4 - levels c)) va) as [Hx1 Hx2]; [done | done | done |].
  rewrite (H2 va Hva), (H1 va Hva), (cfg_size _ Hc). rewrite Hv in *.
  destruct (decide (same_page _ _ _)) as [Hs | Hs]; rewrite Hsp in Hs.
  - rewrite decide_True by lia. do 2 f_equal. rewrite <- (Hoff Hs), (Hx1 Hs). lia.
  - destruct (decide (off va0 va < d)); [rewrite decide_True by lia | rewrite decide_False by lia]; done.
Qed.

Definition weight (r : IdMapReport) : Z :=
  gigapages_mapped r * GB + megapages_mapped r * (2 * MB) + regularpages_mapped r * PAGE_SIZE.

Definition report_ok (r : IdMapReport) : Prop :=
  0 <= gigapages_mapped r /\ 0 <= megapages_mapped r /\ 0 <= regularpages_mapped r.

Lemma tier_spec rem pa va :
  PAGE_SIZE <= rem -> (PAGE_SIZE | pa) -> (PAGE_SIZE | va) ->
  exists lvls size, tier rem pa va = (lvls, size) /\ 2 <= lvls <= 4 /\ size = psize (4 - lvls) /\
    0 < size <= rem /\ (size | pa) /\ (size | va).
Proof.
  intros Hr Hp Hv. unfold tier.
  destruct ((GB <=? rem) && (pa mod GB =? 0) && (va mod GB =? 0)) eqn:E1.
  { to_prop. exists 2, GB. split_and!; try done; by apply Z.mod_divide. }
  destruct ((2 * MB <=? rem) && (pa mod (2 * MB) =? 0) && (va mod (2 * MB) =? 0)) eqn:E2.
  { to_prop. exists 3, (2 * MB). split_and!; try done; by apply Z.mod_divide. }
  exists 4, PAGE_SIZE. split_and!; try done.
Qed.

Lemma report_count_spec r lvls :
  2 <= lvls <= 4 -> report_ok r -> weight r < W64 ->
  exists r', report_count r lvls = Done r' /\ report_ok r' /\ weight r' = weight r + psize (4 - lvls).
Proof.
  intros Hl (Hg & Hm & Hn) Hw. unfold report_ok, weight, report_count, GB, MB, KB, PAGE_SIZE, W64 in *.
  assert (lvls = 2 \/ lvls = 3 \/ lvls = 4) as [-> | [-> | ->]] by lia; eexists; split; try reflexivity;
    cbn [gigapages_mapped megapages_mapped regularpages_mapped];
    rewrite wadd_small by (unfold W64; lia);
    [change (psize (4 - 2)) with 1073741824 | change (psize (4 - 3)) with 2097152
    | change (psize (4 - 4)) with 4096]; lia.
Qed.

Section MapVaRange.
Context (rt : RootTable) (base : MappingConfig) (va0 pa0 pa1 : Z) (m0 : Mem).
Hypothesis (Hperm : is_leaf (permissions base) = true).
Hypothesis (Hva : 0 <= va0) (Hpa : 0 <= pa0 <= pa1) (Hpa1 : pa1 < W64).
Hypothesis (Hvaend : va0 + (pa1 - pa0) < W64) (Hlen : pa1 - pa0 <= 2 ^ 48).
Hypothesis (Hav : (PAGE_SIZE | va0)) (Hap : (PAGE_SIZE | pa0)).

(** What holds after the first [d] bytes. *)
Definition range_inv (s : Mem * P * IdMapReport * (Z * Z * Z)) : Prop :=
  let '(m, pages, rep, (cur_pa, cur_va, rem)) := s in
  exists d, cur_pa = pa0 + d /\ cur_va = va0 + d /\ rem = pa1 - pa0 - d /\ 0 <= d <= pa1 - pa0 /\
    (PAGE_SIZE | d) /\ pt_wf m rt pages /\ range_mapped rt va0 pa0 d m0 m /\ report_ok rep /\ weight rep = d.

(** The outcome of a bulk mapping: a mapped prefix of whole pages, which is
    the whole range when it succeeds. *)
Definition range_post (r : panics (Mem * P * result IdMapReport unit)) : Prop :=
  exists m' pages' res d, r = Done (m', pages', res) /\ pt_wf m' rt pages' /\
    range_mapped rt va0 pa0 d m0 m' /\ 0 <= d <= pa1 - pa0 /\
    match res with
    | Ok rep => d = (pa1 - pa0) / PAGE_SIZE * PAGE_SIZE /\ weight rep = d
    | Err _ => exists l, 0 <= l <= 2 /\ blocked m' rt pages' (va0 + d) l
    end.

Lemma range_done d :
  (PAGE_SIZE | d) -> 0 <= d <= pa1 - pa0 -> pa1 - pa0 - d < PAGE_SIZE ->
  d = (pa1 - pa0) / PAGE_SIZE * PAGE_SIZE.
Proof.
  intros [k ->] Hd Hrem. f_equal. unfold PAGE_SIZE in *. apply Z.div_unique with (pa1 - pa0 - k * 4096); lia.
Qed.

Lemma psize_page l : 0 <= l -> (PAGE_SIZE | psize l).
Proof. intros. unfold psize. rewrite Z.pow_add_r by lia. apply Z.divide_factor_l. Qed.

Lemma map_va_step_spec s :
  range_inv s ->
  match map_va_step rt base s with
  | inl s' => range_inv s' /\ 0 <= s'.2.2 < s.2.2
  | inr r => range_post r
  end.
Proof.
  destruct s as [[[m pages] rep] [[cur_pa cur_va] rem]].
  intros (d & -> & -> & -> & Hd & Hdiv & Hwf & Hmap & Hrep & Hw). unfold map_va_step.
  destruct (Z.leb_spec PAGE_SIZE (pa1 - pa0 - d)) as [Hge | Hlt].
  2: { exists m, pages, (Ok rep), d. split_and!; try done; try lia. by apply range_done. }
  destruct (tier_spec (pa1 - pa0 - d) (pa0 + d) (va0 + d)) as (lvls & size & -> & Hl & Hsz & Hs & Hpd & Hvd);
    [done | by apply Z.divide_add_r | by apply Z.divide_add_r |].
  set (c := mkMappingConfig _ _ _ _ _ _ _).
  assert (config_ok c) as Hc.
  { split; simpl; try done; try lia; unfold is_u64; lia. }
  destruct (map_page_spec rt c m pages Hwf Hc) as (m' & pages' & r & -> & Hwf' & Hr).
  destruct r as [u | []].
  - destruct Hr as [Hal Hm].
    destruct (report_count_spec rep lvls Hl Hrep) as (rep' & -> & Hrep' & Hw'); [lia |].
    split; [| simpl; rewrite wsub_small; lia].
    exists (d + size). rewrite !wadd_small, wsub_small by lia. split_and!; try done; try lia.
    + apply Z.divide_add_r; [done |]. rewrite Hsz. apply psize_page. lia.
    + by apply (range_mapped_step rt c va0 pa0 d m0 m m'); try done; simpl; lia.
  - destruct Hr as [Hu [Hna | Hb]]; [by destruct Hna |].
    exists m', pages', (Err tt), d. split_and!; try done; try lia.
    + by apply (range_mapped_unchanged rt va0 pa0 d m0 m).
    + exists (4 - lvls). split; [lia | done].
Qed.

End MapVaRange.

(** [map_va_range] over page-aligned addresses terminates without
    panicking and keeps the page table well formed: it maps a prefix of the
    range, of whole pages, to consecutive physical addresses and changes no
    other translation; when it returns a report the prefix is the whole range
    rounded down to pages, and the gigapages, megapages and pages it counts
    cover exactly that length; when it fails, the page after the prefix could
    not be entered because the page source is exhausted or a superpage is in
    the way. *)
Theorem map_va_range_correct rt base va0 pa0 pa1 m (pages : P) :
  pt_wf m rt pages -> is_leaf (permissions base) = true ->
  0 <= va0 -> 0 <= pa0 <= pa1 -> pa1 < W64 -> va0 + (pa1 - pa0) < W64 -> pa1 - pa0 <= 2 ^ 48 ->
  (PAGE_SIZE | va0) -> (PAGE_SIZE | pa0) ->
  exists r, map_va_range rt base va0 pa0 pa1 m pages = Some r /\ range_post rt va0 pa0 pa1 m r.
Proof.
  intros Hwf Hperm Hva Hpa Hpa1 Hvaend Hlen Hav Hap. unfold map_va_range.
  destruct (Z.ltb_spec pa1 pa0); [lia |].
  apply (while64_total (map_va_step rt base) (range_inv rt va0 pa0 pa1 m) (fun s => s.2.2)).
  - intros s Hs. by apply map_va_step_spec.
  - exists 0. rewrite wsub_small by lia. split_and!; try done; try lia; [apply Z.divide_0_r | apply range_mapped_0].
  - simpl. rewrite wsub_small; lia.
Qed.

(** ** Reserving a window *)

(** Every address of the first [d] bytes from [va0] has its level-0 table. *)
Definition reserved (rt : RootTable) (m : Mem) (va0 d : Z) : Prop :=
  forall va, off va0 va < d -> exists t, reaches m rt (vpath va 0) t.

Lemma vpath_same_block a b : same_page 1 a b -> vpath a 0 = vpath b 0.
Proof. intros Hs. rewrite !vpath_fpath. apply fpath_same; [lia | done]. Qed.

Section Reserve.
Context (rt : RootTable) (va0 va1 : Z) (m0 : Mem).
Hypothesis (Hva : 0 <= va0 <= va1) (Hva1 : va1 < W64 - L0_SPAN) (Hlen : va1 - va0 <= 2 ^ 48).
Hypothesis (Hd0 : (L0_SPAN | va0)).

Definition reserve_inv (s : Mem * P * Z) : Prop :=
  let '(m, pages, va) := s in
  exists d, va = va0 + d /\ 0 <= d <= 2 ^ 48 /\ va <= va1 + L0_SPAN /\ (L0_SPAN | d) /\
    extends rt m0 m pages /\ reserved rt m va0 d.

Definition reserve_post (r : panics (Mem * P * result unit unit)) : Prop :=
  exists m' pages' res, r = Done (m', pages', res) /\ extends rt m0 m' pages' /\
    match res with
    | Ok _ => reserved rt m' va0 (va1 - va0)
    | Err _ => exists va, va0 <= va < va1 /\ blocked m' rt pages' va 0
    end.

Lemma reserve_step_spec s :
  reserve_inv s ->
  match reserve_step rt va1 s with
  | inl s' => reserve_inv s' /\ 0 <= va1 + L0_SPAN - s'.2 < va1 + L0_SPAN - s.2
  | inr r => reserve_post r
  end.
Proof.
  destruct s as [[m pages] va]. intros (d & -> & Hd & Hle & Hdiv & Hext & Hres). unfold reserve_step.
  assert (L0_SPAN = psize 1) as HL by done.
  destruct (Z.ltb_spec (va0 + d) va1) as [Hlt | Hge].
  2: { exists m, pages, (Ok tt). split_and!; try done. intros va Ho. apply Hres. lia. }
  destruct (materialize_spec rt (va0 + d) 0 m pages (proj1 Hext) ltac:(lia)) as (m1 & pages1 & r & -> & Hx & Hr).
  pose proof (extends_trans _ _ _ _ _ _ Hext Hx) as Hext1.
  destruct r as [t | []].
  2: { exists m1, pages1, (Err tt). split_and!; try done. exists (va0 + d). split; [lia | done]. }
  assert (d + L0_SPAN <= 2 ^ 48) as Hd48.
  { destruct Hdiv as [k ->]. change (2 ^ 48) with (2 ^ 27 * L0_SPAN) in *. unfold L0_SPAN, PAGE_SIZE in *. nia. }
  assert (saturating_add (va0 + d) L0_SPAN = va0 + (d + L0_SPAN)) as ->.
  { unfold saturating_add. destruct (Z.ltb_spec (va0 + d + L0_SPAN) W64); lia. }
  split; [| simpl; unfold L0_SPAN, PAGE_SIZE in *; lia].
  exists (d + L0_SPAN). split_and!; try done; try lia.
  { unfold L0_SPAN, PAGE_SIZE in *. lia. }
  { by apply Z.divide_add_r; [| apply Z.divide_refl]. }
  intros va Ho. destruct (off_extend va0 d L0_SPAN va) as [_ Hor]; [lia | done | done |].
  apply Hor in Ho as [Ho | Ho].
  - destruct (Hres va Ho) as [u Hu]. exists u. by apply Hx.
  - exists t. rewrite <- (vpath_same_block (va0 + d) va); [done |].
    apply same_page_off; rewrite <- ?HL; [lia | by apply Z.divide_add_r | done].
Qed.

End Reserve.

(** [reserve_va_range] over a window that starts on a 2 MiB boundary
    terminates without panicking, changes no translation and keeps the page
    table well formed; when it succeeds every address of the window has its
    level-0 table, so a later leaf write cannot fail in the walk. *)
Theorem reserve_va_range_correct rt va0 va1 m (pages : P) :
  pt_wf m rt pages -> 0 <= va0 <= va1 -> va1 < W64 - L0_SPAN -> va1 - va0 <= 2 ^ 48 ->
  (L0_SPAN | va0) -> (PAGE_SIZE | va1) ->
  exists m' pages' r, reserve_va_range rt va0 va1 m pages = Some (Done (m', pages', r)) /\
    pt_wf m' rt pages' /\ unchanged rt m m' /\
    match r with
    | Ok _ => reserved rt m' va0 (va1 - va0)
    | Err _ => exists va, va0 <= va < va1 /\ blocked m' rt pages' va 0
    end.
Proof.
  intros Hwf Hva Hva1 Hlen Hd0 Hd1. unfold reserve_va_range.
  assert ((PAGE_SIZE | va0)) as Hp0 by (transitivity L0_SPAN; [by exists 512 | done]).
  rewrite !(proj2 (Z.mod_divide _ PAGE_SIZE ltac:(done))) by done. cbn [negb orb Z.eqb].
  destruct (while64_total (reserve_step rt va1) (reserve_inv rt va0 va1 m) (fun s => va1 + L0_SPAN - s.2)
    (reserve_post rt va0 va1 m) (m, pages, va0)) as (r & -> & m' & pages' & res & -> & Hext & Hres).
  - intros s Hs. by apply reserve_step_spec.
  - exists 0. split_and!; try done; try lia; [unfold L0_SPAN, PAGE_SIZE; lia | apply Z.divide_0_r |].
    intros va Hlt. pose proof (off_range va0 va). lia.
  - simpl. lia.
  - exists m', pages', res. split_and!; try done; [apply Hext |]. by apply (extends_unchanged rt m m' pages pages').
Qed.

(** ** Unmapping and leaf writes *)

Lemma zero_not_table : is_table 0 = false /\ is_valid 0 = false /\ is_u64 0.
Proof. done. Qed.

(** Clearing the entry of level [l] for [va] unmaps exactly its page. *)
Lemma clear_entry rt m (pages : P) va l t :
  pt_wf m rt pages -> 0 <= l <= 3 -> reaches m rt (vpath va l) t ->
  let m' := store m (pte_addr t (vpn va l)) 0 in
  pt_wf m' rt pages /\
  (forall va', is_u64 va' -> virt_to_phys m' rt va' =
    if decide (same_page l va va') then Done None else virt_to_phys m rt va') /\
  (forall va' l' raw, ~ same_page l va va' -> maps m' rt va' l' raw <-> maps m rt va' l' raw).
Proof.
  intros Hwf Hl Hr m'.
  destruct (leaf_write rt m m pages va l t 0) as (Hwf' & Hsame & Hother); try done.
  split_and!; [done | | done]. intros va' Hva'. destruct (decide _) as [Hs | Hs].
  - apply (virt_to_phys_none _ rt pages); try done. intros l' raw (_ & _ & Hv & _)%Hsame; done.
  - apply (virt_to_phys_ext m _ rt pages pages); try done. intros. by apply Hother.
Qed.

Lemma unmap_page_spec rt m (pages : P) va lvls :
  pt_wf m rt pages -> 1 <= lvls <= 4 ->
  exists m' r, unmap_page m rt va lvls = Done (m', r) /\ pt_wf m' rt pages /\
    match r with
    | Ok _ => (exists raw, maps m rt va (4 - lvls) raw) /\
        (forall va', is_u64 va' -> virt_to_phys m' rt va' =
          if decide (same_page (4 - lvls) va va') then Done None else virt_to_phys m rt va') /\
        (forall va' l raw, ~ same_page (4 - lvls) va va' -> maps m' rt va' l raw <-> maps m rt va' l raw)
    | Err _ => m' = m /\ forall raw, ~ maps m rt va (4 - lvls) raw
    end.
Proof.
  intros Hwf Hl. unfold unmap_page. rewrite target_level_spec by done.
  destruct (walk_to_table_spec m rt va (4 - lvls)) as (o & -> & Ho); [lia |]. cbn [pbind].
  destruct o as [t |].
  2: { exists m, (Err tt). split_and!; try done. intros raw [_ (t & Ht%Ho & _)]. done. }
  pose proof (proj1 (Ho t) eq_refl) as Ht. rewrite vpn_n_spec by lia. cbn [pbind].
  destruct (is_valid (entry m t (vpn va (4 - lvls))) && is_leaf (entry m t (vpn va (4 - lvls)))) eqn:E.
  - apply andb_true_iff in E as [Ev El]. rewrite Ev, El. cbn [negb orb].
    destruct (clear_entry rt m pages va (4 - lvls) t) as (Hwf' & Hv & Hot); [done | lia | done |].
    exists (store m (pte_addr t (vpn va (4 - lvls))) 0), (Ok tt). split_and!; try done.
    exists (entry m t (vpn va (4 - lvls))). split; [lia |]. by exists t.
  - exists m, (Err tt). split; [by destruct (is_valid _), (is_leaf _) |]. split_and!; try done.
    intros raw [_ (u & Hu & <- & Hv & Hf)]. rewrite (reach_unique _ _ _ _ _ Hu Ht) in Hv, Hf.
    by rewrite Hv, Hf in E.
Qed.

(** Mapping a page with [map_address_page] and unmapping it with
    [unmap_page] at the same address and granularity succeeds and restores
    every translation. *)
Theorem map_unmap_roundtrip rt c m m1 (pages pages1 : P) u :
  pt_wf m rt pages -> config_ok c -> map_address_page rt c m pages = Done (m1, pages1, Ok u) ->
  exists m2, unmap_page m1 rt (vaddr c) (levels c) = Done (m2, Ok tt) /\
    pt_wf m2 rt pages1 /\ unchanged rt m m2.
Proof.
  intros Hwf Hc E. pose proof (cfg_levels _ Hc).
  destruct (map_address_page_spec rt c m pages Hwf Hc) as (m' & pages' & r & E' & Hwf1 & Hr).
  rewrite E in E'. injection E' as <- <- <-. destruct Hr as (_ & Hmap & Hnone & Hleaf & _).
  destruct (unmap_page_spec rt m1 pages1 (vaddr c) (levels c) Hwf1 (cfg_levels _ Hc)) as (m2 & r2 & -> & Hwf2 & Hr2).
  destruct r2 as [[] | []]; [| destruct Hr2 as [_ Hno]; by destruct (Hno _ Hleaf)].
  exists m2. split_and!; try done. intros va Hva. destruct Hr2 as (_ & Hr2 & _).
  rewrite (Hr2 va Hva), (Hmap va Hva). destruct (decide _) as [Hs |]; [| done]. by rewrite Hnone.
Qed.

(** [write_leaf_pte] below an existing level-0 table. *)
Lemma write_leaf_pte_spec rt m (pages : P) va t pa perms rsw :
  pt_wf m rt pages -> reaches m rt (vpath va 0) t -> is_u64 pa -> (PAGE_SIZE | pa) -> is_leaf perms = true ->
  exists m', write_leaf_pte m rt va (Some pa) perms rsw = Done (m', Ok tt) /\ pt_wf m' rt pages /\
    forall va', is_u64 va' -> virt_to_phys m' rt va' =
      if decide (same_page 0 va va') then Done (Some (pa + va' mod PAGE_SIZE)) else virt_to_phys m rt va'.
Proof.
  intros Hwf Ht Hpa Hd Hperm. unfold write_leaf_pte.
  destruct (walk_to_table_spec m rt va 0) as (o & -> & Ho); [lia |]. cbn [pbind].
  rewrite (proj2 (Ho t) Ht), vpn_n_spec by lia. cbn [pbind]. eexists. split; [done |].
  assert (0 <= pa / PAGE_SIZE < 2 ^ 54) as Hppn.
  { unfold is_u64, W64, PAGE_SIZE in *. split; [apply Z.div_pos; lia | apply Z.div_lt_upper_bound; lia]. }
  destruct (pack_leaf_leaf _ perms rsw Hppn) as [Hv Hlf]. rewrite Hperm in Hlf.
  destruct (pack_leaf_base _ perms rsw Hppn) as [Hu _].
  destruct (leaf_write rt m m pages va 0 t (pack_leaf (pa / PAGE_SIZE) perms rsw))
    as (Hwf' & Hsame & Hother); try done; [unfold is_table; by rewrite Hv, Hlf |].
  split; [done |]. intros va' Hva'. destruct (decide _) as [Hs | Hs].
  - rewrite (virt_to_phys_is _ rt pages va' 0 (pack_leaf (pa / PAGE_SIZE) perms rsw)); try done.
    + rewrite phys_aligned; [done | lia | done | done].
    + by apply Hsame.
  - apply (virt_to_phys_ext m _ rt pages pages); try done. intros. by apply Hother.
Qed.

(** ** Unmapping a range *)

Definition range_unmapped (rt : RootTable) (va0 d : Z) (m m' : Mem) : Prop :=
  forall va, is_u64 va ->
    virt_to_phys m' rt va = if decide (off va0 va < d) then Done None else virt_to_phys m rt va.

(** The leaves of the pages past the first [d] bytes are as before. *)
Definition leaves_kept (rt : RootTable) (va0 d : Z) (m m' : Mem) : Prop :=
  forall va l raw, d <= off va0 va -> maps m' rt va l raw <-> maps m rt va l raw.

Lemma leaves_kept_step rt l va0 d m m1 m2 :
  0 <= l <= 3 -> (psize l | va0 + d) -> 0 <= d -> d + psize l <= 2 ^ 48 -> leaves_kept rt va0 d m m1 ->
  (forall va l' raw, ~ same_page l (va0 + d) va -> maps m2 rt va l' raw <-> maps m1 rt va l' raw) ->
  leaves_kept rt va0 (d + psize l) m m2.
Proof.
  intros Hl Hd Hd0 Hle Hk Hs va l' raw Ho. pose proof (psize_pos l ltac:(lia)).
  destruct (off_extend va0 d (psize l) va) as [_ He]; [lia | done | done |].
  rewrite Hs; [apply Hk; lia |]. rewrite (proj1 (same_page_off l (va0 + d) va Hl Hd)). lia.
Qed.

Section UnmapRange.
Context (rt : RootTable) (pages : P) (va0 va1 : Z) (m0 : Mem).
Hypothesis (Hva : 0 <= va0 <= va1) (Hva1 : va1 < W64) (Hlen : va1 - va0 <= 2 ^ 48).
Hypothesis (Hd0 : (PAGE_SIZE | va0)) (Hd1 : (PAGE_SIZE | va1)).

Definition unmap_inv (s : Mem * Z) : Prop :=
  let '(m, va) := s in
  exists d, va = va0 + d /\ 0 <= d <= va1 - va0 /\ (PAGE_SIZE | d) /\ pt_wf m rt pages /\
    range_unmapped rt va0 d m0 m /\ leaves_kept rt va0 d m0 m.

Definition unmap_post (r : panics (Mem * result unit unit)) : Prop :=
  exists m' res d, r = Done (m', res) /\ pt_wf m' rt pages /\ 0 <= d <= va1 - va0 /\
    (PAGE_SIZE | d) /\ range_unmapped rt va0 d m0 m' /\ leaves_kept rt va0 d m0 m' /\
    match res with
    | Ok _ => d = va1 - va0
    | Err _ => va0 + d < va1 /\ forall raw, ~ maps m' rt (va0 + d) 0 raw
    end.

Lemma unmap_range_step_spec s :
  unmap_inv s ->
  match unmap_range_step rt va1 s with
  | inl s' => unmap_inv s' /\ 0 <= va1 - s'.2 < va1 - s.2
  | inr r => unmap_post r
  end.
Proof.
  destruct s as [m va]. intros (d & -> & Hd & Hdiv & Hwf & Hun & Hk). unfold unmap_range_step.
  destruct (Z.ltb_spec (va0 + d) va1) as [Hlt | Hge].
  2: { exists m, (Ok tt), d. split_and!; try done; lia. }
  destruct (unmap_page_spec rt m pages (va0 + d) 4 Hwf ltac:(lia)) as (m' & r & -> & Hwf' & Hr).
  change (4 - 4) with 0 in Hr. destruct r as [[] | []].
  2: { destruct Hr as [-> Hno]. exists m, (Err tt), d. split_and!; try done; lia. }
  assert (d + PAGE_SIZE <= va1 - va0) as Hnext.
  { destruct Hdiv as [k ->], Hd0 as [k0 ->], Hd1 as [k1 ->]. unfold PAGE_SIZE in *. lia. }
  assert (0 < PAGE_SIZE) as Hps by done.
  rewrite wadd_small by lia. split; [| simpl; lia].
  destruct Hr as (_ & Hr & Hot).
  exists (d + PAGE_SIZE). split_and!; try done; try lia; [by apply Z.divide_add_r; [| apply Z.divide_refl] | |].
  2: { apply (leaves_kept_step rt 0 va0 d m0 m m'); change (psize 0) with PAGE_SIZE; try done; [| lia ..]. by apply Z.divide_add_r. }
  intros va Hu. rewrite (Hr va Hu), (Hun va Hu).
  destruct (same_page_off 0 (va0 + d) va) as [Hsp _]; [lia | by apply Z.divide_add_r |].
  change (psize 0) with PAGE_SIZE in Hsp.
  destruct (off_extend va0 d PAGE_SIZE va) as [_ Hor]; [lia | done | lia |].
  destruct (decide (same_page _ _ _)) as [Hs | Hs]; rewrite Hsp in Hs; [by rewrite decide_True by lia |].
  destruct (decide (off va0 va < d)); [rewrite decide_True by lia | rewrite decide_False by lia]; done.
Qed.

End UnmapRange.

(** [unmap_range] over a page-aligned range terminates without panicking
    and keeps the page table well formed: it unmaps a prefix of the range and
    changes no other translation; on success the prefix is the whole range,
    and on failure the first page after it has no 4 KiB leaf, so a superpage
    is never cleared by a finer unmap. *)
Theorem unmap_range_correct rt va0 va1 m (pages : P) :
  pt_wf m rt pages -> 0 <= va0 <= va1 -> va1 < W64 -> va1 - va0 <= 2 ^ 48 ->
  (PAGE_SIZE | va0) -> (PAGE_SIZE | va1) ->
  exists r, unmap_range m rt va0 va1 = Some r /\ unmap_post rt pages va0 va1 m r.
Proof.
  intros Hwf Hva Hva1 Hlen Hd0 Hd1. unfold unmap_range.
  rewrite !(proj2 (Z.mod_divide _ PAGE_SIZE ltac:(done))) by done. cbn [negb orb Z.eqb].
  apply (while64_total (unmap_range_step rt va1) (unmap_inv rt pages va0 va1 m) (fun s => va1 - s.2)).
  - intros s Hs. by apply unmap_range_step_spec.
  - exists 0. split_and!; try done; try lia; [apply Z.divide_0_r |].
    intros va _. pose proof (off_range va0 va). by rewrite decide_False by lia.
  - simpl. lia.
Qed.

End Map.

(** ** Teardown *)

(** The physical addresses of the tables below [t], children before parents. *)
Fixpoint tables_below (fuel : nat) (m : Mem) (rt : RootTable) (t : Z) : list Z :=
  match fuel with
  | O => []
  | S fuel' =>
      flat_map (fun i =>
        let e := entry m t i in
        if is_table e then tables_below fuel' m rt (next rt e) ++ [wshl (get_ppn e) 2] else [])
        (seqZ 0 PAGE_TABLE_ENTRY_COUNT)
  end.

(** The state [unmap] leaves: the listed frames freed in order. *)
Definition free_all (pages : PageAlloc) (l : list Z) : PageAlloc :=
  foldl (fun p pa => fst (free_page p pa)) pages l.

Section Teardown.
Context {P : Type} `{PageSourceLaws P} (m : Mem) (rt : RootTable) (src : P).
Hypothesis (Hwf : pt_wf m rt src).

(** The address the teardown computes for the table behind an entry. *)
Lemma child_pa p t i :
  reaches m rt p t -> 0 <= i < 512 -> is_table (entry m t i) = true ->
  let pa := wshl (get_ppn (entry m t i)) 2 in
  is_u64 pa /\ va_from_pa rt pa = next rt (entry m t i) /\ reaches m rt (p ++ [i]) (va_from_pa rt pa).
Proof.
  intros Hr Hi Ht pa. destruct (wf_entries _ _ _ Hwf p t i Hr Hi) as [He Hb].
  specialize (Hb Ht). assert (pa = wmul (pte_ppn (entry m t i)) PAGE_SIZE) as Hpa.
  { apply follow_agree. unfold is_u64 in He. lia. }
  assert (va_from_pa rt pa = next rt (entry m t i)) as Hn by (unfold next; by rewrite Hpa).
  split_and!; [apply u64_range | done |]. rewrite Hn. apply reach_snoc. exists t. split_and!; try done; lia.
Qed.

Lemma tables_below_reach fuel : forall p t pa,
  reaches m rt p t -> pa ∈ tables_below fuel m rt t ->
  is_u64 pa /\ exists i q, 0 <= i < 512 /\ reaches m rt (p ++ i :: q) (va_from_pa rt pa).
Proof.
  induction fuel as [| fuel IH]; intros p t pa Hr Hin; [by apply elem_of_nil in Hin |].
  cbn [tables_below] in Hin. apply list_elem_of_In, in_flat_map in Hin as (i & Hi & Hin).
  apply list_elem_of_In, elem_of_seqZ in Hi. unfold PAGE_TABLE_ENTRY_COUNT in Hi.
  destruct (is_table (entry m t i)) eqn:Et; [| done].
  destruct (child_pa p t i Hr ltac:(lia) Et) as (Hu & Hn & Hc).
  apply list_elem_of_In, elem_of_app in Hin as [Hin | Hin].
  - rewrite <- Hn in Hin. destruct (IH (p ++ [i]) _ pa Hc Hin) as (Hu' & j & q & Hj & Hq).
    split; [done |]. exists i, (j :: q). rewrite <- app_assoc in Hq. split; [lia | done].
  - apply list_elem_of_singleton in Hin as ->. split; [done |]. exists i, []. split; [lia | done].
Qed.

(** Reading the first index below [p] off a reached frame. *)
Lemma below_index p i q j r t :
  reaches m rt (p ++ i :: q) t -> reaches m rt (p ++ j :: r) t -> i = j /\ q = r.
Proof.
  intros Hi Hj. pose proof (wf_tree _ _ _ Hwf _ _ _ Hi Hj) as E. by apply app_inv_head in E as [= -> ->].
Qed.

Lemma NoDup_flat_map {A B} (f : A -> list B) l :
  NoDup l -> (forall x, x ∈ l -> NoDup (f x)) ->
  (forall x y b, x ∈ l -> y ∈ l -> b ∈ f x -> b ∈ f y -> x = y) -> NoDup (flat_map f l).
Proof.
  induction l as [| x l IH]; intros Hl Hf Hd; simpl; [constructor |].
  inversion Hl as [| ?? Hx Hl']; subst. apply NoDup_app. split_and!.
  - apply Hf. set_solver.
  - intros b Hb Hin. apply list_elem_of_In, in_flat_map in Hin as (y & Hy & Hin).
    apply list_elem_of_In in Hy, Hin. apply Hx. rewrite (Hd x y b); set_solver.
  - apply IH; [done | |]; intros; [apply Hf | eapply Hd]; set_solver.
Qed.

Lemma tables_below_NoDup fuel : forall p t, reaches m rt p t -> NoDup (tables_below fuel m rt t).
Proof.
  induction fuel as [| fuel IH]; intros p t Hr; [constructor |]. cbn [tables_below].
  assert (forall i pa, i ∈ seqZ 0 PAGE_TABLE_ENTRY_COUNT ->
    pa ∈ (if is_table (entry m t i)
          then tables_below fuel m rt (next rt (entry m t i)) ++ [wshl (get_ppn (entry m t i)) 2] else []) ->
    exists q, reaches m rt (p ++ i :: q) (va_from_pa rt pa)) as Hpath.
  { intros i pa Hi%elem_of_seqZ Hin. unfold PAGE_TABLE_ENTRY_COUNT in Hi.
    destruct (is_table (entry m t i)) eqn:Et; [| by apply elem_of_nil in Hin].
    destruct (child_pa p t i Hr ltac:(lia) Et) as (Hu & Hn & Hc).
    apply elem_of_app in Hin as [Hin | ->%list_elem_of_singleton]; [| by exists []].
    rewrite <- Hn in Hin. destruct (tables_below_reach fuel _ _ pa Hc Hin) as (_ & j & q & _ & Hq).
    exists (j :: q). by rewrite <- app_assoc in Hq. }
  apply NoDup_flat_map; [apply NoDup_seqZ | |].
  - intros i Hi. pose proof (Hpath i) as Hpi. apply elem_of_seqZ in Hi. unfold PAGE_TABLE_ENTRY_COUNT in Hi.
    destruct (is_table (entry m t i)) eqn:Et; [| constructor].
    destruct (child_pa p t i Hr ltac:(lia) Et) as (Hu & Hn & Hc). rewrite <- Hn.
    apply NoDup_app. split_and!; [by apply (IH (p ++ [i])) | | apply NoDup_singleton].
    intros pa Hin ->%list_elem_of_singleton.
    destruct (tables_below_reach fuel _ _ _ Hc Hin) as (_ & j & q & _ & Hq).
    rewrite <- app_assoc in Hq. destruct (below_index p i [] i (j :: q) _ Hc Hq) as [_ [=]].
  - intros i j pa Hi Hj Hpi Hpj. destruct (Hpath i pa Hi Hpi) as [q Hq], (Hpath j pa Hj Hpj) as [r Hr'].
    apply (below_index p i q j r _ Hq Hr').
Qed.

Lemma tables_below_complete fuel : forall p t i q u,
  reaches m rt p t -> reaches m rt (p ++ i :: q) u -> (length q < fuel)%nat ->
  wsub u (pa_to_va_bias rt) ∈ tables_below fuel m rt t.
Proof.
  induction fuel as [| fuel IH]; intros p t i q u Hr Hu Hlen; [lia |].
  replace (p ++ i :: q) with ((p ++ [i]) ++ q) in Hu by (by rewrite <- app_assoc).
  destruct (reach_prefix _ _ _ _ _ Hu) as [w Hw].
  pose proof Hw as (t' & Ht' & Hi & Et & Ew)%reach_snoc.
  rewrite (reach_unique _ _ _ _ _ Ht' Hr) in *. clear Ht'.
  destruct (child_pa p t i Hr Hi Et) as (Hpa & Hn & Hc).
  cbn [tables_below]. apply list_elem_of_In, in_flat_map. exists i.
  split; [apply list_elem_of_In, elem_of_seqZ; unfold PAGE_TABLE_ENTRY_COUNT; lia |].
  rewrite Et. apply list_elem_of_In, elem_of_app. destruct q as [| j q].
  - right. apply list_elem_of_singleton. rewrite app_nil_r in Hu.
    rewrite (reach_unique _ _ _ _ _ Hu Hc). unfold va_from_pa. by apply wsub_wadd.
  - left. rewrite Ew in Hw. apply (IH (p ++ [i]) _ j q); try done. simpl in Hlen. lia.
Qed.

Lemma free_all_app pages l1 l2 : free_all pages (l1 ++ l2) = free_all (free_all pages l1) l2.
Proof. apply foldl_app. Qed.

Lemma foldl_free_all {A} (F : option PageAlloc -> A -> option PageAlloc) (g : A -> list Z) l : forall pages,
  (forall x pages, x ∈ l -> F (Some pages) x = Some (free_all pages (g x))) ->
  foldl F (Some pages) l = Some (free_all pages (flat_map g l)).
Proof.
  induction l as [| x l IH]; intros pages HF; simpl; [done |].
  rewrite HF by set_solver. rewrite free_all_app. apply IH. intros. apply HF. set_solver.
Qed.

Lemma unmap_subtree_spec fuel : forall p t pages,
  reaches m rt p t -> (4 <= length p + fuel)%nat ->
  unmap_subtree fuel m (mkRootTable t (pa_to_va_bias rt)) pages = Some (free_all pages (tables_below fuel m rt t)).
Proof.
  induction fuel as [| fuel IH]; intros p t pages Hr Hlen.
  { pose proof (wf_depth _ _ _ Hwf p t Hr). lia. }
  cbn [unmap_subtree tables_below rt_table pa_to_va_bias]. apply foldl_free_all.
  intros i pages' Hi%elem_of_seqZ. unfold PAGE_TABLE_ENTRY_COUNT in Hi.
  assert (negb (is_valid (entry m t i)) || is_leaf (entry m t i) = negb (is_table (entry m t i))) as ->
    by (unfold is_table; by destruct (is_valid _), (is_leaf _)).
  destruct (is_table (entry m t i)) eqn:Et; cbn [negb]; [| done].
  destruct (child_pa p t i Hr ltac:(lia) Et) as (_ & Hn & Hc).
  change (va_from_pa (mkRootTable t (pa_to_va_bias rt)) ?x) with (va_from_pa rt x).
  rewrite (IH (p ++ [i]) _ pages' Hc) by (rewrite length_app; simpl; lia).
  rewrite free_all_app, Hn. done.
Qed.

End Teardown.

(** C25. Tearing a well-formed page table down with [unmap] terminates at the
    Sv48 depth and frees the frame of every table below the root exactly once
    and nothing else: the root, the leaf-backed pages and foreign frames are
    not touched. *)
Theorem unmap_frees_tables_once m rt (src : PageAlloc) pages :
  pt_wf m rt src ->
  exists l, unmap m rt pages = Some (free_all pages l) /\ NoDup l /\
    forall pa, pa ∈ l <-> exists p t, p <> [] /\ reaches m rt p t /\ pa = wsub t (pa_to_va_bias rt).
Proof.
  intros Hwf. assert (reaches m rt [] (rt_table rt)) as Hroot by (by split; [constructor |]).
  exists (tables_below 4 m rt (rt_table rt)). split_and!.
  - unfold unmap. rewrite <- (unmap_subtree_spec m rt src Hwf 4 []) by (done || simpl; lia). by destruct rt.
  - by apply (tables_below_NoDup m rt src Hwf 4 []).
  - intros pa. split.
    + intros Hin. destruct (tables_below_reach m rt src Hwf 4 [] _ pa Hroot Hin) as (Hu & i & q & _ & Hq).
      exists (i :: q), (va_from_pa rt pa). split_and!; try done. unfold va_from_pa. by rewrite wsub_wadd.
    + intros (p & t & Hp & Hr & ->). destruct p as [| i q]; [done |].
      apply (tables_below_complete m rt src Hwf 4 [] _ i q); try done.
      pose proof (wf_depth _ _ _ Hwf _ _ Hr) as Hd. simpl in Hd. lia.
Qed.

(** ** A fresh root *)

(** A zeroed root table is well formed. *)
Lemma fresh_root_wf {P} `{PageSourceLaws P} m rt (pages : P) :
  is_u64 (rt_table rt) -> (4096 | rt_table rt) -> is_u64 (pa_to_va_bias rt) -> (4096 | pa_to_va_bias rt) ->
  (forall i, 0 <= i < 512 -> entry m (rt_table rt) i = 0) ->
  psrc_inv pages -> (forall x, psrc_free pages x -> 0 <= x < 2 ^ 56) ->
  ~ psrc_free pages (wsub (rt_table rt) (pa_to_va_bias rt)) ->
  pt_wf m rt pages.
Proof.
  intros Hu Hd Hbu Hbd Hz Hinv Hb Hown.
  assert (forall p t, reaches m rt p t -> p = [] /\ t = rt_table rt) as Hr.
  { intros [| i p] t [Hi E]; [by injection E as <- |]. inversion Hi as [| ?? Hi0 _]; subst. simpl in E.
    unfold step in E. rewrite Hz in E by done. done. }
  split; try done.
  - intros p t [-> _]%Hr. simpl. lia.
  - intros p q t [-> _]%Hr [-> _]%Hr. done.
  - intros p t i [_ ->]%Hr Hi. rewrite Hz by done. done.
  - intros p t [_ ->]%Hr. done.
Qed.

(** A kernel-like example: a biased root and sixteen table frames. *)
Definition ex_rt : RootTable := mkRootTable 0xFFC080200000 0xFFC000000000.
Definition ex_pages : PageAlloc := PTV (mkPageTableVec 0x80201000 16 0).
Definition ex_rw : Z := perm_or PR PW.

(** A 2 MiB page in the upper half of the address space. *)
Definition ex_config : MappingConfig :=
  mkMappingConfig ex_rw 3 (2 * MB) 0xFFFFFFC000200000 0x80400000 false SharedRevocable.

Lemma ex_pt_wf : pt_wf ∅ ex_rt ex_pages.
Proof.
  apply fresh_root_wf; try done.
  - by exists (0xFFC080200000 / 4096).
  - by exists (0xFFC000000000 / 4096).
  - split_and!; try done. by exists (0x80201000 / 4096).
  - intros x. cbn. lia.
  - cbn. vm_compute (wsub _ _). lia.
Qed.

Lemma ex_config_ok : config_ok ex_config.
Proof. by split. Qed.

Definition succeeded {A B} (r : panics (A * result B unit)) : bool :=
  match r with Done (_, Ok _) => true | _ => false end.

Lemma map_address_page_correct_witness :
  exists m' pages', map_address_page ex_rt ex_config ∅ ex_pages = Done (m', pages', Ok tt) /\
    virt_to_phys m' ex_rt 0xFFFFFFC000212345 = Done (Some 0x80412345).
Proof.
  destruct (map_address_page_correct ex_rt ex_config ∅ ex_pages ex_pt_wf ex_config_ok)
    as (m' & pages' & r & E & _ & Hr).
  assert (succeeded (map_address_page ex_rt ex_config ∅ ex_pages) = true) as Hok by (by vm_compute).
  rewrite E in Hok. destruct r as [[] |]; [| discriminate Hok]. exists m', pages'. split; [exact E |].
  destruct Hr as (_ & Hm & _). etransitivity; [apply Hm; split; [discriminate | reflexivity] |].
  destruct (decide _) as [_ | Hs]; [vm_compute; reflexivity | destruct Hs; vm_compute; reflexivity].
Defined.

Lemma map_unmap_roundtrip_witness :
  exists m1 pages1 m2, map_address_page ex_rt ex_config ∅ ex_pages = Done (m1, pages1, Ok tt) /\
    unmap_page m1 ex_rt (vaddr ex_config) 3 = Done (m2, Ok tt) /\ unchanged ex_rt ∅ m2.
Proof.
  assert (succeeded (map_address_page ex_rt ex_config ∅ ex_pages) = true) as Hok by (by vm_compute).
  destruct (map_address_page ex_rt ex_config ∅ ex_pages) as [[[m1 pages1] [[] |]] |] eqn:E;
    [| discriminate Hok | discriminate Hok].
  destruct (map_unmap_roundtrip ex_rt ex_config ∅ m1 ex_pages pages1 tt ex_pt_wf ex_config_ok E)
    as (m2 & Hu & _ & Hun).
  exists m1, pages1, m2. split_and!; [reflexivity | exact Hu | exact Hun].
Defined.

Lemma map_va_range_correct_witness :
  exists r, map_va_range ex_rt ex_config 0xFFFFFFC0001FE000 0x803FE000 0x80603000 ∅ ex_pages = Some r /\
    range_post ex_rt 0xFFFFFFC0001FE000 0x803FE000 0x80603000 ∅ r.
Proof.
  apply (map_va_range_correct ex_rt ex_config 0xFFFFFFC0001FE000 0x803FE000 0x80603000 ∅ ex_pages ex_pt_wf);
    [reflexivity | lia | lia | reflexivity | reflexivity | discriminate | by apply Z.mod_divide | by apply Z.mod_divide].
Defined.

Lemma reserve_va_range_correct_witness :
  exists m' pages' r,
    reserve_va_range ex_rt 0xFFFFFFC000200000 0xFFFFFFC000500000 ∅ ex_pages = Some (Done (m', pages', r)) /\
    unchanged ex_rt ∅ m'.
Proof.
  destruct (reserve_va_range_correct ex_rt 0xFFFFFFC000200000 0xFFFFFFC000500000 ∅ ex_pages ex_pt_wf)
    as (m' & pages' & r & E & _ & Hun & _);
    [lia | reflexivity | discriminate | by apply Z.mod_divide | by apply Z.mod_divide |].
  exists m', pages', r. split; [exact E | exact Hun].
Defined.

Lemma unmap_range_correct_witness :
  exists r, unmap_range ∅ ex_rt 0xFFFFFFC000200000 0xFFFFFFC000204000 = Some r /\
    unmap_post ex_rt ex_pages 0xFFFFFFC000200000 0xFFFFFFC000204000 ∅ r.
Proof.
  apply (unmap_range_correct ex_rt 0xFFFFFFC000200000 0xFFFFFFC000204000 ∅ ex_pages ex_pt_wf);
    [lia | reflexivity | discriminate | by apply Z.mod_divide | by apply Z.mod_divide].
Defined.

Lemma unmap_frees_tables_once_witness :
  exists l, unmap ∅ ex_rt ex_pages = Some (free_all ex_pages l) /\ NoDup l.
Proof.
  destruct (unmap_frees_tables_once ∅ ex_rt ex_pages ex_pages ex_pt_wf) as (l & Hl & Hn & _).
  exists l. split; [exact Hl | exact Hn].
Defined.

(** [reserve_va_range] advances by 2 MiB from its start without rounding the
    start down: a window that starts just below a 2 MiB boundary and ends just
    above it gets the table of its first page only. *)
Example reserve_misses_tail :
  match reserve_va_range ex_rt 0x1FF000 0x201000 ∅ ex_pages with
  | Some (Done (m', _, Ok _)) =>
      walk_to_table m' ex_rt 0x1FF000 0 <> Done None /\ walk_to_table m' ex_rt 0x200000 0 = Done None
  | _ => False
  end.
Proof. vm_compute. split; [done | reflexivity]. Qed.
