(* ===== verification/Layout.v ===== *)
(** * The user address-space layout

    Models [orbit-abi/src/layout.rs]: the region constants, the per-thread slot
    geometry (stack, TLS, guard, trap frame) and the range checks every system
    call applies to a user address. *)

From stdpp Require Import base list option numbers sets gmap.
From S2P Require Import Prelude.
#[local] Open Scope Z_scope.

Definition UPAGE_SIZE : Z := 4096.
Definition LARGE_PAGE : Z := 2 * 1024 * 1024.
Definition USER_NULL_GUARD_END : Z := LARGE_PAGE.
Definition UPROC_STACK_BASE : Z := 0x10000000.
Definition UPROC_STACK_STRIDE : Z := 16 * LARGE_PAGE.
Definition UPROC_STACK_GRAIN : Z := LARGE_PAGE.
Definition UPROC_STACK_MIN : Z := UPROC_STACK_GRAIN.
Definition UPROC_STACK_MAX : Z := UPROC_STACK_STRIDE - 2 * UPROC_STACK_GRAIN.
Definition UPROC_STACK_DEFAULT : Z := UPROC_STACK_GRAIN.
Definition UPROC_TLS_MAX : Z := UPROC_STACK_GRAIN.

(** [slot] is a u16; the sums below stay far from the word width. *)
Definition user_stack_slot_base (slot : Z) : Z := wadd UPROC_STACK_BASE (wmul slot UPROC_STACK_STRIDE).
Definition user_stack_slot_top (slot : Z) : Z := wadd (user_stack_slot_base slot) UPROC_STACK_STRIDE.
Definition user_stack_vaddr (slot stack_size : Z) : Z := user_stack_slot_base slot.
Definition user_stack_sp_init (slot stack_size : Z) : Z :=
  let top := wadd (user_stack_slot_base slot) stack_size in
  Z.land (wsub top 16) (wnot 0xF).
Definition user_stack_guard_vaddr (slot : Z) : Z := wsub (user_stack_slot_top slot) UPROC_STACK_GRAIN.
Definition user_stack_guard_size (stack_size : Z) : Z := UPROC_STACK_GRAIN.
Definition user_tls_vaddr (slot : Z) : Z := wsub (user_stack_slot_top slot) (2 * UPROC_STACK_GRAIN).
Definition validate_user_stack_size (size : Z) : bool :=
  (UPROC_STACK_MIN <=? size) && (size <=? UPROC_STACK_MAX) && (size mod UPROC_STACK_GRAIN =? 0).

Definition USER_TEXT_BASE : Z := 0x220000000.
Definition USER_ARGV_BASE : Z := 0x2FFFFF000.
Definition USER_ARGV_LEN : Z := UPAGE_SIZE.
Definition USER_ENVP_BASE : Z := 0x2FFFFE000.
Definition USER_ENVP_LEN : Z := UPAGE_SIZE.
Definition UPROC_PRIV_BASE : Z := 0x300000000.
Definition UPROC_PRIV_END : Z := 0x400000000000.
Definition UPROC_SHARED_BASE : Z := UPROC_PRIV_END.
Definition UPROC_SHARED_END : Z := 0x7E0000000000.
Definition USER_TRAP_FRAME_BASE : Z := UPROC_SHARED_END.
Definition USER_TRAP_FRAME_STRIDE : Z := UPAGE_SIZE.
Definition user_trap_frame_vaddr (slot : Z) : Z :=
  wadd USER_TRAP_FRAME_BASE (wmul slot USER_TRAP_FRAME_STRIDE).
Definition USER_VA_END : Z := USER_TRAP_FRAME_BASE.

Definition user_range_ok (vaddr len : Z) : bool :=
  if vaddr <? USER_NULL_GUARD_END then false
  else match checked_add vaddr len with
       | Some end_ => end_ <=? USER_VA_END
       | None => false
       end.

Definition user_priv_range_ok (vaddr len : Z) : bool :=
  if vaddr <? UPROC_PRIV_BASE then false
  else match checked_add vaddr len with
       | Some end_ => end_ <=? UPROC_PRIV_END
       | None => false
       end.

Definition user_shared_range_ok (vaddr len : Z) : bool :=
  if vaddr <? UPROC_SHARED_BASE then false
  else match checked_add vaddr len with
       | Some end_ => end_ <=? UPROC_SHARED_END
       | None => false
       end.

(** [UserVa::new]. *)
Definition UserVa_new (raw : Z) : result Z Z :=
  if user_range_ok raw 1 then Ok raw else Err raw.

(** [UserVa::wrapping_add]. *)
Definition UserVa_wrapping_add (va off : Z) : Z := wadd va off.

(** ** Regions *)

(** A half-open address range. *)
Record region := mkRegion { r_lo : Z; r_hi : Z }.

Definition disjoint_r (a b : region) : Prop := r_hi a <= r_lo b \/ r_hi b <= r_lo a.
Definition inside (a b : region) : Prop := r_lo b <= r_lo a /\ r_lo a <= r_hi a /\ r_hi a <= r_hi b.

Definition stack_region (slot size : Z) : region :=
  mkRegion (user_stack_vaddr slot size) (user_stack_vaddr slot size + size).
Definition tls_region (slot : Z) : region := mkRegion (user_tls_vaddr slot) (user_tls_vaddr slot + UPROC_TLS_MAX).
Definition guard_region (slot size : Z) : region :=
  mkRegion (user_stack_guard_vaddr slot) (user_stack_guard_vaddr slot + user_stack_guard_size size).
Definition frame_region (slot : Z) : region :=
  mkRegion (user_trap_frame_vaddr slot) (user_trap_frame_vaddr slot + USER_TRAP_FRAME_STRIDE).

(** What a thread in [slot] with a stack of [size] bytes occupies. *)
Definition slot_regions (slot size : Z) : list region :=
  [stack_region slot size; tls_region slot; guard_region slot size; frame_region slot].

(** The kernel-managed and user-controlled regions, low to high. *)
Definition null_guard : region := mkRegion 0 USER_NULL_GUARD_END.
Definition stack_area : region := mkRegion UPROC_STACK_BASE (user_stack_slot_base 256).
Definition text_area : region := mkRegion USER_TEXT_BASE USER_ENVP_BASE.
Definition envp_area : region := mkRegion USER_ENVP_BASE (USER_ENVP_BASE + USER_ENVP_LEN).
Definition argv_area : region := mkRegion USER_ARGV_BASE (USER_ARGV_BASE + USER_ARGV_LEN).
Definition priv_area : region := mkRegion UPROC_PRIV_BASE UPROC_PRIV_END.
Definition shared_area : region := mkRegion UPROC_SHARED_BASE UPROC_SHARED_END.
Definition frame_area : region := mkRegion USER_TRAP_FRAME_BASE (user_trap_frame_vaddr 256).

Definition areas : list region :=
  [null_guard; stack_area; text_area; envp_area; argv_area; priv_area; shared_area; frame_area].

(** Consecutive areas do not overlap and the last ends in the low Sv48 half. *)
Fixpoint ascending (lo : Z) (l : list region) : bool :=
  match l with
  | [] => lo <=? 2 ^ 47
  | r :: l' => (lo <=? r_lo r) && (r_lo r <? r_hi r) && ascending (r_hi r) l'
  end.

Lemma slot_base_val slot : 0 <= slot <= 256 -> user_stack_slot_base slot = 0x10000000 + slot * 0x2000000.
Proof.
  intros Hs. unfold user_stack_slot_base. change UPROC_STACK_BASE with 0x10000000.
  change UPROC_STACK_STRIDE with 0x2000000. rewrite wmul_small, wadd_small by (unfold W64; lia). done.
Qed.

Lemma slot_top_val slot : 0 <= slot < 256 -> user_stack_slot_top slot = 0x12000000 + slot * 0x2000000.
Proof.
  intros Hs. unfold user_stack_slot_top. rewrite slot_base_val by lia.
  change UPROC_STACK_STRIDE with 0x2000000. rewrite wadd_small by (unfold W64; lia). lia.
Qed.

Lemma frame_val slot : 0 <= slot <= 256 -> user_trap_frame_vaddr slot = 0x7E0000000000 + slot * 4096.
Proof.
  intros Hs. unfold user_trap_frame_vaddr. change USER_TRAP_FRAME_BASE with 0x7E0000000000.
  change USER_TRAP_FRAME_STRIDE with 4096. rewrite wmul_small, wadd_small by (unfold W64; lia). done.
Qed.

Lemma guard_val slot : 0 <= slot < 256 -> user_stack_guard_vaddr slot = 0x11E00000 + slot * 0x2000000.
Proof.
  intros Hs. unfold user_stack_guard_vaddr. rewrite slot_top_val by lia.
  change UPROC_STACK_GRAIN with 0x200000. rewrite wsub_small by (unfold W64; lia). lia.
Qed.

Lemma tls_val slot : 0 <= slot < 256 -> user_tls_vaddr slot = 0x11C00000 + slot * 0x2000000.
Proof.
  intros Hs. unfold user_tls_vaddr. rewrite slot_top_val by lia.
  change (2 * UPROC_STACK_GRAIN) with 0x400000. rewrite wsub_small by (unfold W64; lia). lia.
Qed.

Lemma stack_size_val size : validate_user_stack_size size = true -> 0x200000 <= size <= 0x1C00000 /\ size mod 0x200000 = 0.
Proof.
  unfold validate_user_stack_size. change UPROC_STACK_MIN with 0x200000.
  change UPROC_STACK_MAX with 0x1C00000. change UPROC_STACK_GRAIN with 0x200000. intros. to_prop. lia.
Qed.

(** Rewrites the slot geometry of every slot in sight to numbers. *)
Ltac slot_numbers :=
  unfold stack_region, tls_region, guard_region, frame_region, disjoint_r, inside, stack_area, frame_area,
    user_stack_vaddr, user_stack_guard_size in *;
  cbn [r_lo r_hi] in *;
  rewrite ?slot_base_val, ?tls_val, ?guard_val, ?frame_val by lia;
  change UPROC_TLS_MAX with 0x200000; change UPROC_STACK_GRAIN with 0x200000;
  change USER_TRAP_FRAME_STRIDE with 4096; change UPROC_STACK_BASE with 0x10000000;
  change USER_TRAP_FRAME_BASE with 0x7E0000000000.

Lemma land_align16 a : is_u64 a -> a mod 16 = 0 -> Z.land a (wnot 0xF) = a.
Proof.
  intros Ha Hm. apply Z.mod_divide in Hm as [k ->]; [| lia]. unfold is_u64, W64 in Ha.
  change (wnot 0xF) with (Z.shiftl (Z.ones 60) 4). change 16 with (2 ^ 4) in *.
  rewrite <- Z.shiftl_mul_pow2, <- Z.shiftl_land, Z.land_ones, Z.mod_small by lia. done.
Qed.

Lemma sp_init_val slot size :
  0 <= slot < 256 -> 0x200000 <= size <= 0x1C00000 -> size mod 0x200000 = 0 ->
  user_stack_sp_init slot size = 0x10000000 + slot * 0x2000000 + size - 16.
Proof.
  intros Hs Hz Hm. apply Z.mod_divide in Hm as [k ->]; [| lia].
  unfold user_stack_sp_init. rewrite slot_base_val, wadd_small, wsub_small by (unfold W64; lia).
  apply land_align16; [unfold is_u64, W64; lia |].
  apply Z.mod_divide; [lia |]. exists (0x1000000 + slot * 0x200000 + k * 0x20000 - 1). lia.
Qed.

(** The memory map is sound. The areas of the user half are pairwise
    disjoint, in order, below 2^47. For any two thread slots with valid stack
    sizes, the stack, TLS, guard and trap-frame regions of one are disjoint
    from those of the other and from each other, each inside its area; the
    initial stack pointer is 16-byte aligned inside the stack; and the byte
    below a stack is never mapped: it is the guard of the slot below, or the
    gap under slot 0. *)
Theorem slot_layout_sound s1 z1 s2 z2 :
  0 <= s1 < 256 -> 0 <= s2 < 256 -> validate_user_stack_size z1 = true -> validate_user_stack_size z2 = true ->
  ascending 0 areas = true /\
  (forall i j r1 r2, slot_regions s1 z1 !! i = Some r1 -> slot_regions s2 z2 !! j = Some r2 ->
     (s1, i) <> (s2, j) -> disjoint_r r1 r2) /\
  (forall r, r ∈ slot_regions s1 z1 -> inside r stack_area \/ inside r frame_area) /\
  (user_stack_vaddr s1 z1 <= user_stack_sp_init s1 z1 < user_stack_vaddr s1 z1 + z1 /\
   user_stack_sp_init s1 z1 mod 16 = 0) /\
  (if s1 =? 0 then user_stack_vaddr s1 z1 = UPROC_STACK_BASE
   else r_hi (guard_region (s1 - 1) z2) = user_stack_vaddr s1 z1).
Proof.
  intros H1 H2 [Hz1 Hm1]%stack_size_val [Hz2 Hm2]%stack_size_val. split_and!.
  - by vm_compute.
  - intros i j r1 r2 Hi Hj Hne. assert (s1 <> s2 \/ i <> j) as Hd.
    { destruct (decide (s1 = s2)) as [-> |]; [right | by left]. intros ->. by apply Hne. }
    destruct i as [| [| [| [| i]]]]; simplify_eq/=; destruct j as [| [| [| [| j]]]]; simplify_eq/=;
      slot_numbers; lia.
  - intros r Hr. unfold slot_regions in Hr.
    apply elem_of_cons in Hr as [-> | Hr]; [left; slot_numbers; lia |].
    apply elem_of_cons in Hr as [-> | Hr]; [left; slot_numbers; lia |].
    apply elem_of_cons in Hr as [-> | Hr]; [left; slot_numbers; lia |].
    apply list_elem_of_singleton in Hr as ->. right. slot_numbers. lia.
  - rewrite (sp_init_val s1 z1) by done. slot_numbers. lia.
  - rewrite (sp_init_val s1 z1) by done. slot_numbers. lia.
  - rewrite (sp_init_val s1 z1) by done. apply Z.mod_divide in Hm1 as [k ->]; [| lia].
    apply Z.mod_divide; [lia |]. exists (0x1000000 + s1 * 0x200000 + k * 0x20000 - 1). lia.
  - destruct (Z.eqb_spec s1 0) as [-> |]; slot_numbers; [done | lia].
Qed.

Lemma slot_layout_sound_witness :
  disjoint_r (stack_region 3 UPROC_STACK_MAX) (guard_region 2 UPROC_STACK_DEFAULT).
Proof.
  destruct (slot_layout_sound 3 UPROC_STACK_MAX 2 UPROC_STACK_DEFAULT) as (_ & Hd & _);
    [lia | lia | reflexivity | reflexivity |].
  by apply (Hd 0%nat 2%nat).
Defined.

(** The three range checks are exact: a check accepts precisely the ranges
    whose every byte lies in its area (the whole user space for
    [user_range_ok]), so no accepted range overflows, touches the null guard,
    or reaches the kernel-private trap frames; and no non-empty range passes
    both the private and the shared check. *)
Theorem range_checks_exact va len :
  is_u64 va -> is_u64 len ->
  (user_range_ok va len = true <-> inside (mkRegion va (va + len)) (mkRegion USER_NULL_GUARD_END USER_VA_END)) /\
  (user_priv_range_ok va len = true <-> inside (mkRegion va (va + len)) priv_area) /\
  (user_shared_range_ok va len = true <-> inside (mkRegion va (va + len)) shared_area) /\
  (user_priv_range_ok va len = true -> user_shared_range_ok va len = true -> len = 0).
Proof.
  intros Hva Hlen. unfold is_u64 in *.
  assert (forall lo hi, 0 <= lo -> hi < W64 ->
    (if va <? lo then false
     else match checked_add va len with Some e => e <=? hi | None => false end) = true <->
    inside (mkRegion va (va + len)) (mkRegion lo hi)) as Hck.
  { intros lo hi Hlo Hhi. unfold inside, checked_add. cbn [r_lo r_hi].
    destruct (Z.ltb_spec va lo), (Z.ltb_spec (va + len) W64); try (split; [done | lia]).
    rewrite Z.leb_le. lia. }
  assert (user_priv_range_ok va len = true <-> inside (mkRegion va (va + len)) priv_area) as Hp by (by apply Hck).
  assert (user_shared_range_ok va len = true <-> inside (mkRegion va (va + len)) shared_area) as Hs by (by apply Hck).
  split_and!; [by apply Hck | done | done |]. rewrite Hp, Hs.
  unfold inside, priv_area, shared_area. cbn [r_lo r_hi]. change UPROC_SHARED_BASE with UPROC_PRIV_END. lia.
Qed.

Lemma range_checks_exact_witness :
  user_range_ok USER_NULL_GUARD_END (USER_VA_END - USER_NULL_GUARD_END) = true.
Proof.
  apply (range_checks_exact USER_NULL_GUARD_END (USER_VA_END - USER_NULL_GUARD_END));
    [split; [discriminate | reflexivity] | split; [discriminate | reflexivity] |].
  split; [| split]; discriminate.
Defined.
