(* ===== verification/Abi.v ===== *)
(** * The system-call ABI ([orbit-abi/src/syscall.rs], [errno.rs], [handle.rs])

    System-call numbers, the [Sysno] enumeration with its decoding and its dense
    ordinals, the errno convention of return values, and the handle kinds. *)

From stdpp Require Import base list option numbers sets gmap.
From S2P Require Import Prelude.

#[local] Open Scope Z_scope.

(** ** System-call numbers *)

Module sysno.

Definition EXIT : Z := 0.
Definition SERIAL_PRINT : Z := 1.
Definition SLEEP_MS : Z := 2.
Definition CONSOLE_WRITE : Z := 3.
Definition READ_STDIN : Z := 4.
Definition SET_AFFINITY : Z := 5.
Definition GET_AFFINITY : Z := 6.
Definition GET_HART_ID : Z := 7.
Definition GET_MICROS : Z := 8.
Definition PLEDGE : Z := 9.
Definition GET_REALTIME : Z := 10.
Definition THREAD_EXIT : Z := 11.
Definition READ_KEY_EVENT : Z := 12.
Definition MMAP : Z := 4096.
Definition CREATE_NETCH : Z := 4097.
Definition CLOSE_HANDLE : Z := 4098.
Definition CREATE_PROCESS : Z := 4099.
Definition CH_YIELD : Z := 4100.
Definition QUERY_STATS : Z := 4101.
Definition QUERY_SYSCALL_STATS : Z := 4102.
Definition CREATE_PROCESS_EX : Z := 4103.
Definition ARGV_ENVP : Z := 4104.
Definition CREATE_PROCESS_V2 : Z := 4105.
Definition QUERY_DENIAL_LOG : Z := 4106.
Definition CHDIR : Z := 4107.
Definition GETCWD : Z := 4108.
Definition GETUID : Z := 4109.
Definition GETEUID : Z := 4110.
Definition GETGID : Z := 4111.
Definition GETEGID : Z := 4112.
Definition GETGROUPS : Z := 4113.
Definition GETLOGIN : Z := 4114.
Definition SETUID : Z := 4115.
Definition SETGID : Z := 4116.
Definition SETGROUPS : Z := 4117.
Definition SETLOGIN : Z := 4118.
Definition CH_INSPECT : Z := 4119.
Definition CREATE_THREAD : Z := 5000.
Definition GETPID : Z := 5001.
Definition GETTID : Z := 5002.
Definition WAIT_PID : Z := 5003.
Definition FUTEX_WAIT : Z := 5004.
Definition FUTEX_WAKE : Z := 5005.
Definition WAKE_TID : Z := 5006.
Definition FS_OPEN : Z := 6000.
Definition FS_READ : Z := 6001.
Definition FS_STAT : Z := 6002.
Definition FS_READDIR : Z := 6003.
Definition FS_SEEK : Z := 6004.
Definition FS_FSTAT : Z := 6005.
Definition FB_QUERY : Z := 7000.
Definition FB_SURFACE_CREATE : Z := 7001.
Definition FB_SURFACE_DESTROY : Z := 7002.
Definition FB_PRESENT : Z := 7003.
Definition DUP : Z := 8000.
Definition DUP2 : Z := 8001.
Definition FCNTL : Z := 8002.
Definition FSTAT : Z := 8003.
Definition EVENTFD : Z := 8004.
Definition POLL : Z := 8005.
Definition PIPE : Z := 8006.
Definition PIDFD_OPEN : Z := 8007.
End sysno.

(** The dispatchable system calls. *)
Inductive Sysno :=
| Exit
| SerialPrint
| SleepMs
| ConsoleWrite
| ReadStdin
| SetAffinity
| GetAffinity
| GetHartId
| GetMicros
| GetRealtime
| ThreadExit
| ReadKeyEvent
| Pledge
| Mmap
| CreateNetch
| CloseHandle
| CreateProcess
| ChYield
| QueryStats
| QuerySyscallStats
| CreateProcessEx
| ArgvEnvp
| CreateProcessV2
| QueryDenialLog
| Chdir
| Getcwd
| GetUid
| GetEuid
| GetGid
| GetEgid
| GetGroups
| GetLogin
| SetUid
| SetGid
| SetGroups
| SetLogin
| ChInspect
| CreateThread
| GetPid
| GetTid
| WaitPid
| FutexWait
| FutexWake
| FsOpen
| FsRead
| FsStat
| FsReaddir
| FsSeek
| FsFstat
| FbQuery
| FbSurfaceCreate
| FbSurfaceDestroy
| FbPresent
| WakeTid
| Dup
| Dup2
| Fcntl
| Fstat
| Eventfd.

(** The discriminant of each variant ([#[repr(usize)]]). *)
Definition sysno_number (s : Sysno) : Z :=
  match s with
  | Exit => sysno.EXIT
  | SerialPrint => sysno.SERIAL_PRINT
  | SleepMs => sysno.SLEEP_MS
  | ConsoleWrite => sysno.CONSOLE_WRITE
  | ReadStdin => sysno.READ_STDIN
  | SetAffinity => sysno.SET_AFFINITY
  | GetAffinity => sysno.GET_AFFINITY
  | GetHartId => sysno.GET_HART_ID
  | GetMicros => sysno.GET_MICROS
  | GetRealtime => sysno.GET_REALTIME
  | ThreadExit => sysno.THREAD_EXIT
  | ReadKeyEvent => sysno.READ_KEY_EVENT
  | Pledge => sysno.PLEDGE
  | Mmap => sysno.MMAP
  | CreateNetch => sysno.CREATE_NETCH
  | CloseHandle => sysno.CLOSE_HANDLE
  | CreateProcess => sysno.CREATE_PROCESS
  | ChYield => sysno.CH_YIELD
  | QueryStats => sysno.QUERY_STATS
  | QuerySyscallStats => sysno.QUERY_SYSCALL_STATS
  | CreateProcessEx => sysno.CREATE_PROCESS_EX
  | ArgvEnvp => sysno.ARGV_ENVP
  | CreateProcessV2 => sysno.CREATE_PROCESS_V2
  | QueryDenialLog => sysno.QUERY_DENIAL_LOG
  | Chdir => sysno.CHDIR
  | Getcwd => sysno.GETCWD
  | GetUid => sysno.GETUID
  | GetEuid => sysno.GETEUID
  | GetGid => sysno.GETGID
  | GetEgid => sysno.GETEGID
  | GetGroups => sysno.GETGROUPS
  | GetLogin => sysno.GETLOGIN
  | SetUid => sysno.SETUID
  | SetGid => sysno.SETGID
  | SetGroups => sysno.SETGROUPS
  | SetLogin => sysno.SETLOGIN
  | ChInspect => sysno.CH_INSPECT
  | CreateThread => sysno.CREATE_THREAD
  | GetPid => sysno.GETPID
  | GetTid => sysno.GETTID
  | WaitPid => sysno.WAIT_PID
  | FutexWait => sysno.FUTEX_WAIT
  | FutexWake => sysno.FUTEX_WAKE
  | FsOpen => sysno.FS_OPEN
  | FsRead => sysno.FS_READ
  | FsStat => sysno.FS_STAT
  | FsReaddir => sysno.FS_READDIR
  | FsSeek => sysno.FS_SEEK
  | FsFstat => sysno.FS_FSTAT
  | FbQuery => sysno.FB_QUERY
  | FbSurfaceCreate => sysno.FB_SURFACE_CREATE
  | FbSurfaceDestroy => sysno.FB_SURFACE_DESTROY
  | FbPresent => sysno.FB_PRESENT
  | WakeTid => sysno.WAKE_TID
  | Dup => sysno.DUP
  | Dup2 => sysno.DUP2
  | Fcntl => sysno.FCNTL
  | Fstat => sysno.FSTAT
  | Eventfd => sysno.EVENTFD
  end.

(** The [match] of [Sysno::from_usize], arm by arm. *)
Definition from_usize (n : Z) : option Sysno :=
  if n =? sysno.EXIT then Some Exit
  else if n =? sysno.SERIAL_PRINT then Some SerialPrint
  else if n =? sysno.SLEEP_MS then Some SleepMs
  else if n =? sysno.CONSOLE_WRITE then Some ConsoleWrite
  else if n =? sysno.READ_STDIN then Some ReadStdin
  else if n =? sysno.SET_AFFINITY then Some SetAffinity
  else if n =? sysno.GET_AFFINITY then Some GetAffinity
  else if n =? sysno.GET_HART_ID then Some GetHartId
  else if n =? sysno.GET_MICROS then Some GetMicros
  else if n =? sysno.GET_REALTIME then Some GetRealtime
  else if n =? sysno.THREAD_EXIT then Some ThreadExit
  else if n =? sysno.READ_KEY_EVENT then Some ReadKeyEvent
  else if n =? sysno.PLEDGE then Some Pledge
  else if n =? sysno.MMAP then Some Mmap
  else if n =? sysno.CREATE_NETCH then Some CreateNetch
  else if n =? sysno.CLOSE_HANDLE then Some CloseHandle
  else if n =? sysno.CREATE_PROCESS then Some CreateProcess
  else if n =? sysno.CH_YIELD then Some ChYield
  else if n =? sysno.QUERY_STATS then Some QueryStats
  else if n =? sysno.QUERY_SYSCALL_STATS then Some QuerySyscallStats
  else if n =? sysno.CREATE_PROCESS_EX then Some CreateProcessEx
  else if n =? sysno.ARGV_ENVP then Some ArgvEnvp
  else if n =? sysno.CREATE_PROCESS_V2 then Some CreateProcessV2
  else if n =? sysno.QUERY_DENIAL_LOG then Some QueryDenialLog
  else if n =? sysno.CHDIR then Some Chdir
  else if n =? sysno.GETCWD then Some Getcwd
  else if n =? sysno.GETUID then Some GetUid
  else if n =? sysno.GETEUID then Some GetEuid
  else if n =? sysno.GETGID then Some GetGid
  else if n =? sysno.GETEGID then Some GetEgid
  else if n =? sysno.GETGROUPS then Some GetGroups
  else if n =? sysno.GETLOGIN then Some GetLogin
  else if n =? sysno.SETUID then Some SetUid
  else if n =? sysno.SETGID then Some SetGid
  else if n =? sysno.SETGROUPS then Some SetGroups
  else if n =? sysno.SETLOGIN then Some SetLogin
  else if n =? sysno.CH_INSPECT then Some ChInspect
  else if n =? sysno.CREATE_THREAD then Some CreateThread
  else if n =? sysno.GETPID then Some GetPid
  else if n =? sysno.GETTID then Some GetTid
  else if n =? sysno.WAIT_PID then Some WaitPid
  else if n =? sysno.FUTEX_WAIT then Some FutexWait
  else if n =? sysno.FUTEX_WAKE then Some FutexWake
  else if n =? sysno.FS_OPEN then Some FsOpen
  else if n =? sysno.FS_READ then Some FsRead
  else if n =? sysno.FS_STAT then Some FsStat
  else if n =? sysno.FS_READDIR then Some FsReaddir
  else if n =? sysno.FS_SEEK then Some FsSeek
  else if n =? sysno.FS_FSTAT then Some FsFstat
  else if n =? sysno.FB_QUERY then Some FbQuery
  else if n =? sysno.FB_SURFACE_CREATE then Some FbSurfaceCreate
  else if n =? sysno.FB_SURFACE_DESTROY then Some FbSurfaceDestroy
  else if n =? sysno.FB_PRESENT then Some FbPresent
  else if n =? sysno.WAKE_TID then Some WakeTid
  else if n =? sysno.DUP then Some Dup
  else if n =? sysno.DUP2 then Some Dup2
  else if n =? sysno.FCNTL then Some Fcntl
  else if n =? sysno.FSTAT then Some Fstat
  else if n =? sysno.EVENTFD then Some Eventfd
  else None.

Definition ordinal (s : Sysno) : Z :=
  match s with
  | Exit => 0
  | SerialPrint => 1
  | SleepMs => 2
  | ConsoleWrite => 3
  | ReadStdin => 4
  | SetAffinity => 5
  | GetAffinity => 6
  | GetHartId => 7
  | Mmap => 8
  | CreateNetch => 9
  | CloseHandle => 10
  | CreateProcess => 11
  | ChYield => 12
  | QueryStats => 13
  | QuerySyscallStats => 14
  | CreateThread => 15
  | GetMicros => 16
  | FsOpen => 17
  | FsRead => 18
  | FsStat => 19
  | GetPid => 20
  | GetTid => 21
  | WaitPid => 22
  | CreateProcessEx => 23
  | ArgvEnvp => 24
  | FutexWait => 25
  | FutexWake => 26
  | FsReaddir => 27
  | Pledge => 28
  | CreateProcessV2 => 29
  | QueryDenialLog => 30
  | Chdir => 31
  | Getcwd => 32
  | FsSeek => 33
  | FsFstat => 34
  | GetUid => 35
  | GetEuid => 36
  | GetGid => 37
  | GetEgid => 38
  | GetGroups => 39
  | GetLogin => 40
  | SetUid => 41
  | SetGid => 42
  | SetGroups => 43
  | SetLogin => 44
  | GetRealtime => 45
  | ThreadExit => 46
  | FbQuery => 47
  | FbSurfaceCreate => 48
  | FbSurfaceDestroy => 49
  | FbPresent => 50
  | ReadKeyEvent => 51
  | WakeTid => 52
  | Dup => 53
  | Dup2 => 54
  | Fcntl => 55
  | Fstat => 56
  | Eventfd => 57
  | ChInspect => 58
  end.

Definition SYSNO_COUNT : Z := 59.

(** ** Errno convention *)

Module errno.

Definition EPERM : Z := 1.
Definition ENOENT : Z := 2.
Definition ESRCH : Z := 3.
Definition EIO : Z := 5.
Definition ENOEXEC : Z := 8.
Definition EBADF : Z := 9.
Definition ECHILD : Z := 10.
Definition EAGAIN : Z := 11.
Definition ENOMEM : Z := 12.
Definition EACCES : Z := 13.
Definition EFAULT : Z := 14.
Definition EBUSY : Z := 16.
Definition EEXIST : Z := 17.
Definition ENODEV : Z := 19.
Definition ENOTDIR : Z := 20.
Definition EISDIR : Z := 21.
Definition EINVAL : Z := 22.
Definition ENFILE : Z := 23.
Definition EMFILE : Z := 24.
Definition ERANGE : Z := 34.
Definition ENAMETOOLONG : Z := 36.
Definition ENOSYS : Z := 38.
Definition ETIMEDOUT : Z := 110.
End errno.

(** [x as i32]: truncation to 32 bits, then sign. *)
Definition as_i32 (x : Z) : Z :=
  let m := x mod 2 ^ 32 in if m <? 2 ^ 31 then m else m - 2 ^ 32.

Definition from_ret (r : Z) : result Z Z :=
  if r <? 0 then Err (as_i32 (- r)) else Ok r.

Definition to_ret (code : Z) : Z := - code.

(** ** Handle kinds *)

Inductive HandleKind :=
| HK_NetChannel | HK_File | HK_Stdin | HK_Stdout | HK_Stderr | HK_EventFd
| HK_PipeRead | HK_PipeWrite | HK_Pidfd.

Definition handle_kind_number (k : HandleKind) : Z :=
  match k with
  | HK_NetChannel => 1 | HK_File => 2 | HK_Stdin => 3 | HK_Stdout => 4 | HK_Stderr => 5
  | HK_EventFd => 6 | HK_PipeRead => 7 | HK_PipeWrite => 8 | HK_Pidfd => 9
  end.

Definition handle_kind_from_u8 (n : Z) : option HandleKind :=
  if n =? 1 then Some HK_NetChannel else if n =? 2 then Some HK_File
  else if n =? 3 then Some HK_Stdin else if n =? 4 then Some HK_Stdout
  else if n =? 5 then Some HK_Stderr else if n =? 6 then Some HK_EventFd
  else if n =? 7 then Some HK_PipeRead else if n =? 8 then Some HK_PipeWrite
  else if n =? 9 then Some HK_Pidfd else None.

Definition is_readable (k : HandleKind) : bool :=
  match k with
  | HK_NetChannel | HK_File | HK_Stdin | HK_EventFd | HK_PipeRead | HK_Pidfd => true
  | _ => false
  end.

Definition is_writable (k : HandleKind) : bool :=
  match k with
  | HK_NetChannel | HK_Stdout | HK_Stderr | HK_EventFd | HK_PipeWrite => true
  | _ => false
  end.

(** Every variant, in ordinal order. *)
Definition all_sysno : list Sysno := [
  Exit; SerialPrint; SleepMs; ConsoleWrite; ReadStdin; SetAffinity; GetAffinity; GetHartId; Mmap; CreateNetch; CloseHandle; CreateProcess; ChYield; QueryStats; QuerySyscallStats; CreateThread; GetMicros; FsOpen; FsRead; FsStat; GetPid; GetTid; WaitPid; CreateProcessEx; ArgvEnvp; FutexWait; FutexWake; FsReaddir; Pledge; CreateProcessV2; QueryDenialLog; Chdir; Getcwd; FsSeek; FsFstat; GetUid; GetEuid; GetGid; GetEgid; GetGroups; GetLogin; SetUid; SetGid; SetGroups; SetLogin; GetRealtime; ThreadExit; FbQuery; FbSurfaceCreate; FbSurfaceDestroy; FbPresent; ReadKeyEvent; WakeTid; Dup; Dup2; Fcntl; Fstat; Eventfd; ChInspect].

(** Takes the first arm of an [if] chain of equality tests that matches. *)
Ltac split_arms H :=
  repeat match type of H with
  | (if ?a =? ?b then _ else _) = _ => destruct (Z.eqb_spec a b) as [-> |]
  end.

Lemma from_usize_number s : from_usize (sysno_number s) = Some s.
Proof. by destruct s. Qed.

Lemma number_from_usize n s : from_usize n = Some s -> sysno_number s = n.
Proof. unfold from_usize. intros H. split_arms H; by inversion H. Qed.

Lemma all_sysno_lookup s : all_sysno !! Z.to_nat (ordinal s) = Some s.
Proof. by destruct s. Qed.

(** ** Properties *)

(** Decoding a system-call number is the exact inverse of the enumeration's
    discriminants: a number decodes to a variant if and only if it is that
    variant's number. *)
Theorem sysno_decode_iff n s : from_usize n = Some s <-> sysno_number s = n.
Proof. split; [apply number_from_usize | intros <-; apply from_usize_number]. Qed.

(** [ordinal] numbers the variants densely: it is injective and its range
    is exactly [0 .. COUNT), so it indexes the per-syscall statistics table. *)
Theorem ordinal_dense :
  (forall s t, ordinal s = ordinal t -> s = t) /\
  (forall k, 0 <= k < SYSNO_COUNT <-> exists s, ordinal s = k).
Proof.
  split.
  - intros s t E. pose proof (all_sysno_lookup s) as H. rewrite E, all_sysno_lookup in H. congruence.
  - intros k. split; [| intros [s <-]; by destruct s].
    intros Hk. destruct (lookup_lt_is_Some_2 all_sysno (Z.to_nat k)) as [s Hs].
    { change (length all_sysno) with 59%nat. unfold SYSNO_COUNT in Hk. lia. }
    exists s. assert ((ordinal <$> all_sysno) !! Z.to_nat k = Some (ordinal s)) as Ho
      by (rewrite list_lookup_fmap, Hs; done).
    change (ordinal <$> all_sysno) with (Z.of_nat <$> seq 0 59) in Ho.
    rewrite list_lookup_fmap, lookup_seq_lt in Ho by (unfold SYSNO_COUNT in Hk; lia).
    simpl in Ho. injection Ho as <-. lia.
Qed.

(** The errno convention round-trips: an encoded positive 32-bit errno is
    negative and decodes to itself, and a non-negative return value decodes as
    success. *)
Theorem errno_roundtrip code r :
  0 < code < 2 ^ 31 -> 0 <= r ->
  to_ret code < 0 /\ from_ret (to_ret code) = Err code /\ from_ret r = Ok r.
Proof.
  intros Hc Hr. unfold to_ret, from_ret, as_i32. rewrite Z.opp_involutive.
  rewrite (Z.mod_small code) by lia.
  destruct (Z.ltb_spec (- code) 0), (Z.ltb_spec code (2 ^ 31)), (Z.ltb_spec r 0); split_and!; (lia || done).
Qed.

Lemma errno_roundtrip_witness : from_ret (to_ret errno.EPERM) = Err errno.EPERM.
Proof. apply (errno_roundtrip errno.EPERM 0); unfold errno.EPERM; lia. Defined.
