(* ===== verification/Perms.v ===== *)
(** * Permissions, roles and the denial log

    [orbit-abi/src/perms.rs] (class masks, the system-call gate, pledge),
    [orbit-abi/src/roles.rs] (the role registry and the two spawn gates),
    [orbit-abi/src/denial.rs] and [orbit-core/src/denial_ring.rs] (the audit
    sink). A [ClassMask] is the 64-bit word it wraps. *)

From stdpp Require Import base list option numbers sets gmap.
From S2P Require Import Prelude Abi.

#[local] Open Scope Z_scope.

(** ** Class masks *)

Definition narrow (m other : Z) : Z := Z.land m other.
Definition contains (m other : Z) : bool := Z.land m other =? other.
Definition is_empty (m : Z) : bool := m =? 0.
Definition EMPTY : Z := 0.

Definition class_STDIO : Z := Z.shiftl 1 0.
Definition class_PROC_LIFE : Z := Z.shiftl 1 1.
Definition class_PROC_SPAWN : Z := Z.shiftl 1 2.
Definition class_SCHED : Z := Z.shiftl 1 3.
Definition class_VMEM : Z := Z.shiftl 1 4.
Definition class_VMEM_SHARED : Z := Z.shiftl 1 5.
Definition class_NETCH : Z := Z.shiftl 1 6.
Definition class_FS_RO : Z := Z.shiftl 1 7.
Definition class_FUTEX : Z := Z.shiftl 1 8.
Definition class_STATS : Z := Z.shiftl 1 9.
Definition class_PLEDGE : Z := Z.shiftl 1 10.
Definition class_PROC_CRED : Z := Z.shiftl 1 11.

(** Union of a list of classes: the [|] chains of the static initialisers. *)
Definition classes (l : list Z) : Z := foldr Z.lor 0 l.

Definition class_ALL : Z :=
  classes [class_STDIO; class_PROC_LIFE; class_PROC_SPAWN; class_SCHED; class_VMEM; class_VMEM_SHARED; class_NETCH; class_FS_RO; class_FUTEX; class_STATS; class_PLEDGE; class_PROC_CRED].

(** ** Roles *)

Definition NOROLE : Z := 0.
Definition BOOTSTRAP : Z := 1.
Definition LOADER : Z := 2.
Definition SHELL : Z := 3.
Definition NET_CLIENT : Z := 4.
Definition FS_TOOL : Z := 5.
Definition WORKER : Z := 6.
Definition SERVICE : Z := 7.
Definition ROLE_COUNT : Z := 8.
Definition INHERIT : Z := 2 ^ 32 - 1.

(** ** Permissions *)

Record Permissions := mkPermissions {
  perms : Z;
  allowed_perms : Z;
  role : Z;
  pad : Z;
  reserved : Z * Z;
}.

Record PermsRequest := mkPermsRequest { req_perms : Z; req_allowed_perms : Z }.

Definition PermsRequest_EMPTY : PermsRequest := mkPermsRequest EMPTY EMPTY.
Definition PermsRequest_ALL : PermsRequest := mkPermsRequest class_ALL class_ALL.

Definition Permissions_ZERO : Permissions := mkPermissions 0 0 NOROLE 0 (0, 0).
Definition Permissions_ALL : Permissions := mkPermissions class_ALL class_ALL BOOTSTRAP 0 (0, 0).
Definition Permissions_LOADER : Permissions := mkPermissions class_ALL class_ALL LOADER 0 (0, 0).

(** [Permissions::new] and [from_masks]: no clamping. *)
Definition from_masks (p a r : Z) : Permissions := mkPermissions p a r 0 (0, 0).

(** The class a system call needs; [EMPTY] for an unmapped number. *)
Definition class_for (n : Z) : Z :=
  if n =? sysno.EXIT then class_PROC_LIFE
  else if n =? sysno.THREAD_EXIT then class_PROC_LIFE
  else if n =? sysno.SERIAL_PRINT then class_STDIO
  else if n =? sysno.SLEEP_MS then class_SCHED
  else if n =? sysno.CONSOLE_WRITE then class_STDIO
  else if n =? sysno.READ_STDIN then class_STDIO
  else if n =? sysno.SET_AFFINITY then class_SCHED
  else if n =? sysno.GET_AFFINITY then class_SCHED
  else if n =? sysno.GET_HART_ID then class_SCHED
  else if n =? sysno.GET_MICROS then class_STDIO
  else if n =? sysno.GET_REALTIME then class_STDIO
  else if n =? sysno.PLEDGE then class_PLEDGE
  else if n =? sysno.MMAP then class_VMEM
  else if n =? sysno.CREATE_NETCH then class_NETCH
  else if n =? sysno.CLOSE_HANDLE then class_STDIO
  else if n =? sysno.CREATE_PROCESS then class_PROC_SPAWN
  else if n =? sysno.CH_YIELD then class_SCHED
  else if n =? sysno.QUERY_STATS then class_STATS
  else if n =? sysno.QUERY_SYSCALL_STATS then class_STATS
  else if n =? sysno.CREATE_PROCESS_EX then class_PROC_SPAWN
  else if n =? sysno.ARGV_ENVP then class_PROC_LIFE
  else if n =? sysno.CREATE_PROCESS_V2 then class_PROC_SPAWN
  else if n =? sysno.QUERY_DENIAL_LOG then class_STATS
  else if n =? sysno.CREATE_THREAD then class_PROC_SPAWN
  else if n =? sysno.GETPID then class_PROC_LIFE
  else if n =? sysno.GETTID then class_PROC_LIFE
  else if n =? sysno.WAIT_PID then class_PROC_LIFE
  else if n =? sysno.FUTEX_WAIT then class_FUTEX
  else if n =? sysno.FUTEX_WAKE then class_FUTEX
  else if n =? sysno.WAKE_TID then class_FUTEX
  else if n =? sysno.EVENTFD then class_FUTEX
  else if n =? sysno.CH_INSPECT then class_FUTEX
  else if n =? sysno.FS_OPEN then class_FS_RO
  else if n =? sysno.FS_READ then class_FS_RO
  else if n =? sysno.FS_STAT then class_FS_RO
  else if n =? sysno.FS_READDIR then class_FS_RO
  else if n =? sysno.FS_SEEK then class_FS_RO
  else if n =? sysno.FS_FSTAT then class_FS_RO
  else if n =? sysno.CHDIR then class_FS_RO
  else if n =? sysno.GETCWD then class_PROC_LIFE
  else if n =? sysno.GETUID then class_PROC_LIFE
  else if n =? sysno.GETEUID then class_PROC_LIFE
  else if n =? sysno.GETGID then class_PROC_LIFE
  else if n =? sysno.GETEGID then class_PROC_LIFE
  else if n =? sysno.GETGROUPS then class_PROC_LIFE
  else if n =? sysno.GETLOGIN then class_PROC_LIFE
  else if n =? sysno.SETUID then class_PROC_CRED
  else if n =? sysno.SETGID then class_PROC_CRED
  else if n =? sysno.SETGROUPS then class_PROC_CRED
  else if n =? sysno.SETLOGIN then class_PROC_CRED
  else if n =? sysno.FB_QUERY then class_STDIO
  else if n =? sysno.FB_SURFACE_CREATE then class_STDIO
  else if n =? sysno.FB_SURFACE_DESTROY then class_STDIO
  else if n =? sysno.FB_PRESENT then class_STDIO
  else if n =? sysno.READ_KEY_EVENT then class_STDIO
  else EMPTY.

Definition allows (p : Permissions) (n : Z) : bool :=
  let cls := class_for n in
  if is_empty cls then false else contains (perms p) cls.

Definition pledge (p : Permissions) (r : PermsRequest) : Permissions :=
  mkPermissions (narrow (perms p) (req_perms r))
                (narrow (allowed_perms p) (req_allowed_perms r))
                (role p) (pad p) (reserved p).

(** ** Denial events *)

Inductive DenialEvent :=
| PermDeny (required_class eperms time_ticks tid sysno source_role pid : Z)
| RoleDeny (time_ticks rsv tid source_role target_role deny_reason pid : Z).

Definition DENIAL_RING_CAPACITY : nat := 64.

Record GateContext := mkGateContext { gpid : Z; gtid : Z; gtime : Z }.

(** The [DenialSink] trait. *)
Class DenialSink (T : Type) := sink_push : T -> DenialEvent -> T.

(** [()] is the sink that records nothing. *)
#[export] Instance unit_sink : DenialSink unit := fun _ _ => ().

(** [DenialRing]: front is the oldest event. *)
Record DenialRing := mkDenialRing { events : list DenialEvent }.

#[export] Instance ring_sink : DenialSink DenialRing := fun r e =>
  mkDenialRing ((if decide (length (events r) = DENIAL_RING_CAPACITY)
                 then tail (events r) else events r) ++ [e]).

Definition ring_new : DenialRing := mkDenialRing [].

(** [snapshot]: copies the oldest [min len buf.len()] events to the start of
    the buffer; the rest of the buffer is left as it was. *)
Definition snapshot (r : DenialRing) (buf : list DenialEvent) : list DenialEvent * nat :=
  let n := Nat.min (length (events r)) (length buf) in
  (take n (events r) ++ drop n buf, n).

(** [can_call]: the dispatch gate, with the event it pushes on denial. The
    number is recorded as a [u32]. *)
Definition can_call {T} `{DenialSink T} (p : Permissions) (n : Z) (ctx : GateContext) (sink : T)
    : bool * T :=
  if allows p n then (true, sink)
  else (false, sink_push sink
         (PermDeny (class_for n) (perms p) (gtime ctx) (gtid ctx) (n mod 2 ^ 32) (role p) (gpid ctx))).

(** ** Role registry *)

Record RoleDef := mkRoleDef {
  default_perms : Z;
  default_allowed : Z;
  transitions : Z;
}.

Definition allows_transition (d : RoleDef) (target : Z) : bool :=
  if 64 <=? target then false
  else negb (Z.land (transitions d) (wshl 1 target) =? 0).

Definition bit (r : Z) : Z := wshl 1 r.

Definition SHELL_PERMS : Z :=
  classes [class_STDIO; class_PROC_LIFE; class_PROC_SPAWN; class_SCHED; class_VMEM; class_FS_RO;
           class_STATS; class_PLEDGE].
Definition SHELL_ALLOWED : Z := class_ALL.
Definition NET_CLIENT_PERMS : Z :=
  classes [class_STDIO; class_NETCH; class_FUTEX; class_VMEM; class_PLEDGE].
Definition NET_CLIENT_ALLOWED : Z := classes [class_STDIO; class_VMEM; class_PLEDGE].
Definition FS_TOOL_PERMS : Z := classes [class_STDIO; class_FS_RO; class_VMEM; class_PLEDGE].
Definition FS_TOOL_ALLOWED : Z := classes [class_STDIO; class_VMEM; class_PLEDGE].
Definition WORKER_PERMS : Z := classes [class_STDIO; class_VMEM; class_PLEDGE].
Definition SERVICE_PERMS : Z :=
  classes [class_STDIO; class_NETCH; class_FS_RO; class_FUTEX; class_VMEM; class_PLEDGE; class_STATS].
Definition SERVICE_ALLOWED : Z := classes [class_STDIO; class_VMEM; class_PLEDGE].

Definition ROLES : list RoleDef := [
  mkRoleDef EMPTY EMPTY 0;
  mkRoleDef class_ALL class_ALL (Z.lor (bit LOADER) (bit SHELL));
  mkRoleDef class_ALL class_ALL
    (classes [bit SHELL; bit SERVICE; bit WORKER; bit NET_CLIENT; bit FS_TOOL]);
  mkRoleDef SHELL_PERMS SHELL_ALLOWED (classes [bit NET_CLIENT; bit FS_TOOL; bit WORKER]);
  mkRoleDef NET_CLIENT_PERMS NET_CLIENT_ALLOWED (bit WORKER);
  mkRoleDef FS_TOOL_PERMS FS_TOOL_ALLOWED (bit WORKER);
  mkRoleDef WORKER_PERMS WORKER_PERMS 0;
  mkRoleDef SERVICE_PERMS SERVICE_ALLOWED (bit WORKER)
].

Definition role_def (r : Z) : option RoleDef :=
  if r <? ROLE_COUNT then ROLES !! Z.to_nat r else None.

Inductive SpawnDeny := UnknownParentRole | UnknownTargetRole | TransitionDenied.

(** The witness of a validated transition. *)
Record TransitionAllowed := mkTransitionAllowed {
  t_source : Z;
  t_target : Z;
  t_target_def : RoleDef;
}.

Definition check_transition (parent_role target_role : Z) : result TransitionAllowed SpawnDeny :=
  if target_role =? INHERIT then
    Ok (mkTransitionAllowed parent_role INHERIT (mkRoleDef EMPTY EMPTY 0))
  else
    match role_def parent_role with
    | None => Err UnknownParentRole
    | Some parent_def =>
        match role_def target_role with
        | None => Err UnknownTargetRole
        | Some target_def =>
            if negb (allows_transition parent_def target_role) then Err TransitionDenied
            else Ok (mkTransitionAllowed parent_role target_role target_def)
        end
    end.

(** The clamp; the [ChildPerms] witness is the [Permissions] it wraps. *)
Definition derive_child_perms (parent : Permissions) (t : TransitionAllowed) (r : PermsRequest)
    : Permissions :=
  if t_target t =? INHERIT then parent
  else
    let parent_cap := allowed_perms parent in
    from_masks (narrow (narrow (default_perms (t_target_def t)) parent_cap) (req_perms r))
               (narrow (narrow (default_allowed (t_target_def t)) parent_cap) (req_allowed_perms r))
               (t_target t).

Definition deny_reason_code (d : SpawnDeny) : Z :=
  match d with
  | UnknownParentRole => 0
  | UnknownTargetRole => 1
  | TransitionDenied => 2
  end.

(** Both gates in sequence, as [create_process_v2] runs them. *)
Definition spawn_gate (parent : Permissions) (target : Z) (r : PermsRequest)
    : result Permissions SpawnDeny :=
  match check_transition (role parent) target with
  | Ok t => Ok (derive_child_perms parent t r)
  | Err d => Err d
  end.

(** ** Specification vocabulary *)

(** [submask a b]: every class of [a] is a class of [b]. *)
Definition submask (a b : Z) : Prop := Z.land a b = a.

(** Everything a process can use now or hand to a child. *)
Definition authority (p : Permissions) : Z := Z.lor (perms p) (allowed_perms p).

(** One event of a process lineage: the process narrows itself, or a child is
    spawned through the two gates. *)
Inductive derives : Permissions -> Permissions -> Prop :=
| derives_pledge p r : derives p (pledge p r)
| derives_spawn p t r c : spawn_gate p t r = Ok c -> derives p c.

(** A chain of role changes that the first gate admits, [INHERIT] aside. *)
Fixpoint role_chain (l : list Z) : Prop :=
  match l with
  | a :: (b :: _) as l' =>
      b <> INHERIT /\ (exists t, check_transition a b = Ok t) /\ role_chain l'
  | _ => True
  end.

(** A run of the gate over a sequence of calls that share one sink. *)
Definition gate_run {T} `{DenialSink T} (calls : list (Permissions * Z * GateContext)) (s : T) : T :=
  foldl (fun s '(p, n, ctx) => snd (can_call p n ctx s)) s calls.

Definition denial_of (c : Permissions * Z * GateContext) : option DenialEvent :=
  let '(p, n, ctx) := c in
  if allows p n then None
  else Some (PermDeny (class_for n) (perms p) (gtime ctx) (gtid ctx) (n mod 2 ^ 32) (role p) (gpid ctx)).

(** The last [k] elements of a list. *)
Definition last_n {A} (k : nat) (l : list A) : list A := drop (length l - k) l.

(** The system calls that no class covers. *)
Definition unclassified (s : Sysno) : bool :=
  match s with
  | Dup | Dup2 | Fcntl | Fstat => true
  | _ => false
  end.

(** Length of the longest role chain that starts at a role. *)
Definition role_rank (r : Z) : nat :=
  match Z.to_nat r with
  | 1 => 5 | 2 => 4 | 3 => 3 | 4 => 2 | 5 => 2 | 7 => 2 | _ => 1
  end%nat.

(** ** Masks *)

Lemma submask_spec a b :
  submask a b <-> forall i, Z.testbit a i = true -> Z.testbit b i = true.
Proof.
  unfold submask. split.
  - intros H i Hi. rewrite <- H, Z.land_spec in Hi. by apply andb_true_iff in Hi as [_ Hi].
  - intros H. apply Z.bits_inj. intros i. rewrite Z.land_spec.
    destruct (Z.testbit a i) eqn:E; [simpl; by rewrite (H i E) | done].
Qed.

#[export] Instance submask_preorder : PreOrder submask.
Proof.
  split.
  - intros a. apply Z.land_diag.
  - intros a b c. rewrite !submask_spec. auto.
Qed.

(** Reduces mask inclusions to propositional goals about one bit. *)
Ltac mask_solve :=
  rewrite ?submask_spec in *; unfold pledge, narrow, authority in *; simpl in *;
  let i := fresh "i" in intros i;
  repeat match goal with
  | H : forall j, Z.testbit _ j = true -> @?Q j |- _ => specialize (H i)
  end;
  repeat (rewrite Z.land_spec in * || rewrite Z.lor_spec in *);
  repeat match goal with
  | |- context [Z.testbit ?a ?i] => destruct (Z.testbit a i)
  | H : context [Z.testbit ?a ?i] |- _ => destruct (Z.testbit a i)
  end; simpl in *; intuition congruence.

Lemma contains_submask m c : contains m c = true <-> submask c m.
Proof. unfold contains, submask. rewrite Z.eqb_eq, Z.land_comm. done. Qed.

Lemma allows_spec p n : allows p n = true <-> class_for n <> 0 /\ submask (class_for n) (perms p).
Proof.
  unfold allows, is_empty. destruct (Z.eqb_spec (class_for n) 0) as [-> | Hne]; [naive_solver |].
  rewrite contains_submask. naive_solver.
Qed.

(** ** Lineages *)

Lemma spawn_gate_cases p t r c :
  spawn_gate p t r = Ok c ->
  (t = INHERIT /\ c = p) \/
  (t <> INHERIT /\ submask (perms c) (allowed_perms p) /\ submask (allowed_perms c) (allowed_perms p)).
Proof.
  unfold spawn_gate, check_transition, derive_child_perms.
  destruct (Z.eqb_spec t INHERIT) as [-> | Ht]; [intros [= <-]; by left |].
  repeat case_match; intros; simplify_eq/=; to_prop; [done |]. right.
  split; [done |]. split; mask_solve.
Qed.

Lemma derives_shrinks p q :
  derives p q ->
  submask (authority q) (authority p) /\ submask (allowed_perms q) (allowed_perms p).
Proof.
  intros [p' r | p' t r c Hc].
  - split; mask_solve.
  - apply spawn_gate_cases in Hc as [[_ ->] | (_ & H1 & H2)]; [done |]. split; mask_solve.
Qed.

Lemma lineage_shrinks p q :
  rtc derives p q ->
  submask (authority q) (authority p) /\ submask (allowed_perms q) (allowed_perms p).
Proof.
  induction 1 as [p | p q s H _ [IH1 IH2]]; [done |].
  apply derives_shrinks in H as [H1 H2]. split; by etrans.
Qed.

(** ** The audit ring *)

Lemma last_n_app {A} k (a b : list A) : last_n k (last_n k a ++ b) = last_n k (a ++ b).
Proof.
  unfold last_n. rewrite <- (drop_app_le a) by lia.
  rewrite drop_drop, length_drop, length_app. f_equal. lia.
Qed.

Lemma last_n_all {A} k (l : list A) : (length l <= k)%nat -> last_n k l = l.
Proof. intros. unfold last_n. by replace (length l - k)%nat with 0%nat by lia. Qed.

Lemma last_n_length {A} k (l : list A) : (length (last_n k l) <= k)%nat.
Proof. unfold last_n. rewrite length_drop. lia. Qed.

Lemma ring_push_last r e :
  (length (events r) <= DENIAL_RING_CAPACITY)%nat ->
  events (sink_push r e) = last_n DENIAL_RING_CAPACITY (events r ++ [e]).
Proof.
  intros Hr. unfold sink_push, ring_sink, last_n. simpl. rewrite length_app. simpl.
  destruct (decide _) as [E | E].
  - rewrite E. replace (_ + 1 - _)%nat with 1%nat by (unfold DENIAL_RING_CAPACITY; lia).
    destruct (events r); [done |]. done.
  - by replace (length (events r) + 1 - _)%nat with 0%nat by lia.
Qed.

Lemma gate_run_window calls r :
  (length (events r) <= DENIAL_RING_CAPACITY)%nat ->
  events (gate_run calls r) = last_n DENIAL_RING_CAPACITY (events r ++ omap denial_of calls).
Proof.
  unfold gate_run. revert r. induction calls as [| [[p n] ctx] calls IH]; intros r Hr; simpl.
  - rewrite app_nil_r. by rewrite last_n_all.
  - unfold can_call. destruct (allows p n); simpl; [by apply IH |].
    rewrite IH; rewrite ring_push_last by done; [| apply last_n_length].
    rewrite last_n_app, <- app_assoc. done.
Qed.

(** ** Roles *)

Lemma role_def_range r d : role_def r = Some d -> 0 <= r -> r ∈ [0; 1; 2; 3; 4; 5; 6; 7].
Proof.
  unfold role_def, ROLE_COUNT. case_match; [to_prop | done]. intros _ ?.
  assert (r = 0 \/ r = 1 \/ r = 2 \/ r = 3 \/ r = 4 \/ r = 5 \/ r = 6 \/ r = 7) by lia.
  set_solver.
Qed.

Lemma transition_rank a b t :
  0 <= a -> 0 <= b -> b <> INHERIT -> check_transition a b = Ok t ->
  (role_rank b < role_rank a)%nat.
Proof.
  intros Ha Hb Hi. unfold check_transition.
  destruct (Z.eqb_spec b INHERIT) as [| _]; [done |].
  destruct (role_def a) as [da |] eqn:Ea; [| done].
  destruct (role_def b) as [db |] eqn:Eb; [| done].
  pose proof (role_def_range _ _ Ea Ha) as Ia. pose proof (role_def_range _ _ Eb Hb) as Ib.
  destruct (negb _) eqn:Et; [done |]. intros _.
  set_unfold in Ia. set_unfold in Ib. clear Hi Ha Hb.
  destruct_or! Ia; subst a; vm_compute in Ea; simplify_eq;
  destruct_or! Ib; subst b; vm_compute in Et |- *; first [discriminate Et | lia].
Qed.

Lemma role_rank_bounds r : (1 <= role_rank r <= 5)%nat.
Proof. unfold role_rank. repeat case_match; lia. Qed.

Lemma role_chain_rank a l :
  Forall (Z.le 0) (a :: l) -> role_chain (a :: l) -> (length (a :: l) <= role_rank a)%nat.
Proof.
  revert a. induction l as [| b l IH]; intros a Hf Hc; [apply role_rank_bounds |].
  destruct Hc as (Hb & [t Ht] & Hc). inversion_clear Hf as [| ? ? Ha Hf'].
  inversion Hf' as [| ? ? Hb0 _]; subst. specialize (IH b Hf' Hc).
  pose proof (transition_rank a b t Ha Hb0 Hb Ht). simpl in *. lia.
Qed.

(** ** The class table *)

Lemma class_for_unclassified s : class_for (sysno_number s) = 0 <-> unclassified s = true.
Proof. destruct s; vm_compute; split; congruence. Qed.

Lemma class_for_ALL s : submask (class_for (sysno_number s)) class_ALL.
Proof. destruct s; reflexivity. Qed.

Lemma class_for_decodes n : class_for n <> 0 -> exists s, from_usize n = Some s.
Proof.
  destruct (class_for n) as [| c | c] eqn:E; intros Hc; [done | |];
    unfold class_for in E; split_arms E; try (eexists; vm_compute; reflexivity); discriminate E.
Qed.

(** ** Properties *)


(** The cap on children holds through every later generation: once a
    child was spawned through a real role transition, neither it nor any
    descendant it ever has can make a call outside the parent's
    [allowed_perms], even by [INHERIT]. *)
Theorem descendants_confined p t r c q n :
  t <> INHERIT -> spawn_gate p t r = Ok c -> rtc derives c q ->
  allows q n = true -> submask (class_for n) (allowed_perms p).
Proof.
  intros Ht Hc Hq [_ Hn]%allows_spec. apply lineage_shrinks in Hq as [Hq _].
  apply spawn_gate_cases in Hc as [[? _] | (_ & H1 & H2)]; [done |].
  assert (submask (perms q) (authority q)) by mask_solve.
  assert (submask (authority c) (allowed_perms p)) by mask_solve.
  repeat (etrans; [eassumption |]). done.
Qed.

(** The spawn gates, exactly: a non-[INHERIT] spawn succeeds iff both
    roles are registered and the parent's entry lists the target, and the
    child then holds precisely the intersection of the target role's
    defaults, the parent's [allowed_perms] and the request. *)
Theorem spawn_gate_exact p t r c :
  t <> INHERIT ->
  spawn_gate p t r = Ok c <->
  exists dp dt,
    role_def (role p) = Some dp /\ role_def t = Some dt /\ allows_transition dp t = true /\
    role c = t /\ pad c = 0 /\ reserved c = (0, 0) /\
    perms c = Z.land (Z.land (default_perms dt) (allowed_perms p)) (req_perms r) /\
    allowed_perms c =
      Z.land (Z.land (default_allowed dt) (allowed_perms p)) (req_allowed_perms r).
Proof.
  intros Ht. unfold spawn_gate, check_transition, derive_child_perms, narrow.
  destruct (Z.eqb_spec t INHERIT) as [| _]; [done |].
  destruct (role_def (role p)) as [dp |]; [| split; [done | by intros (? & ? & ? & ? & _)]].
  destruct (role_def t) as [dt |]; [| split; [done | by intros (? & ? & ? & ? & _)]].
  destruct (allows_transition dp t) eqn:Ea; simpl;
    [| split; [done | intros (? & ? & ? & ? & ? & _); simplify_eq; congruence]].
  rewrite (proj2 (Z.eqb_neq t INHERIT) Ht). split.
  - intros [= <-]. by exists dp, dt.
  - destruct c. simpl. intros (? & ? & ? & ? & ? & ? & ? & ? & ? & ?). by simplify_eq.
Qed.

(** Roles only descend: a chain of role transitions visits at most five
    roles, so no process can cycle back to a role it left. *)
Theorem role_chains_bounded l :
  Forall (Z.le 0) l -> role_chain l -> (length l <= 5)%nat.
Proof.
  destruct l as [| a l]; [simpl; lia |]. intros Hf Hc.
  pose proof (role_chain_rank a l Hf Hc). pose proof (role_rank_bounds a). lia.
Qed.

(** The audit log is the last 64 denials: after any sequence of gated
    calls that share the ring, it holds exactly the most recent
    [DENIAL_RING_CAPACITY] denied calls, oldest first, each with the class,
    masks, number, role and ids of that call; permitted calls leave no trace. *)
Theorem denial_log_window calls :
  events (gate_run calls ring_new) = last_n DENIAL_RING_CAPACITY (omap denial_of calls).
Proof. rewrite gate_run_window; [done | simpl; lia]. Qed.

(** The class table covers the ABI: a number has a class iff it decodes
    to a system call other than [dup], [dup2], [fcntl] and [fstat]; so the
    full mask admits exactly those calls and an unknown number is always
    denied, whatever the mask. *)
Theorem class_table_complete n :
  allows Permissions_ALL n = true <->
  exists s, from_usize n = Some s /\ unclassified s = false.
Proof.
  rewrite allows_spec. split.
  - intros [Hc _]. destruct (class_for_decodes n Hc) as [s Hs]. exists s. split; [done |].
    apply number_from_usize in Hs as <-. apply not_true_is_false. by rewrite <- class_for_unclassified.
  - intros (s & <-%number_from_usize & Hu). split; [| apply class_for_ALL].
    rewrite class_for_unclassified. by rewrite Hu.
Qed.

(** ** Witnesses *)


(** The [NET_CLIENT] process a loader starts, and a worker under it. *)
Definition net_client : Permissions := from_masks NET_CLIENT_PERMS NET_CLIENT_ALLOWED NET_CLIENT.

Lemma descendants_confined_witness : submask (class_for sysno.MMAP) (allowed_perms net_client).
Proof.
  apply (descendants_confined net_client WORKER PermsRequest_ALL
           (from_masks WORKER_PERMS WORKER_PERMS WORKER) (from_masks WORKER_PERMS WORKER_PERMS WORKER));
    [done | vm_compute; reflexivity | apply rtc_refl | vm_compute; reflexivity].
Defined.

Lemma spawn_gate_exact_witness :
  spawn_gate net_client WORKER PermsRequest_ALL = Ok (from_masks WORKER_PERMS WORKER_PERMS WORKER).
Proof.
  apply (spawn_gate_exact net_client WORKER PermsRequest_ALL); [done |].
  eexists _, _. repeat split; vm_compute; reflexivity.
Defined.

Lemma role_chains_bounded_witness :
  (length [BOOTSTRAP; LOADER; SHELL; NET_CLIENT; WORKER] <= 5)%nat.
Proof.
  apply role_chains_bounded.
  - repeat constructor; vm_compute; congruence.
  - repeat split; try (vm_compute; congruence); eexists; vm_compute; reflexivity.
Defined.

(** [INHERIT] copies the parent's masks without the [allowed_perms] cap: a
    [NET_CLIENT] process, whose [allowed_perms] has no [NETCH], can start a
    child that opens network channels. *)
Theorem inherit_skips_cap :
  exists c, spawn_gate net_client INHERIT PermsRequest_EMPTY = Ok c /\
    allows c sysno.CREATE_NETCH = true /\
    contains (allowed_perms net_client) (class_for sysno.CREATE_NETCH) = false.
Proof. exists net_client. repeat split; vm_compute; reflexivity. Qed.
