(* ===== verification/Thread.v ===== *)
(** * Threads, their scheduler states and the access capabilities

    [process/src/lib.rs] (the [Thread] record, its state machine and its
    on-thread completion slot), [process/src/cap.rs] (the verbs of
    [RunningThread], [ManagerThread], [ParkedMut] and [ExitedThread]),
    [orbit-core/src/lib.rs] ([SyscallOutcome] and [apply_syscall_outcome]) and
    [orbit-core/src/trap.rs] ([update_trap_frame]).

    A verb takes the thread and returns the new one; [Panic] is a Rust panic.
    A verb that yields a [Runnable] says so in its result; which thread the
    token names is the manager's business (file Manager.v). The memory that
    backs stacks and trap frames is not part of the record. *)

From stdpp Require Import base list option numbers sets gmap.
From S2P Require Import Prelude Perms.

#[local] Open Scope Z_scope.

(** ** Data *)

Module wake_reason.
Definition TICKLE : Z := Z.shiftl 1 0.
Definition NET_IO : Z := Z.shiftl 1 1.
Definition DEVICE_IO : Z := Z.shiftl 1 2.
Definition SIGNAL : Z := Z.shiftl 1 3.
Definition INPUT_IO : Z := Z.shiftl 1 4.
End wake_reason.

Inductive ThreadState := Ready | Blocking | Assigned | Running | Exited | Suspended.

#[export] Instance ThreadState_eq_dec : EqDecision ThreadState.
Proof. solve_decision. Defined.

(** [state as usize]: the discriminants. *)
Definition as_usize (s : ThreadState) : Z :=
  match s with
  | Ready => 0 | Blocking => 1 | Assigned => 2 | Running => 3 | Exited => 4 | Suspended => 5
  end.

Record FaultInfo := mkFaultInfo { cause : Z; epc : Z; stval : Z }.

(** [sstatus.SPP]: the privilege mode a thread runs in. *)
Inductive SPP := Supervisor | User.

#[export] Instance SPP_eq_dec : EqDecision SPP.
Proof. solve_decision. Defined.

(** [device::TrapFrame]. *)
Record TrapFrame := mkTrapFrame {
  regs : list Z;
  fregs : list Z;
  asid : Z;
  scratch : Z;
}.

Definition TrapFrame_empty : TrapFrame := mkTrapFrame (replicate 32 0) (replicate 32 0) 0 0.

(** The [Thread] record. [t_handle] is the identity of a shared
    [CompletionHandle]. *)
Record Thread := mkThread {
  t_pc : Z;
  t_state : Z;
  t_wake_time : Z;
  t_wake_override : Z;
  t_last_wake_reason : Z;
  t_sleep_seq : Z;
  t_frame : TrapFrame;
  t_satp : Z;
  t_mode : SPP;
  t_fault_info : option FaultInfo;
  t_handle : option nat;
  t_pending_rets : list Z;
  t_perms : Z;
  t_perm_role : Z;
  t_allowed_affinity : Z;
  t_affinity : Z;
  t_cpu_ticks_total : Z;
  t_context_switches : Z;
  t_syscall_count : Z;
  t_syscall_ticks : Z;
  t_uid : Z; t_euid : Z; t_suid : Z;
  t_gid : Z; t_egid : Z; t_sgid : Z;
  t_tid : Z;
  t_pid : Z;
  t_slot : option Z;
  t_stdout_redirect : option Z;
  t_pending_state : Z;
  t_pending_ret_count : Z;
  t_ticks : Z;
}.

Definition eta_thread (t : Thread) : Thread :=
  mkThread (t_pc t) (t_state t) (t_wake_time t) (t_wake_override t) (t_last_wake_reason t)
    (t_sleep_seq t) (t_frame t) (t_satp t) (t_mode t) (t_fault_info t) (t_handle t)
    (t_pending_rets t) (t_perms t) (t_perm_role t) (t_allowed_affinity t) (t_affinity t)
    (t_cpu_ticks_total t) (t_context_switches t) (t_syscall_count t) (t_syscall_ticks t)
    (t_uid t) (t_euid t) (t_suid t) (t_gid t) (t_egid t) (t_sgid t) (t_tid t) (t_pid t)
    (t_slot t) (t_stdout_redirect t) (t_pending_state t) (t_pending_ret_count t) (t_ticks t).

(** Plain field stores. *)
Definition store_pc : Z -> Thread -> Thread := ltac:(set_field eta_thread t_pc).
Definition store_state : Z -> Thread -> Thread := ltac:(set_field eta_thread t_state).
Definition store_wake_time : Z -> Thread -> Thread := ltac:(set_field eta_thread t_wake_time).
Definition store_wake_override : Z -> Thread -> Thread := ltac:(set_field eta_thread t_wake_override).
Definition store_last_wake_reason : Z -> Thread -> Thread := ltac:(set_field eta_thread t_last_wake_reason).
Definition store_sleep_seq : Z -> Thread -> Thread := ltac:(set_field eta_thread t_sleep_seq).
Definition store_frame : TrapFrame -> Thread -> Thread := ltac:(set_field eta_thread t_frame).
Definition store_fault_info : option FaultInfo -> Thread -> Thread := ltac:(set_field eta_thread t_fault_info).
Definition store_handle : option nat -> Thread -> Thread := ltac:(set_field eta_thread t_handle).
Definition store_pending_rets : list Z -> Thread -> Thread := ltac:(set_field eta_thread t_pending_rets).
Definition store_perms : Z -> Thread -> Thread := ltac:(set_field eta_thread t_perms).
Definition store_perm_role : Z -> Thread -> Thread := ltac:(set_field eta_thread t_perm_role).
Definition store_affinity : Z -> Thread -> Thread := ltac:(set_field eta_thread t_affinity).
Definition store_cpu_ticks_total : Z -> Thread -> Thread := ltac:(set_field eta_thread t_cpu_ticks_total).
Definition store_context_switches : Z -> Thread -> Thread := ltac:(set_field eta_thread t_context_switches).
Definition store_syscall_count : Z -> Thread -> Thread := ltac:(set_field eta_thread t_syscall_count).
Definition store_syscall_ticks : Z -> Thread -> Thread := ltac:(set_field eta_thread t_syscall_ticks).
Definition store_uid : Z -> Thread -> Thread := ltac:(set_field eta_thread t_uid).
Definition store_euid : Z -> Thread -> Thread := ltac:(set_field eta_thread t_euid).
Definition store_suid : Z -> Thread -> Thread := ltac:(set_field eta_thread t_suid).
Definition store_gid : Z -> Thread -> Thread := ltac:(set_field eta_thread t_gid).
Definition store_egid : Z -> Thread -> Thread := ltac:(set_field eta_thread t_egid).
Definition store_sgid : Z -> Thread -> Thread := ltac:(set_field eta_thread t_sgid).
Definition store_pending_state : Z -> Thread -> Thread := ltac:(set_field eta_thread t_pending_state).
Definition store_pending_ret_count : Z -> Thread -> Thread := ltac:(set_field eta_thread t_pending_ret_count).
Definition store_ticks : Z -> Thread -> Thread := ltac:(set_field eta_thread t_ticks).

Definition PENDING_STATE_NONE : Z := 0.
Definition PENDING_STATE_SIGNALED : Z := 1.

(** ** Construction *)

Record ThreadInit := mkThreadInit {
  i_entrypoint : Z;
  i_satp : Z;
  i_mode : SPP;
  i_tid : Z;
  i_pid : Z;
  i_frame : TrapFrame;
  i_slot : option Z;
  i_allowed_affinity : Z;
  i_affinity : Z;
  i_permissions : Permissions;
  i_uid : Z; i_euid : Z; i_suid : Z;
  i_gid : Z; i_egid : Z; i_sgid : Z;
  i_stdout_redirect : option Z;
}.

Definition thread_new (i : ThreadInit) : Thread :=
  mkThread (i_entrypoint i) (as_usize Ready) 0 0 0 0 (i_frame i) (i_satp i) (i_mode i)
    None None [0; 0; 0; 0]
    (perms (i_permissions i)) (role (i_permissions i))
    (i_allowed_affinity i) (i_affinity i) 0 0 0 0
    (i_uid i) (i_euid i) (i_suid i) (i_gid i) (i_egid i) (i_sgid i)
    (i_tid i) (i_pid i) (i_slot i) (i_stdout_redirect i)
    PENDING_STATE_NONE 0 0.

(** ** The completion slot *)

Definition reset_pending (t : Thread) : Thread :=
  store_pending_ret_count 0 (store_pending_state PENDING_STATE_NONE t).

(** The loop [pending_rets[i].store(v)] for the first [n] values. *)
Fixpoint store_rets (i : nat) (vals : list Z) (rets : list Z) : list Z :=
  match vals with
  | [] => rets
  | v :: vals' => store_rets (S i) vals' (<[i := v]> rets)
  end.

Definition publish_results (vals : list Z) (t : Thread) : Thread :=
  let n := Nat.min (length vals) (length (t_pending_rets t)) in
  let t1 := store_pending_rets (store_rets 0 (take n vals) (t_pending_rets t)) t in
  store_pending_state PENDING_STATE_SIGNALED (store_pending_ret_count (Z.of_nat n mod 256) t1).

(** [take_pending_results]: the claim, and the values copied to [out]. *)
Definition take_pending_results (t : Thread) : Thread * option (list Z) :=
  if t_pending_state t =? PENDING_STATE_SIGNALED then
    let t1 := store_pending_state PENDING_STATE_NONE t in
    let n := Nat.min (Z.to_nat (t_pending_ret_count t1)) 4 in
    (t1, Some (take n (t_pending_rets t1)))
  else (t, None).

(** ** The state machine *)

Definition transition_allowed (from : Z) (to : ThreadState) : bool :=
  match to with
  | Assigned => from =? as_usize Ready
  | Running => from =? as_usize Assigned
  | Ready | Blocking | Suspended | Exited => from =? as_usize Running
  end.

Definition transition_to (s : ThreadState) (t : Thread) : panics Thread :=
  let from := t_state t in
  if from =? as_usize Exited then Done t
  else if negb (transition_allowed from s) then Panic
  else Done (store_state (as_usize s) t).

Definition is_parked (st : Z) : bool :=
  ((st =? as_usize Blocking) || (st =? as_usize Suspended))%bool.

Definition promote_ready_from_parked (t : Thread) : panics Thread :=
  let from := t_state t in
  if (negb (from =? as_usize Blocking) && negb (from =? as_usize Suspended))%bool then Panic
  else Done (store_state (as_usize Ready) t).

Definition try_mark_assigned (t : Thread) : panics (Thread * bool) :=
  let from := t_state t in
  if from =? as_usize Ready then Done (store_state (as_usize Assigned) t, true)
  else if from =? as_usize Exited then Done (t, false)
  else Panic.

Definition mark_running (t : Thread) : panics Thread := transition_to Running t.
Definition mark_assigned (t : Thread) : panics Thread := transition_to Assigned t.

(** ** [ThreadView] *)

Definition pending_signaled (t : Thread) : bool := t_pending_state t =? PENDING_STATE_SIGNALED.
Definition has_pending_wake (t : Thread) : bool := negb (t_wake_override t =? 0).

Definition permissions_snapshot (t : Thread) : Permissions :=
  mkPermissions (t_perms t) 0 (t_perm_role t) 0 (0, 0).

(** ** [RunningThread]: the hart's own thread *)

(** [frame.regs[i] = v as usize]; every index the code uses is below 32. *)
Definition set_reg (i : nat) (v : Z) (f : TrapFrame) : TrapFrame :=
  mkTrapFrame (<[i := u64 v]> (regs f)) (fregs f) (asid f) (scratch f).

(** The commits return the thread and the live frame they write through. *)
Definition commit_return (ret epc : Z) (f : TrapFrame) (t : Thread) : Thread * TrapFrame :=
  let f := set_reg 10 ret f in
  (store_pc (wadd epc 4) (store_frame f t), f).

Definition commit_return2 (ret0 ret1 epc : Z) (f : TrapFrame) (t : Thread) : Thread * TrapFrame :=
  let f := set_reg 11 ret1 (set_reg 10 ret0 f) in
  (store_pc (wadd epc 4) (store_frame f t), f).

Definition commit_yield (ret : option Z) (epc : Z) (f : TrapFrame) (t : Thread) : Thread * TrapFrame :=
  let f := match ret with Some r => set_reg 10 r f | None => f end in
  (store_pc (wadd epc 4) (store_frame f t), f).

Definition commit_yield_retry (epc : Z) (f : TrapFrame) (t : Thread) : Thread * TrapFrame :=
  (store_pc epc (store_frame f t), f).

Definition save_trap_frame (f : TrapFrame) (pc : Z) (t : Thread) : Thread :=
  store_pc pc (store_frame f t).

Definition set_fault (info : FaultInfo) (t : Thread) : Thread := store_fault_info (Some info) t.

Definition set_affinity_mask (mask : Z) (t : Thread) : Thread := store_affinity mask t.

Definition account_syscall (elapsed : Z) (t : Thread) : Thread :=
  store_syscall_ticks (wadd (t_syscall_ticks t) elapsed)
    (store_syscall_count (wadd (t_syscall_count t) 1) t).

Definition take_handle (t : Thread) : Thread * option nat := (store_handle None t, t_handle t).

(** The marshalling loop [frame.regs[10 + i] = vals[i] as usize]. *)
Fixpoint marshal (i : nat) (vals : list Z) (f : TrapFrame) : TrapFrame :=
  match vals with
  | [] => f
  | v :: vals' => marshal (S i) vals' (set_reg i v f)
  end.

(** Yields a [Runnable] iff it does not panic. *)
Definition into_runnable (t : Thread) : panics Thread :=
  if t_state t =? as_usize Ready then Done t else Panic.

Definition resume_with (vals : list Z) (t : Thread) : panics Thread :=
  let n := Nat.min (length vals) 4 in
  promote_ready_from_parked (store_frame (marshal 10 (take n vals) (t_frame t)) t).

(** The flag says whether a [Runnable] was yielded. *)
Definition try_claim_own_pending (t : Thread) : panics (Thread * bool) :=
  match take_pending_results t with
  | (t1, None) => Done (t1, false)
  | (t1, Some rets) =>
      t2 <-! promote_ready_from_parked (store_frame (marshal 10 rets (t_frame t1)) t1) ;;
      Done (t2, true)
  end.

(** ** [ManagerThread] *)

Definition manager_frame_reg (i : nat) (t : Thread) : option Z :=
  let st := t_state t in
  if ((st =? as_usize Running) || (st =? as_usize Assigned))%bool then None
  else regs (t_frame t) !! i.

Definition note_wake (reason : Z) (t : Thread) : Thread :=
  store_wake_override (Z.lor (t_wake_override t) reason) t.

(** The claims: whether the capability is granted. *)
Definition claim_parked (t : Thread) : bool := is_parked (t_state t).
Definition claim_ready (t : Thread) : bool := t_state t =? as_usize Ready.
Definition claim_exited (t : Thread) : bool := t_state t =? as_usize Exited.

Definition set_permissions (p : Permissions) (t : Thread) : Thread :=
  store_perm_role (role p) (store_perms (perms p) t).

Definition set_uid_triplet (uid euid suid : Z) (t : Thread) : Thread :=
  store_suid suid (store_euid euid (store_uid uid t)).

Definition set_gid_triplet (gid egid sgid : Z) (t : Thread) : Thread :=
  store_sgid sgid (store_egid egid (store_gid gid t)).

Definition mark_exited (t : Thread) : Thread := store_state (as_usize Exited) t.

(** ** [ParkedMut] *)

Definition write_rets (vals : list Z) (t : Thread) : panics Thread :=
  let n := Nat.min (length vals) 4 in
  promote_ready_from_parked
    (reset_pending (store_frame (marshal 10 (take n vals) (t_frame t)) t)).

Definition consume_wake (t : Thread) : Thread :=
  store_last_wake_reason (t_wake_override t) (store_wake_override 0 t).

Definition resume_published (t : Thread) : panics (Thread * bool) :=
  match take_pending_results t with
  | (t1, None) => Done (t1, false)
  | (t1, Some rets) =>
      t2 <-! promote_ready_from_parked
               (consume_wake (store_frame (marshal 10 rets (t_frame t1)) t1)) ;;
      Done (t2, true)
  end.

Definition promote_wake (t : Thread) : panics Thread :=
  promote_ready_from_parked (consume_wake t).

(** ** System-call outcomes *)

Inductive SyscallOutcome :=
| Return (ret : Z)
| Return2 (ret0 ret1 : Z)
| DoneReschedule (ret : Z)
| SleepUntil (deadline : Z)
| ParkForPublish
| RetryOnDoorbell
| RetryUntilDeadline (deadline : Z).

Inductive ShimAction :=
| Resume
| Yield (s : ThreadState).

Definition commit_allowed (t : Thread) : bool :=
  if negb (bool_decide (t_mode t = User)) then false
  else
    let st := t_state t in
    ((st =? as_usize Running) || (st =? as_usize Suspended) || (st =? as_usize Blocking))%bool.

Definition apply_syscall_outcome (o : SyscallOutcome) (t : Thread) (f : TrapFrame) (epc : Z)
    : Thread * TrapFrame * ShimAction :=
  if negb (commit_allowed t) then (t, f, Resume)
  else
    match o with
    | Return ret => (commit_return ret epc f t, Resume)
    | Return2 ret0 ret1 => (commit_return2 ret0 ret1 epc f t, Resume)
    | DoneReschedule ret => (commit_yield (Some ret) epc f t, Yield Ready)
    | SleepUntil deadline =>
        let '(t, f) := commit_yield (Some 0) epc f t in
        (store_wake_time deadline t, f, Yield Suspended)
    | ParkForPublish => (commit_yield None epc f t, Yield Blocking)
    | RetryOnDoorbell =>
        let '(t, f) := commit_yield_retry epc f t in
        (store_wake_time (W64 - 1) t, f, Yield Suspended)
    | RetryUntilDeadline deadline =>
        let '(t, f) := commit_yield_retry epc f t in
        (store_wake_time deadline t, f, Yield Suspended)
    end.

Definition update_trap_frame (t : Thread) (epc : Z) (f : TrapFrame) (from_user : bool)
    : Thread * TrapFrame :=
  let f := mkTrapFrame (regs f) (fregs f) (t_pid t) (scratch f) in
  let trap_was_in_thread := Bool.eqb (bool_decide (t_mode t = User)) from_user in
  if negb trap_was_in_thread then (t, f)
  else
    let st := t_state t in
    if ((st =? as_usize Running) || (st =? as_usize Suspended) || (st =? as_usize Blocking))%bool
    then (save_trap_frame f epc t, f)
    else (t, f).

(** ** Specification vocabulary *)

(** Every way the kernel acts on a thread. The first group runs on the hart
    that owns the thread, the second under the scheduler lock, where the
    [ParkedMut] verbs are behind [claim_parked]. *)
Inductive HartVerb :=
| HTransition (s : ThreadState)
| HApply (o : SyscallOutcome) (f : TrapFrame) (epc : Z)
| HTrap (epc : Z) (f : TrapFrame) (from_user : bool)
| HIntoRunnable
| HResumeWith (vals : list Z)
| HTryClaim
| HSetFault (info : FaultInfo)
| HSetAffinity (mask : Z)
| HAccount (elapsed : Z)
| HResetPending.

Inductive ManagerVerb :=
| MPublish (vals : list Z)
| MNoteWake (reason : Z)
| MWriteRets (vals : list Z)
| MResumePublished
| MPromoteWake
| MClaimReady
| MTryMarkAssigned
| MSetPermissions (p : Permissions)
| MSetUid (uid euid suid : Z)
| MSetGid (gid egid sgid : Z)
| MMarkExited.

(** A verb's outcome: the thread after it and whether it yielded a token. *)
Definition run_hart (v : HartVerb) (t : Thread) : panics (Thread * bool) :=
  match v with
  | HTransition s => t' <-! transition_to s t ;; Done (t', false)
  | HApply o f epc => Done (fst (fst (apply_syscall_outcome o t f epc)), false)
  | HTrap epc f u => Done (fst (update_trap_frame t epc f u), false)
  | HIntoRunnable => t' <-! into_runnable t ;; Done (t', true)
  | HResumeWith vals => t' <-! resume_with vals t ;; Done (t', true)
  | HTryClaim => try_claim_own_pending t
  | HSetFault info => Done (set_fault info t, false)
  | HSetAffinity m => Done (set_affinity_mask m t, false)
  | HAccount e => Done (account_syscall e t, false)
  | HResetPending => Done (reset_pending t, false)
  end.

Definition run_manager (v : ManagerVerb) (t : Thread) : panics (Thread * bool) :=
  match v with
  | MPublish vals => Done (publish_results vals t, false)
  | MNoteWake r => Done (note_wake r t, false)
  | MWriteRets vals =>
      if claim_parked t then t' <-! write_rets vals t ;; Done (t', true) else Done (t, false)
  | MResumePublished => if claim_parked t then resume_published t else Done (t, false)
  | MPromoteWake =>
      if claim_parked t then t' <-! promote_wake t ;; Done (t', true) else Done (t, false)
  | MClaimReady => Done (t, claim_ready t)
  | MTryMarkAssigned => r <-! try_mark_assigned t ;; Done (fst r, false)
  | MSetPermissions p => Done (set_permissions p t, false)
  | MSetUid u e s => Done (set_uid_triplet u e s t, false)
  | MSetGid u e s => Done (set_gid_triplet u e s t, false)
  | MMarkExited => Done (mark_exited t, false)
  end.

(** The edges of the thread life cycle; [edge_kill] is the un-gated kill. *)
Inductive edge : ThreadState -> ThreadState -> Prop :=
| edge_assign : edge Ready Assigned
| edge_dispatch : edge Assigned Running
| edge_yield : edge Running Ready
| edge_block : edge Running Blocking
| edge_sleep : edge Running Suspended
| edge_wake_blocked : edge Blocking Ready
| edge_wake_sleeper : edge Suspended Ready
| edge_kill s : edge s Exited.

(** The state word holds a discriminant. *)
Definition in_state (t : Thread) (s : ThreadState) : Prop := t_state t = as_usize s.

#[export] Instance in_state_dec t s : Decision (in_state t s).
Proof. unfold in_state. apply _. Defined.

(** The registers a resume delivers: [a0..] replaced by the first four values. *)
Definition delivered (vals : list Z) (f f' : TrapFrame) : Prop :=
  fregs f' = fregs f /\ asid f' = asid f /\ scratch f' = scratch f /\
  forall i, regs f' !! i =
    match (if decide (10 <= i)%nat then take 4 vals !! (i - 10)%nat else None) with
    | Some v => (fun _ => u64 v) <$> (regs f !! i)
    | None => regs f !! i
    end.

(** ** Lemmas *)

Lemma as_usize_inj s s' : as_usize s = as_usize s' -> s = s'.
Proof. by destruct s, s'. Qed.

(** Runs the definitions of the verbs and reflects their tests. *)
Ltac run_verbs :=
  unfold run_hart, run_manager, transition_to, into_runnable, resume_with, try_claim_own_pending,
    write_rets, resume_published, promote_wake, promote_ready_from_parked, take_pending_results,
    try_mark_assigned, claim_parked, claim_ready, is_parked, apply_syscall_outcome,
    update_trap_frame, transition_allowed, pbind in *;
  cbn -[u64 wadd Z.lor W64 Nat.min] in *.

Lemma marshal_regs vals : forall i f j,
  regs (marshal i vals f) !! j =
    match (if decide (i <= j)%nat then vals !! (j - i)%nat else None) with
    | Some v => (fun _ => u64 v) <$> (regs f !! j)
    | None => regs f !! j
    end.
Proof.
  induction vals as [| v vals IH]; intros i f j; simpl.
  - by destruct (decide _).
  - rewrite IH. simpl. destruct (decide (S i <= j)%nat), (decide (i <= j)%nat); try lia.
    + replace (j - i)%nat with (S (j - S i)) by lia. simpl.
      by rewrite list_lookup_insert_ne by lia.
    + replace (j - i)%nat with 0%nat by lia. simpl. replace j with i by lia.
      destruct (decide (i < length (regs f))%nat).
      * rewrite list_lookup_insert_eq by done.
        by destruct (lookup_lt_is_Some_2 (regs f) i l0) as [? ->].
      * rewrite list_insert_ge by lia. by rewrite lookup_ge_None_2 by lia.
    + by rewrite list_lookup_insert_ne by lia.
Qed.

Lemma marshal_rest vals : forall i f,
  fregs (marshal i vals f) = fregs f /\ asid (marshal i vals f) = asid f /\
  scratch (marshal i vals f) = scratch f.
Proof. induction vals as [| v vals IH]; intros i f; simpl; [done |]. apply (IH (S i) (set_reg i v f)). Qed.

Lemma marshal_delivered vals f : delivered vals f (marshal 10 (take 4 vals) f).
Proof.
  destruct (marshal_rest (take 4 vals) 10 f) as (H1 & H2 & H3).
  repeat split; try done. intros i. apply marshal_regs.
Qed.

Lemma store_rets_length vals : forall i rets, length (store_rets i vals rets) = length rets.
Proof. induction vals as [| v vals IH]; intros i rets; simpl; [done |]. by rewrite IH, length_insert. Qed.

Lemma store_rets_lookup vals : forall i rets,
  (i + length vals <= length rets)%nat ->
  store_rets i vals rets = take i rets ++ vals ++ drop (i + length vals) rets.
Proof.
  induction vals as [| v vals IH]; intros i rets H; simpl in *.
  - by rewrite Nat.add_0_r, take_drop.
  - rewrite IH by (rewrite length_insert; lia).
    rewrite (take_S_r _ _ v) by (apply list_lookup_insert_eq; lia).
    rewrite take_insert_ge, drop_insert_lt by lia.
    rewrite <- app_assoc. simpl. by replace (i + S (length vals))%nat with (S (i + length vals)) by lia.
Qed.

Lemma promote_parked t :
  claim_parked t = true -> promote_ready_from_parked t = Done (store_state (as_usize Ready) t).
Proof.
  unfold claim_parked, is_parked, promote_ready_from_parked. rewrite <- negb_orb. by intros ->.
Qed.

Lemma take_unsignaled t :
  t_pending_state t = PENDING_STATE_NONE -> take_pending_results t = (t, None).
Proof. unfold take_pending_results. by intros ->. Qed.

Lemma publish_take vals t :
  length (t_pending_rets t) = 4%nat ->
  exists rets, length rets = 4%nat /\
  take_pending_results (publish_results vals t) =
  (store_pending_rets rets
     (store_pending_ret_count (Z.of_nat (Nat.min (length vals) 4)) (store_pending_state PENDING_STATE_NONE t)),
   Some (take 4 vals)).
Proof.
  intros Hl. set (n := Nat.min (length vals) 4).
  exists (store_rets 0 (take n vals) (t_pending_rets t)).
  assert (Hn : length (take n vals) = n) by (rewrite length_take; lia).
  rewrite store_rets_lookup by lia. split.
  { rewrite !length_app, take_0, length_drop. simpl. lia. }
  unfold take_pending_results, publish_results. cbn -[Nat.min Z.modulo]. rewrite Hl. fold n.
  rewrite (Z.mod_small (Z.of_nat n) 256) by lia.
  rewrite store_rets_lookup by lia.
  unfold store_pending_rets, store_pending_ret_count, store_pending_state. cbn -[Nat.min].
  do 2 f_equal. rewrite Nat2Z.id. simpl.
  replace (Nat.min n 4) with n by lia. rewrite take_app_length' by lia.
  subst n. destruct (decide (length vals <= 4)%nat).
  - by rewrite !take_ge by lia.
  - by replace (Nat.min (length vals) 4) with 4%nat by lia.
Qed.

(** Names the state a verb ends in and closes the edge obligations. *)
Ltac edge_to s :=
  exists s; solve [split; [reflexivity || assumption |];
                   split; [first [by left | right; constructor] |]; split; done].
Ltac pick_state :=
  first [edge_to Ready | edge_to Blocking | edge_to Assigned | edge_to Running
        | edge_to Exited | edge_to Suspended].

(** The state after a verb, as an edge of the life cycle. *)
Definition follows_edge (s : ThreadState) (t' : Thread) (tok : bool) : Prop :=
  exists s', in_state t' s' /\ (s' = s \/ edge s s') /\
    (s = Exited -> s' = Exited) /\ (tok = true -> s' = Ready).

Lemma hart_verb_edge v t t' tok s :
  in_state t s -> run_hart v t = Done (t', tok) -> follows_edge s t' tok.
Proof.
  unfold follows_edge, in_state. intros Hs Hr.
  destruct v; run_verbs; rewrite ?Hs in Hr.
  - destruct s, s0; simplify_eq/=; pick_state.
  - destruct (commit_allowed t), o; simplify_eq/=; destruct s; pick_state.
  - repeat case_match; simplify_eq/=; destruct s; pick_state.
  - destruct s; simplify_eq/=; pick_state.
  - destruct s; simplify_eq/=; pick_state.
  - destruct (t_pending_state t =? _) eqn:E; simpl in Hr; rewrite ?Hs in Hr;
      destruct s; simplify_eq/=; pick_state.
  - simplify_eq/=. destruct s; pick_state.
  - simplify_eq/=. destruct s; pick_state.
  - simplify_eq/=. destruct s; pick_state.
  - simplify_eq/=. destruct s; pick_state.
Qed.

Lemma manager_verb_edge v t t' tok s :
  in_state t s -> run_manager v t = Done (t', tok) -> follows_edge s t' tok.
Proof.
  unfold follows_edge, in_state. intros Hs Hr.
  destruct v; run_verbs; rewrite ?Hs in Hr;
    try (destruct s; simplify_eq/=; pick_state).
  destruct (t_pending_state t =? _) eqn:E; simpl in Hr; rewrite ?Hs in Hr;
    destruct s; simplify_eq/=; pick_state.
Qed.

(** Traces of verbs from either side. *)
Inductive verb_trace : Thread -> Thread -> Prop :=
| trace_refl t : verb_trace t t
| trace_hart v t t1 t2 tok :
    run_hart v t = Done (t1, tok) -> verb_trace t1 t2 -> verb_trace t t2
| trace_manager v t t1 t2 tok :
    run_manager v t = Done (t1, tok) -> verb_trace t1 t2 -> verb_trace t t2.

Lemma verb_trace_edges t t' s :
  in_state t s -> verb_trace t t' ->
  exists s', in_state t' s' /\ rtc edge s s' /\ (s = Exited -> s' = Exited).
Proof.
  intros Hs Ht. revert s Hs.
  induction Ht as [t | v t t1 t2 tok Hr _ IH | v t t1 t2 tok Hr _ IH]; intros s Hs.
  - exists s. eauto using rtc_refl.
  - destruct (hart_verb_edge _ _ _ _ _ Hs Hr) as (s1 & H1 & He & Hx & _).
    destruct (IH s1 H1) as (s2 & H2 & Hr2 & Hx2). exists s2. split; [done |].
    split; [| auto]. destruct He as [-> | He]; [done | by eapply rtc_l].
  - destruct (manager_verb_edge _ _ _ _ _ Hs Hr) as (s1 & H1 & He & Hx & _).
    destruct (IH s1 H1) as (s2 & H2 & Hr2 & Hx2). exists s2. split; [done |].
    split; [| auto]. destruct He as [-> | He]; [done | by eapply rtc_l].
Qed.

(** ** Properties *)


(** An enqueue token is yielded only for a thread that is [Ready]
    afterwards, and only from a parked thread or one already [Ready]: no verb
    makes a running, assigned or dead thread dispatchable. *)
Theorem token_implies_ready v t t' s :
  in_state t s ->
  (run_hart v t = Done (t', true) -> in_state t' Ready /\ s ∈ [Ready; Blocking; Suspended]) /\
  (forall m, run_manager m t = Done (t', true) ->
     in_state t' Ready /\ s ∈ [Ready; Blocking; Suspended]).
Proof.
  intros Hs.
  assert (Hfrom : forall s', (s' = s \/ edge s s') -> s' = Ready -> s ∈ [Ready; Blocking; Suspended; Running]).
  { intros s' [-> | He] ->; [set_solver |]. inversion He; subst; set_solver. }
  split; [intros Hr | intros m Hr].
  - destruct (hart_verb_edge _ _ _ _ _ Hs Hr) as (s' & Hs' & He & _ & Htok).
    specialize (Htok eq_refl) as ->. split; [done |]. specialize (Hfrom _ He eq_refl).
    destruct s; try set_solver. unfold in_state in Hs.
    destruct v as [[] | | | | | | | | |]; run_verbs; rewrite ?Hs in Hr; simplify_eq/=.
    by destruct (t_pending_state t =? _); simpl in Hr; rewrite ?Hs in Hr; simplify_eq/=.
  - destruct (manager_verb_edge _ _ _ _ _ Hs Hr) as (s' & Hs' & He & _ & Htok).
    specialize (Htok eq_refl) as ->. split; [done |]. specialize (Hfrom _ He eq_refl).
    destruct s; try set_solver. unfold in_state in Hs.
    destruct m; run_verbs; rewrite ?Hs in Hr; simplify_eq/=.
Qed.

(** The manager never writes the registers of a thread that a hart may be
    running: on a [Running] or [Assigned] thread every manager verb leaves the
    saved frame and the program counter alone and yields no token, and the
    frame cannot be read through the manager capability either. *)
Theorem live_frame_untouched v t t' tok s :
  in_state t s -> s = Running \/ s = Assigned -> run_manager v t = Done (t', tok) ->
  t_frame t' = t_frame t /\ t_pc t' = t_pc t /\ tok = false /\
  forall i, manager_frame_reg i t = None.
Proof.
  unfold in_state, manager_frame_reg. intros Hs Hl Hr. rewrite Hs.
  destruct Hl as [-> | ->]; destruct v; run_verbs; rewrite ?Hs in Hr; simplify_eq/=; done.
Qed.

(** Published results are delivered exactly once: resuming a parked thread
    after [publish_results] makes it [Ready] with [a0..] holding the first
    four values and every other register unchanged, and a second claim, by
    the parker or by the manager, finds nothing. *)
Theorem publish_delivers_once vals t :
  length (t_pending_rets t) = 4%nat -> claim_parked t = true ->
  exists t',
    resume_published (publish_results vals t) = Done (t', true) /\
    in_state t' Ready /\ delivered vals (t_frame t) (t_frame t') /\
    t_last_wake_reason t' = t_wake_override t /\ t_wake_override t' = 0 /\
    take_pending_results t' = (t', None).
Proof.
  intros Hl Hp. destruct (publish_take vals t Hl) as (rets & _ & Ht).
  unfold resume_published. rewrite Ht, promote_parked by exact Hp.
  eexists. split; [reflexivity |].
  split; [reflexivity |]. split; [apply marshal_delivered |].
  split; [reflexivity |]. split; [reflexivity |]. by apply take_unsignaled.
Qed.

(** The outcome of a system call is committed as its variant says: on a
    user thread in a committable state the shim resumes exactly for the
    synchronous returns, every park state matches its wake mechanism, the
    thread's frame is the live frame, [pc] stays at the [ecall] exactly for
    the retrying outcomes, and only those and [SleepUntil] set the deadline;
    any other thread is left untouched. *)
Theorem outcome_commit o t f epc :
  let '(t', f', act) := apply_syscall_outcome o t f epc in
  if commit_allowed t then
    t_frame t' = f' /\ t_state t' = t_state t /\
    act = match o with
          | Return _ | Return2 _ _ => Resume
          | DoneReschedule _ => Yield Ready
          | ParkForPublish => Yield Blocking
          | SleepUntil _ | RetryOnDoorbell | RetryUntilDeadline _ => Yield Suspended
          end /\
    t_pc t' = match o with
              | RetryOnDoorbell | RetryUntilDeadline _ => epc
              | _ => wadd epc 4
              end /\
    t_wake_time t' = match o with
                     | SleepUntil d | RetryUntilDeadline d => d
                     | RetryOnDoorbell => W64 - 1
                     | _ => t_wake_time t
                     end /\
    f' = match o with
         | Return r | DoneReschedule r => set_reg 10 r f
         | Return2 r0 r1 => set_reg 11 r1 (set_reg 10 r0 f)
         | SleepUntil _ => set_reg 10 0 f
         | ParkForPublish | RetryOnDoorbell | RetryUntilDeadline _ => f
         end
  else (t', f', act) = (t, f, Resume).
Proof.
  unfold apply_syscall_outcome. destruct (commit_allowed t); [| done]. by destruct o.
Qed.

(** The trap snapshot is taken only for the mode that trapped: the saved
    frame and [pc] change only when the trap came from the thread's own mode
    and the thread is running or parking; otherwise the thread is untouched,
    so a kernel [epc] is never stored in a user thread. *)
Theorem trap_snapshot_gated t epc f from_user :
  let '(t', f') := update_trap_frame t epc f from_user in
  asid f' = t_pid t /\ regs f' = regs f /\
  (t' = t \/
   ((t_mode t = User <-> from_user = true) /\
    t_state t ∈ [as_usize Running; as_usize Suspended; as_usize Blocking] /\
    t_pc t' = epc /\ t_frame t' = f')).
Proof.
  unfold update_trap_frame.
  destruct (Bool.eqb _ _) eqn:E; simpl; [| by repeat split; left].
  apply Bool.eqb_prop in E.
  match goal with |- context [if ?b then _ else _] => destruct b eqn:Es end;
    [| by repeat split; left].
  split; [done |]. split; [done |]. right. rewrite <- E, bool_decide_eq_true.
  split; [done |]. split; [| done]. apply orb_true_iff in Es as [[Es | Es]%orb_true_iff | Es]; to_prop;
    rewrite Es; set_solver.
Qed.

(** ** Witnesses *)

(** A user thread with tid 7 of process 3, as [create_thread] makes one. *)
Definition sample_init : ThreadInit :=
  mkThreadInit 4096 0 User 7 3 TrapFrame_empty (Some 1) 15 15
    (from_masks class_ALL class_ALL SHELL) 1000 1000 1000 1000 1000 1000 None.

Definition sample : Thread := thread_new sample_init.
Definition sample_running : Thread := store_state (as_usize Running) sample.
Definition sample_blocked : Thread := store_state (as_usize Blocking) sample.


Lemma token_implies_ready_witness :
  in_state (store_state (as_usize Ready) sample_blocked) Ready /\
  Blocking ∈ [Ready; Blocking; Suspended].
Proof.
  apply (proj2 (token_implies_ready HTryClaim sample_blocked
                  (store_state (as_usize Ready) sample_blocked) Blocking eq_refl) MPromoteWake).
  reflexivity.
Defined.

Lemma live_frame_untouched_witness :
  t_frame (publish_results [42] sample_running) = t_frame sample_running.
Proof.
  apply (live_frame_untouched (MPublish [42]) sample_running
           (publish_results [42] sample_running) false Running); [reflexivity | by left | reflexivity].
Defined.

Lemma publish_delivers_once_witness :
  exists t', resume_published (publish_results [42; -1] sample_blocked) = Done (t', true) /\
    delivered [42; -1] (t_frame sample_blocked) (t_frame t').
Proof.
  destruct (publish_delivers_once [42; -1] sample_blocked) as (t' & Hr & _ & Hd & _);
    [reflexivity | reflexivity |].
  by exists t'.
Defined.
