(* ===== verification/Sched.v ===== *)
(** * The ready queue, the sleep heap and hart assignment

    [orbit-core/src/ready_queue.rs], [orbit-core/src/sleep_heap.rs] and
    [orbit-core/src/sched.rs].

    A [*mut Thread] is an address; [Heap] maps the address of a live [Thread]
    to its contents, and reading through an address that is not live is
    [Panic]. The binary heap is kept as the sorted list of its entries, the
    order in which it would be popped; entries that compare equal stay in
    insertion order, and no statement below depends on that choice. *)

From stdpp Require Import base list option numbers sets gmap sorting.
From S2P Require Import Prelude Perms Thread.

#[local] Open Scope Z_scope.

Notation ptr := Z (only parsing).
Definition null : ptr := 0.
Notation Heap := (gmap Z Thread).

(** ** The ready queue *)

(** [Runnable] tokens, oldest first; a token is the thread's address. *)
Definition ReadyQueue := list ptr.

Definition rq_push (r : ptr) (q : ReadyQueue) : ReadyQueue := q ++ [r].

(** [r.affinity() & hart_mask != 0]. *)
Definition fits (hp : Heap) (hart_mask : Z) (r : ptr) : bool :=
  match hp !! r with
  | Some t => negb (Z.land (t_affinity t) hart_mask =? 0)
  | None => false
  end.

(** [iter().position(..)], then [remove(idx)]. *)
Fixpoint pop_for (hp : Heap) (hart_mask : Z) (q : ReadyQueue) : option (ptr * ReadyQueue) :=
  match q with
  | [] => None
  | r :: q' =>
      if fits hp hart_mask r then Some (r, q')
      else match pop_for hp hart_mask q' with
           | Some (x, q'') => Some (x, r :: q'')
           | None => None
           end
  end.

Definition rq_remove_thread (p : ptr) (q : ReadyQueue) : ReadyQueue := filter (fun r => r <> p) q.

(** ** The sleep heap *)

Record SleepEntry := mkSleepEntry {
  e_wake_time : Z;
  e_sleep_seq : Z;
  e_thread : ptr;
}.

Definition SleepHeap := list SleepEntry.

(** [SleepEntry::cmp] is [Less] or [Equal]. *)
Definition entry_le (a b : SleepEntry) : bool :=
  (e_wake_time a <? e_wake_time b) ||
  ((e_wake_time a =? e_wake_time b) && (e_sleep_seq a <=? e_sleep_seq b)).

Fixpoint insert_entry (e : SleepEntry) (h : SleepHeap) : SleepHeap :=
  match h with
  | [] => [e]
  | x :: h' => if entry_le x e then x :: insert_entry e h' else e :: h
  end.

Definition sh_push (thread : ptr) (wake_time sleep_seq : Z) (h : SleepHeap) : SleepHeap :=
  insert_entry (mkSleepEntry wake_time sleep_seq thread) h.

Definition next_wake (h : SleepHeap) : option Z := e_wake_time <$> head h.

Inductive Verdict := Stale | Transient | Live.

Definition classify (live_seq live_state entry_seq : Z) : Verdict :=
  if negb (live_seq =? entry_seq) then Stale
  else if live_state =? as_usize Suspended then Live
  else if live_state =? as_usize Ready then Stale
  else if live_state =? as_usize Exited then Stale
  else if live_state =? as_usize Blocking then Stale
  else if ((live_state =? as_usize Running) || (live_state =? as_usize Assigned))%bool then Transient
  else Stale.

(** The [while let Some(top) = peek()] loop: every turn pops the top or stops.
    The callback works on the caller's state, from which it finds the heap. *)
Fixpoint drain_woken {S} (mem : S -> Heap) (now : Z) (cb : ptr -> S -> panics S)
    (h : SleepHeap) (s : S) : panics (SleepHeap * S) :=
  match h with
  | [] => Done ([], s)
  | top :: h' =>
      match mem s !! e_thread top with
      | None => Panic
      | Some t =>
          match classify (t_sleep_seq t) (t_state t) (e_sleep_seq top) with
          | Stale => drain_woken mem now cb h' s
          | Transient => Done (h, s)
          | Live =>
              if now <? e_wake_time top then Done (h, s)
              else s' <-! cb (e_thread top) s ;; drain_woken mem now cb h' s'
          end
      end
  end.

Definition sh_remove_thread (p : ptr) (h : SleepHeap) : SleepHeap :=
  filter (fun e => e_thread e <> p) h.

(** ** Assignment to harts *)

Record HartView := mkHartView { hart_id : Z; current : ptr }.

Definition affinity_bit (v : HartView) : Z := wshl 1 (hart_id v).
Definition is_busy (v : HartView) : bool := negb (current v =? null).
Definition assign (v : HartView) (p : ptr) : HartView := mkHartView (hart_id v) p.

(** The [Scheduler] trait: the source of runnable threads. *)
Class Scheduler (S : Type) := next_runnable : Heap -> Z -> S -> option ptr * S.

(** What [assign_threads] relies on: a returned thread fits the mask, and it
    was queued and no longer is; [None] leaves everything queued and means
    that nothing queued fits. *)
Class SchedulerLaws (S : Type) `{Scheduler S} := {
  queued : S -> list ptr;
  next_runnable_some : forall hp m s p s',
    next_runnable hp m s = (Some p, s') ->
    fits hp m p = true /\ queued s ≡ₚ p :: queued s';
  next_runnable_none : forall hp m s s',
    next_runnable hp m s = (None, s') ->
    s' = s /\ Forall (fun p => fits hp m p = false) (queued s);
}.

Definition assign_thread_to (v : HartView) (p : ptr) (hp : Heap) : panics (HartView * Heap) :=
  match hp !! p with
  | None => Panic
  | Some t =>
      r <-! try_mark_assigned (store_ticks ((t_ticks t + 1) mod 256) t) ;;
      Done (if snd r then assign v p else v, <[p := fst r]> hp)
  end.

(** The loop over the remote harts; the last component collects the harts
    that [wake_hart] was called on. *)
Fixpoint assign_remotes {S} `{Scheduler S} (remotes : list HartView) (s : S) (hp : Heap)
    : panics (list HartView * S * Heap * list Z) :=
  match remotes with
  | [] => Done ([], s, hp, [])
  | hart :: rest =>
      if is_busy hart then
        r <-! assign_remotes rest s hp ;;
        let '(vs, s', hp', ipis) := r in Done (hart :: vs, s', hp', ipis)
      else
        match next_runnable hp (affinity_bit hart) s with
        | (None, s1) =>
            r <-! assign_remotes rest s1 hp ;;
            let '(vs, s', hp', ipis) := r in Done (hart :: vs, s', hp', ipis)
        | (Some p, s1) =>
            vh <-! assign_thread_to hart p hp ;;
            let '(hart', hp1) := vh in
            r <-! assign_remotes rest s1 hp1 ;;
            let '(vs, s', hp', ipis) := r in
            Done (hart' :: vs, s', hp', hart_id hart :: ipis)
        end
  end.

Definition assign_threads {S} `{Scheduler S} (self_view : HartView) (remotes : list HartView)
    (s : S) (hp : Heap) : panics (HartView * list HartView * S * Heap * list Z) :=
  r <-! assign_remotes remotes s hp ;;
  let '(vs, s1, hp1, ipis) := r in
  if negb (is_busy self_view) then
    match next_runnable hp1 (affinity_bit self_view) s1 with
    | (Some p, s2) =>
        vh <-! assign_thread_to self_view p hp1 ;;
        let '(self', hp2) := vh in Done (self', vs, s2, hp2, ipis)
    | (None, s2) => Done (self_view, vs, s2, hp1, ipis)
    end
  else Done (self_view, vs, s1, hp1, ipis).

(** ** Ready-queue lemmas *)

Lemma pop_for_split hp m q p q' :
  pop_for hp m q = Some (p, q') ->
  exists l1 l2, q = l1 ++ p :: l2 /\ q' = l1 ++ l2 /\
    Forall (fun r => fits hp m r = false) l1 /\ fits hp m p = true.
Proof.
  revert q'. induction q as [| r q IH]; intros q'; simpl; [done |].
  destruct (fits hp m r) eqn:Ef.
  - intros [= -> ->]. by exists [], q'.
  - destruct (pop_for hp m q) as [[x q''] |]; [| done]. intros [= -> <-].
    destruct (IH q'' eq_refl) as (l1 & l2 & -> & -> & Hf & Hp).
    exists (r :: l1), l2. split_and!; auto.
Qed.

Lemma pop_for_none hp m q :
  pop_for hp m q = None <-> Forall (fun r => fits hp m r = false) q.
Proof.
  induction q as [| r q IH]; simpl; [done |].
  destruct (fits hp m r) eqn:Ef.
  - split; [done |]. inversion 1; congruence.
  - rewrite Forall_cons, <- IH. destruct (pop_for hp m q) as [[] |]; naive_solver.
Qed.

#[export] Instance ready_queue_scheduler : Scheduler ReadyQueue := fun hp m q =>
  match pop_for hp m q with
  | Some (p, q') => (Some p, q')
  | None => (None, q)
  end.

#[export] Program Instance ready_queue_laws : SchedulerLaws ReadyQueue := {| queued := id |}.
Next Obligation.
  unfold next_runnable, ready_queue_scheduler. intros hp m q.
  intros p q'. destruct (pop_for hp m q) as [[x q''] |] eqn:E; intros [= <- <-].
  apply pop_for_split in E as (l1 & l2 & -> & -> & _ & Hp). split; [done |].
  symmetry. apply Permutation_middle.
Qed.
Next Obligation.
  unfold next_runnable, ready_queue_scheduler. intros hp m q q'.
  destruct (pop_for hp m q) as [[x q''] |] eqn:E; intros [= <-].
  split; [done |]. by apply pop_for_none.
Qed.

(** ** Sleep-heap lemmas *)

Definition heap_sorted (h : SleepHeap) : Prop := StronglySorted (fun a b => entry_le a b = true) h.

Lemma entry_le_total a b : entry_le a b = false -> entry_le b a = true.
Proof. unfold entry_le. intros H. rewrite !orb_true_iff, !andb_true_iff. to_prop.
  apply andb_false_iff in H0. rewrite Z.ltb_lt, Z.eqb_eq, Z.leb_le. rewrite Z.eqb_neq, Z.leb_gt in H0. lia.
Qed.

Lemma entry_le_trans a b c : entry_le a b = true -> entry_le b c = true -> entry_le a c = true.
Proof.
  unfold entry_le. rewrite !orb_true_iff, !andb_true_iff, !Z.ltb_lt, !Z.eqb_eq, !Z.leb_le. lia.
Qed.

Lemma elem_of_insert_entry e x h : x ∈ insert_entry e h <-> x = e \/ x ∈ h.
Proof.
  induction h as [| y h IH]; simpl; [set_solver |]. destruct (entry_le y e); set_solver.
Qed.

Lemma insert_entry_perm e h : insert_entry e h ≡ₚ e :: h.
Proof.
  induction h as [| y h IH]; simpl; [done |]. destruct (entry_le y e); [| done].
  rewrite IH. apply Permutation_swap.
Qed.

Lemma insert_entry_sorted e h : heap_sorted h -> heap_sorted (insert_entry e h).
Proof.
  unfold heap_sorted. induction 1 as [| y h Hs IH Hf]; simpl; [repeat constructor |].
  destruct (entry_le y e) eqn:E.
  - constructor; [done |]. apply Forall_forall. intros x [-> | Hx]%elem_of_insert_entry; [done |].
    by rewrite Forall_forall in Hf; apply Hf.
  - constructor; [by constructor |]. apply entry_le_total in E. constructor; [done |].
    eapply Forall_impl; [exact Hf |]. intros x Hx. by eapply entry_le_trans.
Qed.

(** ** Assignment lemmas *)

(** The thread after it was popped: its tick is bumped, and it is [Assigned]
    unless it had been killed while queued. *)
Definition popped (t : Thread) : Thread :=
  let t1 := store_ticks ((t_ticks t + 1) mod 256) t in
  if t_state t =? as_usize Ready then store_state (as_usize Assigned) t1 else t1.

Definition is_ready (hp : Heap) (p : ptr) : Prop :=
  exists t, hp !! p = Some t /\ t_state t = as_usize Ready.

#[export] Instance is_ready_dec hp p : Decision (is_ready hp p).
Proof.
  unfold is_ready. destruct (hp !! p) as [t |] eqn:E.
  - destruct (decide (t_state t = as_usize Ready)); [left; eauto | right; naive_solver].
  - right. naive_solver.
Defined.

(** Every queued thread is live and is [Ready], or was killed while queued. *)
Definition dispatchable (hp : Heap) (p : ptr) : Prop :=
  exists t, hp !! p = Some t /\ (in_state t Ready \/ in_state t Exited).

(** The threads newly published by a pass, hart by hart. *)
Definition newly (vs vs' : list HartView) : list ptr :=
  omap (fun '(v, v') => if decide (current v = current v') then None else Some (current v'))
    (zip vs vs').

(** The view of a hart before and after a pass. *)
Definition view_step (hp : Heap) (v v' : HartView) : Prop :=
  v' = v \/
  exists p, is_busy v = false /\ v' = assign v p /\ is_ready hp p /\ fits hp (affinity_bit v) p = true.

Lemma popped_affinity t : t_affinity (popped t) = t_affinity t.
Proof. unfold popped. by case_match. Qed.

Lemma fits_popped hp p t m q :
  hp !! p = Some t -> fits (<[p := popped t]> hp) m q = fits hp m q.
Proof.
  intros Ht. unfold fits. destruct (decide (p = q)) as [<- | Hne].
  - by rewrite lookup_insert_eq, Ht, popped_affinity.
  - by rewrite lookup_insert_ne.
Qed.

Lemma assign_thread_to_ok v p hp :
  dispatchable hp p ->
  exists t, hp !! p = Some t /\
    assign_thread_to v p hp =
      Done (if decide (is_ready hp p) then assign v p else v, <[p := popped t]> hp).
Proof.
  intros (t & Ht & Hs). exists t. split; [done |]. unfold assign_thread_to. rewrite Ht.
  unfold try_mark_assigned, popped, in_state in *. cbn [t_state store_ticks].
  destruct Hs as [Hs | Hs]; rewrite Hs; simpl.
  - by rewrite decide_True by (exists t; done).
  - rewrite decide_False; [done |]. intros (t' & Ht' & Hs'). rewrite Ht in Ht'. simplify_eq.
    by rewrite Hs in Hs'.
Qed.

Lemma dispatchable_insert hp p q t : p <> q -> dispatchable hp q -> dispatchable (<[p := t]> hp) q.
Proof. intros Hne (t' & Ht' & Hs). exists t'. by rewrite lookup_insert_ne. Qed.

Lemma is_ready_insert hp p q t : p <> q -> is_ready (<[p := t]> hp) q <-> is_ready hp q.
Proof. intros Hne. unfold is_ready. by rewrite lookup_insert_ne. Qed.

Lemma newly_one v v' :
  newly [v] [v'] = if decide (current v = current v') then [] else [current v'].
Proof. unfold newly. simpl. by destruct (decide _). Qed.

Lemma newly_app vs vs' ws ws' :
  length vs = length vs' -> newly (vs ++ ws) (vs' ++ ws') = newly vs vs' ++ newly ws ws'.
Proof.
  intros Hl. unfold newly. rewrite (zip_with_app pair) by done. apply omap_app.
Qed.

Lemma popped_not_ready hp p t : hp !! p = Some (popped t) -> ~ is_ready hp p.
Proof.
  intros Hp (t' & Ht' & Hs'). simplify_eq. unfold popped in Hs'.
  destruct (t_state t =? as_usize Ready) eqn:E; simpl in Hs'; [done |]. by rewrite Hs' in E.
Qed.

Section Assign.
Context {S : Type} `{SchedulerLaws S}.

(** What a pass over the harts [vs] did: [taken] left the queue, each taken
    thread was popped, and the [Ready] ones went to idle harts they fit. *)
Definition pass_ok (hp hp' : Heap) (s s' : S) (vs vs' : list HartView) (taken : list ptr) : Prop :=
  queued s ≡ₚ taken ++ queued s' /\
  (forall p, hp' !! p = if decide (p ∈ taken) then popped <$> (hp !! p) else hp !! p) /\
  Forall2 (view_step hp) vs vs' /\
  newly vs vs' = filter (is_ready hp) taken.

(** What holds of the queue before and after a pass. *)
Definition queue_ok (hp : Heap) (s : S) : Prop :=
  NoDup (queued s) /\ Forall (dispatchable hp) (queued s) /\ hp !! null = None.

Lemma pass_ok_keep hp s v : pass_ok hp hp s s [v] [v] [].
Proof.
  split_and!; [done | | constructor; [by left | constructor] | by rewrite newly_one, decide_True].
  intros p. by rewrite decide_False by set_solver.
Qed.

Lemma pass_ok_take hp (s s1 : S) p v t :
  hp !! null = None -> hp !! p = Some t -> is_busy v = false ->
  fits hp (affinity_bit v) p = true -> queued s ≡ₚ p :: queued s1 ->
  pass_ok hp (<[p := popped t]> hp) s s1 [v] [if decide (is_ready hp p) then assign v p else v] [p].
Proof.
  intros Hnull Ht Hb Hf Hq.
  assert (Hn : p <> null) by (intros ->; congruence).
  assert (Hc : current v = null) by (unfold is_busy in Hb; by to_prop).
  split_and!; [done | | |].
  - intros q. destruct (decide (p = q)) as [<- | Hne].
    + rewrite decide_True by set_solver. by rewrite lookup_insert_eq, Ht.
    + rewrite decide_False by set_solver. by rewrite lookup_insert_ne.
  - constructor; [| constructor]. destruct (decide (is_ready hp p)); [right; by exists p | by left].
  - rewrite newly_one, filter_cons. destruct (decide (is_ready hp p)); simpl.
    + rewrite Hc. by rewrite decide_False by done.
    + by rewrite decide_True by done.
Qed.

Lemma pass_ok_app hp hp1 hp2 s s1 s2 vs vs' ws ws' tk1 tk2 :
  NoDup (queued s) ->
  pass_ok hp hp1 s s1 vs vs' tk1 -> pass_ok hp1 hp2 s1 s2 ws ws' tk2 ->
  pass_ok hp hp2 s s2 (vs ++ ws) (vs' ++ ws') (tk1 ++ tk2).
Proof.
  intros Hnd (Q1 & M1 & V1 & N1) (Q2 & M2 & V2 & N2).
  assert (Hdis : forall p, p ∈ tk1 -> p ∉ tk2).
  { intros p Hp1 Hp2. rewrite Q1, Q2 in Hnd. apply NoDup_app in Hnd as (_ & Hd & _). set_solver. }
  assert (Hkeep : forall p, p ∉ tk1 -> hp1 !! p = hp !! p).
  { intros p Hp. rewrite M1. by rewrite decide_False by done. }
  assert (Hr : forall p, is_ready hp1 p -> p ∉ tk1 /\ is_ready hp p).
  { intros p Hp. destruct (decide (p ∈ tk1)) as [Hin | Hin].
    - exfalso. destruct Hp as (t & Ht & Hs). pose proof (M1 p) as Hm. rewrite decide_True in Hm by done.
      rewrite Ht in Hm. destruct (hp !! p) as [t0 |]; simplify_eq/=.
      by apply (popped_not_ready hp1 p t0); [| exists (popped t0)].
    - split; [done |]. unfold is_ready in *. by rewrite <- (Hkeep p Hin). }
  split_and!.
  - by rewrite Q1, Q2, app_assoc.
  - intros p. rewrite M2. destruct (decide (p ∈ tk2)).
    + rewrite decide_True by set_solver. rewrite Hkeep; [done | set_solver].
    + rewrite M1. destruct (decide (p ∈ tk1)).
      * by rewrite decide_True by set_solver.
      * by rewrite decide_False by set_solver.
  - apply Forall2_app; [done |]. eapply Forall2_impl; [exact V2 |].
    intros w w' [-> | (p & Hw & -> & [Hp Hrp]%Hr & Hf)]; [by left |]. right. exists p.
    split_and!; try done. unfold fits in *. by rewrite <- (Hkeep p Hp).
  - rewrite newly_app by (by eapply Forall2_length). rewrite filter_app, N1, N2. f_equal.
    apply list_filter_ext_in. intros p Hp. split; [by intros [_ ?]%Hr |].
    unfold is_ready. rewrite Hkeep; [done | set_solver].
Qed.

(** One idle hart's turn, shared by the remote loop and the caller's own hart. *)
Lemma take_one hp m (s s1 : S) p v :
  queue_ok hp s -> next_runnable hp m s = (Some p, s1) ->
  exists t, hp !! p = Some t /\ fits hp m p = true /\ queued s ≡ₚ p :: queued s1 /\
    queue_ok (<[p := popped t]> hp) s1 /\
    assign_thread_to v p hp =
      Done (if decide (is_ready hp p) then assign v p else v, <[p := popped t]> hp).
Proof.
  intros (Hnd & Hd & Hnull) Hn. apply next_runnable_some in Hn as [Hf Hp].
  rewrite Hp in Hnd. apply NoDup_cons in Hnd as [Hni Hnd].
  rewrite Hp in Hd. apply Forall_cons in Hd as [Hdp Hd].
  destruct (assign_thread_to_ok v p hp Hdp) as (t & Ht & He).
  exists t. unfold queue_ok. split_and!; try done.
  - rewrite Forall_forall in *. intros q Hq. apply dispatchable_insert; [set_solver | auto].
  - rewrite lookup_insert_ne; [done | intros ->; congruence].
Qed.

Lemma assign_remotes_ok remotes : forall (s : S) hp,
  queue_ok hp s ->
  exists vs s' hp' ipis taken,
    assign_remotes remotes s hp = Done (vs, s', hp', ipis) /\
    pass_ok hp hp' s s' remotes vs taken /\ queue_ok hp' s'.
Proof.
  induction remotes as [| hart rest IH]; intros s hp Hok; simpl.
  { exists [], s, hp, [], []. split; [done |]. split; [| done].
    split_and!; [done | | constructor | done]. intros p. by rewrite decide_False by set_solver. }
  assert (Hskip : exists vs s' hp' ipis taken,
    (r <-! assign_remotes rest s hp ;;
     let '(vs, s', hp', ipis) := r in Done (hart :: vs, s', hp', ipis)) = Done (vs, s', hp', ipis) /\
    pass_ok hp hp' s s' (hart :: rest) vs taken /\ queue_ok hp' s').
  { destruct (IH s hp Hok) as (vs & s' & hp' & ipis & taken & -> & Hp & Hok').
    exists (hart :: vs), s', hp', ipis, taken. split; [done |]. split; [| done].
    apply (pass_ok_app hp hp hp' s s s' [hart] [hart] rest vs [] taken);
      [apply Hok | apply pass_ok_keep | done]. }
  destruct (is_busy hart) eqn:Eb; [done |].
  destruct (next_runnable hp (affinity_bit hart) s) as [[p |] s1] eqn:En.
  - destruct (take_one hp _ s s1 p hart Hok En) as (t & Ht & Hf & Hq & Hok1 & ->). simpl.
    destruct (IH s1 _ Hok1) as (vs & s' & hp' & ipis & taken & -> & Hp & Hok'). simpl.
    eexists _, s', hp', _, ([p] ++ taken). split; [done |]. split; [| done].
    eapply (pass_ok_app _ _ _ s s1 s' [hart] [_]); [apply Hok | | exact Hp].
    apply pass_ok_take; done || apply Hok.
  - apply next_runnable_none in En as [-> _]. done.
Qed.

(** The whole pass, the caller's own hart last. *)
Lemma assign_threads_ok self remotes (s : S) hp :
  queue_ok hp s ->
  exists self' vs s' hp' ipis taken,
    assign_threads self remotes s hp = Done (self', vs, s', hp', ipis) /\
    pass_ok hp hp' s s' (remotes ++ [self]) (vs ++ [self']) taken /\ queue_ok hp' s'.
Proof.
  intros Hok. destruct (assign_remotes_ok remotes s hp Hok)
    as (vs & s1 & hp1 & ipis & tk1 & Hr & Hp1 & Hok1).
  unfold assign_threads. rewrite Hr. simpl.
  assert (Hskip : pass_ok hp hp1 s s1 (remotes ++ [self]) (vs ++ [self]) (tk1 ++ [])).
  { eapply pass_ok_app; [apply Hok | exact Hp1 | apply pass_ok_keep]. }
  destruct (is_busy self) eqn:Eb; simpl; [by eexists self, vs, s1, hp1, ipis, _ |].
  destruct (next_runnable hp1 (affinity_bit self) s1) as [[p |] s2] eqn:En.
  - destruct (take_one hp1 _ s1 s2 p self Hok1 En) as (t & Ht & Hf & Hq & Hok2 & ->). simpl.
    eexists _, vs, s2, _, ipis, (tk1 ++ [p]). split; [done |]. split; [| done].
    eapply pass_ok_app; [apply Hok | exact Hp1 |]. apply pass_ok_take; done || apply Hok1.
  - apply next_runnable_none in En as [-> _]. by eexists self, vs, s1, hp1, ipis, _.
Qed.

End Assign.

Lemma pop_for_app hp m l1 p l2 :
  Forall (fun r => fits hp m r = false) l1 -> fits hp m p = true ->
  pop_for hp m (l1 ++ p :: l2) = Some (p, l1 ++ l2).
Proof.
  intros Hl Hp. induction Hl as [| r l1 Hr _ IH]; simpl; [by rewrite Hp |]. by rewrite Hr, IH.
Qed.

(** ** Properties *)

(** The ready queue is FIFO per hart: [pop_for] takes exactly the oldest
    token whose affinity meets the mask, keeps all others in order, and
    returns nothing iff nothing queued fits. *)
Theorem pop_for_oldest hp m q r :
  pop_for hp m q = r <->
  match r with
  | Some (p, q') =>
      exists l1 l2, q = l1 ++ p :: l2 /\ q' = l1 ++ l2 /\
        Forall (fun x => fits hp m x = false) l1 /\ fits hp m p = true
  | None => Forall (fun x => fits hp m x = false) q
  end.
Proof.
  destruct r as [[p q'] |]; [| apply pop_for_none]. split; [apply pop_for_split |].
  intros (l1 & l2 & -> & -> & Hl & Hp). by apply pop_for_app.
Qed.

(** Hart assignment, against any lawful scheduler: from a queue of distinct
    live threads that are [Ready] or were killed while queued, a pass never
    panics; busy harts keep their thread; an idle hart that gets one gets a
    thread that was [Ready], fits the hart, left the queue and is now
    [Assigned] with its tick bumped; no thread goes to two harts, and a killed
    thread is dropped from the queue without reaching a hart. *)
Theorem assign_threads_correct {S} `{SchedulerLaws S} self remotes (s : S) hp :
  NoDup (queued s) -> Forall (dispatchable hp) (queued s) -> hp !! null = None ->
  exists self' vs s' hp' ipis taken,
    assign_threads self remotes s hp = Done (self', vs, s', hp', ipis) /\
    queued s ≡ₚ taken ++ queued s' /\
    (forall p, hp' !! p = if decide (p ∈ taken) then popped <$> (hp !! p) else hp !! p) /\
    Forall2 (view_step hp) (remotes ++ [self]) (vs ++ [self']) /\
    NoDup (newly (remotes ++ [self]) (vs ++ [self'])) /\
    (forall p, p ∈ newly (remotes ++ [self]) (vs ++ [self']) <-> p ∈ taken /\ is_ready hp p).
Proof.
  intros Hnd Hd Hn.
  destruct (assign_threads_ok self remotes s hp) as (self' & vs & s' & hp' & ipis & taken & Hr & Hp & _);
    [by split_and! |].
  destruct Hp as (Q & M & V & N). exists self', vs, s', hp', ipis, taken. rewrite N.
  split_and!; try done.
  - apply NoDup_filter. rewrite Q in Hnd. by apply NoDup_app in Hnd as [? _].
  - intros p. rewrite list_elem_of_filter. tauto.
Qed.

(** ** Witnesses *)

(** Two threads: one [Ready], one killed while queued. *)
Definition sample_heap : Heap := <[256 := sample]> (<[512 := mark_exited sample]> ∅).

Lemma assign_threads_correct_witness :
  exists self' vs s' hp' ipis,
    assign_threads (mkHartView 0 null) [mkHartView 1 null; mkHartView 2 null] [512; 256] sample_heap
      = Done (self', vs, s', hp', ipis).
Proof.
  destruct (assign_threads_correct (S := ReadyQueue) (mkHartView 0 null)
              [mkHartView 1 null; mkHartView 2 null] [512; 256] sample_heap)
    as (self' & vs & s' & hp' & ipis & _ & Hr & _).
  - vm_compute. repeat constructor; set_solver.
  - repeat constructor; eexists; (split; [vm_compute; reflexivity |]);
      [right; reflexivity | left; reflexivity].
  - vm_compute. reflexivity.
  - by exists self', vs, s', hp', ipis.
Defined.
