(* ===== verification/Completion.v ===== *)
(** * Completion handles and acknowledgement counters
    ([process/src/completion.rs])

    The operations of [CompletionHandle] and [AckCounter] on the shared inner
    state, and the race between signalers and a parking thread: the atomic
    instructions of [signal_n] and of the park path of
    [kmain/src/kernel/context.rs] interleaved in every order. *)

From stdpp Require Import base list option numbers sets gmap.
From S2P Require Import Prelude Perms Thread.

#[local] Open Scope Z_scope.

Definition STATE_PENDING : Z := 0.
Definition STATE_WRITING : Z := 1.
Definition STATE_SIGNALED : Z := 2.
Definition MAX_RET_SLOTS : nat := 4.

(** [waiter] is the address of the parked thread, 0 for none. *)
Record CompletionInner := mkCompletionInner {
  c_state : Z;
  c_ret_count : Z;
  c_rets : list Z;
  c_waiter : Z;
}.

Definition completion_new : CompletionInner := mkCompletionInner STATE_PENDING 0 [0; 0; 0; 0] 0.

(** The steps of [signal_n], one per atomic access: the claiming
    compare-exchange, the result stores, the commit and the waiter swap. *)
Definition signal_claim (c : CompletionInner) : option CompletionInner :=
  if c_state c =? STATE_PENDING
  then Some (mkCompletionInner STATE_WRITING (c_ret_count c) (c_rets c) (c_waiter c))
  else None.

Definition signal_write (vals : list Z) (c : CompletionInner) : CompletionInner :=
  let n := Nat.min (length vals) MAX_RET_SLOTS in
  mkCompletionInner (c_state c) (Z.of_nat n mod 256) (store_rets 0 (take n vals) (c_rets c)) (c_waiter c).

Definition signal_commit (c : CompletionInner) : CompletionInner :=
  mkCompletionInner STATE_SIGNALED (c_ret_count c) (c_rets c) (c_waiter c).

Definition take_waiter (c : CompletionInner) : CompletionInner * Z :=
  (mkCompletionInner (c_state c) (c_ret_count c) (c_rets c) 0, c_waiter c).

(** [signal_n] run alone: the waiter it claimed (0 for none) is handed to the
    wake hook. *)
Definition signal_n (vals : list Z) (c : CompletionInner) : CompletionInner * Z :=
  match signal_claim c with
  | None => (c, 0)
  | Some c1 => take_waiter (signal_commit (signal_write vals c1))
  end.

Definition signal (result : Z) (c : CompletionInner) : CompletionInner * Z := signal_n [result] c.
Definition signal_pair (r0 r1 : Z) (c : CompletionInner) : CompletionInner * Z := signal_n [r0; r1] c.

Definition set_waiter (thread : Z) (c : CompletionInner) : CompletionInner :=
  mkCompletionInner (c_state c) (c_ret_count c) (c_rets c) thread.

Definition is_signaled (c : CompletionInner) : bool := c_state c =? STATE_SIGNALED.
Definition ret_count (c : CompletionInner) : Z := c_ret_count c.

Definition ret (i : nat) (c : CompletionInner) : Z :=
  if decide (MAX_RET_SLOTS <= i)%nat then 0 else default 0 (c_rets c !! i).

(** The values [wake_blocked_inline] marshals. *)
Definition handle_rets (c : CompletionInner) : list Z :=
  map (fun i => ret i c) (seq 0 (Nat.min (Z.to_nat (ret_count c)) 4)).

(** [AckCounter]. *)
Definition ack_new (n : Z) : Z := n.
Definition ack_decrement (v : Z) : Z := if v =? 0 then v else v - 1.

(** ** The signal/park race *)

(** Where a signaler is; [SWake] has claimed the waiter and is about to call
    the hook, [SBailed] lost the claim. *)
Inductive sig_pc := SClaim | SWrite | SCommit | SSwap | SWake | SDone | SBailed.

(** Where the parking hart is: it stores the waiter, re-checks the state,
    claims the waiter back and un-parks inline. *)
Inductive park_pc := PSet | PCheck | PTake | PWake | PDone.

Record Race := mkRace {
  r_inner : CompletionInner;
  r_sigs : list (list Z * sig_pc);
  r_park : park_pc;
  r_wakes : list (list Z);
}.

(** One atomic step of a signaler, for a parker at the address [th]. *)
Definition sig_step (vals : list Z) (pc : sig_pc) (c : CompletionInner) : option (sig_pc * CompletionInner * list (list Z)) :=
  match pc with
  | SClaim => match signal_claim c with
              | Some c1 => Some (SWrite, c1, [])
              | None => Some (SBailed, c, [])
              end
  | SWrite => Some (SCommit, signal_write vals c, [])
  | SCommit => Some (SSwap, signal_commit c, [])
  | SSwap => let '(c1, w) := take_waiter c in
             Some (if w =? 0 then SDone else SWake, c1, [])
  | SWake => Some (SDone, c, [handle_rets c])
  | SDone | SBailed => None
  end.

(** One atomic step of the parker. *)
Definition park_step (th : Z) (pc : park_pc) (c : CompletionInner) : option (park_pc * CompletionInner * list (list Z)) :=
  match pc with
  | PSet => Some (PCheck, set_waiter th c, [])
  | PCheck => Some (if is_signaled c then PTake else PDone, c, [])
  | PTake => let '(c1, w) := take_waiter c in
             Some (if w =? 0 then PDone else PWake, c1, [])
  | PWake => Some (PDone, c, [handle_rets c])
  | PDone => None
  end.

Inductive race_step (th : Z) : Race -> Race -> Prop :=
| race_sig c sigs p ws i vals pc pc' c' w :
    sigs !! i = Some (vals, pc) -> sig_step vals pc c = Some (pc', c', w) ->
    race_step th (mkRace c sigs p ws) (mkRace c' (<[i := (vals, pc')]> sigs) p (ws ++ w))
| race_park c sigs p ws p' c' w :
    park_step th p c = Some (p', c', w) ->
    race_step th (mkRace c sigs p ws) (mkRace c' sigs p' (ws ++ w)).

Definition race_init (sigs : list (list Z)) : Race :=
  mkRace completion_new (map (fun v => (v, SClaim)) sigs) PSet [].

(** Everybody has finished. *)
Definition race_done (r : Race) : Prop :=
  r_park r = PDone /\ Forall (fun s => s.2 = SDone \/ s.2 = SBailed) (r_sigs r).

(** ** Invariant of the race *)

#[export] Instance sig_pc_eq_dec : EqDecision sig_pc.
Proof. solve_decision. Defined.
#[export] Instance park_pc_eq_dec : EqDecision park_pc.
Proof. solve_decision. Defined.

Definition b2n (b : bool) : nat := if b then 1%nat else 0%nat.

(** Has the signaler at [pc] won the claim? *)
Definition active (pc : sig_pc) : bool :=
  match pc with SClaim | SBailed => false | _ => true end.

(** [wp] is the winner, with its values and position; the others have not
    tried yet or have bailed. *)
Definition track (sigs : list (list Z * sig_pc)) (wp : option (list Z * sig_pc)) : Prop :=
  match wp with
  | None => Forall (fun s => s.2 = SClaim) sigs
  | Some (v, pc) =>
      exists i, sigs !! i = Some (v, pc) /\ active pc = true /\
        forall j v' pc', j <> i -> sigs !! j = Some (v', pc') -> active pc' = false
  end.

(** Wakes somebody is committed to, or that the waiter slot still owes. *)
Definition owed (wp : option (list Z * sig_pc)) (p : park_pc) (c : CompletionInner) : nat :=
  (b2n (bool_decide (snd <$> wp = Some SWake)) + b2n (bool_decide (p = PWake)) +
   b2n (negb (c_waiter c =? 0)%Z))%nat.

Definition state_of (wp : option (list Z * sig_pc)) : Z :=
  match wp with
  | None => STATE_PENDING
  | Some (_, SWrite) | Some (_, SCommit) => STATE_WRITING
  | Some _ => STATE_SIGNALED
  end.

(** The winner's results are in place. *)
Definition rets_ready (wp : option (list Z * sig_pc)) (c : CompletionInner) : Prop :=
  match wp with
  | None | Some (_, SWrite) => True
  | Some (v, _) => handle_rets c = take 4 v
  end.

Record race_inv (wp : option (list Z * sig_pc)) (c : CompletionInner) (p : park_pc)
    (ws : list (list Z)) : Prop := {
  ri_rets : length (c_rets c) = 4%nat;
  ri_state : c_state c = state_of wp;
  ri_ready : rets_ready wp c;
  ri_count : (length ws + owed wp p c = b2n (negb (bool_decide (p = PSet))))%nat;
  ri_park : p = PTake \/ p = PWake -> c_state c = STATE_SIGNALED;
  ri_done : p = PDone -> snd <$> wp = Some SWake \/ snd <$> wp = Some SDone -> c_waiter c = 0;
  ri_delivered : Forall (fun d => exists v pc, wp = Some (v, pc) /\ pc <> SWrite /\ pc <> SCommit /\ d = take 4 v) ws;
}.

Lemma handle_rets_write vals c :
  length (c_rets c) = 4%nat -> handle_rets (signal_write vals c) = take 4 vals.
Proof.
  intros Hl. unfold handle_rets, signal_write, ret_count, MAX_RET_SLOTS. cbn [c_ret_count].
  set (n := Nat.min (length vals) 4). rewrite Z.mod_small by lia. rewrite Nat2Z.id.
  replace (Nat.min n 4) with n by lia.
  assert (Hn : length (take n vals) = n) by (rewrite length_take; lia).
  assert (Ht : take n vals = take 4 vals).
  { subst n. destruct (decide (length vals <= 4)%nat); [by rewrite !take_ge by lia |].
    by replace (Nat.min (length vals) 4) with 4%nat by lia. }
  rewrite <- Ht. apply list_eq. intros i. rewrite list_lookup_fmap.
  destruct (decide (i < n)%nat) as [Hi | Hi].
  - rewrite lookup_seq_lt by done. simpl. unfold ret. rewrite decide_False by (unfold MAX_RET_SLOTS; lia).
    cbn [c_rets]. rewrite store_rets_lookup by lia. rewrite take_0. simpl.
    rewrite lookup_app_l by lia. by destruct (lookup_lt_is_Some_2 (take n vals) i ltac:(lia)) as [? ->].
  - rewrite lookup_seq_ge by lia. simpl. by rewrite lookup_ge_None_2 by lia.
Qed.

Lemma handle_rets_ext c c' :
  c_ret_count c = c_ret_count c' -> c_rets c = c_rets c' -> handle_rets c = handle_rets c'.
Proof. destruct c, c'. simpl. by intros -> ->. Qed.

(** Closes the counting obligations of the race. *)
Ltac race_count :=
  unfold owed, b2n in *; cbn -[Z.eqb] in *;
  repeat match goal with
  | |- context [bool_decide ?P] => destruct (bool_decide_reflect P)
  | H : context [bool_decide ?P] |- _ => destruct (bool_decide_reflect P)
  end; rewrite ?length_app in *; simpl in *; try congruence; try lia.

Lemma race_inv_winner v pc c p ws pc' c' w :
  race_inv (Some (v, pc)) c p ws -> active pc = true ->
  sig_step v pc c = Some (pc', c', w) -> race_inv (Some (v, pc')) c' p (ws ++ w).
Proof.
  intros [Hl Hs Hr Hn Hp Hd Hw] Ha Hst.
  destruct pc; try done; simpl in Hst, Hs; simplify_eq; rewrite ?app_nil_r.
  - split; simpl; try done.
    + rewrite store_rets_length; done.
    + by apply handle_rets_write.
    + intros _ [? | ?]; done.
    + eapply Forall_impl; [exact Hw |]. naive_solver.
  - split; simpl; try done; [intros _ [? | ?]; done |].
    eapply Forall_impl; [exact Hw |]. naive_solver.
  - destruct (c_waiter c =? 0) eqn:E; simplify_eq.
    + split; simpl; try done; [race_count; rewrite E in *; simpl in *; lia |].
      eapply Forall_impl; [exact Hw |]. naive_solver.
    + split; simpl; try done; [race_count; rewrite E in *; simpl in *; lia |].
      eapply Forall_impl; [exact Hw |]. naive_solver.
  - split; simpl; try done; [race_count | naive_solver |].
    apply Forall_app. split; [eapply Forall_impl; [exact Hw |]; naive_solver |].
    repeat constructor. naive_solver.
Qed.

Lemma race_inv_claim v c p ws pc' c' w :
  race_inv None c p ws -> sig_step v SClaim c = Some (pc', c', w) ->
  pc' = SWrite /\ w = [] /\ race_inv (Some (v, SWrite)) c' p ws.
Proof.
  intros [Hl Hs Hr Hn Hp Hd Hw] Hst. simpl in Hst, Hs. unfold signal_claim in Hst.
  rewrite Hs in Hst. simpl in Hst. simplify_eq. split_and!; try done.
  split; simpl; try done.
  - intros H. specialize (Hp H). by rewrite Hs in Hp.
  - intros _ [? | ?]; done.
  - eapply Forall_impl; [exact Hw |]. naive_solver.
Qed.

Lemma race_inv_bail v x c p ws pc' c' w :
  race_inv (Some x) c p ws -> sig_step v SClaim c = Some (pc', c', w) ->
  pc' = SBailed /\ c' = c /\ w = [].
Proof.
  intros [_ Hs _ _ _ _ _] Hst. simpl in Hst. unfold signal_claim in Hst.
  assert (c_state c =? STATE_PENDING = false) as E.
  { rewrite Hs. destruct x as [? []]; done. }
  rewrite E in Hst. by simplify_eq.
Qed.

Lemma race_inv_park th wp c p ws p' c' w :
  th <> 0 -> race_inv wp c p ws -> park_step th p c = Some (p', c', w) ->
  race_inv wp c' p' (ws ++ w).
Proof.
  intros Hth [Hl Hs Hr Hn Hp Hd Hw] Hst.
  destruct p; try done; simpl in Hst; injection Hst as <- <- <-; rewrite ?app_nil_r.
  - assert (Hwt : (th =? 0) = false) by lia. split; simpl; try done; [| naive_solver].
    race_count; rewrite Hwt; simpl; destruct (c_waiter c =? 0); simpl in *; lia.
  - unfold is_signaled. destruct (c_state c =? STATE_SIGNALED) eqn:E; to_prop.
    + split; try done; race_count.
    + split; try done; try (by race_count); try naive_solver.
      intros _ H. exfalso. apply E. rewrite Hs. destruct wp as [[? []] |]; naive_solver.
  - specialize (Hp (or_introl eq_refl)). destruct (c_waiter c =? 0) eqn:E.
    + split; simpl; try done; race_count; rewrite E in *; simpl in *; lia.
    + split; simpl; try done; race_count; rewrite E in *; simpl in *; lia.
  - specialize (Hp (or_intror eq_refl)). split; try done.
    + race_count.
    + intros _ H. race_count; destruct (c_waiter c =? 0) eqn:E; to_prop; simpl in *; lia.
    + apply Forall_app. split; [done |]. repeat constructor.
      rewrite Hs in Hp. destruct wp as [[v []] |]; simpl in Hp, Hr; try done; naive_solver.
Qed.

Lemma race_preserved th r r' :
  th <> 0 -> race_step th r r' ->
  (exists wp, track (r_sigs r) wp /\ race_inv wp (r_inner r) (r_park r) (r_wakes r)) ->
  exists wp, track (r_sigs r') wp /\ race_inv wp (r_inner r') (r_park r') (r_wakes r').
Proof.
  intros Hth Hst (wp & Ht & Hi). destruct Hst as [c sigs p ws i v pc pc' c' w Hsi Hss | c sigs p ws p' c' w Hps];
    simpl in *.
  2: { exists wp. split; [done |]. by eapply race_inv_park. }
  assert (Hlt : (i < length sigs)%nat) by (by eapply lookup_lt_Some).
  destruct wp as [[v0 pc0] |]; simpl in Ht.
  - destruct Ht as (k & Hk & Ha & Ho). destruct (decide (i = k)) as [-> | Hne].
    + rewrite Hk in Hsi. injection Hsi as <- <-. exists (Some (v0, pc')). split; [| by eapply race_inv_winner].
      exists k. rewrite list_lookup_insert_eq by done. split; [done |]. split.
      * by destruct pc0; simpl in Hss; simplify_eq; repeat case_match.
      * intros j v' pc'' Hj. rewrite list_lookup_insert_ne by done. eauto.
    + pose proof (Ho i v pc Hne Hsi) as Hna. destruct pc; try done.
      destruct (race_inv_bail _ _ _ _ _ _ _ _ Hi Hss) as (-> & -> & ->). rewrite app_nil_r.
      exists (Some (v0, pc0)). split; [| done]. exists k.
      rewrite list_lookup_insert_ne by done. split; [done |]. split; [done |].
      intros j v' pc'' Hj Hl. destruct (decide (j = i)) as [-> | Hji].
      * rewrite list_lookup_insert_eq in Hl by done. by simplify_eq.
      * rewrite list_lookup_insert_ne in Hl by done. eauto.
  - rewrite Forall_lookup in Ht. assert (pc = SClaim) as -> by (by apply (Ht i (v, pc))).
    destruct (race_inv_claim _ _ _ _ _ _ _ Hi Hss) as (-> & -> & Hi'). rewrite app_nil_r.
    exists (Some (v, SWrite)). split; [| done]. exists i.
    rewrite list_lookup_insert_eq by done. split; [done |]. split; [done |].
    intros j v' pc'' Hj. rewrite list_lookup_insert_ne by done. intros Hl.
    by rewrite (Ht j _ Hl : pc'' = SClaim).
Qed.

Lemma race_reachable th sigs r :
  th <> 0 -> rtc (race_step th) (race_init sigs) r ->
  exists wp, track (r_sigs r) wp /\ race_inv wp (r_inner r) (r_park r) (r_wakes r).
Proof.
  intros Hth Hr. remember (race_init sigs) as r0 eqn:E.
  assert (Hi : exists wp, track (r_sigs r0) wp /\ race_inv wp (r_inner r0) (r_park r0) (r_wakes r0)).
  { subst r0. exists None. split; [apply Forall_fmap, Forall_true; done |].
    split; simpl; try done. naive_solver. }
  clear E. induction Hr as [r | r r1 r2 Hs _ IH]; [done |]. apply IH. by eapply race_preserved.
Qed.

(** ** Properties *)

(** C16. A completion wakes its parker exactly once, whatever the interleaving:
    with any number of racing signalers and one parking thread the wake never
    happens twice; and when everybody has finished and there was a signaler,
    it happened once, with the first four results of one and the same
    signaler. *)
Theorem completion_wakes_once th sigs r :
  th <> 0 -> rtc (race_step th) (race_init sigs) r ->
  (length (r_wakes r) <= 1)%nat /\
  (race_done r -> sigs <> [] -> exists v, v ∈ sigs /\ r_wakes r = [take 4 v]).
Proof.
  intros Hth Hr.
  assert (Hs : map fst (r_sigs r) = sigs).
  { remember (race_init sigs) as r0 eqn:E.
    assert (map fst (r_sigs r0) = sigs) as Hf.
    { subst r0. simpl. rewrite map_map. apply map_id. }
    clear E Hth. induction Hr as [r | r r1 r2 Hst _ IH]; [done |]. apply IH.
    destruct Hst as [c sg p ws i v pc pc' c' w Hsi _ | ]; simpl in *; [| done].
    rewrite <- Hf. rewrite (list_fmap_insert fst). apply list_insert_id.
    by rewrite list_lookup_fmap, Hsi. }
  destruct (race_reachable th sigs r Hth Hr) as (wp & Ht & [_ _ _ Hn _ Hd Hw]).
  split.
  { destruct (r_park r); unfold b2n in Hn; simpl in Hn; lia. }
  intros [Hp Hdone] Hne. destruct wp as [[v pc] |]; simpl in Ht.
  - destruct Ht as (i & Hi & Ha & _).
    assert (pc = SDone) as ->.
    { rewrite Forall_lookup in Hdone. destruct (Hdone i _ Hi) as [H | H]; simpl in H; subst pc; done. }
    rewrite Hp in Hn, Hd. specialize (Hd eq_refl (or_intror eq_refl)).
    unfold owed in Hn. rewrite Hd in Hn. simpl in Hn.
    destruct (r_wakes r) as [| d [| ? ?]]; simpl in Hn; try lia.
    inversion_clear Hw as [| ? ? (v' & pc' & Hv & _ & _ & ->) _]. simplify_eq.
    exists v'. split; [| done].
    apply list_elem_of_fmap. exists (v', SDone). split; [done |]. by eapply list_elem_of_lookup_2.
  - exfalso. apply Hne. rewrite <- Hs. destruct (r_sigs r) as [| s l]; [done |].
    apply Forall_cons in Ht as [H1 _]. apply Forall_cons in Hdone as [[H2 | H2] _]; congruence.
Qed.

(** ** Witnesses *)

(** The parker stores itself and looks before a signaler has started; the
    signaler then finds it and wakes it, and a second one bails. *)
Lemma completion_wakes_once_witness :
  exists r, rtc (race_step 256) (race_init [[7; 8]; [-1]]) r /\ race_done r /\
    exists v, v ∈ [[7; 8]; [-1]] /\ r_wakes r = [take 4 v].
Proof.
  eexists. split; [| split].
  - eapply rtc_l; [eapply race_park; reflexivity |].
    eapply rtc_l; [eapply race_park; reflexivity |].
    do 5 (eapply rtc_l; [eapply (race_sig _ _ _ _ _ 0); reflexivity |]).
    eapply rtc_l; [eapply (race_sig _ _ _ _ _ 1); reflexivity |]. apply rtc_refl.
  - split; [reflexivity |]. constructor; [by left | constructor; [by right | constructor]].
  - apply (completion_wakes_once 256 [[7; 8]; [-1]]); [done | | | done].
    + eapply rtc_l; [eapply race_park; reflexivity |].
      eapply rtc_l; [eapply race_park; reflexivity |].
      do 5 (eapply rtc_l; [eapply (race_sig _ _ _ _ _ 0); reflexivity |]).
      eapply rtc_l; [eapply (race_sig _ _ _ _ _ 1); reflexivity |]. apply rtc_refl.
    + split; [reflexivity |]. constructor; [by left | constructor; [by right | constructor]].
Defined.
