(* ===== verification/Shootdown.v ===== *)
(** * Cross-hart TLB shootdown

    Models [orbit-core/src/tlb_shootdown.rs] (the requests, the orchestrator, the
    drain), [kmain/src/kernel/shootdown.rs] (the broadcast the kernel uses, which
    inlines the orchestrator, and the receiver's flushes) and [kernel/tlb.rs].

    A TLB is the set of translations a hart may use, by address space and page.
    The interleaved machine runs one broadcast at a time, since page tables are
    edited and broadcasts are sent under the kernel lock, against harts that fill
    and evict their TLBs and drain their rings at any moment. *)

From stdpp Require Import base list option numbers sets gmap.
From S2P Require Import Prelude ThingBuf Sv48 Perms Thread Completion.
#[local] Open Scope Z_scope.

Inductive FlushScope := FAsid (asid : Z) | FAll.

(** [ack] identifies the sender's shared counter. *)
Inductive ShootdownEntry := Empty | Req (scope : FlushScope) (va len : Z) (ack : nat).

Definition SHOOTDOWN_RING_CAP : nat := 16.
Definition MAX_HARTS : nat := 8.

Inductive ShootdownErr := RingFull (failed : Z).

(** ** Translation caches *)

(** A translation: address space and first address of the page. *)
Definition Tlb := gset (Z * Z).

Definition page_of (va : Z) : Z := va - va mod PAGE_SIZE.

(** [sfence_vma_all], [flush_asid] and [sfence_vma(asid, va)]. *)
Definition sfence_vma_all (t : Tlb) : Tlb := ∅.
Definition flush_asid (asid : Z) (t : Tlb) : Tlb := filter (fun e => e.1 <> asid) t.
Definition sfence_vma (asid va : Z) (t : Tlb) : Tlb := filter (fun e => ~ (e.1 = asid /\ e.2 = page_of va)) t.

(** What the receiver does for a request. *)
Definition apply_flush (scope : FlushScope) (va : Z) (t : Tlb) : Tlb :=
  match scope with
  | FAll => sfence_vma_all t
  | FAsid asid => if va =? 0 then flush_asid asid t else sfence_vma asid va t
  end.

(** The translations a request is about. *)
Definition covers (scope : FlushScope) (va : Z) (e : Z * Z) : Prop :=
  match scope with
  | FAll => True
  | FAsid asid => e.1 = asid /\ (va = 0 \/ e.2 = page_of va)
  end.

Lemma apply_flush_spec scope va t e : e ∈ apply_flush scope va t <-> e ∈ t /\ ~ covers scope va e.
Proof.
  unfold apply_flush, covers, sfence_vma_all, flush_asid, sfence_vma. destruct scope as [asid |]; [| set_solver].
  destruct (Z.eqb_spec va 0); rewrite elem_of_filter; intuition.
Qed.

(** ** The sender *)

Section Shootdown.
Context {B : Type -> Type} `{ThingBufLaws B}.

(** [SHOOTDOWN_RINGS], the counters handed out, the interrupts sent. *)
Record Fabric := mkFabric { rings : list (B ShootdownEntry); acks : list Z; ipis : list nat }.

Definition ack_dec (a : nat) (s : Fabric) : Fabric := mkFabric (rings s) (alter ack_decrement a (acks s)) (ipis s).
Definition ack_load (a : nat) (s : Fabric) : Z := default 0 (acks s !! a).

(** The body of both loops: push the request and interrupt the target, or take its
    share off the counter when its ring is full. *)
Definition push_one (e : ShootdownEntry) (a : nat) (h : nat) (sf : Fabric * Z) : panics (Fabric * Z) :=
  let '(s, failed) := sf in
  match rings s !! h with
  | None => Panic
  | Some r =>
      match tb_push e r with
      | Ok r' => Done (mkFabric (<[h := r']> (rings s)) (acks s) (ipis s ++ [h]), failed)
      | Err _ => Done (ack_dec a s, Z.min (failed + 1) (2 ^ 32 - 1))
      end
  end.

Definition new_ack (n : Z) (s : Fabric) : nat * Fabric :=
  (length (acks s), mkFabric (rings s) (acks s ++ [ack_new n]) (ipis s)).

(** [tlb_shootdown] up to its wait: the counter to wait for, if any. *)
Definition tlb_shootdown (n_targets : nat) (targets : list nat) (scope : FlushScope) (va len : Z) (s : Fabric)
    : panics (option nat * (Fabric * Z)) :=
  if (n_targets =? 0)%nat then Done (None, (s, 0))
  else
    let '(a, s) := new_ack (Z.of_nat n_targets) s in
    sf <-! pfold (push_one (Req scope va len a) a) targets (s, 0) ;; Done (Some a, sf).

Definition shootdown_result (failed : Z) : result unit ShootdownErr :=
  if negb (failed =? 0) then Err (RingFull failed) else Ok tt.

(** [broadcast_scope] up to its wait. *)
Definition broadcast_scope (cpu_count : nat) (kicked : bool) (self : nat) (scope : FlushScope) (va len : Z) (s : Fabric)
    : panics (option nat * (Fabric * Z)) :=
  if (cpu_count <=? 1)%nat then Done (None, (s, 0))
  else if negb kicked then Done (None, (s, 0))
  else
    let '(a, s) := new_ack (Z.of_nat (cpu_count - 1)) s in
    sf <-! pfold (fun h sf => if (h =? self)%nat then Done sf else push_one (Req scope va len a) a h sf)
                 (seq 0 cpu_count) (s, 0) ;;
    Done (Some a, sf).

Definition broadcast (cpu_count : nat) (kicked : bool) (self : nat) (asid va len : Z) := broadcast_scope cpu_count kicked self (FAsid asid) va len.
Definition broadcast_all (cpu_count : nat) (kicked : bool) (self : nat) := broadcast_scope cpu_count kicked self FAll 0 0.

(** [shootdown::init]: the assertion on the hart count. *)
Definition shootdown_init (cpu_count : nat) : panics nat := if (cpu_count <=? MAX_HARTS)%nat then Done cpu_count else Panic.

(** ** The receiver *)

(** One turn of the drain of hart [h]'s ring, apply and decrement. *)
Fixpoint drain_loop (fuel : nat) (a_dec : nat -> list Z -> list Z) (r : B ShootdownEntry) (t : Tlb) (ak : list Z) (serviced : Z)
    : B ShootdownEntry * Tlb * list Z * Z :=
  match fuel with
  | O => (r, t, ak, serviced)
  | Datatypes.S fuel =>
      match tb_pop r with
      | None => (r, t, ak, serviced)
      | Some (Empty, r) => drain_loop fuel a_dec r t ak serviced
      | Some (Req scope va len a, r) => drain_loop fuel a_dec r (apply_flush scope va t) (a_dec a ak) (serviced + 1)
      end
  end.

(** [drain_local]: a ring holds at most its length of entries. *)
Definition drain_local (h : nat) (s : Fabric) (t : Tlb) : panics (Fabric * Tlb * Z) :=
  match rings s !! h with
  | None => Panic
  | Some r =>
      let '(r, t, ak, serviced) := drain_loop (S (Z.to_nat (tb_len r))) (fun a ak => alter ack_decrement a ak) r t (acks s) 0 in
      Done (mkFabric (<[h := r]> (rings s)) ak (ipis s), t, serviced)
  end.

(** ** The interleaved machine *)

(** The lock holder: editing page tables, pushing its requests, or waiting. *)
Inductive sender :=
| Editing
| Pushing (self : nat) (scope : FlushScope) (va len : Z) (a : nat) (todo : list nat) (failed : Z)
| Waiting (self : nat) (scope : FlushScope) (va len : Z) (a : nat) (failed : Z).

(** [sw_map]: the translations the page tables give. [sw_acking h]: the counter
    hart [h] has flushed for and not yet decremented. *)
Record sworld := mkSworld {
  sw_fab : Fabric;
  sw_tlb : list Tlb;
  sw_acking : list (option nat);
  sw_map : Tlb;
  sw_sender : sender;
}.

(** The receivers' own steps. *)
Inductive rstep : sworld -> sworld -> Prop :=
| r_flush h r r' t scope va len a rs ak ip tl ac mp se :
    rs !! h = Some r -> tb_pop r = Some (Req scope va len a, r') -> tl !! h = Some t -> ac !! h = Some None ->
    rstep (mkSworld (mkFabric rs ak ip) tl ac mp se)
          (mkSworld (mkFabric (<[h := r']> rs) ak ip) (<[h := apply_flush scope va t]> tl) (<[h := Some a]> ac) mp se)
| r_skip h r r' rs ak ip tl ac mp se :
    rs !! h = Some r -> tb_pop r = Some (Empty, r') -> ac !! h = Some None ->
    rstep (mkSworld (mkFabric rs ak ip) tl ac mp se) (mkSworld (mkFabric (<[h := r']> rs) ak ip) tl ac mp se)
| r_ack h a fab tl ac mp se :
    ac !! h = Some (Some a) ->
    rstep (mkSworld fab tl ac mp se) (mkSworld (ack_dec a fab) tl (<[h := None]> ac) mp se).

Inductive sdstep : sworld -> sworld -> Prop :=
| sd_recv w w' : rstep w w' -> sdstep w w'
| sd_fill h t e fab tl ac mp se :
    tl !! h = Some t -> e ∈ mp -> sdstep (mkSworld fab tl ac mp se) (mkSworld fab (<[h := {[e]} ∪ t]> tl) ac mp se)
| sd_evict h t t' fab tl ac mp se :
    tl !! h = Some t -> t' ⊆ t -> sdstep (mkSworld fab tl ac mp se) (mkSworld fab (<[h := t']> tl) ac mp se)
| sd_edit mp' fab tl ac mp : sdstep (mkSworld fab tl ac mp Editing) (mkSworld fab tl ac mp' Editing)
| sd_begin self scope va len fab tl ac mp :
    (1 < length (rings fab))%nat -> (self < length (rings fab))%nat ->
    sdstep (mkSworld fab tl ac mp Editing)
           (let '(a, fab') := new_ack (Z.of_nat (length (rings fab) - 1)) fab in
            mkSworld fab' tl ac mp (Pushing self scope va len a (seq 0 (length (rings fab))) 0))
| sd_skip_self self scope va len a todo failed fab tl ac mp :
    sdstep (mkSworld fab tl ac mp (Pushing self scope va len a (self :: todo) failed))
           (mkSworld fab tl ac mp (Pushing self scope va len a todo failed))
| sd_push self scope va len a h todo failed fab fab' failed' tl ac mp :
    h <> self -> push_one (Req scope va len a) a h (fab, failed) = Done (fab', failed') ->
    sdstep (mkSworld fab tl ac mp (Pushing self scope va len a (h :: todo) failed))
           (mkSworld fab' tl ac mp (Pushing self scope va len a todo failed'))
| sd_wait self scope va len a failed fab tl ac mp :
    sdstep (mkSworld fab tl ac mp (Pushing self scope va len a [] failed))
           (mkSworld fab tl ac mp (Waiting self scope va len a failed))
| sd_return self scope va len a failed fab tl ac mp :
    ack_load a fab = 0 ->
    sdstep (mkSworld fab tl ac mp (Waiting self scope va len a failed)) (mkSworld fab tl ac mp Editing).

(** [n] harts, empty rings and caches. *)
Definition sboot (n : nat) (empty : B ShootdownEntry) : sworld :=
  mkSworld (mkFabric (replicate n empty) [] []) (replicate n ∅) (replicate n None) ∅ Editing.
End Shootdown.
Arguments Fabric B : clear implicits.
Arguments sworld B : clear implicits.

(** ** Invariant *)

Lemma filter_ne_id (x : nat) (l : list nat) : x ∉ l -> filter (fun y => y <> x) l = l.
Proof.
  induction l as [| y l IH]; intros Hn; [done |]. apply not_elem_of_cons in Hn as [Hy Hl].
  rewrite filter_cons_True by done. by rewrite IH.
Qed.

Lemma filter_ne_length (x : nat) (l : list nat) : NoDup l -> x ∈ l -> length l = S (length (filter (fun y => y <> x) l)).
Proof.
  induction 1 as [| y l Hy Hnd IH]; [by intros ?%not_elem_of_nil |]. intros Hin. destruct (decide (y = x)) as [-> | Hne].
  - rewrite filter_cons_False by (by intros []). by rewrite filter_ne_id.
  - rewrite filter_cons_True by done. simpl. f_equal. apply IH. apply elem_of_cons in Hin as [-> |]; done.
Qed.

(** The law the capacity of a ring gives: an empty ring takes an entry. *)
Class ThingBufRoom (B : Type -> Type) `{ThingBufLaws B} := {
  tb_room : forall A (x y : A) (b : B A), tb_push x b = Err y -> items b <> [];
}.

Section Invariant.
Context {B : Type -> Type} `{ThingBufRoom B}.
Implicit Types (fab : Fabric B) (tl : list Tlb) (ac : list (option nat)) (mp : Tlb).

(** Hart [h] still owes an acknowledgement: not pushed to, not drained, or between
    its flush and its decrement. *)
Definition owes fab ac (self : nat) (todo : list nat) (h : nat) : Prop :=
  (h ∈ todo /\ h <> self) \/ (exists r, rings fab !! h = Some r /\ items r <> []) \/ (exists a, ac !! h = Some (Some a)).

Record sending fab tl ac mp self scope va len a (todo : list nat) (failed : Z) : Prop := {
  so_failed : failed = 0;
  so_nodup : NoDup todo;
  so_range h : h ∈ todo -> (h < length (rings fab))%nat;
  so_ring h r : rings fab !! h = Some r -> items r = [] \/
    (items r = [Req scope va len a] /\ h <> self /\ h ∉ todo /\ ac !! h = Some None);
  so_acking h a' : ac !! h = Some (Some a') -> a' = a /\ h ∉ todo /\ h <> self /\
    forall r, rings fab !! h = Some r -> items r = [];
  so_clean h r t e : h <> self -> h ∉ todo -> rings fab !! h = Some r -> items r = [] ->
    tl !! h = Some t -> e ∈ t -> covers scope va e -> e ∈ mp;
  so_count : exists outs, NoDup outs /\ acks fab !! a = Some (Z.of_nat (length outs)) /\
    forall h, h ∈ outs <-> owes fab ac self todo h;
}.

Definition sworld_ok (n : nat) (w : sworld B) : Prop :=
  length (rings (sw_fab w)) = n /\ length (sw_tlb w) = n /\ length (sw_acking w) = n /\
  match sw_sender w with
  | Editing =>
      (forall h r, rings (sw_fab w) !! h = Some r -> items r = []) /\
      (forall h x, sw_acking w !! h = Some x -> x = None)
  | Pushing self scope va len a todo failed =>
      sending (sw_fab w) (sw_tlb w) (sw_acking w) (sw_map w) self scope va len a todo failed
  | Waiting self scope va len a failed =>
      sending (sw_fab w) (sw_tlb w) (sw_acking w) (sw_map w) self scope va len a [] failed
  end.

(** Caches change freely as long as covered entries stay translations. *)
Lemma sending_tlb fab tl ac mp self scope va len a todo failed h t t' :
  sending fab tl ac mp self scope va len a todo failed -> tl !! h = Some t ->
  (forall e, e ∈ t' -> e ∈ t \/ e ∈ mp) ->
  sending fab (<[h := t']> tl) ac mp self scope va len a todo failed.
Proof.
  intros [] Ht Hsub. split; try done. intros h' r t1 e Hs Hn Hr Hi Ht1 He Hc.
  destruct (decide (h' = h)) as [-> |].
  - rewrite list_lookup_insert_eq in Ht1 by (by eapply lookup_lt_Some). injection Ht1 as <-.
    destruct (Hsub e He); [by eapply so_clean0 | done].
  - rewrite list_lookup_insert_ne in Ht1 by done. by eapply so_clean0.
Qed.

(** A receiver takes its request and flushes. *)
Lemma sending_flush rs ak ip tl ac mp self scope va len a todo failed h r r' t scope' va' len' a' :
  sending (mkFabric rs ak ip) tl ac mp self scope va len a todo failed ->
  rs !! h = Some r -> tb_pop r = Some (Req scope' va' len' a', r') -> tl !! h = Some t -> ac !! h = Some None ->
  sending (mkFabric (<[h := r']> rs) ak ip) (<[h := apply_flush scope' va' t]> tl) (<[h := Some a']> ac) mp
    self scope va len a todo failed.
Proof.
  intros [Hf Hnd Hrg Hring Hack Hclean (outs & Hon & Hov & Hos)] Hr Hpop Ht Hac. cbn [rings acks] in *.
  apply tb_pop_some in Hpop. destruct (Hring h r Hr) as [E | (E & Hs & Htd & _)]; [congruence |].
  rewrite Hpop in E. injection E as -> -> -> -> Er'.
  pose proof (lookup_lt_Some _ _ _ Hr) as Hlr. pose proof (lookup_lt_Some _ _ _ Ht) as Hlt. pose proof (lookup_lt_Some _ _ _ Hac) as Hla.
  split; cbn [rings acks]; try done.
  - intros h' Hin. rewrite length_insert. by apply Hrg.
  - intros h' r1 Hr1. destruct (decide (h' = h)) as [-> |].
    + rewrite list_lookup_insert_eq in Hr1 by done. injection Hr1 as <-. by left.
    + rewrite list_lookup_insert_ne in Hr1 by done. rewrite list_lookup_insert_ne by done. by apply Hring.
  - intros h' a1 Ha1. destruct (decide (h' = h)) as [-> |].
    + rewrite list_lookup_insert_eq in Ha1 by done. injection Ha1 as <-. split_and!; try done.
      intros r1. rewrite list_lookup_insert_eq by done. by intros [= <-].
    + rewrite list_lookup_insert_ne in Ha1 by done. rewrite list_lookup_insert_ne by done. by apply Hack.
  - intros h' r1 t1 e Hs1 Hn1 Hr1 Hi1 Ht1 He Hc. destruct (decide (h' = h)) as [-> |].
    + rewrite list_lookup_insert_eq in Ht1 by done. injection Ht1 as <-. apply apply_flush_spec in He as [_ He]. done.
    + rewrite list_lookup_insert_ne in Hr1 by done. rewrite list_lookup_insert_ne in Ht1 by done. by eapply Hclean.
  - exists outs. split; [done |]. split; [done |]. intros h'. rewrite Hos. unfold owes. cbn [rings].
    destruct (decide (h' = h)) as [-> |]; [| by rewrite !list_lookup_insert_ne by done].
    rewrite !list_lookup_insert_eq by done. split; [intros _; right; right; eauto |].
    intros _. right. left. exists r. split; [done |]. by rewrite Hpop.
Qed.

(** A receiver acknowledges. *)
Lemma sending_ack fab tl ac mp self scope va len a todo failed h a' :
  sending fab tl ac mp self scope va len a todo failed -> ac !! h = Some (Some a') ->
  sending (ack_dec a' fab) tl (<[h := None]> ac) mp self scope va len a todo failed.
Proof.
  intros [Hf Hnd Hrg Hring Hack Hclean (outs & Hon & Hov & Hos)] Ha. destruct (Hack h a' Ha) as (-> & Htd & Hs & Hre).
  pose proof (lookup_lt_Some _ _ _ Ha) as Hla. split; cbn [ack_dec rings acks]; try done.
  - intros h' r Hr. destruct (decide (h' = h)) as [-> |]; [left; by apply Hre |].
    rewrite list_lookup_insert_ne by done. by apply Hring.
  - intros h' a1 Ha1. destruct (decide (h' = h)) as [-> |]; [by rewrite list_lookup_insert_eq in Ha1 |].
    rewrite list_lookup_insert_ne in Ha1 by done. by apply Hack.
  - assert (Hin : h ∈ outs) by (apply Hos; right; right; eauto).
    exists (filter (fun x => x <> h) outs). split; [by apply NoDup_filter |]. split.
    + rewrite list_lookup_alter_eq, Hov. cbn. f_equal. unfold ack_decrement.
      pose proof (filter_ne_length h outs Hon Hin) as Hlen.
      rewrite Hlen. destruct (Z.eqb_spec (Z.of_nat (S (length (filter (fun x => x <> h) outs)))) 0); lia.
    + intros h'. rewrite list_elem_of_filter, Hos. unfold owes. destruct (decide (h' = h)) as [-> |].
      * split; [by intros [? _] |]. rewrite list_lookup_insert_eq by done.
        intros [[? ?] | [(r & Hr & Hne) | (? & ?)]]; [done | | done]. by apply Hre in Hr.
      * rewrite list_lookup_insert_ne by done. intuition.
Qed.

(** The sender pushes to an owing hart, whose ring is empty. *)
Lemma sending_push fab tl ac mp self scope va len a todo failed h fab' failed' :
  length ac = length (rings fab) ->
  sending fab tl ac mp self scope va len a (h :: todo) failed -> h <> self ->
  push_one (Req scope va len a) a h (fab, failed) = Done (fab', failed') ->
  length (rings fab') = length (rings fab) /\ sending fab' tl ac mp self scope va len a todo failed'.
Proof.
  intros Hla [Hf Hnd Hrg Hring Hack Hclean (outs & Hon & Hov & Hos)] Hs. unfold push_one.
  apply NoDup_cons in Hnd as [Hhn Hnd]. assert (Hlt : (h < length (rings fab))%nat) by (apply Hrg; set_solver).
  destruct (rings fab !! h) as [r |] eqn:Er; [| done].
  assert (Hempty : items r = []) by (destruct (Hring h r Er) as [? | (_ & _ & Hx & _)]; [done | set_solver]).
  assert (Hacn : ac !! h = Some None).
  { destruct (lookup_lt_is_Some_2 ac h) as [[a1 |] E]; [lia | | done]. destruct (Hack h a1 E) as (_ & Hx & _). set_solver. }
  destruct (tb_push _ r) as [r' | y] eqn:Ep; [| by apply tb_room in Ep]. intros [= <- <-].
  apply tb_push_ok in Ep. rewrite Hempty in Ep. cbn [app] in Ep. cbn [rings]. rewrite length_insert. split; [done |].
  split; cbn [rings acks]; try done.
  - intros h' Hin. rewrite length_insert. apply Hrg. set_solver.
  - intros h' r1 Hr1. destruct (decide (h' = h)) as [-> |].
    + rewrite list_lookup_insert_eq in Hr1 by done. injection Hr1 as <-. right. by split_and!.
    + rewrite list_lookup_insert_ne in Hr1 by done. destruct (Hring h' r1 Hr1) as [? | (? & ? & Hx & ?)]; [by left |].
      right. split_and!; try done. set_solver.
  - intros h' a1 Ha1. destruct (decide (h' = h)) as [-> |]; [congruence |]. rewrite list_lookup_insert_ne by done.
    destruct (Hack h' a1 Ha1) as (? & Hx & ? & ?). split_and!; try done. set_solver.
  - intros h' r1 t1 e Hs1 Hn1 Hr1 Hi1 Ht1 He Hc. destruct (decide (h' = h)) as [-> |].
    + rewrite list_lookup_insert_eq in Hr1 by done. congruence.
    + rewrite list_lookup_insert_ne in Hr1 by done. eapply (Hclean h'); try done. set_solver.
  - exists outs. split; [done |]. split; [done |]. intros h'. rewrite Hos. unfold owes. cbn [rings]. rewrite elem_of_cons.
    destruct (decide (h' = h)) as [-> |].
    + rewrite list_lookup_insert_eq by done. split; [intros _; right; left; exists r'; rewrite Ep; by split | intros _; left; auto].
    + rewrite list_lookup_insert_ne by done. intuition.
Qed.

Lemma sending_skip fab tl ac mp self scope va len a todo failed :
  sending fab tl ac mp self scope va len a (self :: todo) failed -> sending fab tl ac mp self scope va len a todo failed.
Proof.
  intros [Hf Hnd Hrg Hring Hack Hclean (outs & Hon & Hov & Hos)]. apply NoDup_cons in Hnd as [Hhn Hnd]. split; try done.
  - intros h Hin. apply Hrg. set_solver.
  - intros h r Hr. destruct (Hring h r Hr) as [? | (? & ? & Hx & ?)]; [by left | right; split_and!; try done; set_solver].
  - intros h a1 Ha. destruct (Hack h a1 Ha) as (? & Hx & ? & ?). split_and!; try done. set_solver.
  - intros h r t e Hs Hn. apply (Hclean h r t e); [done |]. set_solver.
  - exists outs. split; [done |]. split; [done |]. intros h. rewrite Hos. unfold owes. set_solver.
Qed.

Lemma seq_filter_length self n : (self < n)%nat -> length (filter (fun h => h <> self) (seq 0 n)) = (n - 1)%nat.
Proof.
  intros Hlt. pose proof (filter_ne_length self (seq 0 n) (NoDup_seq 0 n)) as Hl. rewrite length_seq in Hl.
  rewrite elem_of_seq in Hl. lia.
Qed.

Lemma sending_begin fab tl ac mp self scope va len :
  (self < length (rings fab))%nat -> (forall h r, rings fab !! h = Some r -> items r = []) -> (forall h x, ac !! h = Some x -> x = None) ->
  sending (snd (new_ack (Z.of_nat (length (rings fab) - 1)) fab)) tl ac mp self scope va len (length (acks fab)) (seq 0 (length (rings fab))) 0.
Proof.
  intros Hlt Hr Ha. split; cbn [new_ack snd rings acks]; try done.
  - apply NoDup_seq.
  - intros h. rewrite elem_of_seq. lia.
  - intros h r Hrr. left. by apply Hr in Hrr.
  - intros h a' Hx. by apply Ha in Hx.
  - intros h r t e _ Hn Hrr. apply lookup_lt_Some in Hrr. rewrite elem_of_seq in Hn. lia.
  - exists (filter (fun h => h <> self) (seq 0 (length (rings fab)))). split; [apply NoDup_filter, NoDup_seq |].
    split; [rewrite lookup_app_r, Nat.sub_diag, seq_filter_length by lia; done |].
    intros h. rewrite list_elem_of_filter. unfold owes. cbn [rings]. split; [intros [? ?]; left; done |].
    intros [[? ?] | [(r & Hrr & Hne) | (a' & Hx)]]; [done | by apply Hr in Hrr | by apply Ha in Hx].
Qed.

(** The wait ends only when nobody owes. *)
Lemma sending_end fab tl ac mp self scope va len a failed :
  sending fab tl ac mp self scope va len a [] failed -> ack_load a fab = 0 ->
  (forall h r, rings fab !! h = Some r -> items r = []) /\ (forall h x, ac !! h = Some x -> x = None).
Proof.
  intros [Hf Hnd Hrg Hring Hack Hclean (outs & Hon & Hov & Hos)] Hz. unfold ack_load in Hz. rewrite Hov in Hz. cbn in Hz.
  destruct outs as [| o outs]; [| simpl in Hz; lia]. split.
  - intros h r Hr. destruct (Hring h r Hr) as [? | (E & _)]; [done |].
    assert (Hx : h ∈ []) by (apply Hos; right; left; exists r; rewrite E; by split). by apply not_elem_of_nil in Hx.
  - intros h [a1 |] Ha; [| done]. assert (Hx : h ∈ []) by (apply Hos; right; right; eauto). by apply not_elem_of_nil in Hx.
Qed.

Lemma rstep_ok n w w' : sworld_ok n w -> rstep w w' -> sworld_ok n w'.
Proof.
  intros (Hr & Ht & Ha & Hs) Hstep. destruct Hstep; unfold sworld_ok in *; cbn [sw_fab sw_tlb sw_acking sw_map sw_sender rings ack_dec] in *;
    rewrite ?length_insert; (split; [done |]); (split; [done |]); (split; [done |]).
  - assert (Hitem : items r <> []) by (match goal with Hp : tb_pop _ = _ |- _ => apply tb_pop_some in Hp as -> end; done).
    destruct se; [by destruct Hs as [Hs _]; apply Hs in H2 | by eapply sending_flush ..].
  - match goal with Hp : tb_pop _ = _, Hx : rs !! h = Some r |- _ => apply tb_pop_some in Hp; rename Hx into Hrr end.
    destruct se; [destruct Hs as [Hs _]; apply Hs in Hrr; congruence | |];
      destruct (so_ring _ _ _ _ _ _ _ _ _ _ _ Hs h r Hrr) as [? | (? & _)]; congruence.
  - destruct se; [destruct Hs as [_ Hs]; match goal with Hx : ac !! h = _ |- _ => by apply Hs in Hx end | by apply sending_ack ..].
Qed.

Lemma sdstep_ok n w w' : sworld_ok n w -> sdstep w w' -> sworld_ok n w'.
Proof.
  intros Hok Hstep. destruct Hstep; [by eapply rstep_ok | ..]; destruct Hok as (Hr & Ht & Ha & Hs);
    unfold sworld_ok in *; cbn [sw_fab sw_tlb sw_acking sw_map sw_sender] in *.
  - rewrite length_insert. split_and!; try done. destruct se; [done | |]; (eapply sending_tlb; [done | done | set_solver]).
  - rewrite length_insert. split_and!; try done. destruct se; [done | |]; (eapply sending_tlb; [done | done | set_solver]).
  - done.
  - destruct Hs as [Hs1 Hs2]. cbn [new_ack sw_fab sw_tlb sw_acking sw_map sw_sender rings]. split_and!; try done. by apply sending_begin.
  - split_and!; try done. by apply sending_skip.
  - match goal with Hp : push_one _ _ _ _ = _ |- _ => destruct (sending_push _ _ _ _ _ _ _ _ _ _ _ _ _ _ (eq_trans Ha (eq_sym Hr)) Hs ltac:(done) Hp) as [Hl Hs'] end.
    rewrite Hl. by split_and!.
  - done.
  - split_and!; try done; by eapply sending_end.
Qed.
End Invariant.

Section Claims.
Context {B : Type -> Type} `{ThingBufRoom B}.

Lemma sboot_ok n (empty : B ShootdownEntry) : items empty = [] -> sworld_ok n (sboot n empty).
Proof.
  intros He. unfold sworld_ok. cbn. rewrite !length_replicate. split_and!; try done.
  - intros h r Hr. by apply lookup_replicate in Hr as [-> _].
  - intros h x Hx. by apply lookup_replicate in Hx as [-> _].
Qed.

Lemma sd_reachable n (empty : B ShootdownEntry) w : items empty = [] -> rtc sdstep (sboot n empty) w -> sworld_ok n w.
Proof.
  intros He Hr. pose proof (sboot_ok n empty He) as Hb. revert Hb. generalize (sboot n empty) Hr. clear Hr. intros w0 Hr.
  induction Hr as [| w1 w2 w3 Hs _ IH]; [done |]. intros H1'. apply IH. by eapply sdstep_ok.
Qed.

(** What the receivers still have to do: two steps per queued request, one per
    flush not yet acknowledged. *)
Definition queued (r : B ShootdownEntry) : nat := 2 * length (items r).
Definition unacked (x : option nat) : nat := if x then 1 else 0.
Definition backlog (w : sworld B) : nat := sum_list_with queued (rings (sw_fab w)) + sum_list_with unacked (sw_acking w).

Lemma sum_insert {A} (f : A -> nat) (l : list A) i x y :
  l !! i = Some x -> (sum_list_with f (<[i := y]> l) + f x = sum_list_with f l + f y)%nat.
Proof.
  revert i. induction l as [| z l IH]; intros [| i] Hi; simpl in *; try done; [injection Hi as ->; lia |].
  specialize (IH i Hi). lia.
Qed.

Lemma rstep_backlog (w w' : sworld B) : rstep w w' -> (backlog w' < backlog w)%nat.
Proof.
  destruct 1; unfold backlog; cbn [sw_fab sw_acking rings ack_dec].
  - match goal with Hp : tb_pop r = _ |- _ => apply tb_pop_some in Hp as Hi end.
    pose proof (sum_insert queued rs h r r' ltac:(done)) as E1. pose proof (sum_insert unacked ac h None (Some a) ltac:(done)) as E2.
    assert (queued r = 2 + queued r')%nat by (unfold queued; rewrite Hi; simpl; lia). cbn [unacked] in E2. lia.
  - match goal with Hp : tb_pop r = _ |- _ => apply tb_pop_some in Hp as Hi end.
    pose proof (sum_insert queued rs h r r' ltac:(done)) as E1.
    assert (queued r = 2 + queued r')%nat by (unfold queued; rewrite Hi; simpl; lia). lia.
  - pose proof (sum_insert unacked ac h (Some a) None ltac:(done)) as E2. cbn [unacked] in E2. lia.
Qed.

(** C4. A shootdown leaves no stale translation: in every interleaving of a
    broadcast with harts that fill and evict their caches and drain their rings at
    any moment, once the sender's wait sees the counter at zero no other hart
    holds a translation in the broadcast's scope that the page tables no longer
    give; and with broadcasts serialised no ring was full, so the failure count
    the kernel ignores is zero. *)
Theorem shootdown_no_stale n (empty : B ShootdownEntry) w self scope va len a failed :
  items empty = [] -> rtc sdstep (sboot n empty) w ->
  sw_sender w = Waiting self scope va len a failed -> ack_load a (sw_fab w) = 0 ->
  failed = 0 /\
  forall h t e, (h < n)%nat -> h <> self -> sw_tlb w !! h = Some t -> e ∈ t -> covers scope va e -> e ∈ sw_map w.
Proof.
  intros He Hr Hs Hz. destruct (sd_reachable n empty w He Hr) as (Hrl & _ & _ & Hk). rewrite Hs in Hk.
  split; [apply (so_failed _ _ _ _ _ _ _ _ _ _ _ Hk) |]. intros h t e Hlt Hne Ht.
  destruct (sending_end _ _ _ _ _ _ _ _ _ _ Hk Hz) as [Hre _].
  destruct (lookup_lt_is_Some_2 (rings (sw_fab w)) h) as [r Hrr]; [lia |].
  apply (so_clean _ _ _ _ _ _ _ _ _ _ _ Hk h r t e); try done; [apply not_elem_of_nil | by apply (Hre h)].
Qed.

(** The sender's wait ends: while the counter is not zero some hart has a
    request to flush or a flush to acknowledge, and every such step shrinks the
    finite backlog, so harts that take their interrupts bring the counter to
    zero in at most [backlog] steps. *)
Theorem shootdown_wait_ends n (empty : B ShootdownEntry) w self scope va len a failed :
  items empty = [] -> rtc sdstep (sboot n empty) w -> sw_sender w = Waiting self scope va len a failed ->
  (ack_load a (sw_fab w) <> 0 -> exists w', rstep w w') /\
  (forall w', rstep w w' -> (backlog w' < backlog w)%nat /\ sw_sender w' = sw_sender w).
Proof.
  intros He Hr Hs. destruct (sd_reachable n empty w He Hr) as (Hrl & Htl & Hal & Hk). rewrite Hs in Hk. split.
  - destruct (so_count _ _ _ _ _ _ _ _ _ _ _ Hk) as (outs & _ & Hov & Hos). unfold ack_load. rewrite Hov. cbn. intros Hne.
    destruct outs as [| h outs]; [done |]. assert (Ho : owes (sw_fab w) (sw_acking w) self [] h) by (apply Hos; set_solver).
    destruct w as [[rs ak ip] tl ac mp se]. cbn [sw_fab sw_tlb sw_acking sw_map sw_sender rings acks] in *.
    destruct Ho as [[Hx _] | [(r & Hrr & Hne') | (a1 & Ha1)]]; [by apply not_elem_of_nil in Hx | |].
    + destruct (so_ring _ _ _ _ _ _ _ _ _ _ _ Hk h r Hrr) as [? | (E & _ & _ & Hac)]; [done |].
      destruct (tb_pop r) as [[x r'] |] eqn:Ep; [| by apply tb_pop_none in Ep].
      apply tb_pop_some in Ep as Ei. rewrite E in Ei. injection Ei as <- _.
      destruct (lookup_lt_is_Some_2 tl h) as [t Ht]; [apply lookup_lt_Some in Hrr; cbn in Hrr; lia |]. eexists. by eapply r_flush.
    + eexists. by eapply r_ack.
  - intros w' Hst. split; [by apply rstep_backlog | by destruct Hst].
Qed.


(** The requests of a ring, in order, and the counters they carry. *)
Definition reqs (l : list ShootdownEntry) : list (FlushScope * Z * nat) :=
  omap (fun e => match e with Req scope va _ a => Some (scope, va, a) | Empty => None end) l.

Lemma drain_loop_spec fuel : forall (r : B ShootdownEntry) t ak k,
  (length (items r) < fuel)%nat ->
  exists r' t', drain_loop fuel (fun a ak => alter ack_decrement a ak) r t ak k =
      (r', t', foldl (fun ak q => alter ack_decrement q.2 ak) ak (reqs (items r)), k + Z.of_nat (length (reqs (items r)))) /\
    items r' = [] /\ (forall e, e ∈ t' <-> e ∈ t /\ Forall (fun q => ~ covers q.1.1 q.1.2 e) (reqs (items r))).
Proof.
  induction fuel as [| fuel IH]; intros r t ak k Hl; [lia |]. cbn [drain_loop].
  destruct (tb_pop r) as [[x r1] |] eqn:Ep.
  - apply tb_pop_some in Ep as Ei. rewrite Ei in Hl |- *. cbn [length] in Hl. destruct x as [| scope va len a].
    + apply (IH r1 t ak k). lia.
    + destruct (IH r1 (apply_flush scope va t) (alter ack_decrement a ak) (k + 1)) as (r' & t' & E & Hr' & Ht'); [lia |].
      exists r', t'. split; [rewrite E; by replace (k + 1 + Z.of_nat (length (reqs (items r1)))) with (k + Z.of_nat (S (length (reqs (items r1))))) by lia |]. split; [done |].
      intros e. rewrite Ht', apply_flush_spec. cbn [reqs omap list_omap]. rewrite Forall_cons. cbn [fst snd]. tauto.
  - apply tb_pop_none in Ep. exists r, t. rewrite Ep. cbn. rewrite Z.add_0_r. split; [done |]. split; [done |].
    intros e. rewrite Forall_nil. tauto.
Qed.

(** The interrupt handler services everything it finds: [drain_local] returns
    with the hart's ring empty, the number of requests taken, each request's
    counter decremented once, and exactly the translations that no request covers
    left in the cache. *)
Theorem drain_services_all h (s : Fabric B) r t :
  rings s !! h = Some r ->
  exists r' t', drain_local h s t =
      Done (mkFabric (<[h := r']> (rings s)) (foldl (fun ak q => alter ack_decrement q.2 ak) (acks s) (reqs (items r))) (ipis s),
            t', Z.of_nat (length (reqs (items r)))) /\
    items r' = [] /\ (forall e, e ∈ t' <-> e ∈ t /\ Forall (fun q => ~ covers q.1.1 q.1.2 e) (reqs (items r))).
Proof.
  intros Hr. unfold drain_local. rewrite Hr.
  destruct (drain_loop_spec (S (Z.to_nat (tb_len r))) r t (acks s) 0) as (r' & t' & -> & Hrest).
  { rewrite tb_len_items. lia. }
  exists r', t'. by split.
Qed.
End Claims.

(** ** A run *)

(** A ring of the kernel's capacity. *)
Definition sring (A : Type) : Type := list A.

#[export] Instance sring_buf : ThingBuf sring := {
  tb_push A x b := if decide (length b < SHOOTDOWN_RING_CAP)%nat then Ok (b ++ [x]) else Err x;
  tb_pop A b := match b with [] => None | x :: l => Some (x, l) end;
  tb_len A b := Z.of_nat (length b);
}.

#[export] Program Instance sring_laws : ThingBufLaws sring := {| items := fun A (b : sring A) => b |}.
Next Obligation. intros A x b b'. simpl. case_match; [| done]. by intros [= <-]. Qed.
Next Obligation. intros A x y b. simpl. case_match; [done |]. by intros [= <-]. Qed.
Next Obligation. intros A x b b'. simpl. destruct b; [done |]. by intros [= -> <-]. Qed.
Next Obligation. intros A b. simpl. by destruct b. Qed.
Next Obligation. done. Qed.

#[export] Instance sring_room : ThingBufRoom sring.
Proof. constructor. intros A x y b. simpl. destruct (decide _) as [| Hd]; [done |]. intros _ ->. apply Hd. simpl. unfold SHOOTDOWN_RING_CAP. lia. Qed.

Lemma sring_empty : items ([] : sring ShootdownEntry) = [].
Proof. reflexivity. Qed.

(** Hart 1 caches a page of process 3; hart 0 unmaps it and shoots it down. *)
Definition sd_world (rs : list (list ShootdownEntry)) (ak : list Z) (ip : list nat) (t1 : Tlb) (ac : list (option nat)) (mp : Tlb) (se : sender) : sworld sring :=
  mkSworld (mkFabric rs ak ip) [∅; t1] ac mp se.

Definition sd_final : sworld sring :=
  sd_world [[]; []] [0] [1%nat] ∅ [None; None] ∅ (Waiting 0 (FAsid 3) 0 0 0 0).
Definition sd_waiting : sworld sring :=
  sd_world [[]; [Req (FAsid 3) 0 0 0]] [1] [1%nat] {[(3, 4096)]} [None; None] ∅ (Waiting 0 (FAsid 3) 0 0 0 0).

Lemma sd_run_waiting : rtc sdstep (sboot 2 ([] : sring ShootdownEntry)) sd_waiting.
Proof.
  eapply rtc_l; [apply (sd_edit {[(3, 4096)]}) |].
  eapply rtc_l; [apply (sd_fill 1%nat ∅ (3, 4096)); [done | set_solver] |].
  eapply rtc_l; [apply (sd_edit ∅) |].
  eapply rtc_l; [apply (sd_begin 0 (FAsid 3) 0 0); simpl; lia |].
  eapply rtc_l; [apply sd_skip_self |].
  eapply rtc_l; [apply sd_push; [done | reflexivity] |].
  eapply rtc_l; [apply sd_wait |].
  replace (<[1%nat := {[(3, 4096)]} ∪ ∅]> (replicate 2 (∅ : Tlb))) with [∅; {[(3, 4096)]} : Tlb] by (simpl; by rewrite (right_id_L ∅ (∪))).
  apply rtc_refl.
Qed.

Lemma sd_run : rtc sdstep (sboot 2 ([] : sring ShootdownEntry)) sd_final.
Proof.
  transitivity sd_waiting; [apply sd_run_waiting |].
  eapply rtc_l; [apply sd_recv, (r_flush 1%nat [Req (FAsid 3) 0 0 0] [] {[(3, 4096)]} (FAsid 3) 0 0 0); reflexivity |].
  eapply rtc_l; [apply sd_recv, (r_ack 1%nat 0%nat); reflexivity |].
  unfold sd_final, sd_world. cbn [list_insert apply_flush Z.eqb].
  replace (flush_asid 3 {[(3, 4096)]}) with (∅ : Tlb) by (vm_compute; reflexivity). apply rtc_refl.
Qed.

Lemma shootdown_no_stale_witness :
  sw_sender sd_final = Waiting 0 (FAsid 3) 0 0 0 0 /\ (3, 4096) ∉ (∅ : Tlb).
Proof.
  split; [reflexivity |]. intros Hin.
  destruct (shootdown_no_stale 2 ([] : sring ShootdownEntry) sd_final 0 (FAsid 3) 0 0 0 0 sring_empty sd_run eq_refl eq_refl) as [_ Hns].
  assert (Hm : (3, 4096) ∈ sw_map sd_final) by (apply (Hns 1%nat ∅); [lia | lia | reflexivity | exact Hin | split; [reflexivity | left; reflexivity]]).
  revert Hm. apply not_elem_of_empty.
Defined.

Lemma shootdown_wait_ends_witness : exists w', rstep sd_waiting w' /\ (backlog w' < backlog sd_waiting)%nat.
Proof.
  destruct (shootdown_wait_ends 2 ([] : sring ShootdownEntry) sd_waiting 0 (FAsid 3) 0 0 0 0 sring_empty sd_run_waiting eq_refl) as [Hen Hdec].
  destruct (Hen ltac:(vm_compute; congruence)) as [w' Hw']. exists w'. split; [exact Hw' | exact (proj1 (Hdec w' Hw'))].
Defined.


Lemma drain_services_all_witness :
  exists t', drain_local 1 (mkFabric [[]; [Req (FAsid 3) 0 0 0]] [1] [1%nat] : Fabric sring) {[(3, 4096); (4, 4096)]} =
    Done (mkFabric [[]; []] [0] [1%nat], t', 1) /\ (3, 4096) ∉ t' /\ (4, 4096) ∈ t'.
Proof.
  destruct (drain_services_all 1 (mkFabric [[]; [Req (FAsid 3) 0 0 0]] [1] [1%nat] : Fabric sring) _ {[(3, 4096); (4, 4096)]} eq_refl)
    as (r' & t' & E & Hr & Ht). cbn in Hr. subst r'. exists t'. split; [exact E |]. split.
  - intros [_ Hf]%Ht. inversion_clear Hf as [| ? ? Hn _]. apply Hn. split; [reflexivity | left; reflexivity].
  - apply Ht. split; [set_solver |]. constructor; [intros [Hx _]; simpl in Hx; lia | constructor].
Defined.
