(* ===== verification/Spsc.v ===== *)
(** * The single-producer single-consumer ring

    Models [net_channel/src/spsc.rs] and [process/src/spsc.rs], the two copies of
    the same queue: the first reduces every index it loads modulo the size, the
    second uses it as it is; [masked] tells them apart.

    Each operation is the sequence of its atomic accesses: the producer checks
    (it owns [tail] and loads [head]), writes the slot, publishes [tail]; the
    consumer checks, reads the slot, publishes [head]. The interleaved machine
    runs one producer and one consumer over these accesses. *)

From stdpp Require Import base list option numbers sets gmap.
From S2P Require Import Prelude.
#[local] Open Scope Z_scope.

Record SpscQueue (T : Type) := mkSpsc {
  head : Z;
  tail : Z;
  buffer : list T;
}.
Arguments mkSpsc {T} head tail buffer.
Arguments head {T} s.
Arguments tail {T} s.
Arguments buffer {T} s.

Section Ops.
Context {T : Type} (masked : bool) (N : Z).

(** [load_head] and [load_tail]; the unmasked copy loads the word. *)
Definition load_index (x : Z) : Z := if masked then x mod N else x.
Definition load_head (q : SpscQueue T) : Z := load_index (head q).
Definition load_tail (q : SpscQueue T) : Z := load_index (tail q).

Definition next_index (i : Z) : Z := wadd i 1 mod N.

(** [buffer[i]]: a panic out of bounds. *)
Definition slot_write (i : Z) (v : T) (q : SpscQueue T) : panics (SpscQueue T) :=
  if i <? N then Done (mkSpsc (head q) (tail q) (<[Z.to_nat i := v]> (buffer q))) else Panic.

Definition slot_read (i : Z) (q : SpscQueue T) : panics T :=
  if i <? N then match buffer q !! Z.to_nat i with Some v => Done v | None => Panic end else Panic.

Definition set_tail (i : Z) (q : SpscQueue T) : SpscQueue T := mkSpsc (head q) i (buffer q).
Definition set_head (i : Z) (q : SpscQueue T) : SpscQueue T := mkSpsc i (tail q) (buffer q).

(** The producer's check: the slot to fill, unless the ring is full. *)
Definition enq_check (q : SpscQueue T) : option Z :=
  let t := load_tail q in
  if next_index t =? load_head q then None else Some t.

Definition enqueue (val : T) (q : SpscQueue T) : panics (result unit T * SpscQueue T) :=
  match enq_check q with
  | None => Done (Err val, q)
  | Some t => q1 <-! slot_write t val q ;; Done (Ok tt, set_tail (next_index t) q1)
  end.

(** The consumer's check: the slot to read, unless the ring is empty. *)
Definition deq_check (q : SpscQueue T) : option Z :=
  let h := load_head q in
  if h =? load_tail q then None else Some h.

Definition dequeue (q : SpscQueue T) : panics (option T * SpscQueue T) :=
  match deq_check q with
  | None => Done (None, q)
  | Some h => v <-! slot_read h q ;; Done (Some v, set_head (next_index h) q)
  end.

Definition is_empty (q : SpscQueue T) : bool := load_head q =? load_tail q.
Definition is_full (q : SpscQueue T) : bool := wadd (load_tail q) 1 mod N =? load_head q.
Definition len (q : SpscQueue T) : Z := wsub (wadd (load_tail q) N) (load_head q) mod N.

Definition reset_producer (q : SpscQueue T) : SpscQueue T := set_tail 0 q.
Definition reset_consumer (q : SpscQueue T) : SpscQueue T := set_head 0 q.

(** ** The interleaved machine *)

(** Where the producer is: idle, or with a slot claimed, or with it written. *)
Inductive prod_pc := PIdle | PWrite (t : Z) (v : T) | PPublish (t : Z) (v : T).

(** Where the consumer is: idle, or about to read, or holding the value read. *)
Inductive cons_pc := CIdle | CRead (h : Z) | CPublish (h : Z) (v : T).

(** [sent] and [recv] record the values of the operations completed so far. *)
Record world := mkWorld {
  w_q : SpscQueue T;
  w_prod : prod_pc;
  w_cons : cons_pc;
  w_sent : list T;
  w_recv : list T;
}.

Inductive wstep : world -> world -> Prop :=
| w_enq_full q c s r :
    enq_check q = None -> wstep (mkWorld q PIdle c s r) (mkWorld q PIdle c s r)
| w_enq_check q c s r v t :
    enq_check q = Some t -> wstep (mkWorld q PIdle c s r) (mkWorld q (PWrite t v) c s r)
| w_enq_write q c s r v t q' :
    slot_write t v q = Done q' -> wstep (mkWorld q (PWrite t v) c s r) (mkWorld q' (PPublish t v) c s r)
| w_enq_publish q c s r v t :
    wstep (mkWorld q (PPublish t v) c s r) (mkWorld (set_tail (next_index t) q) PIdle c (s ++ [v]) r)
| w_deq_empty q p s r :
    deq_check q = None -> wstep (mkWorld q p CIdle s r) (mkWorld q p CIdle s r)
| w_deq_check q p s r h :
    deq_check q = Some h -> wstep (mkWorld q p CIdle s r) (mkWorld q p (CRead h) s r)
| w_deq_read q p s r h v :
    slot_read h q = Done v -> wstep (mkWorld q p (CRead h) s r) (mkWorld q p (CPublish h v) s r)
| w_deq_publish q p s r h v :
    wstep (mkWorld q p (CPublish h v) s r) (mkWorld (set_head (next_index h) q) p CIdle s (r ++ [v])).

End Ops.
Arguments PIdle {T}.
Arguments PWrite {T} t v.
Arguments PPublish {T} t v.
Arguments CIdle {T}.
Arguments CRead {T} h.
Arguments CPublish {T} h v.
Arguments mkWorld {T} w_q w_prod w_cons w_sent w_recv.
Arguments w_q {T} w.
Arguments w_prod {T} w.
Arguments w_cons {T} w.
Arguments w_sent {T} w.
Arguments w_recv {T} w.

(** ** Correctness *)

Section Correct.
Context {T : Type} (masked : bool) (N : Z).
Hypothesis (HN : 0 < N) (HN63 : N < 2 ^ 63).

(** Values [R..S) of [sent] are in flight, value [k] in slot [k mod N]. *)
Record ring_ok (q : SpscQueue T) (sent : list T) (R : nat) : Prop := {
  ro_len : Z.of_nat (length (buffer q)) = N;
  ro_head : head q = Z.of_nat R mod N;
  ro_tail : tail q = Z.of_nat (length sent) mod N;
  ro_room : Z.of_nat R <= Z.of_nat (length sent) <= Z.of_nat R + (N - 1);
  ro_slots k : (R <= k < length sent)%nat -> buffer q !! Z.to_nat (Z.of_nat k mod N) = sent !! k;
}.

Lemma mod_range x : 0 <= x mod N < N.
Proof. by apply Z.mod_pos_bound. Qed.

Lemma load_index_small x : 0 <= x < N -> load_index masked N x = x.
Proof. intros. unfold load_index. destruct masked; [by apply Z.mod_small | done]. Qed.

Lemma next_index_mod x : 0 <= x -> next_index N (x mod N) = (x + 1) mod N.
Proof.
  intros Hx. pose proof (mod_range x). unfold next_index. rewrite wadd_small by (unfold W64; lia).
  by rewrite Zplus_mod_idemp_l.
Qed.

(** Positions less than [N] apart that share a slot are equal. *)
Lemma mod_close a b : 0 <= b - a < N -> a mod N = b mod N -> a = b.
Proof.
  intros Hd Hm. pose proof (Z.div_mod a N ltac:(lia)) as Ha. pose proof (Z.div_mod b N ltac:(lia)) as Hb.
  rewrite Hm in Ha. assert (b / N = a / N) by nia. nia.
Qed.

Lemma enq_check_spec q sent R :
  ring_ok q sent R ->
  enq_check masked N q =
    if Z.of_nat (length sent) - Z.of_nat R =? N - 1 then None else Some (Z.of_nat (length sent) mod N).
Proof.
  intros [Hl Hh Ht Hroom Hs]. unfold enq_check, load_tail, load_head. rewrite Hh, Ht.
  rewrite !load_index_small by apply mod_range. rewrite next_index_mod by lia.
  destruct (Z.eqb_spec (Z.of_nat (length sent) - Z.of_nat R) (N - 1)) as [E | E].
  - replace (Z.of_nat (length sent) + 1) with (Z.of_nat R + 1 * N) by lia.
    rewrite Z.mod_add by lia. by rewrite Z.eqb_refl.
  - destruct (Z.eqb_spec ((Z.of_nat (length sent) + 1) mod N) (Z.of_nat R mod N)) as [Em |]; [| done].
    symmetry in Em. apply mod_close in Em; lia.
Qed.

Lemma deq_check_spec q sent R :
  ring_ok q sent R ->
  deq_check masked N q =
    if Z.of_nat (length sent) =? Z.of_nat R then None else Some (Z.of_nat R mod N).
Proof.
  intros [Hl Hh Ht Hroom Hs]. unfold deq_check, load_tail, load_head. rewrite Hh, Ht.
  rewrite !load_index_small by apply mod_range.
  destruct (Z.eqb_spec (Z.of_nat (length sent)) (Z.of_nat R)) as [-> | E]; [by rewrite Z.eqb_refl |].
  destruct (Z.eqb_spec (Z.of_nat R mod N) (Z.of_nat (length sent) mod N)) as [Em |]; [| done].
  apply mod_close in Em; lia.
Qed.

(** Writing the free slot at the tail leaves the ring as it is. *)
Lemma write_free q sent R v :
  ring_ok q sent R -> Z.of_nat (length sent) - Z.of_nat R < N - 1 ->
  exists q', slot_write N (Z.of_nat (length sent) mod N) v q = Done q' /\ ring_ok q' sent R /\
    buffer q' !! Z.to_nat (Z.of_nat (length sent) mod N) = Some v.
Proof.
  intros [Hl Hh Ht Hroom Hs] Hfree. unfold slot_write. pose proof (mod_range (Z.of_nat (length sent))) as Hm.
  destruct (Z.ltb_spec (Z.of_nat (length sent) mod N) N); [| lia]. eexists. split; [done |].
  split; [split; cbn [head tail buffer]; try done |].
  - by rewrite length_insert.
  - intros k Hk. rewrite list_lookup_insert_ne; [by apply Hs |]. intros E. apply Z2Nat.inj in E; [| apply mod_range ..].
    symmetry in E. apply mod_close in E; lia.
  - cbn [buffer]. apply list_lookup_insert_eq. lia.
Qed.

Lemma publish_tail q sent R v :
  ring_ok q sent R -> Z.of_nat (length sent) - Z.of_nat R < N - 1 ->
  buffer q !! Z.to_nat (Z.of_nat (length sent) mod N) = Some v ->
  ring_ok (set_tail (next_index N (Z.of_nat (length sent) mod N)) q) (sent ++ [v]) R.
Proof.
  intros [Hl Hh Ht Hroom Hs] Hfree Hv.
  split; cbn [set_tail head tail buffer]; rewrite ?length_app; cbn [length]; try done; try lia.
  - rewrite next_index_mod by lia. f_equal. lia.
  - intros k Hk. destruct (decide (k = length sent)) as [-> |].
    + rewrite lookup_app_r, Nat.sub_diag by lia. done.
    + rewrite lookup_app_l by lia. apply Hs. lia.
Qed.

Lemma read_head q sent R :
  ring_ok q sent R -> (R < length sent)%nat ->
  exists v, slot_read N (Z.of_nat R mod N) q = Done v /\ sent !! R = Some v.
Proof.
  intros [Hl Hh Ht Hroom Hs] Hlt. destruct (lookup_lt_is_Some_2 sent R Hlt) as [v Hv]. exists v.
  split; [| done]. unfold slot_read. pose proof (mod_range (Z.of_nat R)).
  destruct (Z.ltb_spec (Z.of_nat R mod N) N); [| lia]. by rewrite Hs, Hv by lia.
Qed.

Lemma publish_head q sent R :
  ring_ok q sent R -> (R < length sent)%nat ->
  ring_ok (set_head (next_index N (Z.of_nat R mod N)) q) sent (S R).
Proof.
  intros [Hl Hh Ht Hroom Hs] Hlt. split; cbn [set_head head tail buffer]; try done; try lia.
  - rewrite next_index_mod by lia. f_equal. lia.
  - intros k Hk. apply Hs. lia.
Qed.

(** The machine's invariant. *)
Definition prod_ok (q : SpscQueue T) (sent : list T) (R : nat) (p : prod_pc) : Prop :=
  match p with
  | PIdle => True
  | PWrite t v => t = Z.of_nat (length sent) mod N /\ Z.of_nat (length sent) - Z.of_nat R < N - 1
  | PPublish t v => t = Z.of_nat (length sent) mod N /\ Z.of_nat (length sent) - Z.of_nat R < N - 1 /\
      buffer q !! Z.to_nat t = Some v
  end.

Definition cons_ok (sent : list T) (R : nat) (c : cons_pc) : Prop :=
  match c with
  | CIdle => True
  | CRead h => h = Z.of_nat R mod N /\ (R < length sent)%nat
  | CPublish h v => h = Z.of_nat R mod N /\ (R < length sent)%nat /\ sent !! R = Some v
  end.

Record world_ok (w : world) : Prop := {
  wo_ring : ring_ok (w_q w) (w_sent w) (length (w_recv w));
  wo_recv : w_recv w = take (length (w_recv w)) (w_sent w);
  wo_prod : prod_ok (w_q w) (w_sent w) (length (w_recv w)) (w_prod w);
  wo_cons : cons_ok (w_sent w) (length (w_recv w)) (w_cons w);
}.

Lemma take_snoc_lookup {A} (l : list A) n v : l !! n = Some v -> take (S n) l = take n l ++ [v].
Proof. apply take_S_r. Qed.

Lemma wstep_ok w w' : world_ok w -> wstep masked N w w' -> world_ok w'.
Proof.
  intros [Hq Hrec Hp Hc] Hstep. destruct Hstep; cbn [w_q w_prod w_cons w_sent w_recv prod_ok cons_ok] in *.
  - by split.
  - split; cbn [w_q w_prod w_cons w_sent w_recv prod_ok cons_ok]; try done.
    rewrite (enq_check_spec _ _ _ Hq) in H. destruct (Z.eqb_spec (Z.of_nat (length s) - Z.of_nat (length r)) (N - 1)) as [|Hne]; [done |].
    injection H as <-. pose proof (ro_room _ _ _ Hq). split; [done | lia].
  - destruct Hp as [-> Hfree]. destruct (write_free q s (length r) v Hq Hfree) as (q1 & E & Hq1 & Hv).
    rewrite E in H. injection H as <-. by split.
  - destruct Hp as (-> & Hfree & Hv). pose proof (publish_tail q s (length r) v Hq Hfree Hv) as Hq'.
    split; cbn [w_q w_prod w_cons w_sent w_recv prod_ok]; try done.
    + rewrite take_app_le; [done |]. pose proof (ro_room _ _ _ Hq). lia.
    + destruct c; cbn [cons_ok] in *; [done | |]; rewrite length_app; cbn [length].
      * destruct Hc. split; [done | lia].
      * destruct Hc as (? & ? & ?). split_and!; [done | lia |]. by rewrite lookup_app_l by lia.
  - by split.
  - split; cbn [w_q w_prod w_cons w_sent w_recv prod_ok cons_ok]; try done.
    rewrite (deq_check_spec _ _ _ Hq) in H. destruct (Z.eqb_spec (Z.of_nat (length s)) (Z.of_nat (length r))); [done |].
    injection H as <-. pose proof (ro_room _ _ _ Hq). split; [done | lia].
  - destruct Hc as [-> Hlt]. destruct (read_head q s (length r) Hq Hlt) as (v' & E & Hv).
    rewrite E in H. injection H as <-. by split.
  - destruct Hc as (-> & Hlt & Hv). pose proof (publish_head q s (length r) Hq Hlt) as Hq'.
    split; cbn [w_q w_prod w_cons w_sent w_recv cons_ok]; rewrite ?length_app, ?Nat.add_1_r; cbn [length]; rewrite ?Nat.add_1_r; try done.
    + rewrite (take_snoc_lookup _ _ _ Hv). by rewrite <- Hrec.
    + destruct p; cbn [prod_ok] in *; [done | |]; destruct Hp as [? Hp]; (split; [done |]); [lia |].
      destruct Hp. split; [lia | done].
Qed.

(** A freshly zeroed queue, both sides idle. *)
Definition spsc_start (buf : list T) : world := mkWorld (mkSpsc 0 0 buf) PIdle CIdle [] [].

Lemma start_ok buf : Z.of_nat (length buf) = N -> world_ok (spsc_start buf).
Proof.
  intros Hl. split; cbn; try done. split; cbn; try done; try lia.
Qed.

Lemma ring_reachable_ok buf w :
  Z.of_nat (length buf) = N -> rtc (wstep masked N) (spsc_start buf) w -> world_ok w.
Proof.
  intros Hl Hr. pose proof (start_ok buf Hl) as H0. revert H0. generalize (spsc_start buf) Hr.
  clear Hr. intros w0 Hr. induction Hr as [| w1 w2 w3 Hs _ IH]; [done |].
  intros H1. apply IH. by eapply wstep_ok.
Qed.

(** The ring holds the list [l], oldest first. *)
Definition holds (q : SpscQueue T) (l : list T) : Prop :=
  exists sent R, ring_ok q sent R /\ l = drop R sent.

Lemma holds_length q l : holds q l -> Z.of_nat (length l) <= N - 1.
Proof.
  intros (sent & R & Hq & ->). rewrite length_drop. pose proof (ro_room _ _ _ Hq). lia.
Qed.

Lemma enqueue_spec q l v :
  holds q l ->
  if Z.of_nat (length l) =? N - 1 then enqueue masked N v q = Done (Err v, q)
  else exists q', enqueue masked N v q = Done (Ok tt, q') /\ holds q' (l ++ [v]).
Proof.
  intros (sent & R & Hq & ->). pose proof (ro_room _ _ _ Hq) as Hroom. unfold enqueue.
  rewrite (enq_check_spec q sent R Hq), length_drop.
  replace (Z.of_nat (length sent - R)) with (Z.of_nat (length sent) - Z.of_nat R) by lia.
  destruct (Z.eqb_spec (Z.of_nat (length sent) - Z.of_nat R) (N - 1)); [done |].
  destruct (write_free q sent R v Hq) as (q1 & -> & Hq1 & Hv); [lia |]. cbn [pbind].
  eexists. split; [done |]. exists (sent ++ [v]), R. split; [by apply publish_tail; [| lia |] |].
  rewrite drop_app_le by lia. done.
Qed.

Lemma dequeue_spec q l :
  holds q l ->
  match l with
  | [] => dequeue masked N q = Done (None, q)
  | v :: l' => exists q', dequeue masked N q = Done (Some v, q') /\ holds q' l'
  end.
Proof.
  intros (sent & R & Hq & ->). pose proof (ro_room _ _ _ Hq) as Hroom. unfold dequeue.
  rewrite (deq_check_spec q sent R Hq).
  destruct (Z.eqb_spec (Z.of_nat (length sent)) (Z.of_nat R)) as [E | E].
  { rewrite drop_ge by lia. done. }
  destruct (read_head q sent R Hq) as (v & -> & Hv); [lia |]. rewrite (drop_S _ _ _ Hv). cbn [pbind].
  eexists. split; [done |]. exists sent, (S R). split; [by apply publish_head; [| lia] | done].
Qed.

Lemma observers_spec q l :
  holds q l ->
  is_empty masked N q = bool_decide (l = []) /\ is_full masked N q = (Z.of_nat (length l) =? N - 1) /\
  len masked N q = Z.of_nat (length l).
Proof.
  intros (sent & R & Hq & ->). pose proof (ro_room _ _ _ Hq) as Hroom.
  pose proof (enq_check_spec q sent R Hq) as He. pose proof (deq_check_spec q sent R Hq) as Hd.
  rewrite length_drop. replace (Z.of_nat (length sent - R)) with (Z.of_nat (length sent) - Z.of_nat R) by lia.
  split_and!.
  - unfold deq_check in Hd. unfold is_empty. destruct (load_head masked N q =? load_tail masked N q);
      destruct (Z.eqb_spec (Z.of_nat (length sent)) (Z.of_nat R)) as [E | E]; try done.
    + rewrite bool_decide_true; [done |]. apply drop_ge. lia.
    + rewrite bool_decide_false; [done |]. intros E'%(f_equal length). rewrite length_drop in E'. simpl in E'. lia.
  - unfold enq_check, next_index in He. unfold is_full.
    destruct (wadd (load_tail masked N q) 1 mod N =? load_head masked N q);
      destruct (Z.eqb_spec (Z.of_nat (length sent) - Z.of_nat R) (N - 1)); done.
  - unfold len, load_head, load_tail. rewrite (ro_head _ _ _ Hq), (ro_tail _ _ _ Hq).
    rewrite !load_index_small by apply mod_range.
    pose proof (mod_range (Z.of_nat (length sent))). pose proof (mod_range (Z.of_nat R)).
    rewrite wadd_small, wsub_small by (unfold W64; lia).
    replace (Z.of_nat (length sent) mod N + N - Z.of_nat R mod N)
      with (Z.of_nat (length sent) mod N - Z.of_nat R mod N + 1 * N) by lia.
    rewrite Z.mod_add, <- Zminus_mod, Z.mod_small by lia. done.
Qed.

End Correct.

(** C19. In every interleaving of one producer and one consumer over their atomic
    accesses, starting from a zeroed ring: the values received are a prefix of
    the values sent, in order, with at most [N - 1] in flight; the check that
    finds the ring empty (full) is exact; and every slot access is in bounds and
    sees its own value, so neither side panics. *)
Theorem spsc_fifo {T} masked N (buf : list T) w :
  0 < N -> N < 2 ^ 63 -> Z.of_nat (length buf) = N -> rtc (wstep masked N) (spsc_start buf) w ->
  w_recv w `prefix_of` w_sent w /\
  Z.of_nat (length (w_sent w)) - Z.of_nat (length (w_recv w)) <= N - 1 /\
  (deq_check masked N (w_q w) = None <-> w_recv w = w_sent w) /\
  (enq_check masked N (w_q w) = None <-> Z.of_nat (length (w_sent w)) - Z.of_nat (length (w_recv w)) = N - 1) /\
  (forall t v, w_prod w = PWrite t v -> exists q', slot_write N t v (w_q w) = Done q') /\
  (forall h, w_cons w = CRead h -> exists v, slot_read N h (w_q w) = Done v /\ w_sent w !! length (w_recv w) = Some v).
Proof.
  intros HN HN63 Hl Hr. destruct (ring_reachable_ok masked N HN HN63 buf w Hl Hr) as [Hq Hrec Hp Hc].
  pose proof (ro_room _ _ _ _ Hq) as Hroom. split_and!.
  - rewrite Hrec. apply prefix_take.
  - lia.
  - rewrite (deq_check_spec masked N HN _ _ _ Hq).
    destruct (Z.eqb_spec (Z.of_nat (length (w_sent w))) (Z.of_nat (length (w_recv w)))) as [E | E].
    + split; [| done]. intros _. rewrite Hrec. apply take_ge. lia.
    + split; [done |]. intros Heq. by rewrite Heq in E.
  - rewrite (enq_check_spec masked N HN HN63 _ _ _ Hq).
    destruct (Z.eqb_spec (Z.of_nat (length (w_sent w)) - Z.of_nat (length (w_recv w))) (N - 1)); done.
  - intros t v Epc. rewrite Epc in Hp. destruct Hp as [-> Hfree].
    destruct (write_free N HN _ _ _ v Hq Hfree) as (q' & E & _). eauto.
  - intros h Epc. rewrite Epc in Hc. destruct Hc as [-> Hlt]. by apply read_head.
Qed.

(** Used by one side at a time the ring is a bounded FIFO list of capacity
    [N - 1]: [enqueue] appends or, exactly when full, returns the value back and
    changes nothing; [dequeue] takes the oldest or, exactly when empty, nothing;
    [is_empty], [is_full] and [len] report the list. *)
Theorem spsc_refines_queue {T} masked N (q : SpscQueue T) l v :
  0 < N -> N < 2 ^ 63 -> holds N q l ->
  (if Z.of_nat (length l) =? N - 1 then enqueue masked N v q = Done (Err v, q)
   else exists q', enqueue masked N v q = Done (Ok tt, q') /\ holds N q' (l ++ [v])) /\
  match l with
  | [] => dequeue masked N q = Done (None, q)
  | x :: l' => exists q', dequeue masked N q = Done (Some x, q') /\ holds N q' l'
  end /\
  is_empty masked N q = bool_decide (l = []) /\ is_full masked N q = (Z.of_nat (length l) =? N - 1) /\
  len masked N q = Z.of_nat (length l).
Proof.
  intros HN HN63 Hq. split; [by apply enqueue_spec |]. split; [by apply dequeue_spec |]. by apply observers_spec.
Qed.

(** The masked copy, whose indices lie in memory the user can write, is safe
    under corruption: whatever words [head] and [tail] hold, [enqueue] and
    [dequeue] neither panic nor touch a slot outside the ring. The unmasked copy
    panics on such an index. *)
Theorem spsc_masked_in_bounds {T} N (q : SpscQueue T) v :
  0 < N -> N < 2 ^ 63 -> Z.of_nat (length (buffer q)) = N ->
  (exists r q', enqueue true N v q = Done (r, q') /\ length (buffer q') = length (buffer q)) /\
  (exists r q', dequeue true N q = Done (r, q') /\ buffer q' = buffer q) /\
  (N <= head q -> head q <> tail q -> dequeue false N q = Panic).
Proof.
  intros HN HN63 Hl. unfold enqueue, dequeue, enq_check, deq_check, load_head, load_tail, load_index.
  pose proof (Z.mod_pos_bound (tail q) N HN) as Ht. pose proof (Z.mod_pos_bound (head q) N HN) as Hh.
  split_and!.
  - destruct (_ =? _); [eauto |]. unfold slot_write. destruct (Z.ltb_spec (tail q mod N) N); [| lia].
    cbn [pbind]. eexists _, _. split; [done |]. cbn [set_tail buffer]. apply length_insert.
  - destruct (_ =? _); [eauto |]. unfold slot_read. destruct (Z.ltb_spec (head q mod N) N); [| lia].
    destruct (lookup_lt_is_Some_2 (buffer q) (Z.to_nat (head q mod N))) as [x ->]; [lia |].
    cbn [pbind]. eexists _, _. by split.
  - intros Hge Hne. destruct (Z.eqb_spec (head q) (tail q)); [done |]. unfold slot_read.
    destruct (Z.ltb_spec (head q) N); [lia | done].
Qed.

(** ** Witnesses *)

Lemma spsc_fifo_witness :
  exists w, rtc (wstep false 4) (spsc_start [0; 0; 0; 0]) w /\ w_sent w = [7] /\ w_recv w `prefix_of` w_sent w.
Proof.
  eexists. assert (rtc (wstep false 4) (spsc_start [0; 0; 0; 0]) (mkWorld (mkSpsc 0 1 [7; 0; 0; 0]) PIdle CIdle [7] [])) as Hr.
  { eapply rtc_l; [apply (w_enq_check false 4 _ _ _ _ 7 0); reflexivity |].
    eapply rtc_l; [eapply (w_enq_write false 4); reflexivity |].
    eapply rtc_l; [eapply (w_enq_publish false 4) |]. apply rtc_refl. }
  split; [exact Hr |]. split; [reflexivity |].
  apply (spsc_fifo false 4 [0; 0; 0; 0] _ ltac:(lia) ltac:(lia) eq_refl Hr).
Defined.

Lemma ex_holds : holds 4 (mkSpsc 3 1 [8; 0; 0; 7]) [7; 8].
Proof.
  exists [1; 2; 3; 7; 8], 3%nat. split; [| done]. split; try done; try (cbn; lia).
  intros k Hk. cbn [length] in Hk. assert (k = 3 \/ k = 4)%nat as [-> | ->] by lia; done.
Qed.

Lemma spsc_refines_queue_witness :
  exists q', dequeue true 4 (mkSpsc 3 1 [8; 0; 0; 7]) = Done (Some 7, q') /\ holds 4 q' [8].
Proof.
  apply (spsc_refines_queue true 4 (mkSpsc 3 1 [8; 0; 0; 7]) [7; 8] 9 ltac:(lia) ltac:(lia) ex_holds).
Defined.

Lemma spsc_masked_in_bounds_witness :
  exists r q', dequeue true 4 (mkSpsc 1000003 (2 ^ 64 - 1) [1; 2; 3; 4]) = Done (r, q') /\
    buffer q' = [1; 2; 3; 4].
Proof.
  apply (spsc_masked_in_bounds 4 (mkSpsc 1000003 (2 ^ 64 - 1) [1; 2; 3; 4]) 0 ltac:(lia) ltac:(lia) eq_refl).
Defined.
