(* ===== verification/NetChannel.v ===== *)
(** * Network channels

    Models [net_channel/src/lib.rs]: the packed binding, the layout of the shared
    region, the kernel reconciler [update_tcp] with its phases, and the user side
    [send_tcp] / [recv_tcp]. The TCP socket is the smoltcp crate, which is not
    part of the repository: it is the class [TcpSocket], and what the reconciler
    relies on is the class [TcpSocketLaws].

    The region is shared with a user process that may write it at any time. A
    poll is modelled as one step over the region; the theorems about the kernel
    side quantify over every content of it. *)

From stdpp Require Import base list option numbers sets gmap.
From S2P Require Import Prelude Spsc.
#[local] Open Scope Z_scope.

(** ** The binding *)

Inductive BindSpec :=
| ClientOneShot (addr port : Z)
| ClientRetain (addr port : Z)
| ServerOneShot (port : Z)
| ServerRetain (port : Z).

#[export] Instance BindSpec_eq_dec : EqDecision BindSpec.
Proof. solve_decision. Defined.

Definition pack (b : BindSpec) : Z :=
  match b with
  | ClientOneShot addr port => Z.lor (Z.lor 1 (wshl port 8)) (wshl addr 24)
  | ClientRetain addr port => Z.lor (Z.lor 2 (wshl port 8)) (wshl addr 24)
  | ServerOneShot port => Z.lor 3 (wshl port 8)
  | ServerRetain port => Z.lor 4 (wshl port 8)
  end.

Definition unpack (packed : Z) : option BindSpec :=
  if negb (wshr packed 56 =? 0) then None
  else
    let mode := Z.land packed 0xff in
    let port := Z.land (wshr packed 8) 0xffff in
    let addr := Z.land (wshr packed 24) 0xffffffff in
    if port =? 0 then None
    else if mode =? 1 then Some (ClientOneShot addr port)
    else if mode =? 2 then Some (ClientRetain addr port)
    else if ((mode =? 3) && (addr =? 0))%bool then Some (ServerOneShot port)
    else if ((mode =? 4) && (addr =? 0))%bool then Some (ServerRetain port)
    else None.

Definition is_server (b : BindSpec) : bool :=
  match b with ServerOneShot _ | ServerRetain _ => true | _ => false end.

Definition is_retain (b : BindSpec) : bool :=
  match b with ClientRetain _ _ | ServerRetain _ => true | _ => false end.

(** The values of the type that the kernel accepts: a u32 address, a non-zero
    u16 port. *)
Definition bind_ok (b : BindSpec) : bool :=
  match b with
  | ClientOneShot addr port | ClientRetain addr port =>
      (0 <=? addr) && (addr <? 2 ^ 32) && (0 <? port) && (port <? 2 ^ 16)
  | ServerOneShot port | ServerRetain port => (0 <? port) && (port <? 2 ^ 16)
  end.

(** ** The region layout *)

Definition NC_DESIRED_OFF : Z := 128.
Definition NC_CURRENT_OFF : Z := 256.
Definition NC_TX_OFF : Z := 384.
Definition NC_MIN_REGION_SIZE : Z := 4096.
Definition NC_MAX_REGION_SIZE : Z := 8 * 1024 * 1024.

(** [#[repr(C)]] of [NetChannelQueue]: two rings of 16, two words and the first
    payload byte, padded to the word alignment. *)
Definition NCQ_BUF_OFF : Z := (8 + 8 + 16 * 16) + (8 + 8 + 16 * 8) + 8 + 8.
Definition NCQ_ALIGN : Z := 8.
Definition NCQ_SIZE : Z := 440.

Definition round_usize_up (value alignment : Z) : Z :=
  Z.land (wsub (wadd value alignment) 1) (wnot (wsub alignment 1)).

Definition normalize_region_size (requested : Z) : option Z :=
  if requested =? 0 then None
  else
    let clamped := Z.min (Z.max requested NC_MIN_REGION_SIZE) NC_MAX_REGION_SIZE in
    let page_up := round_usize_up clamped 4096 in
    if NC_MAX_REGION_SIZE <? page_up then None
    else if page_up <? NC_MIN_REGION_SIZE then None
    else Some page_up.

Definition queue_len_for (region_size : Z) : Z :=
  Z.land (wsub region_size NC_TX_OFF / 2) (wnot (NCQ_ALIGN - 1)).

Definition capacity_for (region_size : Z) : Z := wadd (wsub (queue_len_for region_size) NCQ_SIZE) 1.

(** Addresses of the sub-regions, relative to the region's base. *)
Definition tx_off : Z := NC_TX_OFF.
Definition rx_trusted_off (queue_len : Z) : Z := wadd NC_TX_OFF queue_len.

(** [rings]: the two payload slices, as (offset, length). *)
Definition rings (queue_len capacity : Z) : (Z * Z) * (Z * Z) :=
  ((wadd tx_off NCQ_BUF_OFF, capacity), (wadd (rx_trusted_off queue_len) NCQ_BUF_OFF, capacity)).

(** ** State *)

Module channel_state.
Definition IDLE : Z := 0.
Definition IN_FLIGHT : Z := 1.
Definition ACTIVE : Z := 2.
Definition CLOSING : Z := 3.
Definition FAILED : Z := -1.
End channel_state.

Inductive Phase := FreshIdle | Listening | Connecting | Active | Closing | Failed.

#[export] Instance Phase_eq_dec : EqDecision Phase.
Proof. solve_decision. Defined.

Record NetChannelQueue := mkNcq {
  slices : SpscQueue (Z * Z);
  increments : SpscQueue Z;
  avail : Z;
  ncq_capacity : Z;
}.

(** The shared region: [NetChannelDesired], [NetChannelCurrent], the header's own
    copy of the queue length, and the two queues. *)
Record NetChannel := mkNetChannel {
  nc_queue_len : Z;
  engaged : Z;
  cur_state : Z;
  peer_addr : Z;
  peer_port : Z;
  fail_cause : Z;
  tx : NetChannelQueue;
  rx : NetChannelQueue;
}.

Definition eta_nc (c : NetChannel) : NetChannel :=
  mkNetChannel (nc_queue_len c) (engaged c) (cur_state c) (peer_addr c) (peer_port c) (fail_cause c) (tx c) (rx c).
Definition set_engaged : Z -> NetChannel -> NetChannel := ltac:(set_field eta_nc engaged).
Definition set_cur_state : Z -> NetChannel -> NetChannel := ltac:(set_field eta_nc cur_state).
Definition set_peer_addr : Z -> NetChannel -> NetChannel := ltac:(set_field eta_nc peer_addr).
Definition set_peer_port : Z -> NetChannel -> NetChannel := ltac:(set_field eta_nc peer_port).
Definition set_fail_cause : Z -> NetChannel -> NetChannel := ltac:(set_field eta_nc fail_cause).
Definition set_tx : NetChannelQueue -> NetChannel -> NetChannel := ltac:(set_field eta_nc tx).
Definition set_rx : NetChannelQueue -> NetChannel -> NetChannel := ltac:(set_field eta_nc rx).

Definition eta_ncq (q : NetChannelQueue) : NetChannelQueue :=
  mkNcq (slices q) (increments q) (avail q) (ncq_capacity q).
Definition set_slices : SpscQueue (Z * Z) -> NetChannelQueue -> NetChannelQueue := ltac:(set_field eta_ncq slices).
Definition set_increments : SpscQueue Z -> NetChannelQueue -> NetChannelQueue := ltac:(set_field eta_ncq increments).
Definition set_avail : Z -> NetChannelQueue -> NetChannelQueue := ltac:(set_field eta_ncq avail).

(** The kernel's own record of a channel. *)
Record ChannelCtx := mkCtx {
  bind : BindSpec;
  phase : Phase;
  queue_len : Z;
  capacity : Z;
  pending_rx_ack : bool;
  pending_tx_ack : bool;
  staged_rx_len : Z;
  staged_tx_len : Z;
  last_engaged : bool;
  backoff_ms : Z;
  next_attempt_at_us : Z;
}.

Definition eta_ctx (c : ChannelCtx) : ChannelCtx :=
  mkCtx (bind c) (phase c) (queue_len c) (capacity c) (pending_rx_ack c) (pending_tx_ack c)
    (staged_rx_len c) (staged_tx_len c) (last_engaged c) (backoff_ms c) (next_attempt_at_us c).
Definition set_phase : Phase -> ChannelCtx -> ChannelCtx := ltac:(set_field eta_ctx phase).
Definition set_pending_rx_ack : bool -> ChannelCtx -> ChannelCtx := ltac:(set_field eta_ctx pending_rx_ack).
Definition set_pending_tx_ack : bool -> ChannelCtx -> ChannelCtx := ltac:(set_field eta_ctx pending_tx_ack).
Definition set_staged_rx_len : Z -> ChannelCtx -> ChannelCtx := ltac:(set_field eta_ctx staged_rx_len).
Definition set_staged_tx_len : Z -> ChannelCtx -> ChannelCtx := ltac:(set_field eta_ctx staged_tx_len).
Definition set_last_engaged : bool -> ChannelCtx -> ChannelCtx := ltac:(set_field eta_ctx last_engaged).
Definition set_backoff_ms : Z -> ChannelCtx -> ChannelCtx := ltac:(set_field eta_ctx backoff_ms).
Definition set_next_attempt_at_us : Z -> ChannelCtx -> ChannelCtx := ltac:(set_field eta_ctx next_attempt_at_us).

Definition ChannelCtx_new (b : BindSpec) (region_size : Z) : ChannelCtx :=
  mkCtx b FreshIdle (queue_len_for region_size) (capacity_for region_size) false false 0 0 false 0 0.

(** [init] on a zeroed region: the header and both queues get the user's copies. *)
Definition zero_ncq (cap : Z) : NetChannelQueue :=
  mkNcq (mkSpsc 0 0 (replicate 16 (0, 0))) (mkSpsc 0 0 (replicate 16 0)) 0 cap.
Definition NetChannel_init (region_size : Z) : NetChannel :=
  mkNetChannel (queue_len_for region_size) 0 0 0 0 0 (zero_ncq (capacity_for region_size)) (zero_ncq (capacity_for region_size)).

Record UpdateOutcome := mkOutcome { session_state_changed : bool; ring_progress : bool }.
Definition should_wake_user (o : UpdateOutcome) : bool := (session_state_changed o || ring_progress o)%bool.

Definition RETAIN_BACKOFF_MIN_MS : Z := 100.
Definition RETAIN_BACKOFF_CAP_MS : Z := 30000.
Definition EBIND_LISTEN : Z := 1.
Definition EBIND_CONNECT : Z := 2.
Definition EBIND_DONE : Z := 3.
Definition EBIND_IO : Z := 4.

(** [backoff_ms] is a u32, the deadline a u64; both saturate. *)
Definition schedule_retry (now_us : Z) (ctx : ChannelCtx) : ChannelCtx :=
  let next := if backoff_ms ctx =? 0 then RETAIN_BACKOFF_MIN_MS
              else Z.min (Z.min (backoff_ms ctx * 2) (2 ^ 32 - 1)) RETAIN_BACKOFF_CAP_MS in
  set_next_attempt_at_us (saturating_add now_us (wmul next 1000)) (set_backoff_ms next ctx).

(** ** The socket *)

(** The calls the reconciler makes on smoltcp's TCP socket [S] and interface [I].
    [sk_recv s n] is [recv(|_| (n, n))]; it asserts [n] against the buffer, so it
    can panic. A boolean result is [true] for [Ok]. *)
Class TcpSocket (S I : Type) := {
  sk_may_send : S -> bool;
  sk_may_recv : S -> bool;
  sk_recv_queue : S -> Z;
  sk_is_closed : S -> bool;
  sk_listen : S -> Z -> S * bool;
  sk_connect : I -> S -> Z -> Z -> Z -> I * S * bool;
  sk_close : S -> S;
  sk_abort : S -> S;
  sk_recv : S -> Z -> panics (S * bool);
  sk_send : S -> Z -> panics (S * bool);
  sk_get_next_rx : S -> S * (Z * Z);
  sk_get_next_tx : S -> S * (Z * Z);
  sk_remote_endpoint : S -> option (Z * Z);
}.

(** An early [return], or the code after the block. *)
Inductive flow (A : Type) := Next (a : A) | Ret (a : A).
Arguments Next {A} a.
Arguments Ret {A} a.

Definition flow_bind {A} (m : panics (flow A)) (k : A -> panics (flow A)) : panics (flow A) :=
  match m with
  | Done (Next a) => k a
  | Done (Ret a) => Done (Ret a)
  | Panic => Panic
  end.

Notation "x <-? m ;; k" := (flow_bind m (fun x => k))
  (at level 100, m at next level, right associativity) : orbit_scope.

Section Reconciler.
Context {S I : Type} `{TcpSocket S I}.

Record poll := mkPoll {
  p_sock : S;
  p_iface : I;
  p_ctx : ChannelCtx;
  p_nc : NetChannel;
  p_out : UpdateOutcome;
}.

Definition with_sock (s : S) (p : poll) : poll := mkPoll s (p_iface p) (p_ctx p) (p_nc p) (p_out p).
Definition with_iface (i : I) (p : poll) : poll := mkPoll (p_sock p) i (p_ctx p) (p_nc p) (p_out p).
Definition on_ctx (f : ChannelCtx -> ChannelCtx) (p : poll) : poll :=
  mkPoll (p_sock p) (p_iface p) (f (p_ctx p)) (p_nc p) (p_out p).
Definition on_nc (f : NetChannel -> NetChannel) (p : poll) : poll :=
  mkPoll (p_sock p) (p_iface p) (p_ctx p) (f (p_nc p)) (p_out p).
Definition mark_state_changed (p : poll) : poll :=
  mkPoll (p_sock p) (p_iface p) (p_ctx p) (p_nc p) (mkOutcome true (ring_progress (p_out p))).
Definition mark_ring_progress (p : poll) : poll :=
  mkPoll (p_sock p) (p_iface p) (p_ctx p) (p_nc p) (mkOutcome (session_state_changed (p_out p)) true).

(** The block the code repeats for every terminal failure. *)
Definition fail_channel (cause : Z) (p : poll) : poll :=
  on_ctx (set_phase Failed)
    (mark_state_changed (on_nc (fun c => set_cur_state channel_state.FAILED (set_fail_cause cause c)) p)).

(** [cur.state.store(s); outcome.session_state_changed = true; ctx.phase = ph]. *)
Definition enter (ph : Phase) (s : Z) (p : poll) : poll :=
  on_ctx (set_phase ph) (mark_state_changed (on_nc (set_cur_state s) p)).

Definition try_connect (addr port : Z) (p : poll) : poll * bool :=
  let '(i, s, ok) := sk_connect (p_iface p) (p_sock p) addr port 49152 in
  (with_iface i (with_sock s p), ok).

Definition publish_peer (p : poll) : poll :=
  match sk_remote_endpoint (p_sock p) with
  | Some (a, port) => on_nc (fun c => set_peer_port port (set_peer_addr a c)) p
  | None => p
  end.

(** [reset_kernel_side]. *)
Definition reset_kernel_side (c : NetChannel) : NetChannel :=
  let reset q := set_avail 0 (set_increments (reset_consumer (increments q)) (set_slices (reset_producer (slices q)) q)) in
  set_rx (reset (rx c)) (set_tx (reset (tx c)) c).

(** One iteration of [while let Some(n) = tx.dequeue_increment()]. On the
    disengage edge a failing [send] is ignored; in the active drain it fails the
    channel. *)
Definition tx_body (ignore_err : bool) (p : poll) : poll + panics (flow poll) :=
  match dequeue true 16 (increments (tx (p_nc p))) with
  | Panic => inr Panic
  | Done (None, q) => inr (Done (Next p))
  | Done (Some n, q) =>
      let p := on_nc (fun c => set_tx (set_increments q (tx c)) c) p in
      let ctx := p_ctx p in
      if (negb (pending_tx_ack ctx) || (n =? 0) || (staged_tx_len ctx <? n))%bool
      then inr (Done (Ret (fail_channel EBIND_IO p)))
      else
        match sk_send (p_sock p) n with
        | Panic => inr Panic
        | Done (s, ok) =>
            let p := with_sock s p in
            if (negb ok && negb ignore_err)%bool then inr (Done (Ret (fail_channel EBIND_IO p)))
            else inl (on_ctx (fun c => set_staged_tx_len 0 (set_pending_tx_ack false c)) p)
        end
  end.

Definition rx_body (p : poll) : poll + panics (flow poll) :=
  match dequeue true 16 (increments (rx (p_nc p))) with
  | Panic => inr Panic
  | Done (None, q) => inr (Done (Next p))
  | Done (Some n, q) =>
      let p := on_nc (fun c => set_rx (set_increments q (rx c)) c) p in
      let ctx := p_ctx p in
      if (negb (pending_rx_ack ctx) || (n =? 0) || (staged_rx_len ctx <? n))%bool
      then inr (Done (Ret (fail_channel EBIND_IO p)))
      else
        match sk_recv (p_sock p) n with
        | Panic => inr Panic
        | Done (s, ok) =>
            let p := with_sock s p in
            if negb ok then inr (Done (Ret (fail_channel EBIND_IO p)))
            else inl (on_ctx (fun c => set_staged_rx_len 0 (set_pending_rx_ack false c)) p)
        end
  end.

(** The loops; [None] (out of iterations) cannot happen, see [drain_total]. *)
Definition drain_loop (body : poll -> poll + panics (flow poll)) (p : poll) : panics (flow poll) :=
  match while64 body p with Some r => r | None => Panic end.

Definition drain_tx (ignore_err : bool) : poll -> panics (flow poll) := drain_loop (tx_body ignore_err).
Definition drain_rx : poll -> panics (flow poll) := drain_loop rx_body.

(** The [1 -> 0] edge of [engaged] in the active phase. *)
Definition disengage_edge (p : poll) : panics (flow poll) :=
  p <-? (if sk_may_send (p_sock p) then drain_tx true p else Done (Next p)) ;;
  Done (Ret (mark_state_changed (on_nc (set_cur_state channel_state.CLOSING)
    (on_ctx (set_phase Closing) (with_sock (sk_close (p_sock p)) p))))).

(** The [Closing] phase. *)
Definition closing_step (p : poll) : panics (flow poll) :=
  if negb (sk_is_closed (p_sock p)) then Done (Ret p)
  else
    let p := with_sock (sk_abort (p_sock p)) p in
    let p := on_nc reset_kernel_side p in
    let p := on_ctx (fun c => set_staged_tx_len 0 (set_staged_rx_len 0
               (set_pending_tx_ack false (set_pending_rx_ack false c)))) p in
    let p := on_nc (fun c => set_peer_port 0 (set_peer_addr 0 c)) p in
    match bind (p_ctx p) with
    | ServerRetain port =>
        let '(s, ok) := sk_listen (p_sock p) port in
        let p := with_sock s p in
        if negb ok then Done (Ret (fail_channel EBIND_LISTEN p))
        else Done (Ret (enter Listening channel_state.IN_FLIGHT p))
    | ClientRetain _ _ =>
        Done (Ret (enter FreshIdle channel_state.IDLE
          (on_ctx (fun c => set_next_attempt_at_us 0 (set_backoff_ms 0 c)) p)))
    | ServerOneShot _ | ClientOneShot _ _ => Done (Ret (fail_channel EBIND_DONE p))
    end.

(** The [FreshIdle] phase: arm the socket. *)
Definition arm_step (now_us : Z) (engaged_now : bool) (p : poll) : panics (flow poll) :=
  match bind (p_ctx p) with
  | ServerOneShot port | ServerRetain port =>
      let '(s, ok) := sk_listen (p_sock p) port in
      let p := with_sock s p in
      if negb ok then Done (Ret (fail_channel EBIND_LISTEN p))
      else Done (Next (enter Listening channel_state.IN_FLIGHT p))
  | ClientRetain addr port =>
      if next_attempt_at_us (p_ctx p) <=? now_us then
        let '(p, ok) := try_connect addr port p in
        if ok then Done (Next (enter Connecting channel_state.IN_FLIGHT p))
        else Done (Next (on_ctx (schedule_retry now_us) p))
      else Done (Next p)
  | ClientOneShot addr port =>
      if engaged_now then
        let '(p, ok) := try_connect addr port p in
        if ok then Done (Next (enter Connecting channel_state.IN_FLIGHT p))
        else Done (Ret (fail_channel EBIND_CONNECT p))
      else Done (Next p)
  end.

Definition listening_step (p : poll) : panics (flow poll) :=
  if (sk_may_send (p_sock p) || sk_may_recv (p_sock p))%bool
  then Done (Next (enter Active channel_state.ACTIVE (publish_peer p)))
  else Done (Next p).

Definition connecting_step (now_us : Z) (p : poll) : panics (flow poll) :=
  if (sk_may_send (p_sock p) || sk_may_recv (p_sock p))%bool
  then Done (Next (enter Active channel_state.ACTIVE
         (on_ctx (fun c => set_next_attempt_at_us 0 (set_backoff_ms 0 c)) (publish_peer p))))
  else if sk_is_closed (p_sock p) then
    match bind (p_ctx p) with
    | ClientOneShot _ _ => Done (Ret (fail_channel EBIND_CONNECT p))
    | ClientRetain _ _ =>
        Done (Next (mark_state_changed (on_nc (set_cur_state channel_state.IDLE)
          (on_ctx (fun c => schedule_retry now_us (set_phase FreshIdle c)) p))))
    | _ => Done (Next p)
    end
  else Done (Next p).

(** Staging a fresh slice; the result of [enqueue_slice] is dropped. *)
Definition stage_rx (p : poll) : panics (flow poll) :=
  if pending_rx_ack (p_ctx p) then Done (Next p)
  else
    let '(s, next_rx) := sk_get_next_rx (p_sock p) in
    let p := with_sock s p in
    if 0 <? snd next_rx then
      match enqueue true 16 next_rx (slices (rx (p_nc p))) with
      | Panic => Panic
      | Done (_, q) =>
          let p := on_nc (fun c => set_rx (set_avail (snd next_rx) (set_slices q (rx c))) c) p in
          Done (Next (mark_ring_progress
            (on_ctx (fun c => set_staged_rx_len (snd next_rx) (set_pending_rx_ack true c)) p)))
      end
    else Done (Next p).

Definition stage_tx (p : poll) : panics (flow poll) :=
  if (negb (is_empty true 16 (slices (tx (p_nc p)))) || pending_tx_ack (p_ctx p))%bool then Done (Next p)
  else
    let '(s, next_tx) := sk_get_next_tx (p_sock p) in
    let p := with_sock s p in
    if 0 <? snd next_tx then
      match enqueue true 16 next_tx (slices (tx (p_nc p))) with
      | Panic => Panic
      | Done (_, q) =>
          let p := on_nc (fun c => set_tx (set_avail (snd next_tx) (set_slices q (tx c))) c) p in
          Done (Next (mark_ring_progress
            (on_ctx (fun c => set_staged_tx_len (snd next_tx) (set_pending_tx_ack true c)) p)))
      end
    else Done (Next p).

(** The [Active] phase. *)
Definition active_step (p : poll) : panics (flow poll) :=
  p <-? (if (sk_may_recv (p_sock p) || (0 <? sk_recv_queue (p_sock p)))%bool
         then p <-? drain_rx p ;; stage_rx p else Done (Next p)) ;;
  if sk_may_send (p_sock p) then p <-? drain_tx false p ;; stage_tx p else Done (Next p).

Definition in_phase (ph : Phase) (p : poll) : bool := bool_decide (phase (p_ctx p) = ph).

(** [update_tcp]: one poll. *)
Definition update_tcp_body (now_us : Z) (p : poll) : panics (flow poll) :=
  let engaged_now := negb (engaged (p_nc p) =? 0) in
  let was_engaged := last_engaged (p_ctx p) in
  let p := on_ctx (set_last_engaged engaged_now) p in
  if in_phase Failed p then Done (Ret p)
  else if (was_engaged && negb engaged_now && in_phase Active p)%bool then disengage_edge p
  else if in_phase Closing p then closing_step p
  else
    p <-? (if in_phase FreshIdle p then arm_step now_us engaged_now p else Done (Next p)) ;;
    p <-? (if in_phase Listening p then listening_step p else Done (Next p)) ;;
    p <-? (if in_phase Connecting p then connecting_step now_us p else Done (Next p)) ;;
    if in_phase Active p then active_step p else Done (Next p).

Definition update_tcp (now_us : Z) (s : S) (i : I) (ctx : ChannelCtx) (nc : NetChannel) : panics poll :=
  match update_tcp_body now_us (mkPoll s i ctx nc (mkOutcome false false)) with
  | Done (Next p) | Done (Ret p) => Done p
  | Panic => Panic
  end.

End Reconciler.
Arguments poll S I : clear implicits.

(** ** The user side *)

(** [reset_user_side]. *)
Definition reset_user_side (c : NetChannel) : NetChannel :=
  let reset q := set_increments (reset_producer (increments q)) (set_slices (reset_consumer (slices q)) q) in
  set_rx (reset (rx c)) (set_tx (reset (tx c)) c).

(** The shared tail of [send_tcp] and [recv_tcp] on one queue: [f] is the
    caller's closure on the slice, as the number of bytes it handled. *)
Definition user_transfer (f : Z * Z -> Z) (q : NetChannelQueue) : panics (result Z Z * NetChannelQueue) :=
  if is_empty true 16 (slices q) then Done (Err (-4), q)
  else if is_full true 16 (increments q) then Done (Err (-5), q)
  else
    match dequeue true 16 (slices q) with
    | Panic => Panic
    | Done (None, _) => Done (Err (-4), q)
    | Done (Some sl, s') =>
        let q := set_slices s' q in
        let written := f sl in
        if written =? 0 then Done (Ok 0, q)
        else
          match enqueue true 16 written (increments q) with
          | Panic => Panic
          | Done (_, inc) => Done (Ok written, set_avail (wsub (avail q) written) (set_increments inc q))
          end
    end.

Definition send_tcp (f : Z * Z -> Z) (c : NetChannel) : panics (result Z Z * NetChannel) :=
  if negb (cur_state c =? channel_state.ACTIVE) then Done (Err (cur_state c), c)
  else
    r <-! user_transfer f (tx c) ;;
    Done (fst r, set_tx (snd r) c).

Definition recv_tcp (f : Z * Z -> Z) (c : NetChannel) : panics (result Z Z * NetChannel) :=
  if cur_state c <? channel_state.ACTIVE then Done (Err (cur_state c), c)
  else
    r <-! user_transfer f (rx c) ;;
    Done (fst r, set_rx (snd r) c).

Definition engage (c : NetChannel) : NetChannel := set_engaged 1 c.
Definition disengage (c : NetChannel) : NetChannel := set_engaged 0 c.
Definition readable (c : NetChannel) : Z := avail (rx c).
Definition writeable (c : NetChannel) : Z := avail (tx c).

(** ** What the reconciler relies on, and its invariant *)

Section Invariant.
Context {S I : Type} `{TcpSocket S I}.

(** [n] bytes lie in the receive buffer (fit the send buffer): consuming any
    part of them does not trip smoltcp's assertion. *)
Definition can_recv (s : S) (n : Z) : Prop := forall m, 0 < m <= n -> exists r, sk_recv s m = Done r.
Definition can_send (s : S) (n : Z) : Prop := forall m, 0 < m <= n -> exists r, sk_send s m = Done r.

(** The socket's contract: the slice it hands out can be consumed, and using one
    direction leaves the other alone. *)
Class TcpSocketLaws := {
  next_rx_ok s s' sl : sk_get_next_rx s = (s', sl) -> can_recv s' (snd sl);
  next_tx_ok s s' sl : sk_get_next_tx s = (s', sl) -> can_send s' (snd sl);
  next_rx_keeps s s' sl n : sk_get_next_rx s = (s', sl) -> can_send s n -> can_send s' n;
  next_tx_keeps s s' sl n : sk_get_next_tx s = (s', sl) -> can_recv s n -> can_recv s' n;
  recv_keeps s s' m b n : sk_recv s m = Done (s', b) -> can_send s n -> can_send s' n;
  send_keeps s s' m b n : sk_send s m = Done (s', b) -> can_recv s n -> can_recv s' n;
}.

(** Every ring of the region has 16 slots; their contents, and every other word
    the user can write, are arbitrary. *)
Definition ring16 {T} (q : SpscQueue T) : Prop := length (buffer q) = 16%nat.
Record nc_typed (c : NetChannel) : Prop := {
  typed_tx_s : ring16 (slices (tx c)); typed_tx_i : ring16 (increments (tx c));
  typed_rx_s : ring16 (slices (rx c)); typed_rx_i : ring16 (increments (rx c));
}.

(** The increments the user writes are machine words. *)
Definition words (q : SpscQueue Z) : Prop := Forall is_u64 (buffer q).

Definition state_of (ph : Phase) : Z :=
  match ph with
  | FreshIdle => channel_state.IDLE
  | Listening | Connecting => channel_state.IN_FLIGHT
  | Active => channel_state.ACTIVE
  | Closing => channel_state.CLOSING
  | Failed => channel_state.FAILED
  end.

Definition staged_ok (s : S) (c : ChannelCtx) : Prop :=
  (pending_rx_ack c = true -> can_recv s (staged_rx_len c)) /\
  (pending_tx_ack c = true -> can_send s (staged_tx_len c)).

(** The kernel-side invariant of a channel. *)
Record ctx_ok (s : S) (c : ChannelCtx) : Prop := {
  co_active : phase c = Active -> staged_ok s c;
  co_idle : phase c = FreshIdle \/ phase c = Listening \/ phase c = Connecting ->
            pending_rx_ack c = false /\ pending_tx_ack c = false;
  co_server : phase c = Listening -> is_server (bind c) = true;
  co_client : phase c = Connecting -> is_server (bind c) = false;
  co_backoff : 0 <= backoff_ms c <= RETAIN_BACKOFF_CAP_MS;
}.

(** What one poll may do to the phase. *)
Definition phase_next (b : BindSpec) (from to : Phase) : bool :=
  match from, to with
  | FreshIdle, (FreshIdle | Active | Failed) => true
  | FreshIdle, Listening => is_server b
  | FreshIdle, Connecting => negb (is_server b)
  | Listening, (Listening | Active | Failed) => true
  | Connecting, (Connecting | Active | Failed) => true
  | Connecting, FreshIdle => is_retain b
  | Active, (Active | Closing | Failed) => true
  | Closing, Closing => true
  | Closing, Listening => is_server b && is_retain b
  | Closing, FreshIdle => negb (is_server b) && is_retain b
  | Closing, Failed => negb (is_retain b) || is_server b
  | Failed, Failed => true
  | _, _ => false
  end.

(** The invariant of a poll under way. [states] says the published state is the
    phase's: it holds as long as the user leaves the kernel's words alone. *)
Record poll_ok (p : poll S I) : Prop := {
  po_typed : nc_typed (p_nc p);
  po_txw : words (increments (tx (p_nc p)));
  po_rxw : words (increments (rx (p_nc p)));
  po_ctx : ctx_ok (p_sock p) (p_ctx p);
}.

Definition coherent (p : poll S I) : Prop := cur_state (p_nc p) = state_of (phase (p_ctx p)).

(** The relation between the poll before and after a block. *)
Record evolves (p p' : poll S I) : Prop := {
  ev_ok : poll_ok p';
  ev_bind : bind (p_ctx p') = bind (p_ctx p);
  ev_coh : coherent p -> coherent p';
  ev_flag : phase (p_ctx p') <> phase (p_ctx p) -> session_state_changed (p_out p') = true;
  ev_keep : session_state_changed (p_out p) = true -> session_state_changed (p_out p') = true;
}.

(** A block's outcome: it does not panic, and its result satisfies [Q]. *)
Definition fpost (m : panics (flow (poll S I))) (Qn Qr : poll S I -> Prop) : Prop :=
  match m with Done (Next p) => Qn p | Done (Ret p) => Qr p | Panic => False end.

Lemma fpost_bind m k Qn1 Qn Qr :
  fpost m Qn1 Qr -> (forall p, Qn1 p -> fpost (k p) Qn Qr) -> fpost (flow_bind m k) Qn Qr.
Proof. destruct m as [[p | p] |]; cbn; auto. Qed.

Lemma fpost_mono m (Qn Qr Qn' Qr' : poll S I -> Prop) :
  fpost m Qn Qr -> (forall p, Qn p -> Qn' p) -> (forall p, Qr p -> Qr' p) -> fpost m Qn' Qr'.
Proof. destruct m as [[p | p] |]; cbn; auto. Qed.

Lemma evolves_refl p : poll_ok p -> evolves p p.
Proof. intros Hp. by split. Qed.

Lemma evolves_trans p1 p2 p3 : evolves p1 p2 -> evolves p2 p3 -> evolves p1 p3.
Proof.
  intros [? Hb1 Hc1 Hf1 Hk1] [? Hb2 Hc2 Hf2 Hk2]. split; [done | congruence | auto | | auto].
  intros Hne. destruct (decide (phase (p_ctx p2) = phase (p_ctx p1))) as [E | E]; [| auto].
  apply Hf2. congruence.
Qed.

(** Failing the channel is always allowed. *)
Lemma fail_evolves cause p : poll_ok p -> evolves p (fail_channel cause p).
Proof.
  intros [Ht Hw Hw' Hc]. split; try done. split; try done.
  - by destruct Ht.
  - destruct Hc. split; cbn; try done; intros [E | [E | E]]; done.
Qed.

Lemma fail_phase cause (p : poll S I) : phase (p_ctx (fail_channel cause p)) = Failed.
Proof. done. Qed.

Lemma deq16 (q : SpscQueue Z) :
  ring16 q -> words q ->
  exists r q', dequeue true 16 q = Done (r, q') /\ ring16 q' /\ words q' /\ (forall n, r = Some n -> is_u64 n).
Proof.
  unfold ring16, words. intros Hl Hw. unfold dequeue, deq_check, load_head, load_tail, load_index.
  destruct (_ =? _).
  { eexists _, _. split; [done |]. split_and!; try done. }
  pose proof (Z.mod_pos_bound (head q) 16 ltac:(lia)) as Hm. unfold slot_read.
  destruct (Z.ltb_spec (head q mod 16) 16); [| lia].
  destruct (lookup_lt_is_Some_2 (buffer q) (Z.to_nat (head q mod 16))) as [x Hx]; [lia |]. rewrite Hx. cbn [pbind].
  eexists _, _. split; [done |]. split_and!; try done. intros n [= <-]. by eapply Forall_lookup_1.
Qed.

Lemma enq16 {T} (v : T) (q : SpscQueue T) :
  ring16 q -> exists r q', enqueue true 16 v q = Done (r, q') /\ ring16 q'.
Proof.
  unfold ring16. intros Hl. unfold enqueue, enq_check, load_head, load_tail, load_index.
  pose proof (Z.mod_pos_bound (tail q) 16 ltac:(lia)). destruct (_ =? _); [eauto |]. unfold slot_write.
  destruct (Z.ltb_spec (tail q mod 16) 16); [| lia]. cbn [pbind]. eexists _, _. split; [done |].
  cbn [set_tail buffer]. by rewrite length_insert.
Qed.

Context `{!TcpSocketLaws}.

(** One drain iteration, and with it the loop: at most one increment is accepted
    per staged slice, so the loop ends after two turns whatever the ring holds. *)
Lemma tx_body_ok ign p0 p :
  evolves p0 p -> phase (p_ctx p) = Active ->
  match tx_body ign p with
  | inl p' => (evolves p0 p' /\ phase (p_ctx p') = Active) /\ pending_tx_ack (p_ctx p') = false /\ pending_tx_ack (p_ctx p) = true
  | inr m => fpost m (fun p' => evolves p0 p' /\ phase (p_ctx p') = Active) (fun p' => evolves p0 p' /\ phase (p_ctx p') = Failed)
  end.
Proof.
  intros Hev Hph. pose proof (ev_ok _ _ Hev) as [[Ht1 Ht2 Ht3 Ht4] Htw Hrw Hc].
  destruct (deq16 _ Ht2 Htw) as (r & q & Hq & Hq16 & Hqw & Hr). unfold tx_body. rewrite Hq.
  destruct r as [n |]; [| by cbn].
  set (p1 := on_nc (fun c => set_tx (set_increments q (tx c)) c) p).
  assert (Hp1 : poll_ok p1) by (by split).
  assert (Hev1 : evolves p0 p1) by (eapply evolves_trans; [exact Hev | by split]).
  destruct (_ || _)%bool eqn:E.
  { cbn. split; [| done]. eapply evolves_trans; [exact Hev1 | by apply fail_evolves]. }
  apply orb_false_iff in E as [[Epend Ez]%orb_false_iff Elen]. to_prop.
  assert (Epend' : pending_tx_ack (p_ctx p) = true) by done.
  pose proof (co_active _ _ Hc Hph) as [Hrx Htx]. pose proof (Hr n eq_refl) as Hn. unfold is_u64 in Hn.
  destruct (Htx Epend' n) as [[s b] Hs]; [cbn in Elen |- *; lia |]. change (p_sock p1) with (p_sock p). rewrite Hs.
  set (p2 := with_sock s p1).
  assert (Hdone : poll_ok (on_ctx (fun c => set_staged_tx_len 0 (set_pending_tx_ack false c)) p2)).
  { split; try done. cbn. destruct Hc as [_ ? ? ? ?].
    split; cbn; try done; [intros _ | intros [? | [? | ?]]; congruence].
    split; [| done]. intros Hp. by eapply send_keeps, Hrx. }
  assert (Hfail : poll_ok (fail_channel EBIND_IO p2)).
  { split; try done. cbn. destruct Hc as [_ ? ? ? ?]. split; cbn; try done. intros [? | [? | ?]]; congruence. }
  destruct (_ && _)%bool.
  - cbn [fpost]. split; [| done]. eapply evolves_trans; [exact Hev1 |]. by split.
  - split; [| done]. split; [| exact Hph]. eapply evolves_trans; [exact Hev1 |]. by split.
Qed.

Lemma rx_body_ok p0 p :
  evolves p0 p -> phase (p_ctx p) = Active ->
  match rx_body p with
  | inl p' => (evolves p0 p' /\ phase (p_ctx p') = Active) /\ pending_rx_ack (p_ctx p') = false /\ pending_rx_ack (p_ctx p) = true
  | inr m => fpost m (fun p' => evolves p0 p' /\ phase (p_ctx p') = Active) (fun p' => evolves p0 p' /\ phase (p_ctx p') = Failed)
  end.
Proof.
  intros Hev Hph. pose proof (ev_ok _ _ Hev) as [[Ht1 Ht2 Ht3 Ht4] Htw Hrw Hc].
  destruct (deq16 _ Ht4 Hrw) as (r & q & Hq & Hq16 & Hqw & Hr). unfold rx_body. rewrite Hq.
  destruct r as [n |]; [| by cbn].
  set (p1 := on_nc (fun c => set_rx (set_increments q (rx c)) c) p).
  assert (Hp1 : poll_ok p1) by (by split).
  assert (Hev1 : evolves p0 p1) by (eapply evolves_trans; [exact Hev | by split]).
  destruct (_ || _)%bool eqn:E.
  { cbn. split; [| done]. eapply evolves_trans; [exact Hev1 | by apply fail_evolves]. }
  apply orb_false_iff in E as [[Epend Ez]%orb_false_iff Elen]. to_prop.
  assert (Epend' : pending_rx_ack (p_ctx p) = true) by done.
  pose proof (co_active _ _ Hc Hph) as [Hrx Htx]. pose proof (Hr n eq_refl) as Hn. unfold is_u64 in Hn.
  destruct (Hrx Epend' n) as [[s b] Hs]; [cbn in Elen |- *; lia |]. change (p_sock p1) with (p_sock p). rewrite Hs.
  set (p2 := with_sock s p1).
  assert (Hdone : poll_ok (on_ctx (fun c => set_staged_rx_len 0 (set_pending_rx_ack false c)) p2)).
  { split; try done. cbn. destruct Hc as [_ ? ? ? ?].
    split; cbn; try done; [intros _ | intros [? | [? | ?]]; congruence].
    split; [done |]. intros Hp. by eapply recv_keeps, Htx. }
  assert (Hfail : poll_ok (fail_channel EBIND_IO p2)).
  { split; try done. cbn. destruct Hc as [_ ? ? ? ?]. split; cbn; try done. intros [? | [? | ?]]; congruence. }
  destruct (negb b).
  - cbn [fpost]. split; [| done]. eapply evolves_trans; [exact Hev1 |]. by split.
  - split; [| done]. split; [| exact Hph]. eapply evolves_trans; [exact Hev1 |]. by split.
Qed.

Lemma drain_total body (pend : poll S I -> bool) p :
  (forall p0 p, evolves p0 p -> phase (p_ctx p) = Active ->
    match body p with
    | inl p' => (evolves p0 p' /\ phase (p_ctx p') = Active) /\ pend p' = false /\ pend p = true
    | inr m => fpost m (fun p' => evolves p0 p' /\ phase (p_ctx p') = Active) (fun p' => evolves p0 p' /\ phase (p_ctx p') = Failed)
    end) ->
  poll_ok p -> phase (p_ctx p) = Active ->
  fpost (drain_loop body p) (fun p' => evolves p p' /\ phase (p_ctx p') = Active)
    (fun p' => evolves p p' /\ phase (p_ctx p') = Failed).
Proof.
  intros Hb Hp Hph. unfold drain_loop.
  destruct (while64_total body (fun p' => evolves p p' /\ phase (p_ctx p') = Active)
    (fun p => if pend p then 1 else 0)
    (fun m => fpost m (fun p' => evolves p p' /\ phase (p_ctx p') = Active) (fun p' => evolves p p' /\ phase (p_ctx p') = Failed)) p)
    as (m & -> & Hm).
  - intros p1 [Hev Hph1]. specialize (Hb p p1 Hev Hph1). destruct (body p1) as [p2 | m]; [| done].
    destruct Hb as (Hb & E2 & E1). rewrite E1, E2. split; [done | lia].
  - split; [by apply evolves_refl | done].
  - destruct (pend p); reflexivity.
  - exact Hm.
Qed.


(** A block that changes neither the region's rings nor the staging keeps the
    invariant when the new phase asks nothing of the socket. *)
Lemma enter_evolves p q ph :
  poll_ok p -> poll_ok q -> bind (p_ctx q) = bind (p_ctx p) ->
  (session_state_changed (p_out p) = true -> session_state_changed (p_out q) = true) ->
  poll_ok (enter ph (state_of ph) q) -> evolves p (enter ph (state_of ph) q).
Proof. intros Hp Hq Hb Hk He. by split. Qed.

Lemma disengage_edge_ok p :
  poll_ok p -> phase (p_ctx p) = Active ->
  fpost (disengage_edge p) (fun _ => False)
    (fun p' => evolves p p' /\ (phase (p_ctx p') = Closing \/ phase (p_ctx p') = Failed)).
Proof.
  intros Hp Hph. unfold disengage_edge.
  apply (fpost_bind _ _ (fun p' => evolves p p' /\ phase (p_ctx p') = Active)).
  - destruct (sk_may_send (p_sock p)); [| split; [by apply evolves_refl | done]].
    eapply fpost_mono; [apply (drain_total _ (fun p => pending_tx_ack (p_ctx p))); try done; apply tx_body_ok | done |].
    intros p' [? ?]. auto.
  - intros p' [Hev Hph']. cbn [fpost]. split; [| by left]. eapply evolves_trans; [exact Hev |].
    destruct (ev_ok _ _ Hev) as [Ht ? ? Hc]. split; try done. split; try done; [by destruct Ht |].
    destruct Hc. split; cbn; try done. intros [? | [? | ?]]; done.
Qed.

Lemma closing_step_ok p :
  poll_ok p -> phase (p_ctx p) = Closing ->
  fpost (closing_step p) (fun _ => False)
    (fun p' => evolves p p' /\ phase_next (bind (p_ctx p)) Closing (phase (p_ctx p')) = true).
Proof.
  intros Hp Hph. pose proof Hp as [[? ? ? ?] ? ? Hc]. pose proof (co_backoff _ _ Hc) as Hb.
  unfold closing_step. destruct (negb _).
  { cbn. rewrite Hph. split; [by apply evolves_refl | done]. }
  cbn [on_ctx on_nc with_sock p_ctx p_sock p_nc bind].
  destruct (bind (p_ctx p)) as [a o | a o | o | o] eqn:Eb; cbn [bind set_staged_tx_len set_staged_rx_len set_pending_tx_ack set_pending_rx_ack].
  - rewrite Eb. cbn [fpost]. split; [| done]. by split.
  - rewrite Eb. cbn [fpost]. split; [| done]. by split.
  - rewrite Eb. cbn [fpost]. split; [| done]. by split.
  - rewrite Eb. destruct (sk_listen _ o) as [s ok]. destruct ok; cbn [fpost negb].
    + split; [| done]. split; try done. split; try done. split; cbn; try done. by rewrite Eb.
    + split; [| done]. by split.
Qed.

Lemma retry_backoff now c :
  0 <= backoff_ms c <= RETAIN_BACKOFF_CAP_MS -> 0 <= backoff_ms (schedule_retry now c) <= RETAIN_BACKOFF_CAP_MS.
Proof.
  unfold schedule_retry, RETAIN_BACKOFF_CAP_MS, RETAIN_BACKOFF_MIN_MS. cbn.
  destruct (backoff_ms c =? 0) eqn:E; to_prop; lia.
Qed.

(** The invariant does not depend on the socket before the session is active. *)
Lemma ctx_ok_sock s s' c : phase c <> Active -> ctx_ok s c -> ctx_ok s' c.
Proof. intros Hne []. by split. Qed.

(** The three pre-session blocks: each moves the phase along its own edges. *)
Lemma arm_step_ok now e p :
  poll_ok p -> phase (p_ctx p) = FreshIdle ->
  let ok p' := evolves p p' /\ phase (p_ctx p') <> Active /\ phase_next (bind (p_ctx p)) FreshIdle (phase (p_ctx p')) = true in
  fpost (arm_step now e p) ok ok.
Proof.
  intros [[? ? ? ?] ? ? Hc] Hph ok. pose proof (co_backoff _ _ Hc) as Hb.
  destruct (co_idle _ _ Hc (or_introl Hph)) as [Hrx Htx].
  assert (forall q, p_ctx q = p_ctx p -> p_nc q = p_nc p -> p_out q = p_out p -> poll_ok q) as Hsame.
  { intros q E1 E2 E3. split; rewrite ?E2; try done. rewrite E1. eapply ctx_ok_sock; [| exact Hc]. by rewrite Hph. }
  assert (forall q cause, p_ctx q = p_ctx p -> p_nc q = p_nc p -> p_out q = p_out p -> ok (fail_channel cause q)) as Hfail.
  { intros q cause E1 E2 E3. destruct (fail_evolves cause q (Hsame q E1 E2 E3)) as [? Eb ? ? ?].
    split; [| split; [done |]]; [| by rewrite fail_phase; destruct (bind (p_ctx p))].
    split; try done. by rewrite Eb, E1. }
  assert (forall q ph, p_ctx q = p_ctx p -> p_nc q = p_nc p -> p_out q = p_out p ->
    (ph = Listening /\ is_server (bind (p_ctx p)) = true) \/ (ph = Connecting /\ is_server (bind (p_ctx p)) = false) ->
    ok (enter ph channel_state.IN_FLIGHT q)) as Henter.
  { intros q ph E1 E2 E3 Hcase. unfold ok. split; [| destruct Hcase as [[-> Hs] | [-> Hs]]; cbn; rewrite ?Hs; done].
    split; cbn; rewrite ?E1, ?E2, ?E3; try done; [| destruct Hcase as [[-> _] | [-> _]]; done].
    split; cbn; rewrite ?E1, ?E2; try done. destruct Hcase as [[-> Hs] | [-> Hs]]; by split. }
  assert (ok p) as Hp.
  { split; [apply evolves_refl; by apply Hsame |]. rewrite Hph. done. }
  unfold arm_step, try_connect. destruct (bind (p_ctx p)) as [a o | a o | o | o] eqn:Eb.
  - destruct e; [| exact Hp]. destruct (sk_connect _ _ _ _ _) as [[i s] b]. destruct b; cbn [fpost].
    + apply Henter; try done. by right.
    + by apply Hfail.
  - destruct (_ <=? _); [| exact Hp]. destruct (sk_connect _ _ _ _ _) as [[i s] b]. destruct b; cbn [fpost].
    + apply Henter; try done. by right.
    + split; [| cbn; rewrite Hph; done]. split; cbn; try done. split; cbn; try done.
      destruct Hc. split; try done; try (cbn; rewrite Hph; done). by apply retry_backoff.
  - destruct (sk_listen _ o) as [s b]. destruct b; cbn [fpost negb]; [apply Henter; try done; by left | by apply Hfail].
  - destruct (sk_listen _ o) as [s b]. destruct b; cbn [fpost negb]; [apply Henter; try done; by left | by apply Hfail].
Qed.


Lemma publish_ok p : poll_ok p -> evolves p (publish_peer p) /\ p_ctx (publish_peer p) = p_ctx p /\
  p_sock (publish_peer p) = p_sock p.
Proof.
  intros Hp. pose proof Hp as [[? ? ? ?] ? ? ?]. unfold publish_peer.
  destruct (sk_remote_endpoint _) as [[a o] |]; [| split; [by apply evolves_refl | done]].
  split; [| done]. by split.
Qed.

(** Becoming active, from a phase with nothing staged. *)
Lemma enter_active_ok p q (c : ChannelCtx -> ChannelCtx) :
  evolves p q -> p_ctx q = p_ctx p -> pending_rx_ack (p_ctx p) = false -> pending_tx_ack (p_ctx p) = false ->
  bind (c (p_ctx p)) = bind (p_ctx p) -> pending_rx_ack (c (p_ctx p)) = false -> pending_tx_ack (c (p_ctx p)) = false ->
  0 <= backoff_ms (c (p_ctx p)) <= RETAIN_BACKOFF_CAP_MS ->
  evolves p (enter Active channel_state.ACTIVE (on_ctx c q)).
Proof.
  intros [[[? ? ? ?] ? ? Hc] ? ? ? ?] E Hrx Htx Hb Hr Ht Hbk.
  split; try done; [| cbn; congruence]. split; try done. split; cbn; rewrite ?E, ?Hr, ?Ht, ?Hb; try done.
  intros _. split; cbn; rewrite ?E, ?Hr, ?Ht; done.
Qed.

Definition linked (p : poll S I) : Prop := (sk_may_send (p_sock p) || sk_may_recv (p_sock p))%bool = true.

Lemma listening_step_ok p :
  poll_ok p -> phase (p_ctx p) = Listening ->
  fpost (listening_step p) (fun p' => evolves p p' /\
    (phase (p_ctx p') = Listening \/ phase (p_ctx p') = Active /\ linked p)) (fun _ => False).
Proof.
  intros Hp Hph. destruct (publish_ok p Hp) as (Hev & Ec & Es). pose proof Hp as [? ? ? Hc].
  destruct (co_idle _ _ Hc) as [Hrx Htx]; [auto |].
  unfold listening_step. destruct (_ || _)%bool eqn:E; cbn [fpost].
  - split; [| by right].
    apply (enter_active_ok p (publish_peer p) (fun x => x)); try done. apply (co_backoff _ _ Hc).
  - split; [by apply evolves_refl | by left].
Qed.

Lemma connecting_step_ok now p :
  poll_ok p -> phase (p_ctx p) = Connecting ->
  fpost (connecting_step now p) (fun p' => evolves p p' /\
      (phase (p_ctx p') = Connecting \/ phase (p_ctx p') = FreshIdle /\ is_retain (bind (p_ctx p)) = true \/
       phase (p_ctx p') = Active /\ linked p))
    (fun p' => evolves p p' /\ phase (p_ctx p') = Failed).
Proof.
  intros Hp Hph. destruct (publish_ok p Hp) as (Hev & Ec & Es). pose proof Hp as [[? ? ? ?] ? ? Hc].
  destruct (co_idle _ _ Hc) as [Hrx Htx]; [auto |].
  unfold connecting_step. destruct (_ || _)%bool eqn:E; cbn [fpost].
  { split; [| by right; right].
    apply (enter_active_ok p (publish_peer p) (fun c => set_next_attempt_at_us 0 (set_backoff_ms 0 c))); try done. }
  destruct (sk_is_closed _); [| split; [by apply evolves_refl | by left]].
  destruct (bind (p_ctx p)) eqn:Eb; cbn [fpost].
  - split; [by apply fail_evolves | done].
  - split; [| by right; left]. split; try done. split; try done. split; try done.
    apply retry_backoff. apply (co_backoff _ _ Hc).
  - split; [by apply evolves_refl | by left].
  - split; [by apply evolves_refl | by left].
Qed.

Lemma stage_rx_ok p :
  poll_ok p -> phase (p_ctx p) = Active ->
  fpost (stage_rx p) (fun p' => evolves p p' /\ phase (p_ctx p') = Active) (fun _ => False).
Proof.
  intros Hp Hph. pose proof Hp as [[? ? Hs ?] ? ? Hc]. unfold stage_rx.
  destruct (pending_rx_ack (p_ctx p)) eqn:Ep; [split; [by apply evolves_refl | done] |].
  destruct (sk_get_next_rx (p_sock p)) as [s sl] eqn:Es. destruct (co_active _ _ Hc Hph) as [_ Htx].
  pose proof Hc as [_ ? ? ? ?]. destruct (0 <? snd sl).
  - destruct (enq16 sl _ Hs) as (r & q & Eq & Hq). cbn [with_sock p_nc]. rewrite Eq. cbn [fpost].
    split; [| exact Hph]. split; try done. split; try done. split; cbn; try done; [| intros [? | [? | ?]]; congruence].
    intros _. split; cbn; [intros _; by eapply next_rx_ok | intros Ht; by eapply next_rx_keeps, Htx].
  - cbn [fpost]. split; [| exact Hph]. split; try done. split; try done. split; cbn; try done.
    intros _. split; [congruence |]. intros Ht. by eapply next_rx_keeps, Htx.
Qed.

Lemma stage_tx_ok p :
  poll_ok p -> phase (p_ctx p) = Active ->
  fpost (stage_tx p) (fun p' => evolves p p' /\ phase (p_ctx p') = Active) (fun _ => False).
Proof.
  intros Hp Hph. pose proof Hp as [[Hs ? ? ?] ? ? Hc]. unfold stage_tx.
  destruct (_ || _)%bool eqn:Ep; [split; [by apply evolves_refl | done] |].
  apply orb_false_iff in Ep as [_ Ep].
  destruct (sk_get_next_tx (p_sock p)) as [s sl] eqn:Es. destruct (co_active _ _ Hc Hph) as [Hrx _].
  pose proof Hc as [_ ? ? ? ?]. destruct (0 <? snd sl).
  - destruct (enq16 sl _ Hs) as (r & q & Eq & Hq). cbn [with_sock p_nc]. rewrite Eq. cbn [fpost].
    split; [| exact Hph]. split; try done. split; try done. split; cbn; try done; [| intros [? | [? | ?]]; congruence].
    intros _. split; cbn; [intros Ht; by eapply next_tx_keeps, Hrx | intros _; by eapply next_tx_ok].
  - cbn [fpost]. split; [| exact Hph]. split; try done. split; try done. split; cbn; try done.
    intros _. split; [| congruence]. intros Ht. by eapply next_tx_keeps, Hrx.
Qed.

(** Chains a block that stays active, or fails, after another such block. *)
Lemma active_chain p m k :
  fpost m (fun p' => evolves p p' /\ phase (p_ctx p') = Active) (fun p' => evolves p p' /\ phase (p_ctx p') = Failed) ->
  (forall p', poll_ok p' -> phase (p_ctx p') = Active ->
     fpost (k p') (fun p2 => evolves p' p2 /\ phase (p_ctx p2) = Active) (fun p2 => evolves p' p2 /\ phase (p_ctx p2) = Failed)) ->
  fpost (flow_bind m k) (fun p' => evolves p p' /\ phase (p_ctx p') = Active) (fun p' => evolves p p' /\ phase (p_ctx p') = Failed).
Proof.
  intros Hm Hk. eapply fpost_bind; [exact Hm |]. intros p' [Hev Hph]. eapply fpost_mono; [by apply Hk; [apply Hev |] | |];
    intros p2 [? ?]; (split; [by eapply evolves_trans | done]).
Qed.

Lemma active_step_ok p :
  poll_ok p -> phase (p_ctx p) = Active ->
  fpost (active_step p) (fun p' => evolves p p' /\ phase (p_ctx p') = Active) (fun p' => evolves p p' /\ phase (p_ctx p') = Failed).
Proof.
  intros Hp Hph. unfold active_step.
  assert (forall p', poll_ok p' -> phase (p_ctx p') = Active ->
    fpost (Done (Next p')) (fun p2 => evolves p' p2 /\ phase (p_ctx p2) = Active) (fun p2 => evolves p' p2 /\ phase (p_ctx p2) = Failed)) as Hskip.
  { intros p' ? ?. split; [by apply evolves_refl | done]. }
  apply active_chain.
  - destruct (_ || _)%bool; [| by apply Hskip]. apply active_chain.
    + apply (drain_total _ (fun p => pending_rx_ack (p_ctx p))); try done. apply rx_body_ok.
    + intros p' ? ?. eapply fpost_mono; [by apply stage_rx_ok | done | done].
  - intros p' Hp' Hph'. destruct (sk_may_send _); [| by apply Hskip]. apply active_chain.
    + apply (drain_total _ (fun p => pending_tx_ack (p_ctx p))); try done. apply tx_body_ok.
    + intros p2 ? ?. eapply fpost_mono; [by apply stage_tx_ok | done | done].
Qed.


(** What a whole poll does to the channel. *)
Definition poll_post (p p' : poll S I) : Prop :=
  evolves p p' /\ phase_next (bind (p_ctx p)) (phase (p_ctx p)) (phase (p_ctx p')) = true /\
  ((phase (p_ctx p) = Listening \/ phase (p_ctx p) = Connecting) -> ~ linked p -> phase (p_ctx p') <> Active).

Lemma in_phase_eq ph (p : poll S I) : in_phase ph p = true <-> phase (p_ctx p) = ph.
Proof. unfold in_phase. apply bool_decide_eq_true. Qed.

(** A block guarded by its phase, skipped otherwise. *)
Lemma guarded ph (b : poll S I -> panics (flow (poll S I))) p Qn Qr :
  (phase (p_ctx p) = ph -> fpost (b p) Qn Qr) -> (phase (p_ctx p) <> ph -> Qn p) ->
  fpost (if in_phase ph p then b p else Done (Next p)) Qn Qr.
Proof.
  intros Hb Hn. destruct (in_phase ph p) eqn:E; [apply Hb; by apply in_phase_eq |].
  apply Hn. intros E'%in_phase_eq. congruence.
Qed.

(** The tail of the poll, from [Active] or any phase the first blocks left. *)
Lemma active_tail p p1 :
  evolves p p1 -> phase_next (bind (p_ctx p)) (phase (p_ctx p)) (phase (p_ctx p1)) = true ->
  (phase (p_ctx p1) = Active -> (phase (p_ctx p) = Listening \/ phase (p_ctx p) = Connecting) -> linked p) ->
  fpost (if in_phase Active p1 then active_step p1 else Done (Next p1)) (poll_post p) (poll_post p).
Proof.
  intros Hev Hnx Hl. apply guarded.
  - intros Hph. eapply fpost_mono; [apply active_step_ok; [apply Hev | done] | |]; intros p2 [Hev2 Hph2];
      (split; [by eapply evolves_trans |]); rewrite Hph in Hnx; rewrite Hph2; (split; [| try done; intros ? ?; auto]).
    + exact Hnx.
    + destruct (phase (p_ctx p)); done.
  - intros Hne. split; [done |]. by split.
Qed.

Lemma update_tcp_body_ok now p : poll_ok p -> fpost (update_tcp_body now p) (poll_post p) (poll_post p).
Proof.
  intros Hp. unfold update_tcp_body. set (e := negb (engaged (p_nc p) =? 0)).
  set (p0 := on_ctx (set_last_engaged e) p).
  assert (Hev0 : evolves p p0).
  { destruct Hp as [? ? ? []]. split; try done. }
  assert (Hlift : forall q, poll_post p0 q -> poll_post p q).
  { intros q (He & Hn & Hl). split; [by eapply evolves_trans | done]. }
  apply (fpost_mono _ (poll_post p0) (poll_post p0)); [| exact Hlift ..].
  pose proof (ev_ok _ _ Hev0) as Hp0. clearbody p0. clear Hp Hev0 Hlift.
  destruct (in_phase Failed p0) eqn:Ef.
  { apply in_phase_eq in Ef. split; [by apply evolves_refl |]. rewrite Ef. by split. }
  destruct (_ && _)%bool eqn:Ed.
  { apply andb_true_iff in Ed as [_ Ed%in_phase_eq].
    eapply fpost_mono; [by apply disengage_edge_ok | done |]. intros p' [Hev Hor]. split; [done |].
    rewrite Ed. split; [by destruct Hor as [-> | ->] | by intros [? | ?]]. }
  destruct (in_phase Closing p0) eqn:Ec.
  { apply in_phase_eq in Ec. eapply fpost_mono; [by apply closing_step_ok | done |]. intros p' [Hev Hn].
    split; [done |]. rewrite Ec. split; [done | by intros [? | ?]]. }
  assert (Hnc : phase (p_ctx p0) <> Closing) by (intros E%in_phase_eq; congruence).
  eapply (fpost_bind _ _ (fun p1 => evolves p0 p1 /\ phase_next (bind (p_ctx p0)) (phase (p_ctx p0)) (phase (p_ctx p1)) = true /\
    (phase (p_ctx p0) <> FreshIdle -> p1 = p0) /\ (phase (p_ctx p1) = Active -> phase (p_ctx p0) = Active))).
  { apply guarded.
    - intros Hph. eapply fpost_mono; [by apply arm_step_ok | |]; intros p1 (? & ? & ?); unfold poll_post; rewrite Hph;
        split_and!; done.
    - intros Hne. split; [by apply evolves_refl |]. split; [| by split]. by destruct (phase (p_ctx p0)). }
  intros p1 (Hev1 & Hn1 & Hsame & Hact). pose proof (ev_bind _ _ Hev1) as Hb1.
  eapply (fpost_bind _ _ (fun p2 => evolves p0 p2 /\ phase_next (bind (p_ctx p0)) (phase (p_ctx p0)) (phase (p_ctx p2)) = true /\
    (phase (p_ctx p2) = Active -> phase (p_ctx p0) = Listening \/ phase (p_ctx p0) = Connecting -> linked p0) /\
    (phase (p_ctx p2) = Connecting -> p2 = p1))).
  { apply guarded.
    - intros Hph. eapply fpost_mono; [apply listening_step_ok; [apply Hev1 | done] | | done].
      intros p2 [Hev2 Hor]. split; [by eapply evolves_trans |]. rewrite Hph in Hn1.
      destruct Hor as [E | [E Hl]]; rewrite E; (split; [| split; [| done]]); try done.
      + by destruct (phase (p_ctx p0)).
      + intros _ Hor. rewrite Hsame in Hl; [done |]. by destruct Hor as [-> | ->].
    - intros Hne. split_and!; try done. intros Ea%Hact Hor. destruct Hor; congruence. }
  intros p2 (Hev2 & Hn2 & Hlink & Hcon). pose proof (ev_bind _ _ Hev2) as Hb2.
  eapply (fpost_bind _ _ (fun p3 => evolves p0 p3 /\ phase_next (bind (p_ctx p0)) (phase (p_ctx p0)) (phase (p_ctx p3)) = true /\
    (phase (p_ctx p3) = Active -> phase (p_ctx p0) = Listening \/ phase (p_ctx p0) = Connecting -> linked p0))).
  2: { intros p3 (? & ? & ?). by apply active_tail. }
  apply guarded; [| by intros _; split_and!].
  intros Hph. rewrite Hph in Hn2. assert (Hfrom : phase (p_ctx p0) = FreshIdle \/ phase (p_ctx p0) = Connecting).
  { destruct (phase (p_ctx p0)); try done; auto. }
  eapply fpost_mono; [apply connecting_step_ok; [apply Hev2 | done] | |].
  - intros p3 [Hev3 Hor]. split; [by eapply evolves_trans |].
    destruct Hor as [-> | [[-> Hr] | [-> Hl]]].
    + by split.
    + split; [| done]. rewrite <- Hb2. by destruct Hfrom as [-> | ->].
    + split; [by destruct Hfrom as [-> | ->] |]. intros _ Hor. rewrite (Hcon Hph), Hsame in Hl; [done |].
      by destruct Hor as [-> | ->].
  - intros p3 [Hev3 E]. split; [by eapply evolves_trans |]. rewrite E. split; [by destruct Hfrom as [-> | ->] | done].
Qed.

End Invariant.

(** ** The channel against a hostile user and the network *)

Section Machine.
Context {S I : Type} `{TcpSocket S I}.

(** The kernel's part of a channel: its record, the socket and the interface.
    At a poll the shared region holds whatever the user left there; between polls
    the network moves the socket without withdrawing bytes it has offered. *)
Inductive netch_step : ChannelCtx * S * I -> ChannelCtx * S * I -> Prop :=
| ns_poll ctx s i now nc p :
    nc_typed nc -> words (increments (tx nc)) -> words (increments (rx nc)) ->
    update_tcp now s i ctx nc = Done p ->
    netch_step (ctx, s, i) (p_ctx p, p_sock p, p_iface p)
| ns_net ctx s s' i i' :
    (forall n, can_recv s n -> can_recv s' n) -> (forall n, can_send s n -> can_send s' n) ->
    netch_step (ctx, s, i) (ctx, s', i').

Context `{!TcpSocketLaws (S := S) (I := I)}.

Lemma update_tcp_total now s i ctx nc :
  ctx_ok s ctx -> nc_typed nc -> words (increments (tx nc)) -> words (increments (rx nc)) ->
  exists p, update_tcp now s i ctx nc = Done p /\ poll_post (mkPoll s i ctx nc (mkOutcome false false)) p.
Proof.
  intros Hc Ht Htw Hrw. unfold update_tcp.
  pose proof (update_tcp_body_ok now (mkPoll s i ctx nc (mkOutcome false false))) as Hb.
  destruct (update_tcp_body _ _) as [[p | p] |]; cbn [fpost] in Hb; [eexists; split; [done |]; apply Hb; by split .. |].
  exfalso. apply Hb. by split.
Qed.

Lemma netch_step_ok ctx s i ctx' s' i' :
  netch_step (ctx, s, i) (ctx', s', i') -> ctx_ok s ctx -> ctx_ok s' ctx'.
Proof.
  intros Hst Hc. inversion Hst as [? ? ? now nc p Ht Htw Hrw Hu | ? ? ? ? ? Hr Hs]; subst.
  - destruct (update_tcp_total now s i ctx nc Hc Ht Htw Hrw) as (p' & Hu' & Hpost & _).
    rewrite Hu in Hu'. injection Hu' as <-. apply (ev_ok _ _ Hpost).
  - destruct Hc as [Ha ? ? ? ?]. split; try done. intros Hph. destruct (Ha Hph). split; auto.
Qed.

End Machine.

(** C13. The kernel side of a network channel survives any user: from the record
    of a new channel, whatever the shared region holds at every poll and whatever
    the network does in between, no poll panics - no increment the user wrote
    reaches the socket unless it is a positive count within the slice last handed
    out, the drain loops end, and every ring access is in bounds. *)
Theorem netch_never_panics {S I} `{TcpSocket S I} (laws : TcpSocketLaws (S := S) (I := I)) b size s0 i0 ctx s i now nc :
  rtc netch_step (ChannelCtx_new b size, s0, i0) (ctx, s, i) ->
  nc_typed nc -> words (increments (tx nc)) -> words (increments (rx nc)) ->
  exists p, update_tcp now s i ctx nc = Done p /\
    (phase (p_ctx p) = Active -> staged_ok (p_sock p) (p_ctx p)).
Proof.
  intros Hr Ht Htw Hrw.
  assert (forall x y, rtc netch_step x y -> ctx_ok x.1.2 x.1.1 -> ctx_ok y.1.2 y.1.1) as Hinv.
  { intros x y Hxy. induction Hxy as [| [[c1 s1] i1] [[c2 s2] i2] z Hst _ IH]; [done |]. intros Hc. apply IH.
    by eapply netch_step_ok. }
  assert (ctx_ok s ctx) as Hc.
  { apply (Hinv _ _ Hr). by split. }
  destruct (update_tcp_total now s i ctx nc Hc Ht Htw Hrw) as (p & Hu & Hpost & _).
  exists p. split; [done |]. apply (ev_ok _ _ Hpost).
Qed.

(** One poll of the reconciler follows the phase graph of its binding: failed
    channels stay failed, servers listen and clients dial, only retained bindings
    recycle; the session becomes active from [Listening] or [Connecting] only if
    the socket can send or receive; the published state is always the phase's,
    and a poll that changes the phase says so to the waker. *)
Theorem netch_poll_phases {S I} `{TcpSocket S I} (laws : TcpSocketLaws (S := S) (I := I)) now s i ctx nc :
  ctx_ok s ctx -> nc_typed nc -> words (increments (tx nc)) -> words (increments (rx nc)) ->
  cur_state nc = state_of (phase ctx) ->
  exists p, update_tcp now s i ctx nc = Done p /\ ctx_ok (p_sock p) (p_ctx p) /\
    bind (p_ctx p) = bind ctx /\
    phase_next (bind ctx) (phase ctx) (phase (p_ctx p)) = true /\
    cur_state (p_nc p) = state_of (phase (p_ctx p)) /\
    (phase (p_ctx p) <> phase ctx -> should_wake_user (p_out p) = true) /\
    (phase ctx = Listening \/ phase ctx = Connecting -> sk_may_send s = false -> sk_may_recv s = false ->
     phase (p_ctx p) <> Active).
Proof.
  intros Hc Ht Htw Hrw Hcoh.
  destruct (update_tcp_total now s i ctx nc Hc Ht Htw Hrw) as (p & Hu & Hev & Hn & Hl).
  destruct Hev as [Hok Hb Hco Hf _]. exists p. split_and!; try done.
  - apply Hok.
  - by apply Hco.
  - intros Hne. unfold should_wake_user. by rewrite Hf.
  - intros Hor Hs Hr. apply Hl; [done |]. unfold linked. cbn. by rewrite Hs, Hr.
Qed.

(** ** The binding word *)

Definition bind_mode (b : BindSpec) : Z :=
  match b with ClientOneShot _ _ => 1 | ClientRetain _ _ => 2 | ServerOneShot _ => 3 | ServerRetain _ => 4 end.
Definition bind_port (b : BindSpec) : Z :=
  match b with ClientOneShot _ o | ClientRetain _ o | ServerOneShot o | ServerRetain o => o end.
Definition bind_addr (b : BindSpec) : Z :=
  match b with ClientOneShot a _ | ClientRetain a _ => a | _ => 0 end.

Lemma bind_ok_ranges b :
  bind_ok b = true -> 0 <= bind_addr b < 2 ^ 32 /\ 0 < bind_port b < 2 ^ 16 /\ 0 < bind_mode b <= 4.
Proof. destruct b; cbn; intros Hb; to_prop; lia. Qed.

Lemma pack_val b : bind_ok b = true -> pack b = bind_mode b + bind_port b * 2 ^ 8 + bind_addr b * 2 ^ 24.
Proof.
  intros Hb. pose proof (bind_ok_ranges b Hb) as (Ha & Ho & Hm). clear Hb. unfold pack. destruct b; cbn [bind_mode bind_port bind_addr] in *;
    rewrite (lor_above _ _ 8), ?(lor_above _ _ 24) by (unfold W64; lia); lia.
Qed.

Lemma unpack_val w : is_u64 w ->
  unpack w =
    if (w <? 2 ^ 56) && negb ((w / 2 ^ 8) mod 2 ^ 16 =? 0) then
      let addr := w / 2 ^ 24 in let port := (w / 2 ^ 8) mod 2 ^ 16 in
      if w mod 2 ^ 8 =? 1 then Some (ClientOneShot addr port)
      else if w mod 2 ^ 8 =? 2 then Some (ClientRetain addr port)
      else if (w mod 2 ^ 8 =? 3) && (addr =? 0) then Some (ServerOneShot port)
      else if (w mod 2 ^ 8 =? 4) && (addr =? 0) then Some (ServerRetain port)
      else None
    else None.
Proof.
  unfold is_u64, W64, unpack, wshr. intros Hw. rewrite !Z.mod_small by lia. rewrite !Z.shiftr_div_pow2 by lia.
  change 0xff with (2 ^ 8 - 1). change 0xffff with (2 ^ 16 - 1). change 0xffffffff with (2 ^ 32 - 1).
  rewrite !land_mod by lia. destruct (Z.ltb_spec w (2 ^ 56)).
  - rewrite (Z.div_small w (2 ^ 56)) by lia. rewrite (Z.mod_small (w / 2 ^ 24)).
    2: { split; [apply Z.div_pos; lia | apply Z.div_lt_upper_bound; lia]. }
    cbn [negb Z.eqb andb]. by destruct (_ =? 0).
  - assert (1 <= w / 2 ^ 56) by (apply Z.div_le_lower_bound; lia).
    destruct (Z.eqb_spec (w / 2 ^ 56) 0); [lia | done].
Qed.

(** Every accepted word is the packing of a well-formed binding. *)
Lemma unpack_sound w b' : is_u64 w -> unpack w = Some b' -> bind_ok b' = true /\ pack b' = w.
Proof.
  intros Hw Hu. rewrite (unpack_val w Hw) in Hu. unfold is_u64, W64 in Hw.
  destruct (Z.ltb_spec w (2 ^ 56)) as [Hlt |]; [| done]. cbn [andb] in Hu.
  pose proof (Z.div_mod w (2 ^ 8) ltac:(lia)) as E1. pose proof (Z.mod_pos_bound w (2 ^ 8) ltac:(lia)).
  pose proof (Z.div_mod (w / 2 ^ 8) (2 ^ 16) ltac:(lia)) as E2. pose proof (Z.mod_pos_bound (w / 2 ^ 8) (2 ^ 16) ltac:(lia)).
  rewrite Z.div_div in E2 by lia. change (2 ^ 8 * 2 ^ 16) with (2 ^ 24) in E2.
  assert (0 <= w / 2 ^ 24 < 2 ^ 32) by (split; [apply Z.div_pos; lia | apply Z.div_lt_upper_bound; lia]).
  assert (bind_ok b' = true /\ bind_mode b' = w mod 2 ^ 8 /\ bind_port b' = (w / 2 ^ 8) mod 2 ^ 16 /\ bind_addr b' = w / 2 ^ 24)
    as (Hb' & Em & Eo & Ea).
  { destruct (Z.eqb_spec ((w / 2 ^ 8) mod 2 ^ 16) 0); [done |]. cbn [negb] in Hu.
    cases_b; to_prop; simplify_eq; cbn [bind_ok bind_mode bind_port bind_addr]; split_and!; try lia;
    repeat (apply andb_true_iff; split); try apply Z.ltb_lt; try apply Z.leb_le; lia. }
  split; [done |]. rewrite (pack_val b' Hb'), Em, Eo, Ea. lia.
Qed.

(** The binding word of [create_netch] is a faithful encoding: unpacking a
    packed binding gives it back, and every word the kernel accepts is the
    packing of exactly one well-formed binding - a non-zero port, a 32-bit
    address, none for servers, nothing in the reserved bits. *)
Theorem bindspec_roundtrip b w :
  bind_ok b = true -> is_u64 w ->
  unpack (pack b) = Some b /\ is_u64 (pack b) /\
  (forall b', unpack w = Some b' -> bind_ok b' = true /\ pack b' = w).
Proof.
  intros Hb Hw. pose proof (bind_ok_ranges b Hb) as (Ha & Ho & Hm). pose proof (pack_val b Hb) as Hp.
  assert (Hpw : is_u64 (pack b)) by (rewrite Hp; unfold is_u64, W64; lia). split_and!; [| done |].
  - rewrite (unpack_val _ Hpw), Hp. clear Hpw.
    set (x := bind_mode b + bind_port b * 2 ^ 8 + bind_addr b * 2 ^ 24) in *.
    assert (x mod 2 ^ 8 = bind_mode b) as -> by (symmetry; apply (Z.mod_unique _ _ (bind_port b + bind_addr b * 2 ^ 16)); lia).
    assert (x / 2 ^ 8 = bind_port b + bind_addr b * 2 ^ 16) as -> by (symmetry; apply (Z.div_unique _ _ _ (bind_mode b)); lia).
    assert (x / 2 ^ 24 = bind_addr b) as -> by (symmetry; apply (Z.div_unique _ _ _ (bind_mode b + bind_port b * 2 ^ 8)); lia).
    rewrite Z.mod_add, Z.mod_small by lia. destruct (Z.ltb_spec x (2 ^ 56)); [| lia].
    destruct (Z.eqb_spec (bind_port b) 0); [lia |]. by destruct b.
  - intros b' Hu. by apply unpack_sound.
Qed.

(** The region layout is sound for every size the kernel accepts: the size
    is a whole number of pages between the limits; the control slots, the two
    queue headers and the two payload rings lie inside the region without
    overlapping, both queue headers are word aligned, and a ring holds at least
    one byte. *)
Theorem netch_layout_sound requested size :
  is_u64 requested -> normalize_region_size requested = Some size ->
  let q := queue_len_for size in
  let c := capacity_for size in
  NC_MIN_REGION_SIZE <= size <= NC_MAX_REGION_SIZE /\ size mod 4096 = 0 /\
  NC_DESIRED_OFF + 128 <= NC_CURRENT_OFF /\ NC_CURRENT_OFF + 128 <= NC_TX_OFF /\
  rings q c = ((tx_off + NCQ_BUF_OFF, c), (tx_off + q + NCQ_BUF_OFF, c)) /\ 0 < c /\
  NCQ_BUF_OFF < NCQ_SIZE /\ tx_off + NCQ_BUF_OFF + c <= rx_trusted_off q /\
  rx_trusted_off q + NCQ_BUF_OFF + c <= size /\
  tx_off mod NCQ_ALIGN = 0 /\ rx_trusted_off q mod NCQ_ALIGN = 0.
Proof.
  unfold is_u64. intros Hr Hn.
  assert (exists k, size = 4096 * k /\ 1 <= k <= 2048) as (k & -> & Hk).
  { unfold normalize_region_size in Hn. destruct (requested =? 0); [done |]. revert Hn.
    set (cl := Z.min (Z.max requested NC_MIN_REGION_SIZE) NC_MAX_REGION_SIZE).
    assert (4096 <= cl <= 8388608) as Hcl by (unfold cl, NC_MIN_REGION_SIZE, NC_MAX_REGION_SIZE; lia).
    clearbody cl. unfold round_usize_up. rewrite wadd_small, (wsub_small (cl + 4096)), (wsub_small 4096) by (unfold W64; lia).
    change (4096 - 1) with (2 ^ 12 - 1). rewrite land_round_down by (unfold is_u64, W64; lia).
    pose proof (Z.div_mod (cl + 4096 - 1) (2 ^ 12) ltac:(lia)). pose proof (Z.mod_pos_bound (cl + 4096 - 1) (2 ^ 12) ltac:(lia)).
    unfold NC_MIN_REGION_SIZE, NC_MAX_REGION_SIZE. cases_b; to_prop; try done. intros [= <-].
    exists ((cl + 4096 - 1) / 2 ^ 12). lia. }
  clear Hn Hr. set (q := queue_len_for (4096 * k)). assert (q = 2048 * k - 192) as Hq.
  { unfold q, queue_len_for. change (wnot (NCQ_ALIGN - 1)) with (wnot (2 ^ 3 - 1)). unfold NC_TX_OFF.
    rewrite wsub_small by (unfold W64; lia). replace (4096 * k - 384) with ((2048 * k - 192) * 2) by lia.
    rewrite Z.div_mul, land_round_down by (unfold is_u64, W64; lia).
    replace (2048 * k - 192) with ((256 * k - 24) * 2 ^ 3) at 2 by lia. rewrite Z.mod_mul by lia. lia. }
  set (c := capacity_for (4096 * k)). assert (c = 2048 * k - 631) as Hc.
  { unfold c, capacity_for. fold q. rewrite Hq. unfold NCQ_SIZE. rewrite wsub_small, wadd_small by (unfold W64; lia). lia. }
  clearbody q c. subst q c. cbn zeta. unfold rings, rx_trusted_off, tx_off, NC_TX_OFF, NC_DESIRED_OFF, NC_CURRENT_OFF, NCQ_BUF_OFF,
    NCQ_SIZE, NCQ_ALIGN, NC_MIN_REGION_SIZE, NC_MAX_REGION_SIZE.
  rewrite (wadd_small 384 (2048 * k - 192)) by (unfold W64; lia).
  rewrite !wadd_small by (unfold W64; lia). split_and!; try lia; try done.
  - rewrite Z.mul_comm. by apply Z.mod_mul.
  - replace (384 + (2048 * k - 192)) with ((256 * k + 24) * 8) by lia. by apply Z.mod_mul.
Qed.

(** ** One slice through the channel *)

Lemma user_transfer_ok f q sl :
  holds 16 (slices q) [sl] -> holds 16 (increments q) [] -> f sl <> 0 ->
  exists q', user_transfer f q = Done (Ok (f sl), q') /\ holds 16 (slices q') [] /\ holds 16 (increments q') [f sl].
Proof.
  intros Hs Hi Hf. unfold user_transfer.
  destruct (observers_spec true 16 ltac:(lia) ltac:(lia) _ _ Hs) as (-> & _). rewrite bool_decide_false by done.
  destruct (observers_spec true 16 ltac:(lia) ltac:(lia) _ _ Hi) as (_ & -> & _). cbn [length Z.of_nat Z.eqb].
  destruct (dequeue_spec true 16 ltac:(lia) ltac:(lia) _ _ Hs) as (s' & -> & Hs').
  destruct (Z.eqb_spec (f sl) 0); [done |]. cbn [increments set_slices].
  destruct (enqueue_spec true 16 ltac:(lia) ltac:(lia) _ _ (f sl) Hi) as (i' & -> & Hi').
  eexists. split; [done |]. done.
Qed.

(** A received slice changes hands exactly once: the kernel stages the slice
    the socket offers, the user's [recv_tcp] runs its closure on that same slice
    and acknowledges the count it returns, and the next drain consumes exactly
    that count from the socket and leaves both rings empty for the next slice. *)
Theorem netch_rx_handoff {S I} `{TcpSocket S I} (p : poll S I) s1 sl f :
  holds 16 (slices (rx (p_nc p))) [] -> holds 16 (increments (rx (p_nc p))) [] ->
  cur_state (p_nc p) = channel_state.ACTIVE -> pending_rx_ack (p_ctx p) = false ->
  sk_get_next_rx (p_sock p) = (s1, sl) -> 0 < snd sl -> 0 < f sl <= snd sl ->
  exists p1 c2, stage_rx p = Done (Next p1) /\ recv_tcp f (p_nc p1) = Done (Ok (f sl), c2) /\
    forall s2 s3, sk_recv s2 (f sl) = Done (s3, true) ->
    exists p3, drain_rx (mkPoll s2 (p_iface p1) (p_ctx p1) c2 (p_out p1)) = Done (Next p3) /\
      p_sock p3 = s3 /\ pending_rx_ack (p_ctx p3) = false /\
      holds 16 (slices (rx (p_nc p3))) [] /\ holds 16 (increments (rx (p_nc p3))) [].
Proof.
  intros Hs Hi Hst Hp Hn Hl Hf. unfold stage_rx. rewrite Hp, Hn. destruct (Z.ltb_spec 0 (snd sl)); [| lia].
  destruct (enqueue_spec true 16 ltac:(lia) ltac:(lia) _ _ sl Hs) as (q1 & E1 & Hq1). cbn [with_sock p_nc]. rewrite E1.
  set (rx1 := mkNcq q1 (increments (rx (p_nc p))) (snd sl) (ncq_capacity (rx (p_nc p)))).
  destruct (user_transfer_ok f rx1 sl Hq1 Hi ltac:(lia)) as (q2 & E2 & Hs2 & Hi2).
  eexists _, _. split; [done |]. unfold recv_tcp. cbn [on_nc on_ctx with_sock p_nc p_ctx mark_ring_progress cur_state set_rx rx].
  rewrite Hst. change (channel_state.ACTIVE <? channel_state.ACTIVE) with false. cbv iota.
  change (set_avail (snd sl) (set_slices q1 (rx (p_nc p)))) with rx1. rewrite E2. cbn [pbind fst snd]. split; [done |].
  intros s2 s3 E3. unfold drain_rx, drain_loop.
  destruct (dequeue_spec true 16 ltac:(lia) ltac:(lia) _ _ Hi2) as (i3 & E4 & Hi3).
  erewrite while64_leaves2; [eexists; split; [done |] | |]; cycle 1.
  - unfold rx_body. cbn [p_nc set_rx rx]. rewrite E4.
    cbn [on_nc p_ctx on_ctx mark_ring_progress with_sock pending_rx_ack set_staged_rx_len set_pending_rx_ack staged_rx_len p_sock negb orb].
    destruct (Z.eqb_spec (f sl) 0); [lia |]. destruct (Z.ltb_spec (snd sl) (f sl)); [lia |]. cbn [orb]. rewrite E3. cbn [negb]. done.
  - unfold rx_body. cbn [on_ctx with_sock on_nc p_nc set_rx rx increments set_increments].
    rewrite (dequeue_spec true 16 ltac:(lia) ltac:(lia) _ _ Hi3). done.
  - done.
Qed.

(** ** A socket that satisfies the contract *)

Record toy := mkToy { ty_rx : Z; ty_tx : Z; ty_link : bool; ty_closed : bool }.

#[export] Instance toy_socket : TcpSocket toy unit := {|
  sk_may_send := ty_link;
  sk_may_recv := ty_link;
  sk_recv_queue := ty_rx;
  sk_is_closed := ty_closed;
  sk_listen := fun s _ => (mkToy (ty_rx s) (ty_tx s) (ty_link s) false, true);
  sk_connect := fun i s _ _ _ => (i, mkToy (ty_rx s) (ty_tx s) (ty_link s) false, true);
  sk_close := fun s => mkToy (ty_rx s) (ty_tx s) false true;
  sk_abort := fun s => mkToy 0 (ty_tx s) false true;
  sk_recv := fun s n => if n <=? ty_rx s then Done (mkToy (ty_rx s - n) (ty_tx s) (ty_link s) (ty_closed s), true) else Panic;
  sk_send := fun s n => if n <=? ty_tx s then Done (mkToy (ty_rx s) (ty_tx s - n) (ty_link s) (ty_closed s), true) else Panic;
  sk_get_next_rx := fun s => (s, (0, ty_rx s));
  sk_get_next_tx := fun s => (s, (0, ty_tx s));
  sk_remote_endpoint := fun _ => Some (0x7f000001, 4000);
|}.

Lemma toy_laws : TcpSocketLaws (S := toy) (I := unit).
Proof.
  split; unfold can_recv, can_send; cbn.
  - intros s s' sl [= <- <-] m Hm. cbn in Hm. destruct (Z.leb_spec m (ty_rx s)); [eauto | lia].
  - intros s s' sl [= <- <-] m Hm. cbn in Hm. destruct (Z.leb_spec m (ty_tx s)); [eauto | lia].
  - by intros s s' sl n [= <- <-].
  - by intros s s' sl n [= <- <-].
  - intros s s' m b n Hr Hs k Hk. destruct (m <=? ty_rx s); [| done]. injection Hr as <- <-. cbn.
    destruct (Hs k Hk) as [r Hr]. destruct (k <=? ty_tx s); [eauto | done].
  - intros s s' m b n Hr Hs k Hk. destruct (m <=? ty_tx s); [| done]. injection Hr as <- <-. cbn.
    destruct (Hs k Hk) as [r Hr]. destruct (k <=? ty_rx s); [eauto | done].
Qed.

(** A region as [init] leaves it, and one a hostile user rewrote. *)
Definition ex_region : NetChannel := NetChannel_init 4096.
Definition ex_hostile : NetChannel :=
  set_rx (mkNcq (mkSpsc 77 (W64 - 1) (replicate 16 (5, 6))) (mkSpsc 3 (W64 - 9) (replicate 16 (W64 - 1))) 1 2) (engage ex_region).

Lemma ex_region_typed : nc_typed ex_region /\ words (increments (tx ex_region)) /\ words (increments (rx ex_region)).
Proof.
  split; [by split |]. split; unfold words; apply Forall_forall; intros x Hx;
    apply elem_of_replicate in Hx as [-> _]; unfold is_u64, W64; lia.
Qed.

Lemma ex_hostile_typed : nc_typed ex_hostile /\ words (increments (tx ex_hostile)) /\ words (increments (rx ex_hostile)).
Proof.
  split; [by split |]. split; unfold words; apply Forall_forall; intros x Hx;
    apply elem_of_replicate in Hx as [-> _]; unfold is_u64, W64; lia.
Qed.

Lemma netch_never_panics_witness :
  exists p, update_tcp 0 (mkToy 5 100 true false) tt (ChannelCtx_new (ServerRetain 80) 4096) ex_hostile = Done p /\
    phase (p_ctx p) = Failed.
Proof.
  destruct (netch_never_panics toy_laws (ServerRetain 80) 4096 (mkToy 5 100 true false) tt
    (ChannelCtx_new (ServerRetain 80) 4096) (mkToy 5 100 true false) tt 0 ex_hostile (rtc_refl _ _)
    (proj1 ex_hostile_typed) (proj1 (proj2 ex_hostile_typed)) (proj2 (proj2 ex_hostile_typed))) as (p & Hp & _).
  exists p. split; [exact Hp |]. revert Hp. vm_compute. intros [= <-]. reflexivity.
Defined.

Lemma netch_poll_phases_witness :
  exists p, update_tcp 0 (mkToy 5 100 true false) tt (ChannelCtx_new (ServerRetain 80) 4096) ex_region = Done p /\
    cur_state (p_nc p) = state_of (phase (p_ctx p)) /\ phase (p_ctx p) = Active.
Proof.
  destruct (netch_poll_phases toy_laws 0 (mkToy 5 100 true false) tt (ChannelCtx_new (ServerRetain 80) 4096) ex_region
    ltac:(by split) (proj1 ex_region_typed) (proj1 (proj2 ex_region_typed)) (proj2 (proj2 ex_region_typed)) eq_refl)
    as (p & Hp & _ & _ & _ & Hs & _).
  exists p. split; [exact Hp |]. split; [exact Hs |]. revert Hp. vm_compute. intros [= <-]. reflexivity.
Defined.

Lemma bindspec_roundtrip_witness :
  unpack (pack (ClientRetain 0x7f000001 443)) = Some (ClientRetain 0x7f000001 443).
Proof. apply (bindspec_roundtrip (ClientRetain 0x7f000001 443) 5 eq_refl). by vm_compute. Defined.

Lemma netch_layout_sound_witness :
  normalize_region_size 5000 = Some 8192 /\ 0 < capacity_for 8192.
Proof.
  split; [by vm_compute |]. apply (netch_layout_sound 5000 8192); by vm_compute.
Defined.

Lemma ex_empty16 {T} (x : T) : holds 16 (mkSpsc 0 0 (replicate 16 x)) [].
Proof.
  exists [], 0%nat. split; [| done]. split; try done; try (cbn; lia).
Qed.

Lemma netch_rx_handoff_witness :
  exists p1 c2, stage_rx (mkPoll (mkToy 9 0 true false) tt (set_phase Active (ChannelCtx_new (ServerRetain 80) 4096))
      (set_cur_state channel_state.ACTIVE ex_region) (mkOutcome false false)) = Done (Next p1) /\
    recv_tcp (fun _ => 4) (p_nc p1) = Done (Ok 4, c2).
Proof.
  destruct (@netch_rx_handoff toy unit toy_socket (mkPoll (mkToy 9 0 true false) tt (set_phase Active (ChannelCtx_new (ServerRetain 80) 4096))
      (set_cur_state channel_state.ACTIVE ex_region) (mkOutcome false false)) (mkToy 9 0 true false) (0, 9) (fun _ => 4)
      (ex_empty16 _) (ex_empty16 _) eq_refl eq_refl eq_refl ltac:(cbn; lia) ltac:(cbn; lia)) as (p1 & c2 & H1 & H2 & _).
  exists p1, c2. by split.
Defined.

(** ** Two consequences of the protocol *)

(** The kernel resets its half of the rings and listens again in one poll. If a
    peer connects before the user has reset its own half, the user's old
    increment is read as one of the new session, and the channel fails. *)
Definition ex_session_over : NetChannel :=
  set_tx (mkNcq (mkSpsc 1 1 (replicate 16 (0, 100))) (mkSpsc 1 1 (replicate 16 40)) 60 1) (disengage ex_region).

Definition ex_two_polls : panics (Phase * Phase * Z) :=
  p1 <-! update_tcp 0 (mkToy 0 100 false true) tt (set_phase Closing (ChannelCtx_new (ServerRetain 80) 4096)) ex_session_over ;;
  p2 <-! update_tcp 0 (mkToy 0 100 true false) tt (p_ctx p1) (p_nc p1) ;;
  Done (phase (p_ctx p1), phase (p_ctx p2), fail_cause (p_nc p2)).

Example stale_increment_fails_next_session : ex_two_polls = Done (Listening, Failed, EBIND_IO).
Proof. vm_compute. reflexivity. Qed.

(** A closure that handles no byte loses its slice: nothing is acknowledged, the
    kernel waits for the acknowledgement, and both sides stay where they are. *)
Lemma zero_count_wedges {S I} `{TcpSocket S I} (p : poll S I) f q' sl :
  holds 16 (slices (rx (p_nc p))) [sl] -> holds 16 (increments (rx (p_nc p))) [] -> f sl = 0 ->
  pending_rx_ack (p_ctx p) = true ->
  user_transfer f (rx (p_nc p)) = Done (Ok 0, q') ->
  let p' := on_nc (set_rx q') p in
  drain_rx p' = Done (Next p') /\ stage_rx p' = Done (Next p') /\ user_transfer f (rx (p_nc p')) = Done (Err (-4), q').
Proof.
  intros Hs Hi Hf Hp Hu. unfold user_transfer in Hu.
  destruct (observers_spec true 16 ltac:(lia) ltac:(lia) _ _ Hs) as (E1 & _). rewrite E1, bool_decide_false in Hu by done.
  destruct (observers_spec true 16 ltac:(lia) ltac:(lia) _ _ Hi) as (_ & E2 & _). rewrite E2 in Hu. cbn [length Z.of_nat Z.eqb] in Hu.
  destruct (dequeue_spec true 16 ltac:(lia) ltac:(lia) _ _ Hs) as (s' & E3 & Hs'). rewrite E3, Hf in Hu. cbn in Hu.
  injection Hu as <-. cbn zeta. split_and!.
  - unfold drain_rx, drain_loop. erewrite while64_leaves; [done |]. unfold rx_body. cbn [on_nc p_nc set_rx rx increments set_slices].
    rewrite (dequeue_spec true 16 ltac:(lia) ltac:(lia) _ _ Hi). done.
  - unfold stage_rx. cbn [on_nc p_ctx]. by rewrite Hp.
  - unfold user_transfer. cbn [on_nc p_nc set_rx rx slices set_slices].
    destruct (observers_spec true 16 ltac:(lia) ltac:(lia) _ _ Hs') as (E4 & _). rewrite E4. by rewrite bool_decide_true.
Qed.
