(* ===== verification/Work.v ===== *)
(** * Manager work items

    Models [orbit-core/src/pending_work.rs]: the requests a system call hands to
    the manager. A [UserVa] is its raw address. *)

From stdpp Require Import base list option numbers sets gmap.
From S2P Require Import Prelude Layout NetChannel.
#[local] Open Scope Z_scope.

Definition MAX_FS_PATH_LEN : Z := 256.
Definition MAX_LOGIN_NAME : Z := 32.

Record MemMapReq := mkMemMapReq { mm_vaddr : Z; mm_size : Z; mm_page_permissions : Z; mm_share_with_kernel : bool }.
Record NetChannelCreationReq := mkNetChannelCreationReq { nr_vaddr : Z; nr_region_size : Z; nr_type : Z; nr_bind : BindSpec }.
Record CloseHandleReq := mkCloseHandleReq { ch_fd : Z }.
Record CreateThreadReq := mkCreateThreadReq { ct_entry : Z; ct_allowed_affinity : Z; ct_affinity : Z; ct_arg : Z }.
Record FsOpenReq := mkFsOpenReq { fo_path_vaddr : Z; fo_path_len : Z; fo_flags : Z }.
Record FsReadReq := mkFsReadReq { fr_fd : Z; fr_buf_vaddr : Z; fr_len : Z }.
Record FsStatReq := mkFsStatReq { fs_path_vaddr : Z; fs_path_len : Z; fs_stat_vaddr : Z }.
Record FsReaddirReq := mkFsReaddirReq { fd_fd : Z; fd_buf_vaddr : Z; fd_len : Z }.
Record WaitPidReq := mkWaitPidReq { wp_target_pid : Z }.
Record CreateProcessReq := mkCreateProcessReq { cp_elf_vaddr : Z; cp_elf_len : Z; cp_affinity : Z; cp_allowed_affinity : Z }.
Record FutexWaitReq := mkFutexWaitReq { fw_uaddr : Z; fw_expected : Z; fw_timeout_ns : Z }.
Record FutexWakeReq := mkFutexWakeReq { fk_uaddr : Z; fk_n : Z }.
Record PledgeReq := mkPledgeReq { pl_req_vaddr : Z }.
Record CreateProcessV2Req := mkCreateProcessV2Req { c2_args_vaddr : Z }.
Record CreateProcessExReq := mkCreateProcessExReq {
  cx_elf_vaddr : Z; cx_elf_len : Z; cx_allowed_affinity : Z; cx_affinity : Z;
  cx_argv_vaddr : Z; cx_argv_len : Z; cx_envp_vaddr : Z;
}.
Record FbSurfaceCreateReq := mkFbSurfaceCreateReq { fb_width : Z; fb_height : Z; fb_format_raw : Z }.
Record FbSurfaceDestroyReq := mkFbSurfaceDestroyReq { fb_handle : Z }.
Record EventFdCreateReq := mkEventFdCreateReq { ef_vaddr_hint : Z; ef_initval : Z; ef_flags : Z }.
Record WakeTidReq := mkWakeTidReq { wt_target_tid : Z }.
Record FsSeekReq := mkFsSeekReq { sk_fd : Z; sk_offset : Z; sk_whence : Z }.
Record FsFstatReq := mkFsFstatReq { ft_fd : Z; ft_stat_vaddr : Z }.
Record ChInspectReq := mkChInspectReq { ci_fd : Z; ci_info_vaddr : Z }.
Record ChdirReq := mkChdirReq { cd_path_vaddr : Z; cd_path_len : Z }.
Record GetCwdReq := mkGetCwdReq { gc_buf_vaddr : Z; gc_buf_len : Z }.
Record GetGroupsReq := mkGetGroupsReq { gg_buf_vaddr : Z; gg_count : Z }.
Record GetLoginReq := mkGetLoginReq { gl_buf_vaddr : Z; gl_buf_len : Z }.
Record SetUidReq := mkSetUidReq { su_uid : Z }.
Record SetGidReq := mkSetGidReq { sg_gid : Z }.
Record SetGroupsReq := mkSetGroupsReq { sr_buf_vaddr : Z; sr_count : Z }.
Record SetLoginReq := mkSetLoginReq { sl_name_vaddr : Z; sl_name_len : Z }.

Inductive PendingWork :=
| Empty
| MemMap (req : MemMapReq) (pid root_pa tid : Z)
| NetChannelCreation (req : NetChannelCreationReq) (pid root_pa tid : Z)
| CloseHandle (req : CloseHandleReq) (pid root_pa tid : Z)
| CreateProcess (req : CreateProcessReq) (pid root_pa tid : Z)
| CreateThread (req : CreateThreadReq) (pid parent_allowed tid : Z)
| FsOpen (req : FsOpenReq) (pid root_pa tid : Z)
| FsRead (req : FsReadReq) (pid root_pa tid : Z)
| FsStat (req : FsStatReq) (pid root_pa tid : Z)
| FsReaddir (req : FsReaddirReq) (pid root_pa tid : Z)
| WaitPid (req : WaitPidReq) (pid tid : Z)
| CreateProcessEx (req : CreateProcessExReq) (pid root_pa tid : Z)
| FutexWait (req : FutexWaitReq) (pid root_pa tid : Z)
| FutexWake (req : FutexWakeReq) (pid root_pa tid : Z)
| Pledge (req : PledgeReq) (pid root_pa tid : Z)
| CreateProcessV2 (req : CreateProcessV2Req) (pid root_pa tid : Z)
| FbSurfaceCreate (req : FbSurfaceCreateReq) (pid root_pa tid : Z)
| FbSurfaceDestroy (req : FbSurfaceDestroyReq) (pid root_pa tid : Z)
| EventFdCreate (req : EventFdCreateReq) (pid root_pa tid : Z)
| WakeTid (req : WakeTidReq) (pid tid : Z)
| FsSeek (req : FsSeekReq) (pid tid : Z)
| FsFstat (req : FsFstatReq) (pid root_pa tid : Z)
| ChInspect (req : ChInspectReq) (pid root_pa tid : Z)
| Chdir (req : ChdirReq) (pid root_pa tid : Z)
| GetCwd (req : GetCwdReq) (pid root_pa tid : Z)
| GetGroups (req : GetGroupsReq) (pid root_pa tid : Z)
| GetLogin (req : GetLoginReq) (pid root_pa tid : Z)
| SetUid (req : SetUidReq) (pid tid : Z)
| SetGid (req : SetGidReq) (pid tid : Z)
| SetGroups (req : SetGroupsReq) (pid root_pa tid : Z)
| SetLogin (req : SetLoginReq) (pid root_pa tid : Z)
| ArgvEnvp (pid tid : Z)
| CacheFill (packed_key status : Z)
| ExitGroup (pid leader_tid exit_code : Z)
| QueryDenials (buf_vaddr buf_len pid root_pa tid : Z)
| QueryStats (target_pid buf_vaddr buf_len root_pa tid : Z).

(** ** What the manager may take for granted about an item

    The manager acts on an item without seeing the trap: whose it is, which user
    memory it names, and the limits its fields respect. *)

(** The thread an item is to answer, and the address space it refers to. *)
Definition work_tid (w : PendingWork) : option Z :=
  match w with
  | Empty | CacheFill _ _ => None
  | ExitGroup _ tid _ => Some tid
  | MemMap _ _ _ tid | NetChannelCreation _ _ _ tid | CloseHandle _ _ _ tid | CreateProcess _ _ _ tid
  | CreateThread _ _ _ tid | FsOpen _ _ _ tid | FsRead _ _ _ tid | FsStat _ _ _ tid | FsReaddir _ _ _ tid
  | WaitPid _ _ tid | CreateProcessEx _ _ _ tid | FutexWait _ _ _ tid | FutexWake _ _ _ tid | Pledge _ _ _ tid
  | CreateProcessV2 _ _ _ tid | FbSurfaceCreate _ _ _ tid | FbSurfaceDestroy _ _ _ tid | EventFdCreate _ _ _ tid
  | WakeTid _ _ tid | FsSeek _ _ tid | FsFstat _ _ _ tid | ChInspect _ _ _ tid | Chdir _ _ _ tid
  | GetCwd _ _ _ tid | GetGroups _ _ _ tid | GetLogin _ _ _ tid | SetUid _ _ tid | SetGid _ _ tid
  | SetGroups _ _ _ tid | SetLogin _ _ _ tid | ArgvEnvp _ tid | QueryDenials _ _ _ _ tid | QueryStats _ _ _ _ tid =>
      Some tid
  end.

Definition work_pid (w : PendingWork) : option Z :=
  match w with
  | Empty | CacheFill _ _ => None
  | ExitGroup pid _ _ | ArgvEnvp pid _ | QueryStats pid _ _ _ _ => Some pid
  | MemMap _ pid _ _ | NetChannelCreation _ pid _ _ | CloseHandle _ pid _ _ | CreateProcess _ pid _ _
  | CreateThread _ pid _ _ | FsOpen _ pid _ _ | FsRead _ pid _ _ | FsStat _ pid _ _ | FsReaddir _ pid _ _
  | WaitPid _ pid _ | CreateProcessEx _ pid _ _ | FutexWait _ pid _ _ | FutexWake _ pid _ _ | Pledge _ pid _ _
  | CreateProcessV2 _ pid _ _ | FbSurfaceCreate _ pid _ _ | FbSurfaceDestroy _ pid _ _ | EventFdCreate _ pid _ _
  | WakeTid _ pid _ | FsSeek _ pid _ | FsFstat _ pid _ _ | ChInspect _ pid _ _ | Chdir _ pid _ _
  | GetCwd _ pid _ _ | GetGroups _ pid _ _ | GetLogin _ pid _ _ | SetUid _ pid _ | SetGid _ pid _
  | SetGroups _ pid _ _ | SetLogin _ pid _ _ | QueryDenials _ _ pid _ _ => Some pid
  end.

Definition work_root (w : PendingWork) : option Z :=
  match w with
  | MemMap _ _ r _ | NetChannelCreation _ _ r _ | CloseHandle _ _ r _ | CreateProcess _ _ r _
  | FsOpen _ _ r _ | FsRead _ _ r _ | FsStat _ _ r _ | FsReaddir _ _ r _ | CreateProcessEx _ _ r _
  | FutexWait _ _ r _ | FutexWake _ _ r _ | Pledge _ _ r _ | CreateProcessV2 _ _ r _
  | FbSurfaceCreate _ _ r _ | FbSurfaceDestroy _ _ r _ | EventFdCreate _ _ r _ | FsFstat _ _ r _
  | ChInspect _ _ r _ | Chdir _ _ r _ | GetCwd _ _ r _ | GetGroups _ _ r _ | GetLogin _ _ r _
  | SetGroups _ _ r _ | SetLogin _ _ r _ | QueryDenials _ _ _ r _ | QueryStats _ _ _ r _ => Some r
  | _ => None
  end.

(** The user memory an item names, as (address, length). *)
Definition STAT_SIZE : Z := 128.
Definition CHINFO_SIZE : Z := 64.
Definition PERMS_REQUEST_SIZE : Z := 16.
Definition CREATE_PROCESS_V2_ARGS_SIZE : Z := 168.

Definition work_ranges (w : PendingWork) : list (Z * Z) :=
  match w with
  | MemMap r _ _ _ => [(mm_vaddr r, mm_size r)]
  | NetChannelCreation r _ _ _ => [(nr_vaddr r, nr_region_size r)]
  | CreateProcess r _ _ _ => [(cp_elf_vaddr r, cp_elf_len r)]
  | CreateThread r _ _ _ => [(ct_entry r, 1)]
  | FsOpen r _ _ _ => [(fo_path_vaddr r, fo_path_len r)]
  | FsRead r _ _ _ => [(fr_buf_vaddr r, fr_len r)]
  | FsStat r _ _ _ => [(fs_path_vaddr r, fs_path_len r); (fs_stat_vaddr r, STAT_SIZE)]
  | FsReaddir r _ _ _ => [(fd_buf_vaddr r, fd_len r)]
  | CreateProcessEx r _ _ _ =>
      (cx_elf_vaddr r, cx_elf_len r) ::
      (if cx_argv_len r =? 0 then [] else [(cx_argv_vaddr r, cx_argv_len r)]) ++
      (if cx_envp_vaddr r =? 0 then [] else [(cx_envp_vaddr r, UPAGE_SIZE)])
  | FutexWait r _ _ _ => [(fw_uaddr r, 4)]
  | FutexWake r _ _ _ => [(fk_uaddr r, 4)]
  | Pledge r _ _ _ => [(pl_req_vaddr r, PERMS_REQUEST_SIZE)]
  | CreateProcessV2 r _ _ _ => [(c2_args_vaddr r, CREATE_PROCESS_V2_ARGS_SIZE)]
  | EventFdCreate r _ _ _ => [(ef_vaddr_hint r, UPAGE_SIZE)]
  | FsFstat r _ _ _ => [(ft_stat_vaddr r, STAT_SIZE)]
  | ChInspect r _ _ _ => [(ci_info_vaddr r, CHINFO_SIZE)]
  | Chdir r _ _ _ => [(cd_path_vaddr r, cd_path_len r)]
  | GetCwd r _ _ _ => [(gc_buf_vaddr r, gc_buf_len r)]
  | GetGroups r _ _ _ => if gg_count r =? 0 then [] else [(gg_buf_vaddr r, gg_count r * 4)]
  | GetLogin r _ _ _ => [(gl_buf_vaddr r, gl_buf_len r)]
  | SetGroups r _ _ _ => if sr_count r =? 0 then [] else [(sr_buf_vaddr r, sr_count r * 4)]
  | SetLogin r _ _ _ => [(sl_name_vaddr r, sl_name_len r)]
  | QueryDenials va len _ _ _ => [(va, len)]
  | QueryStats _ va len _ _ => [(va, len)]
  | _ => []
  end.

(** A range the user owns: above the null guard, below the kernel's part. *)
Definition user_window (r : Z * Z) : Prop :=
  USER_NULL_GUARD_END <= fst r /\ 0 <= snd r /\ fst r + snd r <= USER_VA_END.

(** A range that the manager reads or writes through one page window. *)
Definition one_page (r : Z * Z) : Prop := fst r mod UPAGE_SIZE + snd r <= UPAGE_SIZE.
