(* ===== verification/Syscall.v ===== *)
(** * System-call handlers

    Models [orbit-core/src/syscall.rs], the bodies of the system calls, and the
    [Hardware] trait of [orbit-core/src/lib.rs] they run against. A handler takes
    the thread, the trap frame and the hardware state, and returns the outcome
    with the new hardware state. A handler that touches user memory can fault in
    supervisor mode, which the kernel turns into a panic: [Panic]. *)

From stdpp Require Import base list option numbers sets gmap.
From S2P Require Import Prelude Text Sv48 Layout Abi Thread NetChannel Work.
#[local] Open Scope Z_scope.

(** [process::key_events::ParkOutcome]. *)
Inductive ParkOutcome := Installed | AlreadyOwned | Busy.

(** The trait. [copy_from_user] and the drains touch user memory. *)
Class Hardware (H : Type) := {
  now_ticks : H -> Z;
  ticks_per_ms : H -> Z;
  user_va_translates : H -> Z -> Z -> bool;
  copy_from_user : H -> Z -> Z -> panics (list Z);
  serial_write_user : H -> Z -> Z -> list Z -> H * bool;
  console_write_user : H -> Z -> list Z -> H * bool;
  hw_wake_hart : H -> Z -> H;
  push_pending_work : H -> PendingWork -> H * bool;
  read_stdin_drain : H -> Z -> Z -> Z -> panics (H * Z);
  park_stdin_reader : H -> Z -> Z -> H * bool;
  unpark_stdin_reader : H -> Z -> H * bool;
  read_key_events_drain : H -> Z -> Z -> Z -> panics (H * Z);
  set_key_event_parker : H -> Z -> Z -> H * ParkOutcome;
  clear_key_event_parker_if : H -> Z -> Z -> H * bool;
}.

(** [x as u32] and [x as i64]. *)
Definition as_u32 (x : Z) : Z := x mod 2 ^ 32.
Definition as_i64 (x : Z) : Z := let m := x mod 2 ^ 64 in if m <? 2 ^ 63 then m else m - 2 ^ 64.

(** [frame.regs[i]]: the frame has 32 registers. *)
Definition reg (f : TrapFrame) (i : nat) : Z := default 0 (regs f !! i).

(** [PhysAddr::from(satp)]: the 44-bit page number of [satp], as an address. *)
Definition root_table_addr (t : Thread) : Z := Z.shiftl (Z.land (t_satp t) (2 ^ 44 - 1)) 12.

Definition ret_err (e : Z) : SyscallOutcome := Return (to_ret e).
Definition ready (ret : Z) : SyscallOutcome := DoneReschedule ret.
Definition ready_err (e : Z) : SyscallOutcome := ready (to_ret e).

Definition MAX_SLEEP_MS : Z := 60 * 60 * 1000.
Definition MAX_FS_READ_LEN : Z := 16 * PAGE_SIZE.
Definition NGROUPS_MAX : Z := 16.
Definition ARGV_BLOB_MAX : Z := 4096.
Definition EVENTFD_REGION_SIZE : Z := 4096.
Definition EFD_ALL_FLAGS : Z := 7.
Definition READ_STDIN_NONBLOCK : Z := 1.
Definition READ_KEY_EVENT_NONBLOCK : Z := 1.
Definition READ_KEY_EVENT_MAX_TIMEOUT_MS : Z := 60 * 60 * 1000.
Definition READ_KEY_EVENT_INDEFINITE : Z := W64 - 1.
Definition KEY_EVENT_SIZE : Z := 16.

Definition struct_fits_in_one_page (vaddr size : Z) : bool :=
  if size =? 0 then true
  else
    let page_mask := PAGE_SIZE - 1 in
    Z.land vaddr (wnot page_mask) =? Z.land (wsub (wadd vaddr size) 1) (wnot page_mask).

(** [FbFormat::from_u32] and [bytes_per_pixel]; one format exists. *)
Inductive FbFormat := Bgra8888.
Definition bytes_per_pixel (f : FbFormat) : Z := match f with Bgra8888 => 4 end.
Definition FbFormat_from_u32 (v : Z) : option FbFormat := if v =? 1 then Some Bgra8888 else None.

Section Handlers.
Context {H : Type} `{Hardware H}.

Definition ms_sleep (t : Thread) (ms : Z) (hw : H) : SyscallOutcome :=
  if MAX_SLEEP_MS <=? ms then ret_err errno.EINVAL
  else SleepUntil (wadd (now_ticks hw) (wmul ms (ticks_per_ms hw))).

(** The shared tail: push the item and park, or [-EAGAIN] when the ring is full. *)
Definition park_on_manager (hw : H) (work : PendingWork) : SyscallOutcome * H :=
  let '(hw, ok) := push_pending_work hw work in
  if negb ok then (ret_err errno.EAGAIN, hw) else (ParkForPublish, hw).

(** [let Ok(x) = UserVa::new(raw) else { return EFAULT }]. *)
Definition with_user_va (raw : Z) (hw : H) (k : Z -> SyscallOutcome * H) : SyscallOutcome * H :=
  match UserVa_new raw with
  | Err _ => (ret_err errno.EFAULT, hw)
  | Ok va => k va
  end.

Definition mmap_req (t : Thread) (f : TrapFrame) (hw : H) : SyscallOutcome * H :=
  with_user_va (reg f 11) hw (fun vaddr =>
  let req := mkMemMapReq vaddr (reg f 12) (reg f 13) (0 <? reg f 14) in
  let range_ok := if mm_share_with_kernel req then user_shared_range_ok (mm_vaddr req) (mm_size req)
                  else user_priv_range_ok (mm_vaddr req) (mm_size req) in
  if negb range_ok then (ret_err errno.EINVAL, hw)
  else
    let is_exec := negb (perm_and_u64 PX (mm_page_permissions req) =? 0) in
    if (mm_share_with_kernel req && is_exec)%bool then (ret_err errno.EINVAL, hw)
    else park_on_manager hw (MemMap req (t_pid t) (root_table_addr t) (t_tid t))).

Definition fb_surface_create_req (t : Thread) (f : TrapFrame) (hw : H) : SyscallOutcome * H :=
  let width := as_u32 (reg f 11) in
  let height := as_u32 (reg f 12) in
  let format_raw := as_u32 (reg f 13) in
  if ((width =? 0) || (height =? 0))%bool then (ret_err errno.EINVAL, hw)
  else
    match FbFormat_from_u32 format_raw with
    | None => (ret_err errno.EINVAL, hw)
    | Some fmt =>
        let bpp := bytes_per_pixel fmt in
        match (n ← checked_mul width height; checked_mul n bpp) with
        | None => (ret_err errno.EINVAL, hw)
        | Some _ =>
            park_on_manager hw (FbSurfaceCreate (mkFbSurfaceCreateReq width height format_raw)
              (t_pid t) (root_table_addr t) (t_tid t))
        end
    end.

Definition eventfd_req (t : Thread) (f : TrapFrame) (hw : H) : SyscallOutcome * H :=
  let vaddr_hint_raw := reg f 11 in
  let initval := reg f 12 in
  let flags := as_u32 (reg f 13) in
  if negb (user_shared_range_ok vaddr_hint_raw EVENTFD_REGION_SIZE) then (ret_err errno.EINVAL, hw)
  else if negb (Z.land vaddr_hint_raw (PAGE_SIZE - 1) =? 0) then (ret_err errno.EINVAL, hw)
  else if negb (Z.ldiff flags EFD_ALL_FLAGS =? 0) then (ret_err errno.EINVAL, hw)
  else
    with_user_va vaddr_hint_raw hw (fun vaddr_hint =>
    park_on_manager hw (EventFdCreate (mkEventFdCreateReq vaddr_hint initval flags)
      (t_pid t) (root_table_addr t) (t_tid t))).

Definition wake_tid_req (t : Thread) (f : TrapFrame) (hw : H) : SyscallOutcome * H :=
  let target_tid := as_u32 (reg f 11) in
  if target_tid =? 0 then (Return 0, hw)
  else park_on_manager hw (WakeTid (mkWakeTidReq target_tid) (t_pid t) (t_tid t)).

Definition fs_seek_req (t : Thread) (f : TrapFrame) (hw : H) : SyscallOutcome * H :=
  let whence := as_u32 (reg f 13) in
  if 2 <? whence then (ret_err errno.EINVAL, hw)
  else park_on_manager hw (FsSeek (mkFsSeekReq (as_u32 (reg f 11)) (as_i64 (reg f 12)) whence) (t_pid t) (t_tid t)).

Definition fs_fstat_req (t : Thread) (f : TrapFrame) (hw : H) : SyscallOutcome * H :=
  with_user_va (reg f 12) hw (fun stat_vaddr =>
  if negb (user_range_ok stat_vaddr STAT_SIZE) then (ret_err errno.EFAULT, hw)
  else park_on_manager hw (FsFstat (mkFsFstatReq (as_u32 (reg f 11)) stat_vaddr)
         (t_pid t) (root_table_addr t) (t_tid t))).

Definition ch_inspect_req (t : Thread) (f : TrapFrame) (hw : H) : SyscallOutcome * H :=
  with_user_va (reg f 12) hw (fun info_vaddr =>
  if negb (user_range_ok info_vaddr CHINFO_SIZE) then (ret_err errno.EFAULT, hw)
  else if negb (struct_fits_in_one_page info_vaddr CHINFO_SIZE) then (ret_err errno.EINVAL, hw)
  else park_on_manager hw (ChInspect (mkChInspectReq (as_u32 (reg f 11)) info_vaddr)
         (t_pid t) (root_table_addr t) (t_tid t))).

Definition chdir_req (t : Thread) (f : TrapFrame) (hw : H) : SyscallOutcome * H :=
  let path_len := reg f 12 in
  if path_len =? 0 then (ret_err errno.EINVAL, hw)
  else if MAX_FS_PATH_LEN <? path_len then (ret_err errno.ENAMETOOLONG, hw)
  else
    with_user_va (reg f 11) hw (fun path_vaddr =>
    if negb (user_range_ok path_vaddr path_len) then (ret_err errno.EFAULT, hw)
    else park_on_manager hw (Chdir (mkChdirReq path_vaddr path_len) (t_pid t) (root_table_addr t) (t_tid t))).

Definition getcwd_req (t : Thread) (f : TrapFrame) (hw : H) : SyscallOutcome * H :=
  let buf_len := reg f 12 in
  if ((buf_len =? 0) || (PAGE_SIZE <? buf_len))%bool then (ret_err errno.EINVAL, hw)
  else
    with_user_va (reg f 11) hw (fun buf_vaddr =>
    if negb (user_range_ok buf_vaddr buf_len) then (ret_err errno.EFAULT, hw)
    else park_on_manager hw (GetCwd (mkGetCwdReq buf_vaddr buf_len) (t_pid t) (root_table_addr t) (t_tid t))).

Definition getgroups_req (t : Thread) (f : TrapFrame) (hw : H) : SyscallOutcome * H :=
  let buf_vaddr := reg f 11 in
  let count := reg f 12 in
  if NGROUPS_MAX <? count then (ret_err errno.EINVAL, hw)
  else if ((0 <? count) && negb (user_range_ok buf_vaddr (wmul count 4)))%bool then (ret_err errno.EFAULT, hw)
  else park_on_manager hw (GetGroups (mkGetGroupsReq buf_vaddr count) (t_pid t) (root_table_addr t) (t_tid t)).

Definition getlogin_req (t : Thread) (f : TrapFrame) (hw : H) : SyscallOutcome * H :=
  let buf_len := reg f 12 in
  if ((buf_len =? 0) || (PAGE_SIZE <? buf_len))%bool then (ret_err errno.EINVAL, hw)
  else
    with_user_va (reg f 11) hw (fun buf_vaddr =>
    if negb (user_range_ok buf_vaddr buf_len) then (ret_err errno.EFAULT, hw)
    else park_on_manager hw (GetLogin (mkGetLoginReq buf_vaddr buf_len) (t_pid t) (root_table_addr t) (t_tid t))).

Definition setuid_req (t : Thread) (f : TrapFrame) (hw : H) : SyscallOutcome * H :=
  park_on_manager hw (SetUid (mkSetUidReq (as_u32 (reg f 11))) (t_pid t) (t_tid t)).

Definition setgid_req (t : Thread) (f : TrapFrame) (hw : H) : SyscallOutcome * H :=
  park_on_manager hw (SetGid (mkSetGidReq (as_u32 (reg f 11))) (t_pid t) (t_tid t)).

Definition setgroups_req (t : Thread) (f : TrapFrame) (hw : H) : SyscallOutcome * H :=
  let buf_vaddr := reg f 11 in
  let count := reg f 12 in
  if NGROUPS_MAX <? count then (ret_err errno.EINVAL, hw)
  else if ((0 <? count) && negb (user_range_ok buf_vaddr (wmul count 4)))%bool then (ret_err errno.EFAULT, hw)
  else park_on_manager hw (SetGroups (mkSetGroupsReq buf_vaddr count) (t_pid t) (root_table_addr t) (t_tid t)).

Definition setlogin_req (t : Thread) (f : TrapFrame) (hw : H) : SyscallOutcome * H :=
  let name_len := reg f 12 in
  if ((name_len =? 0) || (MAX_LOGIN_NAME <? name_len))%bool then (ret_err errno.ENAMETOOLONG, hw)
  else
    with_user_va (reg f 11) hw (fun name_vaddr =>
    if negb (user_range_ok name_vaddr name_len) then (ret_err errno.EFAULT, hw)
    else park_on_manager hw (SetLogin (mkSetLoginReq name_vaddr name_len) (t_pid t) (root_table_addr t) (t_tid t))).

Definition argv_envp_req (t : Thread) (f : TrapFrame) (hw : H) : SyscallOutcome * H :=
  park_on_manager hw (ArgvEnvp (t_pid t) (t_tid t)).

Definition fb_surface_destroy_req (t : Thread) (f : TrapFrame) (hw : H) : SyscallOutcome * H :=
  park_on_manager hw (FbSurfaceDestroy (mkFbSurfaceDestroyReq (as_u32 (reg f 11))) (t_pid t) (root_table_addr t) (t_tid t)).

Definition nc_create_req (t : Thread) (f : TrapFrame) (hw : H) : SyscallOutcome * H :=
  match unpack (reg f 14) with
  | None => (ret_err errno.EINVAL, hw)
  | Some b =>
      with_user_va (reg f 11) hw (fun nc_vaddr =>
      let req := mkNetChannelCreationReq nc_vaddr (reg f 12) (reg f 13) b in
      if negb (user_shared_range_ok (nr_vaddr req) (nr_region_size req)) then (ret_err errno.EINVAL, hw)
      else park_on_manager hw (NetChannelCreation req (t_pid t) (root_table_addr t) (t_tid t)))
  end.

Definition close_req (t : Thread) (f : TrapFrame) (hw : H) : SyscallOutcome * H :=
  park_on_manager hw (CloseHandle (mkCloseHandleReq (as_u32 (reg f 11))) (t_pid t) (root_table_addr t) (t_tid t)).

Definition create_process_req (t : Thread) (f : TrapFrame) (hw : H) : SyscallOutcome * H :=
  with_user_va (reg f 11) hw (fun elf_vaddr =>
  let req := mkCreateProcessReq elf_vaddr (reg f 12) (reg f 14) (reg f 13) in
  if negb (user_range_ok (cp_elf_vaddr req) (cp_elf_len req)) then (ret_err errno.EFAULT, hw)
  else park_on_manager hw (CreateProcess req (t_pid t) (root_table_addr t) (t_tid t))).

Definition wait_pid_req (t : Thread) (f : TrapFrame) (hw : H) : SyscallOutcome * H :=
  let target_pid := as_i32 (reg f 11) in
  if ((target_pid =? 0) || (target_pid <? -1))%bool then (ret_err errno.EINVAL, hw)
  else if ((0 <? target_pid) && (target_pid =? t_pid t))%bool then (ret_err errno.EINVAL, hw)
  else park_on_manager hw (WaitPid (mkWaitPidReq target_pid) (t_pid t) (t_tid t)).

Definition fs_open_req (t : Thread) (f : TrapFrame) (hw : H) : SyscallOutcome * H :=
  with_user_va (reg f 11) hw (fun path_vaddr =>
  let req := mkFsOpenReq path_vaddr (reg f 12) (reg f 13) in
  if ((fo_path_len req =? 0) || (MAX_FS_PATH_LEN <? fo_path_len req))%bool then (ret_err errno.EINVAL, hw)
  else if negb (user_range_ok (fo_path_vaddr req) (fo_path_len req)) then (ret_err errno.EFAULT, hw)
  else park_on_manager hw (FsOpen req (t_pid t) (root_table_addr t) (t_tid t))).

Definition fs_read_req (t : Thread) (f : TrapFrame) (hw : H) : SyscallOutcome * H :=
  with_user_va (reg f 12) hw (fun buf_vaddr =>
  let req := mkFsReadReq (as_u32 (reg f 11)) buf_vaddr (reg f 13) in
  if ((fr_len req =? 0) || (MAX_FS_READ_LEN <? fr_len req))%bool then (ret_err errno.EINVAL, hw)
  else if negb (user_range_ok (fr_buf_vaddr req) (fr_len req)) then (ret_err errno.EFAULT, hw)
  else park_on_manager hw (FsRead req (t_pid t) (root_table_addr t) (t_tid t))).

Definition fs_stat_req (t : Thread) (f : TrapFrame) (hw : H) : SyscallOutcome * H :=
  with_user_va (reg f 11) hw (fun path_vaddr =>
  with_user_va (reg f 13) hw (fun stat_vaddr =>
  let req := mkFsStatReq path_vaddr (reg f 12) stat_vaddr in
  if ((fs_path_len req =? 0) || (MAX_FS_PATH_LEN <? fs_path_len req))%bool then (ret_err errno.EINVAL, hw)
  else if negb (user_range_ok (fs_path_vaddr req) (fs_path_len req)) then (ret_err errno.EFAULT, hw)
  else if negb (user_range_ok (fs_stat_vaddr req) STAT_SIZE) then (ret_err errno.EFAULT, hw)
  else park_on_manager hw (FsStat req (t_pid t) (root_table_addr t) (t_tid t)))).

Definition fs_readdir_req (t : Thread) (f : TrapFrame) (hw : H) : SyscallOutcome * H :=
  with_user_va (reg f 12) hw (fun buf_vaddr =>
  let req := mkFsReaddirReq (as_u32 (reg f 11)) buf_vaddr (reg f 13) in
  if ((fd_len req =? 0) || (PAGE_SIZE <? fd_len req))%bool then (ret_err errno.EINVAL, hw)
  else if negb (user_range_ok (fd_buf_vaddr req) (fd_len req)) then (ret_err errno.EFAULT, hw)
  else park_on_manager hw (FsReaddir req (t_pid t) (root_table_addr t) (t_tid t))).

Definition create_process_ex_req (t : Thread) (f : TrapFrame) (hw : H) : SyscallOutcome * H :=
  with_user_va (reg f 11) hw (fun elf_vaddr =>
  let argv_raw := reg f 15 in
  let argv_len := reg f 16 in
  match (if argv_len =? 0 then Ok 0 else UserVa_new argv_raw) with
  | Err _ => (ret_err errno.EFAULT, hw)
  | Ok argv_vaddr =>
      let envp_raw := reg f 17 in
      match (if envp_raw =? 0 then Ok 0 else UserVa_new envp_raw) with
      | Err _ => (ret_err errno.EFAULT, hw)
      | Ok envp_vaddr =>
          let req := mkCreateProcessExReq elf_vaddr (reg f 12) (reg f 13) (reg f 14) argv_vaddr argv_len envp_vaddr in
          if negb (user_range_ok (cx_elf_vaddr req) (cx_elf_len req)) then (ret_err errno.EFAULT, hw)
          else if ((0 <? cx_argv_len req) && negb (user_range_ok (cx_argv_vaddr req) (cx_argv_len req)))%bool
               then (ret_err errno.EFAULT, hw)
          else if ARGV_BLOB_MAX <? cx_argv_len req then (ret_err errno.EINVAL, hw)
          else if (negb (cx_envp_vaddr req =? 0) && negb (Z.land (cx_envp_vaddr req) (PAGE_SIZE - 1) =? 0))%bool
               then (ret_err errno.EINVAL, hw)
          else if (negb (cx_envp_vaddr req =? 0) && negb (user_range_ok (cx_envp_vaddr req) PAGE_SIZE))%bool
               then (ret_err errno.EFAULT, hw)
          else park_on_manager hw (CreateProcessEx req (t_pid t) (root_table_addr t) (t_tid t))
      end
  end).

Definition futex_wait_req (t : Thread) (f : TrapFrame) (hw : H) : SyscallOutcome * H :=
  let uaddr_raw := reg f 11 in
  let expected := as_u32 (reg f 12) in
  let timeout_ns := reg f 13 in
  if negb (Z.land uaddr_raw 3 =? 0) then (ret_err errno.EINVAL, hw)
  else if negb (user_range_ok uaddr_raw 4) then (ret_err errno.EFAULT, hw)
  else
    with_user_va uaddr_raw hw (fun uaddr =>
    park_on_manager hw (FutexWait (mkFutexWaitReq uaddr expected timeout_ns) (t_pid t) (root_table_addr t) (t_tid t))).

Definition futex_wake_req (t : Thread) (f : TrapFrame) (hw : H) : SyscallOutcome * H :=
  let uaddr_raw := reg f 11 in
  let n := as_u32 (reg f 12) in
  if negb (Z.land uaddr_raw 3 =? 0) then (ret_err errno.EINVAL, hw)
  else if negb (user_range_ok uaddr_raw 4) then (ret_err errno.EFAULT, hw)
  else
    with_user_va uaddr_raw hw (fun uaddr =>
    park_on_manager hw (FutexWake (mkFutexWakeReq uaddr n) (t_pid t) (root_table_addr t) (t_tid t))).

Definition create_thread (t : Thread) (f : TrapFrame) (hw : H) : SyscallOutcome * H :=
  with_user_va (reg f 11) hw (fun entry =>
  let req := mkCreateThreadReq entry (reg f 12) (reg f 13) (reg f 14) in
  if negb (user_range_ok (ct_entry req) 1) then (ret_err errno.EFAULT, hw)
  else if (negb (ct_allowed_affinity req =? 0) && negb (ct_affinity req =? 0)
           && negb (Z.land (ct_affinity req) (wnot (ct_allowed_affinity req)) =? 0))%bool
       then (ret_err errno.EINVAL, hw)
  else park_on_manager hw (CreateThread req (t_pid t) (t_allowed_affinity t) (t_tid t))).

Definition pledge_req (t : Thread) (f : TrapFrame) (hw : H) : SyscallOutcome * H :=
  let req_vaddr_raw := reg f 11 in
  let size := PERMS_REQUEST_SIZE in
  if negb (Z.land req_vaddr_raw 7 =? 0) then (ret_err errno.EINVAL, hw)
  else if negb (user_range_ok req_vaddr_raw size) then (ret_err errno.EFAULT, hw)
  else if negb (struct_fits_in_one_page req_vaddr_raw size) then (ret_err errno.EINVAL, hw)
  else
    with_user_va req_vaddr_raw hw (fun req_vaddr =>
    park_on_manager hw (Pledge (mkPledgeReq req_vaddr) (t_pid t) (root_table_addr t) (t_tid t))).

Definition create_process_v2_req (t : Thread) (f : TrapFrame) (hw : H) : SyscallOutcome * H :=
  let args_vaddr_raw := reg f 11 in
  let size := CREATE_PROCESS_V2_ARGS_SIZE in
  if negb (Z.land args_vaddr_raw 7 =? 0) then (ret_err errno.EINVAL, hw)
  else if negb (user_range_ok args_vaddr_raw size) then (ret_err errno.EFAULT, hw)
  else if negb (struct_fits_in_one_page args_vaddr_raw size) then (ret_err errno.EINVAL, hw)
  else
    with_user_va args_vaddr_raw hw (fun args_vaddr =>
    park_on_manager hw (CreateProcessV2 (mkCreateProcessV2Req args_vaddr) (t_pid t) (root_table_addr t) (t_tid t))).

(** The handlers below touch user memory. *)
Definition serial_print (t : Thread) (f : TrapFrame) (hw : H) : panics (SyscallOutcome * H) :=
  match UserVa_new (reg f 11) with
  | Err _ => Done (ready_err errno.EFAULT, hw)
  | Ok user_va =>
      let len := reg f 12 in
      if PAGE_SIZE <? len then Done (ready_err errno.EINVAL, hw)
      else if negb (user_range_ok user_va len) then Done (ready_err errno.EFAULT, hw)
      else if negb (user_va_translates hw (root_table_addr t) user_va) then Done (ready_err errno.EFAULT, hw)
      else
        buf <-! copy_from_user hw user_va len ;;
        if negb (utf8_valid buf) then Done (ready_err errno.EINVAL, hw)
        else
          let '(hw, ok) := serial_write_user hw (t_pid t) (t_tid t) buf in
          Done (if ok then ready 0 else ready_err errno.EIO, hw)
  end.

Definition console_write (t : Thread) (f : TrapFrame) (hw : H) : panics (SyscallOutcome * H) :=
  match UserVa_new (reg f 11) with
  | Err _ => Done (ready_err errno.EFAULT, hw)
  | Ok user_va =>
      let len := reg f 12 in
      if ((len =? 0) || (PAGE_SIZE <? len))%bool then Done (ready_err errno.EINVAL, hw)
      else if negb (user_range_ok user_va len) then Done (ready_err errno.EFAULT, hw)
      else if negb (user_va_translates hw (root_table_addr t) user_va) then Done (ready_err errno.EFAULT, hw)
      else
        buf <-! copy_from_user hw user_va len ;;
        let dest_pid := default (t_pid t) (t_stdout_redirect t) in
        let '(hw, ok) := console_write_user hw dest_pid buf in
        Done (if ok then ready len else ready_err errno.EAGAIN, hw)
  end.

Definition read_stdin (t : Thread) (f : TrapFrame) (hw : H) : panics (SyscallOutcome * H) :=
  match UserVa_new (reg f 11) with
  | Err _ => Done (ready_err errno.EFAULT, hw)
  | Ok user_va =>
      let user_len := reg f 12 in
      let flags := reg f 13 in
      if ((user_len =? 0) || (PAGE_SIZE <? user_len))%bool then Done (ready_err errno.EINVAL, hw)
      else if negb (user_range_ok user_va user_len) then Done (ready_err errno.EFAULT, hw)
      else if negb (user_va_translates hw (root_table_addr t) user_va) then Done (ready_err errno.EFAULT, hw)
      else
        r <-! read_stdin_drain hw (t_pid t) user_va user_len ;;
        let '(hw, n) := r in
        if 0 <? n then Done (ready n, hw)
        else if negb (Z.land flags READ_STDIN_NONBLOCK =? 0) then Done (ready_err errno.EAGAIN, hw)
        else
          let '(hw, parked) := park_stdin_reader hw (t_pid t) (t_tid t) in
          if negb parked then Done (ready_err errno.EBUSY, hw)
          else
            r2 <-! read_stdin_drain hw (t_pid t) user_va user_len ;;
            let '(hw, n2) := r2 in
            if 0 <? n2 then Done (ready n2, fst (unpark_stdin_reader hw (t_pid t)))
            else Done (RetryOnDoorbell, hw)
  end.

Definition read_key_event (t : Thread) (f : TrapFrame) (hw : H) : panics (SyscallOutcome * H) :=
  match UserVa_new (reg f 11) with
  | Err _ => Done (ready_err errno.EFAULT, hw)
  | Ok user_va =>
      let count := reg f 12 in
      let flags := reg f 13 in
      let timeout_ms := reg f 14 in
      if count =? 0 then Done (ready_err errno.EINVAL, hw)
      else
        match checked_mul count KEY_EVENT_SIZE with
        | None => Done (ready_err errno.EINVAL, hw)
        | Some byte_len =>
            if PAGE_SIZE <? byte_len then Done (ready_err errno.EINVAL, hw)
            else if negb (user_range_ok user_va byte_len) then Done (ready_err errno.EFAULT, hw)
            else if negb (user_va_translates hw (root_table_addr t) user_va) then Done (ready_err errno.EFAULT, hw)
            else if (negb (timeout_ms =? READ_KEY_EVENT_INDEFINITE) && (READ_KEY_EVENT_MAX_TIMEOUT_MS <=? timeout_ms))%bool
                 then Done (ready_err errno.EINVAL, hw)
            else
              r <-! read_key_events_drain hw (t_pid t) user_va count ;;
              let '(hw, n) := r in
              if 0 <? n then Done (ready n, hw)
              else if negb (Z.land flags READ_KEY_EVENT_NONBLOCK =? 0) then Done (ready_err errno.EAGAIN, hw)
              else if timeout_ms =? 0 then Done (ready 0, hw)
              else
                let '(hw, po) := set_key_event_parker hw (t_pid t) (t_tid t) in
                match po with
                | AlreadyOwned => Done (ready 0, fst (clear_key_event_parker_if hw (t_pid t) (t_tid t)))
                | Busy => Done (ready_err errno.EBUSY, hw)
                | Installed =>
                    r2 <-! read_key_events_drain hw (t_pid t) user_va count ;;
                    let '(hw, n2) := r2 in
                    if 0 <? n2 then Done (ready n2, fst (clear_key_event_parker_if hw (t_pid t) (t_tid t)))
                    else if timeout_ms =? READ_KEY_EVENT_INDEFINITE then Done (RetryOnDoorbell, hw)
                    else Done (RetryUntilDeadline (wadd (now_ticks hw) (wmul timeout_ms (ticks_per_ms hw))), hw)
                end
        end
  end.

End Handlers.

(** The one handler that writes its thread. *)
Definition set_affinity (t : Thread) (f : TrapFrame) : SyscallOutcome * Thread :=
  let mask := reg f 11 in
  if mask =? 0 then (ready_err errno.EINVAL, t)
  else if negb (Z.land mask (wnot (t_allowed_affinity t)) =? 0) then (ready_err errno.EPERM, t)
  else (ready 0, set_affinity_mask mask t).

Definition get_affinity (t : Thread) : SyscallOutcome := Return2 (as_i64 (t_affinity t)) (as_i64 (t_allowed_affinity t)).

(** ** Admission *)

(** What the manager may assume of an item's fields. *)
Definition in_shared (va len : Z) : Prop := UPROC_SHARED_BASE <= va /\ va + len <= UPROC_SHARED_END.
Definition in_private (va len : Z) : Prop := UPROC_PRIV_BASE <= va /\ va + len <= UPROC_PRIV_END.

Definition work_limits (w : PendingWork) : Prop :=
  match w with
  | MemMap r _ _ _ =>
      if mm_share_with_kernel r
      then in_shared (mm_vaddr r) (mm_size r) /\ Z.land 8 (mm_page_permissions r) = 0
      else in_private (mm_vaddr r) (mm_size r)
  | NetChannelCreation r _ _ _ => bind_ok (nr_bind r) = true /\ in_shared (nr_vaddr r) (nr_region_size r)
  | CreateThread r _ allowed _ =>
      ct_allowed_affinity r = 0 \/ ct_affinity r = 0 \/ Z.land (ct_affinity r) (wnot (ct_allowed_affinity r)) = 0
  | FsOpen r _ _ _ => 0 < fo_path_len r <= MAX_FS_PATH_LEN
  | FsRead r _ _ _ => 0 < fr_len r <= MAX_FS_READ_LEN
  | FsStat r _ _ _ => 0 < fs_path_len r <= MAX_FS_PATH_LEN
  | FsReaddir r _ _ _ => 0 < fd_len r <= PAGE_SIZE
  | WaitPid r pid _ => wp_target_pid r = -1 \/ 0 < wp_target_pid r < 2 ^ 31 /\ wp_target_pid r <> pid
  | CreateProcessEx r _ _ _ =>
      cx_argv_len r <= ARGV_BLOB_MAX /\ (cx_envp_vaddr r = 0 \/ cx_envp_vaddr r mod PAGE_SIZE = 0)
  | FutexWait r _ _ _ => fw_uaddr r mod 4 = 0
  | FutexWake r _ _ _ => fk_uaddr r mod 4 = 0
  | Pledge r _ _ _ => pl_req_vaddr r mod 8 = 0 /\ one_page (pl_req_vaddr r, PERMS_REQUEST_SIZE)
  | CreateProcessV2 r _ _ _ => c2_args_vaddr r mod 8 = 0 /\ one_page (c2_args_vaddr r, CREATE_PROCESS_V2_ARGS_SIZE)
  | FbSurfaceCreate r _ _ _ =>
      0 < fb_width r < 2 ^ 32 /\ 0 < fb_height r < 2 ^ 32 /\ fb_width r * fb_height r * 4 < W64 /\ fb_format_raw r = 1
  | EventFdCreate r _ _ _ =>
      in_shared (ef_vaddr_hint r) PAGE_SIZE /\ ef_vaddr_hint r mod PAGE_SIZE = 0 /\ Z.ldiff (ef_flags r) EFD_ALL_FLAGS = 0
  | WakeTid r _ _ => wt_target_tid r <> 0
  | FsSeek r _ _ => 0 <= sk_whence r <= 2 /\ - 2 ^ 63 <= sk_offset r < 2 ^ 63
  | ChInspect r _ _ _ => one_page (ci_info_vaddr r, CHINFO_SIZE)
  | Chdir r _ _ _ => 0 < cd_path_len r <= MAX_FS_PATH_LEN
  | GetCwd r _ _ _ => 0 < gc_buf_len r <= PAGE_SIZE
  | GetGroups r _ _ _ => 0 <= gg_count r <= NGROUPS_MAX
  | GetLogin r _ _ _ => 0 < gl_buf_len r <= PAGE_SIZE
  | SetGroups r _ _ _ => 0 <= sr_count r <= NGROUPS_MAX
  | SetLogin r _ _ _ => 0 < sl_name_len r <= MAX_LOGIN_NAME
  | QueryDenials va len _ _ _ => one_page (va, len)
  | QueryStats _ va len _ _ => one_page (va, len)
  | _ => True
  end.

(** An item of thread [t]: answered to it, in its address space, naming only
    user memory, within the limits. *)
Record work_ok (t : Thread) (w : PendingWork) : Prop := {
  wk_pid : work_pid w = Some (t_pid t);
  wk_tid : work_tid w = Some (t_tid t);
  wk_root r : work_root w = Some r -> r = root_table_addr t;
  wk_ranges : Forall user_window (work_ranges w);
  wk_limits : work_limits w;
}.

Record frame_ok (f : TrapFrame) : Prop := {
  fr_regs : length (regs f) = 32%nat;
  fr_words : Forall is_u64 (regs f);
}.

Lemma reg_word f i : frame_ok f -> is_u64 (reg f i).
Proof.
  intros [_ Hw]. unfold reg. destruct (regs f !! i) as [x |] eqn:E; cbn; [by eapply Forall_lookup_1 |].
  unfold is_u64, W64. lia.
Qed.

Lemma range_window va len : 0 <= len -> user_range_ok va len = true -> user_window (va, len).
Proof.
  unfold user_range_ok, checked_add, user_window. intros Hl. cases_b; intros; to_prop; try done; cbn; lia.
Qed.

Lemma shared_window va len : 0 <= len -> user_shared_range_ok va len = true -> user_window (va, len) /\ in_shared va len.
Proof.
  unfold user_shared_range_ok, checked_add, user_window, in_shared. intros Hl. cases_b; intros; to_prop; try done; cbn.
  unfold USER_NULL_GUARD_END, LARGE_PAGE, USER_VA_END, USER_TRAP_FRAME_BASE, UPROC_SHARED_END, UPROC_SHARED_BASE, UPROC_PRIV_END in *. lia.
Qed.

Lemma private_window va len : 0 <= len -> user_priv_range_ok va len = true -> user_window (va, len) /\ in_private va len.
Proof.
  unfold user_priv_range_ok, checked_add, user_window, in_private. intros Hl. cases_b; intros; to_prop; try done; cbn.
  unfold USER_NULL_GUARD_END, LARGE_PAGE, USER_VA_END, USER_TRAP_FRAME_BASE, UPROC_SHARED_END, UPROC_PRIV_BASE, UPROC_PRIV_END in *. lia.
Qed.

Lemma one_page_spec va size :
  user_window (va, size) -> 0 < size <= PAGE_SIZE ->
  struct_fits_in_one_page va size = true <-> one_page (va, size).
Proof.
  unfold user_window, struct_fits_in_one_page, one_page. cbn [fst snd]. intros (Hl & _ & Hh) Hs.
  assert (is_u64 va /\ is_u64 (va + size) /\ is_u64 (va + size - 1)) as (Hva & Hve & Hvl).
  { unfold is_u64, W64, USER_NULL_GUARD_END, LARGE_PAGE, USER_VA_END, USER_TRAP_FRAME_BASE, UPROC_SHARED_END in *. lia. }
  destruct (Z.eqb_spec size 0); [lia |]. rewrite wadd_small, wsub_small by done.
  change (PAGE_SIZE - 1) with (2 ^ 12 - 1). rewrite !land_round_down by (done || lia).
  change UPAGE_SIZE with (2 ^ 12). change PAGE_SIZE with (2 ^ 12) in Hs. rewrite Z.eqb_eq.
  pose proof (Z.div_mod va (2 ^ 12) ltac:(lia)). pose proof (Z.mod_pos_bound va (2 ^ 12) ltac:(lia)).
  pose proof (Z.div_mod (va + size - 1) (2 ^ 12) ltac:(lia)). pose proof (Z.mod_pos_bound (va + size - 1) (2 ^ 12) ltac:(lia)).
  set (a := va / 2 ^ 12) in *. set (b := (va + size - 1) / 2 ^ 12) in *. split; intros.
  - assert (a = b) by lia. lia.
  - assert (a = b); [| lia]. nia.
Qed.

Section Admission.
Context {H : Type} `{Hardware H}.

(** The errors a request can be refused with before it reaches the manager. *)
Definition refusal (ret : Z) : Prop :=
  ret = 0 \/ ret = to_ret errno.EINVAL \/ ret = to_ret errno.EFAULT \/ ret = to_ret errno.ENAMETOOLONG.

(** A request is refused without touching the hardware, or handed over whole. *)
Definition validated (t : Thread) (hw : H) (r : SyscallOutcome * H) : Prop :=
  (exists ret, r = (Return ret, hw) /\ refusal ret) \/
  (exists w, r = park_on_manager hw w /\ work_ok t w).

Lemma validated_err t hw e :
  e = errno.EINVAL \/ e = errno.EFAULT \/ e = errno.ENAMETOOLONG -> validated t hw (ret_err e, hw).
Proof. intros He. left. eexists. split; [done |]. unfold refusal. destruct He as [-> | [-> | ->]]; auto. Qed.

Lemma validated_va t hw raw k :
  (user_range_ok raw 1 = true -> validated t hw (k raw)) -> validated t hw (with_user_va raw hw k).
Proof.
  intros Hk. unfold with_user_va, UserVa_new. destruct (user_range_ok raw 1); [by apply Hk |]. apply validated_err. auto.
Qed.

(** Every branch of a request handler is a refusal or a hand-over. *)
Lemma validated_park t hw w : work_ok t w -> validated t hw (park_on_manager hw w).
Proof. right. eauto. Qed.

Ltac reject := apply validated_err; auto.
Ltac walk :=
  lazy beta zeta;
  repeat first
    [ apply validated_va; intros ?; lazy beta zeta
    | progress lazy beta zeta
    | match goal with
      | |- validated _ _ (if ?b then _ else _) => let E := fresh "E" in destruct b eqn:E; [try reject |]
      end ].
Ltac sizes :=
  unfold EVENTFD_REGION_SIZE, PAGE_SIZE, STAT_SIZE, CHINFO_SIZE, PERMS_REQUEST_SIZE, CREATE_PROCESS_V2_ARGS_SIZE, UPAGE_SIZE; lia.
Ltac facts :=
  to_prop;
  repeat match goal with
  | H : user_range_ok ?v ?l = true |- _ => apply range_window in H; [| sizes]
  | H : user_shared_range_ok ?v ?l = true |- _ => apply shared_window in H as [? ?]; [| sizes]
  | H : user_priv_range_ok ?v ?l = true |- _ => apply private_window in H as [? ?]; [| sizes]
  end.

Context (t : Thread) (f : TrapFrame) (hw : H) (Hf : frame_ok f).

Lemma regb i : 0 <= reg f i < W64.
Proof. by apply reg_word. Qed.

Lemma u32b x : 0 <= as_u32 x < 2 ^ 32.
Proof. unfold as_u32. apply Z.mod_pos_bound. lia. Qed.

Lemma mask_mod x k : 0 <= k -> Z.land x (2 ^ k - 1) = 0 -> x mod 2 ^ k = 0.
Proof. intros Hk. by rewrite land_mod. Qed.

Ltac regs_bounds :=
  pose proof (regb 11); pose proof (regb 12); pose proof (regb 13); pose proof (regb 14);
  pose proof (u32b (reg f 11)); pose proof (u32b (reg f 12)); pose proof (u32b (reg f 13)).
Ltac fields := cbn [mm_vaddr mm_size mm_page_permissions mm_share_with_kernel nr_vaddr nr_region_size nr_type nr_bind ch_fd ct_entry ct_allowed_affinity ct_affinity ct_arg fo_path_vaddr fo_path_len fo_flags fr_fd fr_buf_vaddr fr_len fs_path_vaddr fs_path_len fs_stat_vaddr fd_fd fd_buf_vaddr fd_len wp_target_pid cp_elf_vaddr cp_elf_len cp_affinity cp_allowed_affinity fw_uaddr fw_expected fw_timeout_ns fk_uaddr fk_n pl_req_vaddr c2_args_vaddr cx_elf_vaddr cx_elf_len cx_allowed_affinity cx_affinity cx_argv_vaddr cx_argv_len cx_envp_vaddr fb_width fb_height fb_format_raw fb_handle ef_vaddr_hint ef_initval ef_flags wt_target_tid sk_fd sk_offset sk_whence ft_fd ft_stat_vaddr ci_fd ci_info_vaddr cd_path_vaddr cd_path_len gc_buf_vaddr gc_buf_len gg_buf_vaddr gg_count gl_buf_vaddr gl_buf_len su_uid sg_gid sr_buf_vaddr sr_count sl_name_vaddr sl_name_len] in *.
Ltac hand :=
  apply validated_park; split; cbn [work_pid work_tid work_root work_ranges work_limits];
  fields; try assumption; try exact Logic.I; try congruence; try solve [repeat (apply Forall_cons_2; [assumption |]); apply Forall_nil_2].
Ltac admission := regs_bounds; walk; fields; facts; hand; try lia.

Lemma mmap_validated : validated t hw (mmap_req t f hw).
Proof.
  regs_bounds. unfold mmap_req. walk. fields. to_prop. apply validated_park.
  destruct (0 <? reg f 14); cbn [andb] in *; facts; (split; cbn [work_pid work_tid work_root work_ranges work_limits]; try done; try congruence);
    fields; auto.
Qed.

Lemma fb_surface_create_validated : validated t hw (fb_surface_create_req t f hw).
Proof.
  regs_bounds. unfold fb_surface_create_req. walk. unfold FbFormat_from_u32, checked_mul.
  destruct (Z.eqb_spec (as_u32 (reg f 13)) 1); [| reject].
  cbn [bytes_per_pixel mbind option_bind]. destruct (Z.ltb_spec (as_u32 (reg f 11) * as_u32 (reg f 12)) W64); [| reject].
  cbn [mbind option_bind]. destruct (Z.ltb_spec (as_u32 (reg f 11) * as_u32 (reg f 12) * 4) W64); [| reject].
  to_prop. hand. lia.
Qed.

Lemma eventfd_validated : validated t hw (eventfd_req t f hw).
Proof.
  unfold eventfd_req. admission. split_and!; try done. by apply (mask_mod _ 12).
Qed.

Lemma wake_tid_validated : validated t hw (wake_tid_req t f hw).
Proof.
  unfold wake_tid_req. lazy zeta. destruct (Z.eqb_spec (as_u32 (reg f 11)) 0).
  - left. exists 0. split; [done | by left].
  - hand.
Qed.

Lemma fs_seek_validated : validated t hw (fs_seek_req t f hw).
Proof.
  unfold fs_seek_req. admission. unfold as_i64. pose proof (Z.mod_pos_bound (reg f 12) (2 ^ 64) ltac:(lia)).
  destruct (Z.ltb_spec (reg f 12 mod 2 ^ 64) (2 ^ 63)); lia.
Qed.

Lemma fs_fstat_validated : validated t hw (fs_fstat_req t f hw).
Proof. unfold fs_fstat_req. admission. Qed.

Lemma ch_inspect_validated : validated t hw (ch_inspect_req t f hw).
Proof.
  unfold ch_inspect_req. admission. apply one_page_spec; [done | unfold CHINFO_SIZE, PAGE_SIZE; lia | done].
Qed.

Lemma chdir_validated : validated t hw (chdir_req t f hw).
Proof. unfold chdir_req. admission. Qed.

Lemma getcwd_validated : validated t hw (getcwd_req t f hw).
Proof. unfold getcwd_req. admission. Qed.

(** [getgroups] and [setgroups]: the buffer counts only when there is one. *)
Lemma groups_ranges count va :
  0 <= count <= NGROUPS_MAX -> ((0 <? count) && negb (user_range_ok va (wmul count 4)))%bool = false ->
  Forall user_window (if count =? 0 then [] else [(va, count * 4)]).
Proof.
  unfold NGROUPS_MAX. intros Hc E. destruct (Z.eqb_spec count 0); [constructor |].
  destruct (Z.ltb_spec 0 count); [| lia]. cbn [andb] in E. apply negb_false_iff in E.
  rewrite wmul_small in E by (unfold W64; lia). constructor; [| constructor]. apply range_window; [lia | done].
Qed.

Lemma getgroups_validated : validated t hw (getgroups_req t f hw).
Proof.
  regs_bounds. unfold getgroups_req. walk. apply validated_park. to_prop.
  split; cbn [work_pid work_tid work_root work_ranges work_limits]; try done; [congruence | fields ..]; [apply groups_ranges; try done |]; lia.
Qed.

Lemma setgroups_validated : validated t hw (setgroups_req t f hw).
Proof.
  regs_bounds. unfold setgroups_req. walk. apply validated_park. to_prop.
  split; cbn [work_pid work_tid work_root work_ranges work_limits]; try done; [congruence | fields ..]; [apply groups_ranges; try done |]; lia.
Qed.

Lemma getlogin_validated : validated t hw (getlogin_req t f hw).
Proof. unfold getlogin_req. admission. Qed.

Lemma setuid_validated : validated t hw (setuid_req t f hw).
Proof. unfold setuid_req. hand. Qed.

Lemma setgid_validated : validated t hw (setgid_req t f hw).
Proof. unfold setgid_req. hand. Qed.

Lemma setlogin_validated : validated t hw (setlogin_req t f hw).
Proof. unfold setlogin_req. admission. Qed.

Lemma argv_envp_validated : validated t hw (argv_envp_req t f hw).
Proof. unfold argv_envp_req. hand. Qed.

Lemma fb_surface_destroy_validated : validated t hw (fb_surface_destroy_req t f hw).
Proof. unfold fb_surface_destroy_req. hand. Qed.

Lemma nc_create_validated : validated t hw (nc_create_req t f hw).
Proof.
  unfold nc_create_req. destruct (unpack (reg f 14)) as [b |] eqn:Eu; [| reject].
  apply unpack_sound in Eu as [Hb _]; [| by apply reg_word]. regs_bounds. walk. fields. facts.
  apply validated_park. split; cbn [work_pid work_tid work_root work_ranges work_limits]; fields; [congruence .. | by apply Forall_singleton | split; [exact Hb | assumption]].
Qed.

Lemma close_validated : validated t hw (close_req t f hw).
Proof. unfold close_req. hand. Qed.

Lemma create_process_validated : validated t hw (create_process_req t f hw).
Proof. unfold create_process_req. admission. Qed.

Lemma wait_pid_validated : validated t hw (wait_pid_req t f hw).
Proof.
  unfold wait_pid_req. walk. to_prop. hand. unfold as_i32 in *.
  pose proof (Z.mod_pos_bound (reg f 11) (2 ^ 32) ltac:(lia)).
  destruct (Z.ltb_spec (reg f 11 mod 2 ^ 32) (2 ^ 31)).
  - right. split; [lia |]. apply andb_false_iff in E0 as [E0 | E0]; to_prop; lia.
  - left. lia.
Qed.

Lemma fs_open_validated : validated t hw (fs_open_req t f hw).
Proof. unfold fs_open_req. admission. Qed.

Lemma fs_read_validated : validated t hw (fs_read_req t f hw).
Proof. unfold fs_read_req. admission. Qed.

Lemma fs_stat_validated : validated t hw (fs_stat_req t f hw).
Proof. unfold fs_stat_req. admission. Qed.

Lemma fs_readdir_validated : validated t hw (fs_readdir_req t f hw).
Proof. unfold fs_readdir_req. admission. Qed.

Lemma futex_wait_validated : validated t hw (futex_wait_req t f hw).
Proof. unfold futex_wait_req. admission. by apply (mask_mod _ 2). Qed.

Lemma futex_wake_validated : validated t hw (futex_wake_req t f hw).
Proof. unfold futex_wake_req. admission. by apply (mask_mod _ 2). Qed.

Lemma create_thread_validated : validated t hw (create_thread t f hw).
Proof.
  unfold create_thread. admission.
Qed.

Lemma pledge_validated : validated t hw (pledge_req t f hw).
Proof.
  unfold pledge_req. admission. split; [by apply (mask_mod _ 3) |].
  apply one_page_spec; [done | unfold PERMS_REQUEST_SIZE, PAGE_SIZE; lia | done].
Qed.

Lemma create_process_v2_validated : validated t hw (create_process_v2_req t f hw).
Proof.
  unfold create_process_v2_req. admission. split; [by apply (mask_mod _ 3) |].
  apply one_page_spec; [done | unfold CREATE_PROCESS_V2_ARGS_SIZE, PAGE_SIZE; lia | done].
Qed.

(** The optional [argv] and [envp] blobs. *)
Lemma create_process_ex_validated : validated t hw (create_process_ex_req t f hw).
Proof.
  regs_bounds. pose proof (regb 16). unfold create_process_ex_req. apply validated_va. intros Helf. lazy beta zeta.
  set (argv := if reg f 16 =? 0 then Ok 0 else UserVa_new (reg f 15)).
  destruct argv as [argv |]; [| reject].
  set (envp := if reg f 17 =? 0 then Ok 0 else UserVa_new (reg f 17)). destruct envp as [envp |]; [| reject].
  walk. fields. to_prop. apply validated_park.
  split; cbn [work_pid work_tid work_root work_ranges work_limits]; try done; [congruence | |]; fields.
  - constructor; [apply range_window; [lia | done] |]. apply Forall_app. split.
    + destruct (Z.eqb_spec (reg f 16) 0); [constructor |]. destruct (Z.ltb_spec 0 (reg f 16)); [| lia].
      constructor; [| constructor]. apply range_window; [lia |]. by apply negb_false_iff.
    + destruct (envp =? 0); [constructor |]. cbn [negb andb] in *. to_prop.
      constructor; [| constructor]. by apply range_window.
  - split; [lia |]. destruct (Z.eqb_spec envp 0); [by left |]. right. cbn [negb andb] in *. to_prop. by apply (mask_mod _ 12).
Qed.

End Admission.
