(* ===== verification/Process.v ===== *)
(** * Processes: pids, exit status and waiting

    Models the process records of [process/src/lib.rs] as the manager uses them in
    [kmain/src/kernel/mod.rs]: [next_pid], [run_wait_pid_req], [run_wait_any_child],
    the exit-status part of [dealloc_process], and the exit codes that
    [request_exit_group] and the reaper store. Everything here runs under the
    manager lock, so an operation is one step.

    A publication ([publish_pending_for_tid], modelled in [Manager]) is recorded in
    [o_out], tagged with the child whose status it carries. *)

From stdpp Require Import base list option numbers sets gmap.
From S2P Require Import Prelude Abi Perms Thread.
#[local] Open Scope Z_scope.

(** ** Data *)

(** The fields of [Process] that waits, exits, credentials, permissions, paths and
    the start of a program use; its memory map and sockets are left out. A blob is
    the address of its page. *)
Record Process := mkProcess {
  pr_pid : Z;
  pr_parent_pid : Z;
  pr_exit_code : Z;
  pr_exit_finalized : bool;
  pr_exit_waiter : option Z;
  pr_any_child_waiter : option Z;
  pr_dead_children : list (Z * Z);
  pr_detached : bool;
  pr_threads : list Z;
  pr_permissions : Permissions;
  pr_uid : Z; pr_euid : Z; pr_suid : Z;
  pr_gid : Z; pr_egid : Z; pr_sgid : Z;
  pr_groups : list Z;
  pr_login_name : option (list Z);
  pr_cwd : list Z;
  pr_stdout_redirect : option Z;
  pr_argv_blob : option Z;
  pr_envp_blob : option Z;
}.

Definition eta_process (p : Process) : Process :=
  mkProcess (pr_pid p) (pr_parent_pid p) (pr_exit_code p) (pr_exit_finalized p) (pr_exit_waiter p)
    (pr_any_child_waiter p) (pr_dead_children p) (pr_detached p) (pr_threads p) (pr_permissions p)
    (pr_uid p) (pr_euid p) (pr_suid p) (pr_gid p) (pr_egid p) (pr_sgid p) (pr_groups p) (pr_login_name p)
    (pr_cwd p) (pr_stdout_redirect p) (pr_argv_blob p) (pr_envp_blob p).
Definition set_exit_code : Z -> Process -> Process := ltac:(set_field eta_process pr_exit_code).
Definition set_exit_finalized : bool -> Process -> Process := ltac:(set_field eta_process pr_exit_finalized).
Definition set_exit_waiter : option Z -> Process -> Process := ltac:(set_field eta_process pr_exit_waiter).
Definition set_any_child_waiter : option Z -> Process -> Process := ltac:(set_field eta_process pr_any_child_waiter).
Definition set_dead_children : list (Z * Z) -> Process -> Process := ltac:(set_field eta_process pr_dead_children).
Definition set_pr_threads : list Z -> Process -> Process := ltac:(set_field eta_process pr_threads).
Definition set_pr_permissions : Permissions -> Process -> Process := ltac:(set_field eta_process pr_permissions).
Definition set_pr_uid : Z -> Process -> Process := ltac:(set_field eta_process pr_uid).
Definition set_pr_euid : Z -> Process -> Process := ltac:(set_field eta_process pr_euid).
Definition set_pr_suid : Z -> Process -> Process := ltac:(set_field eta_process pr_suid).
Definition set_pr_gid : Z -> Process -> Process := ltac:(set_field eta_process pr_gid).
Definition set_pr_egid : Z -> Process -> Process := ltac:(set_field eta_process pr_egid).
Definition set_pr_sgid : Z -> Process -> Process := ltac:(set_field eta_process pr_sgid).
Definition set_pr_groups : list Z -> Process -> Process := ltac:(set_field eta_process pr_groups).
Definition set_pr_login_name : option (list Z) -> Process -> Process := ltac:(set_field eta_process pr_login_name).
Definition set_pr_cwd : list Z -> Process -> Process := ltac:(set_field eta_process pr_cwd).
Definition set_pr_stdout_redirect : option Z -> Process -> Process := ltac:(set_field eta_process pr_stdout_redirect).
Definition set_pr_argv_blob : option Z -> Process -> Process := ltac:(set_field eta_process pr_argv_blob).
Definition set_pr_envp_blob : option Z -> Process -> Process := ltac:(set_field eta_process pr_envp_blob).
Definition set_pr_detached : bool -> Process -> Process := ltac:(set_field eta_process pr_detached).

(** The process table, the pid cursor, and the publications so far: thread,
    values, and the child whose status they report. *)
Record Orbit := mkOrbit {
  o_processes : list (Z * Process);
  o_current_pid : Z;
  o_out : list (Z * list Z * option Z);
}.

Definition get_proc (pid : Z) (o : Orbit) : option Process := bm_get pid (o_processes o).
Definition put_proc (pid : Z) (p : Process) (o : Orbit) : Orbit :=
  mkOrbit (bm_insert pid p (o_processes o)) (o_current_pid o) (o_out o).
Definition publish (tid : Z) (vals : list Z) (child : option Z) (o : Orbit) : Orbit :=
  mkOrbit (o_processes o) (o_current_pid o) (o_out o ++ [(tid, vals, child)]).

(** [x as u16]. *)
Definition as_u16 (x : Z) : Z := x mod 2 ^ 16.

(** ** Pids *)

(** The search: the next pid that names no process; 0 is skipped after a collision. *)
Fixpoint next_pid_loop (fuel : nat) (next : Z) (o : Orbit) : option Z :=
  match fuel with
  | O => None
  | Datatypes.S fuel =>
      match get_proc next o with
      | None => Some next
      | Some _ =>
          let next := as_u16 (next + 1) in
          next_pid_loop fuel (if next =? 0 then 1 else next) o
      end
  end.

(** Every pid is tried once, 0 perhaps twice. *)
Definition next_pid (o : Orbit) : option (Z * Orbit) :=
  next ← next_pid_loop (Z.to_nat (2 ^ 16) + 1) (as_u16 (o_current_pid o + 1)) o;
  Some (next, mkOrbit (o_processes o) next (o_out o)).

(** ** Waiting *)

(** [BTreeMap::pop_first]: the entry with the least key. *)
Definition pop_first {V} (m : list (Z * V)) : option (Z * V * list (Z * V)) :=
  match m with
  | [] => None
  | (k, v) :: _ => Some (k, v, bm_remove k m)
  end.

Definition publish_errno (tid e : Z) (o : Orbit) : Orbit := publish tid [to_ret e; 0] None o.

Definition run_wait_any_child (caller_pid caller_tid : Z) (o : Orbit) : Orbit :=
  match get_proc caller_pid o with
  | None => publish_errno caller_tid errno.ECHILD o
  | Some parent =>
      match pop_first (pr_dead_children parent) with
      | Some (pid, code, rest) => publish caller_tid [pid; code] (Some pid) (put_proc caller_pid (set_dead_children rest parent) o)
      | None =>
          if bool_decide (is_Some (pr_any_child_waiter parent)) then publish_errno caller_tid errno.EBUSY o
          else
            let has_live_child := existsb (fun e : Z * Process => (pr_parent_pid e.2 =? caller_pid) && negb (pr_detached e.2)) (o_processes o) in
            if negb has_live_child then publish_errno caller_tid errno.ECHILD o
            else put_proc caller_pid (set_any_child_waiter (Some caller_tid) parent) o
      end
  end.

(** Taking a cached status: [if let Some(parent) = .. && let Some(code) = ..]. *)
Definition take_dead_child (target_pid caller_pid : Z) (o : Orbit) : option (Z * Orbit) :=
  parent ← get_proc caller_pid o;
  code ← bm_get target_pid (pr_dead_children parent);
  Some (code, put_proc caller_pid (set_dead_children (bm_remove target_pid (pr_dead_children parent)) parent) o).

Definition run_wait_pid_req (target caller_pid caller_tid : Z) (o : Orbit) : Orbit :=
  if target =? -1 then run_wait_any_child caller_pid caller_tid o
  else
    let target_pid := as_u16 target in
    match take_dead_child target_pid caller_pid o with
    | Some (code, o) => publish caller_tid [0; code] (Some target_pid) o
    | None =>
        match get_proc target_pid o with
        | None => publish_errno caller_tid errno.ECHILD o
        | Some t =>
            if negb (pr_parent_pid t =? caller_pid) then publish_errno caller_tid errno.EPERM o
            else if bool_decide (is_Some (pr_exit_waiter t)) then publish_errno caller_tid errno.EBUSY o
            else put_proc target_pid (set_exit_waiter (Some caller_tid) t) o
        end
    end.

(** ** Exit *)

(** The exit paths of [dealloc_process]; the process has left the table. *)
Definition report_exit (p : Process) (o : Orbit) : Orbit :=
  if pr_detached p then o
  else
    match pr_exit_waiter p with
    | Some waiter_tid => publish waiter_tid [0; pr_exit_code p] (Some (pr_pid p)) o
    | None =>
        match (if pr_parent_pid p =? 0 then None else get_proc (pr_parent_pid p) o) with
        | None => o
        | Some parent =>
            match pr_any_child_waiter parent with
            | Some waiter_tid =>
                publish waiter_tid [pr_pid p; pr_exit_code p] (Some (pr_pid p))
                  (put_proc (pr_parent_pid p) (set_any_child_waiter None parent) o)
            | None =>
                put_proc (pr_parent_pid p)
                  (set_dead_children (bm_insert (pr_pid p) (pr_exit_code p) (pr_dead_children parent)) parent) o
            end
        end
    end.

Definition remove_process (pid : Z) (o : Orbit) : Orbit :=
  match get_proc pid o with
  | None => o
  | Some p => report_exit p (mkOrbit (bm_remove pid (o_processes o)) (o_current_pid o) (o_out o))
  end.

(** What [request_exit_group] stamps on the process. *)
Definition stamp_exit (exit_code : Z) (p : Process) : Process := set_exit_finalized true (set_exit_code exit_code p).

(** The reaper's bookkeeping for an [Exited] thread: its tid leaves the set; a
    fault reports -1, a clean exit its [a1] unless the code is final. *)
Definition reap_thread_status (tid : Z) (faulted : bool) (status : Z) (p : Process) : Process :=
  let p := set_pr_threads (fst (bt_remove tid (pr_threads p))) p in
  if faulted then set_exit_code (-1) p
  else if negb (pr_exit_finalized p) then set_exit_code (as_i32 status) p else p.

(** ** The life of exit statuses *)

(** [w_used]: pids handed out; [w_exited]: processes gone, with parent, status
    and whether they were detached. *)
Record pworld := mkPworld { w_orbit : Orbit; w_used : list Z; w_exited : list (Z * Z * Z * bool) }.

Definition fresh_process (pid parent : Z) (detached : bool) (tid : Z) : Process :=
  mkProcess pid parent 0 false None None [] detached [tid] Permissions_ZERO 0 0 0 0 0 0 [] None [47] None None None.

Inductive pstep : pworld -> pworld -> Prop :=
| ps_spawn child parent detached tid o used ex :
    child <> 0 -> child ∉ used -> (parent = 0 \/ is_Some (get_proc parent o)) -> 
    pstep (mkPworld o used ex) (mkPworld (put_proc child (fresh_process child parent detached tid) o) (child :: used) ex)
| ps_wait target caller tid o used ex :
    is_Some (get_proc caller o) -> pstep (mkPworld o used ex) (mkPworld (run_wait_pid_req target caller tid o) used ex)
| ps_update pid p f o used ex :
    get_proc pid o = Some p ->
    (pr_pid (f p), pr_parent_pid (f p), pr_exit_waiter (f p), pr_any_child_waiter (f p), pr_dead_children (f p), pr_detached (f p)) =
    (pr_pid p, pr_parent_pid p, pr_exit_waiter p, pr_any_child_waiter p, pr_dead_children p, pr_detached p) ->
    pstep (mkPworld o used ex) (mkPworld (put_proc pid (f p) o) used ex)
| ps_exit pid p o used ex :
    get_proc pid o = Some p ->
    pstep (mkPworld o used ex) (mkPworld (remove_process pid o) used ((pid, pr_parent_pid p, pr_exit_code p, pr_detached p) :: ex)).

Definition pboot : pworld := mkPworld (mkOrbit [] 0 []) [] [].

(** The children whose status has been reported. *)
Definition reported (o : Orbit) : list Z := omap snd (o_out o).

Record pworld_ok (w : pworld) : Prop := {
  pk_key pid p : get_proc pid (w_orbit w) = Some p -> pr_pid p = pid /\ pid ∈ w_used w /\ pid <> 0;
  pk_gone c : c ∈ w_exited w -> c.1.1.1 ∈ w_used w /\ get_proc c.1.1.1 (w_orbit w) = None;
  pk_unique : NoDup ((fun c => c.1.1.1) <$> w_exited w);
  pk_once : NoDup (reported (w_orbit w));
  pk_reported c : c ∈ reported (w_orbit w) -> c ∈ (fun c => c.1.1.1) <$> w_exited w;
  pk_dead par p c code : get_proc par (w_orbit w) = Some p -> bm_get c (pr_dead_children p) = Some code ->
    (c, par, code, false) ∈ w_exited w /\ c ∉ reported (w_orbit w);
  pk_kept par p c code : get_proc par (w_orbit w) = Some p -> (c, par, code, false) ∈ w_exited w ->
    bm_get c (pr_dead_children p) = Some code \/ c ∈ reported (w_orbit w);
  pk_waiter par p : get_proc par (w_orbit w) = Some p -> is_Some (pr_any_child_waiter p) -> pr_dead_children p = [];
  pk_parent pid p : get_proc pid (w_orbit w) = Some p -> pr_parent_pid p = 0 \/ pr_parent_pid p ∈ w_used w;
  pk_xparent c : c ∈ w_exited w -> c.1.1.2 = 0 \/ c.1.1.2 ∈ w_used w;
}.

Lemma get_put pid pid' p o : get_proc pid' (put_proc pid p o) = if decide (pid' = pid) then Some p else get_proc pid' o.
Proof. apply bm_get_insert. Qed.

Lemma get_publish tid vs c pid o : get_proc pid (publish tid vs c o) = get_proc pid o.
Proof. done. Qed.

Lemma reported_publish tid vs c o : reported (publish tid vs c o) = reported o ++ option_list c.
Proof. unfold reported. cbn. rewrite omap_app. by destruct c. Qed.

Lemma reported_put pid p o : reported (put_proc pid p o) = reported o.
Proof. done. Qed.

(** A publication that reports nobody keeps everything. *)
Lemma publish_none_ok tid vs o used ex : pworld_ok (mkPworld o used ex) -> pworld_ok (mkPworld (publish tid vs None o) used ex).
Proof.
  intros []. assert (E : reported (publish tid vs None o) = reported o) by (rewrite reported_publish; apply app_nil_r).
  split; cbn [w_orbit w_used w_exited] in *; rewrite ?E; done.
Qed.

(** Updating a process without touching its children and its any-child slot. *)
Lemma put_same_ok pid p p' o used ex :
  pworld_ok (mkPworld o used ex) -> get_proc pid o = Some p -> pr_pid p' = pr_pid p -> pr_parent_pid p' = pr_parent_pid p ->
  pr_dead_children p' = pr_dead_children p -> (is_Some (pr_any_child_waiter p') -> pr_dead_children p' = []) ->
  pworld_ok (mkPworld (put_proc pid p' o) used ex).
Proof.
  intros [] Hg Hpid Hpar Hd Hw. split; cbn [w_orbit w_used w_exited] in *; try done.
  - intros pid' q. rewrite get_put. destruct (decide _) as [-> |]; [| apply pk_key0]. intros [= <-]. rewrite Hpid. by apply pk_key0.
  - intros c Hc. rewrite get_put. destruct (pk_gone0 c Hc) as [Hu Hn]. destruct (decide _); [congruence | done].
  - intros par q c code. rewrite get_put, reported_put. destruct (decide _) as [-> |]; [| apply pk_dead0].
    intros [= <-]. rewrite Hd. by apply pk_dead0.
  - intros par q c code. rewrite get_put, reported_put. destruct (decide _) as [-> |]; [| apply pk_kept0].
    intros [= <-]. rewrite Hd. by apply pk_kept0.
  - intros par q. rewrite get_put. destruct (decide _) as [-> |]; [| apply pk_waiter0]. by intros [= <-].
  - intros q a. rewrite get_put. destruct (decide _) as [-> |]; [| apply pk_parent0]. intros [= <-]. rewrite Hpar. by apply (pk_parent0 pid).
Qed.

(** A cached status is taken and reported. *)
Lemma take_ok pid p c code tid vs o used ex :
  pworld_ok (mkPworld o used ex) -> get_proc pid o = Some p -> bm_get c (pr_dead_children p) = Some code ->
  pworld_ok (mkPworld (publish tid vs (Some c) (put_proc pid (set_dead_children (bm_remove c (pr_dead_children p)) p) o)) used ex).
Proof.
  intros [] Hg Hc. cbn [w_orbit w_used w_exited] in *. destruct (pk_dead0 pid p c code Hg Hc) as [Hex Hnr].
  split; cbn [w_orbit w_used w_exited]; try done.
  - intros pid' q. rewrite get_publish, get_put. destruct (decide _) as [-> |]; [| apply pk_key0]. intros [= <-]. exact (pk_key0 _ _ Hg).
  - intros e He. rewrite get_publish, get_put. destruct (pk_gone0 e He) as [Hu Hn]. destruct (decide _); [congruence | done].
  - rewrite reported_publish, reported_put. cbn. apply NoDup_app. split_and!; [done | | apply NoDup_singleton]. intros x Hx ->%list_elem_of_singleton. done.
  - intros c'. rewrite reported_publish, reported_put. cbn. rewrite elem_of_app, list_elem_of_singleton. intros [? | ->]; [by apply pk_reported0 |].
    apply list_elem_of_fmap. exists (c, pid, code, false). done.
  - intros par q c' code'. rewrite get_publish, get_put, reported_publish, reported_put. cbn. rewrite elem_of_app, list_elem_of_singleton.
    destruct (decide _) as [-> |].
    + intros [= <-]. cbn. rewrite bm_get_remove. destruct (decide (c' = c)) as [-> | Hne]; [done |]. intros Hc'.
      destruct (pk_dead0 pid p c' code' Hg Hc') as [? ?]. split; [done |]. by intros [? | ?].
    + intros Hq Hc'. destruct (pk_dead0 par q c' code' Hq Hc') as [Hex' Hr']. split; [done |]. intros [? | ->]; [done |].
      assert (Heq : (c, pid, code, false) = (c, par, code', false)); [| congruence].
      by apply (NoDup_fmap_eq (fun c : Z * Z * Z * bool => c.1.1.1) ex).
  - intros par q c' code'. rewrite get_publish, get_put, reported_publish, reported_put. cbn. rewrite elem_of_app, list_elem_of_singleton.
    destruct (decide _) as [-> |].
    + intros [= <-] Hex'. cbn. rewrite bm_get_remove. destruct (decide (c' = c)) as [-> | Hne]; [by right; right |].
      destruct (pk_kept0 pid p c' code' Hg Hex'); auto.
    + intros Hq Hex'. destruct (pk_kept0 par q c' code' Hq Hex'); auto.
  - intros par q. rewrite get_publish, get_put. destruct (decide _) as [-> |]; [| apply pk_waiter0]. intros [= <-] Hw.
    cbn in Hw |- *. rewrite (pk_waiter0 pid p Hg Hw). done.
  - intros q a. rewrite get_publish, get_put. destruct (decide _) as [-> |]; [| apply pk_parent0]. intros [= <-]. exact (pk_parent0 pid p Hg).
Qed.

(** Removing a process: its own table entry goes, with its cached statuses. *)
Lemma gone_ok pid p o used ex :
  pworld_ok (mkPworld o used ex) -> get_proc pid o = Some p ->
  let o1 := mkOrbit (bm_remove pid (o_processes o)) (o_current_pid o) (o_out o) in
  (forall q, get_proc q o1 = if decide (q = pid) then None else get_proc q o) /\ reported o1 = reported o /\
  pid ∉ (fun c : Z * Z * Z * bool => c.1.1.1) <$> ex /\ pid ∉ reported o.
Proof.
  intros Hok Hg o1. split; [intros q; apply bm_get_remove |]. split; [done |].
  assert (Hni : pid ∉ (fun c : Z * Z * Z * bool => c.1.1.1) <$> ex).
  { intros (c & -> & Hc)%list_elem_of_fmap. destruct (pk_gone _ Hok c Hc) as [_ Hn]. cbn in Hn. congruence. }
  split; [done |]. intros Hr. by apply (pk_reported _ Hok) in Hr.
Qed.

(** After an exit: [dc par] is what the cached statuses of [par] become and [rep]
    the children newly reported. *)
Lemma exit_ok pid p o o' used ex rep :
  pworld_ok (mkPworld o used ex) -> get_proc pid o = Some p ->
  reported o' = reported o ++ rep -> (rep = [] \/ rep = [pid]) ->
  (forall q, q <> pid -> match get_proc q o, get_proc q o' with
     | Some a, Some b =>
         pr_pid b = pr_pid a /\ pr_parent_pid b = pr_parent_pid a /\
         (pr_any_child_waiter b = pr_any_child_waiter a \/ pr_any_child_waiter b = None) /\
         (pr_dead_children b = pr_dead_children a \/
          (pr_dead_children b = bm_insert pid (pr_exit_code p) (pr_dead_children a) /\ q = pr_parent_pid p /\
           pr_detached p = false /\ rep = [] /\ pr_any_child_waiter a = None)) /\
         (q = pr_parent_pid p -> pr_detached p = false -> rep = [] -> pr_dead_children b = bm_insert pid (pr_exit_code p) (pr_dead_children a))
     | None, None => True
     | _, _ => False
     end) ->
  get_proc pid o' = None ->
  pworld_ok (mkPworld o' used ((pid, pr_parent_pid p, pr_exit_code p, pr_detached p) :: ex)).
Proof.
  intros Hok Hg Hrep Hrp Hq Hnone. destruct (gone_ok pid p o used ex Hok Hg) as (_ & _ & Hnex & Hnrep).
  pose proof Hok as [Hkey Hgone Huniq Honce Hreported Hdead Hkept Hwaiter Hparent Hxparent]. cbn [w_orbit w_used w_exited] in *.
  assert (Hinv : forall q b, get_proc q o' = Some b -> q <> pid /\ exists a, get_proc q o = Some a).
  { intros q b Hb. destruct (decide (q = pid)) as [-> | Hne]; [congruence |]. split; [done |].
    specialize (Hq q Hne). rewrite Hb in Hq. destruct (get_proc q o); [eauto | done]. }
  assert (Hc : forall c, c ∈ rep -> c = pid) by (destruct Hrp as [-> | ->]; set_solver).
  split; cbn [w_orbit w_used w_exited]; rewrite ?Hrep.
  - intros q b Hb. destruct (Hinv q b Hb) as (Hne & a & Ha). specialize (Hq q Hne). rewrite Ha, Hb in Hq.
    destruct Hq as (-> & _). by apply Hkey.
  - intros c [-> | Hin]%elem_of_cons; [split; [by apply (Hkey pid p) | done] |].
    destruct (Hgone c Hin) as [Hu Hn]. split; [done |]. destruct (get_proc c.1.1.1 o') as [b |] eqn:Eb; [| done].
    destruct (Hinv _ _ Eb) as (_ & a & Ha). congruence.
  - simpl. by apply NoDup_cons.
  - apply NoDup_app. split_and!; [done | | destruct Hrp as [-> | ->]; [constructor | apply NoDup_singleton]].
    intros x Hx Hx'. apply Hc in Hx' as ->. done.
  - intros c [Hin | Hin]%elem_of_app; simpl; apply elem_of_cons; [right; by apply Hreported | left; by apply Hc].
  - intros par b c code Hb Hd. destruct (Hinv par b Hb) as (Hne & a & Ha). specialize (Hq par Hne). rewrite Ha, Hb in Hq.
    destruct Hq as (_ & _ & _ & Hdc & _). assert (Hold : forall code, bm_get c (pr_dead_children a) = Some code ->
      (c, par, code, false) ∈ (pid, pr_parent_pid p, pr_exit_code p, pr_detached p) :: ex /\ c ∉ reported o ++ rep).
    { intros code' Hd'. destruct (Hdead par a c code' Ha Hd') as [Hex Hnr]. split; [by apply elem_of_cons; right |].
      intros [? | Hin]%elem_of_app; [done |]. apply Hc in Hin as ->. apply Hnex. apply list_elem_of_fmap. by exists (pid, par, code', false). }
    destruct Hdc as [E | (E & -> & Edet & -> & _)]; rewrite E in Hd; [by apply Hold |].
    rewrite bm_get_insert in Hd. destruct (decide (c = pid)) as [-> |]; [| by apply Hold]. injection Hd as <-.
    rewrite Edet, app_nil_r. split; [apply elem_of_cons; by left | done].
  - intros par b c code Hb Hex. destruct (Hinv par b Hb) as (Hne & a & Ha). specialize (Hq par Hne). rewrite Ha, Hb in Hq.
    destruct Hq as (_ & _ & _ & Hdc & Hnew). rewrite elem_of_app. apply elem_of_cons in Hex as [[= -> -> -> Edet] | Hex].
    + destruct Hrp as [-> | ->]; [| right; right; set_solver]. left. rewrite Hnew by done. by rewrite bm_get_insert_eq.
    + assert (Hcp : c <> pid) by (intros ->; apply Hnex; apply list_elem_of_fmap; by exists (pid, par, code, false)).
      destruct (Hkept par a c code Ha Hex) as [Hd | Hr]; [| by right; left]. left.
      destruct Hdc as [-> | (-> & _)]; [done |]. by rewrite bm_get_insert_ne.
  - intros par b Hb Hw. destruct (Hinv par b Hb) as (Hne & a & Ha). specialize (Hq par Hne). rewrite Ha, Hb in Hq.
    destruct Hq as (_ & _ & Hwt & Hdc & _). destruct Hwt as [Hwt | Hwt]; [| by rewrite Hwt in Hw; destruct Hw].
    rewrite Hwt in Hw. destruct Hdc as [-> | (_ & _ & _ & _ & Hn)]; [by apply (Hwaiter par) |]. rewrite Hn in Hw. by destruct Hw.
  - intros q b Hb. destruct (Hinv q b Hb) as (Hne & a & Ha). specialize (Hq q Hne). rewrite Ha, Hb in Hq.
    destruct Hq as (_ & -> & _). by apply (Hparent q).
  - intros c [-> | Hin]%elem_of_cons; [by apply (Hparent pid) | by apply Hxparent].
Qed.

Lemma remove_process_ok pid p o used ex :
  pworld_ok (mkPworld o used ex) -> get_proc pid o = Some p ->
  pworld_ok (mkPworld (remove_process pid o) used ((pid, pr_parent_pid p, pr_exit_code p, pr_detached p) :: ex)).
Proof.
  intros Hok Hg. destruct (gone_ok pid p o used ex Hok Hg) as (Hget & Hrep1 & _ & _).
  destruct (pk_key _ Hok pid p Hg) as (Hpid & _ & Hz). unfold remove_process. rewrite Hg.
  set (o1 := mkOrbit (bm_remove pid (o_processes o)) (o_current_pid o) (o_out o)) in *. unfold report_exit. rewrite Hpid.
  assert (Hsame : forall q, q <> pid -> get_proc q o1 = get_proc q o) by (intros q Hq; by rewrite Hget, decide_False).
  assert (Hnone : get_proc pid o1 = None) by (by rewrite Hget, decide_True).
  destruct (pr_detached p) eqn:Edet.
  { rewrite <- Edet. apply (exit_ok pid p o o1 used ex []); try done; [by rewrite app_nil_r | by left |].
    intros q Hq. rewrite Hsame by done. destruct (get_proc q o); [| done]. split_and!; auto. congruence. }
  rewrite <- Edet. destruct (pr_exit_waiter p) as [wt |].
  { apply (exit_ok pid p o _ used ex [pid]); try done; [by rewrite reported_publish | by right |].
    intros q Hq. rewrite get_publish, Hsame by done. destruct (get_proc q o); [| done]. split_and!; auto. congruence. }
  assert (Hdrop : (forall a, get_proc (pr_parent_pid p) o = Some a -> pr_parent_pid p = 0 \/ pr_parent_pid p = pid) ->
            pworld_ok (mkPworld o1 used ((pid, pr_parent_pid p, pr_exit_code p, pr_detached p) :: ex))).
  { intros Hno. apply (exit_ok pid p o o1 used ex []); try done; [by rewrite app_nil_r | by left |].
    intros q Hq. rewrite Hsame by done. destruct (get_proc q o) as [a |] eqn:Ea; [| done]. split_and!; auto.
    intros -> _ _. destruct (Hno a Ea) as [E | E]; [| done]. rewrite E in Ea. by destruct (pk_key _ Hok 0 a Ea) as (_ & _ & ?). }
  destruct (Z.eqb_spec (pr_parent_pid p) 0) as [Ez |]; [apply Hdrop; auto |].
  destruct (decide (pr_parent_pid p = pid)) as [Eself | Hpp]; [rewrite Eself at 1; rewrite Hnone; apply Hdrop; auto |].
  rewrite Hsame by done. destruct (get_proc (pr_parent_pid p) o) as [parent |] eqn:Epar; [| by apply Hdrop].
  destruct (pr_any_child_waiter parent) as [wt |] eqn:Ew.
  - apply (exit_ok pid p o _ used ex [pid]); try done; [by rewrite reported_publish, reported_put | by right | |].
    + intros q Hq. rewrite get_publish, get_put. destruct (decide (q = pr_parent_pid p)) as [-> |].
      * rewrite Epar. split_and!; auto. congruence.
      * rewrite Hsame by done. destruct (get_proc q o); [| done]. split_and!; auto. congruence.
    + rewrite get_publish, get_put, decide_False by done. done.
  - apply (exit_ok pid p o _ used ex []); try done; [by rewrite reported_put, app_nil_r | by left | |].
    + intros q Hq. rewrite get_put. destruct (decide (q = pr_parent_pid p)) as [-> |].
      * rewrite Epar. split_and!; auto. right. by split_and!.
      * rewrite Hsame by done. destruct (get_proc q o); [| done]. split_and!; auto. congruence.
    + rewrite get_put, decide_False by done. done.
Qed.

Lemma wait_ok target caller tid o used ex :
  pworld_ok (mkPworld o used ex) -> pworld_ok (mkPworld (run_wait_pid_req target caller tid o) used ex).
Proof.
  intros Hok. unfold run_wait_pid_req. destruct (target =? -1).
  - unfold run_wait_any_child. destruct (get_proc caller o) as [parent |] eqn:Ep; [| by apply publish_none_ok].
    destruct (pr_dead_children parent) as [| [c code] rest] eqn:Ed; cbn [pop_first].
    + destruct (bool_decide _); [by apply publish_none_ok |]. destruct (existsb _ _); [| by apply publish_none_ok].
      eapply put_same_ok; try done.
    + rewrite <- Ed. eapply take_ok; [done | done |]. rewrite Ed, bm_get_cons, decide_True by done. done.
  - destruct (take_dead_child (as_u16 target) caller o) as [[code o1] |] eqn:Et.
    + unfold take_dead_child in Et. destruct (get_proc caller o) as [parent |] eqn:Ep; [| done]. cbn in Et.
      destruct (bm_get (as_u16 target) (pr_dead_children parent)) as [code' |] eqn:Ec; [| done]. injection Et as <- <-.
      by eapply take_ok.
    + destruct (get_proc (as_u16 target) o) as [t |] eqn:Eg; [| by apply publish_none_ok].
      destruct (negb _); [by apply publish_none_ok |]. destruct (bool_decide _); [by apply publish_none_ok |].
      eapply put_same_ok; try done. intros Hw. by apply (pk_waiter _ Hok (as_u16 target) t).
Qed.

Lemma pstep_ok w w' : pworld_ok w -> pstep w w' -> pworld_ok w'.
Proof.
  intros Hok Hstep. destruct Hstep as [child parent detached tid o used ex Hz Hfresh Hpar | | pid p f o used ex Hg Hf | ].
  - pose proof Hok as [Hkey Hgone Huniq Honce Hreported Hdead Hkept Hwaiter Hparent Hxparent]. cbn [w_orbit w_used w_exited] in *.
    assert (Hnex : forall c, c ∈ ex -> c.1.1.1 <> child) by (intros c Hc E; apply Hfresh; rewrite <- E; by apply Hgone).
    split; cbn [w_orbit w_used w_exited]; rewrite ?reported_put; try done.
    + intros q a. rewrite get_put. destruct (decide _) as [-> |]; [intros [= <-]; set_solver |]. intros Ha.
      destruct (Hkey q a Ha) as (? & ? & ?). split_and!; try done. by apply elem_of_cons; right.
    + intros c Hc. rewrite get_put. destruct (Hgone c Hc) as [? ?]. split; [by apply elem_of_cons; right |].
      rewrite decide_False; [done |]. by apply Hnex.
    + intros par a c code. rewrite get_put. destruct (decide _) as [-> |]; [by intros [= <-] | apply Hdead].
    + intros par a c code. rewrite get_put. destruct (decide _) as [-> |]; [| apply Hkept]. intros _ Hex.
      by destruct (Hxparent _ Hex) as [E | E].
    + intros par a. rewrite get_put. destruct (decide _) as [-> |]; [by intros [= <-] | apply Hwaiter].
    + intros q a. rewrite get_put. destruct (decide _) as [-> |].
      * intros [= <-]. cbn. destruct Hpar as [-> | [a Ha]]; [by left |]. right. apply elem_of_cons. right. by apply (Hkey parent a).
      * intros Ha. destruct (Hparent q a Ha); [by left |]. right. by apply elem_of_cons; right.
    + intros c Hc. destruct (Hxparent c Hc); [by left |]. right. by apply elem_of_cons; right.
  - by apply wait_ok.
  - injection Hf as Hf1 Hf2 Hf3 Hf4 Hf5 Hf6. eapply put_same_ok; try done. rewrite Hf4, Hf5. by apply (pk_waiter _ Hok pid).
  - by apply remove_process_ok.
Qed.

Lemma pworld_reachable w : rtc pstep pboot w -> pworld_ok w.
Proof.
  intros Hr. assert (Hb : pworld_ok pboot) by (split; try done; [intros c Hc; set_solver | apply NoDup_nil_2 | apply NoDup_nil_2 | intros c Hc; set_solver]).
  revert Hb. generalize pboot Hr. clear Hr. intros w0 Hr.
  induction Hr as [| w1 w2 w3 Hs _ IH]; [done |]. intros H1. apply IH. by eapply pstep_ok.
Qed.

(** ** The pid search *)

(** The pids the search tries from [s >= 1]: up to the top, then from 1 again. *)
Definition nth_pid (s : Z) (i : nat) : Z := (s - 1 + Z.of_nat i) mod (2 ^ 16 - 1) + 1.

Lemma nth_pid_next s i :
  let n := as_u16 (nth_pid s i + 1) in (if n =? 0 then 1 else n) = nth_pid s (S i).
Proof.
  unfold nth_pid, as_u16. cbv zeta.
  pose proof (Z.mod_pos_bound (s - 1 + Z.of_nat i) (2 ^ 16 - 1) ltac:(lia)) as Hm.
  replace (s - 1 + Z.of_nat (S i)) with (s - 1 + Z.of_nat i + 1) by lia.
  rewrite <- (Zplus_mod_idemp_l (s - 1 + Z.of_nat i) 1 (2 ^ 16 - 1)).
  set (m := (s - 1 + Z.of_nat i) mod (2 ^ 16 - 1)) in *.
  destruct (decide (m = 2 ^ 16 - 2)) as [-> | Hne]; [vm_compute; reflexivity |].
  rewrite (Z.mod_small (m + 1 + 1)), (Z.mod_small (m + 1)) by lia. destruct (Z.eqb_spec (m + 1 + 1) 0); lia.
Qed.

Lemma nth_pid_inj s i j : Z.of_nat i < 65535 -> Z.of_nat j < 65535 -> nth_pid s i = nth_pid s j -> i = j.
Proof.
  unfold nth_pid. change (2 ^ 16 - 1) with 65535. intros Hi Hj E. assert (Em : (s - 1 + Z.of_nat i) mod 65535 = (s - 1 + Z.of_nat j) mod 65535) by lia.
  pose proof (Z.div_mod (s - 1 + Z.of_nat i) 65535 ltac:(lia)) as E1. pose proof (Z.div_mod (s - 1 + Z.of_nat j) 65535 ltac:(lia)) as E2.
  rewrite Em in E1. set (a := (s - 1 + Z.of_nat i) / 65535) in *. set (b := (s - 1 + Z.of_nat j) / 65535) in *.
  assert (a = b) by lia. lia.
Qed.

Lemma search_fails fuel s i o : next_pid_loop fuel (nth_pid s i) o = None -> forall j, (j < fuel)%nat -> is_Some (get_proc (nth_pid s (i + j)) o).
Proof.
  revert i. induction fuel as [| fuel IH]; intros i; cbn [next_pid_loop]; [lia |].
  destruct (get_proc (nth_pid s i) o) as [p |] eqn:E; [| done]. cbv zeta. rewrite nth_pid_next. intros Hf [| j] Hj.
  - rewrite Nat.add_0_r. eauto.
  - replace (i + S j)%nat with (S i + j)%nat by lia. apply (IH (S i)); [done | lia].
Qed.

Lemma bm_get_key {V} k (v : V) m : bm_get k m = Some v -> k ∈ m.*1.
Proof.
  induction m as [| [k' v'] m IH]; [done |]. rewrite bm_get_cons. simpl. rewrite elem_of_cons.
  destruct (decide _) as [-> |]; [by left | right; auto].
Qed.

Lemma search_succeeds fuel s o :
  (length (o_processes o) < fuel)%nat -> Z.of_nat (length (o_processes o)) < 65535 -> is_Some (next_pid_loop fuel (nth_pid s 0) o).
Proof.
  intros Hf Hl. destruct (next_pid_loop fuel (nth_pid s 0) o) eqn:E; [eauto |]. exfalso.
  set (n := S (length (o_processes o))). assert (Hsub : nth_pid s <$> seq 0 n ⊆+ (o_processes o).*1).
  { apply NoDup_submseteq.
    - apply NoDup_fmap_2_strong; [| apply NoDup_seq]. intros x y. rewrite !elem_of_seq. intros. apply (nth_pid_inj s); lia.
    - intros x (i & -> & Hi)%list_elem_of_fmap. apply elem_of_seq in Hi.
      destruct (search_fails fuel s 0 o E i ltac:(lia)) as [p Hp]. simpl in Hp. by apply bm_get_key in Hp. }
  apply submseteq_length in Hsub. rewrite !length_fmap, length_seq in Hsub. unfold n in Hsub. lia.
Qed.

Lemma search_from fuel s o :
  (length (o_processes o) < fuel)%nat -> Z.of_nat (length (o_processes o)) < 65535 -> s = 0 \/ 1 <= s <= 2 ^ 16 - 1 ->
  is_Some (next_pid_loop (fuel + 1) s o).
Proof.
  intros Hf Hl [-> | Hs].
  - rewrite Nat.add_1_r. cbn [next_pid_loop]. destruct (get_proc 0 o); [| eauto].
    change (if as_u16 (0 + 1) =? 0 then 1 else as_u16 (0 + 1)) with (nth_pid 1 0). by apply search_succeeds.
  - replace s with (nth_pid s 0); [apply search_succeeds; lia |]. unfold nth_pid. rewrite Z.add_0_r, Z.mod_small; lia.
Qed.

Lemma search_result fuel next o pid :
  next_pid_loop fuel next o = Some pid -> get_proc pid o = None /\ (pid = 0 -> next = 0).
Proof.
  revert next. induction fuel as [| fuel IH]; intros next; cbn [next_pid_loop]; [done |].
  destruct (get_proc next o) eqn:E; [| intros [= <-]; done]. cbv zeta. intros Hf. destruct (IH _ Hf) as [? Hz]. split; [done |].
  intros ->. specialize (Hz eq_refl). destruct (Z.eqb_spec (as_u16 (next + 1)) 0); [done |]. done.
Qed.

(** ** Properties *)


(** The pid search ends and finds a free pid: with fewer than 65535 processes
    [next_pid] returns a 16-bit pid that names no process, remembers it, and
    changes nothing else; it is 0 only when the cursor stands at 65535. *)
Theorem next_pid_fresh o :
  Z.of_nat (length (o_processes o)) < 65535 -> 0 <= o_current_pid o < 2 ^ 16 ->
  exists pid, next_pid o = Some (pid, mkOrbit (o_processes o) pid (o_out o)) /\ get_proc pid o = None /\
    (pid = 0 -> o_current_pid o = 2 ^ 16 - 1).
Proof.
  intros Hl Hc. unfold next_pid. set (s := as_u16 (o_current_pid o + 1)).
  assert (Hs : s = 0 \/ 1 <= s <= 2 ^ 16 - 1) by (unfold s, as_u16; pose proof (Z.mod_pos_bound (o_current_pid o + 1) (2 ^ 16) ltac:(lia)); lia).
  assert (Hfind : is_Some (next_pid_loop (Z.to_nat (2 ^ 16) + 1) s o)) by (apply search_from; [lia | done | done]).
  destruct Hfind as [pid Hp]. rewrite Hp. exists pid. destruct (search_result _ _ _ _ Hp) as [Hn Hz]. split; [done |]. split; [done |].
  intros ->. specialize (Hz eq_refl). unfold s, as_u16 in Hz. destruct (decide (o_current_pid o = 2 ^ 16 - 1)); [done |].
  rewrite Z.mod_small in Hz; lia.
Qed.

(** An exit-group code is final for clean exits: after [request_exit_group]
    stamps it, reaping any threads that exited cleanly leaves it in place; a
    thread that faulted still replaces it with -1. *)
Theorem exit_code_final code reaps (p : Process) :
  let p' := foldl (fun p r => reap_thread_status r.1.1 r.1.2 r.2 p) (stamp_exit code p) reaps in
  pr_exit_code p' = (if existsb (fun r : Z * bool * Z => r.1.2) reaps then -1 else code) /\ pr_exit_finalized p' = true.
Proof.
  cbv zeta. assert (Hgen : forall reaps q, pr_exit_finalized q = true ->
    pr_exit_code (foldl (fun p r => reap_thread_status r.1.1 r.1.2 r.2 p) q reaps) =
      (if existsb (fun r : Z * bool * Z => r.1.2) reaps then -1 else pr_exit_code q) /\
    pr_exit_finalized (foldl (fun p r => reap_thread_status r.1.1 r.1.2 r.2 p) q reaps) = true).
  { clear. intros reaps. induction reaps as [| [[tid faulted] st] reaps IH]; intros q Hq; [done |]. cbn [foldl existsb fst snd].
    destruct (IH (reap_thread_status tid faulted st q)) as [-> ->].
    - unfold reap_thread_status. destruct faulted; [done |]. cbn. by rewrite Hq.
    - split; [| done]. unfold reap_thread_status. destruct faulted; cbn [orb]; [by destruct (existsb _ _) |].
      cbn [set_pr_threads pr_exit_finalized]. rewrite Hq. done. }
  by apply Hgen.
Qed.

(** ** Runs *)

(** Process 1 waits for its detached child 2, which exits: nobody is told. *)
Example detached_wait_hangs :
  let o := put_proc 2 (fresh_process 2 1 true 20) (put_proc 1 (fresh_process 1 0 false 10) (mkOrbit [] 0 [])) in
  let parked := run_wait_pid_req 2 1 10 o in
  (pr_exit_waiter <$> get_proc 2 parked) = Some (Some 10) /\ o_out (remove_process 2 parked) = [].
Proof. split; reflexivity. Qed.

(** Two threads of process 1 wait, one for any child and one for child 2, its only
    one: the exit answers the second, the first stays parked with no child left. *)
Example any_waiter_starves :
  let o := put_proc 2 (fresh_process 2 1 false 20) (put_proc 1 (fresh_process 1 0 false 10) (mkOrbit [] 0 [])) in
  let done := remove_process 2 (run_wait_pid_req 2 1 11 (run_wait_pid_req (-1) 1 10 o)) in
  o_out done = [(11, [0; 0], Some 2)] /\ map fst (o_processes done) = [1] /\
  (pr_any_child_waiter <$> get_proc 1 done) = Some (Some 10).
Proof. split_and!; reflexivity. Qed.

(** The cursor at the top and no collision: the search returns pid 0. *)
Example next_pid_zero : fst <$> next_pid (mkOrbit [] 65535 []) = Some 0.
Proof. vm_compute. reflexivity. Qed.

Lemma next_pid_fresh_witness : exists pid, next_pid (mkOrbit [(1, fresh_process 1 0 false 10)] 0 []) =
  Some (pid, mkOrbit [(1, fresh_process 1 0 false 10)] pid []).
Proof.
  destruct (next_pid_fresh (mkOrbit [(1, fresh_process 1 0 false 10)] 0 []) ltac:(simpl; lia) ltac:(simpl; lia)) as (pid & Hn & _).
  exists pid. exact Hn.
Defined.

Definition family : Orbit := put_proc 2 (fresh_process 2 1 false 20) (put_proc 1 (fresh_process 1 0 false 10) (mkOrbit [] 0 [])).

