(* ===== verification/Creds.v ===== *)
(** * Credentials

    Models the credential calls of [kmain/src/kernel/mod.rs] ([run_setuid],
    [run_setgid], [run_setgroups], [run_setlogin], [run_pledge_req]) on the process
    record and the snapshots its threads hold, and the access check [vaccess] of
    [orbit-abi/src/fs.rs]. The user buffers the calls read are arguments: the bytes
    found, or the failure to translate them. *)

From stdpp Require Import base list option numbers sets gmap.
From S2P Require Import Prelude Layout Abi Perms Thread Work Syscall Process.
#[local] Open Scope Z_scope.

(** The process table and the registered threads. *)
Record CredState := mkCred { cr_procs : list (Z * Process); cr_threads : list (Z * Thread) }.

Definition cr_put (pid : Z) (p : Process) (s : CredState) : CredState := mkCred (bm_insert pid p (cr_procs s)) (cr_threads s).

(** The walk that refreshes the snapshots: [if let Some(pt) = manager.thread(tid)]. *)
Definition refresh (f : Thread -> Thread) (tids : list Z) (s : CredState) : CredState :=
  foldl (fun s tid =>
    match bm_get tid (cr_threads s) with
    | Some t => mkCred (cr_procs s) (bm_insert tid (f t) (cr_threads s))
    | None => s
    end) s tids.

Definition run_setuid (pid uid : Z) (s : CredState) : Z * CredState :=
  match bm_get pid (cr_procs s) with
  | None => (to_ret errno.ESRCH, s)
  | Some p =>
      let change p :=
        let s := cr_put pid p s in
        (0, refresh (set_uid_triplet (pr_uid p) (pr_euid p) (pr_suid p)) (pr_threads p) s) in
      if pr_euid p =? 0 then change (set_pr_suid uid (set_pr_euid uid (set_pr_uid uid p)))
      else if ((uid =? pr_uid p) || (uid =? pr_suid p))%bool then change (set_pr_euid uid p)
      else (to_ret errno.EPERM, s)
  end.

Definition run_setgid (pid gid : Z) (s : CredState) : Z * CredState :=
  match bm_get pid (cr_procs s) with
  | None => (to_ret errno.ESRCH, s)
  | Some p =>
      let change p :=
        let s := cr_put pid p s in
        (0, refresh (set_gid_triplet (pr_gid p) (pr_egid p) (pr_sgid p)) (pr_threads p) s) in
      if pr_euid p =? 0 then change (set_pr_sgid gid (set_pr_egid gid (set_pr_gid gid p)))
      else if ((gid =? pr_gid p) || (gid =? pr_sgid p))%bool then change (set_pr_egid gid p)
      else (to_ret errno.EPERM, s)
  end.

(** [chunks_exact(4)] and [u32::from_le_bytes]. *)
Fixpoint le_words (bytes : list Z) : list Z :=
  match bytes with
  | b0 :: b1 :: b2 :: b3 :: rest => b0 + 256 * b1 + 65536 * b2 + 16777216 * b3 :: le_words rest
  | _ => []
  end.

(** [page]: what the user's page map gives for the buffer, [None] untranslated. *)
Definition run_setgroups (page : option (list Z)) (pid buf_vaddr count : Z) (s : CredState) : Z * CredState :=
  if NGROUPS_MAX <? count then (to_ret errno.EINVAL, s)
  else
    match bm_get pid (cr_procs s) with
    | None => (to_ret errno.ESRCH, s)
    | Some p =>
        if negb (pr_euid p =? 0) then (to_ret errno.EPERM, s)
        else
          let bytes := count * 4 in
          if 0 <? count then
            if negb (user_range_ok buf_vaddr bytes) then (to_ret errno.EFAULT, s)
            else if UPAGE_SIZE <? Z.land buf_vaddr (UPAGE_SIZE - 1) + bytes then (to_ret errno.EINVAL, s)
            else
              match page with
              | None => (to_ret errno.EFAULT, s)
              | Some l => (0, cr_put pid (set_pr_groups (le_words (take (Z.to_nat bytes) l)) p) s)
              end
          else (0, cr_put pid (set_pr_groups [] p) s)
    end.

(** [name]: the outcome of [copy_user_path]. *)
Definition run_setlogin (name : result (list Z) Z) (pid name_vaddr name_len : Z) (s : CredState) : Z * CredState :=
  if ((name_len =? 0) || (MAX_LOGIN_NAME <? name_len))%bool then (to_ret errno.ENAMETOOLONG, s)
  else
    match bm_get pid (cr_procs s) with
    | None => (to_ret errno.ESRCH, s)
    | Some p =>
        if negb (pr_euid p =? 0) then (to_ret errno.EPERM, s)
        else if negb (user_range_ok name_vaddr name_len) then (to_ret errno.EFAULT, s)
        else
          match name with
          | Err e => (e, s)
          | Ok n => (0, cr_put pid (set_pr_login_name (Some n) p) s)
          end
    end.

(** [request]: the structure read from the user's page, [None] untranslated. *)
Definition run_pledge_req (request : option PermsRequest) (pid : Z) (s : CredState) : Z * CredState :=
  match request with
  | None => (to_ret errno.EFAULT, s)
  | Some r =>
      match bm_get pid (cr_procs s) with
      | None => (to_ret errno.ESRCH, s)
      | Some p =>
          let p := set_pr_permissions (pledge (pr_permissions p) r) p in
          (0, refresh (set_permissions (pr_permissions p)) (pr_threads p) (cr_put pid p s))
      end
  end.

(** [vaccess] reads three fields of [Stat]. *)
Record Stat := mkStat { st_mode : Z; st_uid : Z; st_gid : Z }.

Definition vaccess (euid egid : Z) (groups : list Z) (st : Stat) (want : Z) : result unit Z :=
  if euid =? 0 then Ok tt
  else
    let bits :=
      if euid =? st_uid st then Z.land (Z.shiftr (st_mode st) 6) 7
      else if ((egid =? st_gid st) || bool_decide (st_gid st ∈ groups))%bool then Z.land (Z.shiftr (st_mode st) 3) 7
      else Z.land (st_mode st) 7 in
    if Z.land bits want =? want then Ok tt else Err errno.EACCES.

Definition vaccess_pid (pid : Z) (st : Stat) (want : Z) (s : CredState) : result unit Z :=
  match bm_get pid (cr_procs s) with
  | None => Err (to_ret errno.ESRCH)
  | Some p => match vaccess (pr_euid p) (pr_egid p) (pr_groups p) st want with Ok _ => Ok tt | Err e => Err (to_ret e) end
  end.

(** ** What a credential call may do *)

(** The calls, by process, as the manager serves them. *)
Inductive cred_op :=
| OSetUid (pid uid : Z)
| OSetGid (pid gid : Z)
| OSetGroups (page : option (list Z)) (pid buf_vaddr count : Z)
| OSetLogin (name : result (list Z) Z) (pid name_vaddr name_len : Z)
| OPledge (request : option PermsRequest) (pid : Z).

Definition run_cred (op : cred_op) (s : CredState) : CredState :=
  match op with
  | OSetUid pid uid => snd (run_setuid pid uid s)
  | OSetGid pid gid => snd (run_setgid pid gid s)
  | OSetGroups page pid va n => snd (run_setgroups page pid va n s)
  | OSetLogin name pid va n => snd (run_setlogin name pid va n s)
  | OPledge r pid => snd (run_pledge_req r pid s)
  end.

Lemma refresh_procs f tids s : cr_procs (refresh f tids s) = cr_procs s.
Proof.
  unfold refresh. revert s. induction tids as [| tid tids IH]; intros s; [done |]. simpl. rewrite IH.
  by destruct (bm_get tid (cr_threads s)).
Qed.

(** Refreshing touches the listed threads only, each with [f]. *)
Lemma refresh_get f tids tid s :
  (forall t, f (f t) = f t) ->
  bm_get tid (cr_threads (refresh f tids s)) = if bool_decide (tid ∈ tids) then f <$> bm_get tid (cr_threads s) else bm_get tid (cr_threads s).
Proof.
  intros Hid. unfold refresh. revert s. induction tids as [| x tids IH]; intros s; [done |]. simpl. rewrite IH. clear IH.
  destruct (bm_get x (cr_threads s)) as [t |] eqn:E.
  - cbn [cr_threads]. rewrite bm_get_insert. destruct (decide (tid = x)) as [-> | Hne].
    + rewrite E. rewrite (bool_decide_true (x ∈ x :: tids)) by set_solver. case_bool_decide; simpl; by rewrite ?Hid.
    + rewrite (bool_decide_ext (tid ∈ x :: tids) (tid ∈ tids)) by set_solver. done.
  - destruct (decide (tid = x)) as [-> | Hne].
    + rewrite E. by destruct (bool_decide _), (bool_decide _).
    + rewrite (bool_decide_ext (tid ∈ x :: tids) (tid ∈ tids)) by set_solver. done.
Qed.

(** The snapshots of a process's registered threads. *)
Definition snapshot_agrees (p : Process) (t : Thread) : Prop :=
  (t_uid t, t_euid t, t_suid t) = (pr_uid p, pr_euid p, pr_suid p) /\
  (t_gid t, t_egid t, t_sgid t) = (pr_gid p, pr_egid p, pr_sgid p) /\
  (t_perms t, t_perm_role t) = (perms (pr_permissions p), role (pr_permissions p)).

Definition threads_agree (s : CredState) : Prop :=
  forall pid p tid t, bm_get pid (cr_procs s) = Some p -> tid ∈ pr_threads p -> bm_get tid (cr_threads s) = Some t -> snapshot_agrees p t.

(** No thread is in two processes. *)
Definition owners_unique (s : CredState) : Prop :=
  forall pid pid' p p' tid, bm_get pid (cr_procs s) = Some p -> bm_get pid' (cr_procs s) = Some p' ->
    tid ∈ pr_threads p -> tid ∈ pr_threads p' -> pid = pid'.

(** The process record before and after a call. *)
Record cred_le (p p' : Process) : Prop := {
  cl_threads : pr_threads p' = pr_threads p;
  cl_uid : pr_euid p <> 0 -> pr_uid p' = pr_uid p /\ pr_suid p' = pr_suid p /\ (pr_euid p' = pr_euid p \/ pr_euid p' = pr_uid p \/ pr_euid p' = pr_suid p);
  cl_gid : pr_euid p <> 0 -> pr_gid p' = pr_gid p /\ pr_sgid p' = pr_sgid p /\ (pr_egid p' = pr_egid p \/ pr_egid p' = pr_gid p \/ pr_egid p' = pr_sgid p);
  cl_rest : pr_euid p <> 0 -> pr_groups p' = pr_groups p /\ pr_login_name p' = pr_login_name p;
  cl_perms : submask (perms (pr_permissions p')) (perms (pr_permissions p));
}.

Lemma cred_le_refl p : cred_le p p.
Proof. split; auto; reflexivity. Qed.

(** Every call either changes nothing or replaces one process record and maps
    one function over the snapshots of its threads. *)
Record cred_effect (s s' : CredState) (pid : Z) (p p' : Process) (f : Thread -> Thread) : Prop := {
  ce_found : bm_get pid (cr_procs s) = Some p;
  ce_procs : cr_procs s' = bm_insert pid p' (cr_procs s);
  ce_threads : forall tid, bm_get tid (cr_threads s') =
    if bool_decide (tid ∈ pr_threads p) then f <$> bm_get tid (cr_threads s) else bm_get tid (cr_threads s);
  ce_le : cred_le p p';
  ce_snapshot : forall t, snapshot_agrees p t -> snapshot_agrees p' (f t);
}.

Lemma effect_refresh s pid p p' f tids :
  tids = pr_threads p -> bm_get pid (cr_procs s) = Some p -> (forall t, f (f t) = f t) -> cred_le p p' ->
  (forall t, snapshot_agrees p t -> snapshot_agrees p' (f t)) ->
  cred_effect s (refresh f tids (cr_put pid p' s)) pid p p' f.
Proof.
  intros -> Hp Hf Hle Hs. split; [done | by rewrite refresh_procs | | done | done].
  intros tid. by rewrite refresh_get.
Qed.

Lemma effect_put s pid p p' :
  bm_get pid (cr_procs s) = Some p -> cred_le p p' -> (forall t, snapshot_agrees p t -> snapshot_agrees p' t) ->
  cred_effect s (cr_put pid p' s) pid p p' (fun t => t).
Proof.
  intros Hp Hle Hs. split; [done | done | | done | done].
  intros tid. cbn [cr_put cr_threads]. rewrite option_fmap_id. by destruct (bool_decide _).
Qed.

Ltac cred_solve :=
  repeat split; simpl in *; intros; try congruence; try (by left); try lia; try naive_solver; try reflexivity.

Lemma setuid_effect pid uid s :
  snd (run_setuid pid uid s) = s \/ exists p p' f, cred_effect s (snd (run_setuid pid uid s)) pid p p' f.
Proof.
  unfold run_setuid. destruct (bm_get pid (cr_procs s)) as [p |] eqn:E; [| by left].
  destruct (Z.eqb_spec (pr_euid p) 0) as [E0 | E0].
  - right. exists p; do 2 eexists. apply effect_refresh; [done | done | done | |]; [cred_solve |].
    intros t (_ & Hg & Hq). split_and!; [done | exact Hg | exact Hq].
  - destruct (_ || _)%bool eqn:Eu; [| by left]. right. exists p; do 2 eexists.
    apply effect_refresh; [done | done | done | |].
    + apply orb_true_iff in Eu. rewrite !Z.eqb_eq in Eu. cred_solve.
    + intros t (_ & Hg & Hq). split_and!; [done | exact Hg | exact Hq].
Qed.

Lemma setgid_effect pid gid s :
  snd (run_setgid pid gid s) = s \/ exists p p' f, cred_effect s (snd (run_setgid pid gid s)) pid p p' f.
Proof.
  unfold run_setgid. destruct (bm_get pid (cr_procs s)) as [p |] eqn:E; [| by left].
  destruct (Z.eqb_spec (pr_euid p) 0) as [E0 | E0].
  - right. exists p; do 2 eexists. apply effect_refresh; [done | done | done | |]; [cred_solve |].
    intros t (Hu & _ & Hq). split_and!; [exact Hu | done | exact Hq].
  - destruct (_ || _)%bool eqn:Eu; [| by left]. right. exists p; do 2 eexists.
    apply effect_refresh; [done | done | done | |].
    + apply orb_true_iff in Eu. rewrite !Z.eqb_eq in Eu. cred_solve.
    + intros t (Hu & _ & Hq). split_and!; [exact Hu | done | exact Hq].
Qed.

Lemma setgroups_effect page pid va n s :
  snd (run_setgroups page pid va n s) = s \/ exists p p' f, cred_effect s (snd (run_setgroups page pid va n s)) pid p p' f.
Proof.
  unfold run_setgroups. destruct (NGROUPS_MAX <? n); [by left |].
  destruct (bm_get pid (cr_procs s)) as [p |] eqn:E; [| by left].
  destruct (Z.eqb_spec (pr_euid p) 0) as [E0 | E0]; [| by left]. simpl.
  assert (forall g, exists q p' f, cred_effect s (cr_put pid (set_pr_groups g p) s) pid q p' f) as Hput.
  { intros g. exists p; do 2 eexists. apply effect_put; [done | cred_solve | done]. }
  destruct (0 <? n); [| right; apply Hput]. destruct (negb _); [by left |].
  destruct (UPAGE_SIZE <? _); [by left |]. destruct page; [right; apply Hput | by left].
Qed.

Lemma setlogin_effect name pid va n s :
  snd (run_setlogin name pid va n s) = s \/ exists p p' f, cred_effect s (snd (run_setlogin name pid va n s)) pid p p' f.
Proof.
  unfold run_setlogin. destruct (_ || _)%bool; [by left |].
  destruct (bm_get pid (cr_procs s)) as [p |] eqn:E; [| by left].
  destruct (Z.eqb_spec (pr_euid p) 0) as [E0 | E0]; [| by left]. simpl.
  destruct (negb _); [by left |]. destruct name; [| by left].
  right. exists p; do 2 eexists. apply effect_put; [done | cred_solve | done].
Qed.

Lemma pledge_effect r pid s :
  snd (run_pledge_req r pid s) = s \/ exists p p' f, cred_effect s (snd (run_pledge_req r pid s)) pid p p' f.
Proof.
  unfold run_pledge_req. destruct r as [r |]; [| by left].
  destruct (bm_get pid (cr_procs s)) as [p |] eqn:E; [| by left].
  right. exists p; do 2 eexists. apply effect_refresh; [done | done | done | |].
  - split; [done | by auto | by auto | by auto |]. mask_solve.
  - intros t (Hu & Hg & _). split_and!; [exact Hu | exact Hg | done].
Qed.

Definition op_pid (op : cred_op) : Z :=
  match op with
  | OSetUid pid _ | OSetGid pid _ | OSetGroups _ pid _ _ | OSetLogin _ pid _ _ | OPledge _ pid => pid
  end.

Lemma run_cred_effect op s : run_cred op s = s \/ exists p p' f, cred_effect s (run_cred op s) (op_pid op) p p' f.
Proof.
  destruct op; simpl; [apply setuid_effect | apply setgid_effect | apply setgroups_effect | apply setlogin_effect | apply pledge_effect].
Qed.

(** One call, seen from any process. *)
Lemma run_cred_le op s pid p :
  bm_get pid (cr_procs s) = Some p ->
  exists p', bm_get pid (cr_procs (run_cred op s)) = Some p' /\ cred_le p p' /\ (pid <> op_pid op -> p' = p).
Proof.
  intros Hp. destruct (run_cred_effect op s) as [-> | (q & q' & f & H)]; [eauto using cred_le_refl |].
  rewrite (ce_procs _ _ _ _ _ _ H), bm_get_insert. destruct (decide _) as [-> | Hne]; [| eauto using cred_le_refl].
  rewrite (ce_found _ _ _ _ _ _ H) in Hp. injection Hp as ->. exists q'. split_and!; [done | apply H | done].
Qed.

Lemma agree_step op s : owners_unique s -> threads_agree s -> owners_unique (run_cred op s) /\ threads_agree (run_cred op s).
Proof.
  intros Ho Ha. destruct (run_cred_effect op s) as [-> | (q & q' & f & H)]; [done |].
  destruct H as [Hq Hprocs Hth Hle Hsnap]. pose proof (cl_threads _ _ Hle) as Ht.
  assert (forall pid p, bm_get pid (cr_procs (run_cred op s)) = Some p ->
            exists p0, bm_get pid (cr_procs s) = Some p0 /\ pr_threads p = pr_threads p0) as Hback.
  { intros pid p. rewrite Hprocs, bm_get_insert. destruct (decide _) as [-> | _]; [intros [= <-] |]; eauto. }
  split.
  - intros pid pid' p p' tid (p0 & Hp & E)%Hback (p0' & Hp' & E')%Hback. rewrite E, E'. by apply Ho.
  - intros pid p tid t Hp Htid. rewrite Hth. rewrite Hprocs, bm_get_insert in Hp. destruct (decide _) as [-> | Hne].
    + injection Hp as <-. rewrite bool_decide_true by congruence. intros (t0 & E & ->)%fmap_Some.
      rewrite Ht in Htid. eauto.
    + rewrite bool_decide_false; [eauto |]. intros Hin. apply Hne. by eapply Ho.
Qed.

Definition run_creds (ops : list cred_op) (s : CredState) : CredState := foldl (fun s op => run_cred op s) s ops.

(** What an unprivileged process can become. *)
Definition confined (p p' : Process) : Prop :=
  (pr_uid p', pr_suid p', pr_gid p', pr_sgid p', pr_groups p', pr_login_name p') =
  (pr_uid p, pr_suid p, pr_gid p, pr_sgid p, pr_groups p, pr_login_name p) /\
  pr_euid p' ∈ [pr_euid p; pr_uid p; pr_suid p] /\ pr_egid p' ∈ [pr_egid p; pr_gid p; pr_sgid p] /\
  submask (perms (pr_permissions p')) (perms (pr_permissions p)).

Lemma elem_of_three (x a b c : Z) : x ∈ [a; b; c] <-> x = a \/ x = b \/ x = c.
Proof. rewrite !elem_of_cons, elem_of_nil. tauto. Qed.

Lemma confined_step p q r :
  pr_uid p <> 0 -> pr_euid p <> 0 -> pr_suid p <> 0 -> confined p q -> cred_le q r -> confined p r.
Proof.
  intros Hu He Hs (Hid & Heu & Heg & Hpm) [_ Hcu Hcg Hcr Hcp]. injection Hid as E1 E2 E3 E4 E5 E6.
  rewrite elem_of_three in Heu, Heg. assert (pr_euid q <> 0) as Hq by (destruct Heu as [-> | [-> | ->]]; done).
  destruct (Hcu Hq) as (U1 & U2 & U3), (Hcg Hq) as (G1 & G2 & G3), (Hcr Hq) as (R1 & R2).
  split_and!; [congruence | apply elem_of_three; intuition congruence | apply elem_of_three; intuition congruence | by etrans].
Qed.

(** ** Properties *)

(** C10. No escalation. Whatever credential calls are made, by any processes,
    in any order and with any arguments, a process whose real, effective and
    saved user ids are all non-zero keeps its real and saved ids, its groups
    and its login name, has an effective id among those it started with, and
    holds no call class it did not hold: it never becomes root. *)
Theorem no_escalation ops s pid p :
  bm_get pid (cr_procs s) = Some p -> pr_uid p <> 0 -> pr_euid p <> 0 -> pr_suid p <> 0 ->
  exists p', bm_get pid (cr_procs (run_creds ops s)) = Some p' /\ confined p p' /\ pr_euid p' <> 0.
Proof.
  intros Hp Hu He Hs.
  enough (exists p', bm_get pid (cr_procs (run_creds ops s)) = Some p' /\ confined p p') as (p' & Hp' & Hc).
  { exists p'. split_and!; [done | done |]. destruct Hc as (_ & Hin & _). apply elem_of_three in Hin. intuition congruence. }
  assert (exists q, bm_get pid (cr_procs s) = Some q /\ confined p q) as Hq.
  { exists p. split; [done |]. split_and!; [done | apply elem_of_three; tauto | apply elem_of_three; tauto | reflexivity]. }
  clear Hp. revert s Hq. induction ops as [| op ops IH]; intros s (q & Hq & Hc); [eauto |]. simpl. apply IH.
  destruct (run_cred_le op s pid q Hq) as (r & Hr & Hle & _). exists r. split; [done |]. by eapply confined_step.
Qed.

(** The snapshots follow the process. The fast path reads credentials and
    permissions from the thread, not from the process: along any sequence of
    credential calls every registered thread of every process carries its
    process's ids, permissions and role. *)
Theorem snapshots_follow ops s :
  owners_unique s -> threads_agree s -> threads_agree (run_creds ops s).
Proof.
  intros Ho Ha. enough (owners_unique (run_creds ops s) /\ threads_agree (run_creds ops s)) by tauto.
  revert s Ho Ha. induction ops as [| op ops IH]; intros s Ho Ha; [done |].
  destruct (agree_step op s Ho Ha) as [Ho' Ha']. exact (IH _ Ho' Ha').
Qed.

(** ** The access check *)

(** What the mode bits grant to a caller: the one class that applies, in the
    order owner, group, other. *)
Definition granted (euid egid : Z) (groups : list Z) (st : Stat) (i : Z) : Prop :=
  (euid = st_uid st /\ Z.testbit (st_mode st) (i + 6) = true) \/
  (euid <> st_uid st /\ (egid = st_gid st \/ st_gid st ∈ groups) /\ Z.testbit (st_mode st) (i + 3) = true) \/
  (euid <> st_uid st /\ egid <> st_gid st /\ st_gid st ∉ groups /\ Z.testbit (st_mode st) i = true).

Lemma bits_cover b want k :
  0 <= want < 8 -> 0 <= k ->
  Z.land (Z.land (Z.shiftr b k) 7) want = want <-> forall i, 0 <= i < 3 -> Z.testbit want i = true -> Z.testbit b (i + k) = true.
Proof.
  intros Hw Hk. split.
  - intros E i Hi Hb. rewrite <- E, !Z.land_spec, Z.shiftr_spec in Hb by lia.
    by apply andb_true_iff in Hb as [[? _]%andb_true_iff _].
  - intros H. apply Z.bits_inj'. intros i Hi. rewrite !Z.land_spec, Z.shiftr_spec by lia.
    destruct (Z.testbit want i) eqn:E; [| by rewrite andb_false_r].
    assert (i < 3) by (apply Z.nle_gt; intros ?; rewrite Z.bits_above_log2 in E; [done | lia |];
      destruct (decide (want = 0)) as [-> |]; [simpl; lia |]; apply Z.log2_lt_pow2; [lia |];
      apply Z.lt_le_trans with (2 ^ 3); [lia |]; apply Z.pow_le_mono_r; lia).
    rewrite (H i) by (done || lia). change 7 with (Z.ones 3). rewrite Z.ones_spec_low by lia. done.
Qed.

(** The access check is the Unix one. For a request of read, write and
    execute bits, [vaccess] answers [Ok] exactly when the caller is root or
    every bit asked for is set in the class that applies to it, the first of
    owner, group (effective or supplementary) and other; it answers [EACCES]
    otherwise. *)
Theorem vaccess_exact euid egid groups st want :
  0 <= want < 8 ->
  (vaccess euid egid groups st want = Ok tt <->
   euid = 0 \/ forall i, 0 <= i < 3 -> Z.testbit want i = true -> granted euid egid groups st i) /\
  (vaccess euid egid groups st want <> Ok tt -> vaccess euid egid groups st want = Err errno.EACCES).
Proof.
  intros Hw. split; [| unfold vaccess; intros H; repeat case_match; done || congruence].
  unfold vaccess, granted. destruct (Z.eqb_spec euid 0) as [| H0]; [naive_solver |].
  assert (forall b, (if Z.land b want =? want then Ok tt else Err errno.EACCES) = Ok (E:=Z) tt <-> Z.land b want = want) as Hif.
  { intros b. destruct (Z.eqb_spec (Z.land b want) want); naive_solver. }
  rewrite Hif. destruct (Z.eqb_spec euid (st_uid st)) as [Eu | Eu].
  { rewrite bits_cover by lia. naive_solver. }
  destruct (Z.eqb_spec egid (st_gid st)) as [Eg | Eg]; simpl; [rewrite bits_cover by lia; naive_solver |].
  case_bool_decide; [rewrite bits_cover by lia; naive_solver |].
  rewrite <- (Z.shiftr_0_r (st_mode st)) at 1. rewrite bits_cover by lia. setoid_rewrite Z.add_0_r. naive_solver.
Qed.

(** ** Witnesses *)

(** A root shell (process 1, thread 5) and a user's process (3, thread 7). *)
Definition shell_perms : Permissions := from_masks class_ALL class_ALL SHELL.
Definition root_proc : Process := mkProcess 1 0 0 false None None [] false [5] shell_perms 0 0 0 0 0 0 [] None [47] None None None.
Definition user_proc : Process := mkProcess 3 1 0 false None None [] false [7] shell_perms 1000 1000 1000 1000 1000 1000 [20] None [47] None None None.
Definition root_thread : Thread :=
  thread_new (mkThreadInit 4096 0 User 5 1 TrapFrame_empty (Some 0) 15 15 shell_perms 0 0 0 0 0 0 None).
Definition two_users : CredState := mkCred [(1, root_proc); (3, user_proc)] [(5, root_thread); (7, sample)].
Definition attempt : list cred_op :=
  [OSetUid 3 0; OSetGid 3 0; OSetGroups (Some [0; 0; 0; 0]) 3 USER_ARGV_BASE 1; OSetUid 1 1000; OPledge (Some (mkPermsRequest class_STDIO EMPTY)) 3].

Lemma bm_get_two {V} (a b k : Z) (x y v : V) : bm_get k [(a, x); (b, y)] = Some v -> (k = a /\ v = x) \/ (k = b /\ v = y).
Proof.
  rewrite !bm_get_cons. destruct (decide (a = k)) as [<- |]; [intros [= <-]; by left |].
  destruct (decide (b = k)) as [<- |]; [intros [= <-]; by right | done].
Qed.

Lemma two_users_ok : owners_unique two_users /\ threads_agree two_users.
Proof.
  split.
  - intros pid pid' p p' tid [[-> ->] | [-> ->]]%bm_get_two [[-> ->] | [-> ->]]%bm_get_two; simpl; set_solver.
  - intros pid p tid t [[-> ->] | [-> ->]]%bm_get_two; simpl; intros ->%list_elem_of_singleton;
      intros [[E ->] | [E ->]]%bm_get_two; try lia; split_and!; reflexivity.
Qed.

Lemma no_escalation_witness :
  exists p', bm_get 3 (cr_procs (run_creds attempt two_users)) = Some p' /\ confined user_proc p' /\ pr_euid p' <> 0.
Proof. apply (no_escalation attempt two_users 3 user_proc); [reflexivity | simpl; lia | simpl; lia | simpl; lia]. Defined.

(** Both kinds of change happen in the run: process 1 drops to user 1000, and
    process 3 is left with the pledged class only. *)
Lemma snapshots_follow_witness :
  threads_agree (run_creds attempt two_users) /\
  (t_euid <$> bm_get 5 (cr_threads (run_creds attempt two_users))) = Some 1000 /\
  (t_perms <$> bm_get 7 (cr_threads (run_creds attempt two_users))) = Some class_STDIO.
Proof.
  split; [| split; reflexivity].
  apply (snapshots_follow attempt two_users); [apply two_users_ok | apply two_users_ok].
Defined.

(** A group member reads a 0640 file it does not own, and cannot write it. *)
Lemma vaccess_exact_witness :
  vaccess 1000 1000 [20] (mkStat 416 0 20) 4 = Ok tt /\ vaccess 1000 1000 [20] (mkStat 416 0 20) 2 = Err errno.EACCES.
Proof.
  split; [| apply (vaccess_exact 1000 1000 [20] (mkStat 416 0 20) 2); [lia | discriminate]].
  apply (vaccess_exact 1000 1000 [20] (mkStat 416 0 20) 4); [lia |]. right. intros i Hi Hb. right. left.
  assert (i = 2) as -> by (destruct (decide (i = 0)) as [-> |]; [done |]; destruct (decide (i = 1)) as [-> |]; [done | lia]).
  split; [simpl; lia | split; [right; simpl; by apply list_elem_of_singleton | reflexivity]].
Defined.
