(* ===== verification/Futex.v ===== *)
(** * Futexes

    Models [run_futex_wait_req], [run_futex_wake_req], the two arms of
    [drain_pending_work] that call them, and the sweep of [dealloc_process]
    ([kmain/src/kernel/mod.rs]). The queues are keyed by physical address; the
    user's page tables and the words of physical memory are the machine's. The
    manager runs one operation at a time, while user stores come in between. *)

From stdpp Require Import base list option numbers sets gmap.
From S2P Require Import Prelude Buddy Sv48 PageTable Layout Abi NetChannel Work.
#[local] Open Scope Z_scope.

Record FutexWaiter := mkFutexWaiter { fw_tid : Z; fw_pid : Z; fw_deadline_ticks : Z }.

#[export] Instance futex_waiter_dec : EqDecision FutexWaiter.
Proof. solve_decision. Defined.

(** The queues, the memory the walk and the load see, and what was published
    to parked threads, in order. *)
Record FutexState := mkFutex {
  futex_waiters : list (Z * list FutexWaiter);
  fx_tables : gmap Z Z;
  fx_words : gmap Z Z;
  fx_out : list (Z * list Z);
}.

Definition eta_futex (s : FutexState) : FutexState := mkFutex (futex_waiters s) (fx_tables s) (fx_words s) (fx_out s).
Definition set_waiters : list (Z * list FutexWaiter) -> FutexState -> FutexState := ltac:(set_field eta_futex futex_waiters).
Definition set_words : gmap Z Z -> FutexState -> FutexState := ltac:(set_field eta_futex fx_words).
Definition set_out : list (Z * list Z) -> FutexState -> FutexState := ltac:(set_field eta_futex fx_out).

Definition publish_tid (tid : Z) (vals : list Z) (s : FutexState) : FutexState := set_out (fx_out s ++ [(tid, vals)]) s.

Section futex.
(** The bias of the kernel's direct map. *)
Context (bias : Z).

(** [virt_to_phys] under [kernel_root_from_pa]. *)
Definition futex_pa (s : FutexState) (root_pa uaddr : Z) : panics (option Z) :=
  virt_to_phys (fx_tables s) (mkRootTable (wadd root_pa bias) bias) uaddr.

(** The load through the one-page window over the page of [pa]. *)
Definition futex_load (s : FutexState) (pa : Z) : Z :=
  let page_pa := Z.land pa (wnot (UPAGE_SIZE - 1)) in
  let page_off := wsub pa page_pa in
  default 0 (fx_words s !! (page_pa + page_off)).

Definition run_futex_wait_req (req : FutexWaitReq) (pid root_pa tid : Z) (s : FutexState) : panics FutexState :=
  o <-! futex_pa s root_pa (fw_uaddr req) ;;
  match o with
  | None => Done (publish_tid tid [to_ret errno.EFAULT] s)
  | Some pa =>
      let observed := futex_load s pa in
      if negb (observed =? fw_expected req) then Done (publish_tid tid [to_ret errno.EAGAIN] s)
      else
        let waiter := mkFutexWaiter tid pid 0 in
        Done (set_waiters (bm_insert pa (default [] (bm_get pa (futex_waiters s)) ++ [waiter]) (futex_waiters s)) s)
  end.

Definition run_futex_wake_req (req : FutexWakeReq) (root_pa : Z) (s : FutexState) : panics (Z * FutexState) :=
  o <-! futex_pa s root_pa (fk_uaddr req) ;;
  match o with
  | None => Done (to_ret errno.EFAULT, s)
  | Some pa =>
      match bm_get pa (futex_waiters s) with
      | Some waiters =>
          let n := Nat.min (Z.to_nat (fk_n req)) (length waiters) in
          let drained := take n waiters in
          let waiters := drop n waiters in
          let m := match waiters with [] => bm_remove pa (futex_waiters s) | _ => bm_insert pa waiters (futex_waiters s) end in
          Done (Z.of_nat n, foldl (fun s w => publish_tid (fw_tid w) [0] s) (set_waiters m s) drained)
      | None => Done (0, s)
      end
  end.

(** The arm of [drain_pending_work]: the caller is resumed with the count. *)
Definition serve_futex_wake (req : FutexWakeReq) (root_pa tid : Z) (s : FutexState) : panics FutexState :=
  r <-! run_futex_wake_req req root_pa s ;;
  Done (publish_tid tid [r.1] r.2).

(** [retain] on the map and on each queue. *)
Definition futex_sweep (dead_pid : Z) (s : FutexState) : FutexState :=
  let kept := (fun e : Z * list FutexWaiter => (e.1, filter (fun w => fw_pid w <> dead_pid) e.2)) <$> futex_waiters s in
  set_waiters (filter (fun e => e.2 <> []) kept) s.

(** ** Histories *)

(** What happens to the machine: a user store, the manager serving a request,
    a process being torn down. *)
Inductive fevent :=
| FStore (pa v : Z)
| FWait (req : FutexWaitReq) (pid root_pa tid : Z)
| FWake (req : FutexWakeReq) (root_pa tid : Z)
| FExit (pid : Z).

Definition fstep (e : fevent) (s : FutexState) : panics FutexState :=
  match e with
  | FStore pa v => Done (set_words (<[pa := v]> (fx_words s)) s)
  | FWait req pid root_pa tid => run_futex_wait_req req pid root_pa tid s
  | FWake req root_pa tid => serve_futex_wake req root_pa tid s
  | FExit pid => Done (futex_sweep pid s)
  end.

Definition frun (es : list fevent) (s : FutexState) : panics FutexState := pfold fstep es s.

(** ** The abstract futex: one first-in first-out queue per address *)

Definition queue_of (pa : Z) (s : FutexState) : list FutexWaiter := default [] (bm_get pa (futex_waiters s)).

(** What one served event may do to the queues and to the publications. *)
Inductive spec_step (s s' : FutexState) : fevent -> Prop :=
| sp_store pa v :
    (forall q, queue_of q s' = queue_of q s) -> fx_out s' = fx_out s -> spec_step s s' (FStore pa v)
| sp_wait_fault req pid root tid :
    futex_pa s root (fw_uaddr req) = Done None ->
    (forall q, queue_of q s' = queue_of q s) -> fx_out s' = fx_out s ++ [(tid, [to_ret errno.EFAULT])] ->
    spec_step s s' (FWait req pid root tid)
| sp_wait_again req pid root tid pa :
    futex_pa s root (fw_uaddr req) = Done (Some pa) -> default 0 (fx_words s !! pa) <> fw_expected req ->
    (forall q, queue_of q s' = queue_of q s) -> fx_out s' = fx_out s ++ [(tid, [to_ret errno.EAGAIN])] ->
    spec_step s s' (FWait req pid root tid)
| sp_wait_park req pid root tid pa :
    futex_pa s root (fw_uaddr req) = Done (Some pa) -> default 0 (fx_words s !! pa) = fw_expected req ->
    (forall q, queue_of q s' = if decide (q = pa) then queue_of q s ++ [mkFutexWaiter tid pid 0] else queue_of q s) ->
    fx_out s' = fx_out s -> spec_step s s' (FWait req pid root tid)
| sp_wake_fault req root tid :
    futex_pa s root (fk_uaddr req) = Done None ->
    (forall q, queue_of q s' = queue_of q s) -> fx_out s' = fx_out s ++ [(tid, [to_ret errno.EFAULT])] ->
    spec_step s s' (FWake req root tid)
| sp_wake req root tid pa woken rest :
    futex_pa s root (fk_uaddr req) = Done (Some pa) -> queue_of pa s = woken ++ rest ->
    length woken = Nat.min (Z.to_nat (fk_n req)) (length (queue_of pa s)) ->
    (forall q, queue_of q s' = if decide (q = pa) then rest else queue_of q s) ->
    fx_out s' = fx_out s ++ ((fun w => (fw_tid w, [0])) <$> woken) ++ [(tid, [Z.of_nat (length woken)])] ->
    spec_step s s' (FWake req root tid)
| sp_exit pid :
    (forall q, queue_of q s' = filter (fun w => fw_pid w <> pid) (queue_of q s)) -> fx_out s' = fx_out s ->
    spec_step s s' (FExit pid).

(** ** The operations meet the specification *)

Definition futex_ok (s : FutexState) : Prop := bm_sorted (futex_waiters s).

Lemma futex_load_word s pa : is_u64 pa -> futex_load s pa = default 0 (fx_words s !! pa).
Proof.
  intros Hpa. unfold futex_load. change (UPAGE_SIZE - 1) with (2 ^ 12 - 1). rewrite (land_round_down pa 12) by (done || lia).
  pose proof (Z.mod_pos_bound pa (2 ^ 12) ltac:(lia)).
  assert (wsub pa (pa - pa mod 2 ^ 12) = pa mod 2 ^ 12) as ->.
  { unfold wsub, u64. replace (pa - (pa - pa mod 2 ^ 12)) with (pa mod 2 ^ 12) by lia. apply Z.mod_small. split; [lia |]. apply Z.lt_trans with (2 ^ 12); [lia | done]. }
  by replace (pa - pa mod 2 ^ 12 + pa mod 2 ^ 12) with pa by lia.
Qed.

Lemma futex_pa_u64 s root va pa : futex_pa s root va = Done (Some pa) -> is_u64 pa.
Proof.
  unfold futex_pa, virt_to_phys. destruct (walk_pte_chain _ _ _ _) as [r |]; [| done]. cbn [pbind].
  destruct (r.1 !! _) as [w |]; [| done]. destruct (_ || _)%bool; [done |]. intros [= <-]. apply u64_range.
Qed.

Lemma publish_all_out (ws : list FutexWaiter) s :
  fx_out (foldl (fun s w => publish_tid (fw_tid w) [0] s) s ws) = fx_out s ++ ((fun w => (fw_tid w, [0])) <$> ws).
Proof. revert s. induction ws as [| w ws IH]; intros s; simpl; [by rewrite app_nil_r |]. rewrite IH. simpl. by rewrite <- app_assoc. Qed.

Lemma publish_all_waiters (ws : list FutexWaiter) s :
  futex_waiters (foldl (fun s w => publish_tid (fw_tid w) [0] s) s ws) = futex_waiters s.
Proof. revert s. induction ws as [| w ws IH]; intros s; [done |]. simpl. by rewrite IH. Qed.

(** Replacing one queue, removed from the map when it runs empty. *)
Lemma queue_replace pa q waiters s :
  queue_of q (set_waiters (match waiters with [] => bm_remove pa (futex_waiters s) | _ => bm_insert pa waiters (futex_waiters s) end) s) =
  if decide (q = pa) then waiters else queue_of q s.
Proof.
  unfold queue_of. destruct waiters; simpl; rewrite ?bm_get_remove, ?bm_get_insert; by destruct (decide (q = pa)).
Qed.

Lemma sweep_sorted pid s : futex_ok s -> futex_ok (futex_sweep pid s).
Proof.
  intros Hs. apply bm_filter_sorted. unfold bm_sorted. rewrite <- list_fmap_compose. exact Hs.
Qed.

Lemma sweep_queue pid q s : futex_ok s -> queue_of q (futex_sweep pid s) = filter (fun w => fw_pid w <> pid) (queue_of q s).
Proof.
  intros Hs. pose proof (sweep_sorted pid s Hs) as Hs'. unfold queue_of.
  destruct (bm_get q (futex_waiters (futex_sweep pid s))) as [l |] eqn:E.
  - apply bm_get_sorted in E; [| done]. apply list_elem_of_filter in E as [_ ([k ws] & [= -> ->] & Hin)%list_elem_of_fmap].
    by rewrite (proj2 (bm_get_sorted _ _ _ Hs) Hin).
  - destruct (bm_get q (futex_waiters s)) as [ws |] eqn:E'; [| done]. simpl.
    destruct (filter _ ws) as [| w l] eqn:Ef; [done |]. exfalso. apply bm_get_sorted in E'; [| done].
    assert (bm_get q (futex_waiters (futex_sweep pid s)) = Some (w :: l)) as Hq; [| by rewrite Hq in E].
    apply bm_get_sorted; [done |]. apply list_elem_of_filter. split; [done |].
    apply list_elem_of_fmap. exists (q, ws). split; [simpl; by rewrite Ef | done].
Qed.

Lemma wait_spec req pid root tid s s' :
  run_futex_wait_req req pid root tid s = Done s' -> spec_step s s' (FWait req pid root tid).
Proof.
  unfold run_futex_wait_req. destruct (futex_pa s root (fw_uaddr req)) as [[pa |] |] eqn:E; [| | done]; cbn [pbind].
  - rewrite (futex_load_word _ _ (futex_pa_u64 _ _ _ _ E)). destruct (Z.eqb_spec (default 0 (fx_words s !! pa)) (fw_expected req)) as [Eq | Ne];
      cbn [negb]; intros [= <-].
    + eapply sp_wait_park; [done | done | | done]. intros q. unfold queue_of. simpl. rewrite bm_get_insert.
      by destruct (decide _) as [-> |].
    + by eapply sp_wait_again.
  - intros [= <-]. by eapply sp_wait_fault.
Qed.

Lemma wake_spec req root tid s s' : serve_futex_wake req root tid s = Done s' -> spec_step s s' (FWake req root tid).
Proof.
  unfold serve_futex_wake, run_futex_wake_req. destruct (futex_pa s root (fk_uaddr req)) as [[pa |] |] eqn:E; [| | done]; cbn [pbind].
  - destruct (bm_get pa (futex_waiters s)) as [ws |] eqn:Eq; cbn [pbind fst snd]; intros [= <-].
    + assert (queue_of pa s = ws) as Hq by (unfold queue_of; by rewrite Eq).
      set (n := Nat.min (Z.to_nat (fk_n req)) (length ws)).
      apply (sp_wake _ _ _ _ _ pa (take n ws) (drop n ws)); [done | by rewrite Hq, take_drop | rewrite Hq, length_take; lia | |].
      * intros q. unfold queue_of at 1. simpl. rewrite publish_all_waiters. apply queue_replace.
      * simpl. rewrite publish_all_out. simpl. rewrite <- app_assoc, length_take. by replace (n `min` length ws)%nat with n by lia.
    + assert (queue_of pa s = []) as Hq by (unfold queue_of; by rewrite Eq).
      apply (sp_wake _ _ _ _ _ pa [] []); [done | done | rewrite Hq; simpl; lia | | done].
      intros q. by destruct (decide _) as [-> |].
  - intros [= <-]. by eapply sp_wake_fault.
Qed.

Lemma fstep_ok e s s' : futex_ok s -> fstep e s = Done s' -> futex_ok s' /\ spec_step s s' e.
Proof.
  intros Hs. destruct e as [pa v | req pid root tid | req root tid | pid]; simpl.
  - intros [= <-]. split; [done |]. by constructor.
  - intros H. split; [| by apply wait_spec]. revert H. unfold run_futex_wait_req.
    destruct (futex_pa _ _ _) as [[pa |] |]; [| | done]; cbn [pbind]; [destruct (negb _) |]; intros [= <-]; [done | | done].
    by apply bm_insert_sorted.
  - intros H. split; [| by apply wake_spec]. revert H. unfold serve_futex_wake, run_futex_wake_req.
    destruct (futex_pa _ _ _) as [[pa |] |]; [| | done]; cbn [pbind]; [destruct (bm_get _ _) as [ws |] |]; intros [= <-]; [| done | done].
    unfold futex_ok. simpl. rewrite publish_all_waiters. simpl. destruct (drop _ _); [by apply bm_filter_sorted | by apply bm_insert_sorted].
  - intros [= <-]. split; [by apply sweep_sorted |]. constructor; [| done]. intros q. by apply sweep_queue.
Qed.

(** The walk of a four-level table always ends on one of its four steps. *)
Lemma chain_from_total m rt va ls : forall table n out,
  Forall (fun l => 0 <= l <= 3) ls -> ls <> [] -> (n + length ls <= length out)%nat ->
  exists out' n', chain_from m rt va table n out ls = Done (out', n') /\ (n < n' <= length out')%nat.
Proof.
  induction ls as [| l ls IH]; intros table n out Hls Hne Hlen; [done |]. apply Forall_cons in Hls as [Hl Hls].
  assert (exists idx, vpn_n va l = Done idx) as [idx Hi].
  { assert (l = 0 \/ l = 1 \/ l = 2 \/ l = 3) as [-> | [-> | [-> | ->]]] by lia; eexists; reflexivity. }
  simpl in *. rewrite Hi. cbn [pbind]. destruct (_ || _)%bool; [do 2 eexists; split; [done |]; rewrite length_insert; lia |].
  destruct ls as [| l' ls]; [do 2 eexists; split; [done |]; rewrite length_insert; lia |].
  edestruct IH as (out' & n' & E & Hn); [done | done | | exists out', n'; split; [exact E | lia]].
  rewrite length_insert. simpl in *. lia.
Qed.

Lemma virt_to_phys_total m rt va : exists o, virt_to_phys m rt va = Done o.
Proof.
  unfold virt_to_phys, walk_pte_chain.
  destruct (chain_from_total m rt va (levels_down 0) (rt_table rt) 0 (replicate 4 STEP_EMPTY)) as (out & n & -> & Hn);
    [repeat constructor; lia | done | simpl; lia |]. cbn [pbind fst snd].
  destruct (lookup_lt_is_Some_2 out (n - 1)) as [w ->]; [lia |]. destruct (_ || _)%bool; eauto.
Qed.

Lemma fstep_total e s : exists s', fstep e s = Done s'.
Proof.
  destruct e as [pa v | req pid root tid | req root tid | pid]; simpl; eauto.
  - unfold run_futex_wait_req, futex_pa. destruct (virt_to_phys_total (fx_tables s) (mkRootTable (wadd root bias) bias) (fw_uaddr req)) as [[pa |] ->];
      cbn [pbind]; [destruct (negb _) |]; eauto.
  - unfold serve_futex_wake, run_futex_wake_req, futex_pa.
    destruct (virt_to_phys_total (fx_tables s) (mkRootTable (wadd root bias) bias) (fk_uaddr req)) as [[pa |] ->];
      cbn [pbind]; [destruct (bm_get _ _) |]; eauto.
Qed.

Lemma frun_ok es s : futex_ok s -> exists s', frun es s = Done s' /\ futex_ok s'.
Proof.
  intros Hs. apply pfold_inv; [done |]. intros e t _ Ht. destruct (fstep_total e t) as [t' Et].
  exists t'. split; [done |]. by eapply fstep_ok.
Qed.

Lemma frun_app es es' s s' : frun (es ++ es') s = Done s' <-> exists t, frun es s = Done t /\ frun es' t = Done s'.
Proof.
  unfold frun. revert s. induction es as [| e es IH]; intros s; simpl; [naive_solver |].
  destruct (fstep e s); simpl; [apply IH | naive_solver].
Qed.

(** Only a store changes the words. *)
Lemma fstep_words e s s' pa : fstep e s = Done s' -> (forall v, e <> FStore pa v) -> fx_words s' !! pa = fx_words s !! pa.
Proof.
  intros E Hne. destruct e as [pa' v | req pid root tid | req root tid | pid]; simpl in E.
  - injection E as <-. simpl. apply lookup_insert_ne. intros ->. by destruct (Hne v).
  - revert E. unfold run_futex_wait_req. destruct (futex_pa _ _ _) as [[q |] |]; [| | done]; cbn [pbind]; [destruct (negb _) |]; by intros [= <-].
  - revert E. unfold serve_futex_wake, run_futex_wake_req. destruct (futex_pa _ _ _) as [[q |] |]; [| | done]; cbn [pbind];
      [destruct (bm_get _ _) |]; intros [= <-]; [| done | done]. simpl.
    assert (forall ws t, fx_words (foldl (fun s w => publish_tid (fw_tid w) [0] s) t ws) = fx_words t) as -> by
      (induction ws as [| w ws IH]; intros t; [done |]; simpl; by rewrite IH). done.
  - by injection E as <-.
Qed.

Lemma frun_words es s s' pa : frun es s = Done s' -> (forall v, FStore pa v ∉ es) -> fx_words s' !! pa = fx_words s !! pa.
Proof.
  revert s. induction es as [| e es IH]; intros s; unfold frun in *; simpl; [by intros [= <-] |].
  destruct (fstep e s) as [t |] eqn:E; simpl; [| done]. intros Hr Hno. rewrite (IH t Hr) by set_solver.
  apply (fstep_words e); [done |]. intros v ->. apply (Hno v). set_solver.
Qed.

(** The sleepers of one address: those there were, and those who came since and
    asked for the value found. *)
Definition newcomer (es : list fevent) (v : Z) (w : FutexWaiter) : Prop :=
  exists req pid root, FWait req pid root (fw_tid w) ∈ es /\ fw_expected req = v.

Lemma fstep_sleepers e s s' pa v w :
  futex_ok s -> fstep e s = Done s' -> fx_words s !! pa = Some v -> w ∈ queue_of pa s' ->
  w ∈ queue_of pa s \/ newcomer [e] v w.
Proof.
  intros Hs E Hv Hw. destruct (fstep_ok e s s' Hs E) as [_ Hsp].
  destruct Hsp as [? ? Hq _ | ? ? ? ? _ Hq _ | ? ? ? ? ? _ _ Hq _ | req pid root tid pa' _ Hx Hq _ | ? ? ? _ Hq _ | req root tid pa' woken rest _ Hsplit _ Hq _ | pid Hq _];
    rewrite Hq in Hw; try (by left).
  - destruct (decide (pa = pa')) as [<- |]; [| by left]. apply elem_of_app in Hw as [Hw | ->%list_elem_of_singleton]; [by left |].
    right. exists req, pid, root. split; [simpl; set_solver |]. rewrite <- Hx, Hv. done.
  - left. destruct (decide (pa = pa')) as [<- |]; [| done]. rewrite Hsplit. set_solver.
  - left. by apply list_elem_of_filter in Hw as [_ ?].
Qed.

Lemma frun_sleepers es s s' pa v w :
  futex_ok s -> frun es s = Done s' -> (forall v', FStore pa v' ∉ es) -> fx_words s !! pa = Some v -> w ∈ queue_of pa s' ->
  w ∈ queue_of pa s \/ newcomer es v w.
Proof.
  revert s. induction es as [| e es IH]; intros s Hs; unfold frun in *; simpl; [intros [= <-]; by left |].
  destruct (fstep e s) as [t |] eqn:E; simpl; [| done]. intros Hr Hno Hv Hw.
  assert (fx_words t !! pa = Some v) as Hv'.
  { rewrite <- Hv. apply (fstep_words e); [done |]. intros v' ->. apply (Hno v'). set_solver. }
  destruct (IH t (proj1 (fstep_ok _ _ _ Hs E)) Hr) as [Hin | (req & pid & root & Hin & Hx)]; [set_solver | done | done | |].
  - destruct (fstep_sleepers e s t pa v w Hs E Hv Hin) as [? | (req & pid & root & Hin' & Hx)]; [by left |].
    right. exists req, pid, root. split; [set_solver | done].
  - right. exists req, pid, root. split; [set_solver | done].
Qed.

(** ** Properties *)

Definition futex_boot (tables words : gmap Z Z) : FutexState := mkFutex [] tables words [].


(** No wake is lost. When a word was set to [v] and then, with no other
    store to it, its address was woken with a count that covers the sleepers,
    the only threads parked on it later (again with no other store) are those
    whose wait was served after that wake and asked for the value [v]: no
    thread sleeps on a value the word no longer holds. *)
Theorem futex_no_lost_wake tables words es1 pa v es2 req root tid es3 s1 s2 :
  (forall v', FStore pa v' ∉ es2) -> (forall v', FStore pa v' ∉ es3) ->
  frun (es1 ++ FStore pa v :: es2) (futex_boot tables words) = Done s1 ->
  futex_pa s1 root (fk_uaddr req) = Done (Some pa) -> Z.of_nat (length (queue_of pa s1)) <= fk_n req ->
  frun (FWake req root tid :: es3) s1 = Done s2 ->
  forall w, w ∈ queue_of pa s2 -> newcomer es3 v w.
Proof.
  intros H2 H3 Hr1 Hpa Hn Hr2 w Hw.
  destruct (frun_ok (es1 ++ FStore pa v :: es2) (futex_boot tables words)) as (s & Es & Hok); [constructor |].
  rewrite Hr1 in Es. injection Es as <-.
  assert (fx_words s1 !! pa = Some v) as Hv.
  { apply frun_app in Hr1 as (t & _ & Ht). unfold frun in Ht. simpl in Ht. rewrite (frun_words es2 _ _ _ Ht) by done.
    simpl. apply lookup_insert_eq. }
  unfold frun in Hr2. simpl in Hr2. destruct (serve_futex_wake req root tid s1) as [t |] eqn:E; simpl in Hr2; [| done].
  destruct (fstep_ok (FWake req root tid) s1 t Hok E) as [Hok' _].
  assert (fx_words t !! pa = Some v) as Hv' by (rewrite <- Hv; by apply (fstep_words (FWake req root tid))).
  destruct (frun_sleepers es3 t s2 pa v w Hok' Hr2 H3 Hv' Hw) as [Hin | ?]; [| done]. exfalso.
  apply wake_spec in E. inversion E as [| | | | ? ? ? Hpa' | ? ? ? pa' woken rest Hpa' Hsplit Hlen Hq |]; subst; [congruence |].
  rewrite Hpa in Hpa'. injection Hpa' as <-. rewrite Hq, decide_True in Hin by done.
  rewrite Hsplit, length_app in Hlen, Hn. destruct rest; [by apply not_elem_of_nil in Hin |]. simpl in *. lia.
Qed.
End futex.

(** ** Witness *)

(** One root entry maps the low half identically. Thread 7 sleeps on 0, the word
    becomes 1, thread 8 wakes it, and thread 9 comes to wait for 1. *)
Definition flat_tables : gmap Z Z := {[0 := 15]}.
Definition wait_for (v : Z) : FutexWaitReq := mkFutexWaitReq 4096 v 0.
Definition before_wake : list fevent := [FWait (wait_for 0) 3 0 7].
Definition woken_state : FutexState := mkFutex [(4096, [mkFutexWaiter 7 3 0])] flat_tables {[4096 := 1]} [].
Definition final_state : FutexState :=
  mkFutex [(4096, [mkFutexWaiter 9 3 0])] flat_tables {[4096 := 1]} [(7, [0]); (8, [1])].

Lemma futex_no_lost_wake_witness : newcomer [FWait (wait_for 1) 3 0 9] 1 (mkFutexWaiter 9 3 0).
Proof.
  apply (futex_no_lost_wake 0 flat_tables ∅ before_wake 4096 1 [] (mkFutexWakeReq 4096 5) 0 8
           [FWait (wait_for 1) 3 0 9] woken_state final_state);
    [set_solver | set_solver | reflexivity | reflexivity | simpl; lia | reflexivity | simpl; set_solver].
Defined.
