(* ===== verification/PageCache.v ===== *)
(** * The page cache

    Models [kmain/src/kernel/page_cache.rs]: cached pages of the block device,
    keyed by device and sector, with the threads waiting for a page in flight.
    A [SharedFrame] is its physical address. The allocator that fills the pool
    at boot is a parameter. *)

From stdpp Require Import base countable list option numbers sets gmap.
From S2P Require Import Prelude.
#[local] Open Scope Z_scope.

(** ** Keys *)

Record CacheKey := mkCacheKey { ck_dev : Z; ck_lba : Z }.

#[export] Instance cache_key_dec : EqDecision CacheKey.
Proof. solve_decision. Defined.

#[export] Program Instance cache_key_countable : Countable CacheKey :=
  inj_countable' (fun k => (ck_dev k, ck_lba k)) (fun p => mkCacheKey p.1 p.2) _.
Next Obligation. by intros []. Qed.

Definition SLOT_OCCUPIED : Z := wshl 1 63.
Definition SLOT_DEV_MASK : Z := 0xFF.
Definition SLOT_LBA_MASK : Z := 0x7FFFFFFFFFFFFF00.

Definition pack (key : CacheKey) : Z :=
  Z.lor (Z.lor SLOT_OCCUPIED (Z.land (wshl (ck_lba key) 8) SLOT_LBA_MASK)) (ck_dev key).

Definition unpack (packed : Z) : option CacheKey :=
  if Z.land packed SLOT_OCCUPIED =? 0 then None
  else Some (mkCacheKey (Z.land packed SLOT_DEV_MASK) (wshr (Z.land packed SLOT_LBA_MASK) 8)).

(** ** Slots *)

Inductive Waiter :=
| WUser (tid pid intra user_page_pa user_page_off len : Z)
| WKernel (tid intra dst_kva len : Z).

Inductive SlotState :=
| Loading (frame valid_bytes : Z) (waiters : list Waiter)
| SReady (frame valid_bytes : Z).

Definition slot_frame (s : SlotState) : Z :=
  match s with Loading f _ _ => f | SReady f _ => f end.

Definition is_loading (s : SlotState) : bool :=
  match s with Loading _ _ _ => true | SReady _ _ => false end.

Record PageCacheStats := mkStats {
  hits : Z; misses : Z; coalesced : Z; evictions : Z;
  pool_exhausted : Z; io_errors : Z; inflight_pages : Z; ready_pages : Z;
}.

Inductive CacheErr := NotFound | WrongState | PoolExhausted | AlreadyPresent.

Record PageCache := mkPageCache {
  entries : gmap CacheKey SlotState;
  lru : list CacheKey;
  pool : list Z;
  capacity : Z;
  pc_stats : PageCacheStats;
}.

Definition eta_stats (s : PageCacheStats) : PageCacheStats :=
  mkStats (hits s) (misses s) (coalesced s) (evictions s) (pool_exhausted s) (io_errors s) (inflight_pages s) (ready_pages s).
Definition set_hits : Z -> PageCacheStats -> PageCacheStats := ltac:(set_field eta_stats hits).
Definition set_misses : Z -> PageCacheStats -> PageCacheStats := ltac:(set_field eta_stats misses).
Definition set_coalesced : Z -> PageCacheStats -> PageCacheStats := ltac:(set_field eta_stats coalesced).
Definition set_evictions : Z -> PageCacheStats -> PageCacheStats := ltac:(set_field eta_stats evictions).
Definition set_pool_exhausted : Z -> PageCacheStats -> PageCacheStats := ltac:(set_field eta_stats pool_exhausted).
Definition set_io_errors : Z -> PageCacheStats -> PageCacheStats := ltac:(set_field eta_stats io_errors).

Definition eta_cache (c : PageCache) : PageCache := mkPageCache (entries c) (lru c) (pool c) (capacity c) (pc_stats c).
Definition set_entries : gmap CacheKey SlotState -> PageCache -> PageCache := ltac:(set_field eta_cache entries).
Definition set_lru : list CacheKey -> PageCache -> PageCache := ltac:(set_field eta_cache lru).
Definition set_pool : list Z -> PageCache -> PageCache := ltac:(set_field eta_cache pool).
Definition set_pc_stats : PageCacheStats -> PageCache -> PageCache := ltac:(set_field eta_cache pc_stats).

(** [self.stats.f += 1]. *)
Definition bump (get : PageCacheStats -> Z) (put : Z -> PageCacheStats -> PageCacheStats) (c : PageCache) : PageCache :=
  set_pc_stats (put (wadd (get (pc_stats c)) 1) (pc_stats c)) c.

(** [Vec::pop] and [VecDeque::pop_back]. *)
Definition vec_pop {A} (l : list A) : option (A * list A) :=
  match last l with Some x => Some (x, take (length l - 1) l) | None => None end.

(** ** Operations *)

Section alloc.
(** [SharedFrame::alloc] on the kernel's page pool. *)
Context {KP : Type} (alloc : KP -> option (Z * KP)).

Fixpoint alloc_pool (n : nat) (kp : KP) (pool : list Z) : option (list Z) * KP :=
  match n with
  | O => (Some pool, kp)
  | S n =>
      match alloc kp with
      | None => (None, kp)
      | Some (f, kp) => alloc_pool n kp (pool ++ [f])
      end
  end.

Definition with_capacity (kp : KP) (cap : Z) : option PageCache * KP :=
  let '(o, kp) := alloc_pool (Z.to_nat cap) kp [] in
  ((fun pool => mkPageCache ∅ [] pool cap (mkStats 0 0 0 0 0 0 0 0)) <$> o, kp).
End alloc.

Definition stats (c : PageCache) : PageCacheStats :=
  let slots := (map_to_list (entries c)).*2 in
  let s := pc_stats c in
  mkStats (hits s) (misses s) (coalesced s) (evictions s) (pool_exhausted s) (io_errors s)
    (Z.of_nat (length (filter (fun x => is_loading x = true) slots)))
    (Z.of_nat (length (filter (fun x => is_loading x = false) slots))).

Definition lookup_slot (c : PageCache) (key : CacheKey) : option SlotState := entries c !! key.

Definition touch_lru (key : CacheKey) (c : PageCache) : PageCache :=
  match entries c !! key with
  | Some (SReady _ _) =>
      let l := match list_find (fun k => k = key) (lru c) with Some (pos, _) => delete pos (lru c) | None => lru c end in
      set_lru (key :: l) c
  | _ => c
  end.

Definition record_hit (c : PageCache) : PageCache := bump hits set_hits c.

Definition register_waiter (key : CacheKey) (waiter : Waiter) (c : PageCache) : result unit CacheErr * PageCache :=
  match entries c !! key with
  | None => (Err NotFound, c)
  | Some (SReady _ _) => (Err WrongState, c)
  | Some (Loading f v ws) => (Ok tt, bump coalesced set_coalesced (set_entries (<[key := Loading f v (ws ++ [waiter])]> (entries c)) c))
  end.

Definition acquire_frame (c : PageCache) : panics (result Z CacheErr * PageCache) :=
  match vec_pop (pool c) with
  | Some (f, rest) => Done (Ok f, set_pool rest c)
  | None =>
      match vec_pop (lru c) with
      | None => Done (Err PoolExhausted, bump pool_exhausted set_pool_exhausted c)
      | Some (key, rest) =>
          let c := set_lru rest c in
          match entries c !! key with
          | Some (SReady frame _) => Done (Ok frame, bump evictions set_evictions (set_entries (delete key (entries c)) c))
          | _ => Panic
          end
      end
  end.

Definition begin_load (key : CacheKey) (valid_bytes : Z) (waiter : Waiter) (c : PageCache) : panics (result Z CacheErr * PageCache) :=
  if bool_decide (is_Some (entries c !! key)) then Done (Err AlreadyPresent, c)
  else
    r <-! acquire_frame c ;;
    match r.1 with
    | Err e => Done (Err e, r.2)
    | Ok frame => Done (Ok frame, bump misses set_misses (set_entries (<[key := Loading frame valid_bytes [waiter]]> (entries r.2)) r.2))
    end.

Definition complete_slot (key : CacheKey) (status : Z) (c : PageCache) : list Waiter * PageCache :=
  match entries c !! key with
  | None => ([], c)
  | Some slot =>
      let c := set_entries (delete key (entries c)) c in
      match slot with
      | SReady frame valid_bytes => ([], set_entries (<[key := SReady frame valid_bytes]> (entries c)) c)
      | Loading frame valid_bytes waiters =>
          if status =? 0
          then (waiters, set_lru (key :: lru c) (set_entries (<[key := SReady frame valid_bytes]> (entries c)) c))
          else (waiters, set_pool (pool c ++ [frame]) (bump io_errors set_io_errors c))
      end
  end.

(** ** Histories *)

Inductive cache_op :=
| CHit
| CTouch (key : CacheKey)
| CRegister (key : CacheKey) (w : Waiter)
| CBegin (key : CacheKey) (valid_bytes : Z) (w : Waiter)
| CComplete (key : CacheKey) (status : Z).

(** The cache, the waiters it took in and the waiters it gave back. *)
Record cache_run := mkRun { cr_cache : PageCache; cr_in : list Waiter; cr_out : list Waiter }.

Definition took {E} {A} (r : result A E) (w : Waiter) : list Waiter := match r with Ok _ => [w] | Err _ => [] end.

Definition cache_step (op : cache_op) (r : cache_run) : panics cache_run :=
  let c := cr_cache r in
  match op with
  | CHit => Done (mkRun (record_hit c) (cr_in r) (cr_out r))
  | CTouch k => Done (mkRun (touch_lru k c) (cr_in r) (cr_out r))
  | CRegister k w => let '(o, c) := register_waiter k w c in Done (mkRun c (cr_in r ++ took o w) (cr_out r))
  | CBegin k v w => x <-! begin_load k v w c ;; Done (mkRun x.2 (cr_in r ++ took x.1 w) (cr_out r))
  | CComplete k st => let '(ws, c) := complete_slot k st c in Done (mkRun c (cr_in r) (cr_out r ++ ws))
  end.

(** ** The invariant *)

Definition slot_waiters (s : SlotState) : list Waiter := match s with Loading _ _ ws => ws | SReady _ _ => [] end.

Definition frames (m : gmap CacheKey SlotState) : list Z := (fun e => slot_frame e.2) <$> map_to_list m.
Definition waiting (m : gmap CacheKey SlotState) : list Waiter := map_to_list m ≫= (fun e => slot_waiters e.2).

(** [F] is what the pool was filled with at boot. *)
Record cache_ok (F : list Z) (r : cache_run) : Prop := {
  co_lru_nodup : NoDup (lru (cr_cache r));
  co_lru : forall k, k ∈ lru (cr_cache r) <-> exists f v, entries (cr_cache r) !! k = Some (SReady f v);
  co_frames : pool (cr_cache r) ++ frames (entries (cr_cache r)) ≡ₚ F;
  co_waiters : cr_in r ≡ₚ cr_out r ++ waiting (entries (cr_cache r));
}.

Lemma vec_pop_some {A} (l l' : list A) x : vec_pop l = Some (x, l') -> l = l' ++ [x].
Proof.
  unfold vec_pop. destruct l as [| y l _] using rev_ind; [done |]. rewrite last_snoc. intros [= <- <-].
  rewrite length_app. simpl. by rewrite Nat.add_sub, take_app_length.
Qed.

Lemma vec_pop_none {A} (l : list A) : vec_pop l = None -> l = [].
Proof. unfold vec_pop. destruct l as [| y l _] using rev_ind; [done |]. by rewrite last_snoc. Qed.

Section maps.
Implicit Types (m : gmap CacheKey SlotState) (k : CacheKey) (s : SlotState).

Lemma frames_insert m k s : m !! k = None -> frames (<[k := s]> m) ≡ₚ slot_frame s :: frames m.
Proof. intros Hk. unfold frames. by rewrite map_to_list_insert. Qed.

Lemma waiting_insert m k s : m !! k = None -> waiting (<[k := s]> m) ≡ₚ slot_waiters s ++ waiting m.
Proof. intros Hk. unfold waiting. by rewrite map_to_list_insert. Qed.

Lemma frames_delete m k s : m !! k = Some s -> frames m ≡ₚ slot_frame s :: frames (delete k m).
Proof. intros Hk. rewrite <- (insert_delete_id m k s Hk) at 1. apply frames_insert, lookup_delete_eq. Qed.

Lemma waiting_delete m k s : m !! k = Some s -> waiting m ≡ₚ slot_waiters s ++ waiting (delete k m).
Proof. intros Hk. rewrite <- (insert_delete_id m k s Hk) at 1. apply waiting_insert, lookup_delete_eq. Qed.

(** Replacing a slot that keeps its frame. *)
Lemma frames_replace m k s s' : m !! k = Some s -> slot_frame s' = slot_frame s -> frames (<[k := s']> m) ≡ₚ frames m.
Proof.
  intros Hk Hf. rewrite <- insert_delete_eq, frames_insert by apply lookup_delete_eq.
  by rewrite Hf, <- frames_delete.
Qed.

Lemma waiting_replace m k s' : waiting (<[k := s']> m) ≡ₚ slot_waiters s' ++ waiting (delete k m).
Proof. rewrite <- insert_delete_eq. apply waiting_insert, lookup_delete_eq. Qed.
End maps.

Lemma touch_lru_perm k c : NoDup (lru c) -> (k ∈ lru c <-> exists f v, entries c !! k = Some (SReady f v)) ->
  lru (touch_lru k c) ≡ₚ lru c /\ entries (touch_lru k c) = entries c /\ pool (touch_lru k c) = pool c.
Proof.
  intros Hnd Hk. unfold touch_lru. destruct (entries c !! k) as [[f v ws | f v] |] eqn:E; [done | | done].
  split; [| done]. simpl. assert (k ∈ lru c) as [i Hi]%list_elem_of_lookup by (apply Hk; eauto).
  destruct (list_find (fun x => x = k) (lru c)) as [[j y] |] eqn:Ef.
  - apply list_find_Some in Ef as (Hj & -> & _). symmetry. by apply delete_Permutation.
  - apply list_find_None in Ef. rewrite Forall_lookup in Ef. by destruct (Ef i k Hi).
Qed.

(** Taking a frame: the pool's, or the one of the least recently used page. *)
Lemma acquire_ok F r x c :
  cache_ok F r -> acquire_frame (cr_cache r) = Done (x, c) ->
  match x with
  | Err _ => cache_ok F (mkRun c (cr_in r) (cr_out r)) /\ entries c = entries (cr_cache r)
  | Ok f =>
      NoDup (lru c) /\ (forall k, k ∈ lru c <-> exists f v, entries c !! k = Some (SReady f v)) /\
      f :: pool c ++ frames (entries c) ≡ₚ F /\ waiting (entries c) ≡ₚ waiting (entries (cr_cache r)) /\
      (forall k s, entries c !! k = Some s -> entries (cr_cache r) !! k = Some s) /\
      (forall k f v ws, entries (cr_cache r) !! k = Some (Loading f v ws) -> entries c !! k = Some (Loading f v ws))
  end.
Proof.
  intros [Hnd Hlru Hfr Hw]. unfold acquire_frame. destruct (vec_pop (pool _)) as [[f rest] |] eqn:Ep.
  - intros [= <- <-]. apply vec_pop_some in Ep. simpl. split_and!; try done.
    rewrite <- Hfr, Ep. by rewrite <- Permutation_cons_append.
  - apply vec_pop_none in Ep. destruct (vec_pop (lru _)) as [[k rest] |] eqn:El; [| intros [= <- <-]; split; [by split | done]].
    apply vec_pop_some in El. simpl. destruct (entries (cr_cache r) !! k) as [[f v ws | f v] |] eqn:Ek; [done | | done].
    intros [= <- <-]. simpl. rewrite El in Hnd, Hlru. apply NoDup_app in Hnd as (Hnd & Hdis & _). split_and!; [done | | | | |].
    + intros k'. destruct (decide (k' = k)) as [-> | Hne].
      * rewrite lookup_delete_eq. split; [intros Hin; exfalso; apply (Hdis k Hin); set_solver | by intros (? & ? & ?)].
      * rewrite lookup_delete_ne by done. rewrite <- Hlru, elem_of_app. set_solver.
    + rewrite Ep. simpl. rewrite <- Hfr, Ep. simpl. symmetry. by apply (frames_delete _ k (SReady f v)).
    + symmetry. by apply (waiting_delete _ k (SReady f v)).
    + intros k' s. rewrite lookup_delete_Some. tauto.
    + intros k' f' v' ws' Hk'. rewrite lookup_delete_ne; [done |]. intros ->. congruence.
Qed.

Lemma acquire_total F r : cache_ok F r -> exists x c, acquire_frame (cr_cache r) = Done (x, c).
Proof.
  intros [Hnd Hlru Hfr Hw]. unfold acquire_frame. destruct (vec_pop (pool _)) as [[f rest] |]; [eauto |].
  destruct (vec_pop (lru _)) as [[k rest] |] eqn:El; [| eauto]. apply vec_pop_some in El. simpl.
  destruct (proj1 (Hlru k)) as (f & v & ->); [rewrite El; set_solver | eauto].
Qed.

Lemma begin_ok F r k v w :
  cache_ok F r -> exists x c, begin_load k v w (cr_cache r) = Done (x, c) /\ cache_ok F (mkRun c (cr_in r ++ took x w) (cr_out r)).
Proof.
  intros Hr. unfold begin_load. case_bool_decide as Hk.
  { do 2 eexists. split; [done |]. rewrite app_nil_r. by destruct r. }
  destruct (acquire_total F r Hr) as (x & c & Ea). rewrite Ea. cbn [pbind fst snd].
  pose proof (acquire_ok F r x c Hr Ea) as Hx. destruct x as [f | e].
  - destruct Hx as (Hnd & Hlru & Hfr & Hw & Hsub & _).
    assert (entries c !! k = None) as Hkc.
    { destruct (entries c !! k) eqn:E; [| done]. exfalso. apply Hk. eauto. }
    do 2 eexists. split; [done |]. split; simpl; [done | | |].
    + intros k'. rewrite Hlru. destruct (decide (k' = k)) as [-> | Hne]; [rewrite lookup_insert_eq, Hkc | by rewrite lookup_insert_ne].
      split; intros (? & ? & ?); congruence.
    + rewrite frames_insert by done. simpl. by rewrite <- Permutation_middle.
    + rewrite waiting_insert by done. simpl. rewrite (co_waiters F r Hr), Hw. by solve_Permutation.
  - destruct Hx as [Hc He]. do 2 eexists. split; [done |]. by rewrite app_nil_r.
Qed.

Lemma register_ok F r k w o c :
  cache_ok F r -> register_waiter k w (cr_cache r) = (o, c) -> cache_ok F (mkRun c (cr_in r ++ took o w) (cr_out r)).
Proof.
  intros Hr. unfold register_waiter. destruct (entries (cr_cache r) !! k) as [[f v ws | f v] |] eqn:Ek; intros [= <- <-];
    [| by rewrite app_nil_r; destruct r | by rewrite app_nil_r; destruct r].
  destruct Hr as [Hnd Hlru Hfr Hw]. split; simpl; [done | | |].
  - intros k'. rewrite Hlru. destruct (decide (k' = k)) as [-> | Hne]; [rewrite lookup_insert_eq, Ek | by rewrite lookup_insert_ne].
    split; intros (? & ? & ?); congruence.
  - by rewrite (frames_replace _ k (Loading f v ws)).
  - rewrite waiting_replace, Hw, (waiting_delete _ k _ Ek). simpl. by solve_Permutation.
Qed.

Lemma complete_ok F r k st ws c :
  cache_ok F r -> complete_slot k st (cr_cache r) = (ws, c) -> cache_ok F (mkRun c (cr_in r) (cr_out r ++ ws)).
Proof.
  intros Hr. unfold complete_slot. destruct (entries (cr_cache r) !! k) as [[f v l | f v] |] eqn:Ek.
  - destruct Hr as [Hnd Hlru Hfr Hw]. assert (k ∉ lru (cr_cache r)) as Hnk.
    { rewrite Hlru. intros (? & ? & ?). congruence. }
    destruct (st =? 0); intros [= <- <-]; split; simpl.
    + by constructor.
    + intros k'. destruct (decide (k' = k)) as [-> | Hne]; [rewrite lookup_insert_eq; set_solver |].
      rewrite lookup_insert_ne, lookup_delete_ne by done. rewrite <- Hlru. set_solver.
    + rewrite insert_delete_eq, (frames_replace _ k (Loading f v l)) by done. done.
    + rewrite insert_delete_eq, waiting_replace, Hw, (waiting_delete _ k _ Ek). simpl. by rewrite app_assoc.
    + done.
    + intros k'. rewrite Hlru. destruct (decide (k' = k)) as [-> | Hne]; [rewrite lookup_delete_eq, Ek | by rewrite lookup_delete_ne].
      split; intros (? & ? & ?); congruence.
    + rewrite <- Hfr, (frames_delete _ k _ Ek). simpl. by rewrite <- app_assoc.
    + rewrite Hw, (waiting_delete _ k _ Ek). simpl. by rewrite app_assoc.
  - intros [= <- <-]. simpl. rewrite app_nil_r, insert_delete_id by done. by destruct r as [[]].
  - intros [= <- <-]. rewrite app_nil_r. by destruct r.
Qed.

Lemma cache_step_ok F op r : cache_ok F r -> exists r', cache_step op r = Done r' /\ cache_ok F r'.
Proof.
  intros Hr. destruct op as [| k | k w | k v w | k st]; simpl.
  - eexists. split; [done |]. by destruct Hr.
  - eexists. split; [done |]. destruct Hr as [Hnd Hlru Hfr Hw]. destruct (touch_lru_perm k (cr_cache r) Hnd (Hlru k)) as (Hp & He & Hq).
    split; simpl; rewrite ?He, ?Hq; [by rewrite Hp | intros k'; by rewrite Hp | done | done].
  - destruct (register_waiter k w (cr_cache r)) as [o c] eqn:E. eexists. split; [done |]. by eapply register_ok.
  - destruct (begin_ok F r k v w Hr) as (x & c & -> & H). by eexists.
  - destruct (complete_slot k st (cr_cache r)) as [ws c] eqn:E. eexists. split; [done |]. by eapply complete_ok.
Qed.

(** A page in flight, seen by one operation. *)
Lemma loading_step F op r r' k f v ws :
  cache_ok F r -> (forall st, op <> CComplete k st) -> entries (cr_cache r) !! k = Some (Loading f v ws) -> cache_step op r = Done r' ->
  exists ws', entries (cr_cache r') !! k = Some (Loading f v (ws ++ ws')).
Proof.
  intros Hr Hop Hk. destruct op as [| k' | k' w | k' v' w | k' st]; simpl.
  - intros [= <-]. exists []. by rewrite app_nil_r.
  - intros [= <-]. exists []. rewrite app_nil_r. simpl.
    by rewrite (proj1 (proj2 (touch_lru_perm k' _ (co_lru_nodup _ _ Hr) (co_lru _ _ Hr k')))).
  - unfold register_waiter. destruct (decide (k' = k)) as [-> | Hne].
    + rewrite Hk. intros [= <-]. exists [w]. apply lookup_insert_eq.
    + exists []. rewrite app_nil_r. destruct (entries (cr_cache r) !! k') as [[] |]; simplify_eq/=; [by rewrite lookup_insert_ne | done | done].
  - unfold begin_load. case_bool_decide as Hk'; [intros [= <-]; exists []; simpl; by rewrite app_nil_r |].
    destruct (acquire_frame (cr_cache r)) as [[x c] |] eqn:Ea; [| done]. cbn [pbind fst snd].
    pose proof (acquire_ok F r x c Hr Ea) as Hx. exists []. rewrite app_nil_r. destruct x as [f' | e]; simplify_eq/=.
    + destruct Hx as (_ & _ & _ & _ & _ & Hl). rewrite lookup_insert_ne; [by apply Hl |]. intros ->. eauto.
    + destruct Hx as [_ ->]. done.
  - assert (k' <> k) as Hne by (intros ->; by destruct (Hop st)). unfold complete_slot. exists []. rewrite app_nil_r.
    destruct (entries (cr_cache r) !! k') as [[] |]; [destruct (st =? 0) | |]; simplify_eq/=;
      by rewrite ?lookup_insert_ne, ?lookup_delete_ne.
Qed.

Lemma alloc_pool_length {KP} (alloc : KP -> option (Z * KP)) n kp l l' kp' :
  alloc_pool alloc n kp l = (Some l', kp') -> length l' = (n + length l)%nat.
Proof.
  revert kp l. induction n as [| n IH]; intros kp l; simpl; [by intros [= <- _] |].
  destruct (alloc kp) as [[f kp1] |]; [| done]. intros H. rewrite (IH _ _ H), length_app. simpl. lia.
Qed.

(** The word of a key. *)
Lemma cache_pack_val dev lba : 0 <= dev < 256 -> 0 <= lba < 2 ^ 55 -> pack (mkCacheKey dev lba) = dev + (lba + 2 ^ 55) * 2 ^ 8.
Proof.
  intros Hd Hl. unfold pack, SLOT_OCCUPIED. cbn [ck_dev ck_lba].
  assert (Z.land (wshl lba 8) SLOT_LBA_MASK = lba * 2 ^ 8) as ->.
  { change SLOT_LBA_MASK with (Z.shiftl (Z.ones 55) 8). rewrite wshl_val by (unfold W64; lia).
    rewrite <- Z.shiftl_mul_pow2, <- Z.shiftl_land, Z.land_ones, Z.mod_small by lia. done. }
  rewrite (Z.lor_comm (wshl 1 63)), (lor_above _ 1 63) by (unfold W64; lia).
  replace (lba * 2 ^ 8 + 1 * 2 ^ 63) with (wshl (lba + 2 ^ 55) 8) by (rewrite wshl_val by (unfold W64; lia); lia).
  rewrite Z.lor_comm. apply lor_above; unfold W64; lia.
Qed.

Lemma unpack_pack dev lba : 0 <= dev < 256 -> 0 <= lba < 2 ^ 55 -> unpack (pack (mkCacheKey dev lba)) = Some (mkCacheKey dev lba).
Proof.
  intros Hd Hl. rewrite cache_pack_val by done. unfold unpack. destruct (Z.eqb_spec (Z.land (dev + (lba + 2 ^ 55) * 2 ^ 8) SLOT_OCCUPIED) 0) as [E | _].
  - exfalso. apply (f_equal (fun x => Z.testbit x 63)) in E. rewrite Z.land_spec, Z.bits_0 in E.
    change (Z.testbit SLOT_OCCUPIED 63) with true in E. rewrite andb_true_r, Z.testbit_odd, Z.shiftr_div_pow2 in E by lia.
    replace ((dev + (lba + 2 ^ 55) * 2 ^ 8) / 2 ^ 63) with 1 in E; [done |].
    apply (Z.div_unique _ _ _ (dev + lba * 2 ^ 8)); lia.
  - f_equal. f_equal.
    + change SLOT_DEV_MASK with (2 ^ 8 - 1). rewrite land_mod, Z.mod_add, Z.mod_small by lia. done.
    + change SLOT_LBA_MASK with (Z.shiftl (Z.ones 55) 8). unfold wshr. change (8 mod 64) with 8.
      rewrite Z.shiftr_land, Z.shiftr_shiftl_l, Z.sub_diag, Z.shiftl_0_r, Z.land_ones, Z.shiftr_div_pow2 by lia.
      rewrite Z.div_add, (Z.div_small dev), Z.add_0_l by lia. replace (lba + 2 ^ 55) with (lba + 1 * 2 ^ 55) by lia.
      rewrite Z.mod_add, Z.mod_small by lia. done.
Qed.

(** ** Properties *)

(** C8. The page cache is sound. Whatever its clients ask of it after boot, in
    any order, it never panics; its recency list holds exactly the keys of the
    ready pages, each once; the frames of the pool and of the slots are the
    frames it was given, so two slots never share a frame; and every waiter it
    accepted is given back exactly once or still waits on a page in flight. *)
Theorem page_cache_sound {KP} (alloc : KP -> option (Z * KP)) kp kp' cap c ops :
  with_capacity alloc kp cap = (Some c, kp') ->
  exists r, pfold cache_step ops (mkRun c [] []) = Done r /\ cache_ok (pool c) r /\
    length (pool c) = Z.to_nat cap /\
    (NoDup (pool c) -> NoDup (pool (cr_cache r) ++ frames (entries (cr_cache r)))).
Proof.
  unfold with_capacity. destruct (alloc_pool alloc (Z.to_nat cap) kp []) as [[l |] kp1] eqn:E; simpl; [| done]. intros [= <- <-]. simpl.
  apply alloc_pool_length in E. simpl in E. rewrite Nat.add_0_r in E.
  destruct (pfold_inv cache_step (cache_ok l) ops (mkRun (mkPageCache ∅ [] l cap (mkStats 0 0 0 0 0 0 0 0)) [] [])) as (r & Hr & Hok).
  - split; simpl; [constructor | | unfold frames; by rewrite map_to_list_empty, app_nil_r | unfold waiting; by rewrite map_to_list_empty].
    intros k. rewrite lookup_empty. split; [by intros ?%not_elem_of_nil | by intros (? & ? & ?)].
  - intros op s _ Hs. by apply cache_step_ok.
  - exists r. split_and!; [done | done | done |]. intros Hnd. by rewrite (co_frames _ _ Hok).
Qed.

(** A page in flight is pinned: until its completion no operation evicts it
    or gives its frame, the target of the device's write, to another slot; its
    waiters are only added to. The completion gives back exactly those waiters
    and makes the page ready and most recent, or on an error frees its frame. *)
Theorem loading_pinned F ops r r' k f v ws :
  cache_ok F r -> entries (cr_cache r) !! k = Some (Loading f v ws) ->
  (forall st, CComplete k st ∉ ops) -> pfold cache_step ops r = Done r' ->
  exists ws', entries (cr_cache r') !! k = Some (Loading f v (ws ++ ws')) /\
    forall st, let '(out, c) := complete_slot k st (cr_cache r') in
      out = ws ++ ws' /\
      if st =? 0 then entries c !! k = Some (SReady f v) /\ head (lru c) = Some k
      else entries c !! k = None /\ last (pool c) = Some f.
Proof.
  intros Hr Hk Hno Hrun.
  enough (exists ws', entries (cr_cache r') !! k = Some (Loading f v (ws ++ ws'))) as [ws' Hws].
  { exists ws'. split; [done |]. intros st. unfold complete_slot. rewrite Hws.
    destruct (st =? 0); (split; [done |]); simpl; [split; [apply lookup_insert_eq | done] | split; [apply lookup_delete_eq | apply last_snoc]]. }
  revert r ws Hr Hk Hrun. induction ops as [| op ops IH]; intros r ws Hr Hk; simpl; [intros [= <-]; exists []; by rewrite app_nil_r |].
  destruct (cache_step_ok F op r Hr) as (r1 & E & Hr1). rewrite E. simpl. intros Hrun.
  destruct (loading_step F op r r1 k f v ws Hr) as [w1 H1]; [intros st ->; apply (Hno st); set_solver | done | done |].
  destruct (IH ltac:(set_solver) r1 _ Hr1 H1 Hrun) as [w2 H2]. exists (w1 ++ w2). by rewrite app_assoc.
Qed.

(** The key that travels through the block driver's side table comes back
    unchanged, for every sector below 2^55, and a cleared entry is told apart
    from every key. *)
Theorem cache_key_roundtrip dev lba :
  0 <= dev < 256 -> 0 <= lba < 2 ^ 55 -> unpack (pack (mkCacheKey dev lba)) = Some (mkCacheKey dev lba) /\ unpack 0 = None.
Proof. intros Hd Hl. split; [by apply unpack_pack | done]. Qed.

(** ** Witnesses *)

Definition some_waiter (tid : Z) : Waiter := WUser tid 3 0 4096 0 512.
Definition page_a : CacheKey := mkCacheKey 1 9.
Definition page_b : CacheKey := mkCacheKey 1 17.
Definition two_frames : PageCache := mkPageCache ∅ [] [4096; 8192] 2 (mkStats 0 0 0 0 0 0 0 0).
Definition counter_alloc (kp : Z) : option (Z * Z) := Some (kp, kp + 4096).
Definition traffic : list cache_op :=
  [CBegin page_a 4096 (some_waiter 7); CRegister page_a (some_waiter 8); CBegin page_b 100 (some_waiter 9);
   CComplete page_a 0; CTouch page_a; CComplete page_b 1; CBegin page_b 100 (some_waiter 9)].

Lemma page_cache_sound_witness :
  exists r, pfold cache_step traffic (mkRun two_frames [] []) = Done r /\ cache_ok [4096; 8192] r.
Proof.
  destruct (page_cache_sound counter_alloc 4096 12288 2 two_frames traffic eq_refl) as (r & Hr & Hok & _).
  exists r. split; [exact Hr | exact Hok].
Defined.

Definition in_flight : cache_run :=
  mkRun (mkPageCache {[page_a := Loading 8192 4096 [some_waiter 7]]} [] [4096] 2 (mkStats 0 1 0 0 0 0 0 0)) [some_waiter 7] [].

Lemma loading_pinned_witness :
  exists ws, entries (cr_cache in_flight) !! page_a = Some (Loading 8192 4096 ([some_waiter 7] ++ ws)).
Proof.
  destruct (loading_pinned [4096; 8192] [] in_flight in_flight page_a 8192 4096 [some_waiter 7]) as (ws & Hws & _);
    [| reflexivity | set_solver | reflexivity | exists ws; exact Hws].
  split; [constructor | | reflexivity | reflexivity]. intros k. split; [by intros ?%not_elem_of_nil |].
  intros (f & v & E). change (({[page_a := Loading 8192 4096 [some_waiter 7]]} : gmap CacheKey SlotState) !! k = Some (SReady f v)) in E.
  by apply lookup_singleton_Some in E as [_ ?].
Defined.

Lemma cache_key_roundtrip_witness : unpack (pack page_b) = Some page_b.
Proof. apply (cache_key_roundtrip 1 17); lia. Defined.
