(* ===== verification/Virtqueue.v ===== *)
(** * The split virtqueue

    Models [virtio/src/queue.rs]: the descriptor table with its free list, the
    ring of chains offered to the device and the ring of chains it has used. The
    three regions are memory shared with the device, as maps from the index of an
    entry; an access outside a region is [Panic].

    The interleaved machine runs the driver's [push_chain] and [pop_used] against
    a device that fetches offered chains and completes fetched ones in any order,
    as the virtio specification lets it. *)

From stdpp Require Import base list option numbers sets gmap.
From S2P Require Import Prelude.
#[local] Open Scope Z_scope.

Definition VIRTQ_DESC_F_NEXT : Z := 1.
Definition VIRTQ_DESC_F_WRITE : Z := 2.

Record VirtqDesc := mkDesc { d_addr : Z; d_len : Z; d_flags : Z; d_next : Z }.
Record Buf := mkBuf { b_pa : Z; b_len : Z; b_write : bool }.

Definition set_next (n : Z) (d : VirtqDesc) : VirtqDesc := mkDesc (d_addr d) (d_len d) (d_flags d) n.

Record Virtqueue := mkVirtqueue {
  desc : gmap Z VirtqDesc;
  avail_ring : gmap Z Z;
  avail_mem_idx : Z;
  used_ring : gmap Z (Z * Z);
  used_mem_idx : Z;
  vq_size : Z;
  free_head : Z;
  num_free : Z;
  avail_idx : Z;
  last_used_idx : Z;
}.

Definition eta_vq (q : Virtqueue) : Virtqueue :=
  mkVirtqueue (desc q) (avail_ring q) (avail_mem_idx q) (used_ring q) (used_mem_idx q) (vq_size q) (free_head q) (num_free q)
    (avail_idx q) (last_used_idx q).
Definition set_desc : gmap Z VirtqDesc -> Virtqueue -> Virtqueue := ltac:(set_field eta_vq desc).
Definition set_avail_ring : gmap Z Z -> Virtqueue -> Virtqueue := ltac:(set_field eta_vq avail_ring).
Definition set_avail_mem_idx : Z -> Virtqueue -> Virtqueue := ltac:(set_field eta_vq avail_mem_idx).
Definition set_used_ring : gmap Z (Z * Z) -> Virtqueue -> Virtqueue := ltac:(set_field eta_vq used_ring).
Definition set_used_mem_idx : Z -> Virtqueue -> Virtqueue := ltac:(set_field eta_vq used_mem_idx).
Definition set_free_head : Z -> Virtqueue -> Virtqueue := ltac:(set_field eta_vq free_head).
Definition set_num_free : Z -> Virtqueue -> Virtqueue := ltac:(set_field eta_vq num_free).
Definition set_avail_idx : Z -> Virtqueue -> Virtqueue := ltac:(set_field eta_vq avail_idx).
Definition set_last_used_idx : Z -> Virtqueue -> Virtqueue := ltac:(set_field eta_vq last_used_idx).

(** [x as u16], and the wrapping sum. *)
Definition w16 (x : Z) : Z := x mod 2 ^ 16.

Definition table (n : nat) : list Z := Z.of_nat <$> seq 0 n.

(** The zero-initialised regions the caller hands in, and the seeding loop. *)
Definition seed_desc (size : Z) : gmap Z VirtqDesc :=
  foldl (fun d i => <[i := mkDesc 0 0 0 (if w16 (i + 1) <? size then w16 (i + 1) else 0)]> d) ∅ (table (Z.to_nat size)).

Definition Virtqueue_new (size : Z) : Virtqueue :=
  mkVirtqueue (seed_desc size) ∅ 0 ∅ 0 size 0 size 0 0.

(** [descs[i] = desc[descs[i - 1]].next], from a head. *)
Fixpoint follow (d : gmap Z VirtqDesc) (n : nat) (head : Z) : panics (list Z * Z) :=
  match n with
  | O => Done ([], head)
  | S n =>
      match d !! head with
      | None => Panic
      | Some e => r <-! follow d n (d_next e) ;; Done (head :: r.1, r.2)
      end
  end.

(** The loop that fills the descriptors of a chain. *)
Fixpoint populate (d : gmap Z VirtqDesc) (descs : list Z) (bufs : list Buf) : gmap Z VirtqDesc :=
  match descs, bufs with
  | i :: descs', buf :: bufs' =>
      let last := match bufs' with [] => true | _ => false end in
      let flags := if b_write buf then VIRTQ_DESC_F_WRITE else 0 in
      let flags := if last then flags else Z.lor flags VIRTQ_DESC_F_NEXT in
      let next := if last then 0 else default 0 (head descs') in
      populate (<[i := mkDesc (b_pa buf) (b_len buf) flags next]> d) descs' bufs'
  | _, _ => d
  end.

Definition push_chain (bufs : list Buf) (q : Virtqueue) : panics (result Z unit * Virtqueue) :=
  let n := Z.of_nat (length bufs) in
  if ((n =? 0) || (num_free q <? w16 n))%bool then Done (Err tt, q)
  else if 32 <? n then Done (Err tt, q)
  else
    r <-! follow (desc q) (length bufs) (free_head q) ;;
    let '(descs, new_free_head) := r in
    let q := set_num_free (num_free q - n) (set_free_head new_free_head q) in
    let q := set_desc (populate (desc q) descs bufs) q in
    match descs with
    | [] => Panic
    | hd :: _ =>
        if vq_size q =? 0 then Panic
        else
          let ring_slot := avail_idx q mod vq_size q in
          let q := set_avail_ring (<[ring_slot := hd]> (avail_ring q)) q in
          let q := set_avail_idx (w16 (avail_idx q + 1)) q in
          Done (Ok hd, set_avail_mem_idx (avail_idx q) q)
    end.

(** The loop of [pop_used]; the chain is at most as long as the table. *)
Fixpoint free_chain (fuel : nat) (d : gmap Z VirtqDesc) (idx free_head count : Z) : panics (gmap Z VirtqDesc * Z) :=
  match fuel with
  | O => Panic
  | S fuel =>
      let count := w16 (count + 1) in
      match d !! idx with
      | None => Panic
      | Some e =>
          if Z.land (d_flags e) VIRTQ_DESC_F_NEXT =? 0 then Done (<[idx := set_next free_head e]> d, count)
          else free_chain fuel d (d_next e) free_head count
      end
  end.

Definition pop_used (q : Virtqueue) : panics (option (Z * Z) * Virtqueue) :=
  if used_mem_idx q =? last_used_idx q then Done (None, q)
  else if vq_size q =? 0 then Panic
  else
    let slot := last_used_idx q mod vq_size q in
    match used_ring q !! slot with
    | None => Panic
    | Some (id, len) =>
        let q := set_last_used_idx (w16 (last_used_idx q + 1)) q in
        let hd := w16 id in
        r <-! free_chain (Z.to_nat (vq_size q)) (desc q) hd (free_head q) 0 ;;
        let q := set_desc r.1 q in
        Done (Some (hd, len), set_num_free (w16 (num_free q + r.2)) (set_free_head hd q))
    end.

Definition has_used (q : Virtqueue) : bool := negb (used_mem_idx q =? last_used_idx q).

Definition peek_free_head (q : Virtqueue) : option Z := if num_free q =? 0 then None else Some (free_head q).

(** ** The device *)

(** A chain as the device reads it: the indices and the buffers. *)
Fixpoint walk (fuel : nat) (d : gmap Z VirtqDesc) (i : Z) : option (list Z * list Buf) :=
  match fuel with
  | O => None
  | S fuel =>
      e ← d !! i;
      let b := mkBuf (d_addr e) (d_len e) (Z.testbit (d_flags e) 1) in
      if Z.land (d_flags e) VIRTQ_DESC_F_NEXT =? 0 then Some ([i], [b])
      else r ← walk fuel d (d_next e); Some (i :: r.1, b :: r.2)
  end.

Definition chain (q : Virtqueue) (hd : Z) : option (list Z * list Buf) := walk (Z.to_nat (vq_size q)) (desc q) hd.
Definition chain_ids (q : Virtqueue) (hd : Z) : list Z := match chain q hd with Some (l, _) => l | None => [] end.

(** The queue, the device's own index, and the chains offered, fetched and
    completed, with what was popped. *)
Record vworld := mkVworld {
  vw_q : Virtqueue;
  vw_fetch : Z;
  vw_posted : list (Z * list Buf);
  vw_working : list (Z * list Buf);
  vw_done : list (Z * list Buf * Z);
  vw_popped : list (Z * Z);
}.

Inductive vstep : vworld -> vworld -> Prop :=
| v_push bufs hd q q' f po wk dn pp :
    push_chain bufs q = Done (Ok hd, q') ->
    vstep (mkVworld q f po wk dn pp) (mkVworld q' f (po ++ [(hd, bufs)]) wk dn pp)
| v_fetch q f x po wk dn pp hd l bufs :
    f <> avail_mem_idx q -> avail_ring q !! (f mod vq_size q) = Some hd -> chain q hd = Some (l, bufs) ->
    vstep (mkVworld q f (x :: po) wk dn pp) (mkVworld q (w16 (f + 1)) po (wk ++ [(hd, bufs)]) dn pp)
| v_complete q f po wk1 hd bufs wk2 dn len pp :
    vstep (mkVworld q f po (wk1 ++ (hd, bufs) :: wk2) dn pp)
          (mkVworld (set_used_mem_idx (w16 (used_mem_idx q + 1)) (set_used_ring (<[used_mem_idx q mod vq_size q := (hd, len)]> (used_ring q)) q))
                    f po (wk1 ++ wk2) (dn ++ [(hd, bufs, len)]) pp)
| v_pop q q' f po wk x dn r pp :
    pop_used q = Done (Some r, q') ->
    vstep (mkVworld q f po wk (x :: dn) pp) (mkVworld q' f po wk dn (pp ++ [r])).

Definition vboot (size : Z) : vworld := mkVworld (Virtqueue_new size) 0 [] [] [] [].

(** ** The invariant *)

Definition in_flight_chains (w : vworld) : list (Z * list Buf) := vw_posted w ++ vw_working w ++ (vw_done w).*1.

Fixpoint links (d : gmap Z VirtqDesc) (l : list Z) : Prop :=
  match l with
  | [] => True
  | i :: l' => (exists e, d !! i = Some e /\ (forall j, head l' = Some j -> d_next e = j)) /\ links d l'
  end.

Definition owned (q : Virtqueue) (cs : list (Z * list Buf)) : list Z := cs ≫= (fun c => chain_ids q c.1).

Record vok (w : vworld) : Prop := {
  vk_size : 0 < vq_size (vw_q w) < 2 ^ 16 /\ 2 ^ 16 mod vq_size (vw_q w) = 0;
  vk_free : exists fl, links (desc (vw_q w)) fl /\ (fl <> [] -> head fl = Some (free_head (vw_q w))) /\
    Z.of_nat (length fl) = num_free (vw_q w) /\
    fl ++ owned (vw_q w) (in_flight_chains w) ≡ₚ table (Z.to_nat (vq_size (vw_q w)));
  vk_chains : forall hd bufs, (hd, bufs) ∈ in_flight_chains w -> exists l, chain (vw_q w) hd = Some (l, bufs);
  vk_avail : avail_mem_idx (vw_q w) = avail_idx (vw_q w) /\
    avail_idx (vw_q w) = w16 (vw_fetch w + Z.of_nat (length (vw_posted w)));
  vk_posted : forall k c, vw_posted w !! k = Some c ->
    avail_ring (vw_q w) !! ((vw_fetch w + Z.of_nat k) mod vq_size (vw_q w)) = Some c.1;
  vk_used : used_mem_idx (vw_q w) = w16 (last_used_idx (vw_q w) + Z.of_nat (length (vw_done w)));
  vk_done : forall k c, vw_done w !! k = Some c ->
    used_ring (vw_q w) !! ((last_used_idx (vw_q w) + Z.of_nat k) mod vq_size (vw_q w)) = Some (c.1.1, c.2);
  vk_ranges : 0 <= vw_fetch w < 2 ^ 16 /\ 0 <= last_used_idx (vw_q w) < 2 ^ 16;
}.

(** ** Chains and the free list *)

Lemma walk_head f d i l b : walk f d i = Some (l, b) -> head l = Some i /\ l <> [].
Proof.
  destruct f as [| f]; [done |]. simpl. destruct (d !! i) as [e |]; [| done]. simpl.
  destruct (_ =? 0); [by intros [= <- _] |]. destruct (walk f d (d_next e)) as [[l' b'] |]; [| done]. by intros [= <- _].
Qed.

Lemma walk_ext f d d' i l b : walk f d i = Some (l, b) -> (forall j, j ∈ l -> d' !! j = d !! j) -> walk f d' i = Some (l, b).
Proof.
  revert i l b. induction f as [| f IH]; intros i l b; [done |]. simpl. destruct (d !! i) as [e |] eqn:E; [| done]. simpl.
  destruct (_ =? 0) eqn:En.
  - intros [= <- <-] Hd. rewrite Hd, E by set_solver. simpl. by rewrite En.
  - destruct (walk f d (d_next e)) as [[l' b'] |] eqn:Ew; [| done]. intros [= <- <-] Hd.
    rewrite Hd, E by set_solver. simpl. rewrite En, (IH _ _ _ Ew); [done |]. set_solver.
Qed.

Lemma links_ext d d' l : links d l -> (forall j, j ∈ l -> d' !! j = d !! j) -> links d' l.
Proof.
  induction l as [| i l IH]; [done |]. intros [(e & He & Hn) Hl] Hd. split; [exists e; rewrite Hd by set_solver; done |].
  apply IH; [done |]. set_solver.
Qed.

Lemma links_tail d l1 l2 : links d (l1 ++ l2) -> links d l2.
Proof. induction l1 as [| i l1 IH]; [done |]. intros [_ ?]. by apply IH. Qed.

(** Taking descriptors off the free list. *)
Lemma follow_links d l1 l2 hd :
  links d (l1 ++ l2) -> head (l1 ++ l2) = Some hd -> exists nf, follow d (length l1) hd = Done (l1, nf) /\ (l2 <> [] -> head l2 = Some nf).
Proof.
  revert hd. induction l1 as [| i l1 IH]; intros hd; simpl.
  - intros _ Hh. exists hd. done.
  - intros [(e & He & Hn) Hl] [= <-]. rewrite He. destruct (l1 ++ l2) as [| j l] eqn:El.
    + apply app_eq_nil in El as [-> ->]. exists (d_next e). done.
    + destruct (IH (d_next e)) as (nf & -> & Hnf); [done | simpl; f_equal; symmetry; by apply Hn |]. by exists nf.
Qed.

Lemma populate_other d l b i : i ∉ l -> populate d l b !! i = d !! i.
Proof.
  revert d b. induction l as [| j l IH]; intros d b Hi; [done |]. destruct b as [| x b]; [done |]. simpl.
  rewrite IH by set_solver. apply lookup_insert_ne. set_solver.
Qed.

Lemma flags_next (w last : bool) :
  let fl := if w then VIRTQ_DESC_F_WRITE else 0 in
  let fl := if last then fl else Z.lor fl VIRTQ_DESC_F_NEXT in
  (Z.land fl VIRTQ_DESC_F_NEXT =? 0) = last /\ Z.testbit fl 1 = w.
Proof. by destruct w, last. Qed.

(** The device reads back the buffers the driver wrote. *)
Lemma populate_walk f l : forall d b hd,
  NoDup l -> length l = length b -> (length l <= f)%nat -> head l = Some hd -> walk f (populate d l b) hd = Some (l, b).
Proof.
  revert f. induction l as [| i l IH]; intros f d b hd Hnd Hlen Hf Hh; [done |]. injection Hh as <-.
  destruct b as [| x b]; [done |]. destruct f as [| f]; [simpl in Hf; lia |]. apply NoDup_cons in Hnd as [Hi Hnd]. simpl in Hlen, Hf.
  cbn [populate]. set (last := match b with [] => true | _ => false end).
  destruct (flags_next (b_write x) last) as [H1 H2]. cbv zeta in H1, H2.
  cbn [walk]. rewrite populate_other, lookup_insert_eq by done. cbn [mbind option_bind d_addr d_len d_flags d_next]. rewrite H1, H2.
  assert (mkBuf (b_pa x) (b_len x) (b_write x) = x) as -> by (by destruct x).
  destruct b as [| y b]; simpl in last; unfold last.
  - destruct l; [done | simpl in Hlen; lia].
  - destruct l as [| j l]; [simpl in Hlen; lia |]. rewrite (IH f _ (y :: b) j) by (done || simpl in *; lia). done.
Qed.

(** Giving a chain back: it goes in front of the free list. *)
Lemma free_chain_spec f d hd fh c l b fl :
  walk f d hd = Some (l, b) -> NoDup (l ++ fl) -> links d fl -> (fl <> [] -> head fl = Some fh) ->
  exists d', free_chain f d hd fh c = Done (d', w16 (c + Z.of_nat (length l))) /\
    (forall i, i ∉ l -> d' !! i = d !! i) /\ links d' (l ++ fl).
Proof.
  revert hd c l b. induction f as [| f IH]; intros hd c l b; [done |]. simpl. destruct (d !! hd) as [e |] eqn:E; [| done]. simpl.
  destruct (_ =? 0) eqn:En.
  - intros [= <- <-] Hnd Hfl Hh. apply NoDup_cons in Hnd as [Hhd _]. eexists. split_and!; [done | |].
    + intros i Hi. apply lookup_insert_ne. set_solver.
    + simpl. rewrite lookup_insert_eq. split.
      * eexists. split; [done |]. intros j Hj. simpl. destruct fl as [| x fl]; [done |]. specialize (Hh ltac:(done)). congruence.
      * apply (links_ext d); [done |]. intros j Hj. apply lookup_insert_ne. set_solver.
  - destruct (walk f d (d_next e)) as [[l' b'] |] eqn:Ew; [| done]. intros [= <- <-] Hnd Hfl Hh.
    apply NoDup_cons in Hnd as [Hhd Hnd]. destruct (IH _ (w16 (c + 1)) _ _ Ew Hnd Hfl Hh) as (d' & -> & Hd & Hl).
    exists d'. split_and!.
    + unfold w16. rewrite Zplus_mod_idemp_l. do 3 f_equal. simpl. lia.
    + intros i Hi. apply Hd. set_solver.
    + split; [| exact Hl]. exists e. rewrite Hd by set_solver. split; [done |]. intros j Hj.
      apply walk_head in Ew as [Hw _]. destruct l'; [done |]. simpl in *. congruence.
Qed.

Lemma table_length n : length (table n) = n.
Proof. unfold table. by rewrite length_fmap, length_seq. Qed.

Lemma table_NoDup n : NoDup (table n).
Proof. apply NoDup_fmap; [intros ? ?; lia | apply NoDup_seq]. Qed.

Lemma elem_of_table n i : i ∈ table n <-> 0 <= i < Z.of_nat n.
Proof.
  unfold table. rewrite list_elem_of_fmap. setoid_rewrite elem_of_seq. split; [intros (k & -> & ?); lia |].
  intros Hi. exists (Z.to_nat i). lia.
Qed.

Lemma w16_mod size x : 0 < size -> 2 ^ 16 mod size = 0 -> w16 x mod size = x mod size.
Proof. intros Hs Hd. unfold w16. apply Z.mod_mod_divide. by apply Z.mod_divide; [lia |]. Qed.

(** Two positions less than a ring apart use different slots. *)
Lemma ring_slots size x j k : 0 < size -> 0 <= j < size -> 0 <= k < size -> (x + j) mod size = (x + k) mod size -> j = k.
Proof.
  intros Hs Hj Hk E. assert ((j - k) mod size = 0) as Hm.
  { replace (j - k) with ((x + j) - (x + k)) by lia. rewrite Zminus_mod, E, Z.sub_diag. apply Z.mod_0_l. lia. }
  apply Z.mod_divide in Hm as [c Hc]; [| lia]. assert (c = 0) by nia. lia.
Qed.

Lemma owned_app q cs cs' : owned q (cs ++ cs') = owned q cs ++ owned q cs'.
Proof. apply bind_app. Qed.

Lemma owned_cons q c cs : owned q (c :: cs) = chain_ids q c.1 ++ owned q cs.
Proof. done. Qed.

Lemma owned_ext q q' cs : (forall hd b, (hd, b) ∈ cs -> chain q' hd = chain q hd) -> owned q' cs = owned q cs.
Proof.
  intros H. induction cs as [| [hd b] cs IH]; [done |]. rewrite !owned_cons, IH by set_solver. unfold chain_ids. simpl.
  by rewrite (H hd b) by set_solver.
Qed.

Lemma owned_elem q cs hd b l i : (hd, b) ∈ cs -> chain q hd = Some (l, b) -> i ∈ l -> i ∈ owned q cs.
Proof.
  intros Hc Hl Hi. unfold owned. apply list_elem_of_bind. exists (hd, b). split; [| done]. unfold chain_ids. simpl. by rewrite Hl.
Qed.

(** Every chain takes a descriptor at least. *)
Lemma owned_length q cs : (forall hd b, (hd, b) ∈ cs -> exists l, chain q hd = Some (l, b)) -> (length cs <= length (owned q cs))%nat.
Proof.
  induction cs as [| [hd b] cs IH]; intros H; [done |]. rewrite owned_cons, length_app.
  destruct (H hd b) as [l Hl]; [set_solver |]. unfold chain_ids. simpl. rewrite Hl.
  apply walk_head in Hl as [_ Hne]. specialize (IH ltac:(set_solver)). destruct l; [done |]. simpl. lia.
Qed.

Lemma room w : vok w ->
  Z.of_nat (length (vw_posted w) + length (vw_working w) + length (vw_done w)) + num_free (vw_q w) <= vq_size (vw_q w).
Proof.
  intros [[[Hs0 Hs1] Hs2] (fl & Hl & Hh & Hn & Hp) Hc _ _ _ _ _].
  apply owned_length in Hc. apply Permutation_length in Hp. rewrite length_app, table_length in Hp.
  unfold in_flight_chains in *. rewrite !length_app, length_fmap in Hc. lia.
Qed.

Section steps.
Context (q : Virtqueue) (f : Z) (po wk : list (Z * list Buf)) (dn : list (Z * list Buf * Z)) (pp : list (Z * Z)).

(** The queue after a successful push. *)
Definition pushed (bufs : list Buf) (ids : list Z) (hd nf : Z) : Virtqueue :=
  mkVirtqueue (populate (desc q) ids bufs) (<[avail_idx q mod vq_size q := hd]> (avail_ring q)) (w16 (avail_idx q + 1)) (used_ring q)
    (used_mem_idx q) (vq_size q) nf (num_free q - Z.of_nat (length bufs)) (w16 (avail_idx q + 1)) (last_used_idx q).

Lemma push_chain_eq bufs hd ids nf :
  bufs <> [] -> Z.of_nat (length bufs) <= num_free q -> (length bufs <= 32)%nat -> 0 < vq_size q ->
  follow (desc q) (length bufs) (free_head q) = Done (hd :: ids, nf) ->
  push_chain bufs q = Done (Ok hd, pushed bufs (hd :: ids) hd nf).
Proof.
  intros Hne Hle H32 Hs Hf. unfold push_chain. assert (length bufs <> 0%nat) by (destruct bufs; [done | simpl; lia]).
  assert (((Z.of_nat (length bufs) =? 0) || (num_free q <? w16 (Z.of_nat (length bufs))))%bool = false) as ->.
  { unfold w16. rewrite Z.mod_small by lia. apply orb_false_iff. split; [apply Z.eqb_neq | apply Z.ltb_ge]; lia. }
  destruct (Z.ltb_spec 32 (Z.of_nat (length bufs))); [lia |]. rewrite Hf. cbn -[populate].
  destruct (Z.eqb_spec (vq_size q) 0); [lia | done].
Qed.

(** The chains that were there are read as before, and the new one as pushed. *)
Lemma pushed_chains bufs l1 l2 hd nf cs :
  NoDup (l1 ++ l2) -> (forall i, i ∈ l1 -> i ∉ owned q cs) -> (forall hd b, (hd, b) ∈ cs -> exists l, chain q hd = Some (l, b)) ->
  length l1 = length bufs -> (length l1 <= Z.to_nat (vq_size q))%nat -> head l1 = Some hd ->
  chain (pushed bufs l1 hd nf) hd = Some (l1, bufs) /\ (forall hd' b', (hd', b') ∈ cs -> chain (pushed bufs l1 hd nf) hd' = chain q hd').
Proof.
  intros Hnd Hdis Hc Hlen Hsz Hh. apply NoDup_app in Hnd as (Hnd1 & _ & _). split; [by apply populate_walk |].
  intros hd' b' Hin. destruct (Hc hd' b' Hin) as [l Hl]. rewrite Hl. apply (walk_ext _ (desc q)); [exact Hl |].
  intros j Hj. apply populate_other. intros Hj1. apply (Hdis j Hj1). by eapply owned_elem.
Qed.

Lemma push_ok bufs :
  vok (mkVworld q f po wk dn pp) -> bufs <> [] -> Z.of_nat (length bufs) <= num_free q -> (length bufs <= 32)%nat ->
  exists hd q', push_chain bufs q = Done (Ok hd, q') /\ peek_free_head q = Some hd /\ vok (mkVworld q' f (po ++ [(hd, bufs)]) wk dn pp).
Proof.
  intros Hok Hne Hle H32. pose proof (room _ Hok) as Hroom. simpl in Hroom. destruct Hok as [[[Hs0 Hs1] Hs2] (fl & Hl & Hh & Hn & Hp) Hc Hav Hpo Hus Hdn Hr].
  unfold in_flight_chains in Hp, Hc. cbn [vw_q vw_fetch vw_posted vw_working vw_done] in *.
  assert (length bufs <> 0%nat) as Hn0 by (destruct bufs; [done | simpl; lia]).
  pose proof (table_NoDup (Z.to_nat (vq_size q))) as Hnd. rewrite <- Hp in Hnd. apply NoDup_app in Hnd as (Hndf & Hdis & _).
  assert (exists l1 l2, fl = l1 ++ l2 /\ length l1 = length bufs) as (l1 & l2 & -> & Hl1).
  { exists (take (length bufs) fl), (drop (length bufs) fl). split; [by rewrite take_drop | rewrite length_take; lia]. }
  assert (exists hd l1', l1 = hd :: l1') as (hd & l1' & El1) by (destruct l1; [simpl in *; lia | eauto]).
  assert (head (l1 ++ l2) = Some (free_head q)) as Hhead by (apply Hh; rewrite El1; done).
  destruct (follow_links (desc q) l1 l2 (free_head q)) as (nf & Hfo & Hnf); [done | done |]. rewrite Hl1 in Hfo.
  assert (free_head q = hd) as Hfh by (rewrite El1 in Hhead; simpl in Hhead; congruence).
  destruct (pushed_chains bufs l1 l2 hd nf (po ++ wk ++ dn.*1)) as [Hnew Hold];
    [done | intros i Hi; apply Hdis; set_solver | exact Hc | done | lia | by rewrite El1 |].
  exists hd, (pushed bufs l1 hd nf). split; [rewrite El1 in *; by apply push_chain_eq |].
  split; [unfold peek_free_head; destruct (Z.eqb_spec (num_free q) 0); [lia | congruence] |].
  apply NoDup_app in Hndf as (_ & Hdis1 & _). split; simpl; unfold in_flight_chains; simpl.
  - done.
  - exists l2. split_and!; [| done | rewrite length_app in Hn; lia |].
    + apply (links_ext (desc q)); [by apply links_tail in Hl |]. intros j Hj. apply populate_other. intros ?. by apply (Hdis1 j).
    + rewrite <- Hp, <- app_assoc. simpl. rewrite (owned_app _ po), owned_cons. unfold chain_ids at 1. simpl. rewrite Hnew.
      rewrite (owned_ext q _ po), (owned_ext q _ (wk ++ dn.*1)) by (intros h b Hin; apply (Hold h b); set_solver).
      rewrite !owned_app. by solve_Permutation.
  - intros hd' b'. rewrite <- app_assoc. simpl. rewrite elem_of_app, elem_of_cons. intros [Hin | [[= -> ->] | Hin]]; [| by exists l1 |];
      (destruct (Hc hd' b') as [l Hl']; [set_solver |]; exists l; rewrite <- Hl'; apply (Hold hd' b'); set_solver).
  - split; [done |]. rewrite (proj2 Hav). unfold w16. rewrite Zplus_mod_idemp_l, length_app. f_equal. simpl. lia.
  - intros k c. rewrite (proj2 Hav), w16_mod by done. intros [Hk | [Hk Hk']]%lookup_app_Some.
    + rewrite lookup_insert_ne; [by apply Hpo |]. intros E. apply lookup_lt_Some in Hk. apply ring_slots in E; lia.
    + apply list_lookup_singleton_Some in Hk' as [Hz <-]. replace k with (length po) by lia. by rewrite lookup_insert_eq.
  - done.
  - done.
  - done.
Qed.

(** ** The device's steps *)

Lemma in_flight_perm cs cs' : cs ≡ₚ cs' -> owned q cs ≡ₚ owned q cs'.
Proof. intros H. unfold owned. by rewrite H. Qed.

Lemma fetch_ok x hd l bufs :
  vok (mkVworld q f (x :: po) wk dn pp) -> avail_ring q !! (f mod vq_size q) = Some hd -> chain q hd = Some (l, bufs) ->
  (hd, bufs) = x /\ vok (mkVworld q (w16 (f + 1)) po (wk ++ [(hd, bufs)]) dn pp).
Proof.
  intros [[Hs0 Hs2] (fl & Hl & Hh & Hn & Hp) Hc Hav Hpo Hus Hdn Hr] Hring Hch. unfold in_flight_chains in *.
  cbn [vw_q vw_fetch vw_posted vw_working vw_done] in *.
  pose proof (Hpo 0%nat x eq_refl) as H0. rewrite Z.add_0_r, Hring in H0. injection H0 as ->. destruct x as [hd b]. simpl in *.
  destruct (Hc hd b) as [l' Hl']; [set_solver |]. rewrite Hch in Hl'. injection Hl' as -> ->. split; [done |].
  assert (po ++ (wk ++ [(hd, b)]) ++ dn.*1 ≡ₚ (hd, b) :: po ++ wk ++ dn.*1) as Hperm by solve_Permutation.
  split; simpl; unfold in_flight_chains; simpl; [done | | | | | done | done |].
  - exists fl. split_and!; [done | done | done |]. by rewrite (in_flight_perm _ _ Hperm).
  - intros h b'. rewrite Hperm. apply Hc.
  - split; [apply Hav |]. rewrite (proj2 Hav). unfold w16. rewrite Zplus_mod_idemp_l. f_equal. lia.
  - intros k c Hk. specialize (Hpo (S k) c Hk). rewrite <- Hpo. f_equal. rewrite Zplus_mod, w16_mod, <- Zplus_mod by apply Hs0 || done. f_equal. lia.
  - split; [apply Z.mod_pos_bound; lia | apply Hr].
Qed.

Lemma vq_complete_ok wk1 hd bufs wk2 len :
  wk = wk1 ++ (hd, bufs) :: wk2 -> vok (mkVworld q f po wk dn pp) ->
  vok (mkVworld (set_used_mem_idx (w16 (used_mem_idx q + 1)) (set_used_ring (<[used_mem_idx q mod vq_size q := (hd, len)]> (used_ring q)) q))
         f po (wk1 ++ wk2) (dn ++ [(hd, bufs, len)]) pp).
Proof.
  intros -> Hok. pose proof (room _ Hok) as Hroom. simpl in Hroom. rewrite length_app in Hroom. simpl in Hroom.
  destruct Hok as [[Hs0 Hs2] (fl & Hl & Hh & Hn & Hp) Hc Hav Hpo Hus Hdn Hr]. unfold in_flight_chains in *.
  cbn [vw_q vw_fetch vw_posted vw_working vw_done] in *.
  assert (po ++ (wk1 ++ wk2) ++ (dn ++ [(hd, bufs, len)]).*1 ≡ₚ po ++ (wk1 ++ (hd, bufs) :: wk2) ++ dn.*1) as Hperm.
  { rewrite fmap_app. simpl. by solve_Permutation. }
  split; simpl; unfold in_flight_chains; simpl; [done | | | done | done | | |].
  - exists fl. split_and!; [done | done | done |]. rewrite <- Hp. f_equiv. by apply in_flight_perm.
  - intros h b'. rewrite Hperm. apply Hc.
  - rewrite Hus, length_app. unfold w16. rewrite Zplus_mod_idemp_l. f_equal. simpl. lia.
  - intros k c. rewrite Hus, w16_mod by apply Hs0 || done. intros [Hk | [Hk Hk']]%lookup_app_Some.
    + rewrite lookup_insert_ne; [by apply Hdn |]. intros E. apply lookup_lt_Some in Hk. apply ring_slots in E; lia.
    + apply list_lookup_singleton_Some in Hk' as [Hz <-]. replace k with (length dn) by lia. by rewrite lookup_insert_eq.
  - done.
Qed.

Lemma pop_eq x l d' :
  vok (mkVworld q f po wk (x :: dn) pp) -> chain q x.1.1 = Some (l, x.1.2) -> 0 <= x.1.1 < 2 ^ 16 ->
  free_chain (Z.to_nat (vq_size q)) (desc q) x.1.1 (free_head q) 0 = Done (d', w16 (Z.of_nat (length l))) ->
  pop_used q = Done (Some (x.1.1, x.2),
    mkVirtqueue d' (avail_ring q) (avail_mem_idx q) (used_ring q) (used_mem_idx q) (vq_size q) x.1.1
      (w16 (num_free q + w16 (Z.of_nat (length l)))) (avail_idx q) (w16 (last_used_idx q + 1))).
Proof.
  intros Hok Hch Hx Hfc. pose proof (room _ Hok) as Hroom. simpl in Hroom. destruct Hok as [[Hs0 Hs2] (fl & _ & _ & Hn & _) _ _ _ Hus Hdn [_ Hr]].
  cbn [vw_q vw_fetch vw_posted vw_working vw_done] in *.
  specialize (Hdn 0%nat x eq_refl). rewrite Z.add_0_r in Hdn. unfold pop_used.
  destruct (Z.eqb_spec (used_mem_idx q) (last_used_idx q)) as [E | _].
  { exfalso. rewrite Hus in E. unfold w16 in E. rewrite <- (Z.mod_small (last_used_idx q) (2 ^ 16)) in E at 2 by lia.
    rewrite <- (Z.add_0_r (last_used_idx q)) in E at 2. apply ring_slots in E; simpl in *; lia. }
  destruct (Z.eqb_spec (vq_size q) 0); [lia |]. rewrite Hdn. cbn [set_last_used_idx vq_size desc free_head].
  assert (w16 x.1.1 = x.1.1) as -> by (unfold w16; apply Z.mod_small; lia). rewrite Hfc. done.
Qed.

Lemma pop_ok x pp' :
  vok (mkVworld q f po wk (x :: dn) pp) -> exists q', pop_used q = Done (Some (x.1.1, x.2), q') /\ vok (mkVworld q' f po wk dn pp').
Proof.
  intros Hok. pose proof (room _ Hok) as Hroom. simpl in Hroom. pose proof (pop_eq x) as Hpop. pose proof Hok as [[Hs0 Hs2] (fl & Hl & Hh & Hn & Hp) Hc Hav Hpo Hus Hdn Hr].
  unfold in_flight_chains in *. cbn [vw_q vw_fetch vw_posted vw_working vw_done] in *. destruct x as [[hd b] len]. simpl in *.
  destruct (Hc hd b) as [l Hch]; [set_solver |]. pose proof (table_NoDup (Z.to_nat (vq_size q))) as Hnd.
  assert (fl ++ owned q (po ++ wk ++ (hd, b) :: dn.*1) ≡ₚ l ++ fl ++ owned q (po ++ wk ++ dn.*1)) as Hperm.
  { rewrite !owned_app, owned_cons. unfold chain_ids at 1. simpl. rewrite Hch. by solve_Permutation. }
  rewrite Hperm in Hp. rewrite <- Hp in Hnd. pose proof (proj2 (proj2 (proj1 (NoDup_app _ _) Hnd))) as Hnd2.
  destruct (free_chain_spec (Z.to_nat (vq_size q)) (desc q) hd (free_head q) 0 l b fl) as (d' & Hfc & Hd' & Hl'); [exact Hch | | done | done |].
  { rewrite app_assoc in Hnd. by apply NoDup_app in Hnd as (? & _ & _). }
  assert (hd ∈ l) as Hhd by (apply walk_head in Hch as [Hw _]; destruct l; [done |]; injection Hw as ->; set_solver).
  assert (0 <= hd < vq_size q) as Hrange.
  { assert (hd ∈ table (Z.to_nat (vq_size q))) as Ht by (rewrite <- Hp; set_solver). apply elem_of_table in Ht. lia. }
  assert (Z.of_nat (length l + length fl) <= vq_size q) as Hll.
  { apply Permutation_length in Hp. rewrite !length_app, table_length in Hp. lia. }
  eexists. split; [apply (Hpop l d' Hok Hch); [lia | exact Hfc] |].
  assert (forall h b', (h, b') ∈ po ++ wk ++ dn.*1 -> walk (Z.to_nat (vq_size q)) d' h = chain q h) as Hold.
  { intros h b' Hin. destruct (Hc h b') as [lh Hlh]; [set_solver |]. rewrite Hlh. apply (walk_ext _ (desc q)); [exact Hlh |].
    intros j Hj. apply Hd'. intros Hjl. apply NoDup_app in Hnd as (_ & Hdis & _). apply (Hdis j Hjl). rewrite elem_of_app. right. by eapply owned_elem. }
  split; simpl; unfold in_flight_chains; simpl; [done | | | done | done | | |].
  - exists (l ++ fl). split_and!; [done | | |].
    + intros _. apply walk_head in Hch as [Hw _]. by destruct l.
    + unfold w16. rewrite length_app, (Z.mod_small (Z.of_nat (length l))), Z.mod_small by lia. lia.
    + rewrite <- Hp, (owned_ext q) by exact Hold. by rewrite <- app_assoc.
  - intros h b' Hin. destruct (Hc h b') as [lh Hlh]; [set_solver |]. exists lh. rewrite <- Hlh. by apply (Hold h b').
  - rewrite Hus. unfold w16. rewrite Zplus_mod_idemp_l. f_equal. lia.
  - intros k c Hk. specialize (Hdn (S k) c Hk). rewrite <- Hdn. f_equal. rewrite Zplus_mod, w16_mod, <- Zplus_mod by apply Hs0 || done. f_equal. lia.
  - split; [apply Hr | apply Z.mod_pos_bound; lia].
Qed.
End steps.

(** ** Start-up *)

Lemma seed_lookup size n i :
  0 <= i < Z.of_nat n -> foldl (fun (d : gmap Z VirtqDesc) i => <[i := mkDesc 0 0 0 (if w16 (i + 1) <? size then w16 (i + 1) else 0)]> d) ∅ (table n) !! i =
  Some (mkDesc 0 0 0 (if w16 (i + 1) <? size then w16 (i + 1) else 0)).
Proof.
  unfold table. induction n as [| n IH]; [lia |]. intros Hi. rewrite seq_S, fmap_app, foldl_app. simpl.
  destruct (decide (i = Z.of_nat n)) as [-> | Hne]; [by rewrite lookup_insert_eq |].
  rewrite lookup_insert_ne by lia. apply IH. lia.
Qed.

Lemma links_seq d a n :
  (forall i, (a <= i < a + n)%nat -> exists e, d !! Z.of_nat i = Some e /\ ((S i < a + n)%nat -> d_next e = Z.of_nat (S i))) ->
  links d (Z.of_nat <$> seq a n).
Proof.
  revert a. induction n as [| n IH]; intros a H; [done |]. simpl. split; [| apply IH; intros i Hi; destruct (H i) as (e & He & Hn); [lia |]; exists e; split; [done | intros; apply Hn; lia]].
  destruct (H a) as (e & He & Hn); [lia |]. exists e. split; [done |]. intros j. destruct n as [| n]; [done |]. simpl. intros [= <-]. apply Hn. lia.
Qed.

Lemma vboot_ok size : 0 < size < 2 ^ 16 -> 2 ^ 16 mod size = 0 -> vok (vboot size).
Proof.
  intros Hs Hd. split; simpl; try done; try (by intros ? ? ?%not_elem_of_nil).
  - exists (table (Z.to_nat size)). rewrite table_length. split_and!; [| | lia | by rewrite app_nil_r].
    + apply links_seq. intros i Hi. eexists. split; [apply seed_lookup; lia |]. intros Hi'. simpl.
      unfold w16. rewrite Z.mod_small by lia. destruct (Z.ltb_spec (Z.of_nat i + 1) size); lia.
    + intros _. unfold table. by destruct (Z.to_nat size) eqn:E; [lia |].
Qed.

Lemma vstep_ok w w' : vok w -> vstep w w' -> vok w'.
Proof.
  intros Hok Hst. destruct Hst as [bufs hd q q' f po wk dn pp Hp | q f x po wk dn pp hd l bufs Hne Hr Hc | | q q' f po wk x dn r pp Hp].
  - assert (bufs <> [] /\ Z.of_nat (length bufs) <= num_free q /\ (length bufs <= 32)%nat) as (H1 & H2 & H3).
    { unfold push_chain in Hp. destruct (_ || _)%bool eqn:E; [done |]. apply orb_false_iff in E as [E1%Z.eqb_neq E2%Z.ltb_ge].
      destruct (Z.ltb_spec 32 (Z.of_nat (length bufs))); [done |]. unfold w16 in E2. rewrite Z.mod_small in E2 by lia.
      split_and!; [by intros -> | done | lia]. }
    destruct (push_ok q f po wk dn pp bufs Hok H1 H2 H3) as (hd' & q'' & E & _ & Hok'). rewrite Hp in E. by injection E as -> ->.
  - by apply (fetch_ok q f po wk dn pp x hd l bufs).
  - by eapply vq_complete_ok.
  - destruct (pop_ok q f po wk dn pp x (pp ++ [r]) Hok) as (q'' & E & Hok'). rewrite Hp in E. by injection E as -> ->.
Qed.

Lemma virtq_reachable size w : 0 < size < 2 ^ 16 -> 2 ^ 16 mod size = 0 -> rtc vstep (vboot size) w -> vok w.
Proof.
  intros Hs Hd Hr. pose proof (vboot_ok size Hs Hd) as H0. induction Hr; [done |]. by eauto using vstep_ok.
Qed.

(** ** Facts for the drivers *)

Lemma chain_head q hd l b : chain q hd = Some (l, b) -> hd ∈ chain_ids q hd.
Proof. intros Hc. unfold chain_ids. rewrite Hc. apply walk_head in Hc as [Hh _]. destruct l; [done |]. injection Hh as ->. set_solver. Qed.

Lemma heads_owned q cs hd :
  (forall hd b, (hd, b) ∈ cs -> exists l, chain q hd = Some (l, b)) -> hd ∈ cs.*1 -> hd ∈ owned q cs.
Proof.
  intros Hc ([hd' b] & -> & Hin)%list_elem_of_fmap. destruct (Hc hd' b Hin) as [l Hl]. unfold owned. apply list_elem_of_bind.
  exists (hd', b). split; [by eapply chain_head | done].
Qed.

Lemma heads_NoDup w : vok w -> NoDup (in_flight_chains w).*1.
Proof.
  intros [_ (fl & _ & _ & _ & Hp) Hc _ _ _ _ _]. pose proof (table_NoDup (Z.to_nat (vq_size (vw_q w)))) as Hnd.
  rewrite <- Hp in Hnd. apply NoDup_app in Hnd as (_ & _ & Hnd). revert Hc Hnd. generalize (in_flight_chains w). intros cs.
  induction cs as [| [hd b] cs IH]; intros Hc Hnd; [constructor |]. rewrite owned_cons in Hnd. apply NoDup_app in Hnd as (_ & Hdis & Hnd).
  simpl. constructor; [| apply IH; [set_solver | done]]. intros Hin. destruct (Hc hd b) as [l Hl]; [set_solver |].
  apply (Hdis hd); [by eapply chain_head |]. apply heads_owned; [set_solver | done].
Qed.

(** The descriptor the next push will take is in no chain. *)
Lemma peek_idle w hd : vok w -> peek_free_head (vw_q w) = Some hd -> hd ∉ (in_flight_chains w).*1 /\ 0 <= hd < vq_size (vw_q w).
Proof.
  intros [_ (fl & _ & Hh & Hn & Hp) Hc _ _ _ _ _]. unfold peek_free_head. destruct (Z.eqb_spec (num_free (vw_q w)) 0); [done |]. intros [= <-].
  assert (free_head (vw_q w) ∈ fl) as Hin by (destruct fl; [simpl in *; lia |]; specialize (Hh ltac:(done)); injection Hh as ->; set_solver).
  pose proof (table_NoDup (Z.to_nat (vq_size (vw_q w)))) as Hnd. rewrite <- Hp in Hnd. apply NoDup_app in Hnd as (_ & Hdis & _). split.
  - intros Hx. apply (Hdis _ Hin). by apply heads_owned.
  - assert (free_head (vw_q w) ∈ table (Z.to_nat (vq_size (vw_q w)))) as Ht by (rewrite <- Hp; set_solver). apply elem_of_table in Ht. lia.
Qed.

(** ** Properties *)

(** C20. Descriptors are never shared or lost. In every interleaving of driver
    and device, with a power-of-two queue: each descriptor is on the free list
    or in exactly one chain offered, in progress or completed; the device reads
    every such chain as exactly the buffers the driver pushed; and the next slot
    of the ring it looks at holds the oldest offered chain. *)
Theorem virtq_descriptors_owned size w :
  0 < size < 2 ^ 16 -> 2 ^ 16 mod size = 0 -> rtc vstep (vboot size) w ->
  (exists fl, Z.of_nat (length fl) = num_free (vw_q w) /\ fl ++ owned (vw_q w) (in_flight_chains w) ≡ₚ table (Z.to_nat (vq_size (vw_q w)))) /\
  (forall hd bufs, (hd, bufs) ∈ in_flight_chains w -> exists l, chain (vw_q w) hd = Some (l, bufs)) /\
  (forall c po, vw_posted w = c :: po -> avail_ring (vw_q w) !! (vw_fetch w mod vq_size (vw_q w)) = Some c.1).
Proof.
  intros Hs Hd Hr. destruct (virtq_reachable size w Hs Hd Hr) as [_ (fl & _ & _ & Hn & Hp) Hc _ Hpo _ _ _].
  split_and!; [by exists fl | done |]. intros c po Ec. rewrite Ec in Hpo. by rewrite <- (Hpo 0%nat c eq_refl), Z.add_0_r.
Qed.

(** The driver's side of the queue is total and exact: in every reachable
    state [push_chain] fails only on an empty request, one of more than 32
    buffers or one larger than the free list, and otherwise returns the head
    [peek_free_head] foretold; [pop_used] returns [None] exactly when no
    completion is outstanding, and else the oldest one, with its length. *)
Theorem virtq_ops_exact size w bufs :
  0 < size < 2 ^ 16 -> 2 ^ 16 mod size = 0 -> rtc vstep (vboot size) w ->
  (exists r q', push_chain bufs (vw_q w) = Done (r, q') /\
     match r with
     | Ok hd => peek_free_head (vw_q w) = Some hd
     | Err _ => q' = vw_q w /\ (bufs = [] \/ (32 < length bufs)%nat \/ num_free (vw_q w) < Z.of_nat (length bufs))
     end) /\
  (exists o q', pop_used (vw_q w) = Done (o, q') /\ o = (fun c => (c.1.1, c.2)) <$> head (vw_done w)).
Proof.
  intros Hs Hd Hr. pose proof (virtq_reachable size w Hs Hd Hr) as Hok. destruct w as [q f po wk dn pp]. simpl. split.
  - destruct (decide (bufs <> [] /\ Z.of_nat (length bufs) <= num_free q /\ (length bufs <= 32)%nat)) as [(H1 & H2 & H3) | Hno].
    + destruct (push_ok q f po wk dn pp bufs Hok H1 H2 H3) as (hd & q' & -> & Hpk & _). by do 2 eexists.
    + exists (Err tt), q. split; [| split; [done |]; destruct bufs; [by left |]; right; destruct (decide (32 < length (b :: bufs))%nat); [by left | right; apply Z.nle_gt; intros ?; apply Hno; split_and!; [done | done | lia]]].
      unfold push_chain. destruct (_ || _)%bool eqn:E; [done |]. destruct (Z.ltb_spec 32 (Z.of_nat (length bufs))); [done |].
      exfalso. apply Hno. apply orb_false_iff in E as [E1%Z.eqb_neq E2%Z.ltb_ge]. unfold w16 in E2. rewrite Z.mod_small in E2 by lia.
      split_and!; [by intros -> | done | lia].
  - destruct dn as [| c dn].
    + exists None, q. split; [| done]. unfold pop_used. pose proof (vk_used _ Hok) as Hu. pose proof (vk_ranges _ Hok) as [_ Hl]. simpl in Hu, Hl.
      rewrite Hu, Z.add_0_r. unfold w16. rewrite Z.mod_small by lia. by rewrite Z.eqb_refl.
    + destruct (pop_ok q f po wk dn pp c [] Hok) as (q' & -> & _). by do 2 eexists.
Qed.

(** ** Witnesses *)

(** A queue of four descriptors: two buffers offered, fetched, completed. *)
Definition two_bufs : list Buf := [mkBuf 4096 16 false; mkBuf 8192 512 true].
Definition vq_pushed : Virtqueue := match push_chain two_bufs (Virtqueue_new 4) with Done (_, q) => q | Panic => Virtqueue_new 4 end.
Definition v_offered : vworld := mkVworld vq_pushed 0 [(0, two_bufs)] [] [] [].
Definition v_fetched : vworld := mkVworld vq_pushed 1 [] [(0, two_bufs)] [] [].
Definition v_completed : vworld :=
  mkVworld (set_used_mem_idx 1 (set_used_ring {[0 := (0, 512)]} vq_pushed)) 1 [] [] [(0, two_bufs, 512)] [].

Lemma v_run : rtc vstep (vboot 4) v_completed.
Proof.
  eapply rtc_l; [apply (v_push two_bufs 0 (Virtqueue_new 4) vq_pushed); reflexivity |].
  eapply rtc_l; [eapply (v_fetch vq_pushed 0 _ _ _ _ _ 0 [0; 1] two_bufs); [discriminate | reflexivity | reflexivity] |].
  eapply rtc_l; [apply (v_complete vq_pushed 1 [] [] 0 two_bufs [] [] 512 []) | apply rtc_refl].
Qed.

Lemma virtq_descriptors_owned_witness :
  exists l, chain (vw_q v_completed) 0 = Some (l, two_bufs).
Proof. apply (virtq_descriptors_owned 4 v_completed); [lia | reflexivity | apply v_run | apply list_elem_of_singleton; reflexivity]. Defined.

Lemma virtq_ops_exact_witness : exists q', pop_used (vw_q v_completed) = Done (Some (0, 512), q').
Proof.
  destruct (virtq_ops_exact 4 v_completed two_bufs) as [_ (o & q' & E & ->)]; [lia | reflexivity | apply v_run |].
  exists q'. exact E.
Defined.
