(* ===== verification/Blk.v ===== *)
(** * The block device driver

    Models [virtio_blk/src/device.rs] (three-descriptor reads, the request arena,
    the drain of completions) and the kernel's part of
    [kmain/src/drivers/virtio_blk_dev.rs]: the submission of a cached read with its
    side table of keys, and the interrupt handler that turns completions into
    [CacheFill] events. The initial handshake is register I/O and is left out.

    Physical memory is split by use: request headers and status bytes by their
    address in the arena, everything else as bytes. The device reads the header of
    a chain it fetched, and on success copies the sectors asked for to the data
    buffer before it writes the status. *)

From stdpp Require Import base list option numbers sets gmap.
From S2P Require Import Prelude Text ThingBuf Virtqueue.
#[local] Open Scope Z_scope.

Definition SECTOR_SIZE : Z := 512.
Definition MAX_REQ_BYTES : Z := 4096.
Definition VIRTIO_BLK_T_IN : Z := 0.
Definition VIRTIO_BLK_S_OK : Z := 0.

Record BlkReqHeader := mkHeader { h_ty : Z; h_reserved : Z; h_sector : Z }.

Definition QUEUE_SIZE : Z := 64.
Definition HEADER_OFFSET : Z := 0.
Definition HEADER_STRIDE : Z := 16.
Definition STATUS_OFFSET : Z := QUEUE_SIZE * HEADER_STRIDE.
Definition STATUS_STRIDE : Z := 1.
Definition STATUS_TABLE_BYTES : Z := 1024.
Definition SYNC_DATA_OFFSET : Z := STATUS_OFFSET + STATUS_TABLE_BYTES.
Definition ARENA_BYTES : Z := SYNC_DATA_OFFSET + SECTOR_SIZE.

(** [Init] carries the transport's error in the code. *)
Inductive BlockError :=
| Init
| QueueTooSmall (wanted got : Z)
| ArenaTooSmall (needed got : Z)
| QueueFull
| BadStatus (status : Z)
| BadLength (wanted got : Z)
| BadBufferLen (len : Z)
| OutOfRange (lba capacity : Z)
| Timeout.

(** [Block], with the memory it writes through [arena_kva]. *)
Record Block := mkBlock {
  reqq : Virtqueue;
  arena_pa : Z;
  capacity_sectors : Z;
  headers : gmap Z BlkReqHeader;
  statuses : gmap Z Z;
}.

Definition eta_block (b : Block) : Block := mkBlock (reqq b) (arena_pa b) (capacity_sectors b) (headers b) (statuses b).
Definition set_reqq : Virtqueue -> Block -> Block := ltac:(set_field eta_block reqq).
Definition set_headers : gmap Z BlkReqHeader -> Block -> Block := ltac:(set_field eta_block headers).
Definition set_statuses : gmap Z Z -> Block -> Block := ltac:(set_field eta_block statuses).

Definition peek_next_head (b : Block) : option Z := peek_free_head (reqq b).
Definition header_slot (b : Block) (hd : Z) : Z := arena_pa b + (HEADER_OFFSET + hd * HEADER_STRIDE).
Definition status_slot (b : Block) (hd : Z) : Z := arena_pa b + (STATUS_OFFSET + hd * STATUS_STRIDE).

(** The chain of a read. *)
Definition read_bufs (b : Block) (hd dst_pa len : Z) : list Buf :=
  [mkBuf (header_slot b hd) HEADER_STRIDE false; mkBuf dst_pa len true; mkBuf (status_slot b hd) 1 true].

Definition submit_read (lba dst_pa len : Z) (b : Block) : panics (result Z BlockError * Block) :=
  if ((len =? 0) || negb (len mod SECTOR_SIZE =? 0) || (MAX_REQ_BYTES <? len))%bool then Done (Err (BadLength SECTOR_SIZE len), b)
  else
    let sector_count := len / SECTOR_SIZE in
    if ((capacity_sectors b <=? lba) || (capacity_sectors b - lba <? sector_count))%bool
    then Done (Err (OutOfRange lba (capacity_sectors b)), b)
    else
      match peek_free_head (reqq b) with
      | None => Done (Err QueueFull, b)
      | Some predicted =>
          let b := set_headers (<[header_slot b predicted := mkHeader VIRTIO_BLK_T_IN 0 lba]> (headers b)) b in
          let b := set_statuses (<[status_slot b predicted := 0xff]> (statuses b)) b in
          r <-! push_chain (read_bufs b predicted dst_pa len) (reqq b) ;;
          let b := set_reqq r.2 b in
          match r.1 with
          | Err _ => Done (Err QueueFull, b)
          | Ok hd => Done (Ok hd, b)
          end
      end.

(** One turn of the loop of [drain_used]: the head and the status byte. *)
Definition drain_one (b : Block) : panics (option (Z * Z) * Block) :=
  r <-! pop_used (reqq b) ;;
  let b := set_reqq r.2 b in
  match r.1 with
  | None => Done (None, b)
  | Some (hd, _) => Done (Some (hd, default 0 (statuses b !! status_slot b hd)), b)
  end.

(** ** The kernel's side *)

Record CacheFillEvent := mkFill { packed_key : Z; fill_status : Z }.

Section driver.
Context {B : Type -> Type} `{ThingBufLaws B}.

(** The driver, the side table, the completion ring, the events it refused, and
    the bytes of memory. *)
Record BlkDev := mkBlkDev {
  dv_block : Block;
  IN_FLIGHT : gmap Z Z;
  CACHE_FILLS : B CacheFillEvent;
  dv_dropped : list CacheFillEvent;
  dv_mem : gmap Z Z;
}.

Definition eta_dev (d : BlkDev) : BlkDev := mkBlkDev (dv_block d) (IN_FLIGHT d) (CACHE_FILLS d) (dv_dropped d) (dv_mem d).
Definition set_block : Block -> BlkDev -> BlkDev := ltac:(set_field eta_dev dv_block).
Definition set_in_flight : gmap Z Z -> BlkDev -> BlkDev := ltac:(set_field eta_dev IN_FLIGHT).
Definition set_fills : B CacheFillEvent -> BlkDev -> BlkDev := ltac:(set_field eta_dev CACHE_FILLS).
Definition set_dropped : list CacheFillEvent -> BlkDev -> BlkDev := ltac:(set_field eta_dev dv_dropped).
Definition set_mem : gmap Z Z -> BlkDev -> BlkDev := ltac:(set_field eta_dev dv_mem).

Definition submit_blk_read_cached (lba dst_pa len packed_key : Z) (d : BlkDev) : panics (result Z BlockError * BlkDev) :=
  let cap_sectors := capacity_sectors (dv_block d) in
  let req_sectors := len / SECTOR_SIZE in
  let avail_sectors := Z.max 0 (cap_sectors - lba) in
  if avail_sectors =? 0 then Done (Err (OutOfRange lba cap_sectors), d)
  else
    let actual_sectors := Z.min req_sectors avail_sectors in
    let actual_len := actual_sectors * SECTOR_SIZE in
    let zero_bytes := (req_sectors - actual_sectors) * SECTOR_SIZE in
    let d := if 0 <? zero_bytes then set_mem (write_bytes (dst_pa + actual_len) (Z.to_nat zero_bytes) (fun _ => 0) (dv_mem d)) d else d in
    match peek_next_head (dv_block d) with
    | None => Done (Err QueueFull, d)
    | Some hd =>
        let d := set_in_flight (<[hd := packed_key]> (IN_FLIGHT d)) d in
        r <-! submit_read lba dst_pa actual_len (dv_block d) ;;
        let d := set_block r.2 d in
        match r.1 with
        | Ok _ => Done (Ok hd, d)
        | Err e => Done (Err e, set_in_flight (<[hd := 0]> (IN_FLIGHT d)) d)
        end
    end.

(** One turn of the handler's loop; [false] when the used ring is empty. *)
Definition handler_turn (d : BlkDev) : panics (bool * BlkDev) :=
  r <-! drain_one (dv_block d) ;;
  let d := set_block r.2 d in
  match r.1 with
  | None => Done (false, d)
  | Some (hd, status) =>
      let packed := default 0 (IN_FLIGHT d !! hd) in
      let d := set_in_flight (<[hd := 0]> (IN_FLIGHT d)) d in
      if packed =? 0 then Done (true, d)
      else
        match tb_push (mkFill packed status) (CACHE_FILLS d) with
        | Ok q => Done (true, set_fills q d)
        | Err e => Done (true, set_dropped (dv_dropped d ++ [e]) d)
        end
  end.

Definition virtio_blk_handler (d : BlkDev) : panics BlkDev :=
  let body d := match handler_turn d with Panic => inr Panic | Done (true, d) => inl d | Done (false, d) => inr (Done d) end in
  match while64 body d with Some r => r | None => Panic end.

(** ** The device and the driver together *)

Variable disk : Z -> Z.

(** A request in flight: what it asks for, and the span of memory lent to it. *)
Record request := mkRequest { rq_lba : Z; rq_dst : Z; rq_len : Z; rq_span : Z; rq_key : Z }.

(** The driver, the device's chains, and the books: requests in flight by head,
    the keys accepted, the events produced. *)
Record bworld := mkBworld {
  bw_dev : BlkDev;
  bw_fetch : Z;
  bw_posted : list (Z * list Buf);
  bw_working : list (Z * list Buf);
  bw_done : list (Z * list Buf * Z);
  bw_out : gmap Z request;
  bw_keys : list Z;
  bw_events : list CacheFillEvent;
}.

Definition queue_world (w : bworld) : vworld :=
  mkVworld (reqq (dv_block (bw_dev w))) (bw_fetch w) (bw_posted w) (bw_working w) (bw_done w) [].

Definition apart (a n b m : Z) : Prop := a + n <= b \/ b + m <= a.

(** The span lent to a new request meets no other in flight. *)
Definition lendable (w : bworld) (dst len : Z) : Prop :=
  forall hd r, bw_out w !! hd = Some r -> apart dst len (rq_dst r) (rq_span r).

(** What the device reports in memory for a chain it has finished. *)
Definition finished (m m' : gmap Z Z) (h : BlkReqHeader) (data : Buf) (st : Z) : Prop :=
  (forall a, ~ (b_pa data <= a < b_pa data + b_len data) -> m' !! a = m !! a) /\
  (st = VIRTIO_BLK_S_OK -> forall i, 0 <= i < b_len data -> m' !! (b_pa data + i) = Some (disk (h_sector h * SECTOR_SIZE + i))).

Inductive bstep : bworld -> bworld -> Prop :=
| b_submit lba dst len key hd d d' f po wk dn out ks ev :
    submit_blk_read_cached lba dst len key d = Done (Ok hd, d') -> key <> 0 -> 0 <= lba -> 0 <= len ->
    lendable (mkBworld d f po wk dn out ks ev) dst len ->
    let alen := Z.min (len / SECTOR_SIZE) (Z.max 0 (capacity_sectors (dv_block d) - lba)) * SECTOR_SIZE in
    bstep (mkBworld d f po wk dn out ks ev)
          (mkBworld d' f (po ++ [(hd, read_bufs (dv_block d) hd dst alen)]) wk dn (<[hd := mkRequest lba dst alen len key]> out) (ks ++ [key]) ev)
| b_refused lba dst len key e d d' f po wk dn out ks ev :
    submit_blk_read_cached lba dst len key d = Done (Err e, d') -> 0 <= lba -> 0 <= len ->
    lendable (mkBworld d f po wk dn out ks ev) dst len ->
    bstep (mkBworld d f po wk dn out ks ev) (mkBworld d' f po wk dn out ks ev)
| b_fetch d f x po wk dn out ks ev hd l bufs :
    avail_ring (reqq (dv_block d)) !! (f mod vq_size (reqq (dv_block d))) = Some hd -> chain (reqq (dv_block d)) hd = Some (l, bufs) ->
    bstep (mkBworld d f (x :: po) wk dn out ks ev) (mkBworld d (w16 (f + 1)) po (wk ++ [(hd, bufs)]) dn out ks ev)
| b_complete d f po wk1 hd hdr data stat wk2 dn out ks ev h st m' len :
    headers (dv_block d) !! b_pa hdr = Some h -> finished (dv_mem d) m' h data st ->
    let q := reqq (dv_block d) in
    let q' := set_used_mem_idx (w16 (used_mem_idx q + 1)) (set_used_ring (<[used_mem_idx q mod vq_size q := (hd, len)]> (used_ring q)) q) in
    let b' := set_reqq q' (set_statuses (<[b_pa stat := st]> (statuses (dv_block d))) (dv_block d)) in
    bstep (mkBworld d f po (wk1 ++ (hd, [hdr; data; stat]) :: wk2) dn out ks ev)
          (mkBworld (set_mem m' (set_block b' d)) f po (wk1 ++ wk2) (dn ++ [(hd, [hdr; data; stat], len)]) out ks ev)
| b_turn d d' f po wk hd bufs len dn out ks ev e :
    handler_turn d = Done (true, d') ->
    items (CACHE_FILLS d') ++ dv_dropped d' ≡ₚ e ++ items (CACHE_FILLS d) ++ dv_dropped d ->
    bstep (mkBworld d f po wk ((hd, bufs, len) :: dn) out ks ev) (mkBworld d' f po wk dn (delete hd out) ks (ev ++ e))
| b_consume d q x f po wk dn out ks ev :
    tb_pop (CACHE_FILLS d) = Some (x, q) ->
    bstep (mkBworld d f po wk dn out ks ev) (mkBworld (set_fills q d) f po wk dn out ks ev).

Definition filled (m : gmap Z Z) (r : request) : Prop :=
  forall i, 0 <= i < rq_len r -> m !! (rq_dst r + i) = Some (disk (rq_lba r * SECTOR_SIZE + i)).

Record bok (w : bworld) : Prop := {
  bk_queue : vok (queue_world w);
  bk_out : forall hd bufs, (hd, bufs) ∈ in_flight_chains (queue_world w) -> exists r, bw_out w !! hd = Some r /\
    bufs = read_bufs (dv_block (bw_dev w)) hd (rq_dst r) (rq_len r) /\ IN_FLIGHT (bw_dev w) !! hd = Some (rq_key r) /\
    rq_key r <> 0 /\ headers (dv_block (bw_dev w)) !! header_slot (dv_block (bw_dev w)) hd = Some (mkHeader VIRTIO_BLK_T_IN 0 (rq_lba r));
  bk_idle : forall hd, hd ∉ (in_flight_chains (queue_world w)).*1 -> bw_out w !! hd = None /\ default 0 (IN_FLIGHT (bw_dev w) !! hd) = 0;
  bk_done : forall hd bufs len, (hd, bufs, len) ∈ bw_done w -> exists r st, bw_out w !! hd = Some r /\
    statuses (dv_block (bw_dev w)) !! status_slot (dv_block (bw_dev w)) hd = Some st /\ (st = VIRTIO_BLK_S_OK -> filled (dv_mem (bw_dev w)) r);
  bk_apart : forall h1 h2 r1 r2, bw_out w !! h1 = Some r1 -> bw_out w !! h2 = Some r2 -> h1 <> h2 ->
    apart (rq_dst r1) (rq_span r1) (rq_dst r2) (rq_span r2);
  bk_span : forall hd r, bw_out w !! hd = Some r -> rq_len r <= rq_span r;
  bk_keys : bw_keys w ≡ₚ (packed_key <$> bw_events w) ++ (rq_key <$> (map_to_list (bw_out w)).*2);
}.

Lemma filled_ext m m' r : (forall a, rq_dst r <= a < rq_dst r + rq_len r -> m' !! a = m !! a) -> filled m r -> filled m' r.
Proof. intros Hm Hf i Hi. rewrite Hm by lia. by apply Hf. Qed.

Lemma header_slot_inj b h1 h2 : header_slot b h1 = header_slot b h2 -> h1 = h2.
Proof. unfold header_slot, HEADER_STRIDE. lia. Qed.

Lemma status_slot_inj b h1 h2 : status_slot b h1 = status_slot b h2 -> h1 = h2.
Proof. unfold status_slot, STATUS_STRIDE. lia. Qed.

Lemma in_flight_out w hd r : bok w -> bw_out w !! hd = Some r -> hd ∈ (in_flight_chains (queue_world w)).*1.
Proof.
  intros Hok Hr. destruct (decide (hd ∈ (in_flight_chains (queue_world w)).*1)) as [? | Hno]; [done |].
  destruct (bk_idle w Hok hd Hno) as [E _]. congruence.
Qed.

(** What may change under the requests in flight. *)
Record unseen (w : bworld) (d' : BlkDev) : Prop := {
  un_queue : reqq (dv_block d') = reqq (dv_block (bw_dev w));
  un_arena : arena_pa (dv_block d') = arena_pa (dv_block (bw_dev w));
  un_slots : forall hd, hd ∈ (in_flight_chains (queue_world w)).*1 ->
    IN_FLIGHT d' !! hd = IN_FLIGHT (bw_dev w) !! hd /\
    headers (dv_block d') !! header_slot (dv_block d') hd = headers (dv_block (bw_dev w)) !! header_slot (dv_block (bw_dev w)) hd /\
    statuses (dv_block d') !! status_slot (dv_block d') hd = statuses (dv_block (bw_dev w)) !! status_slot (dv_block (bw_dev w)) hd;
  un_idle : forall hd, hd ∉ (in_flight_chains (queue_world w)).*1 -> default 0 (IN_FLIGHT d' !! hd) = 0;
  un_mem : forall hd r a, bw_out w !! hd = Some r -> rq_dst r <= a < rq_dst r + rq_span r -> dv_mem d' !! a = dv_mem (bw_dev w) !! a;
}.

Definition with_dev (w : bworld) (d' : BlkDev) : bworld :=
  mkBworld d' (bw_fetch w) (bw_posted w) (bw_working w) (bw_done w) (bw_out w) (bw_keys w) (bw_events w).

Lemma unseen_ok w d' : bok w -> unseen w d' -> bok (with_dev w d').
Proof.
  intros Hok [Hq Ha Hs Hi Hm]. assert (queue_world (with_dev w d') = queue_world w) as Eq by (unfold queue_world; simpl; by rewrite Hq).
  assert (forall hd, header_slot (dv_block d') hd = header_slot (dv_block (bw_dev w)) hd) as Eh by (intros; unfold header_slot; by rewrite Ha).
  assert (forall hd, status_slot (dv_block d') hd = status_slot (dv_block (bw_dev w)) hd) as Es by (intros; unfold status_slot; by rewrite Ha).
  destruct Hok as [Hv Ho Hid Hd Hap Hsp Hk]. split; rewrite ?Eq; simpl; try done.
  - intros hd bufs Hin. destruct (Ho hd bufs Hin) as (r & H1 & H2 & H3 & H4 & H5). destruct (Hs hd) as (E1 & E2 & _); [by apply (list_elem_of_fmap_2 fst) in Hin |].
    exists r. rewrite E1, E2. split_and!; try done. rewrite H2. unfold read_bufs. by rewrite Eh, Es.
  - intros hd Hno. split; [by apply Hid | by apply Hi].
  - intros hd bufs len Hin. destruct (Hd hd bufs len Hin) as (r & st & H1 & H2 & H3). exists r, st.
    destruct (Hs hd) as (_ & _ & E3).
    { unfold in_flight_chains. simpl. rewrite !fmap_app, !elem_of_app. right; right. apply list_elem_of_fmap. exists (hd, bufs). split; [done |].
      apply list_elem_of_fmap. by exists (hd, bufs, len). }
    rewrite E3. split_and!; [done | done |]. intros Hst. apply (filled_ext (dv_mem (bw_dev w))); [| by apply H3].
    intros a Hx. apply (Hm hd r); [done |]. specialize (Hsp hd r H1). lia.
Qed.

(** ** Submission *)

(** The arena after the request is written, before it is published. *)
Definition staged (b : Block) (hd lba : Z) : Block :=
  set_statuses (<[status_slot b hd := 0xff]> (statuses b)) (set_headers (<[header_slot b hd := mkHeader VIRTIO_BLK_T_IN 0 lba]> (headers b)) b).

Lemma submit_read_spec lba dst len b f po wk dn :
  vok (mkVworld (reqq b) f po wk dn []) ->
  exists r b', submit_read lba dst len b = Done (r, b') /\
    match r with
    | Ok hd => peek_free_head (reqq b) = Some hd /\ exists q', b' = set_reqq q' (staged b hd lba) /\
        vok (mkVworld q' f (po ++ [(hd, read_bufs b hd dst len)]) wk dn [])
    | Err _ => b' = b \/ exists hd, peek_free_head (reqq b) = Some hd /\ b' = staged b hd lba
    end.
Proof.
  intros Hv. unfold submit_read. destruct (_ || _)%bool; [do 2 eexists; split; [done | by left] |].
  destruct (_ || _)%bool; [do 2 eexists; split; [done | by left] |]. destruct (peek_free_head (reqq b)) as [hd |] eqn:Ep;
    [| do 2 eexists; split; [done | by left]].
  cbn [set_headers set_statuses reqq statuses]. destruct (Z.leb_spec 3 (num_free (reqq b))) as [H3 | H3].
  - destruct (push_ok (reqq b) f po wk dn [] (read_bufs b hd dst len)) as (hd' & q' & E & Ep' & Hv'); [done | done | simpl; lia | simpl; lia |].
    rewrite Ep in Ep'. injection Ep' as <-.
    match goal with |- context [push_chain ?x (reqq b)] => change x with (read_bufs b hd dst len) end.
    rewrite E. cbn [pbind fst snd]. do 2 eexists. split; [done |]. split; [done |]. by exists q'.
  - match goal with |- context [push_chain ?x (reqq b)] => assert (push_chain x (reqq b) = Done (Err tt, reqq b)) as -> end.
    { unfold push_chain. cbn [length read_bufs]. change (w16 (Z.of_nat 3)) with 3. destruct (Z.ltb_spec (num_free (reqq b)) 3); [| lia]. by rewrite orb_true_r. }
    cbn [pbind fst snd]. do 2 eexists. split; [done |]. right. exists hd. split; [done |]. by destruct b.
Qed.

Lemma push_bok w d' hd lba dst len span key q' :
  bok w -> peek_free_head (reqq (dv_block (bw_dev w))) = Some hd -> key <> 0 -> len <= span -> lendable w dst span ->
  unseen w (set_in_flight (<[hd := 0]> (IN_FLIGHT d')) (set_block (set_reqq (reqq (dv_block (bw_dev w))) (dv_block d')) d')) ->
  IN_FLIGHT d' !! hd = Some key -> reqq (dv_block d') = q' ->
  headers (dv_block d') !! header_slot (dv_block d') hd = Some (mkHeader VIRTIO_BLK_T_IN 0 lba) ->
  vok (mkVworld q' (bw_fetch w) (bw_posted w ++ [(hd, read_bufs (dv_block (bw_dev w)) hd dst len)]) (bw_working w) (bw_done w) []) ->
  bok (mkBworld d' (bw_fetch w) (bw_posted w ++ [(hd, read_bufs (dv_block (bw_dev w)) hd dst len)]) (bw_working w) (bw_done w)
         (<[hd := mkRequest lba dst len span key]> (bw_out w)) (bw_keys w ++ [key]) (bw_events w)).
Proof.
  intros Hok Hpk Hkey Hls Hlend Hun Hin Hq Hh Hv. pose proof (unseen_ok w _ Hok Hun) as Hok'. pose proof (un_arena _ _ Hun) as Ha. simpl in Ha.
  destruct (peek_idle (queue_world w) hd (bk_queue w Hok) Hpk) as [Hidle _].
  destruct (bk_idle w Hok hd Hidle) as [Hno _].
  assert (forall x y, read_bufs (dv_block (bw_dev w)) hd x y = read_bufs (dv_block d') hd x y) as Er.
  { intros. unfold read_bufs, header_slot, status_slot. by rewrite Ha. }
  assert (in_flight_chains (mkVworld q' (bw_fetch w) (bw_posted w ++ [(hd, read_bufs (dv_block d') hd dst len)]) (bw_working w) (bw_done w) [])
          ≡ₚ (hd, read_bufs (dv_block d') hd dst len) :: in_flight_chains (queue_world w)) as Hperm.
  { unfold in_flight_chains. simpl. by solve_Permutation. }
  rewrite Er in *. split; unfold queue_world; simpl; rewrite ?Hq; [done | | | | | |].
  - intros h bufs. rewrite Hperm, elem_of_cons. intros [[= -> ->] | Hin'].
    + eexists. rewrite lookup_insert_eq. split_and!; [done | done | done | done | done].
    + destruct (bk_out _ Hok' h bufs) as (r & H1 & H2 & H3 & H4 & H5); [exact Hin' |]. simpl in *.
      assert (h <> hd) as Hne by (intros ->; congruence). exists r. rewrite !lookup_insert_ne in * by done. split_and!; try done.
  - intros h. rewrite Hperm. simpl. rewrite not_elem_of_cons. intros [Hne Hno']. rewrite lookup_insert_ne by done.
    destruct (bk_idle _ Hok' h) as [H1 H2]; [exact Hno' |]. simpl in *. rewrite lookup_insert_ne in H2 by done. done.
  - intros h bufs l Hd. destruct (bk_done _ Hok' h bufs l Hd) as (r & st & H1 & H2 & H3). simpl in *. exists r, st.
    rewrite lookup_insert_ne; [done |]. intros ->. congruence.
  - intros h1 h2 r1 r2. rewrite !lookup_insert_Some. intros [[<- <-] | [N1 E1]] [[<- <-] | [N2 E2]] Hne; [done | simpl; by eapply Hlend | simpl | by eapply (bk_apart w Hok)].
    specialize (Hlend h1 r1 E1). unfold apart in *. lia.
  - intros h r. rewrite lookup_insert_Some. intros [[<- <-] | [_ E]]; [done |]. by eapply (bk_span w Hok).
  - rewrite map_to_list_insert by done. simpl. rewrite (bk_keys w Hok). by solve_Permutation.
Qed.

(** The device with the tail of a short page cleared. *)
Definition cleared (d : BlkDev) (dst actual_len zero_bytes : Z) : BlkDev :=
  if 0 <? zero_bytes then set_mem (write_bytes (dst + actual_len) (Z.to_nat zero_bytes) (fun _ => 0) (dv_mem d)) d else d.

(** A device that differs from the one before by staged slots of an idle head and
    by cleared bytes of lendable memory. *)
Lemma staged_unseen w d' dst len alen zb hd (b' : Block) :
  bok w -> lendable w dst len -> 0 <= alen -> alen + zb <= len -> peek_free_head (reqq (dv_block (bw_dev w))) = Some hd ->
  (b' = dv_block (bw_dev w) \/ exists lba, b' = staged (dv_block (bw_dev w)) hd lba) ->
  d' = set_block b' (cleared (bw_dev w) dst alen zb) -> unseen w (set_in_flight (<[hd := 0]> (IN_FLIGHT d')) d').
Proof.
  intros Hok Hl Ha Hz Hpk Hb ->. destruct (peek_idle (queue_world w) hd (bk_queue w Hok) Hpk) as [Hidle _].
  assert (reqq b' = reqq (dv_block (bw_dev w)) /\ arena_pa b' = arena_pa (dv_block (bw_dev w))) as [Hq Har] by (destruct Hb as [-> | [? ->]]; done).
  assert (IN_FLIGHT (cleared (bw_dev w) dst alen zb) = IN_FLIGHT (bw_dev w)) as Ei by (unfold cleared; by destruct (0 <? zb)).
  split; simpl; rewrite ?Ei; [done | done | | |].
  - intros h Hh. assert (h <> hd) as Hne by (intros ->; done). rewrite lookup_insert_ne by done. split; [done |].
    destruct Hb as [-> | [lba ->]]; [done |]. simpl.
    split; (rewrite lookup_insert_ne; [done |]); [intros E; apply Hne; symmetry; exact (header_slot_inj (dv_block (bw_dev w)) _ _ E) | intros E; apply Hne; symmetry; exact (status_slot_inj (dv_block (bw_dev w)) _ _ E)].
  - intros h Hh. destruct (decide (h = hd)) as [-> | Hne]; [by rewrite lookup_insert_eq |]. rewrite lookup_insert_ne by done. by apply (bk_idle w Hok).
  - intros h r a Hr Hx. specialize (Hl h r Hr). unfold cleared. destruct (Z.ltb_spec 0 zb); [simpl | done].
    apply write_bytes_other. unfold apart in Hl. lia.
Qed.

Lemma submit_ok w lba dst len key :
  bok w -> 0 <= lba -> 0 <= len -> lendable w dst len ->
  exists r d', submit_blk_read_cached lba dst len key (bw_dev w) = Done (r, d') /\
    match r with
    | Err _ => bok (with_dev w d')
    | Ok hd => key <> 0 ->
        let alen := Z.min (len / SECTOR_SIZE) (Z.max 0 (capacity_sectors (dv_block (bw_dev w)) - lba)) * SECTOR_SIZE in
        bok (mkBworld d' (bw_fetch w) (bw_posted w ++ [(hd, read_bufs (dv_block (bw_dev w)) hd dst alen)]) (bw_working w) (bw_done w)
               (<[hd := mkRequest lba dst alen len key]> (bw_out w)) (bw_keys w ++ [key]) (bw_events w))
    end.
Proof.
  intros Hok Hlba Hlen Hl. unfold submit_blk_read_cached. set (avail := Z.max 0 (capacity_sectors (dv_block (bw_dev w)) - lba)).
  destruct (Z.eqb_spec avail 0); [do 2 eexists; split; [done |]; by destruct w |]. set (alen := Z.min (len / SECTOR_SIZE) avail * SECTOR_SIZE).
  set (zb := (len / SECTOR_SIZE - Z.min (len / SECTOR_SIZE) avail) * SECTOR_SIZE).
  assert (0 <= alen /\ alen + zb <= len) as [Ha Hz].
  { unfold alen, zb, SECTOR_SIZE. pose proof (Z.mul_div_le len 512). pose proof (Z.div_pos len 512). lia. }
  fold (cleared (bw_dev w) dst alen zb). set (d := cleared (bw_dev w) dst alen zb).
  assert (dv_block d = dv_block (bw_dev w)) as Eb by (unfold d, cleared; by destruct (0 <? zb)).
  assert (IN_FLIGHT d = IN_FLIGHT (bw_dev w)) as Ei by (unfold d, cleared; by destruct (0 <? zb)).
  unfold peek_next_head. rewrite Eb. destruct (peek_free_head (reqq (dv_block (bw_dev w)))) as [hd |] eqn:Ep.
  - cbn [dv_block set_in_flight]. rewrite Eb. destruct (submit_read_spec lba dst alen (dv_block (bw_dev w)) _ _ _ _ (bk_queue w Hok)) as (r & b' & -> & Hr).
    cbn [pbind fst snd]. destruct r as [hd' | e].
    + destruct Hr as (Ep' & q' & -> & Hv). rewrite Ep in Ep'. injection Ep' as <-. do 2 eexists. split; [done |]. intros Hkey.
      apply (push_bok w _ hd lba dst alen len key q'); try done; [unfold zb, SECTOR_SIZE in Hz; lia | | simpl; apply lookup_insert_eq | simpl; apply lookup_insert_eq].
      eapply eq_ind; [eapply (staged_unseen w _ dst len alen zb hd (staged (dv_block (bw_dev w)) hd lba)); eauto |].
      fold d. unfold set_in_flight, set_block. simpl. by rewrite insert_insert_eq.
    + do 2 eexists. split; [done |]. apply unseen_ok; [done |].
      eapply eq_ind; [eapply (staged_unseen w _ dst len alen zb hd b'); eauto; destruct Hr as [-> | (hd' & Ep' & ->)]; [by left |]; rewrite Ep in Ep'; injection Ep' as <-; eauto |].
      fold d. unfold set_in_flight, set_block. simpl. by rewrite insert_insert_eq.
  - do 2 eexists. split; [done |]. apply unseen_ok; [done |]. split; rewrite ?Eb, ?Ei; try done.
    + intros h Hh. by apply (bk_idle w Hok).
    + intros h r a Hr Hx. specialize (Hl h r Hr). unfold d, cleared. destruct (Z.ltb_spec 0 zb); [simpl | done].
      apply write_bytes_other. unfold apart in Hl. lia.
Qed.

(** ** The device's steps and the interrupt *)

Lemma fetch_bok d f x po wk dn out ks ev hd l bufs :
  bok (mkBworld d f (x :: po) wk dn out ks ev) ->
  avail_ring (reqq (dv_block d)) !! (f mod vq_size (reqq (dv_block d))) = Some hd -> chain (reqq (dv_block d)) hd = Some (l, bufs) ->
  bok (mkBworld d (w16 (f + 1)) po (wk ++ [(hd, bufs)]) dn out ks ev).
Proof.
  intros [Hv Ho Hid Hd Hap Hsp Hk] Hr Hc. unfold queue_world in *. simpl in *.
  destruct (fetch_ok _ _ _ _ _ _ x hd l bufs Hv Hr Hc) as [<- Hv'].
  assert (in_flight_chains (mkVworld (reqq (dv_block d)) (w16 (f + 1)) po (wk ++ [(hd, bufs)]) dn []) ≡ₚ
          in_flight_chains (mkVworld (reqq (dv_block d)) f ((hd, bufs) :: po) wk dn [])) as Hp by (unfold in_flight_chains; simpl; by solve_Permutation).
  split; unfold queue_world; simpl; [done | | | done | done | done | done].
  - intros h b. rewrite Hp. apply Ho.
  - intros h. rewrite Hp. apply Hid.
Qed.

Lemma complete_bok d f po wk1 hd hdr data stat wk2 dn out ks ev h st m' len :
  bok (mkBworld d f po (wk1 ++ (hd, [hdr; data; stat]) :: wk2) dn out ks ev) ->
  headers (dv_block d) !! b_pa hdr = Some h -> finished (dv_mem d) m' h data st ->
  let q := reqq (dv_block d) in
  let q' := set_used_mem_idx (w16 (used_mem_idx q + 1)) (set_used_ring (<[used_mem_idx q mod vq_size q := (hd, len)]> (used_ring q)) q) in
  let b' := set_reqq q' (set_statuses (<[b_pa stat := st]> (statuses (dv_block d))) (dv_block d)) in
  bok (mkBworld (set_mem m' (set_block b' d)) f po (wk1 ++ wk2) (dn ++ [(hd, [hdr; data; stat], len)]) out ks ev).
Proof.
  intros [Hv Ho Hid Hd Hap Hsp Hk] Hh [Hfr Hfi] q q' b'. unfold queue_world in *. simpl in *.
  pose proof (heads_NoDup _ Hv) as Hnd. pose proof (vq_complete_ok q f po (wk1 ++ (hd, [hdr; data; stat]) :: wk2) dn [] wk1 hd _ wk2 len eq_refl Hv) as Hv'.
  destruct (Ho hd [hdr; data; stat]) as (r & Hr & Hbufs & Hin & Hkey & Hhdr); [unfold in_flight_chains; simpl; set_solver |].
  injection Hbufs as -> -> ->. simpl in *. rewrite Hhdr in Hh. injection Hh as <-. simpl in *.
  match type of Hv with vok ?w0 => set (w0' := w0) in * end.
  match goal with |- bok ?w1 => assert (in_flight_chains (queue_world w1) ≡ₚ in_flight_chains w0') as Hp end.
  { unfold in_flight_chains. simpl. rewrite fmap_app. simpl. by solve_Permutation. }
  split; simpl; [exact Hv' | | | | done | done | done].
  - intros h b Hb. apply (Ho h b). by rewrite <- Hp.
  - intros h Hb. apply (Hid h). by rewrite <- Hp.
  - intros h b l. rewrite elem_of_app, list_elem_of_singleton. intros [Hin' | [= -> -> ->]].
    + destruct (Hd h b l Hin') as (r' & st' & H1 & H2 & H3). exists r', st'.
      assert (h <> hd) as Hne.
      { intros ->. unfold in_flight_chains, w0' in Hnd. simpl in Hnd. rewrite !fmap_app in Hnd. simpl in Hnd.
        apply NoDup_app in Hnd as (_ & _ & Hnd). apply NoDup_app in Hnd as (_ & Hdis & _). apply (Hdis hd); [set_solver |].
        apply list_elem_of_fmap. exists (hd, b). split; [done |]. apply list_elem_of_fmap. by exists (hd, b, l). }
      unfold b', status_slot. simpl. rewrite lookup_insert_ne; [| intros E; apply Hne; symmetry; exact (status_slot_inj (dv_block d) _ _ E)].
      split_and!; [done | done |]. intros Hst. apply (filled_ext (dv_mem d)); [| by apply H3]. intros a Hx. apply Hfr.
      specialize (Hap h hd r' r H1 Hr Hne). pose proof (Hsp h r' H1). pose proof (Hsp hd r Hr). unfold apart in Hap. lia.
    + exists r, st. split_and!; [done | unfold b', status_slot; simpl; apply lookup_insert_eq |]. intros Hst i Hi. by apply Hfi.
Qed.

Lemma turn_spec d f po wk hd bufs len dn out ks ev :
  bok (mkBworld d f po wk ((hd, bufs, len) :: dn) out ks ev) ->
  exists d' r st, handler_turn d = Done (true, d') /\ out !! hd = Some r /\ (st = VIRTIO_BLK_S_OK -> filled (dv_mem d') r) /\ dv_mem d' = dv_mem d /\
    items (CACHE_FILLS d') ++ dv_dropped d' ≡ₚ mkFill (rq_key r) st :: items (CACHE_FILLS d) ++ dv_dropped d /\
    bok (mkBworld d' f po wk dn (delete hd out) ks (ev ++ [mkFill (rq_key r) st])).
Proof.
  intros [Hv Ho Hid Hd Hap Hsp Hk]. unfold queue_world in *. simpl in *. pose proof (heads_NoDup _ Hv) as Hnd.
  destruct (pop_ok _ _ _ _ _ _ _ [] Hv) as (q' & Hpop & Hv'). simpl in Hpop.
  destruct (Ho hd bufs) as (r & Hr & Hbufs & Hin & Hkey & Hhdr); [unfold in_flight_chains; simpl; set_solver |].
  destruct (Hd hd bufs len) as (r' & st & Hr' & Hst & Hfill); [set_solver |]. rewrite Hr in Hr'. injection Hr' as <-.
  assert (in_flight_chains (mkVworld (reqq (dv_block d)) f po wk ((hd, bufs, len) :: dn) []) ≡ₚ (hd, bufs) :: in_flight_chains (mkVworld q' f po wk dn [])) as Hp.
  { unfold in_flight_chains. simpl. by solve_Permutation. }
  rewrite Hp in Hnd. simpl in Hnd. apply NoDup_cons in Hnd as [Hnew _].
  set (d1 := set_in_flight (<[hd := 0]> (IN_FLIGHT d)) (set_block (set_reqq q' (dv_block d)) d)).
  assert (exists d', handler_turn d = Done (true, d') /\ dv_block d' = dv_block d1 /\ IN_FLIGHT d' = IN_FLIGHT d1 /\ dv_mem d' = dv_mem d /\
            items (CACHE_FILLS d') ++ dv_dropped d' ≡ₚ mkFill (rq_key r) st :: items (CACHE_FILLS d) ++ dv_dropped d) as (d' & Ht & Eb & Ei & Em & Eq).
  { unfold handler_turn, drain_one. rewrite Hpop. cbn [pbind fst snd]. unfold status_slot in *. simpl. rewrite Hst, Hin. simpl.
    destruct (Z.eqb_spec (rq_key r) 0); [done |]. fold d1. destruct (tb_push _ _) as [b' | e] eqn:E.
    - apply tb_push_ok in E. eexists. split_and!; try done. simpl. rewrite E. by solve_Permutation.
    - apply tb_push_err in E as ->. eexists. split_and!; try done. simpl. by solve_Permutation. }
  exists d', r, st. rewrite Em. split_and!; try done.
  assert (forall h b, (h, b) ∈ in_flight_chains (mkVworld q' f po wk dn []) -> h <> hd) as Hne.
  { intros h b Hb ->. apply Hnew. by apply (list_elem_of_fmap_2 fst) in Hb. }
  split; unfold queue_world, header_slot, status_slot, read_bufs in *; simpl; rewrite ?Eb, ?Ei; simpl; [done | | | | | |].
  - intros h b Hb. pose proof (Hne h b Hb). destruct (Ho h b) as (r1 & Hr1); [rewrite Hp; set_solver |]. exists r1. rewrite lookup_delete_ne, lookup_insert_ne by done. done.
  - intros h Hh. destruct (decide (h = hd)) as [-> | Hn]; [by rewrite lookup_delete_eq, lookup_insert_eq |].
    rewrite lookup_delete_ne, lookup_insert_ne by done. apply Hid. rewrite Hp. simpl. by apply not_elem_of_cons.
  - intros h b l Hb. rewrite Em. destruct (Hd h b l) as (r1 & st1 & Hr1); [set_solver |]. exists r1, st1. rewrite lookup_delete_ne; [done |].
    intros <-. apply (Hne hd b); [| done]. unfold in_flight_chains. simpl. rewrite !elem_of_app. right; right. apply list_elem_of_fmap. by exists (hd, b, l).
  - intros h1 h2 r1 r2 [_ E1]%lookup_delete_Some [_ E2]%lookup_delete_Some. by apply Hap.
  - intros h r1 [_ E1]%lookup_delete_Some. by apply (Hsp h).
  - rewrite Hk, <- (map_to_list_delete out hd r) by done. rewrite fmap_app. simpl. by solve_Permutation.
Qed.

Lemma consume_bok d q f po wk dn out ks ev :
  bok (mkBworld d f po wk dn out ks ev) -> bok (mkBworld (set_fills q d) f po wk dn out ks ev).
Proof. by intros []. Qed.

Lemma bstep_ok w w' : bok w -> bstep w w' -> bok w'.
Proof.
  intros Hok Hst. destruct Hst as [lba dst len key hd d d' f po wk dn out ks ev Hs Hkey Hlba Hlen Hl alen
    | lba dst len key e d d' f po wk dn out ks ev Hs Hlba Hlen Hl | | | d d' f po wk hd bufs len dn out ks ev e Ht He | ].
  - destruct (submit_ok _ lba dst len key Hok Hlba Hlen Hl) as (r & d1 & E & Hr). simpl in E. rewrite Hs in E. injection E as <- <-. by apply Hr.
  - destruct (submit_ok _ lba dst len key Hok Hlba Hlen Hl) as (r & d1 & E & Hr). simpl in E. rewrite Hs in E. injection E as <- <-. apply Hr.
  - by eapply fetch_bok.
  - by eapply complete_bok.
  - destruct (turn_spec _ _ _ _ _ _ _ _ _ _ _ Hok) as (d1 & r & st & Ht' & _ & _ & _ & Hev & Hok'). rewrite Ht in Ht'. injection Ht' as <-.
    rewrite He in Hev. change (?x :: ?l) with ([x] ++ l) in Hev. apply Permutation_app_inv_r in Hev.
    by apply Permutation_singleton_r in Hev as ->.
  - by eapply consume_bok.
Qed.

(** The device published at boot, with an empty completion ring. *)
Definition bboot (arena cap : Z) (fills : B CacheFillEvent) (m : gmap Z Z) : bworld :=
  mkBworld (mkBlkDev (mkBlock (Virtqueue_new QUEUE_SIZE) arena cap ∅ ∅) ∅ fills [] m) 0 [] [] [] ∅ [] [].

Lemma bboot_ok arena cap fills m : bok (bboot arena cap fills m).
Proof.
  split; simpl; try (by intros; rewrite lookup_empty in *).
  - by apply (vboot_ok 64).
  - by intros ? ? ?%not_elem_of_nil.
  - by intros ? ? ? ?%not_elem_of_nil.
  - by rewrite map_to_list_empty.
Qed.

Lemma blk_reachable arena cap fills m w : rtc bstep (bboot arena cap fills m) w -> bok w.
Proof. intros Hr. pose proof (bboot_ok arena cap fills m) as H0'. induction Hr; [done |]. by eauto using bstep_ok. Qed.

(** Completions outstanding, as the driver can count them. *)
Definition backlog (d : BlkDev) : Z := w16 (used_mem_idx (reqq (dv_block d)) - last_used_idx (reqq (dv_block d))).

Lemma backlog_done d f po wk dn out ks ev : bok (mkBworld d f po wk dn out ks ev) -> backlog d = Z.of_nat (length dn).
Proof.
  intros Hok. pose proof (bk_queue _ Hok) as Hv. pose proof (room _ Hv) as Hroom. destruct Hv as [[Hs _] (fl & _ & _ & Hn & _) _ _ _ Hu _ _].
  unfold queue_world in *. simpl in *. unfold backlog. rewrite Hu. unfold w16. rewrite Zminus_mod_idemp_l.
  replace (last_used_idx _ + _ - _) with (Z.of_nat (length dn)) by lia. apply Z.mod_small. lia.
Qed.

Lemma turn_idle d f po wk out ks ev : bok (mkBworld d f po wk [] out ks ev) -> handler_turn d = Done (false, d).
Proof.
  intros Hok. pose proof (bk_queue _ Hok) as [_ _ _ _ _ Hu _ [_ Hl]]. unfold queue_world in *. simpl in *.
  unfold handler_turn, drain_one, pop_used. rewrite Hu, Z.add_0_r. unfold w16. rewrite Z.mod_small, Z.eqb_refl by lia. simpl.
  by destruct d as [[]].
Qed.

(** The handler serves every completion outstanding and then stops. *)
Lemma handler_drains d f po wk dn out ks ev :
  bok (mkBworld d f po wk dn out ks ev) ->
  exists d' out' new, virtio_blk_handler d = Done d' /\ bok (mkBworld d' f po wk [] out' ks (ev ++ new)) /\ length new = length dn /\
    items (CACHE_FILLS d') ++ dv_dropped d' ≡ₚ new ++ items (CACHE_FILLS d) ++ dv_dropped d.
Proof.
  intros Hok. unfold virtio_blk_handler.
  match goal with |- context [while64 ?b d] => set (body := b) end.
  set (served := fun (s : BlkDev) (dn' : list (Z * list Buf * Z)) (new : list CacheFillEvent) => (length new + length dn' = length dn)%nat /\
    items (CACHE_FILLS s) ++ dv_dropped s ≡ₚ new ++ items (CACHE_FILLS d) ++ dv_dropped d).
  destruct (while64_total body (fun s => exists dn' out' new, bok (mkBworld s f po wk dn' out' ks (ev ++ new)) /\ served s dn' new) backlog
              (fun r => exists d' out' new, r = Done d' /\ bok (mkBworld d' f po wk [] out' ks (ev ++ new)) /\ served d' [] new) d) as (r & -> & Hr).
  - intros s (dn' & out' & new & Hs & Hl & Hp). unfold body. destruct dn' as [| [[hd bufs] len] dn'].
    + rewrite (turn_idle _ _ _ _ _ _ _ Hs). unfold served. by eauto 10.
    + destruct (turn_spec _ _ _ _ _ _ _ _ _ _ _ Hs) as (s' & r & st & -> & _ & _ & _ & He & Hs'). rewrite <- app_assoc in Hs'. split.
      * do 3 eexists. split; [exact Hs' |]. split; [rewrite length_app; simpl in *; lia |]. rewrite He, Hp. by solve_Permutation.
      * rewrite (backlog_done _ _ _ _ _ _ _ _ Hs), (backlog_done _ _ _ _ _ _ _ _ Hs'). simpl. lia.
  - exists dn, out, []. rewrite app_nil_r. unfold served. done.
  - rewrite (backlog_done _ _ _ _ _ _ _ _ Hok). pose proof (room _ (bk_queue _ Hok)) as Hroom.
    pose proof (bk_queue _ Hok) as [[Hs _] (fl & _ & _ & Hn & _) _ _ _ _ _ _]. unfold queue_world in *. simpl in *. unfold W64. lia.
  - destruct Hr as (d' & out' & new & -> & Hok' & Hl & Hp). exists d', out', new. simpl in Hl. split_and!; [done | done | lia | done].
Qed.

(** ** Properties *)


(** The interrupt handler always returns, without a panic: it serves every
    completion the device has posted, one event each (queued, or counted as dropped
    when the queue of events is full), and leaves the used ring empty. *)
Theorem blk_handler_drains (arena cap : Z) (fills : B CacheFillEvent) (m : gmap Z Z) (w : bworld) :
  rtc bstep (bboot arena cap fills m) w ->
  exists d' new, virtio_blk_handler (bw_dev w) = Done d' /\ has_used (reqq (dv_block d')) = false /\
    length new = length (bw_done w) /\
    items (CACHE_FILLS d') ++ dv_dropped d' ≡ₚ new ++ items (CACHE_FILLS (bw_dev w)) ++ dv_dropped (bw_dev w) /\
    (packed_key <$> new) ⊆ bw_keys w.
Proof.
  intros Hr%blk_reachable. destruct w as [d f po wk dn out ks ev]. simpl.
  destruct (handler_drains _ _ _ _ _ _ _ _ Hr) as (d' & out' & new & H1 & Hok & H2 & H3). exists d', new. split_and!; try done.
  - pose proof (bk_queue _ Hok) as [_ _ _ _ _ Hu _ [_ Hl]]. unfold queue_world in *. simpl in *. unfold has_used.
    rewrite Hu, Z.add_0_r. unfold w16. rewrite Z.mod_small by lia. by rewrite Z.eqb_refl.
  - pose proof (bk_keys _ Hok) as Hk. simpl in Hk. rewrite Hk, fmap_app. intros k Hin. rewrite !elem_of_app. by left; right.
Qed.
End driver.

(** ** Witnesses *)

(** Byte [x] of the disk is [x] modulo 256; one sector is read to address 65536. *)
Definition counting_disk (x : Z) : Z := x mod 256.
Definition wb0 : bworld (B := ring) := bboot 4096 128 (mkRing 64 []) ∅.
Definition read_at (d : BlkDev (B := ring)) : BlkDev :=
  match submit_blk_read_cached 2 65536 512 77 d with Done (_, d) => d | Panic => d end.
Definition one_read : list (Z * list Buf) := [(0, read_bufs (dv_block (bw_dev wb0)) 0 65536 512)].
Definition one_out : gmap Z request := {[0 := mkRequest 2 65536 512 512 77]}.
Definition wb_sent : bworld (B := ring) := mkBworld (read_at (bw_dev wb0)) 0 one_read [] [] one_out [77] [].
Definition wb_seen : bworld (B := ring) := mkBworld (read_at (bw_dev wb0)) 1 [] one_read [] one_out [77] [].
Definition dev_done : BlkDev (B := ring) :=
  let d := read_at (bw_dev wb0) in
  let q := reqq (dv_block d) in
  let q' := set_used_mem_idx (w16 (used_mem_idx q + 1)) (set_used_ring (<[used_mem_idx q mod vq_size q := (0, 513)]> (used_ring q)) q) in
  set_mem (write_bytes 65536 512 (fun i => counting_disk (1024 + Z.of_nat i)) (dv_mem d))
    (set_block (set_reqq q' (set_statuses (<[status_slot (dv_block (bw_dev wb0)) 0 := 0]> (statuses (dv_block d))) (dv_block d))) d).
Definition wb_done : bworld (B := ring) :=
  mkBworld dev_done 1 [] [] [(0, read_bufs (dv_block (bw_dev wb0)) 0 65536 512, 513)] one_out [77] [].

Lemma wb_run : rtc (bstep counting_disk) wb0 wb_done.
Proof.
  eapply rtc_l.
  { apply (b_submit counting_disk 2 65536 512 77 0 (bw_dev wb0) (read_at (bw_dev wb0))); [vm_compute; reflexivity | done | lia | lia |].
    intros hd r E. simpl in E. by rewrite lookup_empty in E. }
  eapply rtc_l; [eapply (b_fetch counting_disk (read_at (bw_dev wb0)) 0 _ [] _ _ _ _ _ 0 [0; 1; 2]); vm_compute; reflexivity |].
  eapply rtc_l; [| apply rtc_refl]. change (1 + 0) with 1.
  pose proof (b_complete counting_disk (read_at (bw_dev wb0)) 1 [] [] 0 (mkBuf (header_slot (dv_block (bw_dev wb0)) 0) HEADER_STRIDE false)
    (mkBuf 65536 512 true) (mkBuf (status_slot (dv_block (bw_dev wb0)) 0) 1 true) [] [] one_out [77] [] (mkHeader 0 0 2) 0
    (write_bytes 65536 512 (fun i => counting_disk (1024 + Z.of_nat i)) (dv_mem (read_at (bw_dev wb0)))) 513) as Hc.
  apply Hc; [vm_compute; reflexivity |]. split.
  - intros a Ha. apply write_bytes_other. cbn [b_pa b_len] in Ha. lia.
  - intros _ i Hi. cbn [b_pa b_len h_sector] in *. rewrite (write_bytes_at 65536 512) by lia. do 2 f_equal. unfold SECTOR_SIZE. lia.
Qed.


Lemma blk_handler_drains_witness : exists d', virtio_blk_handler (bw_dev wb_done) = Done d' /\ has_used (reqq (dv_block d')) = false.
Proof.
  destruct (blk_handler_drains counting_disk 4096 128 (mkRing 64 []) ∅ wb_done wb_run) as (d' & new & H1 & H2 & _).
  exists d'. split; [exact H1 | exact H2].
Defined.
