(* ===== verification/Tar.v ===== *)
(** * The tar filesystem

    Models [kmain/src/kernel/fs/tar.rs] (the boot-time scan of a ustar archive into
    an inode table, and the queries on it), the [Filesystem] contract of
    [kmain/src/kernel/fs/mod.rs] and [Stat] of [orbit-abi/src/fs.rs]. Directory
    listing is in [Readdir.v].

    Bytes are [Z], paths are byte lists. [read_blocks_blocking], the polled read of
    one sector, is an argument of the scan. *)

From stdpp Require Import base list option numbers sets gmap sorting.
From S2P Require Import Prelude Text PageCache Blk.
#[local] Open Scope Z_scope.

Definition HEADER_NAME_LEN : nat := 100.
Definition HEADER_MODE_OFFSET : nat := 100.
Definition HEADER_MODE_LEN : nat := 8.
Definition HEADER_UID_OFFSET : nat := 108.
Definition HEADER_UID_LEN : nat := 8.
Definition HEADER_GID_OFFSET : nat := 116.
Definition HEADER_GID_LEN : nat := 8.
Definition HEADER_SIZE_OFFSET : nat := 124.
Definition HEADER_SIZE_LEN : nat := 12.
Definition HEADER_MTIME_OFFSET : nat := 136.
Definition HEADER_MTIME_LEN : nat := 12.
Definition HEADER_TYPEFLAG_OFFSET : nat := 156.
Definition HEADER_MAGIC_OFFSET : nat := 257.
Definition HEADER_PREFIX_OFFSET : nat := 345.
Definition HEADER_PREFIX_LEN : nat := 155.

Definition USTAR_MAGIC : list Z := [117; 115; 116; 97; 114; 0].
Definition USTAR_MAGIC_GNU : list Z := [117; 115; 116; 97; 114; 32].

Definition TYPEFLAG_REG_NUL : Z := 0.
Definition TYPEFLAG_REG_0 : Z := 48.
Definition TYPEFLAG_DIR : Z := 53.

(** ['/'] and ['.']. *)
Definition SLASH : Z := 47.
Definition DOT : Z := 46.

Inductive Kind := Reg | Dir.

Record TarInode := mkInode {
  path : list Z;
  kind : Kind;
  data_sector : Z;
  size : Z;
  mode_perms : Z;
  uid : Z;
  gid : Z;
  mtime : Z;
}.

Inductive FsErr := FsNotFound | NotRegular | NotADirectory | BadInode | IoError | BadRange.

Inductive MountErr := MBlock (e : BlockError) | BadHeader (lba : Z) | BadMagic (lba : Z).

(** The path index is a [BTreeMap], a list in the order of its keys. *)
Record Tarfs := mkTarfs { inodes : list (option TarInode); by_path : list (list Z * Z) }.

(** ** Strings *)

(** [BTreeMap::insert] and [BTreeMap::get] on the index. *)
Fixpoint path_insert (k : list Z) (v : Z) (m : list (list Z * Z)) : list (list Z * Z) :=
  match m with
  | [] => [(k, v)]
  | (k', v') :: m' =>
      if bytes_lt k k' then (k, v) :: m
      else if bytes_lt k' k then (k', v') :: path_insert k v m'
      else (k, v) :: m'
  end.

Definition path_get (k : list Z) (m : list (list Z * Z)) : option Z :=
  snd <$> head (filter (fun e => e.1 = k) m).

(** [slice.iter().position(..)] bounds the name. *)
Fixpoint until_nul (l : list Z) : list Z :=
  match l with [] => [] | b :: l => if b =? 0 then [] else b :: until_nul l end.

Definition nt_str (slice : list Z) : list Z :=
  let s := until_nul slice in if utf8_valid s then s else [].

Fixpoint parse_octal_from (acc : Z) (saw_digit : bool) (bytes : list Z) : option Z :=
  match bytes with
  | [] => Some acc
  | b :: bytes =>
      if (b =? 32) || (b =? 0) then if saw_digit then Some acc else parse_octal_from acc saw_digit bytes
      else if (48 <=? b) && (b <=? 55) then
        match checked_mul acc 8 with
        | None => None
        | Some x => match checked_add x (b - 48) with None => None | Some acc => parse_octal_from acc true bytes end
        end
      else None
  end.

Definition parse_octal (bytes : list Z) : option Z := parse_octal_from 0 false bytes.

(** [str::trim_end_matches('/')]. *)
Fixpoint trim_slashes (s : list Z) : list Z :=
  match s with
  | [] => []
  | b :: s => match trim_slashes s with [] => if b =? SLASH then [] else [b] | t => b :: t end
  end.

Definition canonicalize_path (prefix name : list Z) : list Z :=
  let joined :=
    if bool_decide (prefix = []) then name
    else if bool_decide (last prefix = Some SLASH) then prefix ++ name
    else prefix ++ SLASH :: name in
  let finish s := match trim_slashes s with [] => [] | t => SLASH :: t end in
  match joined with
  | a :: b :: s => if (a =? DOT) && (b =? SLASH) then finish s else finish joined
  | [a] => if a =? DOT then [] else finish joined
  | [] => finish []
  end.

(** ** Mounting *)

Definition slice (off len : nat) (l : list Z) : list Z := take len (drop off l).

Definition ROOT_INO : Z := 1.
Definition root_inode : TarInode := mkInode [] Dir 0 0 0x1ed 0 0 0.

Definition kind_of (typeflag : Z) : option Kind :=
  if (typeflag =? TYPEFLAG_REG_NUL) || (typeflag =? TYPEFLAG_REG_0) then Some Reg
  else if typeflag =? TYPEFLAG_DIR then Some Dir
  else None.

(** [x as u32] and [x as i64]. *)
Definition u32 (x : Z) : Z := x mod 2 ^ 32.
Definition i64 (x : Z) : Z := (x + 2 ^ 63) mod 2 ^ 64 - 2 ^ 63.

Record scan := mkScan { sc_inodes : list (option TarInode); sc_by_path : list (list Z * Z); sc_lba : Z; sc_prev_zero : bool }.

(** The entry of a header, once its size is known. *)
Definition add_entry (lba size : Z) (buf : list Z) (s : scan) : scan :=
  let name := nt_str (take HEADER_NAME_LEN buf) in
  let prefix := nt_str (slice HEADER_PREFIX_OFFSET HEADER_PREFIX_LEN buf) in
  let path := canonicalize_path prefix name in
  let typeflag := nth HEADER_TYPEFLAG_OFFSET buf 0 in
  let field off len := default 0 (parse_octal (slice off len buf)) in
  let mode_perms := Z.land (u32 (field HEADER_MODE_OFFSET HEADER_MODE_LEN)) 0xfff in
  let uid := u32 (field HEADER_UID_OFFSET HEADER_UID_LEN) in
  let gid := u32 (field HEADER_GID_OFFSET HEADER_GID_LEN) in
  let mtime := i64 (field HEADER_MTIME_OFFSET HEADER_MTIME_LEN) in
  let data_lba := wadd lba 1 in
  let data_sectors := wsub (wadd size SECTOR_SIZE) 1 / SECTOR_SIZE in
  let next := wadd data_lba data_sectors in
  match kind_of typeflag with
  | Some kind =>
      if bool_decide (path = []) then mkScan (sc_inodes s) (sc_by_path s) next false
      else
        let id := u32 (Z.of_nat (length (sc_inodes s))) in
        let e := mkInode path kind (match kind with Reg => data_lba | Dir => 0 end) size mode_perms uid gid mtime in
        mkScan (sc_inodes s ++ [Some e]) (path_insert path id (sc_by_path s)) next false
  | None => mkScan (sc_inodes s) (sc_by_path s) next false
  end.

Section mount.
Context (read_blocks_blocking : Z -> result (list Z) BlockError) (capacity : Z).

Definition mount_body (s : scan) : scan + result Tarfs MountErr :=
  let finish := inr (Ok (mkTarfs (sc_inodes s) (sc_by_path s))) in
  let lba := sc_lba s in
  if lba <? capacity then
    match read_blocks_blocking lba with
    | Err e => inr (Err (MBlock e))
    | Ok buf =>
        if forallb (fun b => b =? 0) buf then
          if sc_prev_zero s then finish else inl (mkScan (sc_inodes s) (sc_by_path s) (wadd lba 1) true)
        else
          let magic := slice HEADER_MAGIC_OFFSET 6 buf in
          if negb (bool_decide (magic = USTAR_MAGIC)) && negb (bool_decide (magic = USTAR_MAGIC_GNU)) then inr (Err (BadMagic lba))
          else
            match parse_octal (slice HEADER_SIZE_OFFSET HEADER_SIZE_LEN buf) with
            | None => inr (Err (BadHeader lba))
            | Some size => inl (add_entry lba size buf s)
            end
    end
  else finish.

Definition scan_start : scan := mkScan [None; Some root_inode] (path_insert [SLASH] ROOT_INO []) 0 false.

(** [None] when the scan does not end. *)
Definition mount : option (result Tarfs MountErr) := while64 mount_body scan_start.
End mount.

(** ** Queries *)

Definition PAGE : Z := 4096.
Definition SECTORS_PER_PAGE : Z := PAGE / SECTOR_SIZE.

Definition entry (fs : Tarfs) (ino : Z) : result TarInode FsErr :=
  match inodes fs !! Z.to_nat ino with Some (Some e) => Ok e | _ => Err BadInode end.

Definition dev_id (fs : Tarfs) : Z := 1.

(** [u64::next_multiple_of]. *)
Definition next_multiple_of (n m : Z) : Z := if n mod m =? 0 then n else wadd n (m - n mod m).

Definition lba_for_page (fs : Tarfs) (ino page_idx : Z) : result Z FsErr :=
  match entry fs ino with
  | Err e => Err e
  | Ok e =>
      match kind e with
      | Dir => Err NotRegular
      | Reg =>
          match checked_mul page_idx PAGE with
          | None => Err BadRange
          | Some page_off =>
              if next_multiple_of (size e) PAGE <=? page_off then Err BadRange
              else Ok (wadd (data_sector e) (wmul page_idx SECTORS_PER_PAGE))
          end
      end
  end.

Definition open (fs : Tarfs) (p : list Z) : result Z FsErr :=
  match path_get p (by_path fs) with Some i => Ok i | None => Err FsNotFound end.

Definition S_IFMT : Z := 0xf000.
Definition S_IFREG : Z := 0x8000.
Definition S_IFDIR : Z := 0x4000.
Definition STAT_BLOCK_UNIT : Z := 512.

(** [orbit_abi::fs::Stat], without its padding. *)
Record FileStat := mkFileStat {
  st_dev : Z; st_ino : Z; f_mode : Z; st_nlink : Z; f_uid : Z; f_gid : Z; st_rdev : Z;
  st_size : Z; st_blksize : Z; st_blocks : Z; st_atime : Z; st_mtime : Z; st_ctime : Z;
}.

Definition stat (fs : Tarfs) (ino : Z) : result FileStat FsErr :=
  match entry fs ino with
  | Err e => Err e
  | Ok e =>
      let kind_bits := match kind e with Reg => S_IFREG | Dir => S_IFDIR end in
      let st_size := match kind e with Reg => i64 (size e) | Dir => 0 end in
      let st_blocks := match kind e with Reg => i64 ((size e + STAT_BLOCK_UNIT - 1) / STAT_BLOCK_UNIT) | Dir => 0 end in
      Ok (mkFileStat 1 ino (Z.lor kind_bits (mode_perms e)) 1 (uid e) (gid e) 0 st_size SECTOR_SIZE st_blocks
            (mtime e) (mtime e) (mtime e))
  end.

Definition file_size (fs : Tarfs) (ino : Z) : result Z FsErr :=
  match entry fs ino with Err e => Err e | Ok e => Ok (size e) end.

(** ** What a mount promises of any archive *)

Definition file_sectors (e : TarInode) : Z := (size e + SECTOR_SIZE - 1) / SECTOR_SIZE.

(** The state of the scan: files lie below the sector reached, one after the
    other, and the index names table entries. *)
Record scan_ok (cap : Z) (s : scan) : Prop := {
  so_lba : 0 <= sc_lba s <= cap + 2 ^ 28;
  so_count : Z.of_nat (length (sc_inodes s)) <= sc_lba s + 2;
  so_size : forall i e, sc_inodes s !! i = Some (Some e) -> 0 <= size e < 2 ^ 36;
  so_extent : forall i e, sc_inodes s !! i = Some (Some e) -> kind e = Reg -> 1 <= data_sector e <= cap /\ data_sector e + file_sectors e <= sc_lba s;
  so_apart : forall i j e e', (i < j)%nat -> sc_inodes s !! i = Some (Some e) -> sc_inodes s !! j = Some (Some e') -> kind e = Reg -> kind e' = Reg ->
    data_sector e + file_sectors e < data_sector e';
}.

Lemma parse_octal_from_bound l : forall acc b r, parse_octal_from acc b l = Some r -> 0 <= acc -> 0 <= r < (acc + 1) * 8 ^ Z.of_nat (length l).
Proof.
  induction l as [| x l IH]; intros acc b r; cbn [parse_octal_from length]; [intros [= <-]; lia |].
  rewrite Nat2Z.inj_succ, Z.pow_succ_r by lia. pose proof (Z.pow_pos_nonneg 8 (Z.of_nat (length l)) ltac:(lia) ltac:(lia)) as Hp.
  destruct (_ || _)%bool.
  - destruct b; [intros [= <-]; nia |]. intros H Ha. specialize (IH _ _ _ H Ha). nia.
  - destruct (_ && _)%bool eqn:E; [| done]. apply andb_true_iff in E as [E1%Z.leb_le E2%Z.leb_le].
    unfold checked_mul, checked_add. destruct (_ <? _); [| done]. destruct (_ <? _); [| done]. intros H Ha. specialize (IH _ _ _ H ltac:(lia)). nia.
Qed.

Lemma size_bound buf r : parse_octal (slice HEADER_SIZE_OFFSET HEADER_SIZE_LEN buf) = Some r -> 0 <= r < 2 ^ 36.
Proof.
  intros H. pose proof (parse_octal_from_bound _ _ _ _ H ltac:(lia)) as Hb.
  assert (Z.of_nat (length (slice HEADER_SIZE_OFFSET HEADER_SIZE_LEN buf)) <= 12) as Hl.
  { unfold slice. rewrite length_take. unfold HEADER_SIZE_LEN. lia. }
  pose proof (Z.pow_le_mono_r 8 _ 12 ltac:(lia) Hl). change (2 ^ 36) with (8 ^ 12). lia.
Qed.

(** The same table reached at a later sector. *)
Lemma scan_advance cap s ns bp lba z :
  scan_ok cap s -> sc_inodes s = ns -> sc_lba s <= lba <= cap + 2 ^ 28 -> scan_ok cap (mkScan ns bp lba z).
Proof.
  intros [H1 H2 H3 H4 H5] <- Hl. split; simpl; [lia | lia | done | | done].
  intros i e Hi Hk. specialize (H4 i e Hi Hk). lia.
Qed.

Lemma snoc_lookup {A} (l : list A) x i y : (l ++ [x]) !! i = Some y -> l !! i = Some y \/ (i = length l /\ y = x).
Proof.
  rewrite lookup_app_Some. intros [H | [H1 H2]]; [by left |]. right. apply list_lookup_singleton_Some in H2 as [Hi ->]. split; [lia | done].
Qed.

Lemma add_entry_ok cap lba sz buf s :
  scan_ok cap s -> sc_lba s = lba -> lba < cap -> cap <= 2 ^ 54 -> 0 <= sz < 2 ^ 36 ->
  scan_ok cap (add_entry lba sz buf s) /\ lba < sc_lba (add_entry lba sz buf s).
Proof.
  intros Hs Hl Hc Hcap Hsz. pose proof (so_lba _ _ Hs) as [Hlo _]. unfold add_entry.
  set (p := canonicalize_path _ _). set (nf := wadd (wadd lba 1) _).
  assert (nf = lba + 1 + (sz + SECTOR_SIZE - 1) / SECTOR_SIZE) as En.
  { unfold nf, SECTOR_SIZE. rewrite (wadd_small sz), wsub_small by (unfold W64; lia).
    pose proof (Z.div_lt_upper_bound (sz + 512 - 1) 512 (2 ^ 28) ltac:(lia) ltac:(lia)). pose proof (Z.div_pos (sz + 512 - 1) 512 ltac:(lia) ltac:(lia)).
    rewrite (wadd_small lba 1) by (unfold W64; lia). apply wadd_small. unfold W64. lia. }
  assert (0 <= (sz + SECTOR_SIZE - 1) / SECTOR_SIZE < 2 ^ 28) as Hd.
  { unfold SECTOR_SIZE. split; [apply Z.div_pos; lia | apply Z.div_lt_upper_bound; lia]. }
  destruct (kind_of _) as [k |]; [case_bool_decide |]; (split; [| simpl; lia]); try (apply (scan_advance cap s); [done | done | lia]).
  rewrite (wadd_small lba 1) by (unfold W64; lia). destruct Hs as [H1 H2 H3 H4 H5].
  split; cbn [sc_inodes sc_lba]; [lia | rewrite length_app; simpl; lia | | |].
  - intros i e [Hi | [-> [= ->]]]%snoc_lookup; [by eauto | done].
  - intros i e [Hi | [-> [= ->]]]%snoc_lookup Hk; [specialize (H4 i e Hi Hk); lia |].
    simpl in Hk. subst k. unfold file_sectors. cbn [data_sector size]. lia.
  - intros i j e e' Hij [Hi | [-> _]]%snoc_lookup [Hj | [-> [= ->]]]%snoc_lookup Hk Hk'; [by eapply H5 | | | lia].
    + simpl in Hk'. subst k. cbn [data_sector]. specialize (H4 i e Hi Hk). lia.
    + apply lookup_lt_Some in Hj. lia.
Qed.

Lemma mount_body_ok rd cap s : scan_ok cap s -> cap <= 2 ^ 54 ->
  match mount_body rd cap s with
  | inl s' => scan_ok cap s' /\ sc_lba s < sc_lba s' /\ sc_lba s < cap
  | inr (Ok fs) => exists s', scan_ok cap s' /\ fs = mkTarfs (sc_inodes s') (sc_by_path s')
  | inr (Err _) => True
  end.
Proof.
  intros Hs Hcap. unfold mount_body. destruct (Z.ltb_spec (sc_lba s) cap) as [Hlt |]; [| by exists s].
  destruct (rd (sc_lba s)) as [buf | e]; [| done]. pose proof (so_lba _ _ Hs) as Hlo. destruct (forallb _ buf).
  - destruct (sc_prev_zero s); [by exists s |]. rewrite wadd_small by (unfold W64; lia).
    split; [| simpl; lia]. apply (scan_advance cap s); [done | done | lia].
  - destruct (_ && _)%bool; [done |]. destruct (parse_octal _) as [sz |] eqn:E; [| done]. apply size_bound in E.
    destruct (add_entry_ok cap _ sz buf s Hs eq_refl Hlt Hcap E). done.
Qed.

Lemma scan_start_ok cap : 0 <= cap -> scan_ok cap scan_start.
Proof.
  intros Hc. unfold scan_start. split; cbn [sc_lba sc_inodes]; [lia | simpl; lia | | |].
  - intros [| [| i]] e [= <-]. simpl. lia.
  - intros [| [| i]] e [= <-]. done.
  - intros [| [| i]] [| [| j]] e e' Hij Hi Hj; simplify_eq/=; lia.
Qed.

Lemma mount_total rd cap : 0 <= cap <= 2 ^ 54 ->
  exists r, mount rd cap = Some r /\ forall fs, r = Ok fs -> exists s, scan_ok cap s /\ fs = mkTarfs (sc_inodes s) (sc_by_path s).
Proof.
  intros Hc. apply (while64_total _ (scan_ok cap) (fun s => cap + 2 ^ 28 - sc_lba s)).
  - intros s Hs. pose proof (mount_body_ok rd cap s Hs ltac:(lia)) as Hb. destruct (mount_body rd cap s) as [s' | [fs | e]].
    + destruct Hb as (Hs' & H1 & H2). split; [done |]. pose proof (so_lba _ _ Hs'). lia.
    + by intros ? [= <-].
    + done.
  - apply scan_start_ok. lia.
  - simpl. unfold W64. lia.
Qed.

(** A page handed to the cache starts inside its file. *)
Lemma page_inside cap s i p l :
  scan_ok cap s -> cap <= 2 ^ 54 -> 0 <= p -> lba_for_page (mkTarfs (sc_inodes s) (sc_by_path s)) i p = Ok l ->
  exists e, sc_inodes s !! Z.to_nat i = Some (Some e) /\ kind e = Reg /\ l = data_sector e + 8 * p /\ 8 * p < file_sectors e /\ 4096 * p < size e.
Proof.
  intros Hs Hcap Hp. unfold lba_for_page, entry. cbn [inodes]. destruct (sc_inodes s !! Z.to_nat i) as [[e |] |] eqn:Ei; [| done | done].
  destruct (kind e) eqn:Ek; [| done]. unfold checked_mul. destruct (Z.ltb_spec (p * PAGE) W64) as [Hw |]; [| done].
  pose proof (so_size _ _ Hs _ _ Ei) as Hsz. pose proof (so_extent _ _ Hs _ _ Ei Ek) as [Hd _].
  destruct (Z.leb_spec (next_multiple_of (size e) PAGE) (p * PAGE)) as [| Hlt]; [done |]. intros [= <-]. exists e.
  assert (p * 4096 < size e) as Hin.
  { unfold next_multiple_of, PAGE in Hlt. pose proof (Z.div_mod (size e) 4096 ltac:(lia)). pose proof (Z.mod_pos_bound (size e) 4096 ltac:(lia)).
    destruct (Z.eqb_spec (size e mod 4096) 0); [lia |]. rewrite wadd_small in Hlt by (unfold W64; lia). lia. }
  change SECTORS_PER_PAGE with 8. rewrite wmul_small, wadd_small by (unfold W64; lia). split_and!; [done | done | lia | | lia].
  unfold file_sectors, SECTOR_SIZE. pose proof (Z.div_le_lower_bound (size e + 512 - 1) 512 (8 * p + 1) ltac:(lia) ltac:(lia)). lia.
Qed.

(** C22. Whatever the disk holds, mounting it ends, and when it succeeds no two
    pages of the files found share a cache key: the packed key of a page unpacks to
    the sector the page starts at, and determines the file and the page. *)
Theorem tar_pages_distinct rd cap :
  0 <= cap <= 2 ^ 54 ->
  exists r, mount rd cap = Some r /\
    forall fs i1 p1 l1 i2 p2 l2, r = Ok fs -> 0 <= i1 -> 0 <= i2 -> 0 <= p1 -> 0 <= p2 ->
      lba_for_page fs i1 p1 = Ok l1 -> lba_for_page fs i2 p2 = Ok l2 ->
      unpack (pack (mkCacheKey (dev_id fs) l1)) = Some (mkCacheKey (dev_id fs) l1) /\
      (pack (mkCacheKey (dev_id fs) l1) = pack (mkCacheKey (dev_id fs) l2) -> i1 = i2 /\ p1 = p2).
Proof.
  intros Hc. destruct (mount_total rd cap Hc) as (r & Hm & Hr). exists r. split; [done |].
  intros fs i1 p1 l1 i2 p2 l2 Hok Hi1 Hi2 Hp1 Hp2. destruct (Hr fs Hok) as (s & Hs & ->). intros H1 H2.
  destruct (page_inside cap s i1 p1 l1 Hs ltac:(lia) Hp1 H1) as (e1 & E1 & K1 & -> & L1 & S1).
  destruct (page_inside cap s i2 p2 l2 Hs ltac:(lia) Hp2 H2) as (e2 & E2 & K2 & -> & L2 & S2).
  pose proof (so_extent _ _ Hs _ _ E1 K1). pose proof (so_extent _ _ Hs _ _ E2 K2).
  pose proof (so_size _ _ Hs _ _ E1). pose proof (so_size _ _ Hs _ _ E2). unfold dev_id.
  split; [apply unpack_pack; lia |]. rewrite !cache_pack_val by lia. intros E.
  assert (data_sector e1 + 8 * p1 = data_sector e2 + 8 * p2) as El by lia.
  destruct (Nat.lt_trichotomy (Z.to_nat i1) (Z.to_nat i2)) as [Hlt | [Heq | Hgt]].
  - pose proof (so_apart _ _ Hs _ _ _ _ Hlt E1 E2 K1 K2). lia.
  - rewrite Heq in E1. rewrite E1 in E2. injection E2 as ->. lia.
  - pose proof (so_apart _ _ Hs _ _ _ _ Hgt E2 E1 K2 K1). lia.
Qed.

(** ** Archives

    What a ustar writer puts on the disk for a tree packed with [tar -C root .]:
    a header sector and the data sectors of each file, then two zero sectors. *)

Record tar_file := mkTarFile {
  tf_name : list Z; tf_kind : Kind; tf_mode : Z; tf_uid : Z; tf_gid : Z; tf_mtime : Z; tf_cksum : list Z; tf_data : list Z;
}.

(** [w] octal digits of [n]. *)
Fixpoint octal (w : nat) (n : Z) : list Z :=
  match w with O => [] | S w => octal w (n / 8) ++ [48 + n mod 8] end.

Definition pad (n : nat) (l : list Z) : list Z := l ++ replicate (n - length l) 0.

Definition stored_name (f : tar_file) : list Z :=
  DOT :: SLASH :: tf_name f ++ match tf_kind f with Dir => [SLASH] | Reg => [] end.

Definition header_pieces (f : tar_file) : list (list Z) :=
  [pad 100 (stored_name f); octal 7 (tf_mode f) ++ [0]; octal 7 (tf_uid f) ++ [0]; octal 7 (tf_gid f) ++ [0];
   octal 11 (Z.of_nat (length (tf_data f))) ++ [0]; octal 11 (tf_mtime f) ++ [0]; tf_cksum f;
   [match tf_kind f with Reg => TYPEFLAG_REG_0 | Dir => TYPEFLAG_DIR end]; replicate 100 0; USTAR_MAGIC; [48; 48];
   replicate 32 0; replicate 32 0; replicate 8 0; replicate 8 0; replicate 155 0; replicate 12 0].

Definition header (f : tar_file) : list Z := concat (header_pieces f).

Definition sector_count (n : nat) : nat := Z.to_nat ((Z.of_nat n + SECTOR_SIZE - 1) / SECTOR_SIZE).

Definition data_sectors (d : list Z) : list (list Z) :=
  (fun i => pad 512 (slice (512 * i) 512 d)) <$> seq 0 (sector_count (length d)).

Definition file_blocks (f : tar_file) : list (list Z) := header f :: data_sectors (tf_data f).
Definition blocks (fs : list tar_file) : list (list Z) := fs ≫= file_blocks.
Definition zero_sector : list Z := replicate 512 0.
Definition archive (fs : list tar_file) : list (list Z) := blocks fs ++ [zero_sector; zero_sector].

(** A disk of the given sectors. *)
Definition read_disk (d : list (list Z)) (lba : Z) : result (list Z) BlockError :=
  match d !! Z.to_nat lba with Some s => Ok s | None => Err (OutOfRange lba (Z.of_nat (length d))) end.

Record storable (f : tar_file) : Prop := {
  wf_name : tf_name f <> [] /\ last (tf_name f) <> Some SLASH /\ 0 ∉ tf_name f /\ (length (tf_name f) <= 97)%nat;
  wf_utf8 : utf8_valid (stored_name f) = true;
  wf_mode : 0 <= tf_mode f < 2 ^ 12;
  wf_ids : 0 <= tf_uid f < 8 ^ 7 /\ 0 <= tf_gid f < 8 ^ 7 /\ 0 <= tf_mtime f < 8 ^ 11;
  wf_cksum : length (tf_cksum f) = 8%nat;
  wf_data : Z.of_nat (length (tf_data f)) < 8 ^ 11 /\ (tf_kind f = Dir -> tf_data f = []);
}.

Definition inode_of (lba : Z) (f : tar_file) : TarInode :=
  mkInode (SLASH :: tf_name f) (tf_kind f) (match tf_kind f with Reg => lba + 1 | Dir => 0 end)
    (Z.of_nat (length (tf_data f))) (tf_mode f) (tf_uid f) (tf_gid f) (tf_mtime f).

Lemma octal_length w n : length (octal w n) = w.
Proof. revert n. induction w as [| w IH]; intros n; [done |]. simpl. rewrite length_app, IH. simpl. lia. Qed.

Lemma parse_octal_digits w : forall n acc b rest,
  (0 < w)%nat \/ b = true -> 0 <= acc -> 0 <= n < 8 ^ Z.of_nat w -> (acc + 1) * 8 ^ Z.of_nat w <= W64 ->
  parse_octal_from acc b (octal w n ++ rest) = parse_octal_from (acc * 8 ^ Z.of_nat w + n) true rest.
Proof.
  induction w as [| w IH]; intros n acc b rest Hw Ha Hn Hb.
  - destruct Hw as [Hw | ->]; [lia |]. simpl. f_equal. rewrite Z.pow_0_r in Hn. lia.
  - simpl octal. rewrite <- app_assoc. rewrite Nat2Z.inj_succ, Z.pow_succ_r in * by lia.
    pose proof (Z.pow_pos_nonneg 8 (Z.of_nat w) ltac:(lia) ltac:(lia)) as Hp.
    pose proof (Z.div_mod n 8 ltac:(lia)) as Hdm. pose proof (Z.mod_pos_bound n 8 ltac:(lia)) as Hm.
    assert (0 <= n / 8 < 8 ^ Z.of_nat w) as Hq by (split; [apply Z.div_pos; lia | apply Z.div_lt_upper_bound; lia]).
    assert (forall b', parse_octal_from (acc * 8 ^ Z.of_nat w + n / 8) b' ([48 + n mod 8] ++ rest) = parse_octal_from (acc * (8 * 8 ^ Z.of_nat w) + n) true rest) as Hstep.
    { intros b'. cbn [app parse_octal_from]. destruct (Z.eqb_spec (48 + n mod 8) 32); [lia |]. destruct (Z.eqb_spec (48 + n mod 8) 0); [lia |].
      destruct (Z.leb_spec 48 (48 + n mod 8)); [| lia]. destruct (Z.leb_spec (48 + n mod 8) 55); [| lia]. simpl.
      unfold checked_mul, checked_add. destruct (Z.ltb_spec ((acc * 8 ^ Z.of_nat w + n / 8) * 8) W64); [| nia].
      destruct (Z.ltb_spec ((acc * 8 ^ Z.of_nat w + n / 8) * 8 + (48 + n mod 8 - 48)) W64); [| nia]. f_equal. nia. }
    destruct w as [| w].
    + rewrite <- (Hstep b). simpl. rewrite Z.mul_1_r. replace (n / 8) with 0 by (simpl in Hq; lia). by rewrite Z.add_0_r.
    + rewrite IH by (first [lia | nia]). apply Hstep.
Qed.

Lemma parse_octal_field w n : (0 < w <= 11)%nat -> 0 <= n < 8 ^ Z.of_nat w -> parse_octal (octal w n ++ [0]) = Some n.
Proof.
  intros Hw Hn. unfold parse_octal. rewrite parse_octal_digits; [simpl; by rewrite Z.mul_0_l | by left; lia | lia | done |].
  pose proof (Z.pow_le_mono_r 8 (Z.of_nat w) 11 ltac:(lia) ltac:(lia)). unfold W64. lia.
Qed.

Lemma slice_pieces ps i p off len :
  ps !! i = Some p -> off = sum_list (take i (length <$> ps)) -> len = length p -> slice off len (concat ps) = p.
Proof.
  intros Hi -> ->. rewrite <- (take_drop_middle ps i p Hi) at 2. rewrite concat_app. simpl. unfold slice.
  replace (sum_list (take i (length <$> ps))) with (length (concat (take i ps))).
  - by rewrite drop_app_length, take_app_length.
  - rewrite <- fmap_take. generalize (take i ps). intros l. induction l as [| x l IH]; [done |]. simpl. by rewrite length_app, IH.
Qed.

Lemma stored_length f : storable f -> length (pad 100 (stored_name f)) = 100%nat.
Proof.
  intros Hf. unfold pad. rewrite length_app, length_replicate. destruct (wf_name f Hf) as (_ & _ & _ & Hn).
  assert (length (stored_name f) <= 100)%nat; [| lia]. unfold stored_name. simpl. rewrite length_app. destruct (tf_kind f); simpl; lia.
Qed.

Lemma header_lengths f : storable f -> length <$> header_pieces f = [100; 8; 8; 8; 12; 12; 8; 1; 100; 6; 2; 32; 32; 8; 8; 155; 12]%nat.
Proof.
  intros Hf. unfold header_pieces. cbn [fmap list_fmap]. rewrite !length_app, !octal_length, (wf_cksum f Hf), !length_replicate.
  by rewrite (stored_length f Hf).
Qed.

Lemma header_slice f i p off len :
  storable f -> header_pieces f !! i = Some p -> off = sum_list (take i [100; 8; 8; 8; 12; 12; 8; 1; 100; 6; 2; 32; 32; 8; 8; 155; 12]%nat) ->
  len = length p -> slice off len (header f) = p.
Proof. intros Hf Hi Ho Hl. apply (slice_pieces _ i); [done | by rewrite (header_lengths f Hf) | done]. Qed.

Lemma until_nul_pad l n : 0 ∉ l -> until_nul (l ++ replicate n 0) = l.
Proof.
  induction l as [| x l IH]; intros Hl; simpl; [by destruct n |]. apply not_elem_of_cons in Hl as [Hx Hl].
  destruct (Z.eqb_spec x 0); [done |]. by rewrite IH.
Qed.

Lemma trim_slashes_stop l : last l <> Some SLASH -> trim_slashes l = l.
Proof.
  induction l as [| x l IH]; intros Hl; [done |]. simpl. destruct l as [| y l].
  - simpl in *. destruct (Z.eqb_spec x SLASH) as [-> |]; [done | done].
  - rewrite IH by (by rewrite last_cons_cons in Hl). done.
Qed.

Lemma trim_slashes_one l : last l <> Some SLASH -> trim_slashes (l ++ [SLASH]) = l.
Proof.
  induction l as [| x l IH]; intros Hl; [done |]. simpl. destruct l as [| y l].
  - simpl in *. destruct (Z.eqb_spec x SLASH) as [-> |]; [done | done].
  - rewrite IH by (by rewrite last_cons_cons in Hl). done.
Qed.

Lemma stored_path f : storable f -> canonicalize_path [] (stored_name f) = SLASH :: tf_name f.
Proof.
  intros Hf. destruct (wf_name f Hf) as (Hne & Hl & _ & _). unfold canonicalize_path, stored_name. rewrite bool_decide_true by done. simpl.
  assert (trim_slashes (tf_name f ++ match tf_kind f with Reg => [] | Dir => [SLASH] end) = tf_name f) as ->.
  { destruct (tf_kind f); [rewrite app_nil_r; by apply trim_slashes_stop | by apply trim_slashes_one]. }
  by destruct (tf_name f).
Qed.

Lemma header_name f : storable f -> nt_str (take HEADER_NAME_LEN (header f)) = stored_name f.
Proof.
  intros Hf. change (take HEADER_NAME_LEN (header f)) with (slice 0 100 (header f)).
  rewrite (header_slice f 0 (pad 100 (stored_name f))); [| done | done | done |].
  - unfold nt_str, pad. rewrite until_nul_pad; [by rewrite (wf_utf8 f Hf) |]. destruct (wf_name f Hf) as (_ & _ & H0 & _).
    unfold stored_name, DOT, SLASH. rewrite !not_elem_of_cons, not_elem_of_app. split_and!; [done | done | done |].
    destruct (tf_kind f); [apply not_elem_of_nil |]. by rewrite not_elem_of_cons; split; [| apply not_elem_of_nil].
  - by rewrite stored_length.
Qed.

Lemma header_prefix f : storable f -> nt_str (slice HEADER_PREFIX_OFFSET HEADER_PREFIX_LEN (header f)) = [].
Proof. intros Hf. by rewrite (header_slice f 15 (replicate 155 0)). Qed.

Lemma header_type f : storable f -> kind_of (nth HEADER_TYPEFLAG_OFFSET (header f) 0) = Some (tf_kind f).
Proof.
  intros Hf. pose proof (header_slice f 7 _ HEADER_TYPEFLAG_OFFSET 1 Hf eq_refl eq_refl eq_refl) as Hs.
  unfold slice in Hs. rewrite <- (Nat.add_0_r HEADER_TYPEFLAG_OFFSET), <- nth_skipn.
  change (skipn HEADER_TYPEFLAG_OFFSET (header f)) with (drop HEADER_TYPEFLAG_OFFSET (header f)).
  destruct (drop HEADER_TYPEFLAG_OFFSET (header f)) as [| x l]; [done |]. simpl in *. injection Hs as ->. by destruct (tf_kind f).
Qed.

Lemma elem_of_take_inv {A} n (l : list A) x : x ∈ take n l -> x ∈ l.
Proof. intros (i & Hi & _)%elem_of_take. by eapply list_elem_of_lookup_2. Qed.

Lemma elem_of_drop_inv {A} n (l : list A) x : x ∈ drop n l -> x ∈ l.
Proof. intros [i Hi]%list_elem_of_lookup. rewrite lookup_drop in Hi. by eapply list_elem_of_lookup_2. Qed.

Lemma header_nonzero f : storable f -> forallb (fun b => b =? 0) (header f) = false.
Proof.
  intros Hf. apply not_true_is_false. rewrite forallb_forall. intros Hall.
  pose proof (header_slice f 9 _ HEADER_MAGIC_OFFSET 6 Hf eq_refl eq_refl eq_refl) as Hs.
  specialize (Hall 117). cbv beta in Hall. discriminate Hall. apply list_elem_of_In.
  assert (117 ∈ slice HEADER_MAGIC_OFFSET 6 (header f)) as Hin by (rewrite Hs; by left). unfold slice in Hin.
  eapply elem_of_drop_inv, elem_of_take_inv, Hin.
Qed.

Definition file_span (f : tar_file) : Z := 1 + (Z.of_nat (length (tf_data f)) + SECTOR_SIZE - 1) / SECTOR_SIZE.

(** What the scan makes of a header it finds on such a disk. *)
Lemma add_entry_header lba f ns bp z :
  storable f -> 0 <= lba < 2 ^ 54 -> Z.of_nat (length ns) < 2 ^ 32 ->
  add_entry lba (Z.of_nat (length (tf_data f))) (header f) (mkScan ns bp lba z) =
  mkScan (ns ++ [Some (inode_of lba f)]) (path_insert (SLASH :: tf_name f) (Z.of_nat (length ns)) bp) (lba + file_span f) false.
Proof.
  intros Hf Hl Hn. destruct (wf_data f Hf) as [Hd _]. destruct (wf_ids f Hf) as (Hu & Hg & Hm). pose proof (wf_mode f Hf) as Hmo.
  unfold add_entry. rewrite header_name, header_prefix, stored_path, header_type by done.
  rewrite (header_slice f 1 (octal 7 (tf_mode f) ++ [0])), (header_slice f 2 (octal 7 (tf_uid f) ++ [0])),
    (header_slice f 3 (octal 7 (tf_gid f) ++ [0])), (header_slice f 5 (octal 11 (tf_mtime f) ++ [0]))
    by (first [exact Hf | reflexivity | rewrite length_app, octal_length; reflexivity]).
  rewrite !parse_octal_field by (simpl; lia). rewrite bool_decide_false by done. cbn [default sc_inodes sc_by_path from_option id].
  assert (wadd (wadd lba 1) (wsub (wadd (Z.of_nat (length (tf_data f))) SECTOR_SIZE) 1 / SECTOR_SIZE) = lba + file_span f) as ->.
  { unfold file_span, SECTOR_SIZE. rewrite (wadd_small (Z.of_nat _)), wsub_small by (unfold W64; lia).
    pose proof (Z.div_lt_upper_bound (Z.of_nat (length (tf_data f)) + 512 - 1) 512 (2 ^ 28) ltac:(lia) ltac:(lia)).
    pose proof (Z.div_pos (Z.of_nat (length (tf_data f)) + 512 - 1) 512 ltac:(lia) ltac:(lia)).
    rewrite (wadd_small lba 1), wadd_small by (unfold W64; lia). lia. }
  rewrite (wadd_small lba 1) by (unfold W64; lia). unfold inode_of, u32, i64. rewrite !Z.mod_small by lia.
  change 0xfff with (Z.ones 12). rewrite Z.land_ones, Z.mod_small by lia. rewrite Z.add_simpl_r. done.
Qed.

Lemma data_sectors_length d : Z.of_nat (length (data_sectors d)) = (Z.of_nat (length d) + SECTOR_SIZE - 1) / SECTOR_SIZE.
Proof.
  unfold data_sectors. rewrite length_fmap, length_seq. unfold sector_count. rewrite Z2Nat.id; [done |].
  apply Z.div_pos; unfold SECTOR_SIZE; lia.
Qed.

Lemma blocks_app fs gs : blocks (fs ++ gs) = blocks fs ++ blocks gs.
Proof. unfold blocks. by rewrite bind_app. Qed.

Lemma blocks_snoc_length fs f : Z.of_nat (length (blocks (fs ++ [f]))) = Z.of_nat (length (blocks fs)) + file_span f.
Proof.
  rewrite blocks_app. rewrite length_app. unfold blocks at 2. cbn [mbind list_bind]. rewrite app_nil_r. unfold file_blocks.
  cbn [length]. rewrite Nat2Z.inj_add, Nat2Z.inj_succ, data_sectors_length. unfold file_span. lia.
Qed.

(** The inode of the file after [seen]. *)
Definition inode_after (seen : list tar_file) (f : tar_file) : TarInode := inode_of (Z.of_nat (length (blocks seen))) f.

(** The scan when it has read the files [seen]. *)
Fixpoint table_of (seen rest : list tar_file) : list (option TarInode) :=
  match rest with [] => [] | f :: rest => Some (inode_after seen f) :: table_of (seen ++ [f]) rest end.

Fixpoint index_of (k : Z) (files : list tar_file) (m : list (list Z * Z)) : list (list Z * Z) :=
  match files with [] => m | f :: files => index_of (k + 1) files (path_insert (SLASH :: tf_name f) k m) end.

Definition scanned (files : list tar_file) : list (option TarInode) := None :: Some root_inode :: table_of [] files.
Definition scanned_index (files : list tar_file) : list (list Z * Z) := index_of 2 files (path_insert [SLASH] ROOT_INO []).

Lemma table_of_snoc seen rest f : table_of seen (rest ++ [f]) = table_of seen rest ++ [Some (inode_after (seen ++ rest) f)].
Proof. revert seen. induction rest as [| g rest IH]; intros seen; simpl; [by rewrite app_nil_r |]. rewrite IH. by rewrite <- app_assoc. Qed.

Lemma table_of_length seen rest : length (table_of seen rest) = length rest.
Proof. revert seen. induction rest as [| g rest IH]; intros seen; simpl; [done |]. by rewrite IH. Qed.

Lemma index_of_snoc k files f m : index_of k (files ++ [f]) m = path_insert (SLASH :: tf_name f) (k + Z.of_nat (length files)) (index_of k files m).
Proof.
  revert k m. induction files as [| g files IH]; intros k m; cbn [app index_of length]; [by rewrite Z.add_0_r |]. rewrite IH.
  f_equal. lia.
Qed.

Definition scan_at (seen : list tar_file) : scan := mkScan (scanned seen) (scanned_index seen) (Z.of_nat (length (blocks seen))) false.

Lemma scan_header seen f s :
  storable f -> s = scan_at seen -> Z.of_nat (length (blocks seen)) < 2 ^ 54 -> Z.of_nat (length seen) < 2 ^ 31 ->
  add_entry (sc_lba s) (Z.of_nat (length (tf_data f))) (header f) s = scan_at (seen ++ [f]).
Proof.
  intros Hf -> Hl Hn. unfold scan_at. cbn [sc_lba]. rewrite add_entry_header; [| done | lia | unfold scanned; simpl; rewrite table_of_length; lia].
  f_equal; [| | by rewrite blocks_snoc_length].
  - unfold scanned. rewrite table_of_snoc. done.
  - unfold scanned_index. rewrite index_of_snoc. unfold scanned. simpl length. rewrite table_of_length. f_equal. lia.
Qed.

Lemma blocks_ge fs : (length fs <= length (blocks fs))%nat.
Proof.
  induction fs as [| f fs IH]; [done |]. change (f :: fs) with ([f] ++ fs). rewrite blocks_app, !length_app.
  unfold blocks at 1. cbn [mbind list_bind]. rewrite app_nil_r. simpl. lia.
Qed.

Lemma read_disk_at a s b : read_disk (a ++ s :: b) (Z.of_nat (length a)) = Ok s.
Proof. unfold read_disk. by rewrite Nat2Z.id, list_lookup_middle. Qed.

Section archive_scan.
Context (files : list tar_file) (junk : list (list Z)).
Context (Hfiles : Forall storable files) (Hsize : Z.of_nat (length (archive files ++ junk)) <= 2 ^ 54) (Hcount : Z.of_nat (length files) < 2 ^ 31).

Let disk : list (list Z) := archive files ++ junk.
Let cap : Z := Z.of_nat (length disk).

Lemma disk_length : Z.of_nat (length (blocks files)) + 2 <= cap <= 2 ^ 54.
Proof. unfold cap, disk, archive in *. rewrite !length_app in *. simpl in *. lia. Qed.

(** A step at the header of the next file. *)
Lemma body_header seen f rest : files = seen ++ f :: rest -> mount_body (read_disk disk) cap (scan_at seen) = inl (scan_at (seen ++ [f])).
Proof using Hfiles Hsize Hcount.
  intros E. pose proof disk_length as Hd. assert (storable f) as Hf by (rewrite E in Hfiles; apply Forall_app in Hfiles as [_ Hx]; by inversion Hx).
  assert (Z.of_nat (length (blocks seen)) < Z.of_nat (length (blocks files)) /\ (length seen < length files)%nat) as [Hlt Hl].
  { rewrite E, blocks_app, !length_app. simpl. unfold blocks at 3. cbn [mbind list_bind]. rewrite length_app. simpl. lia. }
  unfold mount_body. cbn [sc_lba scan_at]. destruct (Z.ltb_spec (Z.of_nat (length (blocks seen))) cap); [| lia].
  assert (read_disk disk (Z.of_nat (length (blocks seen))) = Ok (header f)) as ->.
  { unfold disk, archive. rewrite E, blocks_app, <- !app_assoc. change (f :: rest) with ([f] ++ rest). rewrite blocks_app. unfold blocks at 2.
    cbn [mbind list_bind]. rewrite app_nil_r, <- app_assoc. unfold file_blocks. cbn [app]. apply read_disk_at. }
  rewrite header_nonzero by done.
  rewrite (header_slice f 9 USTAR_MAGIC) by done. rewrite bool_decide_true by done. cbn [negb andb].
  destruct (wf_data f Hf) as [Hdl _]. rewrite (header_slice f 4 (octal 11 (Z.of_nat (length (tf_data f))) ++ [0]))
    by (first [exact Hf | reflexivity | rewrite length_app, octal_length; reflexivity]).
  rewrite parse_octal_field by (simpl; lia). f_equal. apply (scan_header seen f (scan_at seen)); [done | done | lia | lia].
Qed.

Lemma zero_is_zero : forallb (fun b => b =? 0) zero_sector = true.
Proof. reflexivity. Qed.

(** The two zero sectors end the scan. *)
Lemma body_end1 : mount_body (read_disk disk) cap (scan_at files) =
  inl (mkScan (scanned files) (scanned_index files) (Z.of_nat (length (blocks files)) + 1) true).
Proof using Hsize.
  pose proof disk_length as Hd. unfold mount_body. cbn [sc_lba scan_at sc_prev_zero sc_inodes sc_by_path].
  destruct (Z.ltb_spec (Z.of_nat (length (blocks files))) cap); [| lia]. unfold disk, archive. rewrite <- app_assoc. cbn [app].
  rewrite read_disk_at, zero_is_zero. rewrite wadd_small by (unfold W64; lia). done.
Qed.

Lemma body_end2 : mount_body (read_disk disk) cap (mkScan (scanned files) (scanned_index files) (Z.of_nat (length (blocks files)) + 1) true) =
  inr (Ok (mkTarfs (scanned files) (scanned_index files))).
Proof using Hsize.
  pose proof disk_length as Hd. unfold mount_body. cbn [sc_lba sc_prev_zero sc_inodes sc_by_path].
  destruct (Z.ltb_spec (Z.of_nat (length (blocks files)) + 1) cap); [| lia]. unfold disk, archive. rewrite <- app_assoc. cbn [app].
  replace (Z.of_nat (length (blocks files)) + 1) with (Z.of_nat (length (blocks files ++ [zero_sector]))) by (rewrite length_app; simpl; lia).
  change (blocks files ++ zero_sector :: zero_sector :: junk) with (blocks files ++ [zero_sector] ++ zero_sector :: junk).
  rewrite app_assoc, read_disk_at, zero_is_zero. done.
Qed.

Lemma mount_archive : mount (read_disk disk) cap = Some (Ok (mkTarfs (scanned files) (scanned_index files))).
Proof using Hfiles Hsize Hcount.
  pose proof disk_length as Hd.
  destruct (while64_total (mount_body (read_disk disk) cap)
    (fun s => (exists seen rest, files = seen ++ rest /\ s = scan_at seen) \/
              s = mkScan (scanned files) (scanned_index files) (Z.of_nat (length (blocks files)) + 1) true)
    (fun s => Z.of_nat (length (blocks files)) + 1 - sc_lba s) (fun r => r = Ok (mkTarfs (scanned files) (scanned_index files))) scan_start) as (r & E & ->);
    [| by left; exists [], files | simpl; unfold W64; lia | exact E].
  intros s [(seen & rest & E & ->) | ->]; [| by rewrite body_end2]. destruct rest as [| f rest].
  - rewrite app_nil_r in E. subst seen. rewrite body_end1. split; [by right | simpl; lia].
  - rewrite (body_header seen f rest E). split; [left; exists (seen ++ [f]), rest; by rewrite <- app_assoc |].
    cbn [sc_lba scan_at]. pose proof (blocks_snoc_length seen f) as Hb. assert (length (blocks (seen ++ [f])) <= length (blocks files))%nat.
    { rewrite E. change (f :: rest) with ([f] ++ rest). rewrite app_assoc, (blocks_app (seen ++ [f])), (length_app (blocks (seen ++ [f]))). lia. }
    unfold file_span, SECTOR_SIZE in *. pose proof (Z.div_pos (Z.of_nat (length (tf_data f)) + 512 - 1) 512 ltac:(lia) ltac:(lia)). lia.
Qed.
End archive_scan.

(** ** The index *)

Lemma path_get_cons k k' v m : path_get k ((k', v) :: m) = if decide (k' = k) then Some v else path_get k m.
Proof. unfold path_get. rewrite filter_cons. cbn [fst]. by destruct (decide (k' = k)). Qed.

Lemma path_get_insert k j v m : path_get j (path_insert k v m) = if decide (k = j) then Some v else path_get j m.
Proof.
  induction m as [| [k' v'] m IH]; cbn [path_insert]; [apply path_get_cons |]. destruct (bytes_lt k k') eqn:E1; [apply path_get_cons |].
  destruct (bytes_lt k' k) eqn:E2; rewrite !path_get_cons.
  - rewrite IH. destruct (decide (k' = j)) as [-> |]; [| done]. destruct (decide (k = j)) as [-> |]; [| done]. by rewrite bytes_lt_irrefl in E2.
  - rewrite (bytes_lt_total _ _ E1 E2). by destruct (decide (k' = j)).
Qed.

(** Keys strictly ascending, as a [BTreeMap] keeps them. *)
Definition path_sorted (m : list (list Z * Z)) : Prop := StronglySorted (fun a b => bytes_lt a b = true) (fst <$> m).

Lemma path_insert_keys k v m x : x ∈ fst <$> path_insert k v m -> x = k \/ x ∈ fst <$> m.
Proof.
  induction m as [| [k' v'] m IH]; cbn [path_insert]; [set_solver |]. destruct (bytes_lt k k'); [set_solver |].
  destruct (bytes_lt k' k); [| set_solver]. rewrite !fmap_cons, !elem_of_cons. intros [-> | H%IH]; [by right; left | tauto].
Qed.

Lemma path_insert_sorted k v m : path_sorted m -> path_sorted (path_insert k v m).
Proof.
  unfold path_sorted. induction m as [| [k' v'] m IH]; cbn [path_insert]; intros Hs; [by repeat constructor |].
  apply StronglySorted_inv in Hs as Hs'. destruct Hs' as [Hs' Hall]. cbn [fst] in Hall. destruct (bytes_lt k k') eqn:E1.
  - constructor; [done |]. constructor; [done |]. eapply Forall_impl; [exact Hall |]. intros x Hx. by eapply bytes_lt_trans.
  - destruct (bytes_lt k' k) eqn:E2.
    + constructor; [by apply IH |]. apply Forall_forall. intros x [-> | Hx]%path_insert_keys; [done |]. by apply (proj1 (Forall_forall _ _) Hall).
    + rewrite <- (bytes_lt_total _ _ E1 E2) in Hs. done.
Qed.

Lemma index_of_get k files m p : NoDup (tf_name <$> files) ->
  path_get p (index_of k files m) =
    match list_find (fun f => SLASH :: tf_name f = p) files with Some (i, _) => Some (k + Z.of_nat i) | None => path_get p m end.
Proof.
  revert k m. induction files as [| f files IH]; intros k m Hnd; [done |]. apply NoDup_cons in Hnd as [Hf Hnd]. simpl list_find. cbn [index_of].
  rewrite IH by done. rewrite path_get_insert. destruct (decide (SLASH :: tf_name f = p)) as [<- | Hne].
  - destruct (list_find _ files) as [[i g] |] eqn:E; [| simpl; f_equal; lia].
    apply list_find_Some in E as (Hi & [= Hg] & _). exfalso. apply Hf. rewrite <- Hg. apply list_elem_of_fmap. exists g. split; [done |].
    by eapply list_elem_of_lookup_2.
  - destruct (list_find _ files) as [[i g] |]; simpl; [| done]. f_equal. lia.
Qed.

Lemma table_of_lookup seen rest i f : rest !! i = Some f -> table_of seen rest !! i = Some (Some (inode_after (seen ++ take i rest) f)).
Proof.
  revert seen i. induction rest as [| g rest IH]; intros seen [| i]; [done | done | intros [= ->]; simpl; by rewrite app_nil_r |].
  intros Hi. simpl. rewrite (IH (seen ++ [g]) i Hi). by rewrite <- app_assoc.
Qed.

(** Byte [k] of the data of a file, on the disk. *)
Lemma data_on_disk pre f post junk k b :
  tf_data f !! k = Some b ->
  exists sec, (archive (pre ++ f :: post) ++ junk) !! (length (blocks pre) + 1 + k / 512)%nat = Some sec /\ sec !! (k mod 512)%nat = Some b.
Proof.
  intros Hk. unfold archive. rewrite blocks_app, <- !app_assoc, <- Nat.add_assoc.
  rewrite lookup_app_r, Nat.add_sub' by lia. change (f :: post) with ([f] ++ post). rewrite blocks_app.
  unfold blocks at 1. cbn [mbind list_bind]. rewrite app_nil_r, <- app_assoc. unfold file_blocks.
  change (1 + k / 512)%nat with (S (k / 512)). cbn [app]. rewrite <- lookup_tail. cbn [tail].
  pose proof (lookup_lt_Some _ _ _ Hk) as Hlt. pose proof (Nat.div_mod k 512 ltac:(lia)) as Hdm. pose proof (Nat.mod_upper_bound k 512 ltac:(lia)) as Hm.
  assert (k / 512 < sector_count (length (tf_data f)))%nat as Hc.
  { unfold sector_count, SECTOR_SIZE. pose proof (Z.div_le_lower_bound (Z.of_nat (length (tf_data f)) + 512 - 1) 512 (Z.of_nat (k / 512) + 1) ltac:(lia) ltac:(lia)). lia. }
  exists (pad 512 (slice (512 * (k / 512)) 512 (tf_data f))). split.
  - rewrite lookup_app_l by (unfold data_sectors; rewrite length_fmap, length_seq; done).
    unfold data_sectors. rewrite list_lookup_fmap, lookup_seq_lt by done. done.
  - unfold pad, slice. rewrite lookup_app_l by (rewrite length_take, length_drop; lia).
    rewrite lookup_take_lt by done. rewrite lookup_drop. by rewrite <- Hdm.
Qed.

(** ** Mounting what was archived *)

Definition stat_of (ino : Z) (f : tar_file) : FileStat :=
  let n := match tf_kind f with Reg => Z.of_nat (length (tf_data f)) | Dir => 0 end in
  mkFileStat 1 ino (Z.lor (match tf_kind f with Reg => S_IFREG | Dir => S_IFDIR end) (tf_mode f)) 1 (tf_uid f) (tf_gid f) 0
    n 512 ((n + 511) / 512) (tf_mtime f) (tf_mtime f) (tf_mtime f).

Lemma lba_of_byte fs ino e k :
  entry fs ino = Ok e -> kind e = Reg -> 0 <= k < size e -> size e < 2 ^ 36 -> 0 <= data_sector e < 2 ^ 55 ->
  lba_for_page fs ino (k / 4096) = Ok (data_sector e + 8 * (k / 4096)).
Proof.
  intros He Hk Hs Hb Hd. unfold lba_for_page. rewrite He, Hk. unfold checked_mul, PAGE.
  pose proof (Z.div_mod k 4096 ltac:(lia)). pose proof (Z.mod_pos_bound k 4096 ltac:(lia)). pose proof (Z.div_pos k 4096 ltac:(lia) ltac:(lia)).
  destruct (Z.ltb_spec (k / 4096 * 4096) W64) as [_ | Hw]; [| unfold W64 in Hw; lia].
  assert (size e <= next_multiple_of (size e) 4096) as Hn.
  { unfold next_multiple_of. pose proof (Z.mod_pos_bound (size e) 4096 ltac:(lia)). destruct (_ =? 0); [lia |]. rewrite wadd_small by (unfold W64; lia). lia. }
  destruct (Z.leb_spec (next_multiple_of (size e) 4096) (k / 4096 * 4096)); [lia |]. change SECTORS_PER_PAGE with 8.
  rewrite wmul_small, wadd_small by (unfold W64; lia). f_equal. lia.
Qed.

Lemma sector_of_byte n k : Z.to_nat (Z.of_nat n + 1 + 8 * (Z.of_nat k / 4096) + Z.of_nat k mod 4096 / 512) = (n + 1 + k / 512)%nat.
Proof.
  apply Nat2Z.inj. rewrite !Nat2Z.inj_add, Nat2Z.inj_div, Z2Nat.id.
  - pose proof (Z.div_mod (Z.of_nat k) 4096 ltac:(lia)). replace (Z.of_nat k / Z.of_nat 512) with (8 * (Z.of_nat k / 4096) + Z.of_nat k mod 4096 / 512); [lia |].
    change (Z.of_nat 512) with 512. rewrite <- Z.div_add_l by lia. f_equal. lia.
  - pose proof (Z.div_pos (Z.of_nat k) 4096 ltac:(lia) ltac:(lia)). pose proof (Z.mod_pos_bound (Z.of_nat k) 4096 ltac:(lia)).
    pose proof (Z.div_pos (Z.of_nat k mod 4096) 512 ltac:(lia) ltac:(lia)). lia.
Qed.

Lemma blocks_take files i : (length (blocks (take i files)) <= length (blocks files))%nat.
Proof. rewrite <- (take_drop i files) at 2. rewrite blocks_app, length_app. lia. Qed.

(** C6. Mounting a ustar archive gives back what was archived. For any list of
    files and directories a ustar header can describe, whatever follows the archive
    on the disk, the scan ends and succeeds; opening the path of a file finds its
    inode, [stat] reports the type, permissions, owner, size and time it was packed
    with, every byte of it lies in the sector its page is read from, at its place;
    and no path opens but the root and the paths archived. *)
Theorem tar_mount_roundtrip files junk :
  Forall storable files -> NoDup (tf_name <$> files) -> Z.of_nat (length files) < 2 ^ 31 ->
  Z.of_nat (length (archive files ++ junk)) <= 2 ^ 54 ->
  exists fs, mount (read_disk (archive files ++ junk)) (Z.of_nat (length (archive files ++ junk))) = Some (Ok fs) /\
    (forall f, f ∈ files -> exists ino, open fs (SLASH :: tf_name f) = Ok ino /\ stat fs ino = Ok (stat_of ino f) /\
       file_size fs ino = Ok (Z.of_nat (length (tf_data f))) /\
       forall k b, tf_kind f = Reg -> tf_data f !! k = Some b ->
         exists l sec, lba_for_page fs ino (Z.of_nat k / 4096) = Ok l /\
           read_disk (archive files ++ junk) (l + Z.of_nat k mod 4096 / 512) = Ok sec /\ sec !! (k mod 512)%nat = Some b) /\
    (forall p ino, open fs p = Ok ino -> p = [SLASH] \/ exists f, f ∈ files /\ p = SLASH :: tf_name f).
Proof.
  intros Hf Hnd Hc Hs. exists (mkTarfs (scanned files) (scanned_index files)). split; [by apply mount_archive |]. split.
  - intros f [i Hi]%list_elem_of_lookup. exists (Z.of_nat (2 + i)). pose proof (proj1 (Forall_lookup _ _) Hf i f Hi) as Hw.
    assert (entry (mkTarfs (scanned files) (scanned_index files)) (Z.of_nat (2 + i)) = Ok (inode_after (take i files) f)) as He.
    { unfold entry. rewrite Nat2Z.id. simpl. by rewrite (table_of_lookup [] files i f Hi). }
    destruct (wf_data f Hw) as [Hlen Hdir]. split; [| split; [| split]].
    + unfold open, by_path, scanned_index. rewrite index_of_get by done. destruct (list_find _ files) as [[j g] |] eqn:E.
      * apply list_find_Some in E as (Hj & [= Hg] & _). f_equal. assert (i = j) as ->; [| lia].
        apply (NoDup_lookup (tf_name <$> files) i j (tf_name f)); [done | by rewrite list_lookup_fmap, Hi | by rewrite list_lookup_fmap, Hj; simpl; rewrite Hg].
      * apply list_find_None in E. rewrite Forall_lookup in E. by destruct (E i f Hi).
    + unfold stat. rewrite He. unfold stat_of, inode_after, inode_of. cbn [kind size mode_perms uid gid mtime]. destruct (tf_kind f); [| done].
      unfold STAT_BLOCK_UNIT, SECTOR_SIZE, i64. pose proof (Z.div_lt_upper_bound (Z.of_nat (length (tf_data f)) + 512 - 1) 512 (2 ^ 60) ltac:(lia) ltac:(lia)).
      pose proof (Z.div_pos (Z.of_nat (length (tf_data f)) + 512 - 1) 512 ltac:(lia) ltac:(lia)). rewrite !Z.mod_small by lia.
      do 2 f_equal; [lia |]. rewrite Z.add_simpl_r. f_equal. lia.
    + unfold file_size. by rewrite He.
    + intros k b Hreg Hk. pose proof (lookup_lt_Some _ _ _ Hk). pose proof (take_drop_middle files i f Hi) as Hsplit.
      pose proof (disk_length files junk Hs) as Hdl. pose proof (blocks_take files i) as Hbt.
      destruct (data_on_disk (take i files) f (drop (S i) files) junk k b Hk) as (sec & Hsec & Hb). rewrite Hsplit in Hsec.
      exists (Z.of_nat (length (blocks (take i files))) + 1 + 8 * (Z.of_nat k / 4096)), sec. split_and!; [| | done].
      * rewrite (lba_of_byte _ _ _ _ He); unfold inode_after, inode_of; cbn [kind data_sector size]; rewrite ?Hreg; try done; lia.
      * unfold read_disk. rewrite sector_of_byte, Hsec. done.
  - intros p ino. unfold open, by_path, scanned_index. rewrite index_of_get by done. destruct (list_find _ files) as [[i f] |] eqn:E.
    + intros _. right. apply list_find_Some in E as (Hi & <- & _). exists f. split; [by eapply list_elem_of_lookup_2 | done].
    + rewrite path_get_insert. destruct (decide ([SLASH] = p)) as [<- |]; [by left | done].
Qed.

(** ** Witnesses *)

Definition hello : tar_file := mkTarFile [104; 105] Reg 0x1a4 1000 1000 7 (replicate 8 48) [104; 101; 108; 108; 111].

Lemma hello_storable : storable hello.
Proof.
  split; try done. cbn [tf_name hello length]. split_and!; [done | done | rewrite !not_elem_of_cons; split_and!; [done | done | apply not_elem_of_nil] | lia].
Qed.

Lemma tar_mount_roundtrip_witness :
  exists fs, mount (read_disk (archive [hello] ++ [])) (Z.of_nat (length (archive [hello] ++ []))) = Some (Ok fs).
Proof.
  destruct (tar_mount_roundtrip [hello] []) as (fs & Hm & _); [repeat constructor; apply hello_storable | apply NoDup_singleton | simpl; lia | simpl; lia |].
  exists fs. exact Hm.
Defined.

Definition hello_fs : Tarfs := mkTarfs (scanned [hello]) (scanned_index [hello]).

Lemma hello_mounted : mount (read_disk (archive [hello])) 4 = Some (Ok hello_fs).
Proof. vm_compute. reflexivity. Qed.

Lemma tar_pages_distinct_witness :
  lba_for_page hello_fs 2 0 = Ok 1 /\ unpack (pack (mkCacheKey (dev_id hello_fs) 1)) = Some (mkCacheKey (dev_id hello_fs) 1).
Proof.
  split; [reflexivity |]. destruct (tar_pages_distinct (read_disk (archive [hello])) 4 ltac:(lia)) as (r & Hm & Hr).
  rewrite hello_mounted in Hm. injection Hm as <-.
  apply (Hr hello_fs 2 0 1 2 0 1); first [reflexivity | lia].
Defined.
