(* ===== verification/Readdir.v ===== *)
(** * Directory listing

    Models [Tarfs::readdir] of [kmain/src/kernel/fs/tar.rs], the packed records of
    [orbit-abi/src/fs.rs] and the reader of them in [umode/src/main.rs], and proves
    that a directory read to its end gives each of its children once. *)

From stdpp Require Import base list option numbers sets gmap sorting.
From S2P Require Import Prelude Text PageCache Blk Tar.
#[local] Open Scope Z_scope.

(** ** Packed records *)

Definition DIRENT_HDR_LEN : Z := 12.
Definition DIRENT_ALIGN : Z := 8.
Definition DT_DIR : Z := 4.
Definition DT_REG : Z := 8.

Record DirEntry := mkDirEntry { d_ino : Z; d_reclen : Z; d_type : Z; d_namelen : Z }.

(** The bytes of the packed record. *)
Definition dirent_bytes (h : DirEntry) : list Z :=
  le_bytes 8 (d_ino h) ++ le_bytes 2 (d_reclen h) ++ le_bytes 1 (d_type h) ++ le_bytes 1 (d_namelen h).

Record fill := mkFillState { rd_idx : Z; rd_written : Z; rd_out : list Z }.

(** One record, with its padding zeroed. *)
Definition put_dirent (ino d_type reclen : Z) (name : list Z) (s : fill) : fill :=
  let base := Z.to_nat (rd_written s) in
  let hdr := mkDirEntry ino (reclen mod 2 ^ 16) d_type (Z.of_nat (length name) mod 256) in
  let out := write_at base (dirent_bytes hdr) (rd_out s) in
  let name_start := (base + Z.to_nat DIRENT_HDR_LEN)%nat in
  let out := write_at name_start name out in
  let out := write_at (name_start + length name) (replicate (Z.to_nat reclen - Z.to_nat DIRENT_HDR_LEN - length name) 0) out in
  mkFillState (rd_idx s + 1) (rd_written s + reclen) out.

Definition dirent_len (name : list Z) : Z :=
  (DIRENT_HDR_LEN + Z.of_nat (length name) + DIRENT_ALIGN - 1) / DIRENT_ALIGN * DIRENT_ALIGN.

Fixpoint readdir_loop (nodes : list (option TarInode)) (prefix : list Z) (cursor : Z) (l : list (list Z * Z)) (s : fill) : result fill FsErr :=
  match l with
  | [] => Ok s
  | (path, child_ino) :: l =>
      if negb (starts_with prefix path) then Ok s
      else
        let suffix := drop (length prefix) path in
        let skip := mkFillState (rd_idx s + 1) (rd_written s) (rd_out s) in
        if bool_decide (suffix = []) || bool_decide (SLASH ∈ suffix) then readdir_loop nodes prefix cursor l s
        else if rd_idx s <? cursor then readdir_loop nodes prefix cursor l skip
        else
          match nodes !! Z.to_nat child_ino with
          | Some (Some child) =>
              let d_type := match kind child with Reg => DT_REG | Dir => DT_DIR end in
              let reclen := dirent_len suffix in
              if 255 <? Z.of_nat (length suffix) then readdir_loop nodes prefix cursor l skip
              else if Z.of_nat (length (rd_out s)) <? rd_written s + reclen then
                if rd_written s =? 0 then Err BadRange else Ok s
              else readdir_loop nodes prefix cursor l (put_dirent child_ino d_type reclen suffix s)
          | _ => readdir_loop nodes prefix cursor l skip
          end
  end.

(** [BTreeMap::range(p..)]. *)
Fixpoint path_range (p : list Z) (m : list (list Z * Z)) : list (list Z * Z) :=
  match m with [] => [] | e :: m' => if bytes_lt e.1 p then path_range p m' else m end.

Definition list_prefix (e : TarInode) : list Z :=
  if bool_decide (path e = []) then [SLASH] else path e ++ [SLASH].

Definition readdir (fs : Tarfs) (ino cursor : Z) (out : list Z) : result (Z * Z * list Z) FsErr :=
  match entry fs ino with
  | Err e => Err e
  | Ok e =>
      match kind e with
      | Reg => Err NotADirectory
      | Dir =>
          match readdir_loop (inodes fs) (list_prefix e) cursor (path_range (list_prefix e) (by_path fs)) (mkFillState 0 0 out) with
          | Err e => Err e
          | Ok s => Ok (rd_written s, rd_idx s, rd_out s)
          end
      end
  end.

(** ** The reader in user space: names, types and inodes, and whether the stream was well formed *)

Definition walk_body (s : list Z * list (list Z * Z * Z)) : (list Z * list (list Z * Z * Z)) + (bool * list (list Z * Z * Z)) :=
  let '(buf, acc) := s in
  if bool_decide (buf = []) then inr (true, acc)
  else if Z.of_nat (length buf) <? DIRENT_HDR_LEN then inr (false, acc)
  else
    let ino := le_value (slice 0 8 buf) in
    let reclen := le_value (slice 8 2 buf) in
    let d_type := le_value (slice 10 1 buf) in
    let nlen := le_value (slice 11 1 buf) in
    if (reclen <? DIRENT_HDR_LEN + nlen) || (Z.of_nat (length buf) <? reclen) then inr (false, acc)
    else
      let name := slice (Z.to_nat DIRENT_HDR_LEN) (Z.to_nat nlen) buf in
      if utf8_valid name then inl (drop (Z.to_nat reclen) buf, acc ++ [(name, d_type, ino)]) else inr (false, acc).

(** The position [p] is kept as the bytes from it on. *)
Definition walk_dirents (buf : list Z) : option (bool * list (list Z * Z * Z)) := while64 walk_body (buf, []).

(** ** The listing, as a specification *)

(** The children of a directory: the indexed paths one segment below its prefix. *)
Definition child_of (prefix : list Z) (e : list Z * Z) : option (list Z * Z) :=
  if starts_with prefix e.1 then
    let suffix := drop (length prefix) e.1 in
    if bool_decide (suffix = []) || bool_decide (SLASH ∈ suffix) then None else Some (suffix, e.2)
  else None.

Definition children (prefix : list Z) (m : list (list Z * Z)) : list (list Z * Z) := omap (child_of prefix) m.

(** Name, type and inode of a child, when its record can be written. *)
Definition record_of (nodes : list (option TarInode)) (c : list Z * Z) : option (list Z * Z * Z) :=
  match nodes !! Z.to_nat c.2 with
  | Some (Some child) =>
      if 255 <? Z.of_nat (length c.1) then None else Some (c.1, match kind child with Reg => DT_REG | Dir => DT_DIR end, c.2)
  | _ => None
  end.

Definition listing (fs : Tarfs) (e : TarInode) : list (list Z * Z * Z) :=
  omap (record_of (inodes fs)) (children (list_prefix e) (by_path fs)).

Definition record_bytes (r : list Z * Z * Z) : list Z :=
  let '(name, ty, ino) := r in
  dirent_bytes (mkDirEntry ino (dirent_len name) ty (Z.of_nat (length name))) ++ name ++
    replicate (Z.to_nat (dirent_len name) - 12 - length name) 0.

(** A program that reads the directory to its end through one buffer. *)
Fixpoint read_all (n : nat) (fs : Tarfs) (ino cursor : Z) (out : list Z) : option (list (list Z * Z * Z)) :=
  match n with
  | O => None
  | S n =>
      match readdir fs ino cursor out with
      | Err _ => None
      | Ok (w, next, out') =>
          if w =? 0 then Some []
          else
            match walk_dirents (take (Z.to_nat w) out') with
            | Some (true, rs) => rest ← read_all n fs ino next out; Some (rs ++ rest)
            | _ => None
            end
      end
  end.

(** ** The loop over the index is a loop over the children *)

(** The loop with the children given. *)
Fixpoint pack_children (nodes : list (option TarInode)) (cursor : Z) (cs : list (list Z * Z)) (s : fill) : result fill FsErr :=
  match cs with
  | [] => Ok s
  | c :: cs =>
      let skip := mkFillState (rd_idx s + 1) (rd_written s) (rd_out s) in
      if rd_idx s <? cursor then pack_children nodes cursor cs skip
      else
        match record_of nodes c with
        | Some (name, ty, ino) =>
            if Z.of_nat (length (rd_out s)) <? rd_written s + dirent_len name then
              if rd_written s =? 0 then Err BadRange else Ok s
            else pack_children nodes cursor cs (put_dirent ino ty (dirent_len name) name s)
        | None => pack_children nodes cursor cs skip
        end
  end.

Lemma children_none p l : Forall (fun e => starts_with p e.1 = false) l -> children p l = [].
Proof. induction 1 as [| e l He _ IH]; [done |]. unfold children in *. simpl. unfold child_of at 1. by rewrite He. Qed.

Lemma loop_children nodes p cursor l s :
  path_sorted l -> Forall (fun e => bytes_lt e.1 p = false) l -> readdir_loop nodes p cursor l s = pack_children nodes cursor (children p l) s.
Proof.
  revert s. induction l as [| [k v] l IH]; intros s Hs Hf; [done |]. apply StronglySorted_inv in Hs as [Hs Hall]. apply Forall_cons in Hf as [Hk Hf].
  simpl in Hk, Hall. cbn [readdir_loop]. destruct (starts_with p k) eqn:E; cbn [negb].
  - unfold children. cbn [omap list_omap]. unfold child_of at 1. cbn [fst]. rewrite E.
    destruct (_ || _)%bool; [by apply IH |]. cbn [pack_children snd]. destruct (rd_idx s <? cursor); [by apply IH |].
    unfold record_of. cbn [fst snd]. destruct (nodes !! Z.to_nat v) as [[child |] |]; [| by apply IH | by apply IH].
    destruct (255 <? _); [by apply IH |]. destruct (_ <? _); [done |]. by apply IH.
  - rewrite children_none; [done |]. constructor; [done |]. apply Forall_forall. intros e He.
    apply not_true_is_false. intros Hst. assert (starts_with p k = true); [| congruence].
    apply (starts_between p k e.1); [done | | done]. rewrite Forall_forall in Hall. by apply Hall, list_elem_of_fmap_2.
Qed.

Lemma children_range p m : children p (path_range p m) = children p m.
Proof.
  induction m as [| e m IH]; [done |]. simpl. destruct (bytes_lt e.1 p) eqn:E; [| done]. rewrite IH. unfold children. simpl. unfold child_of at 2.
  destruct (starts_with p e.1) eqn:Es; [| done]. apply starts_not_below in Es. congruence.
Qed.

Lemma path_range_ok p m : path_sorted m -> path_sorted (path_range p m) /\ Forall (fun e => bytes_lt e.1 p = false) (path_range p m).
Proof.
  induction m as [| e m IH]; intros Hs; [done |]. simpl. destruct (bytes_lt e.1 p) eqn:E; [apply IH; by apply StronglySorted_inv in Hs as [? _] |].
  split; [done |]. constructor; [done |]. apply StronglySorted_inv in Hs as [_ Hall]. apply Forall_forall. intros x Hx.
  rewrite Forall_forall in Hall. specialize (Hall x.1 (list_elem_of_fmap_2 fst _ _ Hx)). simpl in Hall.
  apply not_true_is_false. intros Hlt. rewrite (bytes_lt_trans _ _ _ Hall Hlt) in E. done.
Qed.

Lemma readdir_children fs ino e cursor out :
  path_sorted (by_path fs) -> entry fs ino = Ok e -> kind e = Dir ->
  readdir fs ino cursor out =
    match pack_children (inodes fs) cursor (children (list_prefix e) (by_path fs)) (mkFillState 0 0 out) with
    | Err e => Err e
    | Ok s => Ok (rd_written s, rd_idx s, rd_out s)
    end.
Proof.
  intros Hs He Hk. unfold readdir. rewrite He, Hk. destruct (path_range_ok (list_prefix e) _ Hs) as [H1 H2].
  by rewrite loop_children, children_range.
Qed.

(** ** One record *)

Lemma dirent_len_bounds name : Z.of_nat (length name) <= 255 ->
  12 + Z.of_nat (length name) <= dirent_len name <= 272 /\ 12 + Z.of_nat (length name) <= dirent_len name <= 12 + Z.of_nat (length name) + 7.
Proof.
  intros Hn. unfold dirent_len, DIRENT_HDR_LEN, DIRENT_ALIGN. pose proof (Z.div_mod (12 + Z.of_nat (length name) + 8 - 1) 8 ltac:(lia)).
  pose proof (Z.mod_pos_bound (12 + Z.of_nat (length name) + 8 - 1) 8 ltac:(lia)).
  pose proof (Z.div_lt_upper_bound (12 + Z.of_nat (length name) + 8 - 1) 8 35 ltac:(lia) ltac:(lia)). lia.
Qed.

Lemma dirent_bytes_length h : length (dirent_bytes h) = 12%nat.
Proof. unfold dirent_bytes. by rewrite !length_app, !le_bytes_length. Qed.

Lemma record_length name ty ino : Z.of_nat (length name) <= 255 -> length (record_bytes (name, ty, ino)) = Z.to_nat (dirent_len name).
Proof.
  intros Hn. pose proof (dirent_len_bounds name Hn). unfold record_bytes. rewrite !length_app, dirent_bytes_length, length_replicate. lia.
Qed.

Definition record_ok (r : list Z * Z * Z) : Prop :=
  let '(name, ty, ino) := r in Z.of_nat (length name) <= 255 /\ utf8_valid name = true /\ 0 <= ty < 256 /\ 0 <= ino < 2 ^ 32.

Lemma put_dirent_out name ty ino idx a b c :
  Z.of_nat (length name) <= 255 -> length b = Z.to_nat (dirent_len name) ->
  put_dirent ino ty (dirent_len name) name (mkFillState idx (Z.of_nat (length a)) (a ++ b ++ c)) =
  mkFillState (idx + 1) (Z.of_nat (length (a ++ record_bytes (name, ty, ino)))) (a ++ record_bytes (name, ty, ino) ++ c).
Proof.
  intros Hn Hb. pose proof (dirent_len_bounds name Hn) as [Hd _]. unfold put_dirent. cbn [rd_idx rd_written rd_out].
  rewrite Nat2Z.id, !Z.mod_small by lia. change (Z.to_nat DIRENT_HDR_LEN) with 12%nat.
  set (h := mkDirEntry ino (dirent_len name) ty (Z.of_nat (length name))).
  rewrite <- (take_drop 12 b), <- (take_drop (length name) (drop 12 b)). set (b1 := take 12 b). set (b2 := take _ (drop 12 b)). set (b3 := drop _ (drop 12 b)).
  assert (length b1 = 12%nat /\ length b2 = length name /\ length b3 = (Z.to_nat (dirent_len name) - 12 - length name)%nat) as (L1 & L2 & L3).
  { unfold b1, b2, b3. rewrite !length_take, !length_drop. lia. }
  f_equal; [rewrite length_app, record_length by done; lia |].
  rewrite <- !app_assoc, write_at_app by (by rewrite L1, dirent_bytes_length).
  rewrite (app_assoc a (dirent_bytes h)). replace (length a + 12)%nat with (length (a ++ dirent_bytes h)) by (rewrite length_app, dirent_bytes_length; lia).
  rewrite write_at_app by done. rewrite (app_assoc (a ++ dirent_bytes h) name).
  replace (length (a ++ dirent_bytes h) + length name)%nat with (length ((a ++ dirent_bytes h) ++ name)) by (by rewrite length_app).
  rewrite write_at_app by (by rewrite L3, length_replicate). unfold record_bytes. fold h. by rewrite <- !app_assoc.
Qed.

Definition records_bytes (rs : list (list Z * Z * Z)) : list Z := concat (record_bytes <$> rs).

Lemma record_of_some nodes c name ty ino :
  record_of nodes c = Some (name, ty, ino) -> name = c.1 /\ ino = c.2 /\ Z.of_nat (length name) <= 255 /\ (ty = DT_REG \/ ty = DT_DIR).
Proof.
  unfold record_of. destruct (nodes !! Z.to_nat c.2) as [[child |] |]; [| done | done]. destruct (Z.ltb_spec 255 (Z.of_nat (length c.1))); [done |].
  intros [= <- <- <-]. split_and!; try done. destruct (kind child); tauto.
Qed.

(** A call writes the records of the children it reaches, and stops short only of a
    child whose record does not fit. *)
Lemma pack_spec nodes cursor cs : forall idx a rest,
  cursor <= idx -> (272 <= length (a ++ rest))%nat ->
  exists k rest', (k <= length cs)%nat /\
    let new := records_bytes (omap (record_of nodes) (take k cs)) in
    pack_children nodes cursor cs (mkFillState idx (Z.of_nat (length a)) (a ++ rest)) =
      Ok (mkFillState (idx + Z.of_nat k) (Z.of_nat (length (a ++ new))) (a ++ new ++ rest')) /\
    (k = length cs \/ a ++ new <> []) /\ length (a ++ new ++ rest') = length (a ++ rest).
Proof.
  induction cs as [| c cs IH]; intros idx a rest Hi Hl.
  { exists O, rest. cbn [take omap list_omap pack_children]. unfold records_bytes. simpl. rewrite Z.add_0_r, app_nil_r. split_and!; [done | done | by left | done]. }
  cbn [pack_children rd_idx rd_written rd_out]. destruct (Z.ltb_spec idx cursor); [lia |].
  destruct (record_of nodes c) as [[[name ty] ino] |] eqn:Er.
  - destruct (record_of_some _ _ _ _ _ Er) as (_ & _ & Hn & _). pose proof (dirent_len_bounds name Hn) as [Hd _].
    destruct (Z.ltb_spec (Z.of_nat (length (a ++ rest))) (Z.of_nat (length a) + dirent_len name)) as [Hnf | Hfit].
    + destruct (Z.eqb_spec (Z.of_nat (length a)) 0) as [E0 | Hne]; [rewrite E0 in Hnf; lia |]. exists O, rest.
      unfold records_bytes. cbn [take omap list_omap fmap list_fmap concat app]. rewrite Z.add_0_r, app_nil_r. split_and!; [lia | done | right; by intros -> | done].
    + set (b := take (Z.to_nat (dirent_len name)) rest). set (r := drop (Z.to_nat (dirent_len name)) rest).
      assert (length b = Z.to_nat (dirent_len name)) as Hb by (unfold b; rewrite length_take; rewrite length_app in Hfit; lia).
      assert (rest = b ++ r) as Ebr by (unfold b, r; by rewrite take_drop). rewrite Ebr in *.
      rewrite (put_dirent_out name ty ino idx a b r Hn Hb).
      destruct (IH (idx + 1) (a ++ record_bytes (name, ty, ino)) r) as (k & rest' & Hk & Hp & Hend & Hlen); [lia | |].
      { rewrite <- app_assoc, !length_app, record_length by done. rewrite !length_app in Hl. lia. }
      exists (S k), rest'. split; [simpl; lia |]. cbn [take omap list_omap]. rewrite Er. cbv zeta in *. unfold records_bytes in *.
      cbn [fmap list_fmap concat] in *. rewrite <- !app_assoc in *. rewrite Hp. split; [do 2 f_equal; lia |].
      split; [destruct Hend as [-> | Hne]; [by left | by right] |]. rewrite Hlen, !length_app, record_length by done. lia.
  - destruct (IH (idx + 1) a rest) as (k & rest' & Hk & Hp & Hend & Hlen); [lia | done |]. exists (S k), rest'. cbn [take omap list_omap length]. rewrite Er.
    split; [lia |]. cbv zeta in *. rewrite Hp. split; [do 2 f_equal; lia |]. split; [destruct Hend as [-> | Hne]; [by left | by right] | done].
Qed.

Lemma pack_skip nodes cursor cs : forall idx w out,
  idx <= cursor <= idx + Z.of_nat (length cs) ->
  pack_children nodes cursor cs (mkFillState idx w out) = pack_children nodes cursor (drop (Z.to_nat (cursor - idx)) cs) (mkFillState cursor w out).
Proof.
  induction cs as [| c cs IH]; intros idx w out Hc.
  { rewrite drop_nil. simpl in *. do 2 f_equal. lia. }
  destruct (decide (idx = cursor)) as [-> | Hne]; [by rewrite Z.sub_diag |].
  cbn [pack_children rd_idx rd_written rd_out]. destruct (Z.ltb_spec idx cursor); [| lia]. rewrite IH by (simpl length in Hc; lia).
  replace (Z.to_nat (cursor - idx)) with (S (Z.to_nat (cursor - (idx + 1)))) by lia. done.
Qed.

(** ** The reader undoes the writer *)

Lemma walk_step r rest acc : record_ok r -> walk_body (record_bytes r ++ rest, acc) = inl (rest, acc ++ [r]).
Proof.
  destruct r as [[name ty] ino]. intros (Hn & Hu & Ht & Hi). pose proof (dirent_len_bounds name Hn) as [Hd _].
  set (zs := replicate (Z.to_nat (dirent_len name) - 12 - length name) 0).
  set (ps := [le_bytes 8 ino; le_bytes 2 (dirent_len name); le_bytes 1 ty; le_bytes 1 (Z.of_nat (length name)); name; zs; rest]).
  assert (record_bytes (name, ty, ino) ++ rest = concat ps) as E.
  { unfold record_bytes, dirent_bytes, ps. cbn [concat d_ino d_reclen d_type d_namelen]. by rewrite app_nil_r, <- !app_assoc. }
  assert (length <$> ps = [8; 2; 1; 1; length name; length zs; length rest]%nat) as Hl by (unfold ps; cbn [fmap list_fmap]; by rewrite !le_bytes_length).
  assert (forall i p off len, ps !! i = Some p -> off = sum_list (take i (length <$> ps)) -> len = length p -> slice off len (concat ps) = p) as Hs
    by (intros; by eapply slice_pieces).
  unfold walk_body. rewrite E. rewrite (Hs 0%nat (le_bytes 8 ino) 0%nat 8%nat), (Hs 1%nat (le_bytes 2 (dirent_len name)) 8%nat 2%nat),
    (Hs 2%nat (le_bytes 1 ty) 10%nat 1%nat), (Hs 3%nat (le_bytes 1 (Z.of_nat (length name))) 11%nat 1%nat)
    by (first [reflexivity | by rewrite Hl | by rewrite le_bytes_length]).
  rewrite !le_value_bytes by (simpl; lia). rewrite Nat2Z.id, (Hs 4%nat name) by (first [reflexivity | by rewrite Hl]).
  rewrite <- E. rewrite length_app, record_length by done. unfold DIRENT_HDR_LEN.
  rewrite bool_decide_false by (intros E0; apply (f_equal length) in E0; rewrite length_app, record_length in E0 by done; simpl in E0; lia).
  destruct (Z.ltb_spec (Z.of_nat (Z.to_nat (dirent_len name) + length rest)) 12); [lia |].
  destruct (Z.ltb_spec (dirent_len name) (12 + Z.of_nat (length name))); [lia |].
  destruct (Z.ltb_spec (Z.of_nat (Z.to_nat (dirent_len name) + length rest)) (dirent_len name)); [lia |]. cbn [orb].
  rewrite Hu. rewrite drop_app_length' by (by rewrite record_length). done.
Qed.

Lemma walk_records rs : Forall record_ok rs -> Z.of_nat (length (records_bytes rs)) < W64 -> walk_dirents (records_bytes rs) = Some (true, rs).
Proof.
  intros Hf Hl. unfold walk_dirents.
  destruct (while64_total walk_body (fun s => exists pre post, rs = pre ++ post /\ s = (records_bytes post, pre)) (fun s => Z.of_nat (length s.1))
    (fun r => r = (true, rs)) (records_bytes rs, [])) as (r & E & ->); [| by exists [], rs | done | exact E].
  intros s (pre & post & E & ->). destruct post as [| r post].
  - unfold walk_body, records_bytes. simpl. by rewrite E, app_nil_r.
  - unfold records_bytes. cbn [fmap list_fmap concat]. assert (record_ok r) as Hr by (rewrite E in Hf; apply Forall_app in Hf as [_ Hx]; by inversion Hx).
    rewrite walk_step by done. split; [exists (pre ++ [r]), post; split; [by rewrite E, <- app_assoc | done] |]. simpl. rewrite length_app.
    destruct r as [[name ty] ino]. destruct Hr as (Hn & _). rewrite record_length by done. pose proof (dirent_len_bounds name Hn). lia.
Qed.

(** ** Names are text *)

Lemma trim_slashes_app s : exists k, s = trim_slashes s ++ replicate k SLASH.
Proof.
  induction s as [| x s [k IH]]; [by exists O |]. simpl. destruct (trim_slashes s) as [| y t].
  - destruct (Z.eqb_spec x SLASH) as [-> |]; [exists (S k) | exists k]; simpl in *; by f_equal.
  - exists k. simpl in *. by f_equal.
Qed.

Lemma trim_utf8 s : utf8_str s -> utf8_str (trim_slashes s).
Proof.
  destruct (trim_slashes_app s) as [k E]. rewrite E at 1. clear E. generalize (trim_slashes s). intros t. induction k as [| k IH]; [by rewrite app_nil_r |].
  rewrite replicate_S_end, app_assoc. intros Hs. apply IH. by apply (utf8_split SLASH _ ltac:(done) Hs (t ++ replicate k SLASH) []).
Qed.

Lemma nt_str_utf8 l : utf8_str (nt_str l).
Proof. unfold nt_str. destruct (utf8_valid _) eqn:E; [by apply utf8_valid_str | constructor]. Qed.

Lemma canonicalize_utf8 prefix name : utf8_str prefix -> utf8_str name -> utf8_str (canonicalize_path prefix name).
Proof.
  intros Hp Hn. unfold canonicalize_path.
  set (joined := if bool_decide (prefix = []) then name else _). assert (utf8_str joined) as Hj.
  { unfold joined. case_bool_decide; [done |]. case_bool_decide; [by apply utf8_app |].
    apply utf8_app; [done |]. apply (utf8_app [SLASH] name); [by apply utf8_plain | done]. }
  assert (forall s, utf8_str s -> utf8_str (match trim_slashes s with [] => [] | t => SLASH :: t end)) as Hf.
  { intros s Hs. pose proof (trim_utf8 s Hs) as Ht. destruct (trim_slashes s) as [| x t]; [done |].
    apply (utf8_app [SLASH]); [by apply utf8_plain | done]. }
  destruct joined as [| a [| b s]]; [by apply Hf | destruct (a =? DOT); [constructor | by apply Hf] |].
  destruct (_ && _)%bool eqn:E; [| by apply Hf]. to_prop. subst a b. apply Hf.
  destruct (utf8_split DOT _ ltac:(done) Hj [] (SLASH :: s) eq_refl) as [_ H1]. by apply (utf8_split SLASH _ ltac:(done) H1 [] s).
Qed.

Record index_ok (s : scan) : Prop := {
  io_sorted : path_sorted (sc_by_path s);
  io_keys : Forall (fun e => utf8_str e.1 /\ 0 <= e.2 < 2 ^ 32) (sc_by_path s);
  io_paths : forall i e, sc_inodes s !! i = Some (Some e) -> utf8_str (path e);
}.

Lemma path_insert_elem k v m e : e ∈ path_insert k v m -> e = (k, v) \/ e ∈ m.
Proof.
  induction m as [| [k' v'] m IH]; cbn [path_insert]; [by intros ?%list_elem_of_singleton; left |]. destruct (bytes_lt k k'); [rewrite !elem_of_cons; tauto |].
  destruct (bytes_lt k' k); rewrite !elem_of_cons; tauto.
Qed.

Lemma add_entry_index lba sz buf s : index_ok s -> index_ok (add_entry lba sz buf s).
Proof.
  intros [H1 H2 H3]. unfold add_entry. set (p := canonicalize_path _ _).
  assert (utf8_str p) as Hp by (apply canonicalize_utf8; apply nt_str_utf8).
  destruct (kind_of _); [case_bool_decide |]; [by split | | by split]. split; cbn [sc_by_path sc_inodes].
  - by apply path_insert_sorted.
  - apply Forall_forall. intros e [-> | He]%path_insert_elem; [| by apply (proj1 (Forall_forall _ _) H2)].
    split; [done |]. apply Z.mod_pos_bound. lia.
  - intros i e [Hi | [-> [= ->]]]%snoc_lookup; [by eauto | done].
Qed.

Lemma mount_index rd cap : 0 <= cap <= 2 ^ 54 ->
  exists r, mount rd cap = Some r /\ forall fs, r = Ok fs -> exists s, index_ok s /\ fs = mkTarfs (sc_inodes s) (sc_by_path s).
Proof.
  intros Hc. apply (while64_total _ (fun s => scan_ok cap s /\ index_ok s) (fun s => cap + 2 ^ 28 - sc_lba s)).
  - intros s [Hs Hi]. pose proof (mount_body_ok rd cap s Hs ltac:(lia)) as Hb.
    assert (match mount_body rd cap s with inl s' => index_ok s' | inr (Ok fs) => fs = mkTarfs (sc_inodes s) (sc_by_path s) | _ => True end) as Hx.
    { unfold mount_body. destruct (_ <? _); [| done]. destruct (rd _); [| done]. destruct (forallb _ _); [destruct (sc_prev_zero s); [done | by destruct Hi] |].
      destruct (_ && _)%bool; [done |]. destruct (parse_octal _); [| done]. by apply add_entry_index. }
    destruct (mount_body rd cap s) as [s' | [fs | e]]; [| intros ? [= <-]; by exists s | done].
    destruct Hb as (Hs' & H1 & H2). pose proof (so_lba _ _ Hs'). split; [done | lia].
  - split; [apply scan_start_ok; lia |]. unfold scan_start. split; cbn [sc_by_path sc_inodes].
    + apply path_insert_sorted. constructor.
    + constructor; [| constructor]. split; [by apply utf8_plain | done].
    + intros [| [| i]] e [= <-]. constructor.
  - simpl. unfold W64. lia.
Qed.

(** ** A directory read to its end *)

Lemma child_text prefix e m c : utf8_str (path e) -> prefix = list_prefix e -> Forall (fun x => utf8_str x.1 /\ 0 <= x.2 < 2 ^ 32) m -> c ∈ children prefix m ->
  utf8_str c.1 /\ 0 <= c.2 < 2 ^ 32.
Proof.
  intros He -> Hm (x & Hx & Hc)%list_elem_of_omap. apply (proj1 (Forall_forall _ _) Hm) in Hx as [Hu Hi]. unfold child_of in Hc.
  destruct (starts_with _ _) eqn:E; [| done]. destruct (_ || _)%bool; [done |]. injection Hc as <-. cbn [fst snd]. split; [| done].
  apply starts_with_spec in E as [t E]. rewrite E, drop_app_length. rewrite E in Hu. unfold list_prefix in Hu. case_bool_decide.
  - by apply (utf8_split SLASH _ ltac:(done) Hu [] t).
  - rewrite <- app_assoc in Hu. by apply (utf8_split SLASH _ ltac:(done) Hu (path e) t).
Qed.

Lemma records_app a b : records_bytes (a ++ b) = records_bytes a ++ records_bytes b.
Proof. unfold records_bytes. by rewrite fmap_app, concat_app. Qed.

Lemma records_nil rs : Forall record_ok rs -> records_bytes rs = [] -> rs = [].
Proof.
  destruct rs as [| [[name ty] ino] rs]; [done |]. intros Hf E. apply Forall_cons in Hf as [(Hn & _) _].
  apply (f_equal length) in E. unfold records_bytes in E. cbn [fmap list_fmap concat] in E. rewrite length_app, record_length in E by done.
  pose proof (dirent_len_bounds name Hn). simpl in E. lia.
Qed.

(** One call of a program at its [j]-th child: the records of the children it gets
    to, which walk; none only at the end. *)
Lemma readdir_step fs ino e out j :
  path_sorted (by_path fs) -> entry fs ino = Ok e -> kind e = Dir -> (272 <= length out)%nat -> Z.of_nat (length out) < W64 ->
  Forall record_ok (listing fs e) -> let cs := children (list_prefix e) (by_path fs) in (j <= length cs)%nat ->
  exists k rest, let rs := omap (record_of (inodes fs)) (take k (drop j cs)) in let w := length (records_bytes rs) in
    readdir fs ino (Z.of_nat j) out = Ok (Z.of_nat w, Z.of_nat (j + k), records_bytes rs ++ rest) /\
    length (records_bytes rs ++ rest) = length out /\ (k <= length cs - j)%nat /\
    omap (record_of (inodes fs)) (drop j cs) = rs ++ omap (record_of (inodes fs)) (drop (j + k) cs) /\
    if decide (w = O) then omap (record_of (inodes fs)) (drop j cs) = [] else (0 < k)%nat /\ walk_dirents (records_bytes rs) = Some (true, rs).
Proof.
  intros Hs He Hk Hl Hw Hok cs Hj. unfold listing in Hok. fold cs in Hok.
  rewrite (readdir_children fs ino e) by done. fold cs. rewrite pack_skip by lia. rewrite Z.sub_0_r, Nat2Z.id.
  destruct (pack_spec (inodes fs) (Z.of_nat j) (drop j cs) (Z.of_nat j) [] out) as (k & rest & Hk' & Hp & Hend & Hlen); [lia | done |].
  cbn [app] in Hp, Hend, Hlen. cbn [length] in Hp. change (Z.of_nat 0) with 0 in Hp. rewrite Hp. cbn [rd_written rd_idx rd_out]. exists k, rest.
  cbv zeta. set (rs := omap (record_of (inodes fs)) (take k (drop j cs))) in *. rewrite length_drop in Hk'.
  assert (omap (record_of (inodes fs)) (drop j cs) = rs ++ omap (record_of (inodes fs)) (drop (j + k) cs)) as Esplit.
  { rewrite <- (take_drop k (drop j cs)) at 1. by rewrite omap_app, drop_drop. }
  assert (Forall record_ok rs) as Hrs.
  { rewrite <- (take_drop j cs), omap_app in Hok. apply Forall_app in Hok as [_ Hok]. rewrite Esplit in Hok. by apply Forall_app in Hok as [? _]. }
  split_and!; [by rewrite Nat2Z.inj_add | done | lia | done |]. case_decide as E0.
  - assert (records_bytes rs = []) as En by (by apply length_zero_iff_nil). rewrite En in Hend. destruct Hend as [Hend | ?]; [| done].
    rewrite length_drop in Hend. rewrite Esplit, (records_nil rs Hrs En), drop_ge by lia. done.
  - split; [destruct k as [| k]; [| lia]; unfold rs in E0; by rewrite take_0 in E0 |]. apply walk_records; [done |]. rewrite length_app in Hlen. lia.
Qed.

Lemma read_all_from fs ino e out :
  path_sorted (by_path fs) -> entry fs ino = Ok e -> kind e = Dir -> (272 <= length out)%nat -> Z.of_nat (length out) < W64 ->
  Forall record_ok (listing fs e) ->
  forall n j, (j <= length (children (list_prefix e) (by_path fs)))%nat -> (length (children (list_prefix e) (by_path fs)) - j < n)%nat ->
  read_all n fs ino (Z.of_nat j) out = Some (omap (record_of (inodes fs)) (drop j (children (list_prefix e) (by_path fs)))).
Proof.
  intros Hs He Hk Hl Hw Hok. induction n as [| n IH]; intros j Hj Hn; [lia |]. cbn [read_all].
  destruct (readdir_step fs ino e out j Hs He Hk Hl Hw Hok Hj) as (k & rest & -> & _ & Hle & Esplit & Hend). rewrite Nat2Z.id, take_app_length.
  destruct (Z.eqb_spec (Z.of_nat (length (records_bytes (omap (record_of (inodes fs)) (take k (drop j (children (list_prefix e) (by_path fs)))))))) 0) as [E0 | Hne].
  - rewrite decide_True in Hend by lia. by rewrite Hend.
  - rewrite decide_False in Hend by lia. destruct Hend as [Hk0 ->]. rewrite IH by lia. simpl. by rewrite <- Esplit.
Qed.

(** The directories of a mounted disk. *)
Lemma mounted_listing rd cap : 0 <= cap <= 2 ^ 54 ->
  exists r, mount rd cap = Some r /\ forall fs, r = Ok fs -> path_sorted (by_path fs) /\
    forall ino e, entry fs ino = Ok e -> Forall record_ok (listing fs e) /\ (length (children (list_prefix e) (by_path fs)) <= length (by_path fs))%nat.
Proof.
  intros Hc. destruct (mount_index rd cap Hc) as (r & Hm & Hr). exists r. split; [done |]. intros fs Hok.
  destruct (Hr fs Hok) as (s & [Hsort Hkeys Hpaths] & ->). split; [done |]. intros ino e He. set (fs := mkTarfs _ _) in *.
  assert (utf8_str (path e)) as Hpe.
  { unfold entry in He. destruct (inodes fs !! Z.to_nat ino) as [[e' |] |] eqn:Ei; [| done | done]. injection He as ->. by eapply Hpaths. }
  split.
  - apply Forall_forall. intros [[name ty] i] (c & Hc' & Hrec)%list_elem_of_omap.
    destruct (record_of_some _ _ _ _ _ Hrec) as (-> & -> & Hn & Hty). destruct (child_text _ e _ c Hpe eq_refl Hkeys Hc') as [Hu Hi].
    assert (0 <= ty < 256) by (destruct Hty as [-> | ->]; unfold DT_REG, DT_DIR; lia). split_and!; [done | by apply utf8_valid_str | lia ..].
  - unfold children. generalize (by_path fs). intros l. induction l as [| x l IH]; [done |]. cbn [omap list_omap] in *. destruct (child_of _ x); cbn [length]; lia.
Qed.

(** C21. Listing a directory of a mounted disk is exact. Whatever the disk held, a
    program that calls [fs_readdir] with a buffer of at least 272 bytes until it
    answers 0, and walks each buffer it gets, sees the children of the directory in
    the order of their names, each once, with their types and inodes; it never
    meets a malformed record, and it stops. *)
Theorem readdir_lists_children rd cap :
  0 <= cap <= 2 ^ 54 ->
  exists r, mount rd cap = Some r /\
    forall fs ino e out, r = Ok fs -> entry fs ino = Ok e -> kind e = Dir -> 272 <= Z.of_nat (length out) < W64 ->
      read_all (S (length (by_path fs))) fs ino 0 out = Some (listing fs e).
Proof.
  intros Hc. destruct (mounted_listing rd cap Hc) as (r & Hm & Hr). exists r. split; [done |]. intros fs ino e out Hok He Hk Ho.
  destruct (Hr fs Hok) as [Hsort Hl]. destruct (Hl ino e He) as [Hrec Hlen].
  apply (read_all_from fs ino e out Hsort He Hk ltac:(lia) ltac:(lia) Hrec) with (j := O); lia.
Qed.

(** ** Witnesses *)

(** A disk with a directory [bin], a file in it and a file beside it. *)
Definition tree : list tar_file :=
  [mkTarFile [98; 105; 110] Dir 0x1ed 0 0 5 (replicate 8 48) [];
   mkTarFile [98; 105; 110; 47; 115; 104] Reg 0x1ed 0 0 6 (replicate 8 48) (replicate 600 7);
   mkTarFile [114; 99] Reg 0x1a4 1000 1000 7 (replicate 8 48) [104; 105]].

Definition tree_fs : Tarfs := mkTarfs (scanned tree) (scanned_index tree).

Lemma tree_mounted : mount (read_disk (archive tree)) 8 = Some (Ok tree_fs).
Proof. vm_compute. reflexivity. Qed.

Lemma readdir_lists_children_witness :
  read_all (S (length (by_path tree_fs))) tree_fs 1 0 (replicate 300 0) = Some [([98; 105; 110], DT_DIR, 2); ([114; 99], DT_REG, 4)].
Proof.
  destruct (readdir_lists_children (read_disk (archive tree)) 8 ltac:(lia)) as (r & Hm & Hr).
  rewrite tree_mounted in Hm. injection Hm as <-. rewrite (Hr tree_fs 1 root_inode); [vm_compute; reflexivity | reflexivity | reflexivity | reflexivity |].
  rewrite length_replicate. unfold W64. lia.
Defined.
