(* ===== verification/FsRead.v ===== *)
(** * File reads

    Models the manager's side of [fs_read] and of a spawn from a path, in
    [kmain/src/kernel/mod.rs]: the walk of a request over cached pages, the
    completion of a page, the accounting of reads in progress, and the state machine
    that pulls a program through the page cache.

    The block driver is used through [BlockDriver]; the driver of [Blk.v] is an
    instance. Kernel aliases of memory are identified with the addresses they map,
    so a frame, a user page and a spawn's buffer are spans of one memory. Waking a
    thread is recorded as the pair of its id and its result; what it does to the
    thread is in [Manager.v]. Counters are [u32] in the code and bounded by the
    64 KiB limit on a request, so they are plain integers here. *)

From stdpp Require Import base list option numbers sets gmap.
From S2P Require Import Prelude Text ThingBuf Abi PageCache Virtqueue Blk Tar.
#[local] Open Scope Z_scope.

(** ** The driver, as its client sees it *)

Class BlockDriver (D : Type) := {
  drv_submit : Z -> Z -> Z -> Z -> D -> panics (result Z BlockError * D);
  drv_mem : D -> gmap Z Z;
  drv_set_mem : gmap Z Z -> D -> D;
}.

(** It never panics, whatever is done to the rest of memory. *)
Class BlockDriverSafe (D : Type) `{BlockDriver D} := {
  drv_ok : D -> Prop;
  submit_safe : forall lba dst len key d, drv_ok d -> exists r d', drv_submit lba dst len key d = Done (r, d') /\ drv_ok d';
  set_mem_safe : forall m d, drv_ok d -> drv_ok (drv_set_mem m d);
}.

#[export] Instance blk_driver {B} `{ThingBuf B} : BlockDriver (BlkDev (B := B)) := {
  drv_submit := submit_blk_read_cached;
  drv_mem := dv_mem;
  drv_set_mem := set_mem;
}.

Section blk_safe.
Context {B : Type -> Type} `{ThingBuf B}.

Definition blk_ok (d : BlkDev (B := B)) : Prop := exists f po wk dn, vok (mkVworld (reqq (dv_block d)) f po wk dn []).

Lemma blk_submit_safe lba dst len key (d : BlkDev (B := B)) :
  blk_ok d -> exists r d', submit_blk_read_cached lba dst len key d = Done (r, d') /\ blk_ok d'.
Proof.
  intros Hd. unfold submit_blk_read_cached. destruct (_ =? 0); [eauto |].
  set (alen := Z.min _ _ * SECTOR_SIZE). set (d1 := if _ <? _ then _ else d).
  assert (dv_block d1 = dv_block d) as Eb by (unfold d1; by destruct (_ <? _)).
  destruct (peek_next_head (dv_block d1)) as [hd |]; [| do 2 eexists; split; [done |]; unfold blk_ok; by rewrite Eb].
  destruct Hd as (f & po & wk & dn & Hv). cbn [dv_block set_in_flight]. rewrite Eb.
  destruct (submit_read_spec lba dst alen (dv_block d) f po wk dn Hv) as (r & b' & -> & Hr). cbn [pbind fst snd].
  destruct r as [hd' | e]; do 2 eexists; (split; [done |]).
  - destruct Hr as (_ & q' & -> & Hv'). unfold blk_ok. simpl. eauto.
  - unfold blk_ok. simpl. exists f, po, wk, dn. destruct Hr as [-> | (hd' & _ & ->)]; exact Hv.
Qed.

#[export] Instance blk_driver_safe : BlockDriverSafe (BlkDev (B := B)) := {
  drv_ok := blk_ok;
  submit_safe := blk_submit_safe;
  set_mem_safe m d Hd := Hd;
}.
End blk_safe.

(** ** State *)

Record OpenFile := mkOpenFile { of_fs : Tarfs; of_inode : Z; of_offset : Z; of_dir_cursor : Z; of_is_regular : bool }.

(** A region is named by its reference-counted record ([Regions.v]). *)
Inductive Handle := HNetChannel (arc : Z) | HFile (f : OpenFile) | HStdin | HStdout | HStderr | HEventFd (arc kernel_parked_tid : Z).

Record FsReadInProgress := mkProgress { bytes_pending : Z; bytes_done : Z; failed : bool }.

(** [ctx] is the context captured at dispatch; [blob] the address of the buffer. *)
Record SpawnInProgress := mkSpawn { sp_ctx : Z; sp_inode : Z; sp_blob : Z; sp_total_size : Z; sp_pages_done : Z; sp_total_pages : Z }.

Section fs_read.
Context {D : Type} `{BlockDriverSafe D}.

Record Fsk := mkFsk {
  page_cache : option PageCache;
  process_handles : gmap Z (gmap Z Handle);
  processes : gset Z;
  fs_reads_in_progress : gmap Z FsReadInProgress;
  spawns_in_progress : gmap Z SpawnInProgress;
  mounted : option Tarfs;
  k_dev : D;
  k_resumed : list (Z * Z);
}.

Definition eta_fsk (k : Fsk) : Fsk :=
  mkFsk (page_cache k) (process_handles k) (processes k) (fs_reads_in_progress k) (spawns_in_progress k) (mounted k) (k_dev k) (k_resumed k).
Definition set_cache : option PageCache -> Fsk -> Fsk := ltac:(set_field eta_fsk page_cache).
Definition set_fd_tables : gmap Z (gmap Z Handle) -> Fsk -> Fsk := ltac:(set_field eta_fsk process_handles).
Definition set_reads : gmap Z FsReadInProgress -> Fsk -> Fsk := ltac:(set_field eta_fsk fs_reads_in_progress).
Definition set_spawns : gmap Z SpawnInProgress -> Fsk -> Fsk := ltac:(set_field eta_fsk spawns_in_progress).
Definition set_kdev : D -> Fsk -> Fsk := ltac:(set_field eta_fsk k_dev).
Definition set_resumed : list (Z * Z) -> Fsk -> Fsk := ltac:(set_field eta_fsk k_resumed).

(** [resume_thread_with_value] and [publish_pending_for_tid]. *)
Definition resume (tid value : Z) (k : Fsk) : Fsk := set_resumed (k_resumed k ++ [(tid, value)]) k.

(** [dst.copy_from_slice(src)], the spans apart. *)
Definition copy (src dst : Z) (n : Z) (k : Fsk) : Fsk :=
  let m := drv_mem (k_dev k) in
  set_kdev (drv_set_mem (write_bytes dst (Z.to_nat n) (fun i => default 0 (m !! (src + Z.of_nat i))) m) (k_dev k)) k.

Definition get_file (pid fd : Z) (k : Fsk) : option OpenFile :=
  match process_handles k !! pid with
  | None => None
  | Some ph => match ph !! fd with Some (HFile f) => Some f | _ => None end
  end.

(** [of.offset = v] when the handle is still a file. *)
Definition set_offset (pid fd v : Z) (k : Fsk) : Fsk :=
  match process_handles k !! pid with
  | None => k
  | Some ph =>
      match ph !! fd with
      | Some (HFile f) =>
          set_fd_tables (<[pid := <[fd := HFile (mkOpenFile (of_fs f) (of_inode f) v (of_dir_cursor f) (of_is_regular f))]> ph]> (process_handles k)) k
      | _ => k
      end
  end.

(** ** The walk of a read *)

Record read_walk := mkWalk { w_done : Z; w_pending : Z; w_total : Z; w_failed : bool; w_k : Fsk }.

Definition fail (w : read_walk) : read_walk := mkWalk (w_done w) (w_pending w) (w_total w) true (w_k w).

(** A slice left to the completion of its page. *)
Definition defer (n : Z) (k : Fsk) (w : read_walk) : read_walk := mkWalk (w_done w) (w_pending w + n) (w_total w + n) (w_failed w) k.

Section request.
(** [virt_to_phys] in the caller's root table, for addresses of pages. *)
Context (translate : Z -> option Z) (tid pid buf_va : Z).

(** One slice of a cached page: the part of it that lies in one user page. [true]
    when the walk goes on. *)
Definition read_slice (lba dev valid_bytes waiter_intra user_page_pa user_page_off slice_len : Z) (w : read_walk) : panics (bool * read_walk) :=
  let key := mkCacheKey dev lba in
  let k := w_k w in
  let waiter := WUser tid pid waiter_intra user_page_pa user_page_off slice_len in
  match page_cache k with
  | None => Panic
  | Some cache =>
      match lookup_slot cache key with
      | Some (SReady frame valid) =>
          let copy_len := Z.min slice_len (Z.max 0 (valid - waiter_intra)) in
          if (0 <? copy_len) && (PAGE <? user_page_off + copy_len) then Panic
          else
            let k := if 0 <? copy_len then copy (frame + waiter_intra) (user_page_pa + user_page_off) copy_len k else k in
            let k := set_cache (Some (touch_lru key (record_hit cache))) k in
            let w := mkWalk (w_done w + copy_len) (w_pending w) (w_total w + copy_len) (w_failed w) k in
            Done (negb (copy_len <? slice_len), w)
      | Some (Loading _ _ _) =>
          let '(r, cache) := register_waiter key waiter cache in
          let k := set_cache (Some cache) k in
          match r with
          | Err _ => Done (false, fail (mkWalk (w_done w) (w_pending w) (w_total w) (w_failed w) k))
          | Ok _ => Done (true, defer slice_len k w)
          end
      | None =>
          b <-! begin_load key valid_bytes waiter cache ;;
          let k := set_cache (Some b.2) k in
          match b.1 with
          | Err _ => Done (false, fail (mkWalk (w_done w) (w_pending w) (w_total w) (w_failed w) k))
          | Ok dma_pa =>
              s <-! drv_submit lba dma_pa PAGE (pack key) (k_dev k) ;;
              let k := set_kdev s.2 k in
              match s.1 with
              | Ok _ => Done (true, defer slice_len k w)
              | Err _ =>
                  let k := set_cache (Some (complete_slot key 1 b.2).2) k in
                  Done (false, fail (mkWalk (w_done w) (w_pending w) (w_total w) (w_failed w) k))
              end
          end
      end
  end.

(** The inner loop, over the user pages a cached page's part spans. *)
Definition slice_body (lba dev valid_bytes cache_intra cache_slice_len : Z) (s : Z * read_walk) : (Z * read_walk) + panics (bool * read_walk) :=
  let '(cache_offset, w) := s in
  if cache_offset <? cache_slice_len then
    let user_dst_va := wadd buf_va (w_total w) in
    let user_page_va := Z.land user_dst_va (wnot (PAGE - 1)) in
    let user_page_off := wsub user_dst_va user_page_va in
    match translate user_page_va with
    | None => inr (Done (false, fail w))
    | Some user_page_pa =>
        let slice_len := Z.min (PAGE - user_page_off) (cache_slice_len - cache_offset) in
        match read_slice lba dev valid_bytes (cache_intra + cache_offset) user_page_pa user_page_off slice_len w with
        | Panic => inr Panic
        | Done (true, w) => inl (cache_offset + slice_len, w)
        | Done (false, w) => inr (Done (false, w))
        end
    end
  else inr (Done (true, w)).

(** The outer loop, over the pages of the file. *)
Definition page_body (fs : Tarfs) (inode file_size end_off : Z) (s : Z * read_walk) : (Z * read_walk) + panics read_walk :=
  let '(cur_off, w) := s in
  if cur_off <? end_off then
    let target_page := cur_off / PAGE in
    let cache_intra := Z.land cur_off (PAGE - 1) in
    let cache_slice_len := Z.min (end_off - cur_off) (PAGE - cache_intra) in
    match lba_for_page fs inode target_page with
    | Err _ => inr (Done (fail w))
    | Ok lba =>
        let valid_bytes := Z.min PAGE (file_size - target_page * PAGE) in
        match while64 (slice_body lba (dev_id fs) valid_bytes cache_intra cache_slice_len) (0, w) with
        | None | Some Panic => inr Panic
        | Some (Done (true, w)) => inl (cur_off + cache_slice_len, w)
        | Some (Done (false, w)) => inr (Done w)
        end
    end
  else inr (Done w).

Definition run_fs_read_req (fd len : Z) (k : Fsk) : panics Fsk :=
  match get_file pid fd k with
  | None => Done (resume tid (to_ret errno.EBADF) k)
  | Some f =>
      if negb (of_is_regular f) then Done (resume tid (to_ret errno.EISDIR) k)
      else
        match page_cache k with
        | None => Done (resume tid (to_ret errno.EAGAIN) k)
        | Some _ =>
            match Tar.file_size (of_fs f) (of_inode f) with
            | Err _ => Done (resume tid (to_ret errno.EIO) k)
            | Ok size =>
                let prev_off := of_offset f in
                if size <=? prev_off then Done (resume tid 0 k)
                else
                  let cap := Z.min len (size - prev_off) in
                  match while64 (page_body (of_fs f) (of_inode f) size (prev_off + cap)) (prev_off, mkWalk 0 0 0 false k) with
                  | None | Some Panic => Panic
                  | Some (Done w) =>
                      if w_pending w =? 0 then
                        let k := set_offset pid fd (prev_off + w_done w) (w_k w) in
                        Done (resume tid (if w_failed w && (w_done w =? 0) then to_ret errno.EIO else w_done w) k)
                      else
                        let k := set_offset pid fd (prev_off + w_total w) (w_k w) in
                        Done (set_reads (<[tid := mkProgress (w_pending w) (w_done w) (w_failed w)]> (fs_reads_in_progress k)) k)
                  end
            end
        end
  end.
End request.

(** ** A spawn from a path *)

Section spawn.
(** [install_spawn] on the context, the program's bytes and the processes alive:
    the value for the caller, and the processes after it. *)
Context (install_spawn : Z -> list Z -> gset Z -> Z * gset Z).

Definition read_bytes (a n : Z) (k : Fsk) : list Z :=
  (fun i => default 0 (drv_mem (k_dev k) !! (a + Z.of_nat i))) <$> seq 0 (Z.to_nat n).

Definition drop_spawn (tid : Z) (k : Fsk) : Fsk := set_spawns (delete tid (spawns_in_progress k)) k.

Definition bump_spawn (tid : Z) (sp : SpawnInProgress) (k : Fsk) : Fsk :=
  set_spawns (<[tid := mkSpawn (sp_ctx sp) (sp_inode sp) (sp_blob sp) (sp_total_size sp) (sp_pages_done sp + 1) (sp_total_pages sp)]> (spawns_in_progress k)) k.

(** One turn of the loop of [issue_next_spawn_page]. *)
Definition spawn_body (tid : Z) (k : Fsk) : Fsk + panics Fsk :=
  match spawns_in_progress k !! tid with
  | None => inr (Done k)
  | Some sp =>
      if sp_total_pages sp <=? sp_pages_done sp then
        let '(result, ps) := install_spawn (sp_ctx sp) (read_bytes (sp_blob sp) (sp_total_size sp) k) (processes k) in
        let k := drop_spawn tid k in
        let k := mkFsk (page_cache k) (process_handles k) ps (fs_reads_in_progress k) (spawns_in_progress k) (mounted k) (k_dev k) (k_resumed k) in
        inr (Done (resume tid result k))
      else
        let page_idx := sp_pages_done sp in
        let page_off := page_idx * PAGE in
        let take := Z.min PAGE (sp_total_size sp - page_off) in
        let dst := sp_blob sp + page_off in
        match mounted k with
        | None => inr (Done (resume tid (to_ret errno.EIO) (drop_spawn tid k)))
        | Some fs =>
            match lba_for_page fs (sp_inode sp) page_idx with
            | Err _ => inr (Done (resume tid (to_ret errno.EIO) (drop_spawn tid k)))
            | Ok lba =>
                let key := mkCacheKey (dev_id fs) lba in
                let waiter := WKernel tid 0 dst take in
                match page_cache k with
                | None => inr Panic
                | Some cache =>
                    match lookup_slot cache key with
                    | Some (SReady frame _) =>
                        let k := copy frame dst take k in
                        let k := set_cache (Some (touch_lru key (record_hit cache))) k in
                        inl (bump_spawn tid sp k)
                    | Some (Loading _ _ _) =>
                        let '(r, cache) := register_waiter key waiter cache in
                        let k := set_cache (Some cache) k in
                        match r with
                        | Err _ => inr (Done (resume tid (to_ret errno.EIO) (drop_spawn tid k)))
                        | Ok _ => inr (Done k)
                        end
                    | None =>
                        inr (b <-! begin_load key take waiter cache ;;
                             let k := set_cache (Some b.2) k in
                             match b.1 with
                             | Err _ => Done (resume tid (to_ret errno.EAGAIN) (drop_spawn tid k))
                             | Ok dma_pa =>
                                 s <-! drv_submit lba dma_pa PAGE (pack key) (k_dev k) ;;
                                 let k := set_kdev s.2 k in
                                 match s.1 with
                                 | Ok _ => Done k
                                 | Err _ =>
                                     let k := set_cache (Some (complete_slot key 1 b.2).2) k in
                                     Done (resume tid (to_ret errno.EIO) (drop_spawn tid k))
                                 end
                             end)
                    end
                end
            end
        end
  end.

Definition issue_next_spawn_page (tid : Z) (k : Fsk) : panics Fsk :=
  match while64 (spawn_body tid) k with Some r => r | None => Panic end.

Definition advance_spawn (tid status : Z) (k : Fsk) : panics Fsk :=
  if negb (status =? 0) then
    match spawns_in_progress k !! tid with
    | None => Done k
    | Some _ => Done (resume tid (to_ret errno.EIO) (drop_spawn tid k))
    end
  else
    match spawns_in_progress k !! tid with
    | None => Done k
    | Some sp => issue_next_spawn_page tid (bump_spawn tid sp k)
    end.

(** ** The completion of a page *)

Definition complete_fs_read_waiter (tid status len : Z) (k : Fsk) : Fsk :=
  match fs_reads_in_progress k !! tid with
  | None => k
  | Some prog =>
      let pending := Z.max 0 (bytes_pending prog - len) in
      let done := if (status =? 0) && negb (failed prog) then bytes_done prog + len else bytes_done prog in
      let fl := if status =? 0 then failed prog else true in
      if pending =? 0 then
        let k := set_reads (delete tid (fs_reads_in_progress k)) k in
        resume tid (if fl then to_ret errno.EIO else done) k
      else set_reads (<[tid := mkProgress pending done fl]> (fs_reads_in_progress k)) k
  end.

(** One turn of the loop over the waiters; [src] is the page's frame. *)
Definition fill_waiter (status src : Z) (w : Waiter) (k : Fsk) : panics Fsk :=
  match w with
  | WUser tid pid intra user_page_pa user_page_off len =>
      if (status =? 0) && bool_decide (pid ∈ processes k) then
        if PAGE <? user_page_off + len then Panic
        else Done (complete_fs_read_waiter tid status len (copy (src + intra) (user_page_pa + user_page_off) len k))
      else Done (complete_fs_read_waiter tid status len k)
  | WKernel tid intra dst_kva len =>
      let k := if status =? 0 then copy (src + intra) dst_kva len k else k in
      match spawns_in_progress k !! tid with
      | Some _ => advance_spawn tid status k
      | None => Done (resume tid (if status =? 0 then len else to_ret errno.EIO) k)
      end
  end.

Definition run_cache_fill (packed_key status : Z) (k : Fsk) : panics Fsk :=
  match unpack packed_key with
  | None => Done k
  | Some key =>
      match page_cache k with
      | None => Done k
      | Some cache =>
          match lookup_slot cache key with
          | None => Done k
          | Some s =>
              let '(waiters, cache) := complete_slot key status cache in
              pfold (fill_waiter status (slot_frame s)) waiters (set_cache (Some cache) k)
          end
      end
  end.

(** ** What is owed to whom *)

(** Bytes a list of waiters holds_debts to a reading thread, and pages to a spawning one. *)
Definition user_owed (t : Z) (ws : list Waiter) : Z :=
  foldr (fun w n => match w with WUser tid _ _ _ _ len => if decide (tid = t) then len + n else n | _ => n end) 0 ws.

Definition kernel_owed (t : Z) (ws : list Waiter) : Z :=
  foldr (fun w n => match w with WKernel tid _ _ _ => if decide (tid = t) then 1 + n else n | _ => n end) 0 ws.

Definition waiter_ok (w : Waiter) : Prop :=
  match w with WUser _ _ _ _ off len => 0 < len /\ off + len <= PAGE | WKernel _ _ _ _ => True end.

#[export] Instance user_owed_perm t : Proper ((≡ₚ) ==> (=)) (user_owed t).
Proof. intros l1 l2 Hp. induction Hp as [| x | x y | ]; simpl; [done | by rewrite IHHp | destruct x, y; repeat case_decide; lia | congruence]. Qed.

#[export] Instance kernel_owed_perm t : Proper ((≡ₚ) ==> (=)) (kernel_owed t).
Proof. intros l1 l2 Hp. induction Hp as [| x | x y | ]; simpl; [done | by rewrite IHHp | destruct x, y; repeat case_decide; lia | congruence]. Qed.

Lemma user_owed_app t l1 l2 : user_owed t (l1 ++ l2) = user_owed t l1 + user_owed t l2.
Proof. induction l1 as [| w l1 IH]; [done |]. simpl. rewrite IH. destruct w; try case_decide; lia. Qed.

Lemma kernel_owed_app t l1 l2 : kernel_owed t (l1 ++ l2) = kernel_owed t l1 + kernel_owed t l2.
Proof. induction l1 as [| w l1 IH]; [done |]. simpl. rewrite IH. destruct w; try case_decide; lia. Qed.

Lemma user_owed_nonneg t ws : Forall waiter_ok ws -> 0 <= user_owed t ws.
Proof. induction 1 as [| w ws Hw _ IH]; simpl; [done |]. destruct w; [case_decide; [destruct Hw |]; lia | done]. Qed.

(** The cache, with the waiters it holds. *)
Definition cache_good (F : list Z) (c : PageCache) : Prop := cache_ok F (mkRun c (waiting (entries c)) []).

Lemma cache_good_of F c l1 l2 : cache_ok F (mkRun c l1 l2) -> cache_good F c.
Proof. by intros []. Qed.

Lemma good_begin F c key v w :
  cache_good F c -> exists x c', begin_load key v w c = Done (x, c') /\ cache_good F c' /\ waiting (entries c') ≡ₚ waiting (entries c) ++ took x w /\
    (forall f, x = Ok f -> entries c' !! key = Some (Loading f v [w])).
Proof.
  intros Hc. destruct (begin_ok F _ key v w Hc) as (x & c' & E & Hok). simpl in *. exists x, c'. split_and!; [done | by eapply cache_good_of | |].
  - destruct Hok as [_ _ _ Hw]. simpl in Hw. by rewrite Hw.
  - intros f ->. unfold begin_load in E. case_bool_decide; [done |]. destruct (acquire_frame c) as [[[g | e] c1] |]; simplify_eq/=. apply lookup_insert_eq.
Qed.

Lemma good_register F c key w o c' :
  cache_good F c -> register_waiter key w c = (o, c') -> cache_good F c' /\ waiting (entries c') ≡ₚ waiting (entries c) ++ took o w.
Proof.
  intros Hc E. pose proof (register_ok F _ key w o c' Hc E) as Hok. split; [by eapply cache_good_of |].
  destruct Hok as [_ _ _ Hw]. simpl in Hw. by rewrite Hw.
Qed.

Lemma good_complete F c key st ws c' :
  cache_good F c -> complete_slot key st c = (ws, c') -> cache_good F c' /\ waiting (entries c) ≡ₚ ws ++ waiting (entries c').
Proof.
  intros Hc E. pose proof (complete_ok F _ key st ws c' Hc E) as Hok. split; [by eapply cache_good_of |].
  destruct Hok as [_ _ _ Hw]. simpl in Hw. done.
Qed.

Lemma good_touch F c key : cache_good F c -> cache_good F (touch_lru key (record_hit c)) /\ waiting (entries (touch_lru key (record_hit c))) = waiting (entries c).
Proof.
  intros Hc. destruct (cache_step_ok F CHit _ Hc) as (r1 & [= <-] & H1). destruct (cache_step_ok F (CTouch key) _ H1) as (r2 & [= <-] & H2). simpl in *.
  split; [by eapply cache_good_of |]. destruct Hc as [Hnd Hlru _ _]. simpl in *.
  by rewrite (proj1 (proj2 (touch_lru_perm key (record_hit c) Hnd (Hlru key)))).
Qed.

(** A load taken back at once. *)
Lemma good_abandon F c key v w f c1 :
  cache_good F c -> begin_load key v w c = Done (Ok f, c1) -> cache_good F (complete_slot key 1 c1).2 /\ waiting (entries (complete_slot key 1 c1).2) ≡ₚ waiting (entries c).
Proof.
  intros Hc E. destruct (good_begin F c key v w Hc) as (x & c' & E' & H1 & H2 & H3). rewrite E in E'. injection E' as <- <-.
  specialize (H3 f eq_refl). destruct (complete_slot key 1 c1) as [ws c2] eqn:Ec. destruct (good_complete F c1 key 1 ws c2 H1 Ec) as [H4 H5].
  split; [done |]. simpl. unfold complete_slot in Ec. rewrite H3 in Ec. simpl in Ec. injection Ec as <- _.
  rewrite H2 in H5. simpl in H5. rewrite <- Permutation_cons_append in H5. by apply Permutation_cons_inv in H5.
Qed.

(** The books of the manager: what the waiters [W] owe is what is on record, [up]
    bytes to each reader and [kp] pages to each spawner. *)
Record holds_debts (W : list Waiter) (up kp : Z -> Z) : Prop := {
  ow_user : forall t, user_owed t W = up t;
  ow_kernel : forall t, kernel_owed t W = kp t;
  ow_fit : Forall waiter_ok W;
}.

Lemma owes_perm W W' up kp : W ≡ₚ W' -> holds_debts W up kp -> holds_debts W' up kp.
Proof. intros Hp [H1 H2 H3]. split; [intros t; by rewrite <- Hp | intros t; by rewrite <- Hp | by rewrite <- Hp]. Qed.

Definition pend_of (m : gmap Z FsReadInProgress) (t : Z) : Z := match m !! t with Some p => bytes_pending p | None => 0 end.
Definition spawn_of (m : gmap Z SpawnInProgress) (t : Z) : Z := match m !! t with Some _ => 1 | None => 0 end.

(** Adding to one thread's account. *)
Definition plus (f : Z -> Z) (t n : Z) : Z -> Z := fun x => if decide (x = t) then f x + n else f x.

Lemma owes_user W up kp tid pid intra pa off len :
  holds_debts W up kp -> 0 < len -> off + len <= PAGE -> holds_debts (W ++ [WUser tid pid intra pa off len]) (plus up tid len) kp.
Proof.
  intros [H1 H2 H3] Hl Ho. split.
  - intros t. rewrite user_owed_app, H1. unfold plus. simpl. destruct (decide (tid = t)), (decide (t = tid)); congruence || lia.
  - intros t. rewrite kernel_owed_app, H2. simpl. lia.
  - apply Forall_app. split; [done |]. by repeat constructor.
Qed.

Lemma owes_kernel W up kp tid intra dst len : holds_debts W up kp -> holds_debts (W ++ [WKernel tid intra dst len]) up (plus kp tid 1).
Proof.
  intros [H1 H2 H3]. split.
  - intros t. rewrite user_owed_app, H1. simpl. lia.
  - intros t. rewrite kernel_owed_app, H2. unfold plus. simpl. destruct (decide (tid = t)), (decide (t = tid)); congruence || lia.
  - apply Forall_app. split; [done |]. by repeat constructor.
Qed.

Lemma owes_ext W up kp up' kp' : holds_debts W up kp -> (forall t, up t = up' t) -> (forall t, kp t = kp' t) -> holds_debts W up' kp'.
Proof. intros [H1 H2 H3] Hu Hk. split; [intros t; by rewrite H1 | intros t; by rewrite H2 | done]. Qed.

(** A sound cache and driver whose waiters, with those in hand, owe what is on record. *)
Record kgood (F : list Z) (W : list Waiter) (up kp : Z -> Z) (k : Fsk) : Prop := {
  kg_cache : exists c, page_cache k = Some c /\ cache_good F c /\ holds_debts (W ++ waiting (entries c)) up kp;
  kg_dev : drv_ok (k_dev k);
}.

(** The registers of the manager that a walk over the cache leaves alone. *)
Definition same_books (k k' : Fsk) : Prop :=
  process_handles k' = process_handles k /\ fs_reads_in_progress k' = fs_reads_in_progress k /\
  spawns_in_progress k' = spawns_in_progress k /\ k_resumed k' = k_resumed k.

Lemma kgood_ext F W up kp up' kp' k : kgood F W up kp k -> (forall t, up t = up' t) -> (forall t, kp t = kp' t) -> kgood F W up' kp' k.
Proof. intros [(c & H1 & H2 & H3) H4] Hu Hk. split; [| done]. exists c. split_and!; [done | done | by eapply owes_ext]. Qed.

Lemma kgood_copy F W up kp src dst n k : kgood F W up kp k -> kgood F W up kp (copy src dst n k).
Proof. intros [(c & H1 & H2 & H3) H4]. split; [by exists c |]. by apply set_mem_safe. Qed.

(** Another cache holding the same waiters, or more. *)
Lemma kgood_cache F W up kp k c c' up' kp' :
  kgood F W up kp k -> page_cache k = Some c -> cache_good F c' ->
  (holds_debts (W ++ waiting (entries c)) up kp -> holds_debts (W ++ waiting (entries c')) up' kp') -> kgood F W up' kp' (set_cache (Some c') k).
Proof.
  intros [(c0 & H1 & H2 & H3) H4] Hc Hg Ho. rewrite Hc in H1. injection H1 as <-. split; [| done]. exists c'. split_and!; [done | done | by apply Ho].
Qed.

Lemma kgood_dev F W up kp k d : kgood F W up kp k -> drv_ok d -> kgood F W up kp (set_kdev d k).
Proof. intros [H1 _] Hd. by split. Qed.

Section walk_ok.
Context (F : list Z) (W : list Waiter) (up kp : Z -> Z) (k0 : Fsk) (translate : Z -> option Z) (tid pid buf_va : Z).

Definition walk_ok (w : read_walk) : Prop :=
  kgood F W (plus up tid (w_pending w)) kp (w_k w) /\ same_books k0 (w_k w) /\ (0 <= w_pending w /\ 0 <= w_done w /\ 0 <= w_total w).

Lemma walk_ok_fail w : walk_ok w -> walk_ok (fail w).
Proof. done. Qed.

Lemma plus_plus n m t : plus (plus up tid n) tid m t = plus up tid (n + m) t.
Proof. unfold plus. destruct (decide (t = tid)); lia. Qed.

(** Registering a waiter for the slice. *)
Lemma walk_ok_defer w k n c c' intra pa off :
  walk_ok w -> page_cache (w_k w) = Some c -> cache_good F c' -> waiting (entries c') ≡ₚ waiting (entries c) ++ [WUser tid pid intra pa off n] ->
  0 < n -> off + n <= PAGE -> same_books (w_k w) k -> page_cache k = Some c' -> drv_ok (k_dev k) -> walk_ok (defer n k w).
Proof.
  intros (Hg & Hs & Hp) Hc Hg' Hw Hn Ho Hk Hc' Hd. unfold walk_ok. cbn [defer w_pending w_done w_total w_k]. split; [| split; [| lia]].
  - apply (kgood_ext F W (plus (plus up tid (w_pending w)) tid n) kp); [| apply plus_plus | done].
    split; [| done]. exists c'. split_and!; [done | done |]. eapply owes_perm; [| apply (owes_user (W ++ waiting (entries c)) _ kp tid pid intra pa off n); try done].
    + rewrite Hw. by rewrite app_assoc.
    + destruct Hg as [(c0 & H1 & _ & H3) _]. rewrite Hc in H1. by injection H1 as <-.
  - unfold same_books in *. destruct Hs as (? & ? & ? & ?), Hk as (? & ? & ? & ?). split_and!; congruence.
Qed.

Lemma read_slice_ok lba dev valid intra pa off n w :
  walk_ok w -> 0 < n -> off + n <= PAGE ->
  exists b w', read_slice tid pid lba dev valid intra pa off n w = Done (b, w') /\ walk_ok w'.
Proof.
  intros Hok Hn Ho. pose proof Hok as ([(c & Hc & Hg & Hown) Hd] & Hs & Hp). unfold read_slice. rewrite Hc.
  set (key := mkCacheKey dev lba). destruct (lookup_slot c key) as [[f v ws | f v] |] eqn:El.
  - destruct (register_waiter key _ c) as [o c'] eqn:Er. destruct (good_register F c key _ o c' Hg Er) as [Hg' Hw].
    unfold register_waiter in Er. unfold lookup_slot in El. rewrite El in Er. injection Er as <- <-. do 2 eexists. split; [done |].
    by eapply (walk_ok_defer w _ n c).
  - set (cl := Z.min n _). destruct (Z.ltb_spec PAGE (off + cl)) as [Hx | _]; [unfold cl in Hx; lia |]. rewrite andb_false_r.
    destruct (good_touch F c key Hg) as [Hg' Hw]. do 2 eexists. split; [done |]. unfold walk_ok. cbn [w_pending w_done w_total w_k].
    split; [| split; [by destruct (0 <? cl) | unfold cl; lia]]. eapply (kgood_cache F W _ _ _ c).
    + destruct (0 <? cl); [apply kgood_copy |]; by destruct Hok.
    + by destruct (0 <? cl).
    + exact Hg'.
    + by rewrite Hw.
  - destruct (good_begin F c key valid (WUser tid pid intra pa off n) Hg) as (x & c1 & Eb & Hg1 & Hw1 & _). rewrite Eb. cbn [pbind fst snd].
    destruct x as [f | e].
    + destruct (submit_safe lba f PAGE (pack key) (k_dev (w_k w)) Hd) as (r & d' & Es & Hd').
      cbn [k_dev set_cache]. rewrite Es. cbn [pbind fst snd]. destruct r as [hd | e]; do 2 eexists; (split; [done |]).
      * by eapply (walk_ok_defer w _ n c c1).
      * destruct (good_abandon F c key valid _ f c1 Hg Eb) as [Hg2 Hw2]. split; [| done]. cbn [fail w_pending w_k].
        split; [| exact Hd']. eexists. split_and!; [done | exact Hg2 |]. eapply owes_perm; [| exact Hown]. by rewrite Hw2.
    + do 2 eexists. split; [done |]. split; [| done]. cbn [fail w_pending w_k]. split; [| exact Hd]. eexists. split_and!; [done | exact Hg1 |].
      eapply owes_perm; [| exact Hown]. rewrite Hw1. simpl. by rewrite app_nil_r.
Qed.

Lemma page_off_range va : is_u64 va -> 0 <= wsub va (Z.land va (wnot (PAGE - 1))) < PAGE.
Proof.
  intros Hv. change (PAGE - 1) with (2 ^ 12 - 1). rewrite land_round_down by (done || lia). unfold is_u64, PAGE, W64 in *.
  pose proof (Z.mod_pos_bound va (2 ^ 12) ltac:(lia)). pose proof (Z.mod_le va (2 ^ 12) ltac:(lia) ltac:(lia)). rewrite wsub_small; unfold W64; lia.
Qed.

Lemma slices_ok lba dev valid intra n w :
  walk_ok w -> 0 <= n <= PAGE ->
  exists b w', while64 (slice_body translate tid pid buf_va lba dev valid intra n) (0, w) = Some (Done (b, w')) /\ walk_ok w'.
Proof.
  intros Hok Hn.
  destruct (while64_total (slice_body translate tid pid buf_va lba dev valid intra n) (fun s => 0 <= s.1 /\ walk_ok s.2) (fun s => Z.max 0 (n - s.1))
    (fun r => exists b w', r = Done (b, w') /\ walk_ok w') (0, w)) as (r & E & b & w' & -> & Hw'); [| done | unfold PAGE, W64 in *; simpl; lia | eauto].
  intros [co w1] [Hco Hw1]. simpl in *. destruct (Z.ltb_spec co n) as [Hlt |]; [| eauto].
  destruct (translate _) as [pa |]; [| do 2 eexists; split; [done | by apply walk_ok_fail]].
  pose proof (page_off_range (wadd buf_va (w_total w1)) (u64_range _)) as Hoff. set (off := wsub _ _) in *.
  destruct (read_slice_ok lba dev valid (intra + co) pa off (Z.min (PAGE - off) (n - co)) w1 Hw1) as (b & w2 & -> & Hw2); [lia | lia |].
  destruct b; [| eauto]. cbn [fst snd]. split; [split; [lia | done] | lia].
Qed.

Lemma pages_ok fs inode size prev end_ w :
  walk_ok w -> 0 <= prev -> end_ <= prev + 2 ^ 32 ->
  exists w', while64 (page_body translate tid pid buf_va fs inode size end_) (prev, w) = Some (Done w') /\ walk_ok w'.
Proof.
  intros Hok Hp He.
  destruct (while64_total (page_body translate tid pid buf_va fs inode size end_) (fun s => prev <= s.1 /\ walk_ok s.2) (fun s => Z.max 0 (end_ - s.1))
    (fun r => exists w', r = Done w' /\ walk_ok w') (prev, w)) as (r & E & w' & -> & Hw'); [| done | unfold W64 in *; simpl; lia | eauto].
  intros [co w1] [Hco Hw1]. unfold page_body. cbn [fst snd] in *. destruct (Z.ltb_spec co end_) as [Hlt |]; [| eauto].
  destruct (lba_for_page _ _ _) as [lba | e]; [| eexists; split; [done | by apply walk_ok_fail]].
  change (PAGE - 1) with (2 ^ 12 - 1). rewrite land_mod by lia. pose proof (Z.mod_pos_bound co (2 ^ 12) ltac:(lia)) as Hm.
  set (n := Z.min (end_ - co) _). assert (0 < n <= PAGE) as Hn by (unfold n, PAGE in *; lia).
  destruct (slices_ok lba (dev_id fs) (Z.min PAGE (size - co / PAGE * PAGE)) (co mod 2 ^ 12) n w1 Hw1) as (b & w2 & -> & Hw2); [lia |].
  destruct b; [| eauto]. cbn [fst snd]. split; [split; [lia | done] | lia].
Qed.
End walk_ok.

(** ** The manager's invariant *)

Definition offsets_ok (k : Fsk) : Prop :=
  forall pid ph fd f, process_handles k !! pid = Some ph -> ph !! fd = Some (HFile f) -> 0 <= of_offset f.

(** [W] are the waiters of a page being completed, [asked] the threads that asked
    for a read or a spawn. *)
Record fsk_ok (F : list Z) (W : list Waiter) (asked : list Z) (k : Fsk) : Prop := {
  fk_good : kgood F W (pend_of (fs_reads_in_progress k)) (spawn_of (spawns_in_progress k)) k;
  fk_pos : forall t p, fs_reads_in_progress k !! t = Some p -> 0 < bytes_pending p;
  fk_log : asked ≡ₚ (k_resumed k).*1 ++ (map_to_list (fs_reads_in_progress k)).*1 ++ (map_to_list (spawns_in_progress k)).*1;
  fk_spawns : forall t sp, spawns_in_progress k !! t = Some sp -> 0 <= sp_pages_done sp /\ sp_total_pages sp < W64;
  fk_offsets : offsets_ok k;
}.

Lemma kgood_books F W up kp k k' : kgood F W up kp k -> page_cache k' = page_cache k -> k_dev k' = k_dev k -> kgood F W up kp k'.
Proof. intros [H1 H2] Hc Hd. split; [by rewrite Hc | by rewrite Hd]. Qed.

(** A thread that asked for nothing pending is answered. *)
Lemma resume_ok F W asked tid v k : fsk_ok F W asked k -> fsk_ok F W (asked ++ [tid]) (resume tid v k).
Proof.
  intros [H1 H2 H3 H4 H5]. split; try done; [by eapply kgood_books |]. unfold resume. cbn [set_resumed k_resumed fs_reads_in_progress spawns_in_progress].
  rewrite fmap_app, H3. cbn [fmap list_fmap fst]. by solve_Permutation.
Qed.

Lemma set_offset_books pid fd v k :
  page_cache (set_offset pid fd v k) = page_cache k /\ k_dev (set_offset pid fd v k) = k_dev k /\
  fs_reads_in_progress (set_offset pid fd v k) = fs_reads_in_progress k /\ spawns_in_progress (set_offset pid fd v k) = spawns_in_progress k /\
  k_resumed (set_offset pid fd v k) = k_resumed k.
Proof. unfold set_offset. destruct (process_handles k !! pid) as [ph |]; [| done]. by destruct (ph !! fd) as [[] |]. Qed.

Lemma set_offset_ok pid fd v k : offsets_ok k -> 0 <= v -> offsets_ok (set_offset pid fd v k).
Proof.
  intros Ho Hv. unfold set_offset. destruct (process_handles k !! pid) as [ph |] eqn:Ep; [| done]. destruct (ph !! fd) as [[| f | | | |] |] eqn:Ef; try done.
  intros p ph' fd' f'. simpl. rewrite lookup_insert_Some. intros [[<- <-] | [_ E]]; [| by eapply Ho].
  rewrite lookup_insert_Some. intros [[<- [= <-]] | [_ E]]; [done | by eapply Ho].
Qed.

Lemma fsk_ok_offset F W asked pid fd v k : fsk_ok F W asked k -> 0 <= v -> fsk_ok F W asked (set_offset pid fd v k).
Proof.
  intros [H1 H2 H3 H4 H5] Hv. destruct (set_offset_books pid fd v k) as (E1 & E2 & E3 & E4 & E5).
  split; rewrite ?E3, ?E4, ?E5; try done; [by eapply kgood_books | by apply set_offset_ok].
Qed.

Lemma pend_insert m t p x : pend_of (<[t := p]> m) x = if decide (x = t) then bytes_pending p else pend_of m x.
Proof. unfold pend_of. destruct (decide (x = t)) as [-> | Hne]; [by rewrite lookup_insert_eq | by rewrite lookup_insert_ne]. Qed.

Lemma pend_delete m t x : pend_of (delete t m) x = if decide (x = t) then 0 else pend_of m x.
Proof. unfold pend_of. destruct (decide (x = t)) as [-> | Hne]; [by rewrite lookup_delete_eq | by rewrite lookup_delete_ne]. Qed.

Lemma spawn_insert m t p x : spawn_of (<[t := p]> m) x = if decide (x = t) then 1 else spawn_of m x.
Proof. unfold spawn_of. destruct (decide (x = t)) as [-> | Hne]; [by rewrite lookup_insert_eq | by rewrite lookup_insert_ne]. Qed.

Lemma spawn_delete m t x : spawn_of (delete t m) x = if decide (x = t) then 0 else spawn_of m x.
Proof. unfold spawn_of. destruct (decide (x = t)) as [-> | Hne]; [by rewrite lookup_delete_eq | by rewrite lookup_delete_ne]. Qed.

Lemma read_req_ok F asked translate tid pid buf_va fd len k :
  fsk_ok F [] asked k -> fs_reads_in_progress k !! tid = None -> 0 <= len <= 2 ^ 32 ->
  exists k', run_fs_read_req translate tid pid buf_va fd len k = Done k' /\ fsk_ok F [] (asked ++ [tid]) k'.
Proof.
  intros Hok Hidle Hlen. pose proof (fk_good _ _ _ _ Hok) as Hg. unfold run_fs_read_req, get_file.
  assert (forall v, exists k', Done (resume tid v k) = Done k' /\ fsk_ok F [] (asked ++ [tid]) k') as Hr by (intros v; eexists; split; [done | by apply resume_ok]).
  destruct (process_handles k !! pid) as [ph |] eqn:Ep; [| apply Hr]. destruct (ph !! fd) as [[| f | | | |] |] eqn:Ef; try apply Hr.
  pose proof (fk_offsets _ _ _ _ Hok _ _ _ _ Ep Ef) as Hoff.
  destruct (negb _); [apply Hr |]. destruct (page_cache k); [| apply Hr]. destruct (Tar.file_size _ _) as [size | e]; [| apply Hr].
  destruct (Z.leb_spec size (of_offset f)); [apply Hr |].
  assert (walk_ok F [] (pend_of (fs_reads_in_progress k)) (spawn_of (spawns_in_progress k)) k tid (mkWalk 0 0 0 false k)) as Hw0.
  { split; [| done]. eapply kgood_ext; [exact Hg | | done]. intros t. unfold plus. simpl. destruct (decide (t = tid)); lia. }
  destruct (pages_ok F [] _ _ k translate tid pid buf_va (of_fs f) (of_inode f) size (of_offset f) (of_offset f + Z.min len (size - of_offset f)) _ Hw0) as (w & -> & Hg' & (B1 & B2 & B3 & B4) & Hp & Hd & Ht); [done | lia |].
  assert (offsets_ok (w_k w)) as Ho by (unfold offsets_ok; rewrite B1; apply (fk_offsets _ _ _ _ Hok)).
  destruct Hok as [_ H2 H3 H4 _]. destruct (Z.eqb_spec (w_pending w) 0) as [E0 | Hne]; eexists; (split; [done |]).
  - apply resume_ok, fsk_ok_offset; [| lia]. split; rewrite ?B2, ?B3, ?B4; try done. eapply kgood_ext; [exact Hg' | | done].
    intros t. unfold plus. destruct (decide (t = tid)); lia.
  - match goal with |- fsk_ok _ _ _ (set_reads _ ?k1) => set (k' := k1) end.
    destruct (set_offset_books pid fd (of_offset f + w_total w) (w_k w)) as (E1 & E2 & E3 & E4 & E5).
    split; cbn [set_reads fs_reads_in_progress spawns_in_progress k_resumed].
    + eapply (kgood_books _ _ _ _ (w_k w)); [| done | done]. unfold k'. rewrite E3, E4, B2, B3. eapply kgood_ext; [exact Hg' | | done].
      intros t. rewrite pend_insert. unfold plus, pend_of. simpl. destruct (decide (t = tid)) as [-> |]; [by rewrite Hidle | done].
    + intros t pr. unfold k'. rewrite E3, B2, lookup_insert_Some. intros [[<- <-] | [_ E]]; [simpl; lia | by eapply H2].
    + unfold k'. rewrite E3, E4, E5, B2, B3, B4. rewrite map_to_list_insert by done. simpl. rewrite H3. by solve_Permutation.
    + unfold k'. rewrite E4, B3. done.
    + apply (set_offset_ok pid fd); [done | lia].
Qed.

(** A spawn being driven: on record, with no waiter of its own. *)
Record spawning (F : list Z) (W : list Waiter) (asked : list Z) (tid : Z) (sp : SpawnInProgress) (k : Fsk) : Prop := {
  sg_good : kgood F W (pend_of (fs_reads_in_progress k)) (plus (spawn_of (spawns_in_progress k)) tid (-1)) k;
  sg_pos : forall t p, fs_reads_in_progress k !! t = Some p -> 0 < bytes_pending p;
  sg_log : asked ≡ₚ (k_resumed k).*1 ++ (map_to_list (fs_reads_in_progress k)).*1 ++ (map_to_list (spawns_in_progress k)).*1;
  sg_spawns : forall t sp, spawns_in_progress k !! t = Some sp -> 0 <= sp_pages_done sp /\ sp_total_pages sp < W64;
  sg_offsets : offsets_ok k;
  sg_on : spawns_in_progress k !! tid = Some sp;
}.

(** The end of a spawn, whatever its result. *)
Lemma spawn_ends F W asked tid sp v k k' :
  spawning F W asked tid sp k -> kgood F W (pend_of (fs_reads_in_progress k)) (plus (spawn_of (spawns_in_progress k)) tid (-1)) k' -> same_books k k' ->
  fsk_ok F W asked (resume tid v (drop_spawn tid k')).
Proof.
  intros [_ H2 H3 H4 H5 H6] Hg (B1 & B2 & B3 & B4).
  split; unfold resume, drop_spawn; cbn [set_resumed set_spawns k_resumed fs_reads_in_progress spawns_in_progress]; rewrite ?B2, ?B3, ?B4; try done.
  - eapply (kgood_books _ _ _ _ k'); [| done | done]. eapply kgood_ext; [exact Hg | done |]. intros t. rewrite spawn_delete. unfold plus, spawn_of.
    destruct (decide (t = tid)) as [-> |]; [by rewrite H6 | done].
  - rewrite fmap_app, H3. rewrite <- (map_to_list_delete (spawns_in_progress k) tid sp) by done. cbn [fmap list_fmap fst]. by solve_Permutation.
  - intros t p. rewrite lookup_delete_Some. intros [_ E]. by eapply H4.
  - unfold offsets_ok. cbn [set_resumed set_spawns process_handles]. by rewrite B1.
Qed.

(** A spawn left waiting for a page. *)
Lemma spawn_waits F W asked tid sp k k' c c' dst n :
  spawning F W asked tid sp k -> page_cache k = Some c -> page_cache k' = Some c' -> cache_good F c' ->
  waiting (entries c') ≡ₚ waiting (entries c) ++ [WKernel tid 0 dst n] -> drv_ok (k_dev k') -> same_books k k' -> fsk_ok F W asked k'.
Proof.
  intros [[(c0 & Hc0 & _ & Hown) _] H2 H3 H4 H5 H6] Hc Hc' Hg' Hw Hd (B1 & B2 & B3 & B4). rewrite Hc in Hc0. injection Hc0 as <-.
  split; rewrite ?B2, ?B3, ?B4; try done; [| unfold offsets_ok; by rewrite B1]. split; [| done]. exists c'. split_and!; [done | done |].
  eapply owes_perm; [| eapply owes_ext; [apply (owes_kernel _ _ _ tid 0 dst n Hown) | done |]].
  - rewrite Hw. by rewrite app_assoc.
  - intros t. unfold plus. destruct (decide (t = tid)); lia.
Qed.

Lemma spawn_bumped F W asked tid sp k : spawning F W asked tid sp k ->
  exists sp', spawning F W asked tid sp' (bump_spawn tid sp k) /\ sp_total_pages sp' = sp_total_pages sp /\ sp_pages_done sp' = sp_pages_done sp + 1.
Proof.
  intros [H1 H2 H3 H4 H5 H6]. eexists. split; [| split; [shelve | shelve]]. unfold bump_spawn.
  split; cbn [set_spawns k_resumed fs_reads_in_progress spawns_in_progress]; try done; [| | | apply lookup_insert_eq].
  - eapply (kgood_books _ _ _ _ k); [| done | done]. eapply kgood_ext; [exact H1 | done |]. intros t. unfold plus. rewrite spawn_insert. unfold spawn_of.
    destruct (decide (t = tid)) as [-> |]; [by rewrite H6 | done].
  - rewrite H3, <- (map_to_list_delete (spawns_in_progress k) tid sp H6), <- insert_delete_eq, map_to_list_insert by apply lookup_delete_eq. done.
  - intros t sp'. rewrite lookup_insert_Some. intros [[<- <-] | [_ E]]; [| by eapply H4]. simpl. specialize (H4 tid sp H6). lia.
  Unshelve. all: done.
Qed.

Lemma spawn_body_ok F W asked tid sp k :
  spawning F W asked tid sp k ->
  match spawn_body tid k with
  | inl k' => exists sp', spawning F W asked tid sp' k' /\ sp_total_pages sp' = sp_total_pages sp /\ sp_pages_done sp' = sp_pages_done sp + 1 /\
                sp_pages_done sp < sp_total_pages sp
  | inr r => exists k', r = Done k' /\ fsk_ok F W asked k'
  end.
Proof.
  intros Hs. pose proof Hs as [Hkg H2 H3 H4 H5 H6]. pose proof Hkg as [(c & Hc & Hg & Hown) Hd]. unfold spawn_body. rewrite H6.
  assert (forall v, exists k', Done (resume tid v (drop_spawn tid k)) = Done k' /\ fsk_ok F W asked k') as Hend.
  { intros v. eexists. split; [done |]. by eapply spawn_ends. }
  destruct (Z.leb_spec (sp_total_pages sp) (sp_pages_done sp)) as [| Hlt].
  { destruct (install_spawn _ _ _) as [v ps]. eexists. split; [done |]. destruct (spawn_ends F W asked tid sp v k k Hs Hkg) as [E1 E2 E3 E4 E5]; [done |].
    split; try done. by eapply kgood_books. }
  destruct (mounted k) as [fs |]; [| apply Hend]. destruct (lba_for_page _ _ _) as [lba | e]; [| apply Hend]. rewrite Hc.
  set (key := mkCacheKey _ lba). destruct (lookup_slot c key) as [[f v ws | f v] |] eqn:El.
  - destruct (register_waiter key _ c) as [o c'] eqn:Er. destruct (good_register F c key _ o c' Hg Er) as [Hg' Hw].
    unfold register_waiter in Er. unfold lookup_slot in El. rewrite El in Er. injection Er as <- <-. eexists. split; [done |].
    by eapply (spawn_waits F W asked tid sp k).
  - destruct (good_touch F c key Hg) as [Hg' Hw].
    match goal with |- exists sp', spawning _ _ _ _ _ (bump_spawn tid sp ?k') /\ _ => assert (spawning F W asked tid sp k') as Hs' end.
    { split; try done. eapply (kgood_cache F W _ _ _ c); [by apply kgood_copy | done | exact Hg' | by rewrite Hw]. }
    destruct (spawn_bumped _ _ _ _ _ _ Hs') as (sp' & ? & ? & ?). by exists sp'.
  - destruct (good_begin F c key (Z.min PAGE (sp_total_size sp - sp_pages_done sp * PAGE)) (WKernel tid 0 (sp_blob sp + sp_pages_done sp * PAGE) (Z.min PAGE (sp_total_size sp - sp_pages_done sp * PAGE))) Hg)
      as (x & c1 & Eb & Hg1 & Hw1 & _). rewrite Eb. cbn [pbind fst snd]. destruct x as [f | e].
    + destruct (submit_safe lba f PAGE (pack key) (k_dev k) Hd) as (r & d' & Es & Hd').
      cbn [k_dev set_cache]. rewrite Es. cbn [pbind fst snd]. destruct r as [hd | e]; eexists; (split; [done |]).
      * by eapply (spawn_waits F W asked tid sp k).
      * destruct (good_abandon F c key _ _ f c1 Hg Eb) as [Hg2 Hw2]. eapply spawn_ends; [exact Hs | | done].
        split; [| exact Hd']. eexists. split_and!; [done | exact Hg2 |]. eapply owes_perm; [| exact Hown]. by rewrite Hw2.
    + eexists. split; [done |]. eapply spawn_ends; [exact Hs | | done]. split; [| exact Hd]. eexists. split_and!; [done | exact Hg1 |].
      eapply owes_perm; [| exact Hown]. rewrite Hw1. simpl. by rewrite app_nil_r.
Qed.

Lemma issue_ok F W asked tid sp k : spawning F W asked tid sp k -> exists k', issue_next_spawn_page tid k = Done k' /\ fsk_ok F W asked k'.
Proof.
  intros Hs. unfold issue_next_spawn_page.
  destruct (while64_total (spawn_body tid) (fun k => exists sp', spawning F W asked tid sp' k)
    (fun k => match spawns_in_progress k !! tid with Some sp => Z.max 0 (sp_total_pages sp - sp_pages_done sp) | None => 0 end)
    (fun r => exists k', r = Done k' /\ fsk_ok F W asked k') k) as (r & -> & k' & -> & Hk'); [| by exists sp | | eauto].
  - intros k1 (sp1 & Hs1). pose proof (spawn_body_ok F W asked tid sp1 k1 Hs1) as Hb. destruct (spawn_body tid k1) as [k2 | r]; [| done].
    destruct Hb as (sp2 & Hs2 & E1 & E2 & Hlt). split; [eauto |]. rewrite (sg_on _ _ _ _ _ _ Hs1), (sg_on _ _ _ _ _ _ Hs2). lia.
  - rewrite (sg_on _ _ _ _ _ _ Hs). pose proof (sg_spawns _ _ _ _ _ _ Hs tid sp (sg_on _ _ _ _ _ _ Hs)). unfold W64 in *. lia.
Qed.

(** ** A page completed *)

(** A waiter in hand, taken off the books. *)
Lemma owes_cons_user W up kp tid pid intra pa off len :
  holds_debts (WUser tid pid intra pa off len :: W) up kp -> holds_debts W (plus up tid (- len)) kp /\ 0 < len <= up tid /\ off + len <= PAGE.
Proof.
  intros [H1 H2 H3]. apply Forall_cons in H3 as [[Hl Ho] H3]. split; [split; [| done | done] |].
  - intros t. specialize (H1 t). simpl in H1. unfold plus. destruct (decide (tid = t)), (decide (t = tid)); congruence || lia.
  - specialize (H1 tid). simpl in H1. rewrite decide_True in H1 by done. pose proof (user_owed_nonneg tid W H3). lia.
Qed.

Lemma kernel_owed_nonneg t ws : 0 <= kernel_owed t ws.
Proof. induction ws as [| w ws IH]; simpl; [done |]. destruct w; [done | case_decide; lia]. Qed.

Lemma owes_cons_kernel W up kp tid intra dst len : holds_debts (WKernel tid intra dst len :: W) up kp -> holds_debts W up (plus kp tid (-1)) /\ 1 <= kp tid.
Proof.
  intros [H1 H2 H3]. apply Forall_cons in H3 as [_ H3]. split; [split; [done | | done] |].
  - intros t. specialize (H2 t). simpl in H2. unfold plus. destruct (decide (tid = t)), (decide (t = tid)); congruence || lia.
  - specialize (H2 tid). simpl in H2. rewrite decide_True in H2 by done. pose proof (kernel_owed_nonneg tid W). lia.
Qed.

Lemma kgood_cons F W (w : Waiter) up kp up' kp' k :
  (forall W : list Waiter, holds_debts (w :: W) up kp -> holds_debts W up' kp') -> kgood F (w :: W) up kp k -> kgood F W up' kp' k.
Proof. intros Ho [(c & H1 & H2 & H3) H4]. split; [| done]. exists c. split_and!; [done | done | by apply Ho]. Qed.

Lemma complete_waiter_ok F W asked tid pid intra pa off len st k :
  fsk_ok F (WUser tid pid intra pa off len :: W) asked k -> fsk_ok F W asked (complete_fs_read_waiter tid st len k).
Proof.
  intros [H1 H2 H3 H4 H5]. pose proof H1 as [(c & _ & _ & Hown) _]. destruct (owes_cons_user _ _ _ _ _ _ _ _ _ Hown) as (_ & Hl & _).
  assert (kgood F W (plus (pend_of (fs_reads_in_progress k)) tid (- len)) (spawn_of (spawns_in_progress k)) k) as Hg.
  { eapply kgood_cons; [| exact H1]. intros W' Ho. by eapply owes_cons_user. }
  unfold complete_fs_read_waiter. unfold pend_of in Hl. destruct (fs_reads_in_progress k !! tid) as [p |] eqn:Ep; [| lia].
  set (dn := if ((st =? 0) && negb (failed p))%bool then bytes_done p + len else bytes_done p). set (fl := if st =? 0 then failed p else true).
  destruct (Z.eqb_spec (Z.max 0 (bytes_pending p - len)) 0) as [E0 | Hne].
  - split; unfold resume; cbn [set_resumed set_reads k_resumed fs_reads_in_progress spawns_in_progress]; try done.
    + eapply (kgood_books _ _ _ _ k); [| done | done]. eapply kgood_ext; [exact Hg | | done]. intros t. rewrite pend_delete. unfold plus, pend_of.
      destruct (decide (t = tid)) as [-> |]; [rewrite Ep; lia | done].
    + intros t q. rewrite lookup_delete_Some. intros [_ E]. by eapply H2.
    + rewrite fmap_app, H3, <- (map_to_list_delete (fs_reads_in_progress k) tid p) by done. cbn [fmap list_fmap fst]. by solve_Permutation.
  - split; cbn [set_reads k_resumed fs_reads_in_progress spawns_in_progress]; try done.
    + eapply (kgood_books _ _ _ _ k); [| done | done]. eapply kgood_ext; [exact Hg | | done]. intros t. rewrite pend_insert. unfold plus, pend_of. simpl.
      destruct (decide (t = tid)) as [-> |]; [rewrite Ep; lia | done].
    + intros t q. rewrite lookup_insert_Some. intros [[<- <-] | [_ E]]; [simpl; lia | by eapply H2].
    + rewrite H3, <- (map_to_list_delete (fs_reads_in_progress k) tid p Ep), <- insert_delete_eq, map_to_list_insert by apply lookup_delete_eq. done.
Qed.

Lemma fsk_ok_copy F W asked src dst n k : fsk_ok F W asked k -> fsk_ok F W asked (copy src dst n k).
Proof. intros [H1 H2 H3 H4 H5]. split; try done. by apply kgood_copy. Qed.

Lemma fill_waiter_ok F W asked st src w k : fsk_ok F (w :: W) asked k -> exists k', fill_waiter st src w k = Done k' /\ fsk_ok F W asked k'.
Proof.
  intros Hk. pose proof (fk_good _ _ _ _ Hk) as [(c & _ & _ & Hown) _]. destruct w as [tid pid intra pa off len | tid intra dst len]; simpl.
  - destruct (owes_cons_user _ _ _ _ _ _ _ _ _ Hown) as (_ & _ & Ho). destruct (_ && _)%bool.
    + destruct (Z.ltb_spec PAGE (off + len)); [lia |]. eexists. split; [done |]. by eapply complete_waiter_ok, fsk_ok_copy.
    + eexists. split; [done |]. by eapply complete_waiter_ok.
  - assert (fsk_ok F (WKernel tid intra dst len :: W) asked (if st =? 0 then copy (src + intra) dst len k else k)) as Hk' by (destruct (st =? 0); [by apply fsk_ok_copy | done]).
    set (k1 := if st =? 0 then _ else k) in *. destruct (owes_cons_kernel _ _ _ _ _ _ _ Hown) as [_ Hsp].
    assert (spawns_in_progress k1 = spawns_in_progress k) as Es by (unfold k1; by destruct (st =? 0)). unfold spawn_of in Hsp. rewrite Es.
    destruct (spawns_in_progress k !! tid) as [sp |] eqn:Et; [| lia]. unfold advance_spawn. rewrite Es, Et.
    assert (spawning F W asked tid sp k1) as Hs.
    { destruct Hk' as [H1 H2 H3 H4 H5]. split; try done; [| by rewrite Es]. eapply kgood_cons; [| exact H1]. intros W' Ho. by eapply owes_cons_kernel. }
    destruct (negb (st =? 0)).
    + eexists. split; [done |]. eapply spawn_ends; [exact Hs | by destruct Hs | done].
    + destruct (spawn_bumped _ _ _ _ _ _ Hs) as (sp' & Hs' & _). by eapply issue_ok.
Qed.

Lemma fill_waiters_ok F asked st src ws : forall k, fsk_ok F ws asked k -> exists k', pfold (fill_waiter st src) ws k = Done k' /\ fsk_ok F [] asked k'.
Proof.
  induction ws as [| w ws IH]; intros k Hk; simpl; [eauto |]. destruct (fill_waiter_ok F ws asked st src w k Hk) as (k1 & -> & Hk1). by apply IH.
Qed.

Lemma cache_fill_ok F asked packed st k : fsk_ok F [] asked k -> exists k', run_cache_fill packed st k = Done k' /\ fsk_ok F [] asked k'.
Proof.
  intros Hk. unfold run_cache_fill. destruct (unpack packed) as [key |]; [| eauto]. destruct (page_cache k) as [c |] eqn:Ec; [| eauto].
  destruct (lookup_slot c key) as [s |]; [| eauto]. destruct (complete_slot key st c) as [ws c'] eqn:E. apply fill_waiters_ok.
  destruct Hk as [H1 H2 H3 H4 H5]. destruct H1 as [(c0 & Hc0 & Hg & Hown) Hd]. rewrite Ec in Hc0. injection Hc0 as <-.
  destruct (good_complete F c key st ws c' Hg E) as [Hg' Hw]. split; try done. split; [| done]. exists c'. split_and!; [done | done |].
  eapply owes_perm; [| exact Hown]. by rewrite Hw.
Qed.

(** ** Histories *)

Record fsw := mkFsw { fw_k : Fsk; fw_asked : list Z }.

(** A thread that is not waiting asks; a page is completed; or the rest of the
    kernel and the device do their work. *)
Inductive file_step : fsw -> fsw -> Prop :=
| f_read translate tid pid buf_va fd len k k' asked :
    fs_reads_in_progress k !! tid = None -> spawns_in_progress k !! tid = None -> 0 <= len <= 2 ^ 32 ->
    run_fs_read_req translate tid pid buf_va fd len k = Done k' -> file_step (mkFsw k asked) (mkFsw k' (asked ++ [tid]))
| f_spawn tid sp k k' asked :
    fs_reads_in_progress k !! tid = None -> spawns_in_progress k !! tid = None -> sp_pages_done sp = 0 -> sp_total_pages sp < W64 ->
    issue_next_spawn_page tid (set_spawns (<[tid := sp]> (spawns_in_progress k)) k) = Done k' -> file_step (mkFsw k asked) (mkFsw k' (asked ++ [tid]))
| f_fill packed st k k' asked : run_cache_fill packed st k = Done k' -> file_step (mkFsw k asked) (mkFsw k' asked)
| f_other k asked hs ps d :
    (forall pid ph fd f, hs !! pid = Some ph -> ph !! fd = Some (HFile f) -> 0 <= of_offset f) -> drv_ok d ->
    file_step (mkFsw k asked) (mkFsw (mkFsk (page_cache k) hs ps (fs_reads_in_progress k) (spawns_in_progress k) (mounted k) d (k_resumed k)) asked).

Lemma spawn_req_ok F asked tid sp k :
  fsk_ok F [] asked k -> spawns_in_progress k !! tid = None -> sp_pages_done sp = 0 -> sp_total_pages sp < W64 ->
  exists k', issue_next_spawn_page tid (set_spawns (<[tid := sp]> (spawns_in_progress k)) k) = Done k' /\ fsk_ok F [] (asked ++ [tid]) k'.
Proof.
  intros [H1 H2 H3 H4 H5] Hno Hp Ht. apply (issue_ok F [] (asked ++ [tid]) tid sp).
  split; cbn [set_spawns k_resumed fs_reads_in_progress spawns_in_progress]; try done; [| | | apply lookup_insert_eq].
  - eapply (kgood_books _ _ _ _ k); [| done | done]. eapply kgood_ext; [exact H1 | done |]. intros t. unfold plus. rewrite spawn_insert. unfold spawn_of.
    destruct (decide (t = tid)) as [-> |]; [by rewrite Hno | done].
  - rewrite H3, map_to_list_insert by done. cbn [fmap list_fmap fst]. by solve_Permutation.
  - intros t sp'. rewrite lookup_insert_Some. intros [[<- <-] | [_ E]]; [lia | by eapply H4].
Qed.

Lemma file_step_ok F w w' : fsk_ok F [] (fw_asked w) (fw_k w) -> file_step w w' -> fsk_ok F [] (fw_asked w') (fw_k w').
Proof.
  intros Hk Hst. destruct Hst as [translate tid pid buf_va fd len k k' asked H1 H2 H3 H4 | tid sp k k' asked H1 H2 H3 H4 H5 | packed st k k' asked H1 | k asked hs ps d H1 H2];
    simpl in *.
  - destruct (read_req_ok F asked translate tid pid buf_va fd len k Hk H1 H3) as (k1 & E & Hk1). rewrite H4 in E. by injection E as <-.
  - destruct (spawn_req_ok F asked tid sp k Hk H2 H3 H4) as (k1 & E & Hk1). rewrite H5 in E. by injection E as <-.
  - destruct (cache_fill_ok F asked packed st k Hk) as (k1 & E & Hk1). rewrite H1 in E. by injection E as <-.
  - destruct Hk as [[(c & Hc & Hg & Ho) Hd] K2 K3 K4 K5]. split; try done. split; [by exists c | done].
Qed.

(** The manager after boot: a filled pool, no request yet. *)
Definition fboot (c : PageCache) (hs : gmap Z (gmap Z Handle)) (ps : gset Z) (mnt : option Tarfs) (d : D) : fsw :=
  mkFsw (mkFsk (Some c) hs ps ∅ ∅ mnt d []) [].

Section booted.
Context {KP : Type} (alloc : KP -> option (Z * KP)) (kp kp' : KP) (cap : Z) (c : PageCache).
Context (hs : gmap Z (gmap Z Handle)) (ps : gset Z) (mnt : option Tarfs) (d : D).

Lemma fboot_ok : with_capacity alloc kp cap = (Some c, kp') ->
  (forall pid ph fd f, hs !! pid = Some ph -> ph !! fd = Some (HFile f) -> 0 <= of_offset f) -> drv_ok d ->
  fsk_ok (pool c) [] [] (fw_k (fboot c hs ps mnt d)).
Proof.
  unfold with_capacity. destruct (alloc_pool alloc (Z.to_nat cap) kp []) as [[l |] kp1] eqn:E; simpl; [| done]. intros [= <- <-] Ho Hd. simpl.
  split; simpl; try done.
  split; [| done]. eexists. split_and!; [done | |].
  - split; simpl; [constructor | | unfold frames; by rewrite map_to_list_empty, app_nil_r | done].
    intros k. rewrite lookup_empty. split; [by intros ?%not_elem_of_nil | by intros (? & ? & ?)].
  - unfold waiting. simpl. rewrite map_to_list_empty. simpl. split; [| | constructor]; intros t; unfold pend_of, spawn_of; by rewrite lookup_empty.
Qed.

Lemma fs_reachable w : with_capacity alloc kp cap = (Some c, kp') ->
  (forall pid ph fd f, hs !! pid = Some ph -> ph !! fd = Some (HFile f) -> 0 <= of_offset f) -> drv_ok d ->
  rtc file_step (fboot c hs ps mnt d) w -> fsk_ok (pool c) [] (fw_asked w) (fw_k w).
Proof.
  intros Hc Ho Hd Hr. pose proof (fboot_ok Hc Ho Hd) as H1. change [] with (fw_asked (fboot c hs ps mnt d)) in H1 at 2.
  induction Hr as [| x y z Hxy _ IH]; [done |]. apply IH. by eapply file_step_ok.
Qed.

Lemma waiting_none m : (forall key s, m !! key = Some s -> is_loading s = false) -> waiting m = [].
Proof.
  intros Hm. unfold waiting. assert (forall e, e ∈ map_to_list m -> slot_waiters e.2 = []) as H1.
  { intros [key s] He%elem_of_map_to_list. specialize (Hm key s He). by destruct s. }
  revert H1. generalize (map_to_list m). intros l. induction l as [| e l IH]; intros Hl; [done |]. cbn [mbind list_bind].
  rewrite (Hl e) by (by left). apply IH. intros x Hx. apply Hl. by right.
Qed.

(** C5. Every read and every spawn from a path is answered exactly once. In any
    interleaving of requests, page completions (late, repeated or failed ones
    included) and whatever else the kernel does, the threads that asked are those
    answered and those still in progress; a read in progress waits for pages in
    flight, for as many bytes as its record says, never for none, and a spawn in
    progress for exactly one page. So once no page is in flight, nobody waits. *)
Theorem fs_reads_answered w : with_capacity alloc kp cap = (Some c, kp') ->
  (forall pid ph fd f, hs !! pid = Some ph -> ph !! fd = Some (HFile f) -> 0 <= of_offset f) -> drv_ok d ->
  rtc file_step (fboot c hs ps mnt d) w ->
  let k := fw_k w in
  fw_asked w ≡ₚ (k_resumed k).*1 ++ (map_to_list (fs_reads_in_progress k)).*1 ++ (map_to_list (spawns_in_progress k)).*1 /\
  exists c', page_cache k = Some c' /\
    (forall t, user_owed t (waiting (entries c')) = pend_of (fs_reads_in_progress k) t) /\
    (forall t, kernel_owed t (waiting (entries c')) = spawn_of (spawns_in_progress k) t) /\
    (forall t p, fs_reads_in_progress k !! t = Some p -> 0 < bytes_pending p) /\
    ((forall key s, entries c' !! key = Some s -> is_loading s = false) -> fw_asked w ≡ₚ (k_resumed k).*1).
Proof.
  intros Hc Ho Hd Hr k. destruct (fs_reachable w Hc Ho Hd Hr) as [[(c' & E & Hg & [Hu Hk Hf]) _] H2 H3 _ _]. fold k in E, Hu, Hk, H2, H3.
  split; [done |]. exists c'. split_and!; [done | done | done | done |]. intros Hnone. simpl in Hu, Hk. rewrite (waiting_none _ Hnone) in Hu, Hk.
  assert (fs_reads_in_progress k = ∅) as Er.
  { apply map_empty. intros t. destruct (fs_reads_in_progress k !! t) as [p |] eqn:Et; [| done]. specialize (Hu t). unfold pend_of in Hu. rewrite Et in Hu.
    specialize (H2 t p Et). simpl in Hu. lia. }
  assert (spawns_in_progress k = ∅) as Es.
  { apply map_empty. intros t. destruct (spawns_in_progress k !! t) as [p |] eqn:Et; [| done]. specialize (Hk t). unfold spawn_of in Hk. by rewrite Et in Hk. }
  rewrite H3, Er, Es, !map_to_list_empty. simpl. by rewrite app_nil_r.
Qed.

(** The manager's file operations always return. From every state it can
    reach, a read by a thread that is not waiting, a spawn of any program, and the
    completion of any page with any status run to their end without a panic. *)
Theorem fs_ops_return w : with_capacity alloc kp cap = (Some c, kp') ->
  (forall pid ph fd f, hs !! pid = Some ph -> ph !! fd = Some (HFile f) -> 0 <= of_offset f) -> drv_ok d ->
  rtc file_step (fboot c hs ps mnt d) w ->
  (forall translate tid pid buf_va fd len, fs_reads_in_progress (fw_k w) !! tid = None -> 0 <= len <= 2 ^ 32 ->
     exists k', run_fs_read_req translate tid pid buf_va fd len (fw_k w) = Done k') /\
  (forall tid sp, spawns_in_progress (fw_k w) !! tid = None -> sp_pages_done sp = 0 -> sp_total_pages sp < W64 ->
     exists k', issue_next_spawn_page tid (set_spawns (<[tid := sp]> (spawns_in_progress (fw_k w))) (fw_k w)) = Done k') /\
  (forall packed st, exists k', run_cache_fill packed st (fw_k w) = Done k').
Proof.
  intros Hc Ho Hd Hr. pose proof (fs_reachable w Hc Ho Hd Hr) as Hk. split_and!.
  - intros translate tid pid buf_va fd len Hn Hl. destruct (read_req_ok _ _ translate tid pid buf_va fd len _ Hk Hn Hl) as (k' & -> & _). eauto.
  - intros tid sp Hn Hp Ht. destruct (spawn_req_ok _ _ tid sp _ Hk Hn Hp Ht) as (k' & -> & _). eauto.
  - intros packed st. destruct (cache_fill_ok _ _ packed st _ Hk) as (k' & -> & _). eauto.
Qed.
End booted.
End spawn.
End fs_read.

(** ** Scenarios *)

Section scenario.
Notation Fsk := (Fsk (D := BlkDev (B := ring))).

(** A disk with a file of 63 pages and, at its very end, a program of one page and
    a hundred bytes. *)
Definition big_file : TarInode := mkInode [SLASH; 121] Reg 1 258048 0x1a4 0 0 0.
Definition program : TarInode := mkInode [SLASH; 120] Reg 600 4196 0x1ed 0 0 0.
Definition demo_fs : Tarfs := mkTarfs [None; Some root_inode; Some program; Some big_file] [([SLASH], 1); ([SLASH; 120], 2); ([SLASH; 121], 3)].

Definition demo_handles : gmap Z (gmap Z Handle) :=
  {[2 := {[3 := HFile (mkOpenFile demo_fs 2 0 0 true); 4 := HFile (mkOpenFile demo_fs 3 0 0 true)]}]}.

(** The driver with all its descriptors free. *)
Definition idle_dev (m : gmap Z Z) : BlkDev (B := ring) := mkBlkDev (mkBlock (Virtqueue_new QUEUE_SIZE) 4096 609 ∅ ∅) ∅ (mkRing 128 []) [] m.

Definition next_frame (kp : Z) : option (Z * Z) := Some (kp, kp + 4096).
Definition PAGE_CACHE_CAPACITY : Z := 64.
Definition demo_cache : PageCache :=
  match (with_capacity next_frame 0x100000 PAGE_CACHE_CAPACITY).1 with Some c => c | None => mkPageCache ∅ [] [] 0 (mkStats 0 0 0 0 0 0 0 0) end.

Definition demo_boot : fsw := fboot demo_cache demo_handles {[2]} (Some demo_fs) (idle_dev ∅).
Definition installed (ctx : Z) (blob : list Z) (ps : gset Z) : Z * gset Z := (9, {[9]} ∪ ps).
Definition demo_spawn : SpawnInProgress := mkSpawn 0 2 0x800000 4196 0 2.

(** User pages are mapped at a fixed distance. *)
Definition far (va : Z) : option Z := Some (va + 0x10000000).

Definition after (r : panics Fsk) (k : Fsk) : Fsk := match r with Done k' => k' | Panic => k end.
Definition with_device (d : BlkDev (B := ring)) (k : Fsk) : Fsk :=
  mkFsk (page_cache k) (process_handles k) (processes k) (fs_reads_in_progress k) (spawns_in_progress k) (mounted k) d (k_resumed k).

Definition do_spawn (tid : Z) (k : Fsk) : Fsk :=
  after (issue_next_spawn_page installed tid (set_spawns (<[tid := demo_spawn]> (spawns_in_progress k)) k)) k.
Definition do_read (tid fd len : Z) (k : Fsk) : Fsk := after (run_fs_read_req far tid 2 0x10000 fd len k) k.
(** Thread 7 spawns the program, thread 8 reads its first page, and four threads
    read the big file, so that every frame of the cache is in flight; in between the
    device completes what it was sent. *)
Definition k_spawned : Fsk := do_spawn 7 (fw_k demo_boot).
Definition k_shared : Fsk := do_read 8 3 4096 k_spawned.
Definition k_r9 : Fsk := do_read 9 4 65536 k_shared.
Definition k_d9 : Fsk := with_device (idle_dev ∅) k_r9.
Definition k_r10 : Fsk := do_read 10 4 65536 k_d9.
Definition k_d10 : Fsk := with_device (idle_dev ∅) k_r10.
Definition k_r11 : Fsk := do_read 11 4 65536 k_d10.
Definition k_d11 : Fsk := with_device (idle_dev ∅) k_r11.
Definition k_r12 : Fsk := do_read 12 4 65536 k_d11.

(** The frame of the program's first page, now filled by the device with ones. *)
Definition first_frame : Z := 0x100000 + 63 * 4096.
Definition k_filled : Fsk := with_device (idle_dev (write_bytes first_frame 4096 (fun _ => 1) ∅)) k_r12.
Definition k_final : Fsk := after (run_cache_fill installed (pack (mkCacheKey 1 600)) 0 k_filled) k_filled.

Lemma idle_dev_ok m : drv_ok (idle_dev m).
Proof. exists 0, [], [], []. by apply (vboot_ok 64). Qed.

Lemma demo_offsets pid ph fd f : demo_handles !! pid = Some ph -> ph !! fd = Some (HFile f) -> 0 <= of_offset f.
Proof.
  unfold demo_handles. intros [_ <-]%lookup_singleton_Some. rewrite lookup_insert_Some. intros [[_ [= <-]] | [_ [_ [= <-]]%lookup_singleton_Some]]; done.
Qed.

Definition demo_pool : list Z := pool demo_cache.
Notation demo_ok asked k := (fsk_ok demo_pool [] asked k).
Notation demo_step := (file_step installed).

Lemma demo_boot_ok : demo_ok [] (fw_k demo_boot).
Proof. apply (fboot_ok next_frame 0x100000 (0x100000 + 64 * 4096) PAGE_CACHE_CAPACITY); [by vm_compute | apply demo_offsets | apply idle_dev_ok]. Qed.

Lemma after_done r (k : Fsk) : (exists k', r = Done k') -> r = Done (after r k).
Proof. by intros [k' ->]. Qed.

(** Each move of the scenario is a step. *)
Definition moves (k : Fsk) (asked : list Z) (k' : Fsk) (asked' : list Z) : Prop :=
  demo_step (mkFsw k asked) (mkFsw k' asked') /\ demo_ok asked' k'.

Lemma move_read tid fd len asked k k' :
  k' = do_read tid fd len k -> demo_ok asked k -> fs_reads_in_progress k !! tid = None -> spawns_in_progress k !! tid = None -> 0 <= len <= 2 ^ 32 ->
  moves k asked k' (asked ++ [tid]).
Proof.
  intros -> Hk H1 H2 Hl. destruct (read_req_ok demo_pool asked far tid 2 0x10000 fd len k Hk H1 Hl) as (k' & E & Hk').
  unfold do_read. rewrite E. cbn [after]. split; [by eapply f_read | done].
Qed.

Lemma move_spawn tid asked k k' :
  k' = do_spawn tid k -> demo_ok asked k -> fs_reads_in_progress k !! tid = None -> spawns_in_progress k !! tid = None -> moves k asked k' (asked ++ [tid]).
Proof.
  intros -> Hk H1 H2. destruct (spawn_req_ok installed demo_pool asked tid demo_spawn k Hk H2) as (k' & E & Hk'); [done | done |].
  unfold do_spawn. rewrite E. cbn [after]. split; [by apply (f_spawn installed tid demo_spawn) | done].
Qed.

Lemma move_device m asked k k' : k' = with_device (idle_dev m) k -> demo_ok asked k -> moves k asked k' asked.
Proof.
  intros -> Hk. assert (demo_step (mkFsw k asked) (mkFsw (with_device (idle_dev m) k) asked)) as Hs.
  { apply f_other; [apply (fk_offsets _ _ _ _ Hk) | apply idle_dev_ok]. }
  split; [done |]. exact (file_step_ok installed demo_pool (mkFsw k asked) (mkFsw (with_device (idle_dev m) k) asked) Hk Hs).
Qed.

Lemma move_then k asked k1 asked1 w : moves k asked k1 asked1 -> (demo_ok asked1 k1 -> rtc demo_step (mkFsw k1 asked1) w) -> rtc demo_step (mkFsw k asked) w.
Proof. intros [Hs Hk] Hr. eapply rtc_l; [exact Hs | by apply Hr]. Qed.

Lemma demo_run : rtc demo_step demo_boot (mkFsw k_filled [7; 8; 9; 10; 11; 12]).
Proof.
  apply (move_then _ _ k_spawned [7]); [apply (move_spawn 7 []); [unfold k_spawned; reflexivity | apply demo_boot_ok | done | done] | intros O1].
  apply (move_then _ _ k_shared [7; 8]); [apply (move_read 8 3 4096 [7]); [unfold k_shared; reflexivity | exact O1 | by vm_compute | by vm_compute | lia] | intros O2].
  apply (move_then _ _ k_r9 [7; 8; 9]); [apply (move_read 9 4 65536 [7; 8]); [unfold k_r9; reflexivity | exact O2 | by vm_compute | by vm_compute | lia] | intros O3].
  apply (move_then _ _ k_d9 [7; 8; 9]); [apply (move_device ∅); [unfold k_d9; reflexivity | exact O3] | intros O4].
  apply (move_then _ _ k_r10 [7; 8; 9; 10]); [apply (move_read 10 4 65536 [7; 8; 9]); [unfold k_r10; reflexivity | exact O4 | by vm_compute | by vm_compute | lia] | intros O5].
  apply (move_then _ _ k_d10 [7; 8; 9; 10]); [apply (move_device ∅); [unfold k_d10; reflexivity | exact O5] | intros O6].
  apply (move_then _ _ k_r11 [7; 8; 9; 10; 11]); [apply (move_read 11 4 65536 [7; 8; 9; 10]); [unfold k_r11; reflexivity | exact O6 | by vm_compute | by vm_compute | lia] | intros O7].
  apply (move_then _ _ k_d11 [7; 8; 9; 10; 11]); [apply (move_device ∅); [unfold k_d11; reflexivity | exact O7] | intros O8].
  apply (move_then _ _ k_r12 [7; 8; 9; 10; 11; 12]); [apply (move_read 12 4 65536 [7; 8; 9; 10; 11]); [unfold k_r12; reflexivity | exact O8 | by vm_compute | by vm_compute | lia] | intros O9].
  apply (move_then _ _ k_filled [7; 8; 9; 10; 11; 12]); [| intros _; apply rtc_refl].
  apply (move_device (write_bytes first_frame 4096 (fun _ => 1) ∅)); [unfold k_filled; reflexivity | exact O9].
Qed.

(** C28. A completed page can lose its frame before its waiters have been served.
    In a state the manager reaches with a cache of 64 pages, all in flight, the page
    that completes has a spawn and a reader waiting. Serving the spawn first asks
    for its next page, which evicts the page just completed, the only one that can
    be, and prepares its frame for the next read. The reader is then told it has
    4096 bytes, but byte 600 of its buffer is 0 where the page held 1. *)
Theorem fill_frame_reused :
  exists k asked k' c, rtc demo_step demo_boot (mkFsw k asked) /\ page_cache k = Some c /\
    entries c !! mkCacheKey 1 600 = Some (Loading first_frame 4096 [WKernel 7 0 0x800000 4096; WUser 8 2 0 0x10010000 0 4096]) /\
    run_cache_fill installed (pack (mkCacheKey 1 600)) 0 k = Done k' /\ k_resumed k' = k_resumed k ++ [(8, 4096)] /\
    drv_mem (k_dev k) !! (first_frame + 600) = Some 1 /\ drv_mem (k_dev k') !! (0x10010000 + 600) = Some 0.
Proof.
  exists k_filled, [7; 8; 9; 10; 11; 12], k_final, (match page_cache k_filled with Some c => c | None => demo_cache end).
  split; [apply demo_run |]. split; [by vm_compute |]. split; [by vm_compute |]. split.
  - apply after_done. pose proof (fs_reachable installed next_frame 0x100000 (0x100000 + 64 * 4096) PAGE_CACHE_CAPACITY demo_cache demo_handles {[2]} (Some demo_fs) (idle_dev ∅)
      (mkFsw k_filled [7; 8; 9; 10; 11; 12]) eq_refl demo_offsets (idle_dev_ok ∅) demo_run) as Hk.
    destruct (cache_fill_ok installed _ _ (pack (mkCacheKey 1 600)) 0 _ Hk) as (k' & E & _). by exists k'.
  - split_and!; by vm_compute.
Qed.

Lemma fs_reads_answered_witness : exists c', page_cache k_filled = Some c' /\ user_owed 8 (waiting (entries c')) = 4096.
Proof.
  destruct (fs_reads_answered installed next_frame 0x100000 (0x100000 + 64 * 4096) PAGE_CACHE_CAPACITY demo_cache demo_handles {[2]} (Some demo_fs) (idle_dev ∅)
    (mkFsw k_filled [7; 8; 9; 10; 11; 12]) eq_refl demo_offsets (idle_dev_ok ∅) demo_run) as (_ & c' & E & Hu & _).
  exists c'. split; [exact E |]. rewrite Hu. vm_compute. reflexivity.
Defined.

Lemma fs_ops_return_witness : exists k', run_cache_fill installed (pack (mkCacheKey 1 600)) 0 k_filled = Done k'.
Proof.
  destruct (fs_ops_return installed next_frame 0x100000 (0x100000 + 64 * 4096) PAGE_CACHE_CAPACITY demo_cache demo_handles {[2]} (Some demo_fs) (idle_dev ∅)
    (mkFsw k_filled [7; 8; 9; 10; 11; 12]) eq_refl demo_offsets (idle_dev_ok ∅) demo_run) as (_ & _ & Hf).
  apply (Hf (pack (mkCacheKey 1 600)) 0).
Defined.
End scenario.
