(* ===== verification/UserMem.v ===== *)
(** * User memory, as the manager reaches it

    Models how the handlers of [kmain/src/kernel/mod.rs] read and write a process's
    memory: page by page through the process's page tables, each page seen through a
    [UserPageWindow] ([kmain/src/kernel/user_page.rs]). The copy-in loop is the one
    of [copy_user_path], of the ELF copies and of the argv copies; the copy-out is
    the one of the calls that answer within a page.

    Memory is a map from physical addresses to bytes; the kernel's aliases are
    identified with what they map. *)

From stdpp Require Import base list option numbers sets gmap.
From S2P Require Import Prelude Text Sv48 Abi Work.
#[local] Open Scope Z_scope.

Definition byte_at (m : gmap Z Z) (a : Z) : Z := default 0 (m !! a).
Definition bytes_at (m : gmap Z Z) (a n : Z) : list Z := (fun i => byte_at m (a + i)) <$> seqZ 0 n.

Definition page_base (va : Z) : Z := Z.land va (wnot (PAGE_SIZE - 1)).
Definition page_off (va : Z) : Z := wsub va (page_base va).

Section user_memory.
(** [virt_to_phys] in the process's root table, for addresses of pages. *)
Context (translate : Z -> option Z).

(** One turn of the loop; [room] is the size of the destination. The window of a
    frame that is not aligned to a page panics, and so does the slice of the
    destination past its end. *)
Definition copy_in_body (room vaddr len : Z) (m : gmap Z Z) (s : Z * list Z) : (Z * list Z) + panics (result (list Z) Z) :=
  let '(copied, buf) := s in
  if copied <? len then
    let cursor := wadd vaddr copied in
    let take := Z.min (PAGE_SIZE - page_off cursor) (len - copied) in
    match translate (page_base cursor) with
    | None => inr (Done (Err (to_ret errno.EFAULT)))
    | Some pa =>
        if negb (pa mod PAGE_SIZE =? 0) then inr Panic
        else if room <? copied + take then inr Panic
        else inl (copied + take, buf ++ bytes_at m (pa + page_off cursor) take)
    end
  else inr (Done (Ok buf)).

Definition copy_in (room vaddr len : Z) (m : gmap Z Z) : panics (result (list Z) Z) :=
  match while64 (copy_in_body room vaddr len m) (0, []) with Some r => r | None => Panic end.

Definition copy_user_path (vaddr len : Z) (m : gmap Z Z) : panics (result (list Z) Z) :=
  r <-! copy_in MAX_FS_PATH_LEN vaddr len m ;;
  Done (match r with
        | Err e => Err e
        | Ok l => if utf8_valid l then Ok l else Err (to_ret errno.EINVAL)
        end).

(** A copy into one page. *)
Definition copy_out (vaddr : Z) (l : list Z) (m : gmap Z Z) : panics (result (gmap Z Z) Z) :=
  match translate (page_base vaddr) with
  | None => Done (Err (to_ret errno.EFAULT))
  | Some pa =>
      if negb (pa mod PAGE_SIZE =? 0) then Panic
      else if PAGE_SIZE <? page_off vaddr + Z.of_nat (length l) then Panic
      else Done (Ok (write_bytes (pa + page_off vaddr) (length l) (fun i => default 0 (l !! i)) m))
  end.

(** ** What the process sees *)

Definition user_byte (m : gmap Z Z) (va : Z) : option Z :=
  match translate (page_base va) with Some pa => Some (byte_at m (pa + page_off va)) | None => None end.

Definition user_bytes (m : gmap Z Z) (va n : Z) : option (list Z) := mapM (user_byte m) (seqZ va n).

(** The frames a root table maps are pages. *)
Definition frames_aligned : Prop := forall va pa, translate va = Some pa -> pa mod PAGE_SIZE = 0.

Lemma page_base_eq va : is_u64 va -> page_base va = va - va mod PAGE_SIZE.
Proof. intros Hva. apply (land_round_down va 12); [done | lia]. Qed.

Lemma page_off_eq va : is_u64 va -> page_off va = va mod PAGE_SIZE.
Proof.
  intros Hva. unfold page_off. rewrite page_base_eq by done. unfold wsub. replace (va - (va - va mod PAGE_SIZE)) with (va mod PAGE_SIZE) by lia.
  apply u64_small. pose proof (Z.mod_pos_bound va PAGE_SIZE ltac:(done)). unfold is_u64, W64, PAGE_SIZE in *. lia.
Qed.

Lemma same_user_page va i :
  is_u64 va -> 0 <= i < PAGE_SIZE - page_off va -> is_u64 (va + i) -> page_base (va + i) = page_base va /\ page_off (va + i) = page_off va + i.
Proof.
  intros Hva Hi Hvi. rewrite page_off_eq in Hi by done. rewrite !page_base_eq, !page_off_eq by done.
  assert ((va + i) mod PAGE_SIZE = va mod PAGE_SIZE + i) as ->; [| lia].
  pose proof (Z.div_mod va PAGE_SIZE ltac:(done)). pose proof (Z.mod_pos_bound va PAGE_SIZE ltac:(done)).
  symmetry. apply (Z.mod_unique _ _ (va / PAGE_SIZE)); lia.
Qed.

Lemma mapM_option_app {A B} (f : A -> option B) l1 l2 : mapM f (l1 ++ l2) = (x ← mapM f l1; y ← mapM f l2; Some (x ++ y)).
Proof.
  induction l1 as [| a l1 IH]; simpl; [by destruct (mapM f l2) |]. destruct (f a) as [b |]; simpl; [| done]. rewrite IH.
  destruct (mapM f l1); simpl; [| done]. by destruct (mapM f l2).
Qed.

Lemma user_bytes_app m va n k : 0 <= n -> 0 <= k -> user_bytes m va (n + k) = (l ← user_bytes m va n; l' ← user_bytes m (va + n) k; Some (l ++ l')).
Proof.
  intros Hn Hk. unfold user_bytes. rewrite seqZ_app by done. apply mapM_option_app.
Qed.

(** Within a page, the bytes of the frame. *)
Lemma user_bytes_page m va n pa :
  is_u64 va -> 0 <= n <= PAGE_SIZE - page_off va -> va + n <= W64 -> translate (page_base va) = Some pa ->
  user_bytes m va n = Some (bytes_at m (pa + page_off va) n).
Proof.
  intros Hva Hn Hw Ht. unfold user_bytes, bytes_at. apply mapM_Some_2.
  apply Forall2_same_length_lookup_2; [by rewrite length_fmap, !length_seqZ |].
  intros i x y Hx Hy. apply list_lookup_fmap_Some in Hy as (j & -> & Hj). apply lookup_seqZ in Hx as [-> Hi], Hj as [-> _].
  destruct (same_user_page va (Z.of_nat i)) as [E1 E2]; [done | lia | unfold is_u64 in *; lia |].
  unfold user_byte. rewrite E1, Ht, E2. do 2 f_equal. lia.
Qed.

Lemma user_bytes_hole m va n i : 0 <= i < n -> translate (page_base (va + i)) = None -> user_bytes m va n = None.
Proof.
  intros Hi Ht. replace n with (i + (1 + (n - i - 1))) by lia. rewrite user_bytes_app by lia. destruct (user_bytes m va i) as [l |]; [| done]. simpl.
  unfold user_bytes. rewrite seqZ_cons by lia. cbn [mapM]. assert (user_byte m (va + i) = None) as -> by (unfold user_byte; by rewrite Ht). done.
Qed.

(** ** Exactness *)

Context (Haligned : frames_aligned).

(** The copy is what the process sees, or [EFAULT] when a byte of it is not mapped. *)
Lemma copy_in_exact room vaddr len m :
  0 <= vaddr -> 0 <= len -> vaddr + len < W64 -> len <= room ->
  copy_in room vaddr len m = Done (match user_bytes m vaddr len with Some l => Ok l | None => Err (to_ret errno.EFAULT) end).
Proof.
  intros Hv Hl Hw Hr.
  destruct (while64_total (copy_in_body room vaddr len m) (fun s => 0 <= s.1 <= len /\ user_bytes m vaddr s.1 = Some s.2) (fun s => len - s.1)
    (fun r => r = Done (match user_bytes m vaddr len with Some l => Ok l | None => Err (to_ret errno.EFAULT) end)) (0, [])) as (r & E & ->);
    [| split; [simpl; lia | done] | simpl; lia | unfold copy_in; by rewrite E].
  intros [copied buf] [Hc Hb]. simpl in Hc, Hb. cbn [copy_in_body]. destruct (Z.ltb_spec copied len) as [Hlt | Hge].
  2: { replace len with copied by lia. by rewrite Hb. }
  unfold wadd. rewrite u64_small by (unfold is_u64; lia). set (cur := vaddr + copied). assert (is_u64 cur) as Hcur by (unfold is_u64, cur; lia).
  destruct (translate (page_base cur)) as [pa |] eqn:Et; [| by rewrite (user_bytes_hole m vaddr len copied) by (lia || done)].
  rewrite (Haligned _ _ Et), Z.eqb_refl. cbn [negb].
  pose proof (page_off_eq cur Hcur) as Ho. pose proof (Z.mod_pos_bound cur PAGE_SIZE ltac:(done)) as Hm.
  set (take := Z.min (PAGE_SIZE - page_off cur) (len - copied)). assert (0 < take <= len - copied) as Ht by lia.
  destruct (Z.ltb_spec room (copied + take)); [lia |]. simpl. split; [| lia]. split; [lia |].
  rewrite user_bytes_app, Hb by lia. simpl. fold cur. rewrite (user_bytes_page m cur take pa) by (done || lia). done.
Qed.

Lemma copy_user_path_exact vaddr len m :
  0 <= vaddr -> 0 <= len <= MAX_FS_PATH_LEN -> vaddr + len < W64 ->
  copy_user_path vaddr len m = Done (match user_bytes m vaddr len with
    | None => Err (to_ret errno.EFAULT)
    | Some l => if utf8_valid l then Ok l else Err (to_ret errno.EINVAL)
    end).
Proof. intros Hv Hl Hw. unfold copy_user_path. rewrite copy_in_exact by lia. by destruct (user_bytes m vaddr len). Qed.

(** A copy-out within a page is seen by the process and changes nothing else. *)
Lemma copy_out_exact vaddr l m :
  0 <= vaddr -> vaddr + Z.of_nat (length l) < W64 -> page_off vaddr + Z.of_nat (length l) <= PAGE_SIZE ->
  match translate (page_base vaddr) with
  | None => copy_out vaddr l m = Done (Err (to_ret errno.EFAULT))
  | Some pa => exists m', copy_out vaddr l m = Done (Ok m') /\ user_bytes m' vaddr (Z.of_nat (length l)) = Some l /\
      (forall a, ~ (pa + page_off vaddr <= a < pa + page_off vaddr + Z.of_nat (length l)) -> m' !! a = m !! a)
  end.
Proof.
  intros Hv Hw Hp. unfold copy_out. destruct (translate (page_base vaddr)) as [pa |] eqn:Et; [| done].
  rewrite (Haligned _ _ Et), Z.eqb_refl. cbn [negb]. destruct (Z.ltb_spec PAGE_SIZE (page_off vaddr + Z.of_nat (length l))); [lia |].
  eexists. split_and!; [done | | intros a Ha; by apply write_bytes_other].
  rewrite (user_bytes_page _ vaddr _ pa); [| unfold is_u64; lia | lia | lia | done]. f_equal. apply list_eq. intros i. unfold bytes_at.
  rewrite list_lookup_fmap. destruct (l !! i) as [x |] eqn:Ex.
  - pose proof (lookup_lt_Some _ _ _ Ex). rewrite lookup_seqZ_lt by lia. cbn [fmap option_fmap option_map]. unfold byte_at.
    rewrite write_bytes_at by lia. rewrite Z.add_0_l, Nat2Z.id, Ex. done.
  - pose proof (lookup_ge_None_1 _ _ Ex). by rewrite lookup_seqZ_ge by lia.
Qed.
End user_memory.
