(* ===== verification/Mmap.v ===== *)
(** * Memory maps

    Models [run_mmap_req], [free_backing] and the release of a process's memory in
    [dealloc_process] ([kmain/src/kernel/mod.rs]), the choice of a page size in
    [orbit-core/src/manager.rs], and the limits of [UserPageWindow]
    ([kmain/src/kernel/user_page.rs]): the pools a mapping is drawn from, the page
    tables that make it visible, and the bytes behind it.

    Both pools and the table pages are allocators of [Buddy.v], the page tables those
    of [PageTable.v]. Physical memory is a map of bytes in which an absent byte is
    zero; what the kernel reaches through an alias is identified with it. *)

From stdpp Require Import base list option numbers sets gmap.
From S2P Require Import Prelude Text Buddy Sv48 PageTable Translate Mapping Layout Abi Perms Thread Completion Work Syscall UserMem.
#[local] Open Scope Z_scope.

(** ** Geometry and layouts *)

Definition MEGAPAGE_SIZE : Z := 2 * MB.

Record MappingGeometry := mkGeometry { geo_align : Z; geo_levels : Z }.

Definition select_mapping_geometry (vaddr size : Z) : option MappingGeometry :=
  if ((vaddr mod MEGAPAGE_SIZE =? 0) && (size mod MEGAPAGE_SIZE =? 0))%bool then Some (mkGeometry MEGAPAGE_SIZE 3)
  else if ((vaddr mod PAGE_SIZE =? 0) && (size mod PAGE_SIZE =? 0))%bool then Some (mkGeometry PAGE_SIZE 4)
  else None.

(** [Layout::from_size_align]: a power of two, and a size that rounds up within
    [isize::MAX]. *)
Definition is_power_of_two (a : Z) : bool := (0 <? a) && (next_power_of_two a =? a).
Definition layout_from_size_align (size align : Z) : option Layout :=
  if (is_power_of_two align && (size <=? 2 ^ 63 - align))%bool then Some (mkLayout size align) else None.

(** ** State *)

Inductive PhysBacking := BShared (pa : Z) (layout : Layout) | BUser (pa : Z) (layout : Layout).

Definition backing_pa (b : PhysBacking) : Z := match b with BShared pa _ | BUser pa _ => pa end.
Definition backing_layout (b : PhysBacking) : Layout := match b with BShared _ l | BUser _ l => l end.

(** [heap_pages] of the processes alive. *)
Record Vm := mkVm {
  kernel_pages : FrameAllocator;
  user_pages : FrameAllocator;
  table_pages : FrameAllocator;
  pte_mem : gmap Z Z;
  phys_mem : gmap Z Z;
  heap_pages : gmap Z (list PhysBacking);
}.

Definition eta_vm (s : Vm) : Vm :=
  mkVm (kernel_pages s) (user_pages s) (table_pages s) (pte_mem s) (phys_mem s) (heap_pages s).
Definition set_kernel_pages : FrameAllocator -> Vm -> Vm := ltac:(set_field eta_vm kernel_pages).
Definition set_user_pages : FrameAllocator -> Vm -> Vm := ltac:(set_field eta_vm user_pages).
Definition set_table_pages : FrameAllocator -> Vm -> Vm := ltac:(set_field eta_vm table_pages).
Definition set_pte_mem : gmap Z Z -> Vm -> Vm := ltac:(set_field eta_vm pte_mem).
Definition set_phys_mem : gmap Z Z -> Vm -> Vm := ltac:(set_field eta_vm phys_mem).
Definition set_heap_pages : gmap Z (list PhysBacking) -> Vm -> Vm := ltac:(set_field eta_vm heap_pages).

Definition zero_bytes (pa n : Z) (m : gmap Z Z) : gmap Z Z := filter (fun p => ~ (pa <= p.1 < pa + n)) m.

Definition free_backing (b : PhysBacking) (s : Vm) : Vm :=
  match b with
  | BShared pa l => set_kernel_pages (dealloc_aligned (kernel_pages s) pa l) s
  | BUser pa l => set_user_pages (dealloc_aligned (user_pages s) pa l) s
  end.

(** ** The window onto a user frame *)

Definition KSCRATCH_SIZE : Z := 32 * MB.

(** [UserPageWindow::map]: its assertions. *)
Definition window (pa len : Z) : panics unit :=
  if negb (pa mod PAGE_SIZE =? 0) then Panic
  else if len <=? 0 then Panic
  else if KSCRATCH_SIZE <? round_u64_up len PAGE_SIZE then Panic
  else Done tt.

(** ** [mmap] *)

(** [map_address_range] with the table pages as its source. *)
Definition map_into (rt : RootTable) (c : MappingConfig) (vend pend : Z) (s : Vm) : panics (result unit unit * Vm) :=
  match map_address_range rt c vend pend (pte_mem s) (table_pages s) with
  | Some (Done (m, pages, r)) => Done (r, set_table_pages pages (set_pte_mem m s))
  | Some Panic | None => Panic
  end.

(** The frame, zeroed: from the pool the kernel can reach, or from the other one. *)
Definition mmap_backing (share_with_kernel : bool) (layout : Layout) (s : Vm) : panics (option PhysBacking * Vm) :=
  if share_with_kernel then
    match alloc_aligned (kernel_pages s) layout with
    | (fa, None) => Done (None, set_kernel_pages fa s)
    | (fa, Some pa) => Done (Some (BShared pa layout), set_phys_mem (zero_bytes pa (lsize layout) (phys_mem s)) (set_kernel_pages fa s))
    end
  else
    match alloc_aligned (user_pages s) layout with
    | (fa, None) => Done (None, set_user_pages fa s)
    | (fa, Some pa) =>
        _ <-! window pa (lsize layout) ;;
        Done (Some (BUser pa layout), set_phys_mem (zero_bytes pa (lsize layout) (phys_mem s)) (set_user_pages fa s))
    end.

Definition mmap_config (req : MemMapReq) (g : MappingGeometry) (pa : Z) : MappingConfig :=
  mkMappingConfig (perm_or_u64 PU (Z.land (mm_page_permissions req) 0xE)) (geo_levels g) (geo_align g) (mm_vaddr req) pa false
    (if mm_share_with_kernel req then SharedRevocable else TagNone).

Definition run_mmap_req (rt : RootTable) (req : MemMapReq) (pid : Z) (s : Vm) : panics (Z * Vm) :=
  match select_mapping_geometry (mm_vaddr req) (mm_size req) with
  | None => Done (to_ret errno.EINVAL, s)
  | Some g =>
      match layout_from_size_align (mm_size req) (geo_align g) with
      | None => Done (to_ret errno.EINVAL, s)
      | Some layout =>
          b <-! mmap_backing (mm_share_with_kernel req) layout s ;;
          match b with
          | (None, s) => Done (to_ret errno.ENOMEM, s)
          | (Some backing, s) =>
              let pa := backing_pa backing in
              r <-! map_into rt (mmap_config req g pa) (wadd (mm_vaddr req) (mm_size req)) (wadd pa (mm_size req)) s ;;
              match r with
              | (Err _, s) => Done (to_ret errno.ENOMEM, free_backing backing s)
              | (Ok _, s) =>
                  match heap_pages s !! pid with
                  | None => Done (to_ret errno.ESRCH, free_backing backing s)
                  | Some l => Done (0, set_heap_pages (<[pid := l ++ [backing]]> (heap_pages s)) s)
                  end
              end
          end
      end
  end.

(** ** The end of a process, for its memory: its frames, the tables below its root,
    and the root

    The half of the root that all processes share is detached before the teardown in
    the source, and is not part of the tables here; the mappings of the process's
    threads went with the threads. *)

Fixpoint free_backings (l : list PhysBacking) (s : Vm) : Vm :=
  match l with [] => s | b :: l => free_backings l (free_backing b s) end.

Definition TABLE_LAYOUT : Layout := mkLayout PAGE_SIZE PAGE_SIZE.

Definition release_memory (rt : RootTable) (root_pa pid : Z) (s : Vm) : option Vm :=
  let s := free_backings (rev (default [] (heap_pages s !! pid))) (set_heap_pages (delete pid (heap_pages s)) s) in
  match unmap (pte_mem s) rt (FA (table_pages s)) with
  | Some (FA fa) => Some (set_table_pages (dealloc_aligned fa root_pa TABLE_LAYOUT) s)
  | _ => None
  end.

(** ** Mapping a range *)

(** Every page of the first [d] bytes has a leaf of its own, at level [l], with [R]. *)
Definition range_leaves (R : Z -> Prop) (rt : RootTable) (l va0 d : Z) (m : gmap Z Z) : Prop :=
  forall x, 0 <= x < d -> (psize l | x) -> exists raw, R raw /\ maps m rt (va0 + x) l raw.

Lemma off_at base x : 0 <= x < 2 ^ 48 -> off base (base + x) = x.
Proof. intros Hx. unfold off. rewrite Z.add_simpl_l. by apply Z.mod_small. Qed.

Lemma range_leaves_kept R rt l va0 d d' base m m' :
  range_leaves R rt l va0 d m -> leaves_kept rt base d' m m' -> (forall x, 0 <= x < d -> d' <= off base (va0 + x)) -> range_leaves R rt l va0 d m'.
Proof. intros Hl Hk Ho x Hx Hd. destruct (Hl x Hx Hd) as (raw & HR & Hr). exists raw. split; [done |]. apply Hk; auto. Qed.

Lemma range_leaves_weaken (R R' : Z -> Prop) rt l va0 d m : (forall raw, R raw -> R' raw) -> range_leaves R rt l va0 d m -> range_leaves R' rt l va0 d m.
Proof. intros HR Hl x Hx Hd. destruct (Hl x Hx Hd) as (raw & ? & ?). exists raw. auto. Qed.

Lemma range_leaves_step (R : Z -> Prop) rt l va0 d m m' raw0 :
  0 <= l <= 3 -> (psize l | va0 + d) -> (psize l | d) -> 0 <= d -> d + psize l <= 2 ^ 48 -> range_leaves R rt l va0 d m -> R raw0 -> maps m' rt (va0 + d) l raw0 ->
  (forall va l' raw, ~ same_page l (va0 + d) va -> maps m' rt va l' raw <-> maps m rt va l' raw) -> range_leaves R rt l va0 (d + psize l) m'.
Proof.
  intros Hl Hv [k ->] Hd Hle Hr HR H0 Hs x Hx [j ->]. pose proof (psize_pos l ltac:(lia)) as Hp. destruct (decide (j = k)) as [-> | Hne]; [by exists raw0 |].
  destruct (Hr (j * psize l)) as (raw & HR' & Hm); [nia | by exists j |]. exists raw. split; [done |]. apply Hs; [| done].
  rewrite (proj1 (same_page_off l _ _ Hl Hv)). intros Ho. destruct (off_extend va0 (k * psize l) (psize l) (va0 + j * psize l)) as [He _]; [done | done | done |].
  specialize (He Ho). rewrite off_at in He by nia. pose proof (off_range (va0 + k * psize l) (va0 + j * psize l)). nia.
Qed.

(** The leaf a configuration writes carries its tag. *)
Definition tagged (t : SupervisorTag) (raw : Z) : Prop := get_supervisor_bits raw = tag_bits t.

Lemma pack_tagged pa perms t : is_u64 pa -> tagged t (pack_leaf (pa / PAGE_SIZE) perms (tag_bits t)).
Proof.
  intros Hpa. assert (0 <= pa / PAGE_SIZE < 2 ^ 54) as Hppn.
  { unfold is_u64, W64, PAGE_SIZE in *. split; [apply Z.div_pos; lia | apply Z.div_lt_upper_bound; lia]. }
  destruct (flags_status perms (tag_bits t)) as (_ & _ & _ & Hr). unfold tagged. rewrite supervisor_bits_low, pack_leaf_fields by lia.
  rewrite Z.add_comm, Z.mod_add by lia. pose proof (leaf_status_range perms (tag_bits t)). rewrite Z.mod_small by lia.
  by destruct t.
Qed.

Section range.
Context {P : Type} `{PageSourceLaws P}.
Context (rt : RootTable) (c : MappingConfig) (n : Z) (m0 : gmap Z Z).
Context (Hc : config_ok c) (Hal : cfg_aligned c) (Hn : 0 <= n).
Context (Hv : vaddr c + n * page_size c < W64) (Hp : paddr c + n * page_size c < W64) (Hlen : n * page_size c <= 2 ^ 48).

(** After the first [d] bytes: they are mapped, they were not before, and nothing
    else changed. *)
Definition mapped_prefix (d : Z) (m : gmap Z Z) : Prop :=
  0 <= d <= n * page_size c /\ (page_size c | d) /\ range_mapped rt (vaddr c) (paddr c) d m0 m /\
  (forall va, is_u64 va -> off (vaddr c) va < d -> virt_to_phys m0 rt va = Done None) /\
  range_leaves (tagged (supervisor_tag c)) rt (4 - levels c) (vaddr c) d m /\ leaves_kept rt (vaddr c) d m0 m.

Definition range_step_inv (s : gmap Z Z * P * MappingConfig * Z) : Prop :=
  let '(m, pages, c', i) := s in
  0 <= i <= n /\ c' = set_addrs c (vaddr c + (n - i) * page_size c) (paddr c + (n - i) * page_size c) /\
  pt_wf m rt pages /\ mapped_prefix ((n - i) * page_size c) m.

Definition range_step_post (r : panics (gmap Z Z * P * result unit unit)) : Prop :=
  exists m pages res d, r = Done (m, pages, res) /\ pt_wf m rt pages /\ mapped_prefix d m /\
    match res with Ok _ => d = n * page_size c | Err _ => d < n * page_size c end.

Lemma size_pos : 0 < page_size c.
Proof. pose proof (cfg_levels _ Hc). rewrite (cfg_size _ Hc). apply psize_pos. lia. Qed.

Lemma map_range_step_ok s :
  range_step_inv s ->
  match map_range_step rt (page_size c) s with
  | inl s' => range_step_inv s' /\ 0 <= s'.2 < s.2
  | inr r => range_step_post r
  end.
Proof.
  destruct s as [[[m pages] c'] i]. intros (Hi & -> & Hwf & Hd & Hdiv & Hmap & Hnew & Hlv & Hkp). pose proof size_pos as Hs.
  pose proof (cfg_vaddr _ Hc) as Hv0. pose proof (cfg_paddr _ Hc) as Hp0. unfold is_u64 in Hv0, Hp0.
  cbn [map_range_step]. destruct (Z.ltb_spec 0 i) as [Hlt | Hge].
  2: { exists m, pages, (Ok tt), (n * page_size c). replace (n - i) with n in * by lia. split_and!; try done; lia. }
  set (d := (n - i) * page_size c) in *. set (c1 := set_addrs c _ _).
  assert (d + page_size c <= n * page_size c) as Hroom by (unfold d; nia).
  assert (config_ok c1) as Hc1 by (split; unfold is_u64; simpl; try apply Hc; lia).
  destruct (map_address_page_spec rt c1 m pages Hwf Hc1) as (m' & pages' & r & -> & Hwf' & Hr). destruct r as [u | e].
  - destruct Hr as (Hal1 & Hm & Hfresh & Hlf & Hot). cbn [vaddr paddr set_addrs c1]. rewrite !wadd_small by lia. split; [| simpl; lia].
    assert ((n - (i - 1)) * page_size c = d + page_size c) as E by (unfold d; lia).
    unfold range_step_inv, mapped_prefix. rewrite E. split_and!; try done; try lia.
    + rewrite !Z.add_assoc. done.
    + apply Z.divide_add_r; [done | reflexivity].
    + by apply (range_mapped_step rt c1 (vaddr c) (paddr c) d m0 m m'); try done; simpl; lia.
    + intros va Hva Hoff. destruct (decide (off (vaddr c) va < d)) as [? | Hge']; [by apply Hnew |].
      rewrite <- (Hfresh va Hva).
      * rewrite (Hmap va Hva). by rewrite decide_False by lia.
      * pose proof (cfg_levels _ Hc). apply (same_page_off (4 - levels c) (vaddr c1) va); [lia | rewrite <- (cfg_size _ Hc); apply Hal1 |].
        rewrite <- (cfg_size _ Hc). cbn [vaddr c1 set_addrs]. pose proof (off_extend (vaddr c) d (page_size c) va). lia.
    + destruct Hal1 as [_ Hal1]. pose proof (cfg_levels _ Hc). assert (d + page_size c <= 2 ^ 48) as Hl48 by lia. cbn [page_size c1 set_addrs] in Hal1. rewrite (cfg_size _ Hc) in Hdiv, Hal1, Hl48 |- *. eapply (range_leaves_step _ rt (4 - levels c) (vaddr c) d m m'); try exact Hlf; try done; [lia | lia |]. apply pack_tagged, (cfg_paddr _ Hc1).
    + destruct Hal1 as [_ Hal1]. pose proof (cfg_levels _ Hc). assert (d + page_size c <= 2 ^ 48) as Hl48 by lia. cbn [page_size c1 set_addrs] in Hal1. rewrite (cfg_size _ Hc) in Hdiv, Hal1, Hl48 |- *. by apply (leaves_kept_step rt (4 - levels c) (vaddr c) d m0 m m'); try done; lia.
  - destruct Hr as (Hu & Hot & _). exists m', pages', (Err e), d. split_and!; try done; try lia. unfold mapped_prefix. split_and!; try done; try lia.
    + by apply (range_mapped_unchanged rt _ _ d m0 m).
    + intros x Hx Hxd. destruct (Hlv x Hx Hxd) as (raw & HR & Hr). exists raw. split; [done |]. by apply Hot.
    + intros va l raw Ho. rewrite (Hot va l raw). by apply Hkp.
Qed.

Lemma map_address_range_spec (pages : P) : pt_wf m0 rt pages ->
  exists r, map_address_range rt c (vaddr c + n * page_size c) (paddr c + n * page_size c) m0 pages = Some r /\ range_step_post r.
Proof.
  intros Hwf. pose proof size_pos as Hs. pose proof (cfg_vaddr _ Hc) as Hv0. pose proof (cfg_paddr _ Hc) as Hp0. unfold is_u64 in Hv0, Hp0.
  assert (0 <= n * page_size c < W64) as Hns by nia. unfold map_address_range. rewrite !wsub_small by lia.
  replace (vaddr c + n * page_size c - vaddr c) with (n * page_size c) by lia. replace (paddr c + n * page_size c - paddr c) with (n * page_size c) by lia.
  rewrite Z.eqb_refl. cbn [negb]. destruct (Z.eqb_spec (page_size c) 0); [lia |]. destruct Hal as [H1%Z.mod_divide H2%Z.mod_divide]; [| lia | lia].
  rewrite H1, H2, Z.eqb_refl. cbn [negb orb]. rewrite Z.div_mul by lia.
  apply (while64_total (map_range_step rt (page_size c)) range_step_inv (fun s => s.2)); [by apply map_range_step_ok | | simpl; nia].
  unfold range_step_inv, mapped_prefix. rewrite Z.sub_diag, Z.mul_0_l, !Z.add_0_r. split_and!; try done; try lia; [by destruct c | apply Z.divide_0_r | apply range_mapped_0 | |].
  - intros va _ Ho. pose proof (off_range (vaddr c) va). lia.
  - intros x Hx. lia.
Qed.
End range.

Lemma map_into_range rt c n s :
  pt_wf (pte_mem s) rt (table_pages s) -> config_ok c -> cfg_aligned c -> 0 <= n ->
  vaddr c + n * page_size c < W64 -> paddr c + n * page_size c < W64 -> n * page_size c <= 2 ^ 48 ->
  exists r m pages d, map_into rt c (wadd (vaddr c) (n * page_size c)) (wadd (paddr c) (n * page_size c)) s = Done (r, set_table_pages pages (set_pte_mem m s)) /\
    pt_wf m rt pages /\ mapped_prefix rt c n (pte_mem s) d m /\ match r with Ok _ => d = n * page_size c | Err _ => d < n * page_size c end.
Proof.
  intros Hwf Hc Hal Hn Hv Hp Hl. pose proof (size_pos c Hc) as Hs. pose proof (cfg_vaddr _ Hc) as Hv0. pose proof (cfg_paddr _ Hc) as Hp0. unfold is_u64 in *.
  destruct (map_address_range_spec (P := FrameAllocator) rt c n (pte_mem s) Hc Hal Hn Hv Hp Hl (table_pages s) Hwf) as (r & E & m & pages & res & d & -> & Hwf' & Hpre & Hres).
  unfold map_into. rewrite !wadd_small by nia. rewrite E. by exists res, m, pages, d.
Qed.

(** ** What a process sees *)

Definition proc_byte (rt : RootTable) (s : Vm) (va : Z) : option Z :=
  match virt_to_phys (pte_mem s) rt va with Done (Some pa) => Some (byte_at (phys_mem s) pa) | _ => None end.

Lemma sees_mapped rt v p d m0 s i :
  range_mapped rt v p d m0 (pte_mem s) -> 0 <= v -> 0 <= i < d -> d <= 2 ^ 48 -> v + d <= W64 ->
  proc_byte rt s (v + i) = Some (byte_at (phys_mem s) (p + i)).
Proof.
  intros Hm Hv Hi Hd Hw. unfold proc_byte. rewrite (Hm (v + i)) by (unfold is_u64; lia).
  assert (off v (v + i) = i) as -> by (unfold off; rewrite Z.mod_small; lia). by rewrite decide_True by lia.
Qed.

(** ** A frame from a pool *)

(** An allocator whose blocks cannot merge past its largest class. *)
Definition pool_wf (fa : FrameAllocator) : Prop := fa_wf fa /\ total fa < 2 ^ Z.of_nat (length (free_list fa)).

(** A block just handed out can be taken back. *)
Lemma alloc_owned fa k fa' p :
  pool_wf fa -> (k < 64)%nat -> alloc_power_of_two fa (2 ^ Z.of_nat k) = (fa', Some p) -> pool_wf fa' /\ owned_block fa' k p.
Proof.
  intros [Hwf Hcap] Hk E. pose proof (alloc_pow2_ok fa k Hwf Hk) as H. rewrite E in H.
  destruct H as (Hwf' & (_ & Hlen & Hc & Hu) & Hok & Ha & Ht & _). pose proof (fa_units _ Hwf). pose proof (fa_alloc _ Hwf).
  split; [split; [done | by rewrite Ht, <- Hlen] |]. split_and!; [| done | | lia].
  - destruct (decide (k < length (free_list fa'))%nat) as [| Hge]; [done |].
    assert (2 ^ Z.of_nat (length (free_list fa)) <= 2 ^ Z.of_nat k) by (apply Z.pow_le_mono_r; lia).
    pose proof (units_from_nonneg 0 (free_list fa')) as Hnn. fold (free_units (free_list fa')) in Hnn. lia.
  - intros x Hx. pose proof (adds_free _ _ k p x (fa_lists _ Hwf) Hc) as [_ Hnone]. unfold is_free. specialize (Hnone Hx). lia.
Qed.

Lemma pool_alloc fa size a :
  pool_wf fa -> 0 <= size <= 2 ^ 62 -> 0 <= a < 63 ->
  let l := mkLayout size (2 ^ a) in
  match alloc_aligned fa l with
  | (fa', None) => fa' = fa
  | (fa', Some pa) => pool_wf fa' /\ pool_wf (dealloc_aligned fa' pa l) /\ 0 <= pa /\ (2 ^ a | pa) /\ size <= layout_size l /\
      spec_alloc (is_free fa) (layout_size l) (Some pa) (is_free fa') /\
      (forall x, is_free (dealloc_aligned fa' pa l) x <-> is_free fa x)
  end.
Proof.
  intros Hpool Hs Ha l. pose proof Hpool as [Hwf Hcap]. assert (layout_ok l) as Hl by (split; [simpl; lia | exists a; split; [lia | done]]).
  destruct (layout_size_spec l Hl) as (k & Hk & Ek & Hle). destruct (alloc_aligned fa l) as [fa' [pa |]] eqn:E.
  - pose proof (alloc_dealloc_roundtrip fa l fa' pa Hwf Hl Hcap E) as [Hback _]. unfold alloc_aligned in E. rewrite Ek in E.
    destruct (alloc_owned fa k fa' pa Hpool Hk E) as [Hpool' Hown]. destruct (alloc_spec fa k fa' (Some pa) Hwf Hk E) as [_ Hsp].
    split_and!; try done; [| by destruct Hsp | | by rewrite Ek | by rewrite Ek].
    + unfold dealloc_aligned. rewrite Ek. destruct (dealloc_pow2_ok fa' k pa (proj1 Hpool') Hown (proj2 Hpool')) as (Hw & (_ & Hlen & _) & _ & Ht).
      split; [done |]. rewrite Ht, Hlen. apply Hpool'.
    + destruct Hsp as (_ & Hd & _). etransitivity; [| exact Hd]. assert (2 ^ a <= layout_size l) as Hge by (unfold layout_size; simpl; lia).
      rewrite Ek in Hge. apply Z.pow_le_mono_r_iff in Hge; [| lia | lia]. exists (2 ^ (Z.of_nat k - a)). rewrite <- Z.pow_add_r by lia. f_equal. lia.
  - unfold alloc_aligned in E. rewrite Ek in E. pose proof (alloc_pow2_ok fa k Hwf Hk) as H. rewrite E in H. by destruct H.
Qed.

(** ** Blocks held *)

(** The blocks [bl] of an allocator are out, and apart from each other and from what
    is free. *)
Record holds (fa : FrameAllocator) (bl : list (nat * Z)) : Prop := {
  ho_wf : pool_wf fa;
  ho_units : units_out bl <= allocated fa;
  ho_blocks : forall k p, (k, p) ∈ bl -> (k < length (free_list fa))%nat /\ block_ok k p;
  ho_disj : forall x, (cov (free_list fa) x + cov_out bl x <= 1)%nat;
}.

Definition in_blocks (bl : list (nat * Z)) (x : Z) : Prop := exists k p, (k, p) ∈ bl /\ p <= x < p + 2 ^ Z.of_nat k.

Lemma in_blocks_cov bl x : in_blocks bl x <-> cov_out bl x <> 0%nat.
Proof.
  split.
  - intros (k & p & Hin & Hx). pose proof (cov_out_elem bl k p x Hin Hx). lia.
  - intros Hc. induction bl as [| [k p] bl IH]; [done |]. cbn in Hc. destruct (decide (p <= x < p + 2 ^ Z.of_nat k)) as [Hx | Hx].
    + exists k, p. split; [by left | done].
    + rewrite (proj2 (in_block_0 k p x)) in Hc by done. destruct (IH Hc) as (k' & p' & Hin & Hx'). exists k', p'. split; [by right | done].
Qed.

Lemma in_blocks_app a b x : in_blocks (a ++ b) x <-> in_blocks a x \/ in_blocks b x.
Proof. rewrite !in_blocks_cov, cov_out_app. lia. Qed.

Lemma in_blocks_one k p x : in_blocks [(k, p)] x <-> p <= x < p + 2 ^ Z.of_nat k.
Proof. split; [intros (k' & p' & Hin & Hx); set_solver | intros Hx; exists k, p; set_solver]. Qed.

Lemma holds_none fa : pool_wf fa -> holds fa [].
Proof.
  intros Hw. split; [done | cbn; pose proof (fa_alloc _ (proj1 Hw)); lia | set_solver |]. intros x. cbn. pose proof (wf_disjoint _ (fa_lists _ (proj1 Hw)) x). lia.
Qed.

Lemma holds_alloc fa bl k fa' p : holds fa bl -> (k < 64)%nat -> alloc_power_of_two fa (2 ^ Z.of_nat k) = (fa', Some p) -> holds fa' (bl ++ [(k, p)]).
Proof.
  intros [Hw Hu Hb Hd] Hk E. destruct (alloc_owned fa k fa' p Hw Hk E) as [Hw' (Hk' & Hok & _)]. pose proof (alloc_pow2_ok fa k (proj1 Hw) Hk) as H. rewrite E in H.
  destruct H as (_ & (_ & Hl & Hc & _) & _ & Ha & _). split; [done | rewrite units_out_app, Ha; cbn; lia | | intros x; specialize (Hd x); rewrite Hc in Hd; rewrite cov_out_app; cbn; lia].
  intros k' p' [Hin | Hin%list_elem_of_singleton]%elem_of_app; [destruct (Hb k' p' Hin); split; [lia | done] | by injection Hin as -> ->].
Qed.

Lemma holds_free fa k p bl : holds fa ((k, p) :: bl) ->
  holds (dealloc_power_of_two fa p (2 ^ Z.of_nat k)) bl /\
  forall x, is_free (dealloc_power_of_two fa p (2 ^ Z.of_nat k)) x <-> is_free fa x \/ p <= x < p + 2 ^ Z.of_nat k.
Proof.
  intros [Hw Hu Hb Hd]. destruct (Hb k p) as [Hk Hok]; [by left |]. pose proof (units_out_nonneg bl).
  assert (owned_block fa k p) as Hown.
  { split_and!; [done | done | | cbn in Hu; lia]. intros x Hx Hf. specialize (Hd x). unfold is_free in Hf. cbn in Hd. rewrite (proj2 (in_block_1 k p x) Hx) in Hd. lia. }
  destruct (dealloc_pow2_ok fa k p (proj1 Hw) Hown (proj2 Hw)) as (Hwf' & (Hfl & Hl & Hc & _) & Ha & Ht). split.
  - split; [split; [done |]; rewrite Ht, Hl; apply Hw | cbn in Hu; lia | intros k' p' Hin; rewrite Hl; apply Hb; by right | intros x; specialize (Hd x); cbn in Hd; rewrite Hc; lia].
  - intros x. apply (adds_free _ _ k p x Hfl Hc).
Qed.

Lemma holds_perm fa bl bl' : bl ≡ₚ bl' -> holds fa bl -> holds fa bl'.
Proof.
  intros Hp [Hw Hu Hb Hd]. assert (units_out bl' = units_out bl /\ forall x, cov_out bl' x = cov_out bl x) as [Eu Ec].
  { clear -Hp. induction Hp as [| [k p] l l' _ [IHu IHc] | [k p] [k' p'] l | l l' l'' _ [IH1 IH1'] _ [IH2 IH2']]; cbn; [done | | |].
    - split; [lia | intros x; by rewrite IHc].
    - split; [lia | intros x; lia].
    - split; [lia | intros x; by rewrite IH2', IH1']. }
  split; [done | by rewrite Eu | intros k p Hin; apply Hb; by rewrite Hp | intros x; by rewrite Ec].
Qed.

(** The order of the blocks does not matter. *)
#[global] Instance holds_proper fa : Proper ((≡ₚ) ==> iff) (holds fa).
Proof. intros bl bl' Hp. split; by apply holds_perm. Qed.

(** The block behind a frame. *)
Definition block_of (b : PhysBacking) : nat * Z := (Z.to_nat (Z.log2 (layout_size (backing_layout b))), backing_pa b).

(** ** The outcome of a request *)

Definition user_half (va : Z) : Prop := 0 <= va < 2 ^ 47.

(** What the handlers rely on between calls. *)
Record vm_ok (rt : RootTable) (s : Vm) : Prop := {
  vo_kernel : pool_wf (kernel_pages s);
  vo_user : pool_wf (user_pages s);
  vo_low : forall x, is_free (kernel_pages s) x \/ is_free (user_pages s) x -> x < 2 ^ 56;
  vo_apart : forall x, ~ (is_free (kernel_pages s) x /\ is_free (user_pages s) x);
  vo_tables : pt_wf (pte_mem s) rt (table_pages s);
}.

(** A request as the system call leaves it, that asks for some access, is not empty,
    and fits the window when it is private. *)
Record req_ok (req : MemMapReq) : Prop := {
  rq_range : (if mm_share_with_kernel req then user_shared_range_ok else user_priv_range_ok) (mm_vaddr req) (mm_size req) = true;
  rq_perms : Z.land (mm_page_permissions req) 0xE <> 0;
  rq_size : 0 < mm_size req;
  rq_window : mm_share_with_kernel req = false -> mm_size req <= KSCRATCH_SIZE;
}.

Definition pool_of (b : PhysBacking) (s : Vm) : FrameAllocator :=
  match b with BShared _ _ => kernel_pages s | BUser _ _ => user_pages s end.
Definition other_pool (b : PhysBacking) (s : Vm) : FrameAllocator :=
  match b with BShared _ _ => user_pages s | BUser _ _ => kernel_pages s end.

(** The block of [b], wholly free in [s]. *)
Definition fresh_block (b : PhysBacking) (s : Vm) : Prop :=
  forall x, backing_pa b <= x < backing_pa b + layout_size (backing_layout b) -> is_free (pool_of b s) x.

Definition taken (b : PhysBacking) (s s' : Vm) : Prop :=
  (forall x, is_free (pool_of b s') x <-> is_free (pool_of b s) x /\ ~ (backing_pa b <= x < backing_pa b + layout_size (backing_layout b))) /\
  other_pool b s' = other_pool b s.

Definition given_back (s s' : Vm) : Prop :=
  forall x, (is_free (kernel_pages s') x <-> is_free (kernel_pages s) x) /\ (is_free (user_pages s') x <-> is_free (user_pages s) x).

Definition pools_wf (s : Vm) : Prop := pool_wf (kernel_pages s) /\ pool_wf (user_pages s).

(** The first [d] bytes of the request show the frame, and showed nothing before. *)
Definition shows (rt : RootTable) (req : MemMapReq) (b : PhysBacking) (d : Z) (s s' : Vm) : Prop :=
  range_mapped rt (mm_vaddr req) (backing_pa b) d (pte_mem s) (pte_mem s') /\
  (forall va, is_u64 va -> off (mm_vaddr req) va < d -> virt_to_phys (pte_mem s) rt va = Done None).

Definition zeroed (b : PhysBacking) (n : Z) (s s' : Vm) : Prop :=
  forall a, byte_at (phys_mem s') a = if decide (backing_pa b <= a < backing_pa b + n) then 0 else byte_at (phys_mem s) a.

Inductive mmap_outcome (rt : RootTable) (req : MemMapReq) (pid : Z) (s : Vm) : Z -> Vm -> Prop :=
| mo_misaligned : select_mapping_geometry (mm_vaddr req) (mm_size req) = None -> mmap_outcome rt req pid s (to_ret errno.EINVAL) s
| mo_no_frame : mmap_outcome rt req pid s (to_ret errno.ENOMEM) s
| mo_stopped g b d s' :
    select_mapping_geometry (mm_vaddr req) (mm_size req) = Some g -> 0 <= d < mm_size req -> (geo_align g | d) ->
    fresh_block b s -> given_back s s' -> shows rt req b d s s' -> heap_pages s' = heap_pages s ->
    mmap_outcome rt req pid s (to_ret errno.ENOMEM) s'
| mo_orphan b s' :
    heap_pages s !! pid = None -> fresh_block b s -> given_back s s' -> shows rt req b (mm_size req) s s' ->
    mmap_outcome rt req pid s (to_ret errno.ESRCH) s'
| mo_mapped b l s' :
    heap_pages s !! pid = Some l -> heap_pages s' = <[pid := l ++ [b]]> (heap_pages s) ->
    (match b with BShared _ _ => true | BUser _ _ => false end) = mm_share_with_kernel req ->
    mm_size req <= layout_size (backing_layout b) -> fresh_block b s -> taken b s s' ->
    shows rt req b (mm_size req) s s' -> zeroed b (mm_size req) s s' ->
    mmap_outcome rt req pid s 0 s'.

Lemma zero_bytes_at pa n m a : byte_at (zero_bytes pa n m) a = if decide (pa <= a < pa + n) then 0 else byte_at m a.
Proof.
  unfold byte_at, zero_bytes. rewrite map_lookup_filter. destruct (m !! a) as [x |] eqn:E; cbn [mbind option_bind]; [| by destruct (decide _)].
  destruct (decide (pa <= a < pa + n)) as [H | H].
  - rewrite option_guard_False; [done |]. simpl. tauto.
  - by rewrite option_guard_True.
Qed.

Lemma range_bounds req : req_ok req -> user_half (mm_vaddr req) /\ mm_vaddr req + mm_size req <= 2 ^ 47 /\ 0 < mm_size req.
Proof.
  intros [Hr _ Hs _]. unfold user_half. destruct (mm_share_with_kernel req); unfold user_shared_range_ok, user_priv_range_ok, checked_add in Hr;
    repeat case_match; try done; unfold UPROC_SHARED_BASE, UPROC_SHARED_END, UPROC_PRIV_BASE, UPROC_PRIV_END in *; simplify_eq; to_prop; lia.
Qed.

Lemma geometry_cases va size g : select_mapping_geometry va size = Some g ->
  exists a n, 12 <= a <= 21 /\ geo_align g = 2 ^ a /\ geo_align g = psize (4 - geo_levels g) /\ 3 <= geo_levels g <= 4 /\
    (geo_align g | va) /\ size = n * geo_align g.
Proof.
  unfold select_mapping_geometry. intros E.
  destruct ((va mod MEGAPAGE_SIZE =? 0) && (size mod MEGAPAGE_SIZE =? 0))%bool eqn:E1;
    [| destruct ((va mod PAGE_SIZE =? 0) && (size mod PAGE_SIZE =? 0))%bool eqn:E2; [| done]]; injection E as <-; to_prop; cbn [geo_align geo_levels].
  - exists 21, (size / MEGAPAGE_SIZE). split_and!; try done; [by apply Z.mod_divide |]. pose proof (Z.div_mod size MEGAPAGE_SIZE ltac:(done)). lia.
  - exists 12, (size / PAGE_SIZE). split_and!; try done; [by apply Z.mod_divide |]. pose proof (Z.div_mod size PAGE_SIZE ltac:(done)). lia.
Qed.

(** What a successful allocation gives a request. *)
Record backed (req : MemMapReq) (align : Z) (b : PhysBacking) (s s' : Vm) : Prop := {
  bk_kind : (match b with BShared _ _ => true | BUser _ _ => false end) = mm_share_with_kernel req;
  bk_layout : backing_layout b = mkLayout (mm_size req) align;
  bk_align : (align | backing_pa b);
  bk_pa : 0 <= backing_pa b /\ backing_pa b + mm_size req <= 2 ^ 56;
  bk_room : mm_size req <= layout_size (backing_layout b);
  bk_fresh : fresh_block b s;
  bk_taken : taken b s s';
  bk_back : forall s2, kernel_pages s2 = kernel_pages s' -> user_pages s2 = user_pages s' -> given_back s (free_backing b s2) /\ pools_wf (free_backing b s2);
  bk_pools : pools_wf s';
  bk_zero : zeroed b (mm_size req) s s';
  bk_same : pte_mem s' = pte_mem s /\ table_pages s' = table_pages s /\ heap_pages s' = heap_pages s;
}.

Lemma window_ok pa len : (PAGE_SIZE | pa) -> (PAGE_SIZE | len) -> 0 < len <= KSCRATCH_SIZE -> window pa len = Done tt.
Proof.
  intros H1%Z.mod_divide H2%Z.mod_divide Hl; [| done | done]. unfold window. rewrite H1. cbn [Z.eqb negb]. destruct (Z.leb_spec len 0); [lia |].
  unfold round_u64_up. rewrite H2. cbn [Z.eqb]. destruct (Z.ltb_spec KSCRATCH_SIZE len); [lia | done].
Qed.

(** A block of either pool, taken, and what taking it back gives. *)
Lemma pool_block rt s (shared : bool) size a :
  vm_ok rt s -> 0 < size <= 2 ^ 62 -> 0 <= a < 63 ->
  let l := mkLayout size (2 ^ a) in
  match alloc_aligned (if shared then kernel_pages s else user_pages s) l with
  | (fa, None) => fa = if shared then kernel_pages s else user_pages s
  | (fa, Some pa) =>
      let b := if shared then BShared pa l else BUser pa l in
      0 <= pa /\ pa + size <= 2 ^ 56 /\ (2 ^ a | pa) /\ size <= layout_size l /\ fresh_block b s /\
      forall s2, pool_of b s2 = fa -> other_pool b s2 = other_pool b s ->
        taken b s s2 /\ pools_wf s2 /\ given_back s (free_backing b s2) /\ pools_wf (free_backing b s2)
  end.
Proof.
  intros Hs Hsz Ha. pose proof (vo_kernel _ _ Hs) as Hk. pose proof (vo_user _ _ Hs) as Hu. cbv zeta.
  assert (pool_wf (if shared then kernel_pages s else user_pages s)) as Hp by (by destruct shared).
  pose proof (pool_alloc _ size a Hp ltac:(lia) Ha) as Hpa. cbv zeta in Hpa. destruct (alloc_aligned _ _) as [fa [pa |]]; [| done].
  destruct Hpa as (Hwf' & Hwf2 & H0 & Hd & Hle & Hsp & Hback). pose proof Hsp as (_ & _ & Hf & Hf').
  assert (pa + size <= 2 ^ 56) as Hlow.
  { assert (is_free (if shared then kernel_pages s else user_pages s) (pa + size - 1)) as Hx by (apply Hf; lia).
    assert (pa + size - 1 < 2 ^ 56); [| lia]. apply (vo_low _ _ Hs). destruct shared; tauto. }
  split_and!; try done; [by destruct shared |]. intros s2 E1 E2. destruct shared; cbn [pool_of other_pool free_backing] in *;
    (split_and!; [split; cbn; [intros x; rewrite E1; apply Hf' | done] | split; by rewrite ?E1, ?E2 | | split; cbn; by rewrite ?E1, ?E2]);
    intros x; cbn; rewrite ?E1, ?E2; split; try done; apply Hback.
Qed.

Lemma mmap_backing_spec rt req g s :
  vm_ok rt s -> req_ok req -> select_mapping_geometry (mm_vaddr req) (mm_size req) = Some g ->
  exists r s', mmap_backing (mm_share_with_kernel req) (mkLayout (mm_size req) (geo_align g)) s = Done (r, s') /\
    match r with None => s' = s | Some b => backed req (geo_align g) b s s' end.
Proof.
  intros Hs Hr Hg. destruct (range_bounds req Hr) as ([Hv _] & Hend & Hpos). destruct (geometry_cases _ _ _ Hg) as (a & n & Ha & Ea & _ & _ & Hva & En).
  assert ((PAGE_SIZE | geo_align g)) as Hpg by (rewrite Ea; exists (2 ^ (a - 12)); change PAGE_SIZE with (2 ^ 12); rewrite <- Z.pow_add_r by lia; f_equal; lia).
  pose proof (pool_block rt s (mm_share_with_kernel req) (mm_size req) a Hs ltac:(lia) ltac:(lia)) as Hp. cbv zeta in Hp.
  unfold mmap_backing. rewrite Ea. destruct (mm_share_with_kernel req) eqn:Esh.
  - destruct (alloc_aligned (kernel_pages s) _) as [fa [pa |]]; [| do 2 eexists; split; [done |]; subst fa; by destruct s].
    destruct Hp as (H0 & Hlow & Hd & Hsz & Hf & Hall). do 2 eexists. split; [done |]. edestruct Hall as (H1 & H2 & _); [| | split]; cbn [backing_pa backing_layout];
      try exact H1; try exact H2; try done; [| intros x; apply zero_bytes_at]. intros s2 E1 E2. by apply Hall.
  - destruct (alloc_aligned (user_pages s) _) as [fa [pa |]]; [| do 2 eexists; split; [done |]; subst fa; by destruct s].
    destruct Hp as (H0 & Hlow & Hd & Hsz & Hf & Hall).
    rewrite window_ok; [| by rewrite <- Ea in Hd; etransitivity | cbn [lsize]; rewrite En; by apply Z.divide_mul_r | cbn [lsize]; pose proof (rq_window _ Hr Esh); lia].
    cbn [pbind]. do 2 eexists. split; [done |]. edestruct Hall as (H1 & H2 & _); [| | split]; cbn [backing_pa backing_layout];
      try exact H1; try exact H2; try done; [| intros x; apply zero_bytes_at]. intros s2 E1 E2. by apply Hall.
Qed.

Lemma mmap_leaf perms : Z.land perms 0xE <> 0 -> is_leaf (perm_or_u64 PU (Z.land perms 0xE)) = true.
Proof.
  intros Hp. unfold is_leaf, perm_or_u64. rewrite Z.land_lor_distr_l, <- Z.land_assoc.
  change (Z.land (perm_bits PU) 14) with 0. change (Z.land 14 14) with 14. rewrite Z.lor_0_l.
  apply Z.ltb_lt. assert (0 <= Z.land perms 14); [| lia]. apply Z.land_nonneg. by right.
Qed.

(** The request, mapped at its frame. *)
Lemma map_into_spec rt req g b s s1 :
  vm_ok rt s -> req_ok req -> select_mapping_geometry (mm_vaddr req) (mm_size req) = Some g -> backed req (geo_align g) b s s1 ->
  exists r s2 d, map_into rt (mmap_config req g (backing_pa b)) (wadd (mm_vaddr req) (mm_size req)) (wadd (backing_pa b) (mm_size req)) s1 = Done (r, s2) /\
    pt_wf (pte_mem s2) rt (table_pages s2) /\ 0 <= d <= mm_size req /\ (geo_align g | d) /\ shows rt req b d s s2 /\
    (kernel_pages s2 = kernel_pages s1 /\ user_pages s2 = user_pages s1 /\ phys_mem s2 = phys_mem s1 /\ heap_pages s2 = heap_pages s1) /\
    match r with Ok _ => d = mm_size req | Err _ => d < mm_size req end.
Proof.
  intros Hs Hr Hg Hb. destruct (range_bounds req Hr) as ([Hv _] & Hend & Hpos). destruct (geometry_cases _ _ _ Hg) as (a & n & Ha & Ea & Eps & Hlv & Hva & En).
  pose proof (bk_pa _ _ _ _ _ Hb) as [Hp0 Hp1]. destruct (bk_same _ _ _ _ _ Hb) as (Em & Et & _). set (c := mmap_config req g (backing_pa b)).
  assert (page_size c = geo_align g) as Eg by done. assert (0 < geo_align g) as Hgp by (rewrite Ea; apply pow2_bounds; lia).
  assert (config_ok c) as Hc.
  { split; cbn; try lia; [unfold is_u64, W64; lia | unfold is_u64, W64; lia | apply mmap_leaf, Hr]. }
  assert (cfg_aligned c) as Hal by (split; [apply Hb | done]).
  destruct (map_into_range rt c n s1) as (r & m & pages & d & E & Hwf & (Hd & Hdv & Hm & Hnew & _) & Hres);
    [rewrite Em, Et; apply Hs | done | done | nia | rewrite Eg, <- En; cbn; unfold W64; lia | rewrite Eg, <- En; cbn; unfold W64; lia | rewrite Eg, <- En; lia |].
  rewrite Eg in *. rewrite <- En in *. rewrite Em in *. change (mm_vaddr req) with (vaddr c). change (backing_pa b) with (paddr c).
  rewrite E. exists r, (set_table_pages pages (set_pte_mem m s1)), d. split; [done |]. split_and!; try done; try lia.
Qed.

Lemma mmap_returns rt req pid s :
  vm_ok rt s -> req_ok req ->
  exists ret s', run_mmap_req rt req pid s = Done (ret, s') /\ (pt_wf (pte_mem s') rt (table_pages s') /\ pools_wf s') /\ mmap_outcome rt req pid s ret s'.
Proof.
  intros Hs Hr. assert (pools_wf s) as Hpw by (split; apply Hs).
  unfold run_mmap_req. destruct (select_mapping_geometry _ _) as [g |] eqn:Hg; [| do 2 eexists; split; [done |]; split; [split; [apply Hs | done] | by apply mo_misaligned]].
  destruct (range_bounds req Hr) as ([Hv _] & Hend & Hpos). destruct (geometry_cases _ _ _ Hg) as (a & n & Ha & Ea & _).
  assert (layout_from_size_align (mm_size req) (geo_align g) = Some (mkLayout (mm_size req) (geo_align g))) as ->.
  { unfold layout_from_size_align. assert (is_power_of_two (geo_align g) = true) as ->.
    { revert Hg. unfold select_mapping_geometry. repeat case_match; try done; by intros [= <-]. }
    assert (geo_align g <= 2 ^ 21) by (rewrite Ea; apply Z.pow_le_mono_r; lia). destruct (Z.leb_spec (mm_size req) (2 ^ 63 - geo_align g)); [done | lia]. }
  destruct (mmap_backing_spec rt req g s Hs Hr Hg) as (ob & s1 & -> & Hb). cbn [pbind].
  destruct ob as [b |]; [| subst s1; do 2 eexists; split; [done |]; split; [split; [apply Hs | done] | apply mo_no_frame]].
  destruct (map_into_spec rt req g b s s1 Hs Hr Hg Hb) as (r & s2 & d & -> & Hwf & Hd & Hdv & Hsh & (Ek & Eu & Ep & Eh) & Hres). cbn [pbind].
  pose proof (bk_same _ _ _ _ _ Hb) as (_ & _ & Eh1). destruct r as [u | e].
  - subst d. rewrite Eh, Eh1. destruct (heap_pages s !! pid) as [l |] eqn:El.
    + do 2 eexists. split; [done |]. split; [split; [done |]; unfold pools_wf; cbn; rewrite Ek, Eu; apply Hb |]. eapply (mo_mapped _ _ _ _ b l); try done; try apply Hb.
      * destruct (bk_taken _ _ _ _ _ Hb) as [H1 H2]. unfold taken in *. destruct b; cbn in *; rewrite ?Ek, ?Eu; done.
      * unfold zeroed. cbn [set_heap_pages phys_mem]. rewrite Ep. apply Hb.
    + do 2 eexists. split; [done |]. split; [split; [by destruct b | by apply Hb] |]. eapply (mo_orphan _ _ _ _ b); try done; [apply Hb | by apply Hb | by destruct b].
  - do 2 eexists. split; [done |]. split; [split; [by destruct b | by apply Hb] |].
    eapply (mo_stopped _ _ _ _ g b d); try done; [lia | apply Hb | by apply Hb | by destruct b | destruct b; cbn; congruence].
Qed.

(** ** Frames of whole pages, in the kernel's pool *)

Lemma layout_page size : 0 <= size <= 2 ^ 62 -> layout_from_size_align size PAGE_SIZE = Some (mkLayout size PAGE_SIZE).
Proof.
  intros Hs. unfold layout_from_size_align. change (is_power_of_two PAGE_SIZE) with true. cbn [andb].
  destruct (Z.leb_spec size (2 ^ 63 - PAGE_SIZE)); [done |]. unfold PAGE_SIZE in *. lia.
Qed.

(** The kernel's pool after a failure: untouched, or with a block taken and put back. *)
Definition returned (v v' : Vm) : Prop :=
  kernel_pages v' = kernel_pages v \/
  exists size fa pa, 0 <= size <= 2 ^ 62 /\ alloc_aligned (kernel_pages v) (mkLayout size PAGE_SIZE) = (fa, Some pa) /\
    kernel_pages v' = dealloc_aligned fa pa (mkLayout size PAGE_SIZE).

(** The block of a page-aligned frame. *)
Lemma page_layout size : 0 <= size <= 2 ^ 62 ->
  exists k, (k < 64)%nat /\ layout_size (mkLayout size PAGE_SIZE) = 2 ^ Z.of_nat k /\ size <= 2 ^ Z.of_nat k /\ forall pa, block_of (BShared pa (mkLayout size PAGE_SIZE)) = (k, pa).
Proof.
  intros Hs. assert (layout_ok (mkLayout size PAGE_SIZE)) as Hl by (split; [cbn; lia | exists 12; split; [lia | done]]).
  destruct (layout_size_spec _ Hl) as (k & Hk & Ek & Hle). exists k. split_and!; try done. intros pa. unfold block_of. cbn [backing_layout backing_pa]. rewrite Ek, Z.log2_pow2 by lia. by rewrite Nat2Z.id.
Qed.

Lemma holds_returned v v' bl : holds (kernel_pages v) bl -> returned v v' -> holds (kernel_pages v') bl.
Proof.
  intros Hh [-> | (size & fa & pa & Hs & Ea & ->)]; [done |]. destruct (page_layout size Hs) as (k & Hk & Ek & _ & _).
  unfold alloc_aligned in Ea. unfold dealloc_aligned. rewrite Ek in *.
  apply (holds_free fa k pa bl). eapply holds_perm; [| by eapply holds_alloc]. symmetry. apply Permutation_cons_append.
Qed.

(** ** What a process can reach *)

(** No address of the user half leads to a frame that a pool holds free. *)
Definition no_dangling (rt : RootTable) (s : Vm) : Prop :=
  forall va pa, user_half va -> virt_to_phys (pte_mem s) rt va = Done (Some pa) -> ~ is_free (kernel_pages s) pa /\ ~ is_free (user_pages s) pa.

Lemma outcome_frees rt req pid s ret s' :
  mmap_outcome rt req pid s ret s' -> forall x, (is_free (kernel_pages s') x -> is_free (kernel_pages s) x) /\ (is_free (user_pages s') x -> is_free (user_pages s) x).
Proof.
  intros Ho x. destruct Ho as [| | g b d s' _ _ _ _ Hb _ _ | b s' _ _ Hb _ | b l s' _ _ _ _ _ [Ht Ho] _ _]; try done; [by destruct (Hb x) as [-> ->] .. |].
  destruct b; cbn in *; rewrite Ho; [split; [by intros [? _]%Ht | done] | split; [done | by intros [? _]%Ht]].
Qed.

Lemma vm_ok_mono rt s s' : vm_ok rt s -> pt_wf (pte_mem s') rt (table_pages s') -> pools_wf s' ->
  (forall x, (is_free (kernel_pages s') x -> is_free (kernel_pages s) x) /\ (is_free (user_pages s') x -> is_free (user_pages s) x)) -> vm_ok rt s'.
Proof.
  intros Hs Hpt [Hk Hu] Hf. split; try done.
  - intros x Hx. apply (vo_low _ _ Hs). destruct (Hf x). tauto.
  - intros x Hx. apply (vo_apart _ _ Hs x). destruct (Hf x). tauto.
Qed.

Lemma outcome_vm_ok rt req pid s ret s' :
  vm_ok rt s -> pt_wf (pte_mem s') rt (table_pages s') -> pools_wf s' -> mmap_outcome rt req pid s ret s' -> vm_ok rt s'.
Proof. intros Hs Hpt Hpw Ho. eapply vm_ok_mono; try done. by eapply outcome_frees. Qed.

(** A frame shown is not free when its block was taken. *)
Lemma shown_taken rt b s s' pa :
  vm_ok rt s -> fresh_block b s -> taken b s s' -> backing_pa b <= pa < backing_pa b + layout_size (backing_layout b) ->
  ~ is_free (kernel_pages s') pa /\ ~ is_free (user_pages s') pa.
Proof.
  intros Hs Hf [Ht Ho] Hpa. specialize (Hf pa Hpa). pose proof (vo_apart _ _ Hs pa) as Hap.
  destruct b; cbn in *; rewrite Ho, Ht; tauto.
Qed.

Lemma outcome_no_dangling rt req pid s ret s' :
  vm_ok rt s -> req_ok req -> no_dangling rt s -> mmap_outcome rt req pid s ret s' -> is_Some (heap_pages s !! pid) ->
  (ret = to_ret errno.ENOMEM -> exists g, select_mapping_geometry (mm_vaddr req) (mm_size req) = Some g /\ mm_size req = geo_align g) -> no_dangling rt s'.
Proof.
  intros Hs Hr Hn Ho Hp H1. pose proof (outcome_frees _ _ _ _ _ _ Ho) as Hfr.
  assert (forall va pa, user_half va -> virt_to_phys (pte_mem s) rt va = Done (Some pa) -> ~ is_free (kernel_pages s') pa /\ ~ is_free (user_pages s') pa) as Hold.
  { intros va pa Hva E. destruct (Hn va pa Hva E), (Hfr pa). tauto. }
  destruct Ho as [| | g b d s' Hg Hd Hdv _ _ [Hm _] _ | b s' Hno _ _ _ | b l s' _ _ _ Hsz Hf Ht [Hm _] _]; [done | done | | by rewrite Hno in Hp; destruct Hp |].
  - destruct (H1 eq_refl) as (g' & Hg' & Esz). rewrite Hg in Hg'. injection Hg' as <-. assert (d = 0) as ->.
    { destruct Hdv as [k ->]. rewrite Esz in Hd. assert (0 < geo_align g) by (pose proof (rq_size _ Hr); lia). assert (k = 0) by nia. lia. }
    intros va pa Hva E. rewrite (Hm va) in E by (destruct Hva; unfold is_u64, W64; lia). pose proof (off_range (mm_vaddr req) va). rewrite decide_False in E by lia.
    by apply Hold with va.
  - intros va pa Hva E. rewrite (Hm va) in E by (destruct Hva; unfold is_u64, W64; lia). destruct (decide _) as [Ho | _]; [| by apply Hold with va].
    injection E as <-. pose proof (off_range (mm_vaddr req) va). apply (shown_taken rt b s s'); try done. lia.
Qed.


(** ** The window's limits

    A private request is zeroed through a window, which refuses an empty span and one
    of more than 32 MiB by an assertion; the system call checks neither. *)

Lemma private_window_panics rt req pid s g fa pa :
  mm_share_with_kernel req = false -> select_mapping_geometry (mm_vaddr req) (mm_size req) = Some g ->
  alloc_aligned (user_pages s) (mkLayout (mm_size req) (geo_align g)) = (fa, Some pa) -> 0 <= mm_size req <= 2 ^ 47 ->
  mm_size req = 0 \/ KSCRATCH_SIZE < mm_size req -> run_mmap_req rt req pid s = Panic.
Proof.
  intros Hsh Hg Ha Hs Hbad. unfold run_mmap_req. rewrite Hg. destruct (geometry_cases _ _ _ Hg) as (a & n & Hrange & Ea & _ & _ & _ & En).
  assert (layout_from_size_align (mm_size req) (geo_align g) = Some (mkLayout (mm_size req) (geo_align g))) as ->.
  { unfold layout_from_size_align. assert (is_power_of_two (geo_align g) = true) as ->.
    { revert Hg. unfold select_mapping_geometry. repeat case_match; try done; by intros [= <-]. }
    assert (geo_align g <= 2 ^ 21) by (rewrite Ea; apply Z.pow_le_mono_r; lia). destruct (Z.leb_spec (mm_size req) (2 ^ 63 - geo_align g)); [done | lia]. }
  unfold mmap_backing. rewrite Hsh, Ha. cbn [lsize]. assert (window pa (mm_size req) = Panic) as ->; [| done].
  unfold window. destruct (negb _); [done |]. destruct (Z.leb_spec (mm_size req) 0); [done |]. destruct Hbad as [? | Hbig]; [lia |].
  assert ((PAGE_SIZE | mm_size req)) as Hd.
  { rewrite En. apply Z.divide_mul_r. rewrite Ea. exists (2 ^ (a - 12)). change PAGE_SIZE with (2 ^ 12). rewrite <- Z.pow_add_r by lia. f_equal. lia. }
  apply Z.mod_divide in Hd; [| done]. unfold round_u64_up. rewrite Hd. cbn [Z.eqb]. by destruct (Z.ltb_spec KSCRATCH_SIZE (mm_size req)); [| lia].
Qed.

(** A user program can stop the kernel: [mmap] of no bytes, or of more than 32 MiB,
    at the base of the private range passes every check of the system call, and the
    manager panics when it serves it, as soon as the pool can back it. *)
Theorem mmap_stops_kernel {H} `{Hardware H} (t : Thread) (f : TrapFrame) (hw hw' : H) rt s len fa pa :
  reg f 11 = UPROC_PRIV_BASE -> reg f 12 = len -> reg f 14 = 0 ->
  len = 0 \/ (KSCRATCH_SIZE < len <= 2 ^ 40 /\ (MEGAPAGE_SIZE | len)) ->
  let req := mkMemMapReq UPROC_PRIV_BASE len (reg f 13) false in
  alloc_aligned (user_pages s) (mkLayout len MEGAPAGE_SIZE) = (fa, Some pa) ->
  push_pending_work hw (MemMap req (t_pid t) (root_table_addr t) (t_tid t)) = (hw', true) ->
  mmap_req t f hw = (ParkForPublish, hw') /\ run_mmap_req rt req (t_pid t) s = Panic.
Proof.
  intros H11 H12 H14 Hlen req Ha Hpush. assert (0 <= len <= 2 ^ 40 /\ len mod MEGAPAGE_SIZE = 0) as [Hr Hm].
  { destruct Hlen as [-> | [? Hd]]; [by split |]. split; [unfold KSCRATCH_SIZE, MB, KB in *; lia | by apply Z.mod_divide]. }
  split.
  - unfold mmap_req, with_user_va. rewrite H11, H12, H14. change (UserVa_new UPROC_PRIV_BASE) with (@Ok Z Z UPROC_PRIV_BASE). cbn [mm_share_with_kernel mm_vaddr mm_size].
    assert (user_priv_range_ok UPROC_PRIV_BASE len = true) as ->.
    { unfold user_priv_range_ok, checked_add. cbn [Z.ltb UPROC_PRIV_BASE]. destruct (Z.ltb_spec (UPROC_PRIV_BASE + len) W64) as [? | Hge]; [| unfold W64, UPROC_PRIV_BASE in Hge; lia].
      apply Z.leb_le. unfold UPROC_PRIV_BASE, UPROC_PRIV_END in *. lia. }
    cbn [negb andb Z.ltb]. unfold park_on_manager. change (mkMemMapReq _ _ _ _) with req. by rewrite Hpush.
  - apply (private_window_panics rt req (t_pid t) s (mkGeometry MEGAPAGE_SIZE 3) fa pa); try done; [| cbn; lia | cbn; tauto].
    unfold select_mapping_geometry. cbn [mm_vaddr mm_size req]. by rewrite Hm.
Qed.

(** ** A process of its own *)

Section scenario.

#[local] Instance is_free_dec fa x : Decision (is_free fa x).
Proof. unfold is_free. apply _. Defined.

Definition pool (lo hi : Z) : FrameAllocator := match add_frame (new 33) lo hi with Some (Done fa) => fa | _ => new 33 end.

Lemma empty_pool_wf : fa_wf (new 33).
Proof. exact (hi_wf _ _ _ (reach_inv _ _ _ (reach_new 33 ltac:(lia)))). Qed.

Lemma new_free x : ~ is_free (new 33) x.
Proof. unfold is_free, cov. vm_compute. lia. Qed.

Lemma pool_spec lo hi : 0 <= lo <= hi -> hi < 2 ^ 33 -> pool_wf (pool lo hi) /\ forall x, is_free (pool lo hi) x <-> lo <= x < hi.
Proof.
  intros Hlo Hhi. destruct (add_frame_ok (new 33) lo hi empty_pool_wf Hlo) as (fa & E & Hwf & Hlen & Hc & _ & Ht);
    [unfold W64; lia | cbn; unfold W64; lia | intros x _; apply new_free |].
  unfold pool. rewrite E. split.
  - split; [done |]. rewrite Ht, Hlen. cbn. lia.
  - intros x. unfold is_free. rewrite Hc, <- in_range_in. assert (cov (free_list (new 33)) x = 0%nat) as -> by (by vm_compute). lia.
Qed.

(** Memory for the kernel, for users and for tables, and an empty root. *)
Definition vm0 : Vm := mkVm (pool 0x82000000 0x84000000) (pool 0x84000000 0x8C000000) (pool 0x80201000 0x80300000) ∅ ∅ {[7 := []]}.

Lemma vm0_ok : vm_ok ex_rt vm0.
Proof.
  destruct (pool_spec 0x82000000 0x84000000) as [K1 K2]; [lia | lia |]. destruct (pool_spec 0x84000000 0x8C000000) as [U1 U2]; [lia | lia |].
  destruct (pool_spec 0x80201000 0x80300000) as [T1 T2]; [lia | lia |].
  split; cbn [kernel_pages user_pages table_pages pte_mem vm0]; [exact K1 | exact U1 | | |].
  - intros x. rewrite K2, U2. lia.
  - intros x. rewrite K2, U2. lia.
  - apply fresh_root_wf;
      [by vm_compute | by exists (0xFFC080200000 / 4096) | by vm_compute | by exists (0xFFC000000000 / 4096) | intros i _; by vm_compute | apply T1 | |].
    + intros x. cbn [psrc_free FrameAllocator_PageSource]. rewrite T2. lia.
    + cbn [psrc_free FrameAllocator_PageSource]. rewrite T2. vm_compute (wsub _ _). lia.
Qed.

Lemma vm0_no_dangling : no_dangling ex_rt vm0.
Proof.
  intros va pa Hva E. rewrite (virt_to_phys_none _ _ (table_pages vm0)) in E; [done | apply vm0_ok | destruct Hva; unfold is_u64, W64; lia |].
  intros l raw (_ & t & _ & Eraw & Hv & _). cbn [pte_mem vm0] in Eraw. unfold PageTable.entry, load in Eraw. rewrite lookup_empty in Eraw. subst raw. done.
Qed.

(** A page, and then a range of two pages that runs into it. *)
Definition one_page : MemMapReq := mkMemMapReq (UPROC_SHARED_BASE + PAGE_SIZE) PAGE_SIZE 0x6 true.
Definition two_pages : MemMapReq := mkMemMapReq UPROC_SHARED_BASE (2 * PAGE_SIZE) 0x6 true.

Definition after_mmap (req : MemMapReq) (s : Vm) : Vm := match run_mmap_req ex_rt req 7 s with Done (_, s') => s' | Panic => s end.

Lemma mmap_run req s ret : match run_mmap_req ex_rt req 7 s with Done (c, _) => c =? ret | Panic => false end = true -> run_mmap_req ex_rt req 7 s = Done (ret, after_mmap req s).
Proof. unfold after_mmap. destruct (run_mmap_req ex_rt req 7 s) as [[c s'] |]; [| done]. by intros ->%Z.eqb_eq. Qed.

(** A failed request leaves a process with memory that is not its own. [map_address_range]
    stops at a page that is already mapped and keeps the pages before it; the manager
    then frees the frame without unmapping them. The process still reads and writes the
    frame, which the kernel's pool hands out next. *)
Theorem mmap_overlap_dangles : exists s1 s2 pa fa, req_ok one_page /\ req_ok two_pages /\
  run_mmap_req ex_rt one_page 7 vm0 = Done (0, s1) /\ run_mmap_req ex_rt two_pages 7 s1 = Done (to_ret errno.ENOMEM, s2) /\
  virt_to_phys (pte_mem s2) ex_rt (mm_vaddr two_pages) = Done (Some pa) /\ is_free (kernel_pages s2) pa /\
  alloc_aligned (kernel_pages s2) (mkLayout (2 * PAGE_SIZE) PAGE_SIZE) = (fa, Some pa).
Proof.
  exists (after_mmap one_page vm0), (after_mmap two_pages (after_mmap one_page vm0)), 0x82002000. eexists. split_and!;
    [by split | by split | apply mmap_run; by vm_compute | apply mmap_run; by vm_compute | by vm_compute | by vm_compute | vm_compute; reflexivity].
Qed.

(** A large page without any access. *)
Definition no_access : MemMapReq := mkMemMapReq UPROC_SHARED_BASE MEGAPAGE_SIZE 0 true.

(** A mapping that asks for no access becomes a page table: an entry without R, W and X
    is a pointer to a table, and the frame it points to is the process's. When the
    process ends the frame is freed twice, to the pool of pages and to that of tables,
    and both own it. *)
Theorem mmap_no_access_table : exists s1 s2 pa,
  (if mm_share_with_kernel no_access then user_shared_range_ok else user_priv_range_ok) (mm_vaddr no_access) (mm_size no_access) = true /\
  run_mmap_req ex_rt no_access 7 vm0 = Done (0, s1) /\ release_memory ex_rt 0x80200000 7 s1 = Some s2 /\
  is_free (kernel_pages s2) pa /\ is_free (table_pages s2) pa.
Proof.
  assert (match release_memory ex_rt 0x80200000 7 (after_mmap no_access vm0) with
          | Some s => bool_decide (is_free (kernel_pages s) 0x82000000 /\ is_free (table_pages s) 0x82000000)
          | None => false
          end = true) as H by (by vm_compute).
  exists (after_mmap no_access vm0). destruct (release_memory ex_rt 0x80200000 7 (after_mmap no_access vm0)) as [s2 |]; [| discriminate H].
  apply bool_decide_eq_true in H as [H1 H2]. exists s2, 0x82000000. split_and!; [by vm_compute | apply mmap_run; by vm_compute | done | exact H1 | exact H2].
Qed.


(** A machine that only records the work pushed to the manager. *)
#[local] Instance recorder : Hardware (list PendingWork) := {
  now_ticks _ := 0; ticks_per_ms _ := 1; user_va_translates _ _ _ := true; copy_from_user _ _ _ := Done [];
  serial_write_user h _ _ _ := (h, true); console_write_user h _ _ := (h, true); hw_wake_hart h _ := h;
  push_pending_work h w := (h ++ [w], true); read_stdin_drain h _ _ _ := Done (h, 0); park_stdin_reader h _ _ := (h, true);
  unpark_stdin_reader h _ := (h, true); read_key_events_drain h _ _ _ := Done (h, 0); set_key_event_parker h _ _ := (h, Installed);
  clear_key_event_parker_if h _ _ := (h, true);
}.

Definition empty_mmap : TrapFrame := mkTrapFrame (replicate 11 0 ++ [UPROC_PRIV_BASE] ++ replicate 20 0) (replicate 32 0) 0 0.

Lemma mmap_stops_kernel_witness : exists hw', mmap_req sample empty_mmap ([] : list PendingWork) = (ParkForPublish, hw') /\
  run_mmap_req ex_rt (mkMemMapReq UPROC_PRIV_BASE 0 0 false) (t_pid sample) vm0 = Panic.
Proof.
  eexists. eapply (mmap_stops_kernel sample empty_mmap [] _ ex_rt vm0 0); [reflexivity | reflexivity | reflexivity | by left | vm_compute; reflexivity | reflexivity].
Defined.
End scenario.
