(* ===== verification/Argv.v ===== *)
(** * Arguments and environment

    Models the blob of strings that a parent hands to a child:
    - [pack], [Argv::from_ptr] and [Argv::get] of [orbit-abi/src/argv.rs], which the
      environment shares;
    - [install_argv_envp_page] of [kmain/src/kernel/mod.rs], which copies the blob
      into a page, turns offsets into pointers and maps the page into the child.

    The child reads its memory through its page tables; a read that faults is [None].
    The flush of translations after the mapping is left out: the page was not mapped
    before. *)

From stdpp Require Import base list option numbers sets gmap.
From S2P Require Import Prelude Text Buddy Sv48 PageTable Translate Mapping Layout Abi Perms Thread Completion Work Syscall UserMem Mmap.
#[local] Open Scope Z_scope.

Definition ARGV_BLOB_MAX : Z := 4096.
Definition ARGV_HEADER_LEN : Z := 8.
Definition ARGV_OFFSETS_OFFSET : Z := ARGV_HEADER_LEN.
Definition argv_strings_offset (argc : Z) : Z := ARGV_OFFSETS_OFFSET + argc * 8.

(** ** The parent *)

Record ArgvHeader := mkArgvHeader { h_argc : Z; h_reserved : Z }.

Definition header_bytes (h : ArgvHeader) : list Z := le_bytes 4 (h_argc h) ++ le_bytes 4 (h_reserved h).

Fixpoint pack_args (i : nat) (cursor : nat) (args : list (list Z)) (out : list Z) : list Z :=
  match args with
  | [] => out
  | arg :: args =>
      let slot := (Z.to_nat ARGV_OFFSETS_OFFSET + i * 8)%nat in
      let out := write_at slot (le_bytes 8 (Z.of_nat cursor)) out in
      let out := write_at cursor arg out in
      let out := write_at (cursor + length arg) [0] out in
      pack_args (S i) (cursor + length arg + 1) args out
  end.

Definition strings_total (args : list (list Z)) : Z := foldr (fun a n => Z.of_nat (length a) + 1 + n) 0 args.

(** The number of bytes written, and the buffer. *)
Definition pack (args : list (list Z)) (out : list Z) : option (Z * list Z) :=
  let argc := Z.of_nat (length args) in
  let header_end := argv_strings_offset (as_u32 argc) in
  if Z.of_nat (length out) <? header_end then None
  else
    let total := header_end + strings_total args in
    if ((Z.of_nat (length out) <? total) || (ARGV_BLOB_MAX <? total))%bool then None
    else
      let out := write_at 0 (header_bytes (mkArgvHeader (as_u32 argc) 0)) out in
      Some (total, pack_args 0 (Z.to_nat header_end) args out).

(** ** The kernel *)

(** Offsets become pointers, in place; an offset past the blob stops the loop. *)
Fixpoint fix_slots (n i : nat) (blob_len target_va : Z) (page : list Z) : bool * list Z :=
  match n with
  | O => (true, page)
  | S n =>
      let slot := (Z.to_nat ARGV_OFFSETS_OFFSET + i * 8)%nat in
      let off := le_value (take 8 (drop slot page)) in
      if blob_len <=? off then (false, page)
      else fix_slots n (S i) blob_len target_va (write_at slot (le_bytes 8 (wadd target_va off)) page)
  end.

Definition blob_config (target_va pa : Z) : MappingConfig :=
  mkMappingConfig (perm_or PR PU) 4 PAGE_SIZE target_va pa false TagNone.

Fixpoint store_page (pa : Z) (page : list Z) (m : gmap Z Z) : gmap Z Z :=
  match page with [] => m | b :: page => store_page (pa + 1) page (<[pa := b]> m) end.

Section install.
(** The root tables of the processes alive. *)
Context (root_of : Z -> option RootTable).

Definition install_argv_envp_page (pid : Z) (blob : list Z) (target_va : Z) (s : Vm) : panics (result PhysBacking unit * Vm) :=
  let blob_len := Z.of_nat (length blob) in
  if PAGE_SIZE <? blob_len then Done (Err tt, s)
  else if blob_len <? ARGV_HEADER_LEN then Done (Err tt, s)
  else
    let argc := le_value (take 4 blob) in
    let strings_off := ARGV_OFFSETS_OFFSET + argc * 8 in
    if blob_len <? strings_off then Done (Err tt, s)
    else
      match alloc_aligned (kernel_pages s) TABLE_LAYOUT with
      | (fa, None) => Done (Err tt, set_kernel_pages fa s)
      | (fa, Some pa) =>
          let backing := BShared pa TABLE_LAYOUT in
          let '(ok, page) := fix_slots (Z.to_nat argc) 0 blob_len target_va (blob ++ replicate (Z.to_nat (PAGE_SIZE - blob_len)) 0) in
          let s := set_phys_mem (store_page pa page (phys_mem s)) (set_kernel_pages fa s) in
          if negb ok then Done (Err tt, free_backing backing s)
          else
            match root_of pid with
            | None => Done (Err tt, s)
            | Some rt =>
                r <-! map_into rt (blob_config target_va pa) (wadd target_va PAGE_SIZE) (wadd pa PAGE_SIZE) s ;;
                match r with
                | (Err _, s) => Done (Err tt, free_backing backing s)
                | (Ok _, s) => Done (Ok backing, s)
                end
            end
      end.
End install.

(** ** The child *)

Section child.
(** The bytes of the child's memory; [None] faults. *)
Context (rd : Z -> option Z).

Definition read_word (n va : Z) : option Z := le_value <$> mapM rd (seqZ va n).

Record Argv := mkArgv { a_argc : Z; a_argv : Z }.

(** A fault, [None] of the source, or a view. *)
Definition from_ptr (va : Z) : option (option Argv) :=
  argc ← read_word 4 va;
  _ ← read_word 4 (va + 4);
  if ARGV_BLOB_MAX <? argv_strings_offset argc then Some None else Some (Some (mkArgv argc (va + ARGV_OFFSETS_OFFSET))).

(** The walk to the NUL, of at most [n] bytes. *)
Fixpoint str_len (n : nat) (p : Z) : option Z :=
  match n with
  | O => Some 0
  | S n => b ← rd p; if b =? 0 then Some 0 else k ← str_len n (p + 1); Some (k + 1)
  end.

Definition get (a : Argv) (i : Z) : option (option (list Z)) :=
  if a_argc a <=? i then Some None
  else
    p ← read_word 8 (a_argv a + 8 * i);
    if p =? 0 then Some None
    else
      len ← str_len (Z.to_nat ARGV_BLOB_MAX) p;
      l ← mapM rd (seqZ p len);
      Some (Some l).
End child.

(** ** The layout of a blob *)

Definition is_byte (b : Z) : Prop := 0 <= b < 256.

Definition strings_of (args : list (list Z)) : list Z := concat ((fun a => a ++ [0]) <$> args).
Definition words (l : list Z) : list Z := concat (le_bytes 8 <$> l).

(** Where each string starts, when the first starts at [c]. *)
Fixpoint offsets_from (c : nat) (args : list (list Z)) : list Z :=
  match args with [] => [] | a :: args => Z.of_nat c :: offsets_from (c + length a + 1) args end.

Definition blob_of (args : list (list Z)) : list Z :=
  header_bytes (mkArgvHeader (Z.of_nat (length args)) 0) ++ words (offsets_from (8 + 8 * length args) args) ++ strings_of args.

Lemma words_len l : length (words l) = (8 * length l)%nat.
Proof. induction l as [| x l IH]; [done |]. unfold words. rewrite fmap_cons. cbn [concat]. rewrite length_app, le_bytes_length. fold (words l). rewrite IH. cbn [length]. lia. Qed.

Lemma words_cons x l : words (x :: l) = le_bytes 8 x ++ words l.
Proof. done. Qed.

Lemma words_app a b : words (a ++ b) = words a ++ words b.
Proof. unfold words. by rewrite fmap_app, concat_app. Qed.

Lemma strings_len args : Z.of_nat (length (strings_of args)) = strings_total args.
Proof.
  induction args as [| a args IH]; [done |]. unfold strings_of. rewrite fmap_cons. cbn [concat]. fold (strings_of args). rewrite !length_app. cbn [length strings_total foldr].
  fold (strings_total args). lia.
Qed.

Lemma offsets_len c args : length (offsets_from c args) = length args.
Proof. revert c. induction args as [| a args IH]; intros c; [done |]. cbn. by rewrite IH. Qed.

Lemma header_len h : length (header_bytes h) = 8%nat.
Proof. unfold header_bytes. by rewrite length_app, !le_bytes_length. Qed.

(** The loop writes its slots and its strings, and leaves the rest. *)
Lemma pack_args_spec args : forall (h slots strs rest : list Z) (done_ : list Z) (junk : list Z),
  length h = 8%nat -> length slots = (8 * length done_)%nat -> length junk = (8 * length args)%nat -> (length (strings_of args) <= length rest)%nat ->
  let cursor := length (h ++ slots ++ junk ++ strs) in
  pack_args (length done_) cursor args (h ++ slots ++ junk ++ strs ++ rest) =
    h ++ slots ++ words (offsets_from cursor args) ++ strs ++ strings_of args ++ drop (length (strings_of args)) rest.
Proof.
  induction args as [| a args IH]; intros h slots strs rest dn junk Hh Hs Hj Hr cursor.
  { destruct junk; [| done]. cbn [pack_args offsets_from words strings_of fmap list_fmap concat app length]. by rewrite drop_0. }
  cbn [pack_args length] in *. assert (exists j1 j2, junk = j1 ++ j2 /\ length j1 = 8%nat) as (j1 & j2 & -> & Hj1).
  { exists (take 8 junk), (drop 8 junk). rewrite take_drop. split; [done |]. rewrite length_take. lia. }
  rewrite length_app in Hj. change (strings_of (a :: args)) with ((a ++ [0]) ++ strings_of args) in *. rewrite !length_app in Hr. cbn [length] in Hr.
  assert (exists r1 r2 r3, rest = r1 ++ r2 ++ r3 /\ length r1 = length a /\ length r2 = 1%nat) as (r1 & r2 & r3 & -> & Hr1 & Hr2).
  { exists (take (length a) rest), (take 1 (drop (length a) rest)), (drop 1 (drop (length a) rest)). rewrite !take_drop. split; [done |]. rewrite !length_take, length_drop. lia. }
  set (W := le_bytes 8 (Z.of_nat cursor)).
  replace (Z.to_nat ARGV_OFFSETS_OFFSET + length dn * 8)%nat with (length (h ++ slots)) by (rewrite length_app; change (Z.to_nat ARGV_OFFSETS_OFFSET) with 8%nat; lia).
  replace (h ++ slots ++ (j1 ++ j2) ++ strs ++ r1 ++ r2 ++ r3) with ((h ++ slots) ++ j1 ++ (j2 ++ strs ++ r1 ++ r2 ++ r3)) by (by rewrite <- !app_assoc).
  rewrite write_at_app by (unfold W; by rewrite le_bytes_length).
  assert (cursor = length (h ++ slots ++ W ++ j2 ++ strs)) as Ec by (unfold cursor, W; rewrite !length_app, le_bytes_length, Hj1; lia).
  replace ((h ++ slots) ++ W ++ j2 ++ strs ++ r1 ++ r2 ++ r3) with ((h ++ slots ++ W ++ j2 ++ strs) ++ r1 ++ (r2 ++ r3)) by (by rewrite <- !app_assoc).
  rewrite Ec at 3. rewrite write_at_app by done.
  replace (cursor + length a)%nat with (length ((h ++ slots ++ W ++ j2 ++ strs) ++ a)) by (rewrite length_app; lia).
  replace ((h ++ slots ++ W ++ j2 ++ strs) ++ a ++ r2 ++ r3) with (((h ++ slots ++ W ++ j2 ++ strs) ++ a) ++ r2 ++ r3) by (by rewrite <- !app_assoc).
  rewrite write_at_app by done.
  replace (S (length dn)) with (length (dn ++ [0])) by (rewrite length_app; cbn; lia).
  replace (((h ++ slots ++ W ++ j2 ++ strs) ++ a) ++ [0] ++ r3) with (h ++ (slots ++ W) ++ j2 ++ (strs ++ a ++ [0]) ++ r3) by (by rewrite <- !app_assoc).
  specialize (IH h (slots ++ W) (strs ++ a ++ [0]) r3 (dn ++ [0]) j2).
  replace (length ((h ++ slots ++ W ++ j2 ++ strs) ++ a) + 1)%nat with (length (h ++ (slots ++ W) ++ j2 ++ strs ++ a ++ [0])) by (rewrite !length_app; cbn [length]; lia).
  rewrite IH; [| done | rewrite !length_app; unfold W; rewrite le_bytes_length; cbn [length]; lia | lia | rewrite !length_app in Hr; lia].
  cbn [offsets_from]. rewrite words_cons. fold W.
  replace (length (h ++ (slots ++ W) ++ j2 ++ strs ++ a ++ [0])) with (cursor + length a + 1)%nat by (rewrite Ec, !length_app; cbn [length]; lia).
  assert (drop (length ((a ++ [0]) ++ strings_of args)) (r1 ++ r2 ++ r3) = drop (length (strings_of args)) r3) as ->; [| by rewrite <- !app_assoc].
  rewrite length_app, <- drop_drop, (app_assoc r1), drop_app_length'; [done |]. rewrite !length_app. cbn [length]. lia.
Qed.

Lemma strings_count args : Z.of_nat (length args) <= strings_total args.
Proof. induction args as [| a args IH]; [done |]. cbn [length strings_total foldr]. fold (strings_total args). lia. Qed.

(** [pack] succeeds exactly when the blob fits, and writes it. *)
Lemma argv_pack_spec args out :
  let total := 8 + 8 * Z.of_nat (length args) + strings_total args in
  pack args out =
    if ((total <=? Z.of_nat (length out)) && (total <=? ARGV_BLOB_MAX))%bool then Some (total, blob_of args ++ drop (length (blob_of args)) out) else None.
Proof.
  cbv zeta. set (total := 8 + 8 * Z.of_nat (length args) + strings_total args). pose proof (strings_len args) as Hsl. unfold pack.
  pose proof (strings_count args) as Hle.
  unfold as_u32, argv_strings_offset, ARGV_OFFSETS_OFFSET, ARGV_HEADER_LEN, ARGV_BLOB_MAX.
  pose proof (Z.mod_pos_bound (Z.of_nat (length args)) (2 ^ 32) ltac:(lia)) as Hmod.
  destruct (decide (Z.of_nat (length args) < 2 ^ 32)) as [Hlt | Hge].
  2: { destruct (_ <? _); [destruct (Z.leb_spec total 4096); [unfold total in *; lia | by rewrite andb_false_r] |].
       destruct (Z.ltb_spec 4096 (8 + Z.of_nat (length args) mod 2 ^ 32 * 8 + strings_total args)); [| lia]. rewrite orb_true_r.
       destruct (Z.leb_spec total 4096); [unfold total in *; lia | by rewrite andb_false_r]. }
  rewrite Z.mod_small by lia. replace (8 + Z.of_nat (length args) * 8 + strings_total args) with total by (unfold total; lia).
  destruct (Z.ltb_spec (Z.of_nat (length out)) (8 + Z.of_nat (length args) * 8)).
  { destruct (Z.leb_spec total (Z.of_nat (length out))); [unfold total in *; lia | done]. }
  rewrite !Z.leb_antisym. destruct (Z.ltb_spec (Z.of_nat (length out)) total); [done |]. destruct (Z.ltb_spec 4096 total); [done |]. cbn [orb negb andb].
  f_equal. f_equal. set (n := length args) in *. set (h := header_bytes _).
  assert (exists h0 junk rest, out = h0 ++ junk ++ rest /\ length h0 = 8%nat /\ length junk = (8 * n)%nat) as (h0 & junk & rest & -> & Hh0 & Hj).
  { exists (take 8 out), (take (8 * n) (drop 8 out)), (drop (8 * n) (drop 8 out)). rewrite !take_drop. split; [done |]. rewrite !length_take, length_drop. lia. }
  rewrite !length_app in *. assert (length h = 8%nat) as Hh by apply header_len.
  pose proof (write_at_app [] h0 (junk ++ rest) h) as Ew. cbn [app length] in Ew. rewrite Ew by (by rewrite Hh, Hh0).
  pose proof (pack_args_spec args h [] [] rest [] junk Hh eq_refl Hj) as Hp. cbn [app] in Hp. rewrite app_nil_r, length_app, Hh, Hj in Hp.
  replace (Z.to_nat (8 + Z.of_nat n * 8)) with (8 + 8 * n)%nat by lia. change (length (@nil Z)) with O in Hp. rewrite Hp by (unfold total in *; lia).
  unfold blob_of. fold n h. rewrite <- !app_assoc. do 3 f_equal.
  rewrite (app_assoc h0), drop_app_ge by (rewrite !length_app, words_len, offsets_len, Hh; fold n; lia).
  f_equal. rewrite !length_app, words_len, offsets_len, Hh. fold n. lia.
Qed.

(** ** The kernel's page *)

Lemma le_value_bounds l : Forall is_byte l -> 0 <= le_value l < 256 ^ Z.of_nat (length l).
Proof.
  intros Hl. induction Hl as [| b l Hb Hl IH]; [done |]. cbn [le_value length]. rewrite Nat2Z.inj_succ, Z.pow_succ_r by lia. unfold is_byte in Hb. lia.
Qed.

Lemma le_bytes_value l : Forall is_byte l -> le_bytes (length l) (le_value l) = l.
Proof.
  intros Hl. induction Hl as [| b l Hb Hl IH]; [done |]. cbn [le_value length le_bytes]. unfold is_byte in Hb.
  replace ((b + 256 * le_value l) mod 256) with b; [replace ((b + 256 * le_value l) / 256) with (le_value l); [by rewrite IH |] |].
  - apply (Z.div_unique _ _ _ b); lia.
  - apply (Z.mod_unique _ _ (le_value l)); lia.
Qed.

(** Eight bytes at a time are words. *)
Lemma words_of n : forall l, Forall is_byte l -> length l = (8 * n)%nat -> exists offs, l = words offs /\ length offs = n /\ Forall is_u64 offs.
Proof.
  induction n as [| n IH]; intros l Hl Hlen; [exists []; by destruct l |].
  destruct (IH (drop 8 l)) as (offs & E & Ho & Hu); [by apply Forall_drop | rewrite length_drop; lia |].
  assert (length (take 8 l) = 8%nat) as H8 by (rewrite length_take; lia). assert (Forall is_byte (take 8 l)) as Ht by (by apply Forall_take). exists (le_value (take 8 l) :: offs). split_and!.
  - rewrite words_cons, <- E. pose proof (le_bytes_value _ Ht) as Hv. rewrite H8 in Hv. by rewrite Hv, take_drop.
  - cbn. by rewrite Ho.
  - constructor; [| done]. pose proof (le_value_bounds _ Ht) as Hb. rewrite H8 in Hb. unfold is_u64, W64. lia.
Qed.

Lemma fix_slots_spec blob_len tva offs : forall h dn rest, length h = 8%nat -> Forall is_u64 offs ->
  let '(ok, page) := fix_slots (length offs) (length dn) blob_len tva (h ++ words dn ++ words offs ++ rest) in
  length page = length (h ++ words dn ++ words offs ++ rest) /\ (ok = true <-> Forall (fun o => o < blob_len) offs) /\
  (ok = true -> page = h ++ words dn ++ words (wadd tva <$> offs) ++ rest).
Proof.
  induction offs as [| o offs IH]; intros h dn rest Hh Hu; cbn [fix_slots length]; [by split_and! |]. apply Forall_cons in Hu as [Ho Hu].
  replace (Z.to_nat ARGV_OFFSETS_OFFSET + length dn * 8)%nat with (length (h ++ words dn)) by (rewrite length_app, words_len, Hh; change (Z.to_nat ARGV_OFFSETS_OFFSET) with 8%nat; lia).
  rewrite words_cons. replace (h ++ words dn ++ (le_bytes 8 o ++ words offs) ++ rest) with ((h ++ words dn) ++ le_bytes 8 o ++ (words offs ++ rest)) by (by rewrite <- !app_assoc).
  rewrite drop_app_length, take_app_length' by (by rewrite le_bytes_length). rewrite le_value_bytes by (unfold is_u64, W64 in Ho; lia).
  destruct (Z.leb_spec blob_len o) as [Hge | Hlt].
  - split_and!; [done | | done]. split; [done |]. intros [? _]%Forall_cons. lia.
  - rewrite write_at_app by (by rewrite !le_bytes_length). replace (S (length dn)) with (length (dn ++ [wadd tva o])) by (rewrite length_app; cbn; lia).
    replace ((h ++ words dn) ++ le_bytes 8 (wadd tva o) ++ words offs ++ rest) with (h ++ words (dn ++ [wadd tva o]) ++ words offs ++ rest)
      by (rewrite words_app, words_cons; change (words []) with (@nil Z); by rewrite app_nil_r, <- !app_assoc).
    specialize (IH h (dn ++ [wadd tva o]) rest Hh Hu). destruct (fix_slots _ _ _ _ _) as [ok page]. destruct IH as (Hl & Hok & Hp). split_and!.
    + rewrite Hl, words_app, !length_app, !words_len, !le_bytes_length. cbn [length]. lia.
    + rewrite Hok, Forall_cons. tauto.
    + intros E. rewrite (Hp E), words_app, fmap_cons, !words_cons. change (words []) with (@nil Z). by rewrite app_nil_r, <- !app_assoc.
Qed.

Definition pointers (tva : Z) (offs : list Z) : list Z := wadd tva <$> offs.

(** What the child finds in its page, for a blob of [offs] and [strs]. *)
Definition page_of (tva : Z) (h offs strs : list Z) : list Z :=
  h ++ words (pointers tva offs) ++ strs ++ replicate (4096 - length (h ++ words offs ++ strs)) 0.

(** A blob the kernel takes. *)
Definition blob_ok (blob h offs strs : list Z) : Prop :=
  blob = h ++ words offs ++ strs /\ length h = 8%nat /\ le_value (take 4 h) = Z.of_nat (length offs) /\ Forall is_u64 offs /\
  Forall (fun o => o < Z.of_nat (length blob)) offs /\ (length blob <= 4096)%nat.

Lemma blob_split blob : Forall is_byte blob -> (8 <= length blob)%nat -> ARGV_OFFSETS_OFFSET + le_value (take 4 blob) * 8 <= Z.of_nat (length blob) ->
  exists h offs strs, blob = h ++ words offs ++ strs /\ length h = 8%nat /\ le_value (take 4 h) = Z.of_nat (length offs) /\ Forall is_u64 offs /\
    le_value (take 4 blob) = Z.of_nat (length offs).
Proof.
  intros Hb Hl Ha. unfold ARGV_OFFSETS_OFFSET, ARGV_HEADER_LEN in Ha. pose proof (le_value_bounds (take 4 blob) ltac:(by apply Forall_take)) as Hv.
  set (n := Z.to_nat (le_value (take 4 blob))). destruct (words_of n (take (8 * n) (drop 8 blob))) as (offs & E & Ho & Hu).
  { by apply Forall_take, Forall_drop. }
  { rewrite length_take, length_drop. lia. }
  exists (take 8 blob), offs, (drop (8 * n) (drop 8 blob)). rewrite <- E, !take_drop. split_and!; try done.
  - rewrite length_take. lia.
  - rewrite take_take. change (4 `min` 8)%nat with 4%nat. lia.
  - lia.
Qed.

(** ** Installing *)

Definition same_view (rt : RootTable) (s s' : Vm) : Prop := forall va, is_u64 va -> virt_to_phys (pte_mem s') rt va = virt_to_phys (pte_mem s) rt va.

Record installed (rt : RootTable) (blob : list Z) (tva : Z) (b : PhysBacking) (s s' : Vm) : Prop := {
  in_blob : exists h offs strs, blob_ok blob h offs strs /\
    forall i, 0 <= i < PAGE_SIZE -> byte_at (phys_mem s') (backing_pa b + i) = default 0 (page_of tva h offs strs !! Z.to_nat i);
  in_fresh : fresh_block b s /\ taken b s s';
  in_mapped : range_mapped rt tva (backing_pa b) PAGE_SIZE (pte_mem s) (pte_mem s');
  in_rest : forall a, ~ (backing_pa b <= a < backing_pa b + PAGE_SIZE) -> byte_at (phys_mem s') a = byte_at (phys_mem s) a;
}.

(** Why a blob is not installed: it is malformed, there is no page for it, or the page
    cannot be mapped. *)
Definition refused (rt : RootTable) (blob : list Z) (tva : Z) (s : Vm) : Prop :=
  (forall h offs strs, ~ blob_ok blob h offs strs) \/ (alloc_aligned (kernel_pages s) TABLE_LAYOUT).2 = None \/
  exists pa m pages, map_address_range rt (blob_config tva pa) (wadd tva PAGE_SIZE) (wadd pa PAGE_SIZE) (pte_mem s) (table_pages s) = Some (Done (m, pages, Err tt)).

Lemma given_back_frees s s' : given_back s s' ->
  forall x, (is_free (kernel_pages s') x -> is_free (kernel_pages s) x) /\ (is_free (user_pages s') x -> is_free (user_pages s) x).
Proof. intros H x. by destruct (H x) as [-> ->]. Qed.

Lemma taken_frees b s s' : taken b s s' ->
  forall x, (is_free (kernel_pages s') x -> is_free (kernel_pages s) x) /\ (is_free (user_pages s') x -> is_free (user_pages s) x).
Proof. intros [Ht Ho] x. destruct b; cbn in *; rewrite Ho; split; try done; by intros [? _]%Ht. Qed.

Lemma page_of_len tva h offs strs : (length (h ++ words offs ++ strs) <= 4096)%nat -> length (page_of tva h offs strs) = 4096%nat.
Proof. intros Hl. unfold page_of, pointers. rewrite !length_app, words_len, length_fmap, length_replicate in *. rewrite words_len in *. lia. Qed.

Lemma store_page_other pa page m a : ~ (pa <= a < pa + Z.of_nat (length page)) -> byte_at (store_page pa page m) a = byte_at m a.
Proof.
  revert pa m. induction page as [| b page IH]; intros pa m Ha; [done |]. cbn [store_page length] in *. rewrite IH by lia.
  unfold byte_at. by rewrite lookup_insert_ne by lia.
Qed.

Lemma store_page_at pa page m i : 0 <= i < Z.of_nat (length page) -> byte_at (store_page pa page m) (pa + i) = default 0 (page !! Z.to_nat i).
Proof.
  revert pa m i. induction page as [| b page IH]; intros pa m i Hi; [cbn in Hi; lia |]. cbn [store_page length] in *. destruct (decide (i = 0)) as [-> | Hne].
  - rewrite store_page_other by lia. unfold byte_at. by rewrite Z.add_0_r, lookup_insert_eq.
  - replace (pa + i) with (pa + 1 + (i - 1)) by lia. rewrite IH by lia. replace (Z.to_nat i) with (S (Z.to_nat (i - 1))) by lia. done.
Qed.

Section install_spec.
Context (root_of : Z -> option RootTable) (rt : RootTable) (pid tva : Z) (blob : list Z).
Context (Hroot : root_of pid = Some rt) (Hb : Forall is_byte blob) (Htva : (PAGE_SIZE | tva)) (Ht0 : 0 < tva) (Ht1 : tva + PAGE_SIZE <= 2 ^ 47).

(** The page of a blob that passes the first checks. *)
Lemma fixed_page h offs strs : blob = h ++ words offs ++ strs -> length h = 8%nat -> Forall is_u64 offs -> (length blob <= 4096)%nat ->
  let '(ok, page) := fix_slots (length offs) 0 (Z.of_nat (length blob)) tva (blob ++ replicate (Z.to_nat (PAGE_SIZE - Z.of_nat (length blob))) 0) in
  length page = 4096%nat /\ (ok = true <-> Forall (fun o => o < Z.of_nat (length blob)) offs) /\ (ok = true -> page = page_of tva h offs strs).
Proof.
  intros E Hh Hu Hl. set (z := replicate _ 0).
  pose proof (fix_slots_spec (Z.of_nat (length blob)) tva offs h [] (strs ++ z) Hh Hu) as Hf. change (words []) with (@nil Z) in Hf. cbn [app length] in Hf.
  replace (blob ++ z) with (h ++ words offs ++ strs ++ z) by (rewrite E at 1; by rewrite <- !app_assoc).
  destruct (fix_slots _ _ _ _ _) as [ok page]. destruct Hf as (Hlen & Hok & Hp). split_and!; [| done |].
  - assert (length blob = (length h + (length (words offs) + length strs))%nat) as El by (by rewrite E, !length_app).
    rewrite Hlen, !length_app. unfold z. rewrite length_replicate. unfold PAGE_SIZE. lia.
  - intros Et. rewrite (Hp Et). unfold page_of, pointers, z. rewrite <- E. do 4 f_equal. unfold PAGE_SIZE. lia.
Qed.

Lemma words_inj a : forall b l l', length a = length b -> Forall is_u64 a -> Forall is_u64 b -> words a ++ l = words b ++ l' -> a = b /\ l = l'.
Proof.
  induction a as [| x a IH]; intros [| y b] l l' Hl Ha Hb' E; try done. apply Forall_cons in Ha as [Hx Ha], Hb' as [Hy Hb'].
  rewrite !words_cons, <- !app_assoc in E. apply app_inj_1 in E as [E1 E2]; [| by rewrite !le_bytes_length].
  apply (f_equal le_value) in E1. rewrite !le_value_bytes in E1 by (unfold is_u64, W64 in *; lia). destruct (IH b l l') as [-> ->]; try done; [by injection Hl | by subst].
Qed.

(** A blob splits one way. *)
Lemma blob_unique h offs strs h' offs' strs' : blob_ok blob h' offs' strs' ->
  blob = h ++ words offs ++ strs -> length h = 8%nat -> le_value (take 4 h) = Z.of_nat (length offs) -> Forall is_u64 offs -> offs = offs'.
Proof.
  intros (E & Hh & Ha & Hu & _) E' Hh' Ha' Hu'. rewrite E in E'. apply app_inj_1 in E' as [<- E']; [| congruence].
  rewrite Ha in Ha'. apply Nat2Z.inj in Ha'. by apply words_inj in E' as [<- _].
Qed.

Lemma blob_needs h offs strs : blob_ok blob h offs strs ->
  8 + Z.of_nat (length offs) * 8 <= Z.of_nat (length blob) <= 4096 /\ le_value (take 4 blob) = Z.of_nat (length offs).
Proof.
  intros (E & Hh & Ha & _ & _ & Hl). rewrite <- Ha. rewrite E, !length_app, words_len, Hh in *. rewrite take_app_le by lia. split; [lia | done].
Qed.

Lemma install_spec s : vm_ok rt s ->
  exists r s', install_argv_envp_page root_of pid blob tva s = Done (r, s') /\ vm_ok rt s' /\ heap_pages s' = heap_pages s /\
    match r with Err _ => given_back s s' /\ same_view rt s s' /\ refused rt blob tva s | Ok b => installed rt blob tva b s s' end.
Proof.
  intros Hs. assert (forall s', s' = s -> refused rt blob tva s -> vm_ok rt s' /\ heap_pages s' = heap_pages s /\ given_back s s' /\ same_view rt s s' /\ refused rt blob tva s) as Hsame by (by intros s' ->).
  unfold install_argv_envp_page. destruct (Z.ltb_spec PAGE_SIZE (Z.of_nat (length blob))) as [Hbig | Hlen].
  { do 2 eexists. split; [done |]. apply Hsame; [done |]. left. intros h offs strs ?%blob_needs. unfold PAGE_SIZE in *. lia. }
  destruct (Z.ltb_spec (Z.of_nat (length blob)) ARGV_HEADER_LEN) as [Hsm | Hmin].
  { do 2 eexists. split; [done |]. apply Hsame; [done |]. left. intros h offs strs ?%blob_needs. unfold ARGV_HEADER_LEN in *. lia. }
  destruct (Z.ltb_spec (Z.of_nat (length blob)) (ARGV_OFFSETS_OFFSET + le_value (take 4 blob) * 8)) as [Hno | Hfit].
  { do 2 eexists. split; [done |]. apply Hsame; [done |]. left. intros h offs strs [? Hv]%blob_needs. rewrite Hv in Hno. unfold ARGV_OFFSETS_OFFSET, ARGV_HEADER_LEN in *. lia. }
  unfold ARGV_HEADER_LEN, PAGE_SIZE in Hmin, Hlen. destruct (blob_split blob Hb ltac:(lia) Hfit) as (h & offs & strs & E & Hh & Hargc & Hu & ->). rewrite Nat2Z.id.
  pose proof (pool_block rt s true PAGE_SIZE 12 Hs ltac:(unfold PAGE_SIZE; lia) ltac:(lia)) as Hp. cbv zeta iota in Hp. change (mkLayout PAGE_SIZE (2 ^ 12)) with TABLE_LAYOUT in Hp.
  destruct (alloc_aligned (kernel_pages s) TABLE_LAYOUT) as [fa [pa |]] eqn:Ea;
    [| do 2 eexists; split; [done |]; apply Hsame; [subst fa; by destruct s | right; left; by rewrite Ea]].
  destruct Hp as (H0 & Hlow & Hd & _ & Hfresh & Hall). pose proof (fixed_page h offs strs E Hh Hu ltac:(lia)) as Hpage.
  destruct (fix_slots _ _ _ _ _) as [ok page]. destruct Hpage as (Hpl & Hok & Hpage). set (b := BShared pa TABLE_LAYOUT) in *. set (s1 := set_phys_mem _ _).
  destruct (Hall s1 eq_refl eq_refl) as (Htk & Hpw & Hgb & Hpw2). destruct ok; cbn [negb].
  2: { do 2 eexists. split; [done |]. split_and!; try done; [eapply vm_ok_mono; [exact Hs | apply Hs | done | by apply given_back_frees] |].
       left. intros h' offs' strs' Hbo. pose proof (blob_unique h offs strs h' offs' strs' Hbo E Hh Hargc Hu) as ->. by apply proj2 in Hok; discriminate Hok; apply Hbo. }
  rewrite Hroot. destruct (map_into_range rt (blob_config tva pa) 1 s1) as (r & m & pages & d & Em & Hwf & (Hdr & Hdv & Hm & _) & Hr);
    [apply Hs | split; cbn; try done; try lia; unfold is_u64, W64, PAGE_SIZE in *; lia | by split | lia | cbn; unfold W64, PAGE_SIZE in *; lia | cbn; unfold W64, PAGE_SIZE in *; lia | cbn; lia |].
  cbn [blob_config vaddr paddr page_size] in *. rewrite Z.mul_1_l in *. rewrite Em. cbn [pbind]. set (s2 := set_table_pages pages _) in *.
  destruct (Hall s2 eq_refl eq_refl) as (Htk2 & Hpw' & Hgb2 & Hpw2'). destruct r as [u | e].
  - subst d. do 2 eexists. split; [done |]. split_and!; [eapply vm_ok_mono; [exact Hs | exact Hwf | done | by eapply taken_frees] | done |].
    split; [| done | exact Hm | intros a Ha; unfold s2, s1; cbn; apply store_page_other; rewrite Hpl; exact Ha]. exists h, offs, strs. split; [split_and!; try done; [by apply Hok | lia] |].
    intros i Hi. unfold s2, s1. cbn. rewrite store_page_at by (rewrite Hpl; exact Hi). by rewrite Hpage.
  - assert (d = 0) as -> by (destruct Hdv as [k ->]; unfold PAGE_SIZE in *; lia). do 2 eexists. split; [done |]. split_and!; try done.
    + eapply vm_ok_mono; [exact Hs | exact Hwf | done | by apply given_back_frees].
    + intros va Hva. cbn. rewrite (Hm va Hva). pose proof (off_range tva va). by rewrite decide_False by lia.
    + right. right. exists pa, m, pages. unfold map_into in Em. destruct (map_address_range _ _ _ _ _ _) as [[[[m' pages'] r'] |] |] eqn:Er; try done.
      destruct e. injection Em as -> E1 E2. by rewrite E1, E2.
Qed.
End install_spec.

(** ** Reading the page *)

(** The bytes up to the NUL. *)
Fixpoint cstr (l : list Z) : list Z := match l with [] => [] | b :: l => if b =? 0 then [] else b :: cstr l end.

Lemma cstr_app a r : 0 ∉ a -> cstr (a ++ 0 :: r) = a.
Proof.
  induction a as [| b a IH]; [done |]. rewrite not_elem_of_cons. intros [Hb Ha]. cbn. destruct (Z.eqb_spec b 0); [done |]. by rewrite IH.
Qed.

Section reading.
Context (rd : Z -> option Z).

Lemma mapM_at p l : (forall k, (k < length l)%nat -> rd (p + Z.of_nat k) = l !! k) -> forall n, 0 <= n <= Z.of_nat (length l) -> mapM rd (seqZ p n) = Some (take (Z.to_nat n) l).
Proof.
  intros Hrd n Hn. apply mapM_Some_2, Forall2_same_length_lookup_2; [rewrite length_seqZ, length_take; lia |].
  intros i x y Hx Hy. apply lookup_seqZ in Hx as [-> Hi]. rewrite lookup_take_lt in Hy by lia. rewrite Hrd by lia. done.
Qed.

Lemma str_len_at n : forall p l, (forall k, (k < length l)%nat -> rd (p + Z.of_nat k) = l !! k) -> 0 ∈ l -> (length l <= n)%nat ->
  str_len rd n p = Some (Z.of_nat (length (cstr l))) /\ (length (cstr l) < length l)%nat /\ take (length (cstr l)) l = cstr l.
Proof.
  induction n as [| n IH]; intros p [| b l] Hrd Hin Hn; try (by apply not_elem_of_nil in Hin); [cbn in Hn; lia |].
  cbn [str_len]. assert (rd p = Some b) as -> by (specialize (Hrd O); rewrite Z.add_0_r in Hrd; apply Hrd; cbn; lia). cbn [mbind option_bind cstr].
  destruct (Z.eqb_spec b 0) as [-> | Hb]; [split_and!; cbn; done || lia |]. apply elem_of_cons in Hin as [? | Hin]; [done |].
  destruct (IH (p + 1) l) as (-> & Hlt & Et); [| done | cbn in Hn; lia |].
  - intros k Hk. replace (p + 1 + Z.of_nat k) with (p + Z.of_nat (S k)) by lia. by rewrite Hrd by (cbn; lia).
  - cbn [mbind option_bind length]. split_and!; [f_equal; lia | lia |]. cbn. by rewrite Et.
Qed.

Context (tva : Z) (h offs strs : list Z) (Ht0 : 0 < tva) (Ht1 : tva + PAGE_SIZE <= 2 ^ 47) (Hh : length h = 8%nat).
Context (Hargc : le_value (take 4 h) = Z.of_nat (length offs)) (Hlen : (length (h ++ words offs ++ strs) <= 4096)%nat).
Context (Hu : Forall is_u64 offs) (Hb : Forall (fun o => o < Z.of_nat (length (h ++ words offs ++ strs))) offs).
Context (Hrd : forall k, (k < 4096)%nat -> rd (tva + Z.of_nat k) = page_of tva h offs strs !! k).

(** A slice of the page. *)
Lemma read_slice o n : (o + n <= 4096)%nat -> mapM rd (seqZ (tva + Z.of_nat o) (Z.of_nat n)) = Some (take n (drop o (page_of tva h offs strs))).
Proof.
  intros Ho. pose proof (page_of_len tva h offs strs Hlen) as Hl. rewrite (mapM_at _ (drop o (page_of tva h offs strs))).
  - by rewrite Nat2Z.id.
  - intros k Hk. rewrite length_drop, Hl in Hk. rewrite lookup_drop, <- Hrd by lia. f_equal. lia.
  - rewrite length_drop, Hl. lia.
Qed.

Lemma read_argc : from_ptr rd tva = Some (Some (mkArgv (Z.of_nat (length offs)) (tva + 8))).
Proof.
  unfold from_ptr, read_word. pose proof (read_slice 0 4 ltac:(lia)) as H1. pose proof (read_slice 4 4 ltac:(lia)) as H2. change (Z.of_nat 4) with 4 in *. rewrite Z.add_0_r in H1.
  rewrite H1, H2. cbn [fmap option_fmap option_map mbind option_bind]. rewrite drop_0. unfold page_of. rewrite take_app_le by lia. rewrite Hargc.
  unfold argv_strings_offset, ARGV_OFFSETS_OFFSET, ARGV_HEADER_LEN, ARGV_BLOB_MAX. rewrite !length_app, words_len in Hlen.
  destruct (Z.ltb_spec 4096 (8 + Z.of_nat (length offs) * 8)); [lia | done].
Qed.

Lemma read_pointer i o : offs !! i = Some o -> read_word rd 8 (tva + 8 + 8 * Z.of_nat i) = Some (tva + o) /\ 0 <= o < 4096.
Proof.
  intros Hi. pose proof (lookup_lt_Some _ _ _ Hi) as Hlt. pose proof Hlen as Hl. rewrite !length_app, words_len in Hl.
  assert (0 <= o < 4096) as Hor.
  { pose proof (proj1 (Forall_lookup _ _) Hu _ _ Hi) as H1. pose proof (proj1 (Forall_lookup _ _) Hb _ _ Hi) as H2. unfold is_u64 in H1. cbn beta in H2. rewrite !length_app, words_len in H2. lia. }
  split; [| done]. unfold read_word. pose proof (read_slice (8 + 8 * i) 8 ltac:(lia)) as H1. change (Z.of_nat 8) with 8 in H1.
  replace (tva + 8 + 8 * Z.of_nat i) with (tva + Z.of_nat (8 + 8 * i)) by lia. rewrite H1. cbn [fmap option_fmap option_map]. f_equal.
  unfold page_of, pointers. rewrite <- (drop_drop _ (8 * i) 8), drop_app_length' by done. rewrite <- (take_drop_middle offs i o Hi) at 1. rewrite fmap_app, fmap_cons, words_app, words_cons, <- !app_assoc.
  rewrite drop_app_length' by (rewrite words_len, length_fmap, length_take; lia). rewrite take_app_length' by (by rewrite le_bytes_length).
  rewrite le_value_bytes by (unfold wadd, u64, W64; pose proof (Z.mod_pos_bound (tva + o) (2 ^ 64)); lia). unfold wadd. apply u64_small. unfold is_u64, W64, PAGE_SIZE in *. lia.
Qed.

(** A string that ends in the page is read whole. *)
Lemma read_string i o : offs !! i = Some o -> 0 ∈ drop (Z.to_nat o) (page_of tva h offs strs) ->
  get rd (mkArgv (Z.of_nat (length offs)) (tva + 8)) (Z.of_nat i) = Some (Some (cstr (drop (Z.to_nat o) (page_of tva h offs strs)))).
Proof.
  intros Hi Hz. pose proof (lookup_lt_Some _ _ _ Hi) as Hlt. destruct (read_pointer i o Hi) as [Hp Hor]. unfold get. cbn [a_argc a_argv].
  destruct (Z.leb_spec (Z.of_nat (length offs)) (Z.of_nat i)); [lia |]. rewrite Hp. cbn [mbind option_bind]. destruct (Z.eqb_spec (tva + o) 0); [lia |].
  pose proof (page_of_len tva h offs strs Hlen) as Hl. set (l := drop (Z.to_nat o) (page_of tva h offs strs)) in *.
  assert (forall k, (k < length l)%nat -> rd (tva + o + Z.of_nat k) = l !! k) as Hrl.
  { intros k Hk. unfold l in *. rewrite length_drop, Hl in Hk. rewrite lookup_drop, <- Hrd by lia. f_equal. lia. }
  destruct (str_len_at (Z.to_nat ARGV_BLOB_MAX) (tva + o) l Hrl Hz) as (-> & Hlt' & Et); [unfold l; rewrite length_drop, Hl; unfold ARGV_BLOB_MAX; lia |].
  cbn [mbind option_bind]. rewrite (mapM_at (tva + o) l Hrl) by lia. by rewrite Nat2Z.id, Et.
Qed.
End reading.

(** The page, as the child sees it. *)
Lemma child_page rt blob tva b s s' : installed rt blob tva b s s' -> 0 < tva -> tva + PAGE_SIZE <= 2 ^ 47 ->
  exists h offs strs, blob_ok blob h offs strs /\ forall k, (k < 4096)%nat -> proc_byte rt s' (tva + Z.of_nat k) = page_of tva h offs strs !! k.
Proof.
  intros [(h & offs & strs & Hok & Hmem) _ Hm _] H0 H1. exists h, offs, strs. split; [done |]. intros k Hk.
  rewrite (sees_mapped rt tva (backing_pa b) PAGE_SIZE (pte_mem s)); [| done | lia | unfold PAGE_SIZE; lia | unfold PAGE_SIZE; lia | unfold W64, PAGE_SIZE in *; lia].
  rewrite Hmem by (unfold PAGE_SIZE; lia). rewrite Nat2Z.id. destruct Hok as (E & _ & _ & _ & _ & Hl). rewrite E in Hl.
  destruct (lookup_lt_is_Some_2 (page_of tva h offs strs) k) as [x ->]; [by rewrite page_of_len | done].
Qed.

(** ** Correctness *)

(** Where the [i]-th string of a blob is. *)
Lemma offsets_at args : forall c i a, args !! i = Some a ->
  exists k r, offsets_from c args !! i = Some (Z.of_nat (c + k)) /\ drop k (strings_of args) = a ++ 0 :: r /\ (k < length (strings_of args))%nat.
Proof.
  induction args as [| x args IH]; intros c [| i] a Hi; try done.
  - injection Hi as ->. exists O, (strings_of args). cbn [offsets_from lookup list_lookup]. rewrite Nat.add_0_r, drop_0. change (strings_of (a :: args)) with ((a ++ [0]) ++ strings_of args).
    split_and!; [done | by rewrite <- app_assoc | rewrite !length_app; cbn; lia].
  - destruct (IH (c + length x + 1)%nat i a Hi) as (k & r & Ho & Hd & Hk). exists (length x + 1 + k)%nat, r. change (strings_of (x :: args)) with ((x ++ [0]) ++ strings_of args).
    split_and!; [cbn [offsets_from]; rewrite lookup_cons; rewrite Ho; do 2 f_equal; lia | | rewrite !length_app; cbn; lia].
    rewrite <- drop_drop, drop_app_length' by (rewrite length_app; cbn; lia). done.
Qed.

Lemma offsets_u64 args : forall c, Z.of_nat (c + length (strings_of args)) <= 4096 -> Forall is_u64 (offsets_from c args).
Proof.
  induction args as [| x args IH]; intros c Hc; [constructor |]. change (strings_of (x :: args)) with ((x ++ [0]) ++ strings_of args) in Hc. rewrite !length_app in Hc. cbn [length] in Hc.
  constructor; [unfold is_u64, W64; lia |]. apply IH. lia.
Qed.

(** The blob of [pack], as the kernel splits it. *)
Lemma packed_split args blob h offs strs : blob = blob_of args -> (length blob <= 4096)%nat -> blob_ok blob h offs strs ->
  h = header_bytes (mkArgvHeader (Z.of_nat (length args)) 0) /\ offs = offsets_from (8 + 8 * length args) args /\ strs = strings_of args.
Proof.
  intros -> Hl (E & Hh & Ha & Hu & _). unfold blob_of in *. apply app_inj_1 in E as [<- E]; [| by rewrite header_len, Hh].
  rewrite !length_app, words_len, offsets_len, header_len in Hl.
  assert (le_value (take 4 (header_bytes (mkArgvHeader (Z.of_nat (length args)) 0))) = Z.of_nat (length args)) as Hv.
  { unfold header_bytes. rewrite take_app_length' by (by rewrite le_bytes_length). cbn [h_argc]. apply le_value_bytes. lia. }
  rewrite Hv in Ha. apply words_inj in E as [-> ->]; [done | by rewrite offsets_len; lia | apply offsets_u64; lia | done].
Qed.

(** C35. Arguments reach the child. A parent packs arguments without NUL bytes, and the
    kernel installs the blob at a page of the child. It fails, giving back what it
    took and leaving the child's memory as it was, only for want of a page or of page
    tables; otherwise the child, reading through its own tables, finds as many
    arguments as were packed, each byte for byte, and none after. *)
Theorem argv_roundtrip root_of rt pid tva args out n out' s :
  Forall (fun a => Forall is_byte a /\ 0 ∉ a) args -> pack args out = Some (n, out') -> Forall is_byte out' ->
  root_of pid = Some rt -> (PAGE_SIZE | tva) -> 0 < tva -> tva + PAGE_SIZE <= 2 ^ 47 -> vm_ok rt s ->
  exists r s', install_argv_envp_page root_of pid (take (Z.to_nat n) out') tva s = Done (r, s') /\ vm_ok rt s' /\
    match r with
    | Err _ => given_back s s' /\ same_view rt s s' /\ refused rt (take (Z.to_nat n) out') tva s
    | Ok b => installed rt (take (Z.to_nat n) out') tva b s s' /\
        exists a, from_ptr (proc_byte rt s') tva = Some (Some a) /\ a_argc a = Z.of_nat (length args) /\
          (forall i arg, args !! i = Some arg -> get (proc_byte rt s') a (Z.of_nat i) = Some (Some arg)) /\
          (forall i, Z.of_nat (length args) <= i -> get (proc_byte rt s') a i = Some None)
    end.
Proof.
  intros Hargs Hpack Hbytes Hroot Hd H0 H1 Hs. rewrite argv_pack_spec in Hpack. destruct (andb _ _) eqn:Efit; [| done]. apply (inj Some), pair_equal_spec in Hpack as [<- <-]. to_prop.
  pose proof (strings_len args) as Hsl. unfold ARGV_BLOB_MAX in *.
  assert (length (blob_of args) = Z.to_nat (8 + 8 * Z.of_nat (length args) + strings_total args)) as El.
  { unfold blob_of. rewrite !length_app, header_len, words_len, offsets_len. lia. }
  rewrite !take_app_length' by lia. assert (Forall is_byte (blob_of args)) as Hbb by (by apply Forall_app in Hbytes as [? _]).
  destruct (install_spec root_of rt pid tva (blob_of args) Hroot Hbb Hd H0 H1 s Hs) as (r & s' & E & Hs' & _ & Hr). exists r, s'. split_and!; [done | done |].
  destruct r as [b |]; [| done]. split; [done |]. destruct (child_page _ _ _ _ _ _ Hr H0 H1) as (h & offs & strs & Hok & Hrd).
  pose proof (packed_split args _ h offs strs eq_refl ltac:(lia) Hok) as (-> & -> & ->). pose proof Hok as (Eb & Hh & Hargc & Hu & Hlt & Hl). rewrite Eb in Hl, Hlt.
  eexists. split; [exact (read_argc _ tva _ _ _ Hh Hargc Hl Hrd) |]. cbn [a_argc]. rewrite offsets_len. split_and!; [done | |].
  - intros i arg Hi. destruct (offsets_at args (8 + 8 * length args) i arg Hi) as (k & q & Ho & Hdk & Hk).
    pose proof (read_string _ tva _ _ _ H0 H1 Hh Hl Hu Hlt Hrd i _ Ho) as Hg. rewrite offsets_len in Hg. rewrite Nat2Z.id in Hg.
    assert (exists q', drop (8 + 8 * length args + k) (page_of tva (header_bytes (mkArgvHeader (Z.of_nat (length args)) 0)) (offsets_from (8 + 8 * length args) args) (strings_of args)) = arg ++ 0 :: q') as [q' Eq].
    { unfold page_of. rewrite <- drop_drop. rewrite (app_assoc (header_bytes _)), drop_app_length' by (rewrite length_app, header_len, words_len; unfold pointers; rewrite length_fmap, offsets_len; lia).
      rewrite drop_app_le by lia. rewrite Hdk, <- app_assoc. cbn [app]. by eexists. }
    rewrite Hg, Eq; [| rewrite Eq; apply elem_of_app; right; by left]. rewrite cstr_app; [done |]. by apply (proj1 (Forall_lookup _ _) Hargs i arg Hi).
  - intros i Hi. unfold get. cbn [a_argc]. destruct (Z.leb_spec (Z.of_nat (length args)) i); [done | lia].
Qed.

(** No blob harms the child that reads it. Whatever bytes a parent hands over, a blob
    that is installed and is shorter than a page gives a view of the child's arguments
    in which every argument can be read without a fault and lies within the page. *)
Theorem argv_blob_safe root_of rt pid tva blob s b s' :
  Forall is_byte blob -> root_of pid = Some rt -> (PAGE_SIZE | tva) -> 0 < tva -> tva + PAGE_SIZE <= 2 ^ 47 -> vm_ok rt s ->
  install_argv_envp_page root_of pid blob tva s = Done (Ok b, s') -> (length blob < 4096)%nat ->
  exists a, from_ptr (proc_byte rt s') tva = Some (Some a) /\ 0 <= a_argc a <= 511 /\
    forall i, 0 <= i -> exists r, get (proc_byte rt s') a i = Some r /\ (r = None <-> a_argc a <= i) /\ forall l, r = Some l -> Z.of_nat (length l) < PAGE_SIZE.
Proof.
  intros Hb Hroot Hd H0 H1 Hs E Hlen. destruct (install_spec root_of rt pid tva blob Hroot Hb Hd H0 H1 s Hs) as (r & s1 & E' & _ & _ & Hr).
  rewrite E in E'. injection E' as <- <-. destruct (child_page _ _ _ _ _ _ Hr H0 H1) as (h & offs & strs & (Eb & Hh & Hargc & Hu & Hlt & Hl) & Hrd).
  rewrite Eb in Hl, Hlt. assert (length (h ++ words offs ++ strs) < 4096)%nat as Hlen' by (by rewrite <- Eb). clear Hlen. eexists. split; [exact (read_argc _ tva _ _ _ Hh Hargc Hl Hrd) |]. cbn [a_argc]. split; [rewrite !length_app, words_len in Hl; lia |].
  intros i Hi. destruct (decide (Z.of_nat (length offs) <= i)) as [Hge | Hin].
  { exists None. unfold get. cbn [a_argc]. destruct (Z.leb_spec (Z.of_nat (length offs)) i); [by split_and! | lia]. }
  destruct (lookup_lt_is_Some_2 offs (Z.to_nat i)) as [o Ho]; [lia |]. destruct (read_pointer _ tva _ _ _ H0 H1 Hh Hl Hu Hlt Hrd _ o Ho) as [_ Hor].
  pose proof (proj1 (Forall_lookup _ _) Hlt _ _ Ho) as Hob. cbn beta in Hob. pose proof (page_of_len tva h offs strs Hl) as Hpl. set (page := page_of tva h offs strs) in *.
  assert (0 ∈ drop (Z.to_nat o) page) as Hz.
  { apply list_elem_of_lookup. exists (4095 - Z.to_nat o)%nat. rewrite lookup_drop. replace (Z.to_nat o + (4095 - Z.to_nat o))%nat with 4095%nat by lia.
    unfold page, page_of, pointers. rewrite !app_assoc. rewrite !length_app, words_len in Hlen'.
    rewrite lookup_app_r by (rewrite !length_app, words_len, length_fmap; lia). apply lookup_replicate_2. rewrite !length_app, !words_len, length_fmap. lia. }
  pose proof (read_string _ tva _ _ _ H0 H1 Hh Hl Hu Hlt Hrd _ o Ho Hz) as Hg. rewrite Z2Nat.id in Hg by done. eexists. split; [exact Hg |]. split; [split; [done | lia] |].
  intros l [= <-]. destruct (str_len_at (fun k => drop (Z.to_nat o) page !! Z.to_nat k) 4096 0 (drop (Z.to_nat o) page)) as (_ & Hlt' & _);
    [intros k _; by rewrite Z.add_0_l, Nat2Z.id | done | rewrite length_drop; lia |]. rewrite length_drop in Hlt'. unfold PAGE_SIZE. fold page. lia.
Qed.

(** ** Witnesses *)

(** [ls -a], for the child whose root table is the empty one. *)
Definition ls_args : list (list Z) := [[108; 115]; [45; 97]].
Definition ls_packed : Z * list Z := default (0, []) (pack ls_args (replicate 64 0)).
Definition ls_root (pid : Z) : option RootTable := if pid =? 7 then Some ex_rt else None.

Definition install_ok (blob : list Z) : bool :=
  match install_argv_envp_page ls_root 7 blob USER_ARGV_BASE vm0 with Done (Ok _, _) => true | _ => false end.

Lemma ls_bytes : Forall is_byte ls_packed.2.
Proof. unfold is_byte. apply (bool_decide_unpack _). vm_compute. exact I. Qed.

Lemma install_ok_inv blob : install_ok blob = true -> exists b s', install_argv_envp_page ls_root 7 blob USER_ARGV_BASE vm0 = Done (Ok b, s').
Proof. unfold install_ok. destruct (install_argv_envp_page _ _ _ _ _) as [[[b | e] s'] |]; try done. by exists b, s'. Qed.

Lemma argv_page_va : (PAGE_SIZE | USER_ARGV_BASE) /\ 0 < USER_ARGV_BASE /\ USER_ARGV_BASE + PAGE_SIZE <= 2 ^ 47.
Proof. split_and!; [exists (USER_ARGV_BASE / PAGE_SIZE); reflexivity | done | done]. Qed.

Lemma argv_roundtrip_witness : exists s' a, from_ptr (proc_byte ex_rt s') USER_ARGV_BASE = Some (Some a) /\
  get (proc_byte ex_rt s') a 0 = Some (Some [108; 115]) /\ get (proc_byte ex_rt s') a 1 = Some (Some [45; 97]) /\ get (proc_byte ex_rt s') a 2 = Some None.
Proof.
  destruct argv_page_va as (Hd & H0 & H1).
  assert (Forall (fun a => Forall is_byte a /\ 0 ∉ a) ls_args) as Ha
    by (repeat constructor; unfold is_byte; try lia; apply (bool_decide_unpack _); vm_compute; exact I).
  assert (pack ls_args (replicate 64 0) = Some (fst ls_packed, snd ls_packed)) as Hp by (vm_compute; reflexivity).
  destruct (install_ok_inv (take (Z.to_nat ls_packed.1) ls_packed.2)) as (b & s1 & E1); [vm_compute; reflexivity |].
  destruct (argv_roundtrip ls_root ex_rt 7 USER_ARGV_BASE ls_args (replicate 64 0) (fst ls_packed) (snd ls_packed) vm0 Ha Hp ls_bytes eq_refl Hd H0 H1 vm0_ok) as (r & s' & E & _ & Hr).
  rewrite E1 in E. injection E as <- <-. destruct Hr as (_ & a & Hf & _ & Hg & Hn).
  assert (get (proc_byte ex_rt s1) a 2 = Some None) as G2 by (apply Hn; cbn; lia).
  exact (ex_intro _ s1 (ex_intro _ a (conj Hf (conj (Hg 0%nat _ eq_refl) (conj (Hg 1%nat _ eq_refl) G2))))).
Defined.

(** One argument, its offset that of its own header, and not a string. *)
Definition odd_blob : list Z := le_bytes 4 1 ++ le_bytes 4 0 ++ le_bytes 8 0 ++ [7; 7].

Lemma argv_blob_safe_witness : exists b s' a, install_argv_envp_page ls_root 7 odd_blob USER_ARGV_BASE vm0 = Done (Ok b, s') /\
  from_ptr (proc_byte ex_rt s') USER_ARGV_BASE = Some (Some a) /\ exists r, get (proc_byte ex_rt s') a 0 = Some r.
Proof.
  destruct argv_page_va as (Hd & H0 & H1). assert (Forall is_byte odd_blob) as Hb by (unfold is_byte; apply (bool_decide_unpack _); vm_compute; exact I).
  assert (length odd_blob < 4096)%nat as Hl by (vm_compute; lia).
  destruct (install_ok_inv odd_blob) as (b & s' & E); [vm_compute; reflexivity |].
  destruct (argv_blob_safe ls_root ex_rt 7 USER_ARGV_BASE odd_blob vm0 b s' Hb eq_refl Hd H0 H1 vm0_ok E Hl) as (a & Ha & _ & Hg).
  destruct (Hg 0 ltac:(lia)) as (r & Hr & _). exact (ex_intro _ b (ex_intro _ s' (ex_intro _ a (conj E (conj Ha (ex_intro _ r Hr)))))).
Defined.

(** A page full of text without a NUL is taken all the same. *)
Definition full_blob : list Z := le_bytes 4 1 ++ le_bytes 4 0 ++ le_bytes 8 16 ++ replicate 4080 97.

(** The kernel does not look for the NUL of a string: a blob of a whole page whose last
    string does not end is installed, and the child that reads it faults past the page. *)
Theorem argv_unterminated_faults : exists b s' a, install_argv_envp_page ls_root 7 full_blob USER_ARGV_BASE vm0 = Done (Ok b, s') /\
  from_ptr (proc_byte ex_rt s') USER_ARGV_BASE = Some (Some a) /\ get (proc_byte ex_rt s') a 0 = None.
Proof.
  assert (match install_argv_envp_page ls_root 7 full_blob USER_ARGV_BASE vm0 with
          | Done (Ok _, s') => match from_ptr (proc_byte ex_rt s') USER_ARGV_BASE with
                               | Some (Some a) => match get (proc_byte ex_rt s') a 0 with None => true | Some _ => false end
                               | _ => false
                               end
          | _ => false
          end = true) as H by (vm_compute; reflexivity).
  destruct (install_argv_envp_page ls_root 7 full_blob USER_ARGV_BASE vm0) as [[[b | e] s'] |] eqn:E; [| discriminate H ..].
  destruct (from_ptr (proc_byte ex_rt s') USER_ARGV_BASE) as [[a |] |] eqn:Ea; [| discriminate H ..].
  destruct (get (proc_byte ex_rt s') a 0) eqn:Eg; [discriminate H |].
  exact (ex_intro _ b (ex_intro _ s' (ex_intro _ a (conj eq_refl (conj Ea Eg))))).
Qed.
