(* ===== verification/Elf.v ===== *)
(** * Loading a program

    Models [load_elf] of [kmain/src/kernel/mod.rs] with [ElfInfo] and [TlsTemplate]
    ([kmain/src/kernel/orbital_elf.rs]): a frame per loadable segment, the copy of the
    file's bytes through a window, and the mapping in the new process's tables.

    The parser is the [elf] crate: the model takes what it gives, the program headers
    and the bytes of a segment. Frames, tables and memory are those of [Mmap.v]. *)

From stdpp Require Import base list option numbers sets gmap.
From S2P Require Import Prelude Text Buddy Sv48 PageTable Translate Mapping Layout Abi Perms Thread Completion Work Syscall UserMem Mmap.
#[local] Open Scope Z_scope.

(** ** Files *)

Definition PT_LOAD : Z := 1.
Definition PT_TLS : Z := 7.

Record ProgramHeader := mkPhdr { p_type : Z; p_flags : Z; p_vaddr : Z; p_filesz : Z; p_memsz : Z; p_align : Z }.

(** [ElfBytes]: the entry point, the program headers if there are any, and the bytes of
    a segment if they lie within the file. *)
Record ElfBytes := mkElfBytes {
  e_entry : Z;
  elf_segments : option (list ProgramHeader);
  segment_data : ProgramHeader -> option (list Z);
}.

Record TlsTemplate := mkTlsTemplate { tls_template : list Z; tls_memsz : Z; tls_align : Z }.
Record ElfInfo := mkElfInfo { ei_entrypoint : Z; ei_segments : list PhysBacking; ei_tls : option TlsTemplate }.

(** ** Loading *)

(** The segment's bytes, and zeros from the end of the file's part to that of the
    segment; the slices stay within the window. *)
Definition fill_segment (pa size : Z) (seg : ProgramHeader) (data : list Z) (m : gmap Z Z) : panics (gmap Z Z) :=
  let m := write_bytes pa (length data) (fun i => default 0 (data !! i)) m in
  if p_filesz seg <? p_memsz seg then
    if size <? p_filesz seg then Panic else Done (zero_bytes (pa + p_filesz seg) (size - p_filesz seg) m)
  else Done m.

Definition segment_permissions (flags : Z) : Z :=
  let p := perm_bits PU in
  let p := if 0 <? Z.land flags 1 then Z.lor p (perm_bits PX) else p in
  let p := if 0 <? Z.land flags 2 then Z.lor p (perm_bits PW) else p in
  if 0 <? Z.land flags 4 then Z.lor p (perm_bits PR) else p.

Definition segment_config (seg : ProgramHeader) (pa : Z) : MappingConfig :=
  mkMappingConfig (segment_permissions (p_flags seg)) 4 PAGE_SIZE (round_u64_down (p_vaddr seg) PAGE_SIZE) pa false TagNone.

Section load.
Context (rt : RootTable) (elf : ElfBytes).

(** One loadable segment. *)
Definition load_segment (seg : ProgramHeader) (data : list Z) (allocs : list PhysBacking) (s : Vm) : panics (result (list PhysBacking) unit * Vm) :=
  let seg_mem_size := Z.max (Z.of_nat (length data)) (p_memsz seg) in
  let layout := mkLayout seg_mem_size PAGE_SIZE in
  match alloc_aligned (user_pages s) layout with
  | (fa, None) => Done (Err tt, free_backings allocs (set_user_pages fa s))
  | (fa, Some pa) =>
      _ <-! window pa (lsize layout) ;;
      m <-! fill_segment pa (lsize layout) seg data (phys_mem s) ;;
      let s := set_phys_mem m (set_user_pages fa s) in
      let allocs := allocs ++ [BUser pa layout] in
      let aligned_len := round_u64_up seg_mem_size PAGE_SIZE in
      r <-! map_into rt (segment_config seg pa) (wadd (round_u64_down (p_vaddr seg) PAGE_SIZE) aligned_len) (wadd pa aligned_len) s ;;
      match r with
      | (Err _, s) => Done (Err tt, free_backings allocs s)
      | (Ok _, s) => Done (Ok allocs, s)
      end
  end.

Fixpoint load_segments (segs : list ProgramHeader) (allocs : list PhysBacking) (s : Vm) : panics (result (list PhysBacking) unit * Vm) :=
  match segs with
  | [] => Done (Ok allocs, s)
  | seg :: segs =>
      if negb (p_type seg =? PT_LOAD) then load_segments segs allocs s
      else if p_vaddr seg <? USER_TEXT_BASE then Done (Err tt, s)
      else if p_memsz seg =? 0 then load_segments segs allocs s
      else
        match segment_data elf seg with
        | None => Done (Err tt, s)
        | Some data =>
            r <-! load_segment seg data allocs s ;;
            match r with
            | (Err e, s) => Done (Err e, s)
            | (Ok allocs, s) => load_segments segs allocs s
            end
        end
  end.

Fixpoint find_tls (segs : list ProgramHeader) (tls : option TlsTemplate) : result (option TlsTemplate) unit :=
  match segs with
  | [] => Ok tls
  | seg :: segs =>
      if negb (p_type seg =? PT_TLS) then find_tls segs tls
      else if p_memsz seg =? 0 then find_tls segs tls
      else if UPROC_TLS_MAX <? p_memsz seg then Err tt
      else
        match tls with
        | Some _ => Err tt
        | None =>
            match segment_data elf seg with
            | None => Err tt
            | Some data => find_tls segs (Some (mkTlsTemplate data (p_memsz seg) (p_align seg)))
            end
        end
  end.
End load.

(** [minimal_parse] is the crate's. *)
Definition load_elf (minimal_parse : list Z -> option ElfBytes) (rt : RootTable) (elf_blob : list Z) (s : Vm) : panics (result ElfInfo unit * Vm) :=
  match minimal_parse elf_blob with
  | None => Done (Err tt, s)
  | Some elf =>
      match elf_segments elf with
      | None => Done (Err tt, s)
      | Some segs =>
          r <-! load_segments rt elf segs [] s ;;
          match r with
          | (Err e, s) => Done (Err e, s)
          | (Ok allocs, s) =>
              match find_tls elf segs None with
              | Err e => Done (Err e, free_backings allocs s)
              | Ok tls => Done (Ok (mkElfInfo (e_entry elf) allocs tls), s)
              end
          end
      end
  end.

(** ** The frames of segments *)

Definition seg_block (b : PhysBacking) : Prop := exists pa size, b = BUser pa (mkLayout size PAGE_SIZE) /\ 0 < size <= KSCRATCH_SIZE.

Lemma seg_layout size : 0 < size <= KSCRATCH_SIZE ->
  exists k, (12 <= k < 64)%nat /\ layout_size (mkLayout size PAGE_SIZE) = 2 ^ Z.of_nat k /\ size <= 2 ^ Z.of_nat k /\
    round_u64_up size PAGE_SIZE <= 2 ^ Z.of_nat k /\ Z.to_nat (Z.log2 (2 ^ Z.of_nat k)) = k.
Proof.
  intros Hs. assert (layout_ok (mkLayout size PAGE_SIZE)) as Hl by (unfold KSCRATCH_SIZE, MB, KB in Hs; split; [cbn; lia | exists 12; split; [lia | done]]).
  destruct (layout_size_spec _ Hl) as (k & Hk & Ek & Hle). cbn [lsize] in Hle. exists k.
  assert (PAGE_SIZE <= 2 ^ Z.of_nat k) as Hp by (rewrite <- Ek; unfold layout_size; cbn; lia). change PAGE_SIZE with (2 ^ 12) in Hp. apply Z.pow_le_mono_r_iff in Hp; [| lia | lia].
  split_and!; try done; [lia | | rewrite Z.log2_pow2 by lia; lia].
  destruct (round_u64_nearest size PAGE_SIZE) as ((q & E) & Hb & _); [lia | done | unfold KSCRATCH_SIZE, MB, KB, PAGE_SIZE, W64 in *; lia |]. rewrite E in *.
  replace (2 ^ Z.of_nat k) with (2 ^ (Z.of_nat k - 12) * PAGE_SIZE) in * by (change PAGE_SIZE with (2 ^ 12); rewrite <- Z.pow_add_r by lia; f_equal; lia).
  unfold PAGE_SIZE in *. nia.
Qed.

Lemma window_fits pa len : (PAGE_SIZE | pa) -> 0 < len <= KSCRATCH_SIZE -> window pa len = Done tt.
Proof.
  intros H1%Z.mod_divide Hl; [| done]. unfold window. rewrite H1. cbn [Z.eqb negb]. destruct (Z.leb_spec len 0); [lia |].
  destruct (round_u64_nearest len PAGE_SIZE) as ((q & E) & Hb & _); [lia | done | unfold KSCRATCH_SIZE, MB, KB, PAGE_SIZE, W64 in *; lia |]. rewrite E in *.
  destruct (Z.ltb_spec KSCRATCH_SIZE (q * PAGE_SIZE)); [unfold KSCRATCH_SIZE, MB, KB, PAGE_SIZE in *; lia | done].
Qed.

(** Giving back the segments, in any order. *)
Lemma free_all allocs : forall s, Forall seg_block allocs -> holds (user_pages s) (block_of <$> allocs) ->
  let s' := free_backings allocs s in
  pool_wf (user_pages s') /\ (forall x, is_free (user_pages s') x <-> is_free (user_pages s) x \/ in_blocks (block_of <$> allocs) x) /\
  kernel_pages s' = kernel_pages s /\ pte_mem s' = pte_mem s /\ table_pages s' = table_pages s /\ heap_pages s' = heap_pages s.
Proof.
  induction allocs as [| b allocs IH]; intros s Hb Hh; cbn [free_backings].
  { split_and!; try done; [apply Hh |]. intros x. split; [by left |]. intros [? | (k & p & Hin & _)]; [done |]. by apply not_elem_of_nil in Hin. }
  apply Forall_cons in Hb as [(pa & size & -> & Hsz) Hb]. destruct (seg_layout size Hsz) as (k & Hk & Ek & _ & _ & Elog).
  assert (block_of (BUser pa (mkLayout size PAGE_SIZE)) = (k, pa)) as Eb by (unfold block_of; cbn [backing_layout backing_pa]; by rewrite Ek, Elog).
  rewrite fmap_cons, Eb in *. destruct (holds_free _ _ _ _ Hh) as [Hh' Hf].
  assert (user_pages (free_backing (BUser pa (mkLayout size PAGE_SIZE)) s) = dealloc_power_of_two (user_pages s) pa (2 ^ Z.of_nat k)) as Eu
    by (cbn; unfold dealloc_aligned; by rewrite Ek).
  destruct (IH (free_backing (BUser pa (mkLayout size PAGE_SIZE)) s) Hb) as (Hw & Hfr & Hrest); [by rewrite Eu |]. split_and!; try done; try apply Hrest.
  intros x. rewrite Hfr, Eu, Hf. change ((k, pa) :: ?l) with ([(k, pa)] ++ l). rewrite in_blocks_app, in_blocks_one. tauto.
Qed.

(** ** What a process finds of its program *)

Definition seg_base (seg : ProgramHeader) : Z := round_u64_down (p_vaddr seg) PAGE_SIZE.
Definition seg_size (seg : ProgramHeader) (data : list Z) : Z := Z.max (Z.of_nat (length data)) (p_memsz seg).

(** The byte at [i] of a segment: the file's, then zeros. *)
Definition seg_byte (data : list Z) (i : Z) : Z := default 0 (data !! Z.to_nat i).

(** A segment that the window and the user half have room for. *)
Record seg_ok (seg : ProgramHeader) (data : list Z) : Prop := {
  so_file : p_filesz seg = Z.of_nat (length data);
  so_mem : 0 < p_memsz seg;
  so_size : seg_size seg data <= KSCRATCH_SIZE;
  so_base : USER_TEXT_BASE <= p_vaddr seg;
  so_end : p_vaddr seg + seg_size seg data + PAGE_SIZE <= 2 ^ 47;
  so_flags : Z.land (p_flags seg) 7 <> 0;
}.

Section loading.
Context (rt : RootTable).

(** The bytes of a segment, in frames that no pool holds. *)
Definition seg_shown (s : Vm) (sd : ProgramHeader * list Z) : Prop :=
  forall i, 0 <= i < seg_size sd.1 sd.2 -> exists pa, virt_to_phys (pte_mem s) rt (seg_base sd.1 + i) = Done (Some pa) /\
    ~ is_free (user_pages s) pa /\ byte_at (phys_mem s) pa = seg_byte sd.2 i.

(** Midway: [dn] is loaded, in the blocks [allocs]. *)
Record loading (s0 : Vm) (dn : list (ProgramHeader * list Z)) (allocs : list PhysBacking) (s : Vm) : Prop := {
  ld_vm : vm_ok rt s;
  ld_same : kernel_pages s = kernel_pages s0 /\ heap_pages s = heap_pages s0;
  ld_holds : holds (user_pages s) (block_of <$> allocs);
  ld_blocks : Forall seg_block allocs;
  ld_free : forall x, is_free (user_pages s) x <-> is_free (user_pages s0) x /\ ~ in_blocks (block_of <$> allocs) x;
  ld_from : forall x, in_blocks (block_of <$> allocs) x -> is_free (user_pages s0) x;
  ld_shown : Forall (seg_shown s) dn;
}.

Lemma loading_start s : vm_ok rt s -> loading s [] [] s.
Proof.
  intros Hs. split; try done; [apply holds_none, Hs | |].
  - intros x. split; [| by intros [? _]]. intros Hx. split; [done |]. intros (k & p & Hin & _). by apply not_elem_of_nil in Hin.
  - intros x (k & p & Hin & _). by apply not_elem_of_nil in Hin.
Qed.

(** Giving up gives everything back. *)
Lemma loading_undo s0 dn allocs s : vm_ok rt s0 -> loading s0 dn allocs s ->
  let s' := free_backings allocs s in vm_ok rt s' /\ given_back s0 s' /\ heap_pages s' = heap_pages s0.
Proof.
  intros H0 Hl. destruct (free_all allocs s (ld_blocks _ _ _ _ Hl) (ld_holds _ _ _ _ Hl)) as (Hw & Hf & Ek & Ep & Et & Eh). cbv zeta in *.
  destruct (ld_same _ _ _ _ Hl) as [Ek0 Eh0]. pose proof (ld_vm _ _ _ _ Hl) as Hv. set (s' := free_backings allocs s) in *.
  assert (given_back s0 s') as Hg.
  { intros x. rewrite Ek, Ek0. split; [done |]. rewrite Hf, (ld_free _ _ _ _ Hl x). pose proof (ld_from _ _ _ _ Hl x) as Hfrom.
    destruct (decide (cov_out (block_of <$> allocs) x = 0%nat)) as [Hc | Hc]; rewrite in_blocks_cov in *; tauto. }
  split_and!; [| done | congruence]. apply (vm_ok_mono rt s0); [done | rewrite Ep, Et; apply Hv | split; [rewrite Ek; apply Hv | done] |].
  intros x. by destruct (Hg x) as [-> ->].
Qed.

Lemma seg_leaf flags : Z.land flags 7 <> 0 -> is_leaf (segment_permissions flags) = true.
Proof.
  intros Hf. unfold segment_permissions. assert (0 < Z.land flags 1 \/ 0 < Z.land flags 2 \/ 0 < Z.land flags 4) as Hb.
  { assert (forall k, 0 <= Z.land flags (2 ^ k)) as Hnn by (intros k; apply Z.land_nonneg; right; destruct (decide (0 <= k)); [apply Z.pow_nonneg; lia | rewrite Z.pow_neg_r by lia; done]).
    pose proof (Hnn 0). pose proof (Hnn 1). pose proof (Hnn 2). change (2 ^ 0) with 1 in *. change (2 ^ 1) with 2 in *. change (2 ^ 2) with 4 in *.
    destruct (decide (Z.land flags 1 = 0)) as [E1 | ?]; [| lia]. destruct (decide (Z.land flags 2 = 0)) as [E2 | ?]; [| lia].
    destruct (decide (Z.land flags 4 = 0)) as [E4 | ?]; [| lia]. exfalso. apply Hf. change 7 with (Z.lor (Z.lor 1 2) 4). by rewrite !Z.land_lor_distr_r, E1, E2, E4. }
  destruct (Z.ltb_spec 0 (Z.land flags 1)), (Z.ltb_spec 0 (Z.land flags 2)), (Z.ltb_spec 0 (Z.land flags 4)); try done; lia.
Qed.

(** The frame of a segment, filled. *)
Lemma fill_spec seg data pa m : p_filesz seg = Z.of_nat (length data) ->
  exists m', fill_segment pa (seg_size seg data) seg data m = Done m' /\
    (forall i, 0 <= i < seg_size seg data -> byte_at m' (pa + i) = seg_byte data i) /\
    (forall a, ~ (pa <= a < pa + seg_size seg data) -> byte_at m' a = byte_at m a).
Proof.
  intros Hf. unfold fill_segment, seg_size. rewrite Hf. set (n := Z.of_nat (length data)). set (m1 := write_bytes _ _ _ _).
  assert (forall a, byte_at m1 a = if decide (pa <= a < pa + n) then seg_byte data (a - pa) else byte_at m a) as H1.
  { intros a. unfold m1, byte_at. destruct (decide _) as [Ha | Ha]; [| by rewrite write_bytes_other].
    replace a with (pa + (a - pa)) at 1 by lia. rewrite write_bytes_at by lia. done. }
  assert (forall i, n <= i -> seg_byte data i = 0) as Hz by (intros i Hi; unfold seg_byte; by rewrite lookup_ge_None_2 by lia).
  destruct (Z.ltb_spec n (p_memsz seg)) as [Hlt | Hge].
  - destruct (Z.ltb_spec (Z.max n (p_memsz seg)) n); [lia |]. eexists. split; [done |]. split; intros a Ha; rewrite zero_bytes_at, H1.
    + destruct (decide (pa + n <= pa + a < _)); [by rewrite Hz by lia |]. rewrite decide_True by lia. f_equal. lia.
    + rewrite !decide_False by lia. done.
  - eexists. split; [done |]. split; intros a Ha; rewrite H1; [rewrite decide_True by lia; f_equal; lia | by rewrite decide_False by lia].
Qed.

(** What is shown stays shown, when new pages are mapped to a block that was free. *)
Lemma shown_stays s s' v p d k sd : seg_shown s sd ->
  range_mapped rt v p d (pte_mem s) (pte_mem s') -> (forall va, is_u64 va -> off v va < d -> virt_to_phys (pte_mem s) rt va = Done None) ->
  (forall x, is_free (user_pages s') x -> is_free (user_pages s) x) -> (forall x, p <= x < p + k -> is_free (user_pages s) x) ->
  (forall a, ~ (p <= a < p + k) -> byte_at (phys_mem s') a = byte_at (phys_mem s) a) -> seg_ok sd.1 sd.2 -> seg_shown s' sd.
Proof.
  intros Hs Hm Hn Hfr Hk Hmem Hok i Hi. destruct (Hs i Hi) as (pa & Hpa & Hnf & Hb).
  assert (is_u64 (seg_base sd.1 + i)) as Hu.
  { pose proof (so_end _ _ Hok). pose proof (so_base _ _ Hok). unfold USER_TEXT_BASE in *.
    destruct (round_u64_nearest (p_vaddr sd.1) PAGE_SIZE) as (_ & _ & _ & Hr); [lia | done | unfold W64, PAGE_SIZE in *; lia |].
    unfold seg_base, is_u64, W64, PAGE_SIZE in *. lia. }
  exists pa. rewrite (Hm _ Hu). rewrite decide_False by (intros Ho; by rewrite (Hn _ Hu Ho) in Hpa). split_and!; [done | naive_solver |].
  rewrite Hmem; [done |]. naive_solver.
Qed.

(** The mapping of a segment. *)
Lemma map_segment_spec seg data pa s :
  pt_wf (pte_mem s) rt (table_pages s) -> seg_ok seg data -> 0 <= pa -> (PAGE_SIZE | pa) -> pa + seg_size seg data <= 2 ^ 56 ->
  let len := round_u64_up (seg_size seg data) PAGE_SIZE in
  exists r m pages d, map_into rt (segment_config seg pa) (wadd (seg_base seg) len) (wadd pa len) s = Done (r, set_table_pages pages (set_pte_mem m s)) /\
    pt_wf m rt pages /\ range_mapped rt (seg_base seg) pa d (pte_mem s) m /\ 0 <= seg_base seg /\ 0 <= d <= 2 ^ 26 /\ seg_base seg + d < W64 /\
    (forall va, is_u64 va -> off (seg_base seg) va < d -> virt_to_phys (pte_mem s) rt va = Done None) /\
    match r with Ok _ => seg_size seg data <= d | Err _ => True end.
Proof.
  intros Hpt Hok Hpa Hal Hpe len. pose proof (so_end _ _ Hok). pose proof (so_base _ _ Hok). pose proof (so_size _ _ Hok). pose proof (so_mem _ _ Hok).
  unfold USER_TEXT_BASE, KSCRATCH_SIZE, MB, KB, PAGE_SIZE in *. assert (0 < seg_size seg data) by (unfold seg_size; lia).
  destruct (round_u64_nearest (p_vaddr seg) 4096) as (_ & _ & (qv & Ev) & Hv); [lia | done | unfold W64; lia |].
  destruct (round_u64_nearest (seg_size seg data) 4096) as ((n & En) & Hn & _); [lia | done | unfold W64; lia |].
  destruct (map_into_range rt (segment_config seg pa) n s) as (r & m & pages & d & E & Hwf & (Hd & _ & Hm & Hnew & _) & Hr);
    cbn [segment_config vaddr paddr page_size levels permissions] in *; unfold PAGE_SIZE in *; try done; unfold W64 in *; try lia.
  - split; cbn; unfold is_u64, W64, PAGE_SIZE; try done; try lia. by apply seg_leaf, Hok.
  - split; cbn; unfold PAGE_SIZE; [done | by exists qv].
  - exists r, m, pages, d. unfold seg_base, PAGE_SIZE, len. rewrite En. split_and!; try done; try lia. destruct r; [lia | done].
Qed.

Lemma load_segment_spec s0 dn allocs s seg data :
  vm_ok rt s0 -> loading s0 dn allocs s -> seg_ok seg data -> Forall (fun sd => seg_ok sd.1 sd.2) dn ->
  exists r s', load_segment rt seg data allocs s = Done (r, s') /\
    match r with
    | Ok allocs' => loading s0 (dn ++ [(seg, data)]) allocs' s'
    | Err _ => vm_ok rt s' /\ given_back s0 s' /\ heap_pages s' = heap_pages s0
    end.
Proof.
  intros H0 Hl Hok Hdn. unfold load_segment. fold (seg_size seg data). fold (seg_base seg). set (size := seg_size seg data). cbn [lsize].
  assert (0 < size <= KSCRATCH_SIZE) as Hsz by (pose proof (so_mem _ _ Hok); pose proof (so_size _ _ Hok); unfold size, seg_size in *; lia).
  pose proof (ld_vm _ _ _ _ Hl) as Hs. destruct (seg_layout size Hsz) as (k & Hk & Ek & Hle & Hru & Elog).
  pose proof (pool_block rt s false size 12 Hs ltac:(unfold KSCRATCH_SIZE, MB, KB in Hsz; lia) ltac:(lia)) as Hp. cbv zeta iota in Hp. change (mkLayout size (2 ^ 12)) with (mkLayout size PAGE_SIZE) in Hp.
  destruct (alloc_aligned (user_pages s) (mkLayout size PAGE_SIZE)) as [fa [pa |]] eqn:Ea.
  2: { subst fa. replace (set_user_pages (user_pages s) s) with s by (by destruct s). do 2 eexists. split; [done |]. by eapply loading_undo. }
  destruct Hp as (Hpa & Hpe & Hpal & _ & Hfresh & Hall). change (2 ^ 12) with PAGE_SIZE in Hpal. rewrite window_fits by done. cbn [pbind].
  destruct (fill_spec seg data pa (phys_mem s) (so_file _ _ Hok)) as (m1 & Ef & Hin & Hout). fold size in Ef, Hin, Hout. rewrite Ef. cbn [pbind].
  set (s1 := set_phys_mem m1 (set_user_pages fa s)). set (b := BUser pa (mkLayout size PAGE_SIZE)) in *.
  destruct (map_segment_spec seg data pa s1) as (r & m & pages & d & Em & Hwf & Hm & Hb0 & Hd & Hw & Hnew & Hr); [apply Hs | done | done | done | done |].
  fold size in Em, Hr. rewrite Em. cbn [pbind]. set (s2 := set_table_pages pages (set_pte_mem m s1)) in *.
  destruct (Hall s2 eq_refl eq_refl) as ([Htk _] & Hpw & _). cbn [b pool_of other_pool backing_pa backing_layout] in Htk. rewrite Ek in Htk.
  assert (block_of b = (k, pa)) as Eb by (unfold block_of, b; cbn [backing_layout backing_pa]; by rewrite Ek, Elog).
  assert (forall x, pa <= x < pa + 2 ^ Z.of_nat k -> is_free (user_pages s) x) as Hfb by (intros x Hx; apply (Hfresh x); cbn; by rewrite Ek).
  assert (loading s0 dn (allocs ++ [b]) s2) as Hl2.
  { split.
    - eapply (vm_ok_mono rt s); [done | exact Hwf | done | intros x; split; [done | by intros [? _]%Htk]].
    - apply Hl.
    - rewrite fmap_app, fmap_cons, fmap_nil, Eb. apply (holds_alloc (user_pages s)); [apply Hl | lia |]. unfold alloc_aligned in Ea. by rewrite Ek in Ea.
    - apply Forall_app. split; [apply Hl | constructor; [by exists pa, size | constructor]].
    - intros x. rewrite fmap_app, fmap_cons, fmap_nil, Eb, in_blocks_app, in_blocks_one. rewrite Htk, (ld_free _ _ _ _ Hl x). tauto.
    - intros x. rewrite fmap_app, fmap_cons, fmap_nil, Eb, in_blocks_app, in_blocks_one. intros [Hx | Hx]; [by apply (ld_from _ _ _ _ Hl) |].
      by apply Hfb, (ld_free _ _ _ _ Hl) in Hx as [? _].
    - pose proof (ld_shown _ _ _ _ Hl) as Hsh. rewrite Forall_forall in Hsh, Hdn |- *. intros sd Hsd.
      apply (shown_stays s s2 (seg_base seg) pa d size sd); auto; [by intros x [? _]%Htk | intros x Hx; apply Hfb; lia]. }
  destruct r as [u | e]; [| do 2 eexists; split; [done |]; by eapply loading_undo].
  do 2 eexists. split; [done |]. destruct Hl2 as [L1 L2 L3 L4 L5 L6 L7]. split; try done. apply Forall_app. split; [done |]. constructor; [| constructor].
  intros i Hi. cbn [fst snd] in *. fold size in Hi. exists (pa + i). unfold s2 at 1. cbn [pte_mem set_table_pages set_pte_mem].
  assert (off (seg_base seg) (seg_base seg + i) = i) as Eo by (unfold off; rewrite Z.mod_small; lia).
  rewrite (Hm (seg_base seg + i)) by (unfold is_u64; lia). rewrite Eo, decide_True by lia. split_and!; [done | rewrite Htk; lia | by apply Hin].
Qed.
End loading.

(** ** The whole file *)

(** The loadable segments with their bytes. *)
Definition loadable (elf : ElfBytes) (segs : list ProgramHeader) : list (ProgramHeader * list Z) :=
  omap (fun seg => if ((p_type seg =? PT_LOAD) && negb (p_memsz seg =? 0))%bool then pair seg <$> segment_data elf seg else None) segs.

(** A loadable segment that [load_elf] rejects before it allocates. *)
Definition legal (elf : ElfBytes) (seg : ProgramHeader) : Prop :=
  p_type seg = PT_LOAD -> USER_TEXT_BASE <= p_vaddr seg /\ (p_memsz seg <> 0 -> is_Some (segment_data elf seg)).

(** The segments fit: what the crate reads of one is as long as its header says, and
    memory has room for it. *)
Definition fits (elf : ElfBytes) (seg : ProgramHeader) : Prop :=
  forall data, p_type seg = PT_LOAD -> USER_TEXT_BASE <= p_vaddr seg -> p_memsz seg <> 0 -> segment_data elf seg = Some data -> seg_ok seg data.

Section whole.
Context (rt : RootTable) (elf : ElfBytes).

Lemma loadable_cons seg segs : loadable elf (seg :: segs) =
  (if ((p_type seg =? PT_LOAD) && negb (p_memsz seg =? 0))%bool
   then match segment_data elf seg with Some d => [(seg, d)] | None => [] end else []) ++ loadable elf segs.
Proof.
  unfold loadable. cbn [omap list_omap]. destruct (_ && _)%bool; [| done]. by destruct (segment_data elf seg).
Qed.

Lemma load_segments_spec s0 segs : vm_ok rt s0 -> Forall (fits elf) segs -> forall dn allocs s, loading rt s0 dn allocs s -> Forall (fun sd => seg_ok sd.1 sd.2) dn ->
  exists r s', load_segments rt elf segs allocs s = Done (r, s') /\
    match r with
    | Ok allocs' => loading rt s0 (dn ++ loadable elf segs) allocs' s'
    | Err _ => vm_ok rt s' /\ heap_pages s' = heap_pages s0 /\ (Forall (legal elf) segs -> given_back s0 s')
    end.
Proof.
  intros H0 Hf. induction Hf as [| seg segs Hseg Hf IH]; intros dn allocs s Hl Hdn; cbn [load_segments].
  { do 2 eexists. split; [done |]. cbn. by rewrite app_nil_r. }
  rewrite loadable_cons.
  destruct (Z.eqb_spec (p_type seg) PT_LOAD) as [Ht | Ht]; cbn [negb andb].
  2: { destruct (IH dn allocs s Hl Hdn) as (r & s' & E & Hr). exists r, s'. split; [done |]. destruct r; [done |]. destruct Hr as (? & ? & Hg). split_and!; try done. by intros [_ ?]%Forall_cons; apply Hg. }
  destruct (Z.ltb_spec (p_vaddr seg) USER_TEXT_BASE) as [Hlow | Hbase].
  { do 2 eexists. split; [done |]. split_and!; [apply Hl | apply Hl |]. intros [Hlg _]%Forall_cons. destruct (Hlg Ht). lia. }
  destruct (Z.eqb_spec (p_memsz seg) 0) as [Hz | Hz]; cbn [negb].
  { destruct (IH dn allocs s Hl Hdn) as (r & s' & E & Hr). exists r, s'. split; [done |]. destruct r; [done |]. destruct Hr as (? & ? & Hg). split_and!; try done. by intros [_ ?]%Forall_cons; apply Hg. }
  destruct (segment_data elf seg) as [data |] eqn:Ed.
  2: { do 2 eexists. split; [done |]. split_and!; [apply Hl | apply Hl |]. intros [Hlg _]%Forall_cons. destruct (Hlg Ht) as [_ Hs]. rewrite Ed in Hs. by destruct (Hs Hz). }
  pose proof (Hseg data Ht Hbase Hz Ed) as Hok. destruct (load_segment_spec rt s0 dn allocs s seg data H0 Hl Hok Hdn) as (r & s1 & -> & Hr). cbn [pbind].
  destruct r as [allocs' | e]; [| do 2 eexists; split; [done |]; destruct Hr as (? & ? & ?); by split_and!].
  destruct (IH (dn ++ [(seg, data)]) allocs' s1 Hr) as (r & s' & E & Hr'); [apply Forall_app; split; [done | constructor; [done | constructor]] |].
  exists r, s'. split; [done |]. destruct r; [cbn; by rewrite <- app_assoc in Hr' |]. destruct Hr' as (? & ? & Hg). split_and!; try done. by intros [_ ?]%Forall_cons; apply Hg.
Qed.
End whole.


(** ** What loading does not do *)

(** A file can stop the kernel: its first loadable segment asks for more than the
    32 MiB of the window, the pool can back it, and the window's assertion fails. *)
Theorem elf_stops_kernel minimal_parse rt blob elf seg segs data fa pa s :
  minimal_parse blob = Some elf -> elf_segments elf = Some (seg :: segs) -> p_type seg = PT_LOAD -> USER_TEXT_BASE <= p_vaddr seg ->
  p_memsz seg <> 0 -> segment_data elf seg = Some data -> KSCRATCH_SIZE < seg_size seg data <= 2 ^ 47 ->
  alloc_aligned (user_pages s) (mkLayout (seg_size seg data) PAGE_SIZE) = (fa, Some pa) ->
  load_elf minimal_parse rt blob s = Panic.
Proof.
  intros Hp Hs Ht Hb Hm Hd Hsz Ha. unfold load_elf. rewrite Hp, Hs. cbn [load_segments]. rewrite Ht. cbn [Z.eqb PT_LOAD negb].
  destruct (Z.ltb_spec (p_vaddr seg) USER_TEXT_BASE); [lia |]. destruct (Z.eqb_spec (p_memsz seg) 0); [done |]. rewrite Hd. unfold load_segment. fold (seg_size seg data).
  rewrite Ha. cbn [lsize]. assert (window pa (seg_size seg data) = Panic) as ->; [| done]. unfold window. destruct (negb _); [done |].
  unfold KSCRATCH_SIZE, MB, KB in Hsz. destruct (Z.leb_spec (seg_size seg data) 0); [lia |].
  destruct (round_u64_nearest (seg_size seg data) PAGE_SIZE) as (_ & Hr & _); [lia | done | unfold W64, PAGE_SIZE; lia |].
  destruct (Z.ltb_spec KSCRATCH_SIZE (round_u64_up (seg_size seg data) PAGE_SIZE)) as [| Hge]; [done |]. unfold KSCRATCH_SIZE, MB, KB in Hge. lia.
Qed.

Definition file_of (segs : list (ProgramHeader * list Z)) : ElfBytes :=
  mkElfBytes USER_TEXT_BASE (Some segs.*1) (fun seg => default (Some []) (list_find (fun sd => p_vaddr sd.1 = p_vaddr seg) segs ≫= fun r => Some (Some r.2.2))).

Definition parse_as (segs : list (ProgramHeader * list Z)) (_ : list Z) : option ElfBytes := Some (file_of segs).

Definition small : ProgramHeader := mkPhdr PT_LOAD 5 USER_TEXT_BASE 3 10 PAGE_SIZE.
Definition shifted : ProgramHeader := mkPhdr PT_LOAD 5 (USER_TEXT_BASE + 0x800) 3 3 PAGE_SIZE.
Definition below : ProgramHeader := mkPhdr PT_LOAD 5 0x1000 3 3 PAGE_SIZE.
Definition huge : ProgramHeader := mkPhdr PT_LOAD 5 USER_TEXT_BASE 3 (33 * MB) PAGE_SIZE.

Definition after_load (segs : list (ProgramHeader * list Z)) (s : Vm) : option (bool * Vm) :=
  match load_elf (parse_as segs) ex_rt [] s with Done (Ok _, s') => Some (true, s') | Done (Err _, s') => Some (false, s') | Panic => None end.

Lemma after_load_inv segs s b s' : after_load segs s = Some (b, s') ->
  exists r, load_elf (parse_as segs) ex_rt [] s = Done (r, s') /\ (if b then exists i, r = Ok i else r = Err tt).
Proof. unfold after_load. destruct (load_elf _ _ _ _) as [[[i | []] s1] |]; intros [= <- <-]; eauto. Qed.

(** A frame of the pool that still holds a byte of the process that had it. *)
Definition vm_used : Vm := set_phys_mem {[0x84000064 := 42]} vm0.

(** A program reads what another left in memory: the last page of a segment past the
    segment's size is not cleared, and the frames of the pool are not cleared when they
    are freed. *)
Theorem elf_shows_stale : exists info s', load_elf (parse_as [(small, [1; 2; 3])]) ex_rt [] vm_used = Done (Ok info, s') /\
  is_free (user_pages vm_used) 0x84000064 /\ byte_at (phys_mem vm_used) 0x84000064 = 42 /\ proc_byte ex_rt s' (USER_TEXT_BASE + 0x64) = Some 42.
Proof.
  assert (match after_load [(small, [1; 2; 3])] vm_used with Some (true, s') => bool_decide (proc_byte ex_rt s' (USER_TEXT_BASE + 0x64) = Some 42) | _ => false end = true) as H
    by (vm_compute; reflexivity).
  destruct (after_load [(small, [1; 2; 3])] vm_used) as [[[] s'] |] eqn:E; [| discriminate H ..]. apply bool_decide_eq_true in H.
  destruct (after_load_inv _ _ _ _ E) as (r & El & info & ->). exists info, s'. split; [exact El |]. split; [| split; [vm_compute; reflexivity | exact H]].
  cbn [vm_used user_pages set_phys_mem vm0]. apply (pool_spec 0x84000000 0x8C000000); lia.
Qed.

(** A segment that does not start a page lands at the page's start: the process finds
    its first byte [0x800] below the address the file gives it. *)
Theorem elf_shifts_segment : exists info s', load_elf (parse_as [(shifted, [1; 2; 3])]) ex_rt [] vm0 = Done (Ok info, s') /\
  proc_byte ex_rt s' (p_vaddr shifted) = Some 0 /\ proc_byte ex_rt s' (p_vaddr shifted - 0x800) = Some 1.
Proof.
  assert (match after_load [(shifted, [1; 2; 3])] vm0 with
          | Some (true, s') => bool_decide (proc_byte ex_rt s' (p_vaddr shifted) = Some 0 /\ proc_byte ex_rt s' (p_vaddr shifted - 0x800) = Some 1)
          | _ => false end = true) as H by (vm_compute; reflexivity).
  destruct (after_load [(shifted, [1; 2; 3])] vm0) as [[[] s'] |] eqn:E; [| discriminate H ..]. apply bool_decide_eq_true in H.
  destruct (after_load_inv _ _ _ _ E) as (r & El & info & ->). exists info, s'. exact (conj El H).
Qed.

Definition is_free_b (fa : FrameAllocator) (x : Z) : bool := (cov (free_list fa) x =? 1)%nat.

(** A file whose second segment is illegal is refused, and the frame of the first is lost. *)
Theorem elf_leaks_frame : exists s', load_elf (parse_as [(small, [1; 2; 3]); (below, [])]) ex_rt [] vm0 = Done (Err tt, s') /\
  is_free (user_pages vm0) 0x84000000 /\ ~ is_free (user_pages s') 0x84000000 /\ heap_pages s' !! 7 = Some [].
Proof.
  assert (match after_load [(small, [1; 2; 3]); (below, [])] vm0 with
          | Some (false, s') => negb (is_free_b (user_pages s') 0x84000000) && (match heap_pages s' !! 7 with Some [] => true | _ => false end)
          | _ => false end = true) as H by (vm_compute; reflexivity).
  destruct (after_load [(small, [1; 2; 3]); (below, [])] vm0) as [[[] s'] |] eqn:E; [discriminate H | | discriminate H]. apply andb_true_iff in H as [H1 H2].
  destruct (after_load_inv _ _ _ _ E) as (r & El & ->). exists s'. split; [exact El |]. split; [cbn [user_pages vm0]; apply (pool_spec 0x84000000 0x8C000000); lia |].
  split; [| destruct (heap_pages s' !! 7) as [[| b l] |]; [reflexivity | discriminate H2 ..]]. unfold is_free, is_free_b in *. apply negb_true_iff, Nat.eqb_neq in H1. exact H1.
Qed.

(** ** Witnesses *)

Lemma small_ok : Forall (fits (file_of [(small, [1; 2; 3])])) [small].
Proof.
  constructor; [| constructor]. intros data _ _ _ E. vm_compute in E. injection E as <-. split; vm_compute; congruence.
Qed.

Lemma after_load_ok segs s : match after_load segs s with Some (b, _) => b | None => false end = true ->
  exists i s', load_elf (parse_as segs) ex_rt [] s = Done (Ok i, s').
Proof. unfold after_load. destruct (load_elf _ _ _ _) as [[[i | e] s'] |]; try done. eauto. Qed.

Lemma small_loaded i : 0 <= i < 10 -> (small, [1; 2; 3]) ∈ loadable (file_of [(small, [1; 2; 3])]) [small] /\ 0 <= i < seg_size small [1; 2; 3].
Proof. split; [vm_compute; left | done]. Qed.


Lemma elf_stops_kernel_witness : load_elf (parse_as [(huge, [1; 2; 3])]) ex_rt [] vm0 = Panic.
Proof.
  apply (elf_stops_kernel (parse_as [(huge, [1; 2; 3])]) ex_rt [] (file_of [(huge, [1; 2; 3])]) huge [] [1; 2; 3]
    (fst (alloc_aligned (user_pages vm0) (mkLayout (seg_size huge [1; 2; 3]) PAGE_SIZE))) 0x84000000 vm0);
    [reflexivity | reflexivity | reflexivity | vm_compute; discriminate | vm_compute; discriminate | reflexivity | split; vm_compute; congruence | vm_compute; reflexivity].
Defined.
