(* ===== verification/Surface.v ===== *)
(** * Drawing surfaces

    Models the surfaces that programs draw in and the compositor that shows them:
    - the registry of [kmain/src/kernel/surface.rs];
    - [run_fb_surface_create_req] and [run_fb_surface_destroy_req] of
      [kmain/src/kernel/mod.rs], and the surfaces' part of [dealloc_process];
    - [handle_fb_present] of [kmain/src/lib.rs];
    - the rectangles, the damage and the blit of [kmain/src/drivers/display.rs].

    Frames, tables and memory are those of [Mmap.v]; the kernel's alias of a frame is
    identified with the frame. Text panes, which [display.rs] draws when the active
    source has no surface, are not modelled beyond their list of sources. *)

From Stdlib Require Import Sorted.
From stdpp Require Import base list option numbers sets gmap.
From S2P Require Import Prelude Text Buddy Sv48 PageTable Translate Mapping Layout Abi Perms Thread Completion Work Syscall UserMem Mmap.
#[local] Open Scope Z_scope.

(** ** The registry *)

Record SurfaceEntry := mkSurfaceEntry {
  se_user_va : Z;
  se_kdmap_kva : Z;
  se_width : Z;
  se_height : Z;
  se_format : FbFormat;
  se_size_bytes : Z;
  se_backing : PhysBacking;
}.

Record SurfaceSnapshot := mkSnapshot { sn_kdmap_kva : Z; sn_width : Z; sn_height : Z; sn_format : FbFormat }.

Record ProcessSurfaces := mkProcessSurfaces { ps_surfaces : list (Z * SurfaceEntry); ps_next_id : Z; ps_next_va : Z }.

Definition ProcessSurfaces_new : ProcessSurfaces := mkProcessSurfaces [] 1 UPROC_SHARED_BASE.

Definition alloc_id (p : ProcessSurfaces) : Z * ProcessSurfaces :=
  (ps_next_id p, mkProcessSurfaces (ps_surfaces p) ((ps_next_id p + 1) mod 2 ^ 32) (ps_next_va p)).
Definition alloc_va (size : Z) (p : ProcessSurfaces) : Z * ProcessSurfaces :=
  (ps_next_va p, mkProcessSurfaces (ps_surfaces p) (ps_next_id p) (wadd (ps_next_va p) size)).
Definition ps_insert (id : Z) (e : SurfaceEntry) (p : ProcessSurfaces) : ProcessSurfaces :=
  mkProcessSurfaces (bm_insert id e (ps_surfaces p)) (ps_next_id p) (ps_next_va p).
Definition ps_remove (id : Z) (p : ProcessSurfaces) : option (SurfaceEntry * ProcessSurfaces) :=
  match bm_get id (ps_surfaces p) with
  | None => None
  | Some e => Some (e, mkProcessSurfaces (bm_remove id (ps_surfaces p)) (ps_next_id p) (ps_next_va p))
  end.
Definition snapshot (id : Z) (p : ProcessSurfaces) : option SurfaceSnapshot :=
  match bm_get id (ps_surfaces p) with
  | None => None
  | Some e => Some (mkSnapshot (se_kdmap_kva e) (se_width e) (se_height e) (se_format e))
  end.

Record Screen := mkScreen { sc_vm : Vm; sc_table : gmap Z ProcessSurfaces }.

Definition set_vm (v : Vm) (s : Screen) : Screen := mkScreen v (sc_table s).
Definition set_table (t : gmap Z ProcessSurfaces) (s : Screen) : Screen := mkScreen (sc_vm s) t.

Definition surface_register (pid : Z) (s : Screen) : Screen :=
  match sc_table s !! pid with Some _ => s | None => set_table (<[pid := ProcessSurfaces_new]> (sc_table s)) s end.

(** ** Creating and destroying *)

(** [(pixel_bytes + PAGE_SIZE - 1) & !(PAGE_SIZE - 1)]. *)
Definition surface_size (pixel_bytes : Z) : Z := Z.land (wsub (wadd pixel_bytes PAGE_SIZE) 1) (wnot (PAGE_SIZE - 1)).

Definition surface_config (user_va pa : Z) : MappingConfig :=
  mkMappingConfig (perm_or_u64 PR (perm_or PW PU)) 4 PAGE_SIZE user_va pa false TagNone.

(** The pages of a surface, unmapped; errors are ignored. *)
Definition unmap_surface (rt : RootTable) (va size : Z) (v : Vm) : panics Vm :=
  match unmap_range (pte_mem v) rt va (wadd va size) with
  | Some (Done (m, _)) => Done (set_pte_mem m v)
  | Some Panic | None => Panic
  end.

Definition run_fb_surface_create_req (rt : RootTable) (req : FbSurfaceCreateReq) (pid : Z) (s : Screen) : panics ((Z * Z) * Screen) :=
  let fail e s := Done ((to_ret e, 0), s) in
  match FbFormat_from_u32 (fb_format_raw req) with
  | None => fail errno.EINVAL s
  | Some format =>
      if ((fb_width req =? 0) || (fb_height req =? 0))%bool then fail errno.EINVAL s
      else
        match (n ← checked_mul (fb_width req) (fb_height req); checked_mul n (bytes_per_pixel format)) with
        | None => fail errno.EINVAL s
        | Some pixel_bytes =>
            let size := surface_size pixel_bytes in
            match layout_from_size_align size PAGE_SIZE with
            | None => fail errno.EINVAL s
            | Some layout =>
                match alloc_aligned (kernel_pages (sc_vm s)) layout with
                | (fa, None) => fail errno.ENOMEM (set_vm (set_kernel_pages fa (sc_vm s)) s)
                | (fa, Some pa) =>
                    let v := set_kernel_pages fa (sc_vm s) in
                    let s := surface_register pid (set_vm (set_phys_mem (zero_bytes pa size (phys_mem v)) v) s) in
                    let backing := BShared pa layout in
                    let free s := set_vm (free_backing backing (sc_vm s)) s in
                    match sc_table s !! pid with
                    | None => fail errno.ESRCH (free s)
                    | Some ps =>
                        let '(user_va, ps) := alloc_va size ps in
                        let s := set_table (<[pid := ps]> (sc_table s)) s in
                        if UPROC_SHARED_END <? wadd user_va size then fail errno.ENOMEM (free s)
                        else
                          r <-! map_into rt (surface_config user_va pa) (wadd user_va size) (wadd pa size) (sc_vm s) ;;
                          let '(r, v) := r in
                          let s := set_vm v s in
                          match r with
                          | Err _ => fail errno.ENOMEM (free s)
                          | Ok _ =>
                              match heap_pages (sc_vm s) !! pid with
                              | None => v <-! unmap_surface rt user_va size (sc_vm s) ;; fail errno.ESRCH (free (set_vm v s))
                              | Some _ =>
                                  let '(id, ps) := alloc_id ps in
                                  let e := mkSurfaceEntry user_va pa (fb_width req) (fb_height req) format size backing in
                                  Done ((id, user_va), set_table (<[pid := ps_insert id e ps]> (sc_table s)) s)
                              end
                          end
                    end
                end
            end
        end
  end.

Definition run_fb_surface_destroy_req (rt : RootTable) (req : FbSurfaceDestroyReq) (pid : Z) (s : Screen) : panics (Z * Screen) :=
  match sc_table s !! pid with
  | None => Done (to_ret errno.ESRCH, s)
  | Some ps =>
      match ps_remove (fb_handle req) ps with
      | None => Done (to_ret errno.EBADF, s)
      | Some (e, ps) =>
          let s := set_table (<[pid := ps]> (sc_table s)) s in
          v <-! unmap_surface rt (se_user_va e) (se_size_bytes e) (sc_vm s) ;;
          Done (0, set_vm (free_backing (se_backing e) v) s)
      end
  end.

(** [unregister] and the loop over [drain_all], when a process ends. *)
Definition release_surfaces (pid : Z) (s : Screen) : Screen :=
  match sc_table s !! pid with
  | None => s
  | Some ps => mkScreen (free_backings (se_backing <$> (ps_surfaces ps).*2) (sc_vm s)) (delete pid (sc_table s))
  end.

(** ** Presenting *)

Definition sat_u32 (x : Z) : Z := Z.min x (2 ^ 32 - 1).

Record PresentArgs := mkPresentArgs {
  pa_kdmap_kva : Z; pa_width : Z; pa_height : Z; pa_rect_x : Z; pa_rect_y : Z; pa_rect_w : Z; pa_rect_h : Z; pa_format_raw : Z;
}.

Definition FbFormat_raw (f : FbFormat) : Z := match f with Bgra8888 => 1 end.

(** What a present queues for the compositor, or the error. *)
Definition fb_present (pid handle rect_x rect_y rect_w rect_h : Z) (table : gmap Z ProcessSurfaces) : result PresentArgs Z :=
  if ((rect_w =? 0) || (rect_h =? 0))%bool then Err (to_ret errno.EINVAL)
  else
    match table !! pid with
    | None => Err (to_ret errno.EBADF)
    | Some ps =>
        match snapshot handle ps with
        | None => Err (to_ret errno.EBADF)
        | Some sn =>
            let x_end := sat_u32 (rect_x + rect_w) in
            let y_end := sat_u32 (rect_y + rect_h) in
            if ((sn_width sn <? x_end) || (sn_height sn <? y_end))%bool then Err (to_ret errno.EINVAL)
            else Ok (mkPresentArgs (sn_kdmap_kva sn) (sn_width sn) (sn_height sn) rect_x rect_y rect_w rect_h (FbFormat_raw (sn_format sn)))
        end
    end.

(** ** Rectangles; coordinates are [u32] *)

Record Rect := mkRect { r_x : Z; r_y : Z; r_w : Z; r_h : Z }.

Definition rect_empty : Rect := mkRect 0 0 0 0.
Definition is_empty (r : Rect) : bool := (r_w r =? 0) || (r_h r =? 0).

Definition add_u32 (a b : Z) : Z := (a + b) mod 2 ^ 32.
Definition sub_u32 (a b : Z) : Z := (a - b) mod 2 ^ 32.

Definition rect_union (a b : Rect) : Rect :=
  if is_empty a then b
  else if is_empty b then a
  else
    let x0 := Z.min (r_x a) (r_x b) in
    let y0 := Z.min (r_y a) (r_y b) in
    let x1 := Z.max (add_u32 (r_x a) (r_w a)) (add_u32 (r_x b) (r_w b)) in
    let y1 := Z.max (add_u32 (r_y a) (r_h a)) (add_u32 (r_y b) (r_h b)) in
    mkRect x0 y0 (sub_u32 x1 x0) (sub_u32 y1 y0).

Definition clip (r : Rect) (fb_w fb_h : Z) : Rect :=
  let x := Z.min (r_x r) fb_w in
  let y := Z.min (r_y r) fb_h in
  mkRect x y (Z.max 0 (Z.min (add_u32 (r_x r) (r_w r)) fb_w - x)) (Z.max 0 (Z.min (add_u32 (r_y r) (r_h r)) fb_h - y)).

(** ** The display *)

Inductive Source := SKernel | SProcess (pid : Z).

#[global] Instance Source_eq : EqDecision Source.
Proof. solve_decision. Defined.

Record SurfaceState := mkSurfaceState { ss_kdmap_kva : Z; ss_width : Z; ss_height : Z; ss_format : FbFormat }.

(** The scanout: pixels by index, row by row. *)
Record FrameBuffer := mkFrameBuffer { fb_cols : Z; fb_rows : Z; fb_pixels : gmap Z Z }.

(** The sources that have a pane, in order; the surfaces, latest first. *)
Record Display := mkDisplay {
  d_fb : FrameBuffer;
  d_active : Source;
  d_panes : list Source;
  d_surfaces : list (Source * SurfaceState);
  d_dirty : bool;
  d_damage : Rect;
}.

Fixpoint surface_of (src : Source) (l : list (Source * SurfaceState)) : option SurfaceState :=
  match l with [] => None | (k, st) :: l => if decide (k = src) then Some st else surface_of src l end.

Definition set_damage (dirty : bool) (r : Rect) (d : Display) : Display :=
  mkDisplay (d_fb d) (d_active d) (d_panes d) (d_surfaces d) dirty r.

Definition mark_full_dirty (d : Display) : Display := set_damage true (mkRect 0 0 (fb_cols (d_fb d)) (fb_rows (d_fb d))) d.

Definition extend_damage (r : Rect) (d : Display) : Display :=
  let clipped := clip r (fb_cols (d_fb d)) (fb_rows (d_fb d)) in
  if is_empty clipped then d else set_damage true (rect_union (d_damage d) clipped) d.

(** Keys of a tree: a kernel pane comes first, then processes by number. *)
Definition source_lt (a b : Source) : bool :=
  match a, b with SKernel, SKernel => false | SKernel, _ => true | _, SKernel => false | SProcess p, SProcess q => p <? q end.

Fixpoint insert_source (src : Source) (l : list Source) : list Source :=
  match l with
  | [] => [src]
  | k :: l' => if decide (k = src) then l else if source_lt src k then src :: l else k :: insert_source src l'
  end.

Definition present_surface (src : Source) (args : PresentArgs) (d : Display) : Display :=
  match FbFormat_from_u32 (pa_format_raw args) with
  | None => d
  | Some format =>
      let st := mkSurfaceState (pa_kdmap_kva args) (pa_width args) (pa_height args) format in
      let d := mkDisplay (d_fb d) (d_active d) (insert_source src (d_panes d))
                 ((src, st) :: filter (fun e => e.1 <> src) (d_surfaces d)) (d_dirty d) (d_damage d) in
      if decide (src = d_active d) then extend_damage (mkRect (pa_rect_x args) (pa_rect_y args) (pa_rect_w args) (pa_rect_h args)) d
      else d
  end.

Fixpoint after (src : Source) (l : list Source) : option Source :=
  match l with [] => None | k :: l => if decide (k = src) then head l else after src l end.

Definition cycle_active (d : Display) : Display :=
  match d_panes d with
  | [] => d
  | _ =>
      let next := default SKernel (after (d_active d) (d_panes d)) in
      if decide (next = d_active d) then d
      else mark_full_dirty (mkDisplay (d_fb d) next (d_panes d) (d_surfaces d) (d_dirty d) (d_damage d))
  end.

(** ** The blit *)

Definition read_px (m : gmap Z Z) (a : Z) : Z := le_value (bytes_at m a 4).

(** The pixels copied, in order: the address read and the index written. *)
Definition blit_pixels (st : SurfaceState) (r : Rect) (cols : Z) : list (Z * Z) :=
  if is_empty r then []
  else
    let x_end := Z.min (sat_u32 (r_x r + r_w r)) (ss_width st) in
    let y_end := Z.min (sat_u32 (r_y r + r_h r)) (ss_height st) in
    if ((x_end <=? r_x r) || (y_end <=? r_y r))%bool then []
    else
      row ← seqZ (r_y r) (y_end - r_y r);
      col ← seqZ 0 (x_end - r_x r);
      [(ss_kdmap_kva st + 4 * (row * ss_width st + r_x r + col), row * cols + r_x r + col)].

Definition blit_surface_rect (st : SurfaceState) (r : Rect) (m : gmap Z Z) (fb : FrameBuffer) : FrameBuffer :=
  mkFrameBuffer (fb_cols fb) (fb_rows fb)
    (foldl (fun px p => <[p.2 := read_px m p.1]> px) (fb_pixels fb) (blit_pixels st r (fb_cols fb))).

(** What a repaint does: nothing, a blit of the damage, or a redraw of the text pane. *)
Inductive repainted := RClean (d : Display) | RSurface (damage : Rect) (d : Display) | RText (damage : Rect) (d : Display).

Definition repaint (m : gmap Z Z) (d : Display) : repainted :=
  if negb (d_dirty d) then RClean d
  else
    let damage := clip (d_damage d) (fb_cols (d_fb d)) (fb_rows (d_fb d)) in
    let d := set_damage false rect_empty d in
    if is_empty damage then RClean d
    else
      match surface_of (d_active d) (d_surfaces d) with
      | Some st => RSurface damage (mkDisplay (blit_surface_rect st damage m (d_fb d)) (d_active d) (d_panes d) (d_surfaces d) false rect_empty)
      | None => RText damage d
      end.

(** ** The blit is exact *)

Definition rect_in (r : Rect) (cols rows : Z) : Prop := 0 <= r_x r /\ 0 <= r_y r /\ 0 <= r_w r /\ 0 <= r_h r /\ r_x r + r_w r <= cols /\ r_y r + r_h r <= rows.

Definition inside (r : Rect) (x y : Z) : Prop := r_x r <= x < r_x r + r_w r /\ r_y r <= y < r_y r + r_h r.

#[global] Instance inside_dec r x y : Decision (inside r x y).
Proof. unfold inside. apply _. Defined.

Definition fb_ok (fb : FrameBuffer) : Prop := 0 <= fb_cols fb < 2 ^ 32 /\ 0 <= fb_rows fb < 2 ^ 32.

Record display_ok (d : Display) : Prop := {
  do_fb : fb_ok (d_fb d);
  do_damage : rect_in (d_damage d) (fb_cols (d_fb d)) (fb_rows (d_fb d));
  do_surfaces : forall src st, surface_of src (d_surfaces d) = Some st -> 0 <= ss_width st < 2 ^ 32 /\ 0 <= ss_height st < 2 ^ 32;
}.

Lemma foldl_put (g rd : Z -> Z) l : forall px, Forall (fun p => p.1 = g p.2) l ->
  forall k, foldl (fun px p => <[p.2 := rd p.1]> px) px l !! k = if decide (k ∈ l.*2) then Some (rd (g k)) else (px : gmap Z Z) !! k.
Proof.
  induction l as [| [a b] l IH] using rev_ind; intros px Hg k; [by rewrite decide_False by (cbn; apply not_elem_of_nil) |].
  apply Forall_app in Hg as [Hg [Hab _]%Forall_cons]. rewrite foldl_app, fmap_app. cbn [foldl fst snd fmap list_fmap] in *. subst a.
  destruct (decide (k = b)) as [-> | Hne]; [rewrite lookup_insert_eq, decide_True by set_solver; done |].
  rewrite lookup_insert_ne, IH by done. destruct (decide (k ∈ l.*2)) as [Hin | Hin]; [by rewrite decide_True by set_solver | by rewrite decide_False by set_solver].
Qed.

Lemma blit_pixels_elem st r cols p : p ∈ blit_pixels st r cols <->
  exists x y, r_x r <= x < Z.min (sat_u32 (r_x r + r_w r)) (ss_width st) /\ r_y r <= y < Z.min (sat_u32 (r_y r + r_h r)) (ss_height st) /\ is_empty r = false /\
    p = (ss_kdmap_kva st + 4 * (y * ss_width st + x), y * cols + x).
Proof.
  unfold blit_pixels. destruct (is_empty r); [split; [by intros ?%not_elem_of_nil | by intros (? & ? & _ & _ & ? & _)] |].
  set (xe := Z.min _ _). set (ye := Z.min _ _). destruct (Z.leb_spec xe (r_x r)); cbn [orb].
  { split; [by intros ?%not_elem_of_nil | intros (x & y & Hx & _); lia]. }
  destruct (Z.leb_spec ye (r_y r)); [split; [by intros ?%not_elem_of_nil | intros (x & y & _ & Hy & _); lia] |].
  rewrite list_elem_of_bind. split.
  - intros (y & Hp & Hy%elem_of_seqZ). apply list_elem_of_bind in Hp as (c & Hp & Hc%elem_of_seqZ). apply list_elem_of_singleton in Hp as ->.
    exists (r_x r + c), y. split_and!; try lia. f_equal; lia.
  - intros (x & y & Hx & Hy & _ & ->). exists y. split; [| apply elem_of_seqZ; lia]. apply list_elem_of_bind. exists (x - r_x r). split; [| apply elem_of_seqZ; lia].
    apply list_elem_of_singleton. f_equal; lia.
Qed.

(** Reads stay in the surface, writes in the scanout. *)
Lemma blit_bounds st r cols rows a i : rect_in r cols rows -> cols < 2 ^ 32 -> rows < 2 ^ 32 -> 0 <= ss_width st -> (a, i) ∈ blit_pixels st r cols ->
  ss_kdmap_kva st <= a /\ a + 4 <= ss_kdmap_kva st + 4 * (ss_width st * ss_height st) /\ 0 <= i < cols * rows.
Proof.
  intros (Hx & Hy & Hw & Hh & Hxe & Hye) Hc Hr Hsw (x & y & Hxx & Hyy & _ & [= -> ->])%blit_pixels_elem. unfold sat_u32 in *.
  assert (0 <= x < ss_width st /\ 0 <= y < ss_height st) as [Hx' Hy'] by lia. assert (x < cols /\ y < rows) as [? ?] by lia. split_and!; nia.
Qed.

Lemma blit_at st r m fb x y : fb_ok fb -> rect_in r (fb_cols fb) (fb_rows fb) -> 0 <= x < fb_cols fb -> 0 <= y < fb_rows fb ->
  fb_pixels (blit_surface_rect st r m fb) !! (y * fb_cols fb + x) =
    if decide (inside r x y /\ x < ss_width st /\ y < ss_height st) then Some (read_px m (ss_kdmap_kva st + 4 * (y * ss_width st + x)))
    else fb_pixels fb !! (y * fb_cols fb + x).
Proof.
  intros [Hc Hr] (Hx0 & Hy0 & Hw & Hh & Hxe & Hye) Hx Hy. unfold blit_surface_rect. cbn [fb_pixels]. set (cols := fb_cols fb) in *.
  set (g := fun k => ss_kdmap_kva st + 4 * (k / cols * ss_width st + k mod cols)).
  assert (forall u v, 0 <= u < cols -> (v * cols + u) / cols = v /\ (v * cols + u) mod cols = u) as Hdm.
  { intros u v Hu. split; [symmetry; apply (Z.div_unique _ _ _ u); lia | symmetry; apply (Z.mod_unique _ _ v); lia]. }
  rewrite (foldl_put g (read_px m)).
  - unfold g. destruct (Hdm x y Hx) as [-> ->].
    assert (y * cols + x ∈ (blit_pixels st r cols).*2 <-> inside r x y /\ x < ss_width st /\ y < ss_height st) as Hiff; [| by destruct (decide _), (decide _); tauto].
    rewrite list_elem_of_fmap. split.
    + intros ([a i] & Ei & (x' & y' & Hx' & Hy' & _ & [= -> ->])%blit_pixels_elem). cbn in Ei. unfold sat_u32 in *. unfold inside.
      assert (0 <= x' < cols) as Hxc by lia. destruct (Hdm x y Hx) as [E1 E2], (Hdm x' y' Hxc) as [E3 E4]. rewrite Ei in E1, E2. lia.
    + intros [[H1 H2] [H3 H4]]. assert (is_empty r = false) as He by (unfold is_empty; destruct (Z.eqb_spec (r_w r) 0), (Z.eqb_spec (r_h r) 0); done || lia).
      exists (ss_kdmap_kva st + 4 * (y * ss_width st + x), y * cols + x). split; [done |]. apply blit_pixels_elem. exists x, y.
      split; [unfold sat_u32; lia |]. split; [unfold sat_u32; lia | done].
  - apply Forall_forall. intros [a i] (x' & y' & Hx' & Hy' & _ & [= -> ->])%blit_pixels_elem. cbn. unfold sat_u32 in *. unfold g. destruct (Hdm x' y') as [-> ->]; [lia | done].
Qed.

(** ** Damage stays on the screen *)

Lemma clip_in r cols rows : 0 <= cols < 2 ^ 32 -> 0 <= rows < 2 ^ 32 -> 0 <= r_x r -> 0 <= r_y r -> rect_in (clip r cols rows) cols rows.
Proof.
  intros Hc Hr Hx Hy. unfold rect_in, clip, add_u32. cbn. pose proof (Z.mod_pos_bound (r_x r + r_w r) (2 ^ 32)). pose proof (Z.mod_pos_bound (r_y r + r_h r) (2 ^ 32)). lia.
Qed.

Lemma clip_same r cols rows : 0 <= cols < 2 ^ 32 -> 0 <= rows < 2 ^ 32 -> rect_in r cols rows -> clip r cols rows = r.
Proof.
  intros Hc Hr (Hx & Hy & Hw & Hh & Hxe & Hye). unfold clip, add_u32. rewrite !Z.mod_small by lia. destruct r; cbn in *. f_equal; lia.
Qed.

Lemma union_in a b cols rows : cols < 2 ^ 32 -> rows < 2 ^ 32 -> rect_in a cols rows -> rect_in b cols rows -> rect_in (rect_union a b) cols rows.
Proof.
  intros Hc Hr Ha Hb. unfold rect_union. destruct (is_empty a); [done |]. destruct (is_empty b); [done |]. unfold rect_in, add_u32, sub_u32 in *. cbn.
  rewrite !(Z.mod_small (_ + _)) by lia. rewrite !Z.mod_small by lia. lia.
Qed.

(** The union covers both. *)
Lemma union_covers a b cols rows x y : cols < 2 ^ 32 -> rows < 2 ^ 32 -> rect_in a cols rows -> rect_in b cols rows -> inside a x y \/ inside b x y -> inside (rect_union a b) x y.
Proof.
  intros Hc Hr Ha Hb Hin. unfold rect_union, is_empty. unfold rect_in, inside, add_u32, sub_u32 in *.
  destruct (Z.eqb_spec (r_w a) 0), (Z.eqb_spec (r_h a) 0); cbn [orb]; try lia. destruct (Z.eqb_spec (r_w b) 0), (Z.eqb_spec (r_h b) 0); cbn [orb]; try lia.
  cbn. rewrite !(Z.mod_small (_ + _)) by lia. rewrite !Z.mod_small by lia. lia.
Qed.

Lemma extend_ok r d : 0 <= r_x r -> 0 <= r_y r -> display_ok d -> display_ok (extend_damage r d).
Proof.
  intros Hx Hy [Hf Hd Hs]. unfold extend_damage. destruct (is_empty _); [done |]. split; cbn; try done. destruct Hf.
  apply union_in; [lia | lia | done | by apply clip_in].
Qed.

Lemma surface_of_insert src st l src' : surface_of src' ((src, st) :: filter (fun e => e.1 <> src) l) = if decide (src = src') then Some st else surface_of src' l.
Proof.
  cbn. destruct (decide (src = src')) as [| Hne]; [done |]. induction l as [| [k s] l IH]; [done |]. rewrite filter_cons. cbn.
  destruct (decide (k <> src)) as [Hk | Hk]; cbn; rewrite IH; [done |]. assert (k = src) as -> by (destruct (decide (k = src)); tauto). by rewrite decide_False by done.
Qed.

Lemma present_ok src args d : 0 <= pa_width args < 2 ^ 32 -> 0 <= pa_height args < 2 ^ 32 -> 0 <= pa_rect_x args -> 0 <= pa_rect_y args ->
  display_ok d -> display_ok (present_surface src args d).
Proof.
  intros Hw Hh Hx Hy Hd. unfold present_surface. destruct (FbFormat_from_u32 _) as [f |]; [| done]. set (d1 := mkDisplay _ _ _ _ _ _).
  assert (display_ok d1) as Hd1.
  { destruct Hd as [Hf Hdm Hs]. split; try done. intros src' st. unfold d1. cbn [d_surfaces]. rewrite surface_of_insert. destruct (decide _); [by intros [= <-] | apply Hs]. }
  destruct (decide _); [by apply extend_ok | done].
Qed.

Lemma full_dirty_ok d : fb_ok (d_fb d) -> (forall src st, surface_of src (d_surfaces d) = Some st -> 0 <= ss_width st < 2 ^ 32 /\ 0 <= ss_height st < 2 ^ 32) ->
  display_ok (mark_full_dirty d).
Proof. intros [Hc Hr] Hs. split; try done. unfold rect_in. cbn. lia. Qed.

Lemma cycle_ok d : display_ok d -> display_ok (cycle_active d).
Proof. intros [Hf Hd Hs]. unfold cycle_active. destruct (d_panes d); [done |]. destruct (decide _); [done |]. by apply full_dirty_ok. Qed.

(** ** Creating a surface *)

Record entry_ok (e : SurfaceEntry) : Prop := {
  eo_dims : 0 < se_width e < 2 ^ 32 /\ 0 < se_height e < 2 ^ 32;
  eo_size : 4 * (se_width e * se_height e) <= se_size_bytes e /\ (PAGE_SIZE | se_size_bytes e);
  eo_frame : se_backing e = BShared (se_kdmap_kva e) (mkLayout (se_size_bytes e) PAGE_SIZE) /\ se_size_bytes e <= layout_size (mkLayout (se_size_bytes e) PAGE_SIZE);
}.

Lemma surface_size_spec n : 0 < n <= 2 ^ 61 -> n <= surface_size n < n + PAGE_SIZE /\ (PAGE_SIZE | surface_size n).
Proof.
  intros Hn. unfold surface_size. rewrite wadd_small by (unfold W64, PAGE_SIZE; lia). rewrite wsub_small by (unfold W64, PAGE_SIZE; lia).
  change (Z.land ?x (wnot (PAGE_SIZE - 1))) with (page_base x). rewrite page_base_eq by (unfold is_u64, W64, PAGE_SIZE; lia).
  set (x := n + PAGE_SIZE - 1). pose proof (Z.div_mod x PAGE_SIZE ltac:(done)). pose proof (Z.mod_pos_bound x PAGE_SIZE ltac:(done)).
  split; [unfold x in *; unfold PAGE_SIZE in *; lia |]. exists (x / PAGE_SIZE). lia.
Qed.

(** The registry of a process, or a new one. *)
Definition slot (pid : Z) (s : Screen) : ProcessSurfaces := default ProcessSurfaces_new (sc_table s !! pid).

Lemma register_slot pid s : sc_table (surface_register pid s) !! pid = Some (slot pid s) /\ sc_vm (surface_register pid s) = sc_vm s /\
  forall t, <[pid := t]> (sc_table (surface_register pid s)) = <[pid := t]> (sc_table s).
Proof.
  unfold surface_register, slot. destruct (sc_table s !! pid) as [ps |] eqn:E; [done |]. cbn. rewrite lookup_insert_eq. split_and!; try done. intros t. by rewrite insert_insert_eq.
Qed.

(** Everything below [va] is mapped as before. *)
Definition kept_below (rt : RootTable) (va : Z) (m m' : gmap Z Z) : Prop :=
  forall y, 0 <= y < va -> virt_to_phys m' rt y = virt_to_phys m rt y /\ forall l raw, maps m' rt y l raw <-> maps m rt y l raw.

Lemma prefix_keeps rt va pa d m m' : range_mapped rt va pa d m m' -> leaves_kept rt va d m m' -> 0 <= va <= 2 ^ 47 -> 0 <= d <= 2 ^ 47 -> kept_below rt va m m'.
Proof.
  intros Hm Hk Hv Hd y Hy. assert (d <= off va y) as Ho.
  { unfold off. rewrite <- (Z.mod_add (y - va) 1), Z.mul_1_l, Z.mod_small by lia. lia. }
  split; [| intros l raw; by apply Hk]. rewrite (Hm y) by (unfold is_u64, W64; lia). by rewrite decide_False by lia.
Qed.

(** A surface made: its entry, its frame and its pages. *)
Record made (rt : RootTable) (req : FbSurfaceCreateReq) (pid id va : Z) (s s' : Screen) : Prop := {
  md_ids : id = ps_next_id (slot pid s) /\ va = ps_next_va (slot pid s);
  md_entry : exists e, entry_ok e /\ se_width e = fb_width req /\ se_height e = fb_height req /\ se_user_va e = va /\ va + se_size_bytes e <= UPROC_SHARED_END /\
    sc_table s' = <[pid := mkProcessSurfaces (bm_insert id e (ps_surfaces (slot pid s))) ((id + 1) mod 2 ^ 32) (va + se_size_bytes e)]> (sc_table s) /\
    fresh_block (se_backing e) (sc_vm s) /\ taken (se_backing e) (sc_vm s) (sc_vm s') /\ zeroed (se_backing e) (se_size_bytes e) (sc_vm s) (sc_vm s') /\
    range_mapped rt va (se_kdmap_kva e) (se_size_bytes e) (pte_mem (sc_vm s)) (pte_mem (sc_vm s')) /\
    (forall a, is_u64 a -> off va a < se_size_bytes e -> virt_to_phys (pte_mem (sc_vm s)) rt a = Done None) /\
    alloc_aligned (kernel_pages (sc_vm s)) (mkLayout (se_size_bytes e) PAGE_SIZE) = (kernel_pages (sc_vm s'), Some (se_kdmap_kva e)) /\
    range_leaves (tagged TagNone) rt 0 va (se_size_bytes e) (pte_mem (sc_vm s')) /\ kept_below rt va (pte_mem (sc_vm s)) (pte_mem (sc_vm s'));
}.

(** A surface refused: no memory is taken, and what is mapped below stays so. *)
Record refused (rt : RootTable) (pid : Z) (s s' : Screen) : Prop := {
  rf_pools : given_back (sc_vm s) (sc_vm s') /\ returned (sc_vm s) (sc_vm s');
  rf_maps : kept_below rt (ps_next_va (slot pid s)) (pte_mem (sc_vm s)) (pte_mem (sc_vm s'));
  rf_slot : ps_surfaces (slot pid s') = ps_surfaces (slot pid s) /\ ps_next_id (slot pid s') = ps_next_id (slot pid s) /\
    ps_next_va (slot pid s) <= ps_next_va (slot pid s') /\ (PAGE_SIZE | ps_next_va (slot pid s'));
}.

Definition create_ok (rt : RootTable) (req : FbSurfaceCreateReq) (pid : Z) (s : Screen) : Prop :=
  0 < fb_width req < 2 ^ 32 /\ 0 < fb_height req < 2 ^ 32 /\ 4 * (fb_width req * fb_height req) <= 2 ^ 61 /\ fb_format_raw req = 1 /\
  vm_ok rt (sc_vm s) /\ is_Some (heap_pages (sc_vm s) !! pid) /\ (PAGE_SIZE | ps_next_va (slot pid s)) /\ UPROC_SHARED_BASE <= ps_next_va (slot pid s) <= 2 ^ 62.

Lemma create_spec rt req pid s : create_ok rt req pid s ->
  exists id va s', run_fb_surface_create_req rt req pid s = Done ((id, va), s') /\ vm_ok rt (sc_vm s') /\ heap_pages (sc_vm s') = heap_pages (sc_vm s) /\
    (made rt req pid id va s s' \/ (id = to_ret errno.ENOMEM /\ refused rt pid s s')).
Proof.
  intros (Hw & Hh & Hpx & Hf & Hs & Halive & Hva & Hvb). unfold run_fb_surface_create_req. rewrite Hf. change (FbFormat_from_u32 1) with (Some Bgra8888). cbv beta iota.
  destruct (Z.eqb_spec (fb_width req) 0); [lia |]. destruct (Z.eqb_spec (fb_height req) 0); [lia |]. cbn [orb bytes_per_pixel]. unfold checked_mul.
  destruct (Z.ltb_spec (fb_width req * fb_height req) W64); [| unfold W64 in *; lia]. cbn [mbind option_bind].
  destruct (Z.ltb_spec (fb_width req * fb_height req * 4) W64); [| unfold W64 in *; lia]. set (px := fb_width req * fb_height req * 4).
  destruct (surface_size_spec px) as [Hsz Hdv]; [unfold px; nia |]. set (size := surface_size px) in *. unfold PAGE_SIZE in Hsz.
  rewrite layout_page by lia. pose proof (pool_block rt (sc_vm s) true size 12 Hs ltac:(lia) ltac:(lia)) as Hp. cbv zeta iota in Hp. change (mkLayout size (2 ^ 12)) with (mkLayout size PAGE_SIZE) in Hp.
  assert (forall v2, kernel_pages v2 = kernel_pages (sc_vm s) -> v2 = sc_vm s -> refused rt pid s (set_vm v2 s)) as Hsame.
  { intros v2 _ ->. split; [by split; [| left] | by split | by split_and!]. }
  destruct (alloc_aligned (kernel_pages (sc_vm s)) (mkLayout size PAGE_SIZE)) as [fa [pa |]] eqn:Ea.
  2: { subst fa. do 3 eexists. split; [done |]. assert (set_kernel_pages (kernel_pages (sc_vm s)) (sc_vm s) = sc_vm s) as E by (by destruct (sc_vm s)).
       rewrite E. split_and!; [done | done | right; split; [done | by apply Hsame]]. }
  destruct Hp as (Hpa & Hpe & Hpal & Hrm & Hfresh & Hall). change (2 ^ 12) with PAGE_SIZE in Hpal. set (b := BShared pa (mkLayout size PAGE_SIZE)) in *.
  set (v1 := set_phys_mem _ _). destruct (register_slot pid (set_vm v1 s)) as (E1 & E2 & E3). change (slot pid (set_vm v1 s)) with (slot pid s) in E1. rewrite E1. cbn [alloc_va].
  set (ps := slot pid s) in *. set (s1 := surface_register pid (set_vm v1 s)) in *. cbn [set_table sc_vm]. rewrite E3, E2. cbn [set_vm sc_vm sc_table].
  assert (0 <= ps_next_va ps <= 2 ^ 62) as Hv62 by (unfold UPROC_SHARED_BASE, UPROC_PRIV_END in Hvb; lia). rewrite wadd_small by (unfold W64; lia).
  assert (forall v2 t, kernel_pages v2 = fa -> user_pages v2 = user_pages (sc_vm s) -> pt_wf (pte_mem v2) rt (table_pages v2) -> kept_below rt (ps_next_va ps) (pte_mem (sc_vm s)) (pte_mem v2) ->
    t = <[pid := mkProcessSurfaces (ps_surfaces ps) (ps_next_id ps) (ps_next_va ps + size)]> (sc_table s) ->
    vm_ok rt (free_backing b v2) /\ refused rt pid s (mkScreen (free_backing b v2) t)) as Hfail.
  { intros v2 t Ek Eu Hpt Hkp ->. destruct (Hall v2 Ek Eu) as (_ & _ & Hg & Hpw). split; [eapply vm_ok_mono; [exact Hs | exact Hpt | done |]; intros x; by destruct (Hg x) as [-> ->] |].
    split; [split; [done |] | done |].
    - right. exists size, fa, pa. split_and!; [lia | lia | done | cbn; by rewrite Ek].
    - change (slot pid s) with ps. match goal with |- context [slot pid ?s'] => assert (slot pid s' = mkProcessSurfaces (ps_surfaces ps) (ps_next_id ps) (ps_next_va ps + size)) as -> end.
      { unfold slot. cbn [sc_table]. by rewrite lookup_insert_eq. }
      cbn. split_and!; [done | done | lia | by apply Z.divide_add_r]. }
  destruct (Z.ltb_spec UPROC_SHARED_END (ps_next_va ps + size)) as [Hout | Hin].
  { do 3 eexists. split; [done |]. destruct (Hfail v1 _ eq_refl eq_refl ltac:(apply Hs) ltac:(done) eq_refl) as [Hv Hr]. split_and!; [done | done | right; by split]. }
  assert (UPROC_SHARED_END <= 2 ^ 47) as Hend by done. destruct Hdv as [q En].
  destruct (map_into_range rt (surface_config (ps_next_va ps) pa) q v1) as (r & m & pages & d & Em & Hwf & (Hd & _ & Hm & Hnew & Hlv & Hkp) & Hr);
    cbn [surface_config vaddr paddr page_size levels] in *; rewrite <- ?En in *; unfold W64;
    [apply Hs | split; cbn; unfold is_u64, W64; done || lia | done | unfold PAGE_SIZE in En; lia | lia | lia | lia |].
  rewrite (wadd_small (ps_next_va ps) size) in Em by (unfold W64; lia). rewrite Em. cbn [pbind]. set (v2 := set_table_pages pages _) in *.
  pose proof (prefix_keeps rt _ _ d _ _ Hm Hkp ltac:(lia) ltac:(lia)) as Hkb. destruct r as [u | e].
  - subst d. destruct Halive as [l El]. cbn [set_vm sc_vm v2 set_table_pages set_pte_mem heap_pages v1 set_phys_mem set_kernel_pages]. rewrite El. cbn [alloc_id].
    do 3 eexists. split; [done |]. destruct (Hall v2 eq_refl eq_refl) as (Htk & Hpw & _). split_and!.
    + eapply vm_ok_mono; [exact Hs | exact Hwf | done |]. destruct Htk as [Ht Ho]. intros x. cbn in *. split; [by intros [? _]%Ht | done].
    + done.
    + left. split; [done |]. eexists (mkSurfaceEntry (ps_next_va ps) pa (fb_width req) (fb_height req) Bgra8888 size b). cbn [se_width se_height se_user_va se_size_bytes se_backing se_kdmap_kva].
      split_and!; try done; [split; cbn; try done; split; [unfold px in Hsz; lia | by exists q] | | intros a; apply zero_bytes_at].
      cbn [set_vm set_table sc_table]. by rewrite insert_insert_eq.
  - do 3 eexists. split; [done |]. destruct (Hfail v2 _ eq_refl eq_refl Hwf Hkb eq_refl) as [Hv Hg]. split_and!; [done | done | right; by split].
Qed.

(** ** Destroying a surface *)

Lemma unmap_surface_ok rt va size v :
  pt_wf (pte_mem v) rt (table_pages v) -> (PAGE_SIZE | va) -> (PAGE_SIZE | size) -> 0 <= va -> 0 <= size -> va + size <= 2 ^ 47 -> range_leaves (tagged TagNone) rt 0 va size (pte_mem v) ->
  exists m, unmap_surface rt va size v = Done (set_pte_mem m v) /\ pt_wf m rt (table_pages v) /\ range_unmapped rt va size (pte_mem v) m /\ leaves_kept rt va size (pte_mem v) m.
Proof.
  intros Hwf Hva Hsz Hv0 Hs0 Hend Hlv. unfold unmap_surface. rewrite wadd_small by (unfold W64; lia).
  destruct (unmap_range_correct rt va (va + size) (pte_mem v) (table_pages v)) as (r & -> & m & res & d & -> & Hwf' & Hd & Hdv & Hun & Hk & Hres);
    [done | lia | unfold W64; lia | lia | done | by apply Z.divide_add_r |].
  exists m. destruct res as [u | e].
  - subst d. replace (va + size - va) with size in * by lia. done.
  - exfalso. destruct Hres as [Hlt Hno]. destruct (Hlv d) as (raw & _ & Hr); [lia | exact Hdv |]. apply (Hno raw), Hk; [| done]. rewrite off_at by lia. lia.
Qed.

(** A surface in use: its pages are mapped, one leaf each, to its frame, which neither
    pool holds. *)
Record live (rt : RootTable) (v : Vm) (limit : Z) (e : SurfaceEntry) : Prop := {
  li_entry : entry_ok e;
  li_range : (PAGE_SIZE | se_user_va e) /\ 0 <= se_user_va e /\ se_user_va e + se_size_bytes e <= Z.min limit UPROC_SHARED_END;
  li_leaves : range_leaves (tagged TagNone) rt 0 (se_user_va e) (se_size_bytes e) (pte_mem v);
  li_shows : forall i, 0 <= i < se_size_bytes e -> virt_to_phys (pte_mem v) rt (se_user_va e + i) = Done (Some (se_kdmap_kva e + i));
  li_frame : forall x, in_blocks [block_of (se_backing e)] x -> x < 2 ^ 56 /\ ~ is_free (user_pages v) x;
}.

Definition va_apart (a b : SurfaceEntry) : Prop := se_user_va a + se_size_bytes a <= se_user_va b \/ se_user_va b + se_size_bytes b <= se_user_va a.

(** The registry of a process and the machine agree. *)
Record surfaces_ok (rt : RootTable) (pid : Z) (s : Screen) : Prop := {
  so_vm : vm_ok rt (sc_vm s);
  so_cursor : (PAGE_SIZE | ps_next_va (slot pid s)) /\ UPROC_SHARED_BASE <= ps_next_va (slot pid s);
  so_sorted : bm_sorted (ps_surfaces (slot pid s));
  so_ids : forall id e, (id, e) ∈ ps_surfaces (slot pid s) -> id < ps_next_id (slot pid s);
  so_live : forall id e, (id, e) ∈ ps_surfaces (slot pid s) -> live rt (sc_vm s) (ps_next_va (slot pid s)) e;
  so_apart : forall i a j b, (i, a) ∈ ps_surfaces (slot pid s) -> (j, b) ∈ ps_surfaces (slot pid s) -> i <> j -> va_apart a b;
  so_frames : holds (kernel_pages (sc_vm s)) ((fun e => block_of (se_backing e.2)) <$> ps_surfaces (slot pid s));
}.

Lemma live_kept rt v v' limit limit' e :
  live rt v limit e -> limit <= limit' -> kept_below rt limit (pte_mem v) (pte_mem v') -> (forall x, is_free (user_pages v') x -> is_free (user_pages v) x) -> live rt v' limit' e.
Proof.
  intros [He (Hd & H0 & Hl) Hlv Hsh Hfr] Hle Hk Hu. pose proof (eo_size _ He) as [Hsz _]. split; try done.
  - split_and!; [done | done | lia].
  - intros x Hx Hxd. destruct (Hlv x Hx Hxd) as (raw & HR & Hr). exists raw. split; [done |]. apply Hk; [lia | done].
  - intros i Hi. destruct (Hk (se_user_va e + i)) as [-> _]; [lia | by apply Hsh].
  - intros x Hx. destruct (Hfr x Hx) as [? Hn]. split; [done |]. intros ?%Hu. done.
Qed.

Lemma sizes_bound e : entry_ok e -> se_user_va e + se_size_bytes e <= UPROC_SHARED_END -> 0 <= se_user_va e -> 0 < se_size_bytes e <= 2 ^ 47.
Proof. intros [[Hw Hh] [Hs _] _] He H0. assert (UPROC_SHARED_END <= 2 ^ 47) by done. nia. Qed.

Lemma slot_insert pid t s ps : sc_table s = <[pid := ps]> t -> slot pid s = ps.
Proof. intros E. unfold slot. by rewrite E, lookup_insert_eq. Qed.

Lemma made_ok rt req pid id va s s' : surfaces_ok rt pid s -> vm_ok rt (sc_vm s') -> ps_next_id (slot pid s) < 2 ^ 32 - 1 -> 0 <= ps_next_id (slot pid s) -> made rt req pid id va s s' -> surfaces_ok rt pid s'.
Proof.
  intros [Hvm [Hc1 Hc2] Hso Hid Hlv Hap Hfr] Hvm' Hmax Hid0 [[-> ->] (e & He & _ & _ & Eva & Hend & Etab & Hfb & [Htk Hoth] & _ & Hm & _ & Ea & Hleaf & Hkb)].
  pose proof (slot_insert _ _ _ _ Etab) as Es. set (ps := slot pid s) in *. pose proof (eo_size _ He) as [Hsz Hdv]. pose proof (eo_frame _ He) as [Eb _]. rewrite Z.mod_small in Es by lia.
  assert (0 <= ps_next_va ps) as Hv0 by (assert (0 <= UPROC_SHARED_BASE) by done; lia). pose proof (sizes_bound e He ltac:(lia) ltac:(lia)) as Hsb. assert (UPROC_SHARED_END <= 2 ^ 47) as Hend' by done.
  destruct (page_layout (se_size_bytes e)) as (k & Hk & Ek & Hle & Hbo); [lia |]. specialize (Hbo (se_kdmap_kva e)). rewrite <- Eb in Hbo.
  rewrite Eb in Htk, Hoth, Hfb. cbn [backing_pa backing_layout pool_of other_pool] in Htk, Hoth, Hfb. unfold fresh_block in Hfb. cbn [backing_pa backing_layout pool_of] in Hfb.
  assert (ps_next_id ps ∉ (ps_surfaces ps).*1) as Hnew by (intros ((i & a) & Ei & Hin)%list_elem_of_fmap; cbn in Ei; subst; pose proof (Hid _ _ Hin); lia).
  assert (forall x, is_free (user_pages (sc_vm s')) x -> is_free (user_pages (sc_vm s)) x) as Hu by (rewrite Hoth; done).
  assert (forall i a, (i, a) ∈ ps_surfaces (slot pid s') -> (i = ps_next_id ps /\ a = e) \/ (i, a) ∈ ps_surfaces ps) as Hmem.
  { intros i a. rewrite Es. cbn [ps_surfaces]. rewrite bm_insert_perm, elem_of_cons by done. intros [[= -> ->] | ?]; tauto. }
  assert (forall i a, (i, a) ∈ ps_surfaces ps -> va_apart a e) as Hbelow by (intros i a Hin; pose proof (li_range _ _ _ _ (Hlv i a Hin)); left; lia).
  split; rewrite ?Es; cbn [ps_surfaces ps_next_id ps_next_va]; [done | split; [by apply Z.divide_add_r | lia] | by apply bm_insert_sorted | | | |].
  - intros i a Hin. assert ((i, a) ∈ ps_surfaces (slot pid s')) as [[-> ->] | Ho]%Hmem by (by rewrite Es); [lia | pose proof (Hid _ _ Ho); lia].
  - intros i a Hin. assert ((i, a) ∈ ps_surfaces (slot pid s')) as [[-> ->] | Ho]%Hmem by (by rewrite Es); [| by eapply live_kept; [apply (Hlv i a Ho) | lia | ..]].
    split; rewrite ?Eva; [done | split_and!; [done | lia | lia] | done | |].
    + intros j Hj. rewrite (Hm (ps_next_va ps + j)) by (unfold is_u64, W64; lia). rewrite off_at by lia. by rewrite decide_True by lia.
    + rewrite Hbo. intros x Hx%in_blocks_one. rewrite <- Ek in Hx. specialize (Hfb x Hx). split; [apply (vo_low _ _ Hvm); by left |].
      rewrite Hoth. intros Hf. by apply (vo_apart _ _ Hvm x).
  - intros i a j b Hi Hj Hne. assert ((i, a) ∈ ps_surfaces (slot pid s')) as Hi'%Hmem by (by rewrite Es). assert ((j, b) ∈ ps_surfaces (slot pid s')) as Hj'%Hmem by (by rewrite Es).
    destruct Hi' as [[-> ->] | Hi'], Hj' as [[-> ->] | Hj']; [done | pose proof (Hbelow _ _ Hj') as []; [by right | by left] | by eapply Hbelow | by eapply Hap].
  - unfold alloc_aligned in Ea. rewrite Ek in Ea. eapply holds_perm; [| by eapply (holds_alloc _ _ k); [exact Hfr | done | exact Ea]].
    rewrite bm_insert_perm by done. cbn. rewrite Hbo. symmetry. apply Permutation_cons_append.
Qed.

Lemma refused_ok rt pid s s' : surfaces_ok rt pid s -> vm_ok rt (sc_vm s') -> refused rt pid s s' -> surfaces_ok rt pid s'.
Proof.
  intros [Hvm [Hc1 Hc2] Hso Hid Hlv Hap Hfr] Hvm' [[Hg Hr] Hk (E1 & E2 & Hle & Hdv)]. split; rewrite ?E1, ?E2; try done; [split; [done | lia] | | by eapply holds_returned].
  intros id e Hin. eapply live_kept; [by eapply Hlv | done | done |]. intros x. by destruct (Hg x) as [_ ->].
Qed.

(** The frame of a surface, back in its pool, and its pages gone. *)
Record destroyed (rt : RootTable) (pid id : Z) (e : SurfaceEntry) (s s' : Screen) : Prop := {
  de_slot : slot pid s' = mkProcessSurfaces (bm_remove id (ps_surfaces (slot pid s))) (ps_next_id (slot pid s)) (ps_next_va (slot pid s));
  de_pages : range_unmapped rt (se_user_va e) (se_size_bytes e) (pte_mem (sc_vm s)) (pte_mem (sc_vm s'));
  de_pool : forall x, is_free (kernel_pages (sc_vm s')) x <-> is_free (kernel_pages (sc_vm s)) x \/ in_blocks [block_of (se_backing e)] x;
  de_rest : user_pages (sc_vm s') = user_pages (sc_vm s) /\ table_pages (sc_vm s') = table_pages (sc_vm s) /\ heap_pages (sc_vm s') = heap_pages (sc_vm s) /\ phys_mem (sc_vm s') = phys_mem (sc_vm s);
}.

(** The pages of a surface apart from the one destroyed. *)
Lemma off_apart a b x : va_apart a b -> 0 <= se_user_va a -> 0 <= se_user_va b -> 0 <= se_size_bytes a -> se_user_va a + se_size_bytes a <= 2 ^ 47 -> se_user_va b + se_size_bytes b <= 2 ^ 47 ->
  0 <= x < se_size_bytes b -> se_size_bytes a <= off (se_user_va a) (se_user_va b + x).
Proof.
  intros Hap Ha Hb Hsa Hea Heb Hx. unfold off. destruct (decide (se_user_va a <= se_user_va b + x)).
  - rewrite Z.mod_small by lia. destruct Hap; lia.
  - rewrite <- (Z.mod_add _ 1), Z.mul_1_l, Z.mod_small by lia. lia.
Qed.

Lemma live_unmapped rt v v' limit a e : live rt v limit a -> live rt v limit e -> va_apart e a ->
  range_unmapped rt (se_user_va e) (se_size_bytes e) (pte_mem v) (pte_mem v') -> leaves_kept rt (se_user_va e) (se_size_bytes e) (pte_mem v) (pte_mem v') ->
  user_pages v' = user_pages v -> live rt v' limit a.
Proof.
  intros [Ha (Hd & H0 & Hl) Hlv Hsh Hfr] [He (_ & H0' & Hl') _ _ _] Hap Hun Hk Eu. assert (UPROC_SHARED_END <= 2 ^ 47) as Hend by done.
  pose proof (sizes_bound e He ltac:(lia) ltac:(lia)). pose proof (sizes_bound a Ha ltac:(lia) ltac:(lia)).
  pose proof (fun x => off_apart e a x Hap ltac:(lia) ltac:(lia) ltac:(lia) ltac:(lia) ltac:(lia)) as Ho. split; try done.
  - by eapply range_leaves_kept.
  - intros i Hi. rewrite (Hun (se_user_va a + i)) by (unfold is_u64, W64; lia). specialize (Ho i Hi). rewrite decide_False by lia. by apply Hsh.
  - by rewrite Eu.
Qed.

Lemma destroy_spec rt pid id e s : surfaces_ok rt pid s -> bm_get id (ps_surfaces (slot pid s)) = Some e ->
  exists s', run_fb_surface_destroy_req rt (mkFbSurfaceDestroyReq id) pid s = Done (0, s') /\ destroyed rt pid id e s s' /\ surfaces_ok rt pid s'.
Proof.
  intros [Hvm [Hc1 Hc2] Hso Hid Hlv Hap Hfr] Hg. pose proof (proj1 (bm_get_sorted id e _ Hso) Hg) as Hin. pose proof (Hlv id e Hin) as [He (Hd & H0 & Hl) Hle Hsh Hblk].
  assert (UPROC_SHARED_END <= 2 ^ 47) as Hend by done. pose proof (sizes_bound e He ltac:(lia) ltac:(lia)) as Hsb. destruct (eo_size _ He) as [_ Hdv]. destruct (eo_frame _ He) as [Eb _].
  destruct (unmap_surface_ok rt (se_user_va e) (se_size_bytes e) (sc_vm s)) as (m & Em & Hwf & Hun & Hk); try done; [apply Hvm | lia | lia |].
  unfold run_fb_surface_destroy_req. assert (sc_table s !! pid = Some (slot pid s)) as Es.
  { unfold slot in Hg |- *. destruct (sc_table s !! pid); [done |]. by cbn in Hg. }
  rewrite Es. cbn [fb_handle]. unfold ps_remove. rewrite Hg. cbn [set_table sc_vm]. rewrite Em. cbn [pbind]. eexists. split; [done |].
  set (v1 := set_pte_mem m (sc_vm s)). destruct (page_layout (se_size_bytes e)) as (k & Hk64 & Ek & _ & Hbo); [lia |]. specialize (Hbo (se_kdmap_kva e)). rewrite <- Eb in Hbo.
  pose proof (bm_remove_perm id e _ Hso Hg) as Hperm. rewrite Hperm in Hfr. cbn [fmap list_fmap snd] in Hfr. rewrite Hbo in Hfr.
  destruct (holds_free _ k _ _ Hfr) as [Hfr' Hfree].
  assert (kernel_pages (free_backing (se_backing e) v1) = dealloc_power_of_two (kernel_pages (sc_vm s)) (se_kdmap_kva e) (2 ^ Z.of_nat k)) as Ekp.
  { rewrite Eb. cbn. unfold dealloc_aligned. by rewrite Ek. }
  assert (user_pages (free_backing (se_backing e) v1) = user_pages (sc_vm s) /\ pte_mem (free_backing (se_backing e) v1) = m /\ table_pages (free_backing (se_backing e) v1) = table_pages (sc_vm s)) as (Eu & Ept & Etp) by (by rewrite Eb).
  match goal with |- destroyed _ _ _ _ _ ?s' /\ _ => assert (slot pid s' = mkProcessSurfaces (bm_remove id (ps_surfaces (slot pid s))) (ps_next_id (slot pid s)) (ps_next_va (slot pid s))) as Esl end.
  { by eapply slot_insert. }
  assert (forall i a, (i, a) ∈ bm_remove id (ps_surfaces (slot pid s)) -> i <> id /\ (i, a) ∈ ps_surfaces (slot pid s)) as Hmem.
  { intros i a [Hne ?]%list_elem_of_filter. done. }
  split.
  - split; cbn [set_vm sc_vm]; [done | by rewrite Ept | intros x; by rewrite Ekp, Hbo, in_blocks_one | by rewrite Eb].
  - split; rewrite ?Esl; cbn [set_vm sc_vm ps_surfaces ps_next_id ps_next_va]; rewrite ?Ekp; try done.
    + split; [rewrite Ekp; apply Hfr' | rewrite Eu; apply Hvm | | | by rewrite Ept, Etp]; intros x; rewrite Ekp, Hfree, Eu, <- (in_blocks_one k), <- Hbo.
      * intros [[? | Hx] | ?]; [apply (vo_low _ _ Hvm); by left | by apply Hblk | apply (vo_low _ _ Hvm); by right].
      * intros [[? | Hx] Hu]; [by apply (vo_apart _ _ Hvm x) | by apply (Hblk x Hx)].
    + by apply bm_filter_sorted.
    + intros i a [_ Hi]%Hmem. by eapply Hid.
    + intros i a [Hne Hi]%Hmem. eapply (live_unmapped rt (sc_vm s) _ _ a e); [by eapply Hlv | by eapply Hlv | by eapply (Hap id e i a) | by rewrite Ept | by rewrite Ept | done].
    + intros i a j b [_ Hi]%Hmem [_ Hj]%Hmem. by apply Hap.
Qed.

Lemma bm_remove_insert {V} k (v : V) m : k ∉ m.*1 -> bm_remove k (bm_insert k v m) = m.
Proof.
  unfold bm_remove. assert (forall l : list (Z * V), k ∉ l.*1 -> filter (fun e => e.1 <> k) l = l) as Hk.
  { intros l Hl. apply filter_keep, Forall_forall. intros e He ?. apply Hl, list_elem_of_fmap. by exists e. }
  induction m as [| [k' v'] m IH]; cbn [bm_insert]; intros Hn; [by rewrite filter_cons_False by (cbn; tauto) |]. pose proof Hn as [Hne Hn']%not_elem_of_cons. cbn in Hne.
  destruct (k <? k'); [rewrite filter_cons_False by (cbn; tauto); by apply Hk |]. destruct (Z.eqb_spec k k'); [done |].
  rewrite filter_cons_True by (cbn; congruence). by rewrite IH.
Qed.

(** What a process may ask for: a real format, and a size that does not overflow. *)
Definition surface_req_ok (req : FbSurfaceCreateReq) : Prop :=
  0 < fb_width req < 2 ^ 32 /\ 0 < fb_height req < 2 ^ 32 /\ 4 * (fb_width req * fb_height req) <= 2 ^ 61 /\ fb_format_raw req = 1.

Lemma create_kept rt req pid s : surfaces_ok rt pid s -> surface_req_ok req -> is_Some (heap_pages (sc_vm s) !! pid) ->
  ps_next_va (slot pid s) <= 2 ^ 62 -> 0 <= ps_next_id (slot pid s) < 2 ^ 32 - 1 ->
  exists id va s', run_fb_surface_create_req rt req pid s = Done ((id, va), s') /\ surfaces_ok rt pid s' /\ heap_pages (sc_vm s') = heap_pages (sc_vm s) /\
    (made rt req pid id va s s' \/ (id = to_ret errno.ENOMEM /\ refused rt pid s s')).
Proof.
  intros Hs (Hw & Hh & Hp & Hf) Hal Hva Hid. destruct (so_cursor _ _ _ Hs) as [Hd Hb].
  destruct (create_spec rt req pid s) as (id & va & s' & E & Hvm & Hhp & Hr); [pose proof (so_vm _ _ _ Hs); unfold create_ok; tauto |]. exists id, va, s'. split_and!; try done.
  destruct Hr as [Hm | [_ Hr]]; [by eapply made_ok; try done; lia | by eapply refused_ok].
Qed.


Lemma zero_seen rt req pid id va s s' : made rt req pid id va s s' -> surfaces_ok rt pid s -> forall i, 0 <= i < 4 * (fb_width req * fb_height req) -> proc_byte rt (sc_vm s') (va + i) = Some 0.
Proof.
  intros [[-> ->] (e & He & Ew & Eh & Eva & Hend & _ & _ & _ & Hz & Hm & _)] Hs i Hi. destruct (so_cursor _ _ _ Hs) as [_ Hb].
  assert (0 <= UPROC_SHARED_BASE) by done. assert (UPROC_SHARED_END <= 2 ^ 47) by done. destruct (eo_size _ He) as [Hsz _]. rewrite Ew, Eh in Hsz.
  rewrite (sees_mapped rt _ _ (se_size_bytes e) (pte_mem (sc_vm s)) (sc_vm s') i Hm) by (unfold W64; lia). f_equal. rewrite Hz.
  destruct (eo_frame _ He) as [-> _]. cbn [backing_pa]. by rewrite decide_True by lia.
Qed.

(** A surface that is created reads as zeros over its pixels, and destroying it puts
    everything back: every address translates as it did, both pools hold what they
    held, and the process's other surfaces are the ones it had. *)
Theorem surface_roundtrip rt req pid s id va s1 : surfaces_ok rt pid s -> surface_req_ok req -> is_Some (heap_pages (sc_vm s) !! pid) ->
  ps_next_va (slot pid s) <= 2 ^ 62 -> 0 <= ps_next_id (slot pid s) < 2 ^ 32 - 1 -> run_fb_surface_create_req rt req pid s = Done ((id, va), s1) -> 0 <= id ->
  (forall i, 0 <= i < 4 * (fb_width req * fb_height req) -> proc_byte rt (sc_vm s1) (va + i) = Some 0) /\
  exists s2, run_fb_surface_destroy_req rt (mkFbSurfaceDestroyReq id) pid s1 = Done (0, s2) /\ surfaces_ok rt pid s2 /\
    (forall a, is_u64 a -> virt_to_phys (pte_mem (sc_vm s2)) rt a = virt_to_phys (pte_mem (sc_vm s)) rt a) /\
    given_back (sc_vm s) (sc_vm s2) /\ ps_surfaces (slot pid s2) = ps_surfaces (slot pid s).
Proof.
  intros Hs Hr Hal Hva Hid E Hpos. destruct (create_kept rt req pid s Hs Hr Hal Hva Hid) as (id' & va' & s' & E' & Hs1 & _ & Ho). rewrite E in E'. injection E' as <- <- <-.
  destruct Ho as [Hm | [-> _]]; [| done]. split; [by eapply zero_seen |]. pose proof Hm as [[-> ->] (e & He & _ & _ & Eva & Hend & Etab & Hfb & [Htk Hoth] & _ & Hmp & Hnone & _)].
  pose proof (slot_insert _ _ _ _ Etab) as Es. assert (ps_next_id (slot pid s) ∉ (ps_surfaces (slot pid s)).*1) as Hnew.
  { intros ((i & a) & Ei & Hin)%list_elem_of_fmap. cbn in Ei. subst. pose proof (so_ids _ _ _ Hs _ _ Hin). lia. }
  destruct (destroy_spec rt pid (ps_next_id (slot pid s)) e s1 Hs1) as (s2 & E2 & [Ds Dp Dk (Du & _)] & Hs2); [rewrite Es; cbn; apply bm_get_insert_eq |].
  exists s2. split_and!; try done.
  - intros a Ha. rewrite Dp, Eva by done. destruct (decide _) as [Hin | Hout]; [by rewrite Hnone |]. rewrite Hmp by done. by rewrite decide_False.
  - destruct (eo_frame _ He) as [Eb Hle]. rewrite Eb in Htk, Hoth, Hfb. unfold fresh_block in Hfb. cbn [backing_pa backing_layout pool_of other_pool] in Htk, Hoth, Hfb.
    assert (UPROC_SHARED_END <= 2 ^ 47) by done. assert (0 <= UPROC_SHARED_BASE) by done. destruct (so_cursor _ _ _ Hs).
    destruct (page_layout (se_size_bytes e)) as (k & _ & Ek & _ & Hbo); [pose proof (sizes_bound e He ltac:(lia) ltac:(lia)); lia |].
    intros x. rewrite Dk, Du, Hoth, Eb, Hbo, in_blocks_one, <- Ek, Htk. split; [| done]. specialize (Hfb x). destruct (decide (se_kdmap_kva e <= x < se_kdmap_kva e + layout_size (mkLayout (se_size_bytes e) PAGE_SIZE))); tauto.
  - rewrite Ds, Es. cbn. by apply bm_remove_insert.
Qed.

(** ** From a process's memory to the screen *)

(** The pixel a process has at an address. *)
Definition proc_px (rt : RootTable) (v : Vm) (a : Z) : option Z := le_value <$> mapM (fun i => proc_byte rt v (a + i)) (seqZ 0 4).

Lemma live_px rt v limit e o : live rt v limit e -> 0 <= o -> o + 4 <= se_size_bytes e -> proc_px rt v (se_user_va e + o) = Some (read_px (phys_mem v) (se_kdmap_kva e + o)).
Proof.
  intros Hl Ho Hs. unfold proc_px, read_px, bytes_at. change (seqZ 0 4) with [0; 1; 2; 3].
  assert (forall i, 0 <= i < 4 -> proc_byte rt v (se_user_va e + o + i) = Some (byte_at (phys_mem v) (se_kdmap_kva e + o + i))) as Hb.
  { intros i Hi. unfold proc_byte. rewrite <- !Z.add_assoc, (li_shows _ _ _ _ Hl) by lia. done. }
  cbn [mapM]. rewrite !Hb by lia. done.
Qed.

Lemma clip_inside r cols rows x y : 0 <= r_x r -> 0 <= r_y r -> r_x r + r_w r < 2 ^ 32 -> r_y r + r_h r < 2 ^ 32 -> 0 <= r_w r -> 0 <= r_h r -> x < cols -> y < rows ->
  inside r x y -> inside (clip r cols rows) x y.
Proof. intros. unfold inside, clip, add_u32 in *. cbn. rewrite !Z.mod_small by lia. lia. Qed.

Lemma inside_nonempty r x y : inside r x y -> is_empty r = false.
Proof. unfold inside, is_empty. intros ?. destruct (Z.eqb_spec (r_w r) 0), (Z.eqb_spec (r_h r) 0); done || lia. Qed.

(** A repaint with something to show, of a source with a surface. *)
Lemma repaint_surface m d st x y : display_ok d -> d_dirty d = true -> surface_of (d_active d) (d_surfaces d) = Some st -> inside (d_damage d) x y ->
  exists d', repaint m d = RSurface (d_damage d) d' /\ display_ok d' /\ d_fb d' = blit_surface_rect st (d_damage d) m (d_fb d).
Proof.
  intros [Hf Hd Hs] Hdirty Hst Hin. unfold repaint. rewrite Hdirty. cbn [negb]. destruct Hf as [Hc Hr]. rewrite clip_same by done. rewrite (inside_nonempty _ _ _ Hin).
  cbn [set_damage d_active d_surfaces]. rewrite Hst. eexists. split; [done |]. split; [| done]. split; try done. unfold rect_in. cbn. lia.
Qed.

Lemma present_ok_args pid handle x y w h table args : fb_present pid handle x y w h table = Ok args ->
  exists ps e, table !! pid = Some ps /\ bm_get handle (ps_surfaces ps) = Some e /\ w <> 0 /\ h <> 0 /\ sat_u32 (x + w) <= se_width e /\ sat_u32 (y + h) <= se_height e /\
    args = mkPresentArgs (se_kdmap_kva e) (se_width e) (se_height e) x y w h (FbFormat_raw (se_format e)).
Proof.
  unfold fb_present, snapshot. destruct (Z.eqb_spec w 0), (Z.eqb_spec h 0); try done. cbn [orb]. destruct (table !! pid) as [ps |]; [| done].
  destruct (bm_get handle (ps_surfaces ps)) as [e |] eqn:E; [| done]. cbn [sn_width sn_height sn_kdmap_kva sn_format].
  destruct (Z.ltb_spec (se_width e) (sat_u32 (x + w))), (Z.ltb_spec (se_height e) (sat_u32 (y + h))); try done. cbn [orb]. intros [= <-]. by exists ps, e.
Qed.


(** ** A process and its screen *)

Section scenario.

#[local] Instance free_dec fa x : Decision (is_free fa x).
Proof. unfold is_free. apply _. Defined.

Definition screen0 : Screen := mkScreen vm0 ∅.

Lemma screen0_ok : surfaces_ok ex_rt 7 screen0.
Proof.
  split; cbn [sc_vm screen0]; [exact vm0_ok | | constructor | | | |].
  - split; [by exists (UPROC_SHARED_BASE / PAGE_SIZE) | done].
  - intros id e Hin. by apply not_elem_of_nil in Hin.
  - intros id e Hin. by apply not_elem_of_nil in Hin.
  - intros i a j b Hin. by apply not_elem_of_nil in Hin.
  - apply holds_none, vm0_ok.
Qed.

Definition small : FbSurfaceCreateReq := mkFbSurfaceCreateReq 16 2 1.
Definition huge : FbSurfaceCreateReq := mkFbSurfaceCreateReq (2 ^ 31 - 1) (2 ^ 31 + 1) 1.

Definition after_create (req : FbSurfaceCreateReq) (s : Screen) : Screen := match run_fb_surface_create_req ex_rt req 7 s with Done (_, s') => s' | Panic => s end.
Definition after_destroy (id : Z) (s : Screen) : Screen := match run_fb_surface_destroy_req ex_rt (mkFbSurfaceDestroyReq id) 7 s with Done (_, s') => s' | Panic => s end.

Lemma create_run req s id va : match run_fb_surface_create_req ex_rt req 7 s with Done ((i, a), _) => (i =? id) && (a =? va) | Panic => false end = true ->
  run_fb_surface_create_req ex_rt req 7 s = Done ((id, va), after_create req s).
Proof. unfold after_create. destruct (run_fb_surface_create_req ex_rt req 7 s) as [[[i a] s'] |]; [| done]. by intros [->%Z.eqb_eq ->%Z.eqb_eq]%andb_true_iff. Qed.

Lemma destroy_run id s : match run_fb_surface_destroy_req ex_rt (mkFbSurfaceDestroyReq id) 7 s with Done (c, _) => c =? 0 | Panic => false end = true ->
  run_fb_surface_destroy_req ex_rt (mkFbSurfaceDestroyReq id) 7 s = Done (0, after_destroy id s).
Proof. unfold after_destroy. destruct (run_fb_surface_destroy_req ex_rt _ 7 s) as [[c s'] |]; [| done]. by intros ->%Z.eqb_eq. Qed.

(** A screen of 16 columns and 4 rows, with the process in front. *)
Definition display0 : Display := mkDisplay (mkFrameBuffer 16 4 ∅) (SProcess 7) [SKernel] [] false rect_empty.

Lemma display0_ok : display_ok display0.
Proof. split; [done | by vm_compute | done]. Qed.

Definition small_args : PresentArgs := mkPresentArgs 0x82000000 16 2 0 0 4 2 1.


(** A surface shown after it is destroyed: the display keeps the frame of the last
    present, [fb_surface_destroy] tells it nothing, and when the process comes to the
    front again the repaint reads the frame, which the pool has by then. *)
Theorem surface_shown_after_destroy : exists s1 s2 st d',
  run_fb_surface_create_req ex_rt small 7 screen0 = Done ((1, UPROC_SHARED_BASE), s1) /\
  fb_present 7 1 0 0 4 2 (sc_table s1) = Ok small_args /\
  run_fb_surface_destroy_req ex_rt (mkFbSurfaceDestroyReq 1) 7 s1 = Done (0, s2) /\
  repaint (phys_mem (sc_vm s2)) (cycle_active (cycle_active (present_surface (SProcess 7) small_args display0))) = RSurface (mkRect 0 0 16 4) d' /\
  surface_of (d_active d') (d_surfaces d') = Some st /\ (ss_kdmap_kva st, 0) ∈ blit_pixels st (mkRect 0 0 16 4) 16 /\
  is_free (kernel_pages (sc_vm s2)) (ss_kdmap_kva st).
Proof.
  exists (after_create small screen0), (after_destroy 1 (after_create small screen0)), (mkSurfaceState 0x82000000 16 2 Bgra8888). eexists. split_and!.
  - apply create_run. by vm_compute.
  - by vm_compute.
  - apply destroy_run. by vm_compute.
  - vm_compute. reflexivity.
  - done.
  - apply blit_pixels_elem. exists 0, 0. by split_and!.
  - by vm_compute.
Qed.


Lemma surface_roundtrip_witness : exists s2, run_fb_surface_destroy_req ex_rt (mkFbSurfaceDestroyReq 1) 7 (after_create small screen0) = Done (0, s2) /\
  ps_surfaces (slot 7 s2) = [].
Proof.
  destruct (surface_roundtrip ex_rt small 7 screen0 1 UPROC_SHARED_BASE (after_create small screen0) screen0_ok) as [_ (s2 & E & _ & _ & _ & Hl)];
    [by split_and! | by exists [] | done | done | apply create_run; by vm_compute | done |]. exists s2. split; [exact E | exact Hl].
Defined.

Lemma small_created : surfaces_ok ex_rt 7 (after_create small screen0).
Proof.
  destruct (create_kept ex_rt small 7 screen0 screen0_ok) as (id & va & s' & E & Hs & _); [by split_and! | by exists [] | done | done |].
  unfold after_create. rewrite E. exact Hs.
Qed.


End scenario.
