(* ===== verification/Files.v ===== *)
(** * Descriptors and paths

    Models the handle table of a process ([kmain/src/kernel/handle.rs]) and the file
    calls of the manager that use it, in [kmain/src/kernel/mod.rs]: opening, seeking,
    listing and querying a file, the working directory, and the copies of a process's
    groups and login name. [fs_read] is in [FsRead.v], [close] in [Regions.v].

    A call takes the translation of the caller's addresses and answers the value for
    the caller. Logging is left out. *)

From Stdlib Require Import Sorted.
From stdpp Require Import base list option numbers sets gmap.
From S2P Require Import Prelude Text Sv48 Layout Abi Perms Thread Completion Work Syscall Process Creds Tar Readdir ThingBuf FsRead UserMem.
#[local] Open Scope Z_scope.

(** ** The handle table *)

Definition FD_MAX : Z := 2 ^ 31 - 1.

Record Slot := mkSlot { sl_handle : Handle; sl_cloexec : bool; sl_nonblock : bool }.

Definition Slot_new (h : Handle) : Slot := mkSlot h false false.

Record ProcessHandles := mkHandles { ph_table : gmap Z Slot; ph_next_id : Z }.

Definition ProcessHandles_new : ProcessHandles := mkHandles ∅ 0.

Definition seed_stdio (ph : ProcessHandles) : ProcessHandles :=
  if bool_decide (ph_table ph = ∅) then
    mkHandles (<[2 := Slot_new HStderr]> (<[1 := Slot_new HStdout]> (<[0 := Slot_new HStdin]> (ph_table ph))))
      (if ph_next_id ph <? 3 then 3 else ph_next_id ph)
  else ph.

(** [checked_add] on a [u32]. *)
Definition insert_with_flags (h : Handle) (cloexec nonblock : bool) (ph : ProcessHandles) : option Z * ProcessHandles :=
  if FD_MAX <? ph_next_id ph then (None, ph)
  else if 2 ^ 32 <=? ph_next_id ph + 1 then (None, ph)
  else (Some (ph_next_id ph), mkHandles (<[ph_next_id ph := mkSlot h cloexec nonblock]> (ph_table ph)) (ph_next_id ph + 1)).

Definition ph_insert (h : Handle) (ph : ProcessHandles) : option Z * ProcessHandles := insert_with_flags h false false ph.

(** [saturating_add] on a [u32]. *)
Definition insert_at (fd : Z) (slot : Slot) (ph : ProcessHandles) : option Slot * ProcessHandles :=
  if FD_MAX <? fd then (None, ph)
  else (ph_table ph !! fd,
        mkHandles (<[fd := slot]> (ph_table ph)) (if ph_next_id ph <=? fd then Z.min (fd + 1) (2 ^ 32 - 1) else ph_next_id ph)).

Definition ph_get (fd : Z) (ph : ProcessHandles) : option Handle := sl_handle <$> ph_table ph !! fd.

(** [*get_mut(fd) = h]. *)
Definition ph_set (fd : Z) (h : Handle) (ph : ProcessHandles) : ProcessHandles :=
  match ph_table ph !! fd with
  | None => ph
  | Some sl => mkHandles (<[fd := mkSlot h (sl_cloexec sl) (sl_nonblock sl)]> (ph_table ph)) (ph_next_id ph)
  end.

Definition ph_remove (fd : Z) (ph : ProcessHandles) : option Handle * ProcessHandles :=
  (ph_get fd ph, mkHandles (delete fd (ph_table ph)) (ph_next_id ph)).

(** ** State of the calls *)

Record Fsys := mkFsys {
  fy_handles : gmap Z ProcessHandles;
  fy_creds : CredState;
  fy_mounted : option Tarfs;
  fy_mem : gmap Z Z;
}.

Definition set_fy_handles (h : gmap Z ProcessHandles) (s : Fsys) : Fsys := mkFsys h (fy_creds s) (fy_mounted s) (fy_mem s).
Definition set_fy_creds (c : CredState) (s : Fsys) : Fsys := mkFsys (fy_handles s) c (fy_mounted s) (fy_mem s).
Definition set_fy_mem (m : gmap Z Z) (s : Fsys) : Fsys := mkFsys (fy_handles s) (fy_creds s) (fy_mounted s) m.

Definition fy_proc (pid : Z) (s : Fsys) : option Process := bm_get pid (cr_procs (fy_creds s)).

(** The file behind a descriptor. *)
Definition open_file (pid fd : Z) (s : Fsys) : option OpenFile :=
  match fy_handles s !! pid with
  | None => None
  | Some ph => match ph_get fd ph with Some (HFile f) => Some f | _ => None end
  end.

Definition set_file (pid fd : Z) (f : OpenFile) (s : Fsys) : Fsys :=
  match fy_handles s !! pid with
  | None => s
  | Some ph => set_fy_handles (<[pid := ph_set fd (HFile f) ph]> (fy_handles s)) s
  end.

(** ** Paths *)

(** The leading [./] of a path, and a bare dot, go. *)
Fixpoint strip_dots (tail : list Z) : list Z :=
  match tail with
  | 46 :: 47 :: t => strip_dots t
  | [46] => []
  | _ => tail
  end.

Definition resolve_fs_path (pid : Z) (p : list Z) (s : Fsys) : list Z :=
  if starts_with [SLASH] p then p
  else
    let tail := strip_dots p in
    let out := match fy_proc pid s with Some pr => pr_cwd pr | None => [SLASH] end in
    if bool_decide (tail = []) then out
    else (if bool_decide (last out = Some SLASH) then out else out ++ [SLASH]) ++ tail.

Definition access_of (st : FileStat) : Stat := mkStat (f_mode st) (f_uid st) (f_gid st).

Definition ACCESS_R_OK : Z := 4.

(** A path, looked up: the inode and its record. *)
Definition lookup_path (fs : Tarfs) (p : list Z) : result (Z * FileStat) Z :=
  match Tar.open fs p with
  | Err FsNotFound => Err (to_ret errno.ENOENT)
  | Err _ => Err (to_ret errno.EIO)
  | Ok ino => match Tar.stat fs ino with Err _ => Err (to_ret errno.EIO) | Ok st => Ok (ino, st) end
  end.

(** [orbit_abi::fs::Stat] in memory. *)
Definition stat_bytes (st : FileStat) : list Z :=
  le_bytes 8 (st_dev st) ++ le_bytes 8 (st_ino st) ++ le_bytes 4 (f_mode st) ++ le_bytes 4 (st_nlink st) ++
  le_bytes 4 (f_uid st) ++ le_bytes 4 (f_gid st) ++ le_bytes 8 (st_rdev st) ++ le_bytes 8 0 ++ le_bytes 8 (st_size st) ++
  le_bytes 4 (st_blksize st) ++ le_bytes 4 0 ++ le_bytes 8 (st_blocks st) ++ le_bytes 8 (st_atime st) ++ le_bytes 8 0 ++
  le_bytes 8 (st_mtime st) ++ le_bytes 8 0 ++ le_bytes 8 (st_ctime st) ++ le_bytes 8 0 ++ le_bytes 4 0 ++ le_bytes 4 0.

Section calls.
Context (translate : Z -> option Z).

(** A copy-out, and [ret] when it is made. *)
Definition answer (vaddr : Z) (l : list Z) (ret : Z) (s : Fsys) : panics (Z * Fsys) :=
  r <-! copy_out translate vaddr l (fy_mem s) ;;
  match r with
  | Err e => Done (e, s)
  | Ok m => Done (ret, set_fy_mem m s)
  end.

Definition off_page (vaddr len : Z) : bool := PAGE_SIZE <? Z.land vaddr (PAGE_SIZE - 1) + len.

Definition run_fs_open_req (req : FsOpenReq) (pid : Z) (s : Fsys) : panics (Z * Fsys) :=
  match fy_mounted s with
  | None => Done (to_ret errno.EIO, s)
  | Some fs =>
      raw <-! copy_user_path translate (fo_path_vaddr req) (fo_path_len req) (fy_mem s) ;;
      match raw with
      | Err e => Done (e, s)
      | Ok raw =>
          match lookup_path fs (resolve_fs_path pid raw s) with
          | Err e => Done (e, s)
          | Ok (ino, st) =>
              match vaccess_pid pid (access_of st) ACCESS_R_OK (fy_creds s) with
              | Err e => Done (e, s)
              | Ok _ =>
                  let is_regular := Z.land (f_mode st) S_IFMT =? S_IFREG in
                  let ph := default ProcessHandles_new (fy_handles s !! pid) in
                  let '(fd, ph) := ph_insert (HFile (mkOpenFile fs ino 0 0 is_regular)) ph in
                  let s := set_fy_handles (<[pid := ph]> (fy_handles s)) s in
                  Done (match fd with Some fd => fd | None => to_ret errno.EMFILE end, s)
              end
          end
      end
  end.

Definition run_fs_stat_req (req : FsStatReq) (pid : Z) (s : Fsys) : panics (Z * Fsys) :=
  match fy_mounted s with
  | None => Done (to_ret errno.EIO, s)
  | Some fs =>
      raw <-! copy_user_path translate (fs_path_vaddr req) (fs_path_len req) (fy_mem s) ;;
      match raw with
      | Err e => Done (e, s)
      | Ok raw =>
          match lookup_path fs (resolve_fs_path pid raw s) with
          | Err e => Done (e, s)
          | Ok (_, st) =>
              let stat_va := fs_stat_vaddr req in
              if off_page stat_va (Z.of_nat (length (stat_bytes st))) then Done (to_ret errno.EINVAL, s)
              else answer stat_va (stat_bytes st) 0 s
          end
      end
  end.

Definition run_fs_fstat (pid fd stat_vaddr : Z) (s : Fsys) : panics (Z * Fsys) :=
  if negb (user_range_ok stat_vaddr STAT_SIZE) then Done (to_ret errno.EFAULT, s)
  else if off_page stat_vaddr STAT_SIZE then Done (to_ret errno.EINVAL, s)
  else
    match open_file pid fd s with
    | None => Done (to_ret errno.EBADF, s)
    | Some f =>
        match Tar.stat (of_fs f) (of_inode f) with
        | Err _ => Done (to_ret errno.EIO, s)
        | Ok st => answer stat_vaddr (stat_bytes st) 0 s
        end
    end.

Definition readdir_errno (e : FsErr) : Z :=
  match e with
  | NotADirectory | NotRegular => errno.ENOTDIR
  | BadInode => errno.EBADF
  | BadRange => errno.EINVAL
  | IoError => errno.EIO
  | FsNotFound => errno.ENOENT
  end.

(** The entries are packed in the user's page; a failing call wrote none. *)
Definition run_fs_readdir_req (req : FsReaddirReq) (pid : Z) (s : Fsys) : panics (Z * Fsys) :=
  match open_file pid (fd_fd req) s with
  | None => Done (to_ret errno.EBADF, s)
  | Some f =>
      let buf_va := fd_buf_vaddr req in
      if off_page buf_va (fd_len req) then Done (to_ret errno.EINVAL, s)
      else
        match translate (page_base buf_va) with
        | None => Done (to_ret errno.EFAULT, s)
        | Some pa =>
            if negb (pa mod PAGE_SIZE =? 0) then Panic
            else
              let dst := bytes_at (fy_mem s) (pa + page_off buf_va) (fd_len req) in
              match readdir (of_fs f) (of_inode f) (of_dir_cursor f) dst with
              | Err e => Done (to_ret (readdir_errno e), s)
              | Ok (written, next_cursor, dst') =>
                  let s := set_fy_mem (write_bytes (pa + page_off buf_va) (length dst') (fun i => default 0 (dst' !! i)) (fy_mem s)) s in
                  Done (written, set_file pid (fd_fd req) (mkOpenFile (of_fs f) (of_inode f) (of_offset f) next_cursor (of_is_regular f)) s)
              end
        end
  end.

(** [i64::checked_add]. *)
Definition checked_add_i64 (a b : Z) : option Z := if ((- 2 ^ 63 <=? a + b) && (a + b <? 2 ^ 63))%bool then Some (a + b) else None.

Definition SEEK_SET : Z := 0.
Definition SEEK_CUR : Z := 1.
Definition SEEK_END : Z := 2.

Definition run_fs_seek (pid fd offset whence : Z) (s : Fsys) : Z * Fsys :=
  match open_file pid fd s with
  | None => (to_ret errno.EBADF, s)
  | Some f =>
      if negb (of_is_regular f) then (to_ret errno.EBADF, s)
      else
        let new_offset :=
          if whence =? SEEK_SET then Ok offset
          else if whence =? SEEK_CUR then
            match checked_add_i64 (i64 (of_offset f)) offset with Some n => Ok n | None => Err errno.EINVAL end
          else if whence =? SEEK_END then
            match Tar.file_size (of_fs f) (of_inode f) with
            | Err _ => Err errno.EIO
            | Ok size => match checked_add_i64 (i64 size) offset with Some n => Ok n | None => Err errno.EINVAL end
            end
          else Err errno.EINVAL in
        match new_offset with
        | Err e => (to_ret e, s)
        | Ok n =>
            if n <? 0 then (to_ret errno.EINVAL, s)
            else (n, set_file pid fd (mkOpenFile (of_fs f) (of_inode f) n (of_dir_cursor f) (of_is_regular f)) s)
        end
  end.

Definition run_chdir (pid path_vaddr path_len : Z) (s : Fsys) : panics (Z * Fsys) :=
  if path_len =? 0 then Done (to_ret errno.EINVAL, s)
  else if MAX_FS_PATH_LEN <? path_len then Done (to_ret errno.ENAMETOOLONG, s)
  else if negb (user_range_ok path_vaddr path_len) then Done (to_ret errno.EFAULT, s)
  else
    raw <-! copy_user_path translate path_vaddr path_len (fy_mem s) ;;
    match raw with
    | Err e => Done (e, s)
    | Ok p =>
        if negb (starts_with [SLASH] p) then Done (to_ret errno.EINVAL, s)
        else
          match fy_mounted s with
          | None => Done (to_ret errno.EIO, s)
          | Some fs =>
              match lookup_path fs p with
              | Err e => Done (e, s)
              | Ok (_, st) =>
                  if negb (Z.land (f_mode st) S_IFMT =? S_IFDIR) then Done (to_ret errno.ENOTDIR, s)
                  else
                    match fy_proc pid s with
                    | None => Done (to_ret errno.ESRCH, s)
                    | Some pr => Done (0, set_fy_creds (cr_put pid (set_pr_cwd p pr) (fy_creds s)) s)
                    end
              end
          end
    end.

Definition run_getcwd (pid buf_vaddr buf_len : Z) (s : Fsys) : panics (Z * Fsys) :=
  if ((buf_len =? 0) || (PAGE_SIZE <? buf_len))%bool then Done (to_ret errno.EINVAL, s)
  else if negb (user_range_ok buf_vaddr buf_len) then Done (to_ret errno.EFAULT, s)
  else if off_page buf_vaddr buf_len then Done (to_ret errno.EINVAL, s)
  else
    match fy_proc pid s with
    | None => Done (to_ret errno.ESRCH, s)
    | Some pr =>
        let cwd_len := Z.of_nat (length (pr_cwd pr)) in
        if MAX_FS_PATH_LEN <? cwd_len then Done (to_ret errno.EIO, s)
        else if buf_len <? cwd_len then Done (to_ret errno.ERANGE, s)
        else answer buf_vaddr (pr_cwd pr) cwd_len s
    end.

Definition run_getgroups (pid buf_vaddr count : Z) (s : Fsys) : panics (Z * Fsys) :=
  match fy_proc pid s with
  | None => Done (to_ret errno.ESRCH, s)
  | Some pr =>
      let group_count := Z.of_nat (length (pr_groups pr)) in
      if NGROUPS_MAX <? group_count then Done (to_ret errno.EIO, s)
      else if count =? 0 then Done (group_count, s)
      else if NGROUPS_MAX <? count then Done (to_ret errno.EINVAL, s)
      else if count <? group_count then Done (to_ret errno.ERANGE, s)
      else
        let bytes := group_count * 4 in
        if bytes =? 0 then Done (group_count, s)
        else if negb (user_range_ok buf_vaddr bytes) then Done (to_ret errno.EFAULT, s)
        else if off_page buf_vaddr bytes then Done (to_ret errno.EINVAL, s)
        else answer buf_vaddr (concat (le_bytes 4 <$> pr_groups pr)) group_count s
  end.

Definition run_getlogin (pid buf_vaddr buf_len : Z) (s : Fsys) : panics (Z * Fsys) :=
  if ((buf_len =? 0) || (PAGE_SIZE <? buf_len))%bool then Done (to_ret errno.EINVAL, s)
  else if negb (user_range_ok buf_vaddr buf_len) then Done (to_ret errno.EFAULT, s)
  else if off_page buf_vaddr buf_len then Done (to_ret errno.EINVAL, s)
  else
    match fy_proc pid s with
    | None => Done (to_ret errno.ESRCH, s)
    | Some pr =>
        match pr_login_name pr with
        | None => Done (to_ret errno.ENOENT, s)
        | Some name =>
            let name_len := Z.of_nat (length name) in
            if 256 <? name_len then Done (to_ret errno.EIO, s)
            else if buf_len <? name_len then Done (to_ret errno.ERANGE, s)
            else answer buf_vaddr name name_len s
        end
    end.
End calls.

(** ** The table's invariant *)

(** Descriptors in use lie below the next one, which fits an [i32] but for the last. *)
Definition ph_ok (ph : ProcessHandles) : Prop :=
  0 <= ph_next_id ph <= FD_MAX + 1 /\ forall fd, is_Some (ph_table ph !! fd) -> 0 <= fd < ph_next_id ph.

Lemma ph_new_ok : ph_ok ProcessHandles_new.
Proof. split; [unfold FD_MAX; simpl; lia |]. intros fd [? E]. simpl in E. by rewrite lookup_empty in E. Qed.

Lemma seed_stdio_ok ph : ph_ok ph -> ph_ok (seed_stdio ph).
Proof.
  intros [Hn Ht]. unfold seed_stdio. destruct (bool_decide _) eqn:E; [| done]. apply bool_decide_eq_true in E. unfold ph_ok. cbn [ph_next_id ph_table].
  destruct (Z.ltb_spec (ph_next_id ph) 3); (split; [unfold FD_MAX in *; lia |]); intros fd [sl Hs]; rewrite !lookup_insert_Some, E, lookup_empty in Hs;
    naive_solver lia.
Qed.

(** A new descriptor is the next number, and was not in use. *)
Lemma insert_spec h ce nb ph : ph_ok ph ->
  let '(r, ph') := insert_with_flags h ce nb ph in
  ph_ok ph' /\
  match r with
  | None => ph' = ph /\ ph_next_id ph = FD_MAX + 1
  | Some fd => fd = ph_next_id ph /\ 0 <= fd <= FD_MAX /\ ph_table ph !! fd = None /\
      ph_table ph' = <[fd := mkSlot h ce nb]> (ph_table ph) /\ ph_next_id ph' = ph_next_id ph + 1
  end.
Proof.
  intros [Hn Ht]. unfold insert_with_flags. destruct (Z.ltb_spec FD_MAX (ph_next_id ph)); [split; [done |]; split; [done | lia] |].
  destruct (Z.leb_spec (2 ^ 32) (ph_next_id ph + 1)); [unfold FD_MAX in *; lia |]. split.
  - split; cbn [ph_next_id ph_table]; [lia |]. intros fd. destruct (decide (fd = ph_next_id ph)) as [-> | Hne]; [lia |]. rewrite lookup_insert_ne by done.
    intros Hs%Ht. lia.
  - split_and!; try done; [lia |]. apply eq_None_not_Some. intros Hs%Ht. lia.
Qed.

Lemma ph_set_ok fd h ph : ph_ok ph -> ph_ok (ph_set fd h ph).
Proof.
  intros [Hn Ht]. unfold ph_set. destruct (ph_table ph !! fd) as [sl |] eqn:E; [| done]. split; cbn [ph_next_id ph_table]; [done |]. intros fd'.
  destruct (decide (fd' = fd)) as [-> | Hne]; [intros _; apply Ht; by rewrite E |]. rewrite lookup_insert_ne by done. apply Ht.
Qed.

Lemma ph_remove_ok fd ph : ph_ok ph -> ph_ok (ph_remove fd ph).2.
Proof. intros [Hn Ht]. split; cbn; [done |]. intros fd' [sl Hs]. rewrite lookup_delete_Some in Hs. apply Ht. naive_solver. Qed.

Lemma insert_at_ok fd slot ph : 0 <= fd -> ph_ok ph -> ph_ok (insert_at fd slot ph).2.
Proof.
  intros Hfd [Hn Ht]. unfold insert_at. destruct (Z.ltb_spec FD_MAX fd); [done |]. split; cbn [ph_next_id ph_table snd].
  - unfold FD_MAX in *. destruct (Z.leb_spec (ph_next_id ph) fd); lia.
  - intros fd'. unfold FD_MAX in *. destruct (decide (fd' = fd)) as [-> | Hne]; [destruct (Z.leb_spec (ph_next_id ph) fd); lia |].
    rewrite lookup_insert_ne by done. intros Hs%Ht. destruct (Z.leb_spec (ph_next_id ph) fd); lia.
Qed.

(** ** The calls' invariant *)

(** A working directory that [chdir] would accept. *)
Definition cwd_ok (mnt : option Tarfs) (cwd : list Z) : Prop :=
  Z.of_nat (length cwd) <= MAX_FS_PATH_LEN /\ starts_with [SLASH] cwd = true /\ utf8_valid cwd = true /\
  forall fs, mnt = Some fs -> exists ino st, lookup_path fs cwd = Ok (ino, st) /\ Z.land (f_mode st) S_IFMT = S_IFDIR.

(** A file that [fs_open] gave out. *)
Definition file_ok (f : OpenFile) : Prop :=
  0 <= of_offset f < 2 ^ 63 /\ exists st, Tar.stat (of_fs f) (of_inode f) = Ok st /\ of_is_regular f = (Z.land (f_mode st) S_IFMT =? S_IFREG).

Record fsys_ok (s : Fsys) : Prop := {
  fo_tables : forall pid ph, fy_handles s !! pid = Some ph -> ph_ok ph;
  fo_files : forall pid fd f, open_file pid fd s = Some f -> file_ok f;
  fo_cwds : forall pid pr, fy_proc pid s = Some pr -> cwd_ok (fy_mounted s) (pr_cwd pr);
}.

Lemma fsys_ok_mem m s : fsys_ok s -> fsys_ok (set_fy_mem m s).
Proof. intros [H1 H2 H3]. by split. Qed.

Lemma open_file_set pid fd f s pid' fd' f' :
  open_file pid' fd' (set_file pid fd f s) = Some f' -> f' = f \/ open_file pid' fd' s = Some f'.
Proof.
  unfold set_file. destruct (fy_handles s !! pid) as [ph |] eqn:E; [| by right]. unfold open_file. cbn [set_fy_handles fy_handles].
  destruct (decide (pid' = pid)) as [-> | Hne]; [| rewrite lookup_insert_ne by done; by right]. rewrite lookup_insert_eq, E. unfold ph_get, ph_set.
  destruct (ph_table ph !! fd) as [sl |] eqn:Es; [| by right]. cbn [ph_table]. destruct (decide (fd' = fd)) as [-> | Hne].
  - rewrite lookup_insert_eq. cbn. intros [= <-]. by left.
  - rewrite lookup_insert_ne by done. by right.
Qed.

Lemma set_file_ok pid fd f s : fsys_ok s -> file_ok f -> fsys_ok (set_file pid fd f s).
Proof.
  intros [H1 H2 H3] Hf. split.
  - intros pid' ph. unfold set_file. destruct (fy_handles s !! pid) as [ph0 |] eqn:E; [| apply H1]. cbn [set_fy_handles fy_handles].
    rewrite lookup_insert_Some. intros [[_ <-] | [_ Hp]]; [apply ph_set_ok |]; by eapply H1.
  - intros pid' fd' f' [-> | Hf']%open_file_set; [done | by eapply H2].
  - intros pid' pr Hp. unfold set_file in *. destruct (fy_handles s !! pid); by apply (H3 pid').
Qed.

Lemma range_user va len : user_range_ok va len = true -> 0 <= len -> 0 <= va /\ va + len < W64.
Proof.
  unfold user_range_ok, checked_add, USER_NULL_GUARD_END, LARGE_PAGE, USER_VA_END, USER_TRAP_FRAME_BASE, UPROC_SHARED_END. intros Hr Hl.
  repeat case_match; try done. simplify_eq. to_prop. unfold W64. lia.
Qed.

Lemma off_page_spec va len : 0 <= va < W64 -> off_page va len = false -> page_off va + len <= PAGE_SIZE.
Proof.
  intros Hva. unfold off_page. change (PAGE_SIZE - 1) with (2 ^ 12 - 1). rewrite land_mod by lia. rewrite page_off_eq by done.
  change (2 ^ 12) with PAGE_SIZE. destruct (Z.ltb_spec PAGE_SIZE (va mod PAGE_SIZE + len)); [done | lia].
Qed.

(** The calls, by one process. *)
Inductive fcall :=
| FOpen (r : FsOpenReq)
| FStat (r : FsStatReq)
| FFstat (fd stat_va : Z)
| FReaddir (r : FsReaddirReq)
| FSeek (fd offset whence : Z)
| FChdir (va len : Z)
| FGetcwd (va len : Z)
| FGetgroups (va count : Z)
| FGetlogin (va len : Z).

Definition run_fcall (translate : Z -> option Z) (c : fcall) (pid : Z) (s : Fsys) : panics (Z * Fsys) :=
  match c with
  | FOpen r => run_fs_open_req translate r pid s
  | FStat r => run_fs_stat_req translate r pid s
  | FFstat fd va => run_fs_fstat translate pid fd va s
  | FReaddir r => run_fs_readdir_req translate r pid s
  | FSeek fd o w => Done (run_fs_seek pid fd o w s)
  | FChdir va len => run_chdir translate pid va len s
  | FGetcwd va len => run_getcwd translate pid va len s
  | FGetgroups va n => run_getgroups translate pid va n s
  | FGetlogin va len => run_getlogin translate pid va len s
  end.

(** What the system calls checked; the arguments are words. *)
Definition fcall_ok (c : fcall) : Prop :=
  match c with
  | FOpen r => user_range_ok (fo_path_vaddr r) (fo_path_len r) = true /\ 0 <= fo_path_len r <= MAX_FS_PATH_LEN
  | FStat r => user_range_ok (fs_path_vaddr r) (fs_path_len r) = true /\ 0 <= fs_path_len r <= MAX_FS_PATH_LEN /\ user_range_ok (fs_stat_vaddr r) STAT_SIZE = true
  | FReaddir r => user_range_ok (fd_buf_vaddr r) (fd_len r) = true /\ 0 <= fd_len r
  | FSeek _ offset _ => offset < 2 ^ 63
  | FChdir _ len | FGetcwd _ len | FGetlogin _ len => 0 <= len
  | FFstat _ _ | FGetgroups _ _ => True
  end.

(** A call that returns, with the tables of the other processes and all credentials
    but the caller's directory as before. *)
Definition returns (pid : Z) (s : Fsys) (r : panics (Z * Fsys)) : Prop :=
  exists ret s', r = Done (ret, s') /\ fsys_ok s' /\ fy_mounted s' = fy_mounted s /\
    (forall p, p <> pid -> fy_handles s' !! p = fy_handles s !! p /\ fy_proc p s' = fy_proc p s) /\
    (forall ph, fy_handles s !! pid = Some ph -> exists ph', fy_handles s' !! pid = Some ph' /\ ph_next_id ph <= ph_next_id ph').

Lemma returns_same pid s ret : fsys_ok s -> returns pid s (Done (ret, s)).
Proof. intros Hs. exists ret, s. split_and!; try done. intros ph Hph. exists ph. by split. Qed.

Section calls_ok.
Context (translate : Z -> option Z) (Haligned : frames_aligned translate).

Lemma answer_returns va l ret pid s : fsys_ok s -> 0 <= va -> va + Z.of_nat (length l) < W64 -> page_off va + Z.of_nat (length l) <= PAGE_SIZE ->
  returns pid s (answer translate va l ret s).
Proof.
  intros Hs Hva Hw Hp. unfold answer. pose proof (copy_out_exact translate Haligned va l (fy_mem s) Hva Hw Hp) as Hc.
  destruct (translate (page_base va)) as [pa |]; [destruct Hc as (m' & -> & _) | rewrite Hc]; cbn [pbind]; [| by apply returns_same].
  exists ret, (set_fy_mem m' s). split_and!; try done; [by apply fsys_ok_mem |]. intros ph Hph. exists ph. by split.
Qed.

Lemma stat_bytes_length st : length (stat_bytes st) = 128%nat.
Proof. unfold stat_bytes. rewrite !length_app, !le_bytes_length. done. Qed.

Lemma lookup_file_ok fs p ino st : lookup_path fs p = Ok (ino, st) ->
  file_ok (mkOpenFile fs ino 0 0 (Z.land (f_mode st) S_IFMT =? S_IFREG)).
Proof.
  unfold lookup_path. destruct (Tar.open fs p) as [i | []]; try done. destruct (Tar.stat fs i) as [st' | e] eqn:E; [| done]. intros [= <- <-].
  split; [simpl; lia |]. exists st'. by split.
Qed.

Lemma open_returns r pid s : fcall_ok (FOpen r) -> fsys_ok s -> returns pid s (run_fs_open_req translate r pid s).
Proof.
  intros [Hr Hl] Hs. destruct (range_user _ _ Hr) as [Hv Hw]; [lia |]. unfold run_fs_open_req.
  destruct (fy_mounted s) as [fs |]; [| by apply returns_same]. rewrite copy_user_path_exact by (done || lia). cbn [pbind].
  destruct (match user_bytes _ _ _ _ with Some _ => _ | None => _ end) as [raw | e]; [| by apply returns_same].
  destruct (lookup_path fs _) as [[ino st] | e] eqn:El; [| by apply returns_same].
  destruct (vaccess_pid _ _ _ _) as [[] | e]; [| by apply returns_same]. set (f := mkOpenFile _ _ _ _ _).
  assert (ph_ok (default ProcessHandles_new (fy_handles s !! pid))) as Hph by (destruct (fy_handles s !! pid) eqn:E; [by eapply Hs | apply ph_new_ok]).
  unfold ph_insert. pose proof (insert_spec (HFile f) false false _ Hph) as Hi. destruct (insert_with_flags _ _ _ _) as [r' ph'] eqn:Ei. destruct Hi as [Hok Hr'].
  do 2 eexists. split; [done |]. split_and!; try done.
  - split; try apply Hs.
    + intros p ph. cbn [set_fy_handles fy_handles]. rewrite lookup_insert_Some. intros [[_ <-] | [_ Hp]]; [done | by eapply Hs].
    + intros p fd g. unfold open_file. cbn [set_fy_handles fy_handles]. destruct (decide (p = pid)) as [-> | Hne].
      2: { rewrite lookup_insert_ne by done. apply (fo_files _ Hs). }
      rewrite lookup_insert_eq. destruct r' as [fd' |].
      * destruct Hr' as (_ & _ & _ & Et & _). unfold ph_get. rewrite Et. destruct (decide (fd = fd')) as [-> | Hne].
        -- rewrite lookup_insert_eq. cbn. intros [= <-]. by apply (lookup_file_ok fs _ ino st El).
        -- rewrite lookup_insert_ne by done. intros Hg. apply (fo_files _ Hs pid fd g). unfold open_file.
           destruct (fy_handles s !! pid); [done |]. cbn in Hg. by rewrite lookup_empty in Hg.
      * destruct Hr' as [-> _]. intros Hg. apply (fo_files _ Hs pid fd g). unfold open_file. destruct (fy_handles s !! pid); [done |].
        unfold ph_get in Hg. cbn in Hg. by rewrite lookup_empty in Hg.
  - intros p Hp. cbn [set_fy_handles fy_handles]. by rewrite lookup_insert_ne by done.
  - intros ph Hph0. cbn [set_fy_handles fy_handles]. rewrite lookup_insert_eq. exists ph'. split; [done |]. rewrite Hph0 in Hr'. simpl in Hr'.
    destruct r' as [fd' |]; [lia | by destruct Hr' as [-> _]].
Qed.

Lemma set_file_returns pid fd f m ret s : fsys_ok s -> file_ok f -> returns pid s (Done (ret, set_file pid fd f (set_fy_mem m s))).
Proof.
  intros Hs Hf. do 2 eexists. split; [done |]. split; [by apply set_file_ok; [apply fsys_ok_mem |] |].
  unfold set_file. cbn [set_fy_mem fy_handles]. destruct (fy_handles s !! pid) as [ph |] eqn:E; cbn [set_fy_handles fy_handles fy_mounted fy_proc]; [| by split_and!].
  split_and!; [done | |].
  - intros p Hp. by rewrite lookup_insert_ne by done.
  - intros ph' [= <-]. rewrite lookup_insert_eq. eexists. split; [done |]. unfold ph_set. by destruct (ph_table ph !! fd).
Qed.

Lemma stat_returns r pid s : fcall_ok (FStat r) -> fsys_ok s -> returns pid s (run_fs_stat_req translate r pid s).
Proof.
  intros (Hr & Hl & Hst) Hs. destruct (range_user _ _ Hr) as [Hv Hw]; [lia |]. destruct (range_user _ _ Hst) as [Hv2 Hw2]; [unfold STAT_SIZE; lia |].
  unfold run_fs_stat_req. destruct (fy_mounted s) as [fs |]; [| by apply returns_same]. rewrite copy_user_path_exact by (done || lia). cbn [pbind].
  destruct (match user_bytes _ _ _ _ with Some _ => _ | None => _ end) as [raw | e]; [| by apply returns_same].
  destruct (lookup_path fs _) as [[ino st] | e]; [| by apply returns_same]. rewrite stat_bytes_length. destruct (off_page _ _) eqn:Eo; [by apply returns_same |].
  unfold STAT_SIZE in *. apply answer_returns; rewrite ?stat_bytes_length; try done; try lia.
  apply off_page_spec; [lia | done].
Qed.

Lemma fstat_returns fd va pid s : fsys_ok s -> returns pid s (run_fs_fstat translate pid fd va s).
Proof.
  intros Hs. unfold run_fs_fstat. destruct (user_range_ok va STAT_SIZE) eqn:Hr; cbn [negb]; [| by apply returns_same].
  destruct (range_user _ _ Hr) as [Hv Hw]; [unfold STAT_SIZE; lia |]. destruct (off_page _ _) eqn:Eo; [by apply returns_same |].
  destruct (open_file pid fd s) as [f |]; [| by apply returns_same]. destruct (Tar.stat _ _) as [st | e]; [| by apply returns_same].
  unfold STAT_SIZE in *. apply answer_returns; rewrite ?stat_bytes_length; try done; try lia.
  apply off_page_spec; [lia | done].
Qed.

Lemma readdir_returns r pid s : fsys_ok s -> returns pid s (run_fs_readdir_req translate r pid s).
Proof.
  intros Hs. unfold run_fs_readdir_req. destruct (open_file pid (fd_fd r) s) as [f |] eqn:Ef; [| by apply returns_same].
  destruct (off_page _ _); [by apply returns_same |]. destruct (translate _) as [pa |] eqn:Et; [| by apply returns_same].
  rewrite (Haligned _ _ Et), Z.eqb_refl. cbn [negb]. destruct (readdir _ _ _ _) as [[[w next] dst] | e]; [| by apply returns_same].
  apply set_file_returns; [done |]. destruct (fo_files _ Hs pid _ f Ef) as [Ho Hst]. by split.
Qed.

Lemma seek_returns fd o w pid s : o < 2 ^ 63 -> fsys_ok s -> returns pid s (Done (run_fs_seek pid fd o w s)).
Proof.
  intros Ho Hs. unfold run_fs_seek. destruct (open_file pid fd s) as [f |] eqn:Ef; [| by apply returns_same].
  destruct (negb _); [by apply returns_same |]. destruct (fo_files _ Hs pid _ f Ef) as [Hoff Hst].
  destruct (if w =? SEEK_SET then _ else _) as [n | e] eqn:En; [| by apply returns_same]. destruct (Z.ltb_spec n 0); [by apply returns_same |].
  assert (n < 2 ^ 63) as Hn.
  { revert En. unfold checked_add_i64. repeat case_match; try done; intros [= <-]; simplify_eq; to_prop; lia. }
  pose proof (set_file_returns pid fd (mkOpenFile (of_fs f) (of_inode f) n (of_dir_cursor f) (of_is_regular f)) (fy_mem s) n s Hs) as Hr.
  replace (set_fy_mem (fy_mem s) s) with s in Hr by (by destruct s). apply Hr. by split; [cbn; lia |].
Qed.

Lemma fy_proc_put pid pr p s : fy_proc p (set_fy_creds (cr_put pid pr (fy_creds s)) s) = if decide (p = pid) then Some pr else fy_proc p s.
Proof.
  unfold fy_proc, cr_put. cbn. destruct (decide (p = pid)) as [-> | Hne]; [apply bm_get_insert_eq | by apply bm_get_insert_ne].
Qed.

Lemma chdir_returns va len pid s : 0 <= len -> fsys_ok s -> returns pid s (run_chdir translate pid va len s).
Proof.
  intros Hl Hs. unfold run_chdir. destruct (len =? 0); [by apply returns_same |]. destruct (Z.ltb_spec MAX_FS_PATH_LEN len); [by apply returns_same |].
  destruct (user_range_ok va len) eqn:Hr; cbn [negb]; [| by apply returns_same]. destruct (range_user _ _ Hr Hl) as [Hv Hw].
  rewrite copy_user_path_exact by (done || lia). cbn [pbind]. destruct (user_bytes translate (fy_mem s) va len) as [raw |] eqn:Eu; [| by apply returns_same].
  destruct (utf8_valid raw) eqn:Hutf; [| by apply returns_same]. destruct (starts_with [SLASH] raw) eqn:Hsl; cbn [negb]; [| by apply returns_same].
  destruct (fy_mounted s) as [fs |] eqn:Em; [| by apply returns_same]. destruct (lookup_path fs raw) as [[ino st] | e] eqn:El; [| by apply returns_same].
  destruct (Z.eqb_spec (Z.land (f_mode st) S_IFMT) S_IFDIR) as [Hd |]; cbn [negb]; [| by apply returns_same].
  destruct (fy_proc pid s) as [pr |] eqn:Ep; [| by apply returns_same].
  assert (Z.of_nat (length raw) <= MAX_FS_PATH_LEN) as Hlen.
  { unfold user_bytes in Eu. apply length_mapM in Eu. rewrite length_seqZ in Eu. lia. }
  do 2 eexists. split; [done |]. split_and!; try done.
  - split; try apply Hs. intros p pr'. rewrite fy_proc_put. destruct (decide (p = pid)) as [-> | Hne].
    + intros [= <-]. cbn [set_fy_creds fy_mounted set_pr_cwd pr_cwd]. rewrite Em. split_and!; try done. intros fs' [= <-]. eauto.
    + intros Hp. exact (fo_cwds _ Hs p pr' Hp).
  - intros p Hp. rewrite fy_proc_put. by rewrite decide_False by done.
  - intros ph Hph. exists ph. by split.
Qed.

Lemma getcwd_returns va len pid s : 0 <= len -> fsys_ok s -> returns pid s (run_getcwd translate pid va len s).
Proof.
  intros Hl Hs. unfold run_getcwd. destruct ((len =? 0) || (PAGE_SIZE <? len))%bool; [by apply returns_same |].
  destruct (user_range_ok va len) eqn:Hr; cbn [negb]; [| by apply returns_same]. destruct (range_user _ _ Hr Hl) as [Hv Hw].
  destruct (off_page va len) eqn:Eo; [by apply returns_same |]. destruct (fy_proc pid s) as [pr |]; [| by apply returns_same].
  destruct (MAX_FS_PATH_LEN <? _); [by apply returns_same |]. destruct (Z.ltb_spec len (Z.of_nat (length (pr_cwd pr)))); [by apply returns_same |].
  apply off_page_spec in Eo; [| lia]. apply answer_returns; try done; lia.
Qed.

Lemma getlogin_returns va len pid s : 0 <= len -> fsys_ok s -> returns pid s (run_getlogin translate pid va len s).
Proof.
  intros Hl Hs. unfold run_getlogin. destruct ((len =? 0) || (PAGE_SIZE <? len))%bool; [by apply returns_same |].
  destruct (user_range_ok va len) eqn:Hr; cbn [negb]; [| by apply returns_same]. destruct (range_user _ _ Hr Hl) as [Hv Hw].
  destruct (off_page va len) eqn:Eo; [by apply returns_same |]. destruct (fy_proc pid s) as [pr |]; [| by apply returns_same].
  destruct (pr_login_name pr) as [name |]; [| by apply returns_same].
  destruct (256 <? _); [by apply returns_same |]. destruct (Z.ltb_spec len (Z.of_nat (length name))); [by apply returns_same |].
  apply off_page_spec in Eo; [| lia]. apply answer_returns; try done; lia.
Qed.

Lemma words_length l : length (concat (le_bytes 4 <$> l)) = (4 * length l)%nat.
Proof. induction l as [| x l IH]; [done |]. rewrite fmap_cons. cbn [concat]. rewrite length_app, le_bytes_length, IH. cbn [length]. lia. Qed.

Lemma getgroups_returns va n pid s : fsys_ok s -> returns pid s (run_getgroups translate pid va n s).
Proof.
  intros Hs. unfold run_getgroups. destruct (fy_proc pid s) as [pr |]; [| by apply returns_same].
  destruct (NGROUPS_MAX <? _); [by apply returns_same |]. destruct (n =? 0); [by apply returns_same |].
  destruct (NGROUPS_MAX <? n); [by apply returns_same |]. destruct (n <? _); [by apply returns_same |]. destruct (_ =? 0); [by apply returns_same |].
  set (b := Z.of_nat (length (pr_groups pr)) * 4). destruct (user_range_ok va b) eqn:Hr; cbn [negb]; [| by apply returns_same].
  destruct (range_user _ _ Hr) as [Hv Hw]; [unfold b; lia |]. destruct (off_page va b) eqn:Eo; [by apply returns_same |].
  apply off_page_spec in Eo; [| unfold b in *; lia]. apply answer_returns; try done; rewrite words_length; unfold b in *; lia.
Qed.

Lemma fcall_returns c pid s : fcall_ok c -> fsys_ok s -> returns pid s (run_fcall translate c pid s).
Proof.
  intros Hc Hs. destruct c; cbn [run_fcall];
    [by apply open_returns | by apply stat_returns | by apply fstat_returns | by apply readdir_returns | by apply seek_returns
    | by apply chdir_returns | by apply getcwd_returns | by apply getgroups_returns | by apply getlogin_returns].
Qed.

(** ** Opening a file *)

Definition next_fd (pid : Z) (s : Fsys) : Z := ph_next_id (default ProcessHandles_new (fy_handles s !! pid)).

(** What a descriptor is given out for. *)
Record granted (r : FsOpenReq) (pid fd : Z) (s s' : Fsys) : Prop := {
  gr_next : fd = next_fd pid s /\ next_fd pid s' = fd + 1;
  gr_file : exists fs raw ino st,
    fy_mounted s = Some fs /\ user_bytes translate (fy_mem s) (fo_path_vaddr r) (fo_path_len r) = Some raw /\ utf8_valid raw = true /\
    lookup_path fs (resolve_fs_path pid raw s) = Ok (ino, st) /\ vaccess_pid pid (access_of st) ACCESS_R_OK (fy_creds s) = Ok tt /\
    open_file pid fd s = None /\ open_file pid fd s' = Some (mkOpenFile fs ino 0 0 (Z.land (f_mode st) S_IFMT =? S_IFREG));
  gr_rest : forall p d, (p, d) <> (pid, fd) -> open_file p d s' = open_file p d s;
}.

Lemma open_file_put pid fd h ph s : fy_handles s !! pid = Some ph \/ (fy_handles s !! pid = None /\ ph = ProcessHandles_new) ->
  forall ph', ph_table ph' = <[fd := Slot_new h]> (ph_table ph) ->
  let s' := set_fy_handles (<[pid := ph']> (fy_handles s)) s in
  open_file pid fd s' = (match h with HFile f => Some f | _ => None end) /\ forall p d, (p, d) <> (pid, fd) -> open_file p d s' = open_file p d s.
Proof.
  intros Hph ph' Et. unfold open_file, ph_get. cbn [set_fy_handles fy_handles]. split; [by rewrite lookup_insert_eq, Et, lookup_insert_eq |].
  intros p d Hne. destruct (decide (p = pid)) as [-> | Hp]; [| by rewrite lookup_insert_ne]. rewrite lookup_insert_eq, Et, lookup_insert_ne by congruence.
  destruct Hph as [-> | [-> ->]]; done.
Qed.

Lemma open_spec r pid s : fcall_ok (FOpen r) -> fsys_ok s ->
  exists ret s', run_fs_open_req translate r pid s = Done (ret, s') /\
    if ret <? 0 then forall p d, open_file p d s' = open_file p d s else granted r pid ret s s'.
Proof.
  intros [Hr Hl] Hs. destruct (range_user _ _ Hr) as [Hv Hw]; [lia |]. unfold run_fs_open_req.
  assert (forall e, 0 < e -> exists ret s', Done (to_ret e, s) = Done (ret, s') /\
    if ret <? 0 then forall p d, open_file p d s' = open_file p d s else granted r pid ret s s') as Hfail.
  { intros e He. exists (to_ret e), s. split; [done |]. destruct (Z.ltb_spec (to_ret e) 0); [done |]. unfold to_ret in *. lia. }
  destruct (fy_mounted s) as [fs |] eqn:Em; [| by apply Hfail]. rewrite copy_user_path_exact by (done || lia). cbn [pbind].
  destruct (user_bytes _ _ _ _) as [raw |] eqn:Eu; [| by apply Hfail]. destruct (utf8_valid raw) eqn:Hutf; [| by apply Hfail].
  destruct (lookup_path fs _) as [[ino st] | e] eqn:El.
  2: { unfold lookup_path in El. repeat case_match; simplify_eq; by apply Hfail. }
  destruct (vaccess_pid _ _ _ _) as [[] | e] eqn:Ev.
  2: { unfold vaccess_pid, vaccess in Ev. repeat case_match; simplify_eq; by apply Hfail. }
  set (f := mkOpenFile _ _ _ _ _). set (ph := default ProcessHandles_new (fy_handles s !! pid)).
  assert (ph_ok ph) as Hph by (unfold ph; destruct (fy_handles s !! pid) eqn:E; [by eapply Hs | apply ph_new_ok]).
  unfold ph_insert. pose proof (insert_spec (HFile f) false false ph Hph) as Hi. destruct (insert_with_flags _ _ _ _) as [[fd |] ph'] eqn:Ei.
  - destruct Hi as (_ & Hfd & Hb & Hn & Et & Hn'). exists fd. eexists. split; [done |]. destruct (Z.ltb_spec fd 0); [lia |].
    destruct (open_file_put pid fd (HFile f) ph s) with (ph' := ph') as [Ho1 Ho2].
    { unfold ph. destruct (fy_handles s !! pid); eauto. }
    { done. }
    split; [| exists fs, raw, ino, st |].
    + unfold next_fd. cbn [set_fy_handles fy_handles]. rewrite lookup_insert_eq. cbn [default]. split; [done | simpl; lia].
    + split_and!; try done. unfold open_file, ph_get. unfold ph in Hn. destruct (fy_handles s !! pid); [| done]. simpl in Hn. by rewrite Hn.
    + done.
  - destruct Hi as (_ & -> & _). exists (to_ret errno.EMFILE). eexists. split; [done |]. cbn [Z.ltb Z.compare to_ret]. intros p d. unfold open_file.
    cbn [set_fy_handles fy_handles]. destruct (decide (p = pid)) as [-> | Hp]; [| by rewrite lookup_insert_ne]. rewrite lookup_insert_eq.
    unfold ph. destruct (fy_handles s !! pid); [done |]. unfold ph_get. simpl. by rewrite lookup_empty.
Qed.
End calls_ok.

(** ** Histories of calls *)

(** The calls of any processes, in turn; each has its own page tables. *)
Fixpoint run_fcalls (translate : Z -> Z -> option Z) (cs : list (Z * fcall)) (s : Fsys) : panics (list Z * Fsys) :=
  match cs with
  | [] => Done ([], s)
  | (pid, c) :: cs =>
      r <-! run_fcall (translate pid) c pid s ;;
      rs <-! run_fcalls translate cs r.2 ;;
      Done (r.1 :: rs.1, rs.2)
  end.

(** The descriptors that the opens of a process gave out, in order. *)
Fixpoint opened (pid : Z) (cs : list (Z * fcall)) (rets : list Z) : list Z :=
  match cs, rets with
  | (p, FOpen _) :: cs, r :: rets => if bool_decide (p = pid /\ 0 <= r) then r :: opened pid cs rets else opened pid cs rets
  | _ :: cs, _ :: rets => opened pid cs rets
  | _, _ => []
  end.

Lemma returns_next translate pid s s' ret c p : fsys_ok s -> returns pid s (run_fcall translate c pid s) ->
  run_fcall translate c pid s = Done (ret, s') -> next_fd p s <= next_fd p s'.
Proof.
  intros Hs (ret' & s'' & E & Hs' & _ & Hother & Hown) E'. rewrite E in E'. injection E' as <- <-. unfold next_fd.
  destruct (decide (p = pid)) as [-> | Hne]; [| by destruct (Hother p Hne) as [-> _]]. destruct (fy_handles s !! pid) as [ph |] eqn:Eh.
  - destruct (Hown ph eq_refl) as (ph' & -> & Hle). done.
  - destruct (fy_handles s'' !! pid) as [ph' |] eqn:Eh'; [| done]. simpl. by apply (fo_tables _ Hs' pid).
Qed.

Lemma fcalls_run translate cs : (forall pid, frames_aligned (translate pid)) -> Forall (fun c => fcall_ok c.2) cs ->
  forall s, fsys_ok s -> exists rets s', run_fcalls translate cs s = Done (rets, s') /\ fsys_ok s' /\ length rets = length cs /\
    forall pid, StronglySorted Z.lt (opened pid cs rets) /\ Forall (Z.le (next_fd pid s)) (opened pid cs rets).
Proof.
  intros Ha Hcs. induction Hcs as [| [pid c] cs Hc _ IH]; intros s Hs.
  { exists [], s. split_and!; try done. intros pid. split; constructor. }
  cbn [run_fcalls]. pose proof (fcall_returns (translate pid) (Ha pid) c pid s Hc Hs) as Hr. destruct Hr as (ret & s1 & E1 & Hs1 & Hrest).
  assert (returns pid s (run_fcall (translate pid) c pid s)) as Hret by (by exists ret, s1).
  rewrite E1. cbn [pbind fst snd]. destruct (IH s1 Hs1) as (rets & s' & E2 & Hs' & Hlen & Hop). rewrite E2. cbn [pbind fst snd].
  exists (ret :: rets), s'. split_and!; [done | done | cbn; by rewrite Hlen |]. intros p. destruct (Hop p) as [Hsort Hle].
  pose proof (returns_next (translate pid) pid s s1 ret c p Hs Hret E1) as Hn.
  assert (Forall (Z.le (next_fd p s)) (opened p cs rets)) as Hle' by (eapply Forall_impl; [exact Hle | simpl; lia]).
  destruct c as [r | | | | | | | |]; cbn [opened]; try done. case_bool_decide as Hp; [| done]. destruct Hp as [-> Hret0].
  destruct (open_spec (translate p) (Ha p) r p s Hc Hs) as (ret2 & s2 & E3 & Hg). cbn [run_fcall] in E1. rewrite E1 in E3. injection E3 as <- <-.
  destruct (Z.ltb_spec ret 0); [lia |]. destruct (gr_next _ _ _ _ _ _ Hg) as [-> Hnext]. split; constructor; [done | | lia | done].
  eapply Forall_impl; [exact Hle |]. simpl. lia.
Qed.

(** ** The working directory *)

Lemma chdir_sets translate pid va len s ret s' : frames_aligned translate -> 0 <= len -> fsys_ok s ->
  run_chdir translate pid va len s = Done (ret, s') ->
  (ret < 0 /\ s' = s) \/
  (ret = 0 /\ exists raw pr fs ino st, user_bytes translate (fy_mem s) va len = Some raw /\ fy_proc pid s = Some pr /\ fy_mounted s = Some fs /\
    lookup_path fs raw = Ok (ino, st) /\ Z.land (f_mode st) S_IFMT = S_IFDIR /\ utf8_valid raw = true /\ starts_with [SLASH] raw = true /\
    s' = set_fy_creds (cr_put pid (set_pr_cwd raw pr) (fy_creds s)) s).
Proof.
  intros Ha Hl Hs. unfold run_chdir. destruct (len =? 0); [by intros [= <- <-]; left |].
  destruct (Z.ltb_spec MAX_FS_PATH_LEN len); [by intros [= <- <-]; left |]. destruct (user_range_ok va len) eqn:Hr; cbn [negb]; [| by intros [= <- <-]; left].
  destruct (range_user _ _ Hr Hl) as [Hv Hw]. rewrite copy_user_path_exact by (done || lia). cbn [pbind].
  destruct (user_bytes translate (fy_mem s) va len) as [raw |]; [| by intros [= <- <-]; left].
  destruct (utf8_valid raw) eqn:Hutf; [| by intros [= <- <-]; left]. destruct (starts_with [SLASH] raw) eqn:Hsl; cbn [negb]; [| by intros [= <- <-]; left].
  destruct (fy_mounted s) as [fs |] eqn:Em; [| by intros [= <- <-]; left]. destruct (lookup_path fs raw) as [[ino st] | e] eqn:El.
  2: { unfold lookup_path in El. repeat case_match; simplify_eq; by intros [= <- <-]; left. }
  destruct (Z.eqb_spec (Z.land (f_mode st) S_IFMT) S_IFDIR) as [Hd |]; cbn [negb]; [| by intros [= <- <-]; left].
  destruct (fy_proc pid s) as [pr |]; [| by intros [= <- <-]; left]. intros [= <- <-]. right. split; [done |]. exists raw, pr, fs, ino, st. by split_and!.
Qed.

(** [getcwd], with a buffer within a page. *)
Lemma getcwd_gives translate pid pr va len pa s : frames_aligned translate -> fsys_ok s -> fy_proc pid s = Some pr ->
  user_range_ok va len = true -> off_page va len = false -> 0 < len <= PAGE_SIZE -> Z.of_nat (length (pr_cwd pr)) <= len ->
  translate (page_base va) = Some pa ->
  exists s', run_getcwd translate pid va len s = Done (Z.of_nat (length (pr_cwd pr)), s') /\
    user_bytes translate (fy_mem s') va (Z.of_nat (length (pr_cwd pr))) = Some (pr_cwd pr).
Proof.
  intros Ha Hs Hp Hr Ho Hl Hc Ht. unfold run_getcwd. destruct (Z.eqb_spec len 0); [lia |]. destruct (Z.ltb_spec PAGE_SIZE len); [lia |]. cbn [orb].
  rewrite Hr, Ho, Hp. cbn [negb]. destruct (fo_cwds _ Hs pid pr Hp) as [Hm _]. destruct (Z.ltb_spec MAX_FS_PATH_LEN (Z.of_nat (length (pr_cwd pr)))); [lia |].
  destruct (Z.ltb_spec len (Z.of_nat (length (pr_cwd pr)))); [lia |]. destruct (range_user _ _ Hr) as [Hv Hw]; [lia |].
  apply off_page_spec in Ho; [| lia]. pose proof (copy_out_exact translate Ha va (pr_cwd pr) (fy_mem s) Hv ltac:(lia) ltac:(lia)) as Hco.
  rewrite Ht in Hco. destruct Hco as (m' & E & Hu & _). unfold answer. rewrite E. cbn [pbind]. eexists. by split.
Qed.

Lemma strip_dots_plain c t : c <> 46 -> strip_dots (c :: t) = c :: t.
Proof. intros Hc. destruct c as [| c | c]; try done. do 6 (destruct c as [c | c |]; try done). Qed.

(** A name that starts with neither a dot nor a slash is taken below the directory. *)
Lemma resolve_plain pid pr c t s : fy_proc pid s = Some pr -> c <> 46 -> c <> SLASH ->
  resolve_fs_path pid (c :: t) s = (if bool_decide (last (pr_cwd pr) = Some SLASH) then pr_cwd pr else pr_cwd pr ++ [SLASH]) ++ c :: t.
Proof.
  intros Hp Hc Hs. unfold resolve_fs_path. cbn [starts_with]. destruct (Z.eqb_spec SLASH c); [done |]. cbn [andb]. rewrite Hp, strip_dots_plain by done. done.
Qed.

(** ** Listing through a descriptor *)

(** A program that calls [fs_readdir] with one buffer until it answers 0, and walks
    what it gets each time. *)
Fixpoint list_fd (n : nat) (translate : Z -> option Z) (req : FsReaddirReq) (pid : Z) (s : Fsys) : option (list (list Z * Z * Z)) :=
  match n with
  | O => None
  | S n =>
      match run_fs_readdir_req translate req pid s with
      | Panic => None
      | Done (w, s) =>
          if w =? 0 then Some []
          else
            bytes ← user_bytes translate (fy_mem s) (fd_buf_vaddr req) w;
            match walk_dirents bytes with
            | Some (true, rs) => rest ← list_fd n translate req pid s; Some (rs ++ rest)
            | _ => None
            end
      end
  end.

Definition at_cursor (f : OpenFile) (c : Z) : OpenFile := mkOpenFile (of_fs f) (of_inode f) (of_offset f) c (of_is_regular f).

Lemma open_file_set_eq pid fd f f' s : open_file pid fd s = Some f -> open_file pid fd (set_file pid fd f' s) = Some f'.
Proof.
  unfold open_file, set_file, ph_get. destruct (fy_handles s !! pid) as [ph |] eqn:E; [| done]. cbn [set_fy_handles fy_handles]. rewrite lookup_insert_eq.
  unfold ph_set. destruct (ph_table ph !! fd) as [sl |]; [| done]. cbn [ph_table]. by rewrite lookup_insert_eq.
Qed.

Lemma write_bytes_read m a n f k : 0 <= k <= Z.of_nat n -> bytes_at (write_bytes a n f m) a k = f <$> seq 0 (Z.to_nat k).
Proof.
  intros Hk. apply list_eq. intros i. unfold bytes_at. rewrite !list_lookup_fmap. destruct (decide (i < Z.to_nat k)%nat).
  - rewrite lookup_seqZ_lt, lookup_seq_lt by lia. cbn [fmap option_fmap option_map]. unfold byte_at. rewrite write_bytes_at by lia. cbn. f_equal. f_equal. lia.
  - rewrite lookup_seqZ_ge, lookup_seq_ge by lia. done.
Qed.

Lemma take_by_index (l : list Z) k : (k <= length l)%nat -> (fun i => default 0 (l !! i)) <$> seq 0 k = take k l.
Proof.
  intros Hk. apply list_eq. intros i. rewrite list_lookup_fmap. destruct (decide (i < k)%nat).
  - rewrite lookup_seq_lt, lookup_take_lt by done. simpl. destruct (lookup_lt_is_Some_2 l i) as [x ->]; [lia | done].
  - rewrite lookup_seq_ge, lookup_take_ge by lia. done.
Qed.

Section listing.
Context (translate : Z -> option Z) (Haligned : frames_aligned translate) (req : FsReaddirReq) (pid pa : Z).
Context (Hva : 0 <= fd_buf_vaddr req) (Hlen : 272 <= fd_len req) (Hw : fd_buf_vaddr req + fd_len req < W64)
  (Hpage : off_page (fd_buf_vaddr req) (fd_len req) = false) (Hpa : translate (page_base (fd_buf_vaddr req)) = Some pa).

(** One call is one [readdir] at the descriptor's cursor, seen in the buffer. *)
Lemma readdir_call f out w next s :
  open_file pid (fd_fd req) s = Some f -> out = bytes_at (fy_mem s) (pa + page_off (fd_buf_vaddr req)) (fd_len req) ->
  forall out', readdir (of_fs f) (of_inode f) (of_dir_cursor f) out = Ok (w, next, out') -> length out' = length out -> 0 <= w <= fd_len req ->
  exists s', run_fs_readdir_req translate req pid s = Done (w, s') /\ open_file pid (fd_fd req) s' = Some (at_cursor f next) /\
    user_bytes translate (fy_mem s') (fd_buf_vaddr req) w = Some (take (Z.to_nat w) out').
Proof.
  intros Hf -> out' Hr Hlo Hww. unfold run_fs_readdir_req. rewrite Hf, Hpage, Hpa, (Haligned _ _ Hpa), Z.eqb_refl. cbn [negb]. rewrite Hr.
  eexists. split; [done |]. set (s1 := set_fy_mem _ s). split; [by apply (open_file_set_eq pid (fd_fd req) f) |].
  replace (fy_mem (set_file _ _ _ s1)) with (fy_mem s1) by (unfold set_file; by destruct (fy_handles s1 !! pid)).
  assert (Z.of_nat (length out') = fd_len req) as El.
  { rewrite Hlo. unfold bytes_at. rewrite length_fmap, length_seqZ. lia. }
  apply off_page_spec in Hpage; [| lia]. rewrite (user_bytes_page translate (fy_mem s1) (fd_buf_vaddr req) w pa) by (done || unfold is_u64; lia).
  unfold s1. cbn [set_fy_mem fy_mem]. rewrite write_bytes_read by lia. by rewrite take_by_index by lia.
Qed.

Lemma list_fd_from fs ino e : path_sorted (by_path fs) -> entry fs ino = Ok e -> kind e = Dir -> Forall record_ok (listing fs e) ->
  let cs := children (list_prefix e) (by_path fs) in
  forall n j s f, (j <= length cs)%nat -> (length cs - j < n)%nat -> open_file pid (fd_fd req) s = Some f -> of_fs f = fs -> of_inode f = ino ->
  of_dir_cursor f = Z.of_nat j -> list_fd n translate req pid s = Some (omap (record_of (inodes fs)) (drop j cs)).
Proof.
  intros Hs He Hk Hrec cs. induction n as [| n IH]; intros j s f Hj Hn Hf Efs Eino Ecur; [lia |]. cbn [list_fd].
  set (out := bytes_at (fy_mem s) (pa + page_off (fd_buf_vaddr req)) (fd_len req)).
  assert (Z.of_nat (length out) = fd_len req) as El by (unfold out, bytes_at; rewrite length_fmap, length_seqZ; lia).
  destruct (readdir_step fs ino e out j Hs He Hk ltac:(lia) ltac:(lia) Hrec Hj) as (k & rest & Hr & Hlo & Hle & Esplit & Hend).
  fold cs in Hr, Hlo, Esplit, Hend, Hle. set (rs := omap (record_of (inodes fs)) (take k (drop j cs))) in *.
  assert (length (records_bytes rs) <= length out)%nat as Hrl by (rewrite length_app in Hlo; lia).
  destruct (readdir_call f out (Z.of_nat (length (records_bytes rs))) (Z.of_nat (j + k)) s Hf eq_refl (records_bytes rs ++ rest)) as (s' & E & Hf' & Hu);
    [by rewrite Efs, Eino, Ecur | done | lia |].
  rewrite E. destruct (Z.eqb_spec (Z.of_nat (length (records_bytes rs))) 0) as [E0 | Hne].
  - rewrite decide_True in Hend by lia. by rewrite Hend.
  - rewrite decide_False in Hend by lia. destruct Hend as [Hk0 Hwalk]. rewrite Hu, Nat2Z.id, take_app_length. simpl. rewrite Hwalk.
    rewrite (IH (j + k)%nat s' (at_cursor f (Z.of_nat (j + k)))); [| lia | lia | done | done | done | done]. simpl. by rewrite <- Esplit.
Qed.
End listing.

(** A second slash after the dot stays: the path has two between the directory and the name. *)
Example resolve_two_slashes : resolve_fs_path 1 [46; 47; 47; 114; 99] (mkFsys ∅ two_users None ∅) = [47; 47; 114; 99].
Proof. vm_compute. reflexivity. Qed.

(** ** Correctness *)

(** C33. The file calls are safe. Any calls of any processes, with the arguments their
    system calls let through, run without a panic; tables, open files and working
    directories stay well formed, and the descriptors a process is given strictly
    increase, so none is given out twice. *)
Theorem file_calls_safe translate cs s :
  (forall pid, frames_aligned (translate pid)) -> Forall (fun c => fcall_ok c.2) cs -> fsys_ok s ->
  exists rets s', run_fcalls translate cs s = Done (rets, s') /\ fsys_ok s' /\ length rets = length cs /\
    forall pid, StronglySorted Z.lt (opened pid cs rets).
Proof.
  intros Ha Hc Hs. destruct (fcalls_run translate cs Ha Hc s Hs) as (rets & s' & E & Hs' & Hl & Ho). exists rets, s'. split_and!; try done. intros pid. apply Ho.
Qed.


(** The working directory. [chdir] fails and changes nothing, or makes the path the
    directory of the process alone; then [getcwd] with a buffer that holds it answers
    its length and the process reads the same path there, and a plain name resolves
    below it. *)
Theorem chdir_getcwd translate pid va len buf blen pa ret s s' :
  frames_aligned translate -> fsys_ok s -> 0 <= len -> run_chdir translate pid va len s = Done (ret, s') ->
  user_range_ok buf blen = true -> off_page buf blen = false -> len <= blen <= PAGE_SIZE -> translate (page_base buf) = Some pa ->
  (ret < 0 /\ s' = s) \/
  (ret = 0 /\ exists raw s'', user_bytes translate (fy_mem s) va len = Some raw /\
    (forall p, p <> pid -> fy_proc p s' = fy_proc p s) /\
    run_getcwd translate pid buf blen s' = Done (len, s'') /\ user_bytes translate (fy_mem s'') buf len = Some raw /\
    forall c t, c <> 46 -> c <> SLASH -> resolve_fs_path pid (c :: t) s' = (if bool_decide (last raw = Some SLASH) then raw else raw ++ [SLASH]) ++ c :: t).
Proof.
  intros Ha Hs Hl E Hr Ho Hb Ht. destruct (chdir_sets _ _ _ _ _ _ _ Ha Hl Hs E) as [Hf | (-> & raw & pr & fs & ino & st & Hu & Hp & Hm & Hk & Hd & Hutf & Hsl & Es')]; [by left |].
  right. split; [done |]. destruct (chdir_returns translate Ha va len pid s Hl Hs) as (r' & s1 & E1 & Hs1 & _). rewrite E in E1. injection E1 as <- <-.
  assert (fy_proc pid s' = Some (set_pr_cwd raw pr)) as Hp' by (rewrite Es', fy_proc_put; by rewrite decide_True by done).
  assert (Z.of_nat (length raw) = len) as Hlen by (unfold user_bytes in Hu; apply length_mapM in Hu; rewrite length_seqZ in Hu; lia).
  assert (0 < len) as Hpos by (destruct raw; [done | cbn in Hlen; lia]).
  destruct (getcwd_gives translate pid (set_pr_cwd raw pr) buf blen pa s' Ha Hs1 Hp' Hr Ho) as (s'' & E2 & Hu2); [lia | cbn; lia | done |].
  cbn [set_pr_cwd pr_cwd] in E2, Hu2. rewrite Hlen in E2, Hu2. exists raw, s''. split_and!; try done.
  - intros p Hne. by rewrite Es', fy_proc_put, decide_False by done.
  - intros c t Hc Hc'. by rewrite (resolve_plain pid (set_pr_cwd raw pr)) by done.
Qed.

(** Listing a directory through a descriptor is exact. On any mounted disk, a
    process that opened a directory and calls [fs_readdir] with one buffer of at least
    272 bytes within a page until it answers 0 reads in that buffer exactly the
    children of the directory, in order, each once. *)
Theorem list_fd_exact rd cap translate req pid pa s :
  0 <= cap <= 2 ^ 54 -> frames_aligned translate -> 272 <= fd_len req -> 0 <= fd_buf_vaddr req ->
  fd_buf_vaddr req + fd_len req < W64 -> off_page (fd_buf_vaddr req) (fd_len req) = false -> translate (page_base (fd_buf_vaddr req)) = Some pa ->
  exists r, mount rd cap = Some r /\
    forall fs f e, r = Ok fs -> open_file pid (fd_fd req) s = Some f -> of_fs f = fs -> of_dir_cursor f = 0 -> entry fs (of_inode f) = Ok e -> kind e = Dir ->
      list_fd (S (length (by_path fs))) translate req pid s = Some (listing fs e).
Proof.
  intros Hc Ha Hl Hv Hw Hp Ht. destruct (mounted_listing rd cap Hc) as (r & Hm & Hr). exists r. split; [done |]. intros fs f e Hok Hf Efs Ecur He Hk.
  destruct (Hr fs Hok) as [Hsort Hli]. destruct (Hli _ e He) as [Hrec Hlen].
  apply (list_fd_from translate Ha req pid pa Hv Hl Hw Hp Ht fs (of_inode f) e Hsort He Hk Hrec) with (j := O) (f := f); try done; lia.
Qed.

(** ** Witnesses *)

(** Two users before the disk of [tree], with one page mapped that holds [/bin]. *)
Definition desk_page (va : Z) : option Z := if va =? 0x600000 then Some 0x80600000 else None.

Definition desk : Fsys :=
  mkFsys ∅ two_users (Some tree_fs) (write_bytes 0x80600000 4 (fun i => default 0 ([47; 98; 105; 110] !! i)) ∅).

Definition open_bin : FsOpenReq := mkFsOpenReq 0x600000 4 0.

Lemma desk_page_aligned : frames_aligned desk_page.
Proof. intros va pa. unfold desk_page. destruct (va =? 0x600000); [| done]. by intros [= <-]. Qed.

Lemma desk_ok : fsys_ok desk.
Proof.
  split.
  - intros pid ph Hp. simpl in Hp. by rewrite lookup_empty in Hp.
  - intros pid fd f Hf. unfold open_file in Hf. simpl in Hf. by rewrite lookup_empty in Hf.
  - intros pid pr Hp. assert (pr_cwd pr = [47]) as ->.
    { unfold fy_proc in Hp. cbn [desk fy_creds two_users cr_procs] in Hp. rewrite !bm_get_cons in Hp. repeat case_decide; simplify_eq; done. }
    split_and!; try done. intros fs [= <-]. do 2 eexists. split; vm_compute; reflexivity.
Qed.

Lemma open_bin_ok : fcall_ok (FOpen open_bin).
Proof. split; [vm_compute; reflexivity |]. unfold MAX_FS_PATH_LEN. simpl. lia. Qed.

Lemma file_calls_safe_witness : exists s',
  run_fcalls (fun _ => desk_page) [(1, FOpen open_bin); (3, FOpen open_bin); (1, FOpen open_bin); (1, FChdir 0x600000 4); (3, FFstat 0 0x600800)] desk
    = Done ([0; 0; 1; 0; 0], s') /\ fsys_ok s' /\ StronglySorted Z.lt [0; 1].
Proof.
  set (cs := [_; _; _; _; _]).
  destruct (file_calls_safe (fun _ => desk_page) cs desk) as (rets & s' & E & Hok & _ & Ho).
  - intros _. exact desk_page_aligned.
  - repeat constructor; try exact (proj1 open_bin_ok); vm_compute; congruence.
  - exact desk_ok.
  - exists s'. assert (rets = [0; 0; 1; 0; 0]) as ->.
    { assert ((match run_fcalls (fun _ => desk_page) cs desk with Done r => r.1 | Panic => [] end) = [0; 0; 1; 0; 0]) as Hv by (vm_compute; reflexivity).
      by rewrite E in Hv. }
    split_and!; [exact E | exact Hok | exact (Ho 1)].
Defined.


Lemma chdir_getcwd_witness : exists s' s'', run_chdir desk_page 1 0x600000 4 desk = Done (0, s') /\
  run_getcwd desk_page 1 0x600100 64 s' = Done (4, s'') /\ user_bytes desk_page (fy_mem s'') 0x600100 4 = Some [47; 98; 105; 110].
Proof.
  destruct (chdir_returns desk_page desk_page_aligned 0x600000 4 1 desk ltac:(lia) desk_ok) as (ret & s' & E & _).
  assert (ret = 0) as ->.
  { assert ((match run_chdir desk_page 1 0x600000 4 desk with Done r => r.1 | Panic => 9 end) = 0) as Hv by (vm_compute; reflexivity). by rewrite E in Hv. }
  destruct (chdir_getcwd desk_page 1 0x600000 4 0x600100 64 0x80600000 0 desk s' desk_page_aligned desk_ok ltac:(lia) E) as [[? _] | (_ & raw & s'' & Hu & _ & E' & Hu' & _)];
    [vm_compute; reflexivity | vm_compute; reflexivity | unfold PAGE_SIZE; lia | vm_compute; reflexivity | lia |].
  exists s', s''. split_and!; [exact E | exact E' |]. rewrite Hu', <- Hu. vm_compute. reflexivity.
Defined.

(** The root, open. *)
Definition root_open : Fsys := set_fy_handles {[ 1 := mkHandles {[ 0 := Slot_new (HFile (mkOpenFile tree_fs 1 0 0 false)) ]} 1 ]} desk.

Lemma list_fd_exact_witness :
  list_fd (S (length (by_path tree_fs))) desk_page (mkFsReaddirReq 0 0x600400 300) 1 root_open = Some [([98; 105; 110], DT_DIR, 2); ([114; 99], DT_REG, 4)].
Proof.
  destruct (list_fd_exact (read_disk (archive tree)) 8 desk_page (mkFsReaddirReq 0 0x600400 300) 1 0x80600000 root_open) as (r & Hm & Hr);
    [lia | exact desk_page_aligned | simpl; lia | simpl; lia | simpl; unfold W64; lia | vm_compute; reflexivity | vm_compute; reflexivity |].
  rewrite tree_mounted in Hm. injection Hm as <-.
  rewrite (Hr tree_fs (mkOpenFile tree_fs 1 0 0 false) root_inode); [vm_compute; reflexivity | reflexivity | vm_compute; reflexivity | reflexivity ..].
Defined.
