(* ===== verification/Regions.v ===== *)
(** * Shared regions

    Models the pages that the kernel shares with a process and drives on its own:
    - the counted handle of [kmain/src/kernel/shared_user_ptr.rs], with the revocation
      of the process's mapping;
    - the rings of frames to free of [kmain/src/kernel/pending_frees.rs];
    - [run_nc_create_req], [run_eventfd_create_req] and [run_close_req] of
      [kmain/src/kernel/mod.rs], the loop of [dealloc_process] over a process's
      handles, and the drain of the rings in [cleanup_threads_and_processes].

    An [Arc] is a number, with its strong count; dropping the last one queues the frame
    on the ring of the hart that dropped it. The network thread is an environment that
    takes requests from its queue and drops what it holds. Frames, tables and memory are
    those of [Mmap.v], handle tables those of [Files.v]. A ring of [heapless] with [N]
    slots holds [N - 1] items. *)

From stdpp Require Import base list option numbers sets gmap.
From S2P Require Import Prelude Text Buddy Sv48 PageTable Translate Mapping Layout Abi Perms Thread Completion NetChannel Work Syscall FsRead UserMem Mmap Files.
#[local] Open Scope Z_scope.

(** ** Counted regions *)

Record SharedInner := mkShared { si_pa : Z; si_layout : Layout; si_user_va : Z; si_len : Z; si_owner_pid : Z; si_revoked : bool }.

Record SocketReq := mkSocketReq { sr_netchan : Z; sr_type : Z; sr_pid : Z; sr_ctx : ChannelCtx }.

(** [rg_net]: the regions the network thread holds. *)
Record Regions := mkRegions {
  rg_vm : Vm;
  rg_arcs : gmap Z (SharedInner * nat);
  rg_next_arc : Z;
  rg_handles : gmap Z ProcessHandles;
  rg_rings : list (list (Z * Layout));
  rg_socket_reqs : list (list SocketReq);
  rg_net : list Z;
  rg_wakes : list Z;
}.

Definition eta_regions (s : Regions) : Regions :=
  mkRegions (rg_vm s) (rg_arcs s) (rg_next_arc s) (rg_handles s) (rg_rings s) (rg_socket_reqs s) (rg_net s) (rg_wakes s).
Definition set_rg_vm : Vm -> Regions -> Regions := ltac:(set_field eta_regions rg_vm).
Definition set_rg_arcs : gmap Z (SharedInner * nat) -> Regions -> Regions := ltac:(set_field eta_regions rg_arcs).
Definition set_rg_next_arc : Z -> Regions -> Regions := ltac:(set_field eta_regions rg_next_arc).
Definition set_rg_handles : gmap Z ProcessHandles -> Regions -> Regions := ltac:(set_field eta_regions rg_handles).
Definition set_rg_rings : list (list (Z * Layout)) -> Regions -> Regions := ltac:(set_field eta_regions rg_rings).
Definition set_rg_socket_reqs : list (list SocketReq) -> Regions -> Regions := ltac:(set_field eta_regions rg_socket_reqs).
Definition set_rg_net : list Z -> Regions -> Regions := ltac:(set_field eta_regions rg_net).
Definition set_rg_wakes : list Z -> Regions -> Regions := ltac:(set_field eta_regions rg_wakes).

(** ** Frames to free *)

Definition FREE_RING_CAP : Z := 64.

(** [pending_frees::push]: a full ring panics. *)
Definition push_free (hart : nat) (pa : Z) (l : Layout) (s : Regions) : panics Regions :=
  match rg_rings s !! hart with
  | None => Panic
  | Some ring =>
      if Z.of_nat (length ring) <? FREE_RING_CAP - 1 then Done (set_rg_rings (<[hart := ring ++ [(pa, l)]]> (rg_rings s)) s) else Panic
  end.

Fixpoint free_ring (ring : list (Z * Layout)) (fa : FrameAllocator) : FrameAllocator :=
  match ring with [] => fa | (pa, l) :: ring => free_ring ring (dealloc_aligned fa pa l) end.

(** [pending_frees::drain], with the closure of the manager. *)
Definition drain (s : Regions) : Regions :=
  set_rg_rings (replicate (length (rg_rings s)) []) (set_rg_vm (set_kernel_pages (free_ring (concat (rg_rings s)) (kernel_pages (rg_vm s))) (rg_vm s)) s).

(** ** The handle *)

(** [SharedUserPtr::new]; the count is one. *)
Definition shared_new (pa : Z) (l : Layout) (user_va len pid : Z) (s : Regions) : panics (Z * Regions) :=
  if negb (user_va mod PAGE_SIZE =? 0) then Panic
  else if negb ((len mod PAGE_SIZE =? 0) && (0 <? len))%bool then Panic
  else Done (rg_next_arc s, set_rg_next_arc (rg_next_arc s + 1)
               (set_rg_arcs (<[rg_next_arc s := (mkShared pa l user_va len pid false, 1%nat)]> (rg_arcs s)) s)).

Definition arc_clone (id : Z) (s : Regions) : Regions :=
  match rg_arcs s !! id with None => s | Some (si, n) => set_rg_arcs (<[id := (si, S n)]> (rg_arcs s)) s end.

(** Dropping a handle; the last one queues the frame. *)
Definition arc_drop (hart : nat) (id : Z) (s : Regions) : panics Regions :=
  match rg_arcs s !! id with
  | None => Panic
  | Some (si, n) =>
      if decide (n = 1%nat) then push_free hart (si_pa si) (si_layout si) (set_rg_arcs (delete id (rg_arcs s)) s)
      else Done (set_rg_arcs (<[id := (si, pred n)]> (rg_arcs s)) s)
  end.

Inductive RevokeError := MissingIntermediate (va : Z) | NotMapped (va : Z) | WrongTag (va tag : Z).

(** A turn of [revoke_walk]. *)
Definition revoke_step (rt : RootTable) (end_ : Z) (s : gmap Z Z * Z) : (gmap Z Z * Z) + panics (gmap Z Z * result unit RevokeError) :=
  let '(m, va) := s in
  if va <? end_ then
    match walk_to_table m rt va 0 with
    | Panic => inr Panic
    | Done None => inr (Done (m, Err (MissingIntermediate va)))
    | Done (Some table) =>
        match vpn_n va 0 with
        | Panic => inr Panic
        | Done idx =>
            let pte := PageTable.entry m table idx in
            if (negb (is_valid pte) || negb (is_leaf pte))%bool then inr (Done (m, Err (NotMapped va)))
            else
              let tag := get_supervisor_bits pte in
              if negb (tag =? tag_bits SharedRevocable) then inr (Done (m, Err (WrongTag va tag)))
              else inl (store m (pte_addr table idx) 0, wadd va PAGE_SIZE)
        end
    end
  else inr (Done (m, Ok tt)).

Definition revoke_walk (rt : RootTable) (si : SharedInner) (m : gmap Z Z) : panics (gmap Z Z * result unit RevokeError) :=
  match while64 (revoke_step rt (wadd (si_user_va si) (si_len si))) (m, si_user_va si) with Some r => r | None => Panic end.

Definition set_revoked (si : SharedInner) : SharedInner := mkShared (si_pa si) (si_layout si) (si_user_va si) (si_len si) (si_owner_pid si) true.

Definition revoke (rt : RootTable) (id : Z) (s : Regions) : panics (result unit RevokeError * Regions) :=
  match rg_arcs s !! id with
  | None => Panic
  | Some (si, n) =>
      if si_revoked si then Done (Ok tt, s)
      else
        r <-! revoke_walk rt si (pte_mem (rg_vm s)) ;;
        let '(m, r) := r in
        Done (r, set_rg_arcs (<[id := (set_revoked si, n)]> (rg_arcs s)) (set_rg_vm (set_pte_mem m (rg_vm s)) s))
  end.

(** ** Creation *)

Definition region_config (va pa : Z) : MappingConfig := mkMappingConfig (perm_or_u64 PR (perm_or PW PU)) 4 PAGE_SIZE va pa false SharedRevocable.

(** [NetChannel::init] on a zeroed region: the length of a queue and both capacities. *)
Definition nc_init (base size : Z) (m : gmap Z Z) : gmap Z Z :=
  let q := queue_len_for size in
  let c := le_bytes 8 (capacity_for size) in
  let put a l m := write_bytes a (length l) (fun i => default 0 (l !! i)) m in
  put (base + NC_TX_OFF + q + NCQ_BUF_OFF - 8) c (put (base + NC_TX_OFF + NCQ_BUF_OFF - 8) c (put base (le_bytes 8 q) m)).

(** [EventFd::init] on a zeroed page: the count, no parked thread, the flags. *)
Definition efd_init (base initval flags : Z) (m : gmap Z Z) : gmap Z Z :=
  let l := le_bytes 8 initval ++ le_bytes 4 0 ++ le_bytes 4 flags in
  write_bytes base (length l) (fun i => default 0 (l !! i)) m.

(** A frame, prepared by [init], mapped into the process: the error and what is left,
    or the address of the frame. *)
Definition map_region (rt : RootTable) (pid va : Z) (layout : Layout) (init : Z -> gmap Z Z -> gmap Z Z) (v : Vm) : panics (result Z Z * Vm) :=
  match alloc_aligned (kernel_pages v) layout with
  | (fa, None) => Done (Err (to_ret errno.ENOMEM), set_kernel_pages fa v)
  | (fa, Some pa) =>
      let v := set_phys_mem (init pa (zero_bytes pa (lsize layout) (phys_mem v))) (set_kernel_pages fa v) in
      match heap_pages v !! pid with
      | None => Done (Err (to_ret errno.ESRCH), free_backing (BShared pa layout) v)
      | Some _ =>
          r <-! map_into rt (region_config va pa) (wadd va (lsize layout)) (wadd pa (lsize layout)) v ;;
          match r with
          | (Err _, v) => Done (Err (to_ret errno.ENOMEM), free_backing (BShared pa layout) v)
          | (Ok _, v) => Done (Ok pa, v)
          end
      end
  end.

(** The handle goes into the table, or is dropped when there is no descriptor left; the
    creator's own handle then revokes the mapping and is dropped too. *)
Definition install_handle (hart : nat) (rt : RootTable) (pid id : Z) (h : Handle) (cloexec nonblock : bool) (s : Regions) : panics (option Z * Regions) :=
  let '(fd, ph) := insert_with_flags h cloexec nonblock (default ProcessHandles_new (rg_handles s !! pid)) in
  let s := set_rg_handles (<[pid := ph]> (rg_handles s)) s in
  match fd with
  | Some fd => Done (Some fd, s)
  | None =>
      s <-! arc_drop hart id s ;;
      r <-! revoke rt id s ;;
      s <-! arc_drop hart id (snd r) ;;
      Done (None, s)
  end.

Definition SOCKET_REQS_CAP : Z := 8.

(** The request for the network thread of the hart that serves the call: [false] when
    its queue is full. The handle in the request is dropped with it. *)
Definition queue_socket (hart : nat) (req : SocketReq) (s : Regions) : panics (bool * Regions) :=
  match rg_socket_reqs s !! hart with
  | None => s <-! arc_drop hart (sr_netchan req) s ;; Done (true, s)
  | Some q =>
      if Z.of_nat (length q) <? SOCKET_REQS_CAP - 1 then Done (true, set_rg_socket_reqs (<[hart := q ++ [req]]> (rg_socket_reqs s)) s)
      else s <-! arc_drop hart (sr_netchan req) s ;; Done (false, s)
  end.

Definition run_nc_create_req (hart : nat) (rt : RootTable) (req : NetChannelCreationReq) (pid : Z) (s : Regions) : panics ((Z * Z) * Regions) :=
  let fail e s := Done ((to_ret e, 0), s) in
  match normalize_region_size (nr_region_size req) with
  | None => fail errno.EINVAL s
  | Some size =>
      if negb (nr_vaddr req mod PAGE_SIZE =? 0) then fail errno.EINVAL s
      else
        match layout_from_size_align size PAGE_SIZE with
        | None => fail errno.EINVAL s
        | Some layout =>
            r <-! map_region rt pid (nr_vaddr req) layout (fun pa => nc_init pa size) (rg_vm s) ;;
            match r with
            | (Err e, v) => Done ((e, 0), set_rg_vm v s)
            | (Ok pa, v) =>
                n <-! shared_new pa layout (nr_vaddr req) size pid (set_rg_vm v s) ;;
                let '(id, s) := n in
                f <-! install_handle hart rt pid id (HNetChannel id) false false (arc_clone id s) ;;
                match f with
                | (None, s) => fail errno.EMFILE s
                | (Some fd, s) =>
                    q <-! queue_socket hart (mkSocketReq id (nr_type req) pid (ChannelCtx_new (nr_bind req) size)) s ;;
                    let '(ok, s) := q in
                    if negb ok then fail errno.EAGAIN s else Done ((nr_vaddr req, fd), s)
                end
            end
        end
  end.

Definition EFD_NONBLOCK : Z := 1.
Definition EFD_CLOEXEC : Z := 4.

Definition run_eventfd_create_req (hart : nat) (rt : RootTable) (req : EventFdCreateReq) (pid : Z) (s : Regions) : panics ((Z * Z) * Regions) :=
  match layout_from_size_align EVENTFD_REGION_SIZE PAGE_SIZE with
  | None => Done ((to_ret errno.EINVAL, 0), s)
  | Some layout =>
      r <-! map_region rt pid (ef_vaddr_hint req) layout (fun pa => efd_init pa (ef_initval req) (ef_flags req)) (rg_vm s) ;;
      match r with
      | (Err e, v) => Done ((e, 0), set_rg_vm v s)
      | (Ok pa, v) =>
          n <-! shared_new pa layout (ef_vaddr_hint req) EVENTFD_REGION_SIZE pid (set_rg_vm v s) ;;
          let '(id, s) := n in
          let cloexec := negb (Z.land (ef_flags req) EFD_CLOEXEC =? 0) in
          let nonblock := negb (Z.land (ef_flags req) EFD_NONBLOCK =? 0) in
          f <-! install_handle hart rt pid id (HEventFd id 0) cloexec nonblock (arc_clone id s) ;;
          match f with
          | (None, s) => Done ((to_ret errno.EMFILE, 0), s)
          | (Some fd, s) => s <-! arc_drop hart id s ;; Done ((ef_vaddr_hint req, fd), s)
          end
      end
  end.

(** ** Release *)

(** A handle that leaves its table: the region behind it is revoked, and dropped
    whatever comes of that. *)
Definition release_region (hart : nat) (rt : RootTable) (id : Z) (s : Regions) : panics (result unit RevokeError * Regions) :=
  r <-! revoke rt id s ;;
  s <-! arc_drop hart id (snd r) ;;
  Done (fst r, s).

Definition run_close_req (hart : nat) (rt : RootTable) (req : CloseHandleReq) (pid : Z) (s : Regions) : panics (Z * Regions) :=
  match rg_handles s !! pid with
  | None => Done (to_ret errno.EBADF, s)
  | Some ph =>
      let '(h, ph) := ph_remove (ch_fd req) ph in
      let s := set_rg_handles (<[pid := ph]> (rg_handles s)) s in
      let release id s :=
        r <-! release_region hart rt id s ;;
        Done (match fst r with Ok _ => 0 | Err _ => to_ret errno.EIO end, snd r) in
      match h with
      | None => Done (to_ret errno.EBADF, s)
      | Some (HNetChannel id) => release id s
      | Some (HEventFd id parked) => release id (if parked =? 0 then s else set_rg_wakes (rg_wakes s ++ [parked]) s)
      | Some (HFile _) | Some HStdin | Some HStdout | Some HStderr => Done (0, s)
      end
  end.

(** The handles of a process that ends, in the order of their numbers. *)
Fixpoint release_handles (hart : nat) (rt : RootTable) (l : list Handle) (s : Regions) : panics Regions :=
  match l with
  | [] => Done s
  | (HNetChannel id | HEventFd id _) :: l => r <-! release_region hart rt id s ;; release_handles hart rt l (snd r)
  | _ :: l => release_handles hart rt l s
  end.

(** The descriptors in ascending order: the table is a [BTreeMap]. *)
Definition handles_of (ph : ProcessHandles) : list Handle :=
  omap (fun fd => ph_get fd ph) (seqZ 0 (ph_next_id ph)).

Definition end_handles (hart : nat) (rt : RootTable) (pid : Z) (s : Regions) : panics Regions :=
  match rg_handles s !! pid with
  | None => Done s
  | Some ph => release_handles hart rt (handles_of ph) (set_rg_handles (delete pid (rg_handles s)) s)
  end.

(** ** The network thread: it takes the next request of a hart, and drops a region. *)

Definition net_take (hart : nat) (s : Regions) : Regions :=
  match rg_socket_reqs s !! hart with
  | Some (r :: q) => set_rg_net (rg_net s ++ [sr_netchan r]) (set_rg_socket_reqs (<[hart := q]> (rg_socket_reqs s)) s)
  | _ => s
  end.

Definition net_drop (hart i : nat) (s : Regions) : panics Regions :=
  match rg_net s !! i with
  | None => Done s
  | Some id => arc_drop hart id (set_rg_net (delete i (rg_net s)) s)
  end.

(** ** A frame, mapped *)

Lemma region_cfg_ok va pa : is_u64 va -> is_u64 pa -> config_ok (region_config va pa).
Proof. intros Hv Hp. split; cbn; try done. Qed.

(** What a region that is mapped has, and what one that is not leaves behind: the
    pages before the one that could not be mapped. *)
Definition region_made (rt : RootTable) (va size pa : Z) (init : Z -> gmap Z Z -> gmap Z Z) (v v' : Vm) : Prop :=
  alloc_aligned (kernel_pages v) (mkLayout size PAGE_SIZE) = (kernel_pages v', Some pa) /\
  fresh_block (BShared pa (mkLayout size PAGE_SIZE)) v /\ taken (BShared pa (mkLayout size PAGE_SIZE)) v v' /\
  phys_mem v' = init pa (zero_bytes pa size (phys_mem v)) /\
  range_mapped rt va pa size (pte_mem v) (pte_mem v') /\ range_leaves (tagged SharedRevocable) rt 0 va size (pte_mem v') /\ leaves_kept rt va size (pte_mem v) (pte_mem v') /\
  (forall a, is_u64 a -> off va a < size -> virt_to_phys (pte_mem v) rt a = Done None).

Definition region_refused (rt : RootTable) (va size : Z) (v v' : Vm) : Prop :=
  given_back v v' /\ returned v v' /\ exists pa d, 0 <= d < size /\ (PAGE_SIZE | d) /\ range_mapped rt va pa d (pte_mem v) (pte_mem v') /\ leaves_kept rt va d (pte_mem v) (pte_mem v') /\
    (forall a, is_u64 a -> off va a < d -> virt_to_phys (pte_mem v) rt a = Done None).

Lemma map_region_spec rt pid va size init v :
  vm_ok rt v -> (PAGE_SIZE | va) -> 0 <= va -> 0 < size -> (PAGE_SIZE | size) -> va + size <= 2 ^ 47 ->
  exists r v', map_region rt pid va (mkLayout size PAGE_SIZE) init v = Done (r, v') /\ vm_ok rt v' /\ heap_pages v' = heap_pages v /\
    match r with Ok pa => region_made rt va size pa init v v' | Err e => region_refused rt va size v v' /\ (e = to_ret errno.ENOMEM \/ (e = to_ret errno.ESRCH /\ pte_mem v' = pte_mem v)) end.
Proof.
  intros Hs Hva Hv0 Hsz [q Eq] Hend. unfold map_region. pose proof (pool_block rt v true size 12 Hs ltac:(lia) ltac:(lia)) as Hp. cbv zeta iota in Hp. change (mkLayout size (2 ^ 12)) with (mkLayout size PAGE_SIZE) in Hp.
  assert (forall v', given_back v v' -> returned v v' -> pte_mem v' = pte_mem v -> region_refused rt va size v v') as Hnone.
  { intros v' Hg Hr Em. split_and!; [done | done |]. exists 0, 0. rewrite Em. split_and!; [lia | lia | apply Z.divide_0_r | apply range_mapped_0 | done |]. intros a _ Ho. pose proof (off_range va a). lia. }
  destruct (alloc_aligned (kernel_pages v) (mkLayout size PAGE_SIZE)) as [fa [pa |]] eqn:Ea.
  2: { subst fa. do 2 eexists. split; [done |]. assert (set_kernel_pages (kernel_pages v) v = v) as E by (by destruct v). rewrite E. split_and!; [done | done | by apply Hnone; [| left |] | by left]. }
  destruct Hp as (Hpa & Hpe & Hpal & Hrm & Hfresh & Hall). set (b := BShared pa (mkLayout size PAGE_SIZE)) in *. cbn [lsize]. set (v1 := set_phys_mem _ _).
  assert (forall v2, kernel_pages v2 = fa -> user_pages v2 = user_pages v -> pt_wf (pte_mem v2) rt (table_pages v2) -> vm_ok rt (free_backing b v2) /\ given_back v (free_backing b v2) /\ returned v (free_backing b v2)) as Hfail.
  { intros v2 Ek Eu Hpt. destruct (Hall v2 Ek Eu) as (_ & _ & Hg & Hpw). split_and!; [eapply vm_ok_mono; [exact Hs | exact Hpt | done |]; intros x; by destruct (Hg x) as [-> ->] | done |].
    right. exists size, fa, pa. split_and!; [lia | lia | done | cbn; by rewrite Ek]. }
  change (heap_pages v1) with (heap_pages v). destruct (heap_pages v !! pid) as [l |] eqn:El.
  2: { do 2 eexists. split; [done |]. destruct (Hfail v1 eq_refl eq_refl) as (Hv & Hg & Hr); [apply Hs |]. split_and!; [done | done | by apply Hnone | by right]. }
  destruct (map_into_range rt (region_config va pa) q v1) as (r & m & pages & d & Em & Hwf & (Hd & Hdv & Hm & Hnew & Hlv & Hkp) & Hr);
    cbn [region_config vaddr paddr page_size levels supervisor_tag] in *; rewrite <- ?Eq in *; unfold W64;
    [apply Hs | apply region_cfg_ok; unfold is_u64, W64; lia | done | unfold PAGE_SIZE in Eq; lia | lia | lia | lia |].
  rewrite Em. cbn [pbind]. set (v2 := set_table_pages pages _) in *. destruct r as [u | e].
  - subst d. do 2 eexists. split; [done |]. destruct (Hall v2 eq_refl eq_refl) as (Htk & Hpw & _). split_and!; try done.
    eapply vm_ok_mono; [exact Hs | exact Hwf | done |]. destruct Htk as [Ht Ho]. intros x. cbn in *. split; [by intros [? _]%Ht | done].
  - do 2 eexists. split; [done |]. destruct (Hfail v2 eq_refl eq_refl Hwf) as (Hv & Hg & Hrt). split_and!; [done | done | | by left]. split_and!; [done | done |]. exists pa, d. split_and!; try done; lia.
Qed.

(** ** Revoking *)

Lemma clear_page_spec rt m (pages : FrameAllocator) va t :
  pt_wf m rt pages -> reaches m rt (vpath va 0) t ->
  let m' := store m (pte_addr t (vpn va 0)) 0 in
  pt_wf m' rt pages /\ (forall va', is_u64 va' -> virt_to_phys m' rt va' = if decide (same_page 0 va va') then Done None else virt_to_phys m rt va') /\
  (forall va' l raw, ~ same_page 0 va va' -> maps m' rt va' l raw <-> maps m rt va' l raw).
Proof. intros Hwf Hr. by apply clear_entry. Qed.

Section revoking.
Context (rt : RootTable) (pages : FrameAllocator) (va0 len : Z) (m0 : gmap Z Z).
Context (Hva : 0 <= va0) (Hend : va0 + len <= 2 ^ 47) (Hd0 : (PAGE_SIZE | va0)) (Hd1 : (PAGE_SIZE | len)) (Hlv : range_leaves (tagged SharedRevocable) rt 0 va0 len m0).

Definition revoke_inv (s : gmap Z Z * Z) : Prop :=
  exists d, s.2 = va0 + d /\ 0 <= d <= len /\ (PAGE_SIZE | d) /\ pt_wf s.1 rt pages /\ range_unmapped rt va0 d m0 s.1 /\ leaves_kept rt va0 d m0 s.1.

Lemma revoke_step_ok s : revoke_inv s ->
  match revoke_step rt (va0 + len) s with
  | inl s' => revoke_inv s' /\ 0 <= va0 + len - s'.2 < va0 + len - s.2
  | inr r => exists m, r = Done (m, Ok tt) /\ pt_wf m rt pages /\ range_unmapped rt va0 len m0 m /\ leaves_kept rt va0 len m0 m
  end.
Proof.
  destruct s as [m va]. intros (d & E & Hd & Hdiv & Hwf & Hun & Hk). cbn [fst snd] in *. subst va. unfold revoke_step.
  destruct (Z.ltb_spec (va0 + d) (va0 + len)) as [Hlt | Hge]; [| exists m; by replace len with d by lia].
  destruct (Hlv d) as (raw & Htag & Hm); [lia | done |]. apply Hk in Hm; [| rewrite off_at by lia; lia]. destruct Hm as [_ (t & Ht & Eraw & Hv & Hlf)].
  destruct (walk_to_table_spec m rt (va0 + d) 0) as (o & -> & Ho); [lia |]. rewrite (proj2 (Ho t) Ht), vpn_n_spec by lia. cbv zeta. rewrite Eraw, Hv, Hlf. cbn [negb orb]. unfold tagged in Htag.
  rewrite Htag, Z.eqb_refl. cbn [negb]. assert (d + PAGE_SIZE <= len) as Hnext.
  { destruct Hdiv as [k ->], Hd1 as [k1 ->]. unfold PAGE_SIZE in *. lia. }
  destruct (clear_page_spec rt m pages (va0 + d) t Hwf Ht) as (Hwf' & Hv' & Hot). assert (0 < PAGE_SIZE) by done. rewrite wadd_small by (unfold W64; lia). split; [| cbn; lia].
  exists (d + PAGE_SIZE). cbn [fst snd]. split_and!; try done; try lia; [by apply Z.divide_add_r; [| apply Z.divide_refl] | |].
  - intros va Hu. rewrite (Hv' va Hu), (Hun va Hu). destruct (same_page_off 0 (va0 + d) va) as [Hsp _]; [lia | by apply Z.divide_add_r |]. change (psize 0) with PAGE_SIZE in Hsp.
    destruct (off_extend va0 d PAGE_SIZE va) as [_ Hor]; [lia | done | lia |].
    destruct (decide (same_page _ _ _)) as [Hs | Hs]; rewrite Hsp in Hs; [by rewrite decide_True by lia |]. destruct (decide (off va0 va < d)); [rewrite decide_True by lia | rewrite decide_False by lia]; done.
  - apply (leaves_kept_step rt 0 va0 d m0 m); change (psize 0) with PAGE_SIZE; try done; [| lia ..]. by apply Z.divide_add_r.
Qed.

Lemma revoke_walk_ok si : si_user_va si = va0 -> si_len si = len -> 0 <= len -> pt_wf m0 rt pages ->
  exists m, revoke_walk rt si m0 = Done (m, Ok tt) /\ pt_wf m rt pages /\ range_unmapped rt va0 len m0 m /\ leaves_kept rt va0 len m0 m.
Proof.
  intros Ev El Hlen Hwf. unfold revoke_walk. rewrite Ev, El, wadd_small by (unfold W64; lia).
  destruct (while64_total (revoke_step rt (va0 + len)) revoke_inv (fun s => va0 + len - s.2) (fun r => exists m, r = Done (m, Ok tt) /\ pt_wf m rt pages /\ range_unmapped rt va0 len m0 m /\ leaves_kept rt va0 len m0 m) (m0, va0) revoke_step_ok) as (r & -> & m & -> & Hr).
  - exists 0. cbn [fst snd]. split_and!; try done; try lia; [apply Z.divide_0_r |]. intros va _. pose proof (off_range va0 va). by rewrite decide_False by lia.
  - cbn. unfold W64. lia.
  - by exists m.
Qed.
End revoking.

(** ** Frames and what shows them *)

Definition region_block (si : SharedInner) : nat * Z := block_of (BShared (si_pa si) (si_layout si)).
Definition ring_block (e : Z * Layout) : nat * Z := block_of (BShared e.1 e.2).
Definition blocks (regs : gmap Z SharedInner) (ring : list (Z * Layout)) : list (nat * Z) :=
  ((fun p => region_block p.2) <$> map_to_list regs) ++ (ring_block <$> ring).

Definition in_region (si : SharedInner) (va : Z) : Prop := si_user_va si <= va < si_user_va si + si_len si.

Record region_ok (si : SharedInner) : Prop := {
  rk_va : (PAGE_SIZE | si_user_va si) /\ 0 <= si_user_va si /\ si_user_va si + si_len si <= 2 ^ 47;
  rk_len : 0 < si_len si /\ (PAGE_SIZE | si_len si);
  rk_layout : si_layout si = mkLayout (si_len si) PAGE_SIZE;
}.

Definition ring_ok (e : Z * Layout) : Prop := exists size, e.2 = mkLayout size PAGE_SIZE /\ 0 < size <= 2 ^ 47.

(** Regions and queued frames are out of both pools and apart from each other; a region
    that is not revoked is mapped in its range, and its frame nowhere else; no page of
    the process shows a frame that is queued or free. *)
Record frames_ok (rt : RootTable) (v : Vm) (regs : gmap Z SharedInner) (ring : list (Z * Layout)) : Prop := {
  fk_vm : vm_ok rt v;
  fk_region : forall id si, regs !! id = Some si -> region_ok si;
  fk_ring : Forall ring_ok ring;
  fk_leaves : forall id si, regs !! id = Some si -> si_revoked si = false -> range_leaves (tagged SharedRevocable) rt 0 (si_user_va si) (si_len si) (pte_mem v);
  fk_shows : forall id si i, regs !! id = Some si -> si_revoked si = false -> 0 <= i < si_len si -> virt_to_phys (pte_mem v) rt (si_user_va si + i) = Done (Some (si_pa si + i));
  fk_holds : holds (kernel_pages v) (blocks regs ring);
  fk_low : forall x, in_blocks (blocks regs ring) x -> x < 2 ^ 56 /\ ~ is_free (user_pages v) x;
  fk_private : forall va pa, user_half va -> virt_to_phys (pte_mem v) rt va = Done (Some pa) -> in_blocks (blocks regs ring) pa ->
    exists id si, regs !! id = Some si /\ si_revoked si = false /\ in_region si va;
  fk_dangling : no_dangling rt v;
}.

Lemma region_block_in si x : region_ok si -> in_blocks [region_block si] x <-> si_pa si <= x < si_pa si + layout_size (si_layout si).
Proof.
  intros [(_ & H0 & H1) [Hl _] El]. destruct (page_layout (si_len si)) as (k & _ & Ek & _ & Hb); [lia |].
  unfold region_block. rewrite El, Hb, Ek. apply in_blocks_one.
Qed.

Lemma region_len_fits si : region_ok si -> si_len si <= layout_size (si_layout si).
Proof. intros [(_ & H0 & H1) [Hl _] ->]. destruct (page_layout (si_len si)) as (k & _ & -> & Hle & _); [lia | done]. Qed.

Lemma blocks_insert regs id si ring : regs !! id = None -> blocks (<[id := si]> regs) ring ≡ₚ region_block si :: blocks regs ring.
Proof. intros Hn. unfold blocks. by rewrite map_to_list_insert. Qed.

Lemma blocks_delete regs id si ring : regs !! id = Some si -> blocks regs ring ≡ₚ region_block si :: blocks (delete id regs) ring.
Proof. intros Hs. unfold blocks. rewrite <- (map_to_list_delete regs id si) by done. done. Qed.

Lemma blocks_same regs id si si' ring : regs !! id = Some si -> region_block si' = region_block si -> blocks (<[id := si']> regs) ring ≡ₚ blocks regs ring.
Proof.
  intros Hs E. rewrite <- insert_delete_eq, blocks_insert by apply lookup_delete_eq. by rewrite E, <- blocks_delete.
Qed.

Lemma in_blocks_perm bl bl' x : bl ≡ₚ bl' -> in_blocks bl x -> in_blocks bl' x.
Proof. intros Hp (k & p & Hin & Hx). exists k, p. by rewrite <- Hp. Qed.

#[global] Instance in_blocks_proper : Proper ((≡ₚ) ==> (=) ==> iff) in_blocks.
Proof. intros bl bl' Hp x y ->. split; by apply in_blocks_perm. Qed.

Lemma in_blocks_cons b bl x : in_blocks (b :: bl) x <-> in_blocks [b] x \/ in_blocks bl x.
Proof. apply (in_blocks_app [b] bl). Qed.

(** Blocks that are held do not overlap. *)
Lemma holds_apart fa b bl x : holds fa (b :: bl) -> in_blocks [b] x -> ~ in_blocks bl x.
Proof.
  intros Hh Hb Hl. apply in_blocks_cov in Hb, Hl. pose proof (ho_disj _ _ Hh x) as Hd. change (b :: bl) with ([b] ++ bl) in Hd. rewrite cov_out_app in Hd. lia.
Qed.

Lemma holds_not_free fa bl x : holds fa bl -> in_blocks bl x -> ~ is_free fa x.
Proof. intros Hh Hb Hx. apply in_blocks_cov in Hb. pose proof (ho_disj _ _ Hh x). unfold is_free in Hx. lia. Qed.

Lemma frames_perm rt v regs ring ring' : ring ≡ₚ ring' -> frames_ok rt v regs ring -> frames_ok rt v regs ring'.
Proof.
  intros Hp [H1 H2 H3 H4 H5 H6 H7 H8 H9]. assert (blocks regs ring ≡ₚ blocks regs ring') as Hb by (unfold blocks; by rewrite Hp).
  split; try done; [by rewrite <- Hp | by rewrite <- Hb | intros x; rewrite <- Hb; apply H7 | intros va pa; rewrite <- Hb; apply H8].
Qed.

(** The frame behind an address of a region. *)
Lemma region_pa rt v regs ring id si va : frames_ok rt v regs ring -> regs !! id = Some si -> si_revoked si = false -> in_region si va ->
  virt_to_phys (pte_mem v) rt va = Done (Some (si_pa si + (va - si_user_va si))) /\ in_blocks [region_block si] (si_pa si + (va - si_user_va si)).
Proof.
  intros Hf Hs Hr Hva. unfold in_region in Hva. pose proof (fk_region _ _ _ _ Hf _ _ Hs) as Hrk. split.
  - rewrite <- (fk_shows _ _ _ _ Hf id si) by (done || lia). f_equal. lia.
  - apply region_block_in; [done |]. pose proof (region_len_fits si Hrk). lia.
Qed.

(** Two regions that are mapped have no address in common. *)
Lemma regions_apart rt v regs ring i si j sj va : frames_ok rt v regs ring -> regs !! i = Some si -> regs !! j = Some sj -> i <> j ->
  si_revoked si = false -> si_revoked sj = false -> in_region si va -> in_region sj va -> False.
Proof.
  intros Hf Hi Hj Hne Ri Rj Vi Vj. destruct (region_pa _ _ _ _ _ _ _ Hf Hi Ri Vi) as [E1 B1], (region_pa _ _ _ _ _ _ _ Hf Hj Rj Vj) as [E2 B2].
  rewrite E1 in E2. injection E2 as E2. rewrite <- E2 in B2. pose proof (fk_holds _ _ _ _ Hf) as Hh. rewrite (blocks_delete _ i si) in Hh by done.
  apply (holds_apart _ _ _ _ Hh B1). rewrite (blocks_delete _ j sj) by (by rewrite lookup_delete_ne). apply in_blocks_cons. by left.
Qed.

Lemma off_region si va : region_ok si -> user_half va -> off (si_user_va si) va < si_len si <-> in_region si va.
Proof.
  intros [(_ & H0 & H1) [Hl _] _] Hva. unfold user_half, off, in_region in *. destruct (decide (si_user_va si <= va)).
  - rewrite Z.mod_small by lia. lia.
  - rewrite <- (Z.mod_add _ 1), Z.mul_1_l, Z.mod_small by lia. lia.
Qed.

(** *** What happens to frames *)

Definition new_region (pa va size pid : Z) : SharedInner := mkShared pa (mkLayout size PAGE_SIZE) va size pid false.

Lemma new_region_ok pa va size pid : (PAGE_SIZE | va) -> 0 <= va -> 0 < size -> (PAGE_SIZE | size) -> va + size <= 2 ^ 47 -> region_ok (new_region pa va size pid).
Proof. intros. by split. Qed.

(** The addresses of a region that is mapped are not in a range that showed nothing. *)
Lemma region_outside rt v regs ring id si va0 d i : frames_ok rt v regs ring -> regs !! id = Some si -> si_revoked si = false -> 0 <= i < si_len si ->
  (forall a, is_u64 a -> off va0 a < d -> virt_to_phys (pte_mem v) rt a = Done None) -> d <= off va0 (si_user_va si + i).
Proof.
  intros Hf Hs Hr Hi Hn. destruct (decide (off va0 (si_user_va si + i) < d)) as [Ho |]; [| lia].
  pose proof (rk_va _ (fk_region _ _ _ _ Hf _ _ Hs)) as (_ & H0 & H1). pose proof (Hn (si_user_va si + i) ltac:(unfold is_u64, W64; lia) Ho) as E.
  rewrite (fk_shows _ _ _ _ Hf id si) in E by done. done.
Qed.

Lemma frames_add rt v v' regs ring id pa va size pid init :
  frames_ok rt v regs ring -> regs !! id = None -> vm_ok rt v' -> (PAGE_SIZE | va) -> 0 <= va -> 0 < size -> (PAGE_SIZE | size) -> va + size <= 2 ^ 47 ->
  region_made rt va size pa init v v' -> frames_ok rt v' (<[id := new_region pa va size pid]> regs) ring.
Proof.
  intros Hf Hid Hvm Hva H0 Hsz Hdv Hend (Ea & Hfb & Htk & _ & Hm & Hlv & Hkp & Hnone). set (si := new_region pa va size pid). pose proof (new_region_ok pa va size pid Hva H0 Hsz Hdv Hend) as Hsi. fold si in Hsi.
  destruct (page_layout size) as (k & Hk & Ek & Hle & Hbo); [lia |]. assert (region_block si = (k, pa)) as Hrb by apply Hbo. pose proof Htk as [Ht Ho]. cbn [backing_pa backing_layout pool_of other_pool] in Ht, Ho.
  assert (forall x, in_blocks [region_block si] x -> is_free (kernel_pages v) x) as Hfresh by (intros x Hx; rewrite Hrb, in_blocks_one, <- Ek in Hx; by apply Hfb).
  assert (forall x, (is_free (kernel_pages v') x -> is_free (kernel_pages v) x) /\ (is_free (user_pages v') x -> is_free (user_pages v) x)) as Hsub by (intros x; rewrite Ht, Ho; tauto).
  assert (forall a, user_half a -> virt_to_phys (pte_mem v') rt a = if decide (in_region si a) then Done (Some (pa + (a - va))) else virt_to_phys (pte_mem v) rt a) as Hv.
  { intros a Ha. rewrite (Hm a) by (unfold user_half, is_u64, W64 in *; lia). pose proof (off_region si a Hsi Ha) as Hoff. cbn [si_user_va si_len si new_region] in Hoff.
    destruct (decide (off va a < size)) as [Hin | Hout]; [rewrite decide_True by tauto | by rewrite decide_False by tauto]. do 2 f_equal.
    apply Hoff in Hin. unfold in_region in Hin. cbn in Hin. replace a with (va + (a - va)) at 1 by lia. by rewrite off_at by lia. }
  split; try done.
  - intros j sj. rewrite lookup_insert_Some. intros [[<- <-] | [_ Hj]]; [done | by apply (fk_region _ _ _ _ Hf j)].
  - apply Hf.
  - intros j sj. rewrite lookup_insert_Some. intros [[<- <-] | [_ Hj]] Hr; [done |].
    eapply range_leaves_kept; [by apply (fk_leaves _ _ _ _ Hf j) | exact Hkp |]. intros x Hx. by apply (region_outside rt v regs ring j).
  - intros j sj i. rewrite lookup_insert_Some. intros [[<- <-] | [_ Hj]] Hr Hi.
    + cbn [si_user_va si_pa si_len si new_region] in *. rewrite Hv by (unfold user_half; lia). rewrite decide_True by (unfold in_region; cbn; lia). do 2 f_equal. lia.
    + pose proof (rk_va _ (fk_region _ _ _ _ Hf _ _ Hj)) as (_ & ? & ?). rewrite Hm by (unfold is_u64, W64; lia).
      rewrite decide_False by (pose proof (region_outside rt v regs ring j sj va size i Hf Hj Hr Hi Hnone); lia). by apply (fk_shows _ _ _ _ Hf j).
  - rewrite blocks_insert, Hrb by done. unfold alloc_aligned in Ea. rewrite Ek in Ea. eapply holds_perm; [symmetry; apply Permutation_cons_append |]. by eapply holds_alloc; [apply Hf | | exact Ea].
  - intros x. rewrite blocks_insert by done. rewrite in_blocks_cons, Ho. intros [Hx%Hfresh | Hx]; [| by apply Hf].
    split; [apply (vo_low _ _ (fk_vm _ _ _ _ Hf)); by left |]. intros Hu. by apply (vo_apart _ _ (fk_vm _ _ _ _ Hf) x).
  - intros a p Ha. rewrite (Hv a Ha), blocks_insert, in_blocks_cons by done. destruct (decide (in_region si a)) as [Hin | _].
    { intros _ _. exists id, si. by rewrite lookup_insert_eq. }
    intros E [Hx%Hfresh | Hx]; [by destruct (fk_dangling _ _ _ _ Hf a p Ha E) |]. destruct (fk_private _ _ _ _ Hf a p Ha E Hx) as (j & sj & Hj & Hr & Hin).
    exists j, sj. rewrite lookup_insert_ne by congruence. done.
  - intros a p Ha. rewrite (Hv a Ha). destruct (decide (in_region si a)) as [Hin | _].
    + intros [= <-]. apply (shown_taken rt (BShared pa (mkLayout size PAGE_SIZE)) v v'); [apply Hf | done | done |]. unfold in_region in Hin. cbn in Hin |- *. lia.
    + intros E. destruct (fk_dangling _ _ _ _ Hf a p Ha E), (Hsub p). tauto.
Qed.

(** A refusal that mapped no page. *)
Lemma frames_refused rt v v' regs ring va size : frames_ok rt v regs ring -> vm_ok rt v' -> region_refused rt va size v v' -> size = PAGE_SIZE \/ pte_mem v' = pte_mem v -> frames_ok rt v' regs ring.
Proof.
  intros Hf Hvm (Hg & Hr & pa & d & Hd & Hdv & Hm & Hk & _) Hone.
  assert ((forall a, is_u64 a -> virt_to_phys (pte_mem v') rt a = virt_to_phys (pte_mem v) rt a) /\ forall a l raw, maps (pte_mem v') rt a l raw <-> maps (pte_mem v) rt a l raw) as [Hv Hl].
  { destruct Hone as [-> | ->]; [| done]. assert (d = 0) as -> by (destruct Hdv as [k ->]; unfold PAGE_SIZE in *; nia). split.
    - intros a Ha. rewrite (Hm a Ha). pose proof (off_range va a). by rewrite decide_False by lia.
    - intros a l raw. pose proof (off_range va a). apply Hk. lia. }
  split; try done; try apply Hf.
  - intros j sj Hj Hrv x Hx Hxd. destruct (fk_leaves _ _ _ _ Hf j sj Hj Hrv x Hx Hxd) as (raw & HR & Hraw). exists raw. split; [done |]. by apply Hl.
  - intros j sj i Hj Hrv Hi. pose proof (rk_va _ (fk_region _ _ _ _ Hf _ _ Hj)) as (_ & ? & ?). rewrite Hv by (unfold is_u64, W64; lia). by apply (fk_shows _ _ _ _ Hf j).
  - eapply holds_returned; [apply Hf | done].
  - intros x Hx. destruct (fk_low _ _ _ _ Hf x Hx). split; [done |]. by destruct (Hg x) as [_ ->].
  - intros a p Ha. rewrite Hv by (unfold user_half, is_u64, W64 in *; lia). by apply Hf.
  - intros a p Ha. rewrite Hv by (unfold user_half, is_u64, W64 in *; lia). intros E. destruct (Hg p) as [-> ->]. by apply (fk_dangling _ _ _ _ Hf a p).
Qed.

Lemma set_revoked_ok si : region_ok si -> region_ok (set_revoked si).
Proof. by intros [? ? ?]. Qed.

Lemma frames_revoke rt v m regs ring id si : frames_ok rt v regs ring -> regs !! id = Some si -> si_revoked si = false ->
  pt_wf m rt (table_pages v) -> range_unmapped rt (si_user_va si) (si_len si) (pte_mem v) m -> leaves_kept rt (si_user_va si) (si_len si) (pte_mem v) m ->
  frames_ok rt (set_pte_mem m v) (<[id := set_revoked si]> regs) ring.
Proof.
  intros Hf Hs Hr Hwf Hun Hk. pose proof (fk_region _ _ _ _ Hf _ _ Hs) as Hrk. pose proof (fk_vm _ _ _ _ Hf) as Hvm.
  assert (blocks (<[id := set_revoked si]> regs) ring ≡ₚ blocks regs ring) as Hb by (by eapply blocks_same).
  assert (forall a, user_half a -> virt_to_phys m rt a = if decide (in_region si a) then Done None else virt_to_phys (pte_mem v) rt a) as Hv.
  { intros a Ha. rewrite (Hun a) by (unfold user_half, is_u64, W64 in *; lia). pose proof (off_region si a Hrk Ha). destruct (decide (off _ _ < _)); [by rewrite decide_True by tauto | by rewrite decide_False by tauto]. }
  assert (forall j sj i, regs !! j = Some sj -> j <> id -> si_revoked sj = false -> 0 <= i < si_len sj -> user_half (si_user_va sj + i) /\ ~ in_region si (si_user_va sj + i)) as Hout.
  { intros j sj i Hj Hne Hrj Hi. pose proof (rk_va _ (fk_region _ _ _ _ Hf _ _ Hj)) as (_ & ? & ?). split; [unfold user_half; lia |]. intros Hin.
    apply (regions_apart rt v regs ring id si j sj (si_user_va sj + i)); try done. unfold in_region. lia. }
  split; cbn [pte_mem set_pte_mem kernel_pages user_pages].
  - by apply (vm_ok_mono rt v); [done | done | split; apply Hvm | done].
  - intros j sj. rewrite lookup_insert_Some. intros [[<- <-] | [_ Hj]]; [by apply set_revoked_ok | by apply (fk_region _ _ _ _ Hf j)].
  - apply Hf.
  - intros j sj. rewrite lookup_insert_Some. intros [[<- <-] | [Hne Hj]] Hrj; [done |]. eapply range_leaves_kept; [by apply (fk_leaves _ _ _ _ Hf j) | exact Hk |].
    intros x Hx. destruct (Hout j sj x Hj ltac:(done) Hrj Hx) as [Hh Hno]. rewrite <- (off_region si _ Hrk Hh) in Hno. lia.
  - intros j sj i. rewrite lookup_insert_Some. intros [[<- <-] | [Hne Hj]] Hrj Hi; [done |]. destruct (Hout j sj i Hj ltac:(done) Hrj Hi) as [Hh Hno].
    rewrite (Hv _ Hh), decide_False by done. by apply (fk_shows _ _ _ _ Hf j).
  - rewrite Hb. apply Hf.
  - intros x. rewrite Hb. apply Hf.
  - intros a p Ha. rewrite Hb, (Hv a Ha). destruct (decide (in_region si a)) as [_ | Hno]; [done |]. intros E Hx. destruct (fk_private _ _ _ _ Hf a p Ha E Hx) as (j & sj & Hj & Hrj & Hin).
    exists j, sj. rewrite lookup_insert_ne; [done |]. intros <-. rewrite Hs in Hj. injection Hj as <-. done.
  - intros a p Ha. cbn [pte_mem set_pte_mem kernel_pages user_pages]. rewrite (Hv a Ha). destruct (decide (in_region si a)) as [_ | Hno]; [done |]. by apply Hf.
Qed.

Lemma frames_retire rt v regs ring id si : frames_ok rt v regs ring -> regs !! id = Some si -> si_revoked si = true -> frames_ok rt v (delete id regs) ((si_pa si, si_layout si) :: ring).
Proof.
  intros Hf Hs Hr. assert (blocks (delete id regs) ((si_pa si, si_layout si) :: ring) ≡ₚ blocks regs ring) as Hb.
  { rewrite (blocks_delete regs id si) by done. unfold blocks. cbn [fmap list_fmap]. symmetry. apply Permutation_middle. }
  split; try apply Hf.
  - intros j sj [_ Hj]%lookup_delete_Some. by apply (fk_region _ _ _ _ Hf j).
  - constructor; [| apply Hf]. destruct (fk_region _ _ _ _ Hf _ _ Hs) as [(_ & ? & ?) [? _] El]. exists (si_len si). cbn. split; [done | lia].
  - intros j sj [_ Hj]%lookup_delete_Some. by apply (fk_leaves _ _ _ _ Hf j).
  - intros j sj i [_ Hj]%lookup_delete_Some. by apply (fk_shows _ _ _ _ Hf j).
  - rewrite Hb. apply Hf.
  - intros x. rewrite Hb. apply Hf.
  - intros a p Ha E. rewrite Hb. intros Hx. destruct (fk_private _ _ _ _ Hf a p Ha E Hx) as (j & sj & Hj & Hrj & Hin). exists j, sj. rewrite lookup_delete_ne; [done |]. intros ->. congruence.
Qed.

Lemma free_ring_holds ring : forall fa bl, Forall ring_ok ring -> holds fa (bl ++ (ring_block <$> ring)) ->
  holds (free_ring ring fa) bl /\ forall x, is_free (free_ring ring fa) x <-> is_free fa x \/ in_blocks (ring_block <$> ring) x.
Proof.
  induction ring as [| [pa l] ring IH]; intros fa bl Hok Hh; cbn [free_ring fmap list_fmap].
  { rewrite app_nil_r in Hh. split; [done |]. intros x. split; [by left |]. intros [? | (k & p & Hin & _)]; [done |]. by apply not_elem_of_nil in Hin. }
  apply Forall_cons in Hok as [(size & El & Hsz) Hok]. cbn in El. subst l. destruct (page_layout size) as (k & _ & Ek & _ & Hbo); [lia |].
  cbn [fmap list_fmap] in Hh. unfold ring_block at 1 in Hh. cbn [fst snd] in Hh. rewrite Hbo, <- Permutation_middle in Hh. unfold dealloc_aligned. rewrite Ek.
  destruct (holds_free _ _ _ _ Hh) as [Hh' Hfr]. destruct (IH _ bl Hok Hh') as [H1 H2]. split; [done |]. intros x. rewrite H2, Hfr, in_blocks_cons. unfold ring_block at 2. cbn [fst snd]. rewrite Hbo, in_blocks_one. tauto.
Qed.

Lemma frames_drain rt v regs ring : frames_ok rt v regs ring -> frames_ok rt (set_kernel_pages (free_ring ring (kernel_pages v)) v) regs [] /\
  forall x, is_free (free_ring ring (kernel_pages v)) x <-> is_free (kernel_pages v) x \/ in_blocks (ring_block <$> ring) x.
Proof.
  intros Hf. pose proof (fk_vm _ _ _ _ Hf) as Hvm. pose proof (fk_holds _ _ _ _ Hf) as Hh. unfold blocks in Hh. destruct (free_ring_holds ring _ _ (fk_ring _ _ _ _ Hf) Hh) as [Hh' Hfr]. split; [| done].
  assert (forall x, in_blocks (blocks regs []) x -> in_blocks (blocks regs ring) x) as Hsub by (intros x; unfold blocks; rewrite app_nil_r, in_blocks_app; by left).
  assert (forall x, in_blocks (ring_block <$> ring) x -> in_blocks (blocks regs ring) x) as Hrg by (intros x; unfold blocks; rewrite in_blocks_app; by right).
  split; cbn [pte_mem set_kernel_pages kernel_pages user_pages]; try apply Hf.
  - split; cbn [set_kernel_pages kernel_pages user_pages table_pages pte_mem]; [apply Hh' | apply Hvm | | | apply Hvm]; intros x; rewrite Hfr.
    + intros [[? | Hx%Hrg] | ?]; [apply (vo_low _ _ Hvm); by left | by apply (fk_low _ _ _ _ Hf x) | apply (vo_low _ _ Hvm); by right].
    + intros [[? | Hx%Hrg] Hu]; [by apply (vo_apart _ _ Hvm x) | by apply (fk_low _ _ _ _ Hf x)].
  - constructor.
  - unfold blocks. by rewrite app_nil_r.
  - intros x Hx%Hsub. by apply Hf.
  - intros a p Ha E Hx%Hsub. by apply (fk_private _ _ _ _ Hf a p).
  - intros a p Ha E. cbn [set_kernel_pages kernel_pages user_pages]. rewrite Hfr. destruct (fk_dangling _ _ _ _ Hf a p Ha E) as [Hk Hu]. split; [| done].
    intros [? | Hx]; [done |]. destruct (fk_private _ _ _ _ Hf a p Ha E (Hrg p Hx)) as (j & sj & Hj & Hrj & Hin).
    destruct (region_pa _ _ _ _ _ _ _ Hf Hj Hrj Hin) as [E' Hb]. cbn [pte_mem set_kernel_pages] in E. rewrite E in E'. injection E' as ->.
    pose proof (fk_holds _ _ _ _ Hf) as Hh2. rewrite (blocks_delete _ j sj) in Hh2 by done. unfold blocks in Hh2. apply (holds_apart _ _ _ _ Hh2 Hb). rewrite in_blocks_app. by right.
Qed.

(** ** Who holds a region *)

Definition handle_arc (h : Handle) : option Z := match h with HNetChannel id | HEventFd id _ => Some id | _ => None end.

Definition hcount (id : Z) (ph : option ProcessHandles) : nat :=
  match ph with None => 0 | Some ph => size (filter (fun p => handle_arc (sl_handle p.2) = Some id) (ph_table ph)) end.
Definition lcount (id : Z) (l : list Z) : nat := length (filter (fun x => x = id) l).

Definition queued (s : Regions) : list Z := sr_netchan <$> concat (rg_socket_reqs s).

(** The handles to [id]: in the table of the process, in the queues of requests, with
    the network thread, and in the hands of the code that runs. *)
Definition holders (pid id : Z) (loc : list Z) (s : Regions) : nat :=
  (hcount id (rg_handles s !! pid) + lcount id (queued s) + lcount id (rg_net s) + lcount id loc)%nat.

Record counts_ok (pid : Z) (loc : list Z) (s : Regions) : Prop := {
  co_next : forall id, is_Some (rg_arcs s !! id) -> id < rg_next_arc s;
  co_count : forall id, holders pid id loc s = match rg_arcs s !! id with Some (_, n) => n | None => 0%nat end;
  co_pos : forall id si, rg_arcs s !! id <> Some (si, 0%nat);
  co_owned : forall id si n, rg_arcs s !! id = Some (si, n) -> si_revoked si = false -> hcount id (rg_handles s !! pid) <> 0%nat \/ id ∈ loc;
  co_table : forall ph, rg_handles s !! pid = Some ph -> ph_ok ph;
}.

Record regions_ok (rt : RootTable) (pid : Z) (loc : list Z) (s : Regions) : Prop := {
  ro_frames : frames_ok rt (rg_vm s) (fst <$> rg_arcs s) (concat (rg_rings s));
  ro_counts : counts_ok pid loc s;
}.

Lemma lcount_cons id x l : lcount id (x :: l) = ((if decide (x = id) then 1 else 0) + lcount id l)%nat.
Proof. unfold lcount. rewrite filter_cons. by destruct (decide (x = id)). Qed.

Lemma lcount_app id l l' : lcount id (l ++ l') = (lcount id l + lcount id l')%nat.
Proof. unfold lcount. by rewrite filter_app, length_app. Qed.

Lemma lcount_perm id l l' : l ≡ₚ l' -> lcount id l = lcount id l'.
Proof. intros Hp. unfold lcount. by rewrite Hp. Qed.

#[global] Instance lcount_proper id : Proper ((≡ₚ) ==> (=)) (lcount id).
Proof. intros l l'. apply lcount_perm. Qed.

Lemma lcount_elem id l : id ∈ l -> lcount id l <> 0%nat.
Proof. intros Hin. induction Hin as [x l | x y l _ IH]; rewrite lcount_cons; [by rewrite decide_True | lia]. Qed.

Lemma lcount_none id l : id ∉ l -> lcount id l = 0%nat.
Proof. induction l as [| x l IH]; [done |]. rewrite not_elem_of_cons, lcount_cons. intros [Hne Hn]. rewrite decide_False by done. by apply IH. Qed.

Lemma arc_present pid loc s id : counts_ok pid loc s -> holders pid id loc s <> 0%nat -> exists si n, rg_arcs s !! id = Some (si, n) /\ n = holders pid id loc s.
Proof. intros Hc. rewrite (co_count _ _ _ Hc). destruct (rg_arcs s !! id) as [[si n] |]; [by exists si, n | done]. Qed.

Lemma local_present pid loc s id : counts_ok pid loc s -> id ∈ loc -> exists si n, rg_arcs s !! id = Some (si, n) /\ n = holders pid id loc s.
Proof. intros Hc Hin. apply arc_present; [done |]. unfold holders. pose proof (lcount_elem id loc Hin). lia. Qed.

Lemma fst_insert_same (m : gmap Z (SharedInner * nat)) id si n n' : m !! id = Some (si, n) -> fst <$> <[id := (si, n')]> m = fst <$> m.
Proof. intros Hs. rewrite fmap_insert. apply insert_id. by rewrite lookup_fmap, Hs. Qed.

Lemma concat_insert {A} (ls : list (list A)) i l l' : ls !! i = Some l -> concat (<[i := l ++ l']> ls) ≡ₚ l' ++ concat ls.
Proof.
  revert i. induction ls as [| x ls IH]; intros [| i] Hi; cbn in *; [done | done | |].
  - injection Hi as ->. rewrite <- app_assoc. apply Permutation_app_swap_app.
  - rewrite (IH i Hi). apply Permutation_app_swap_app.
Qed.

Lemma clone_ok rt pid loc s id : regions_ok rt pid loc s -> is_Some (rg_arcs s !! id) -> regions_ok rt pid (id :: loc) (arc_clone id s).
Proof.
  intros [Hf Hc] [[si n] Hs]. unfold arc_clone. rewrite Hs. split; [cbn; by rewrite (fst_insert_same _ _ _ n) |]. destruct Hc as [H1 H2 H3 H4 H5]. split; cbn [rg_arcs rg_next_arc rg_handles set_rg_arcs]; try done.
  - intros j Hj. apply H1. destruct (decide (j = id)) as [-> |]; [by rewrite Hs |]. by rewrite lookup_insert_ne in Hj.
  - intros j. specialize (H2 j). unfold holders, queued in *. cbn [rg_handles rg_socket_reqs rg_net set_rg_arcs]. rewrite lcount_cons. destruct (decide (j = id)) as [-> |].
    + rewrite lookup_insert_eq, decide_True by done. rewrite Hs in H2. lia.
    + rewrite lookup_insert_ne, decide_False by done. lia.
  - intros j sj. destruct (decide (j = id)) as [-> |]; [by rewrite lookup_insert_eq | by rewrite lookup_insert_ne].
  - intros j sj m Hj Hr. destruct (decide (j = id)) as [-> |]; [right; by left |]. rewrite lookup_insert_ne in Hj by done. destruct (H4 j sj m Hj Hr); [by left | right; by right].
Qed.

(** A hart whose ring takes [k] more frames. *)
Definition room (k hart : nat) (s : Regions) : Prop := exists ring, rg_rings s !! hart = Some ring /\ Z.of_nat (length ring + k) <= FREE_RING_CAP - 1.

Definition is_revoked (id : Z) (s : Regions) : Prop := exists si n, rg_arcs s !! id = Some (si, n) /\ si_revoked si = true.

(** What dropping a handle does not touch. *)
Definition same_but_counts (s s' : Regions) : Prop :=
  rg_vm s' = rg_vm s /\ rg_handles s' = rg_handles s /\ rg_socket_reqs s' = rg_socket_reqs s /\ rg_net s' = rg_net s /\ rg_next_arc s' = rg_next_arc s /\ rg_wakes s' = rg_wakes s.

Lemma drop_ok rt pid loc s id hart : regions_ok rt pid (id :: loc) s ->
  is_revoked id s \/ hcount id (rg_handles s !! pid) <> 0%nat \/ id ∈ loc -> room 1 hart s \/ hcount id (rg_handles s !! pid) <> 0%nat \/ id ∈ loc ->
  exists s', arc_drop hart id s = Done s' /\ regions_ok rt pid loc s' /\ same_but_counts s s' /\ (is_Some (rg_arcs s' !! id) -> rg_rings s' = rg_rings s) /\
    (forall j sj n, rg_arcs s' !! j = Some (sj, n) -> exists n', rg_arcs s !! j = Some (sj, n')) /\ (forall k, room (S k) hart s -> room k hart s').
Proof.
  intros [Hf Hc] Hrev Hroom. destruct (local_present _ _ _ id Hc ltac:(by left)) as (si & n & Hs & En). unfold arc_drop. rewrite Hs. destruct Hc as [H1 H2 H3 H4 H5].
  assert (n = S (holders pid id loc s)) as En' by (rewrite En; unfold holders; rewrite lcount_cons, decide_True by done; lia).
  assert (forall j, j <> id -> holders pid j (id :: loc) s = holders pid j loc s) as Hj by (intros j Hne; unfold holders; rewrite lcount_cons, decide_False by done; lia).
  assert (hcount id (rg_handles s !! pid) <> 0%nat \/ id ∈ loc -> holders pid id loc s <> 0%nat) as Hpos.
  { intros [Hh | Hin]; unfold holders; [lia | pose proof (lcount_elem _ _ Hin); lia]. }
  destruct (decide (n = 1%nat)) as [-> | Hn].
  - assert (holders pid id loc s = 0%nat) as Hz by lia. destruct Hrev as [(si' & n' & Hs' & Hr) | Hx]; [| by apply Hpos in Hx]. rewrite Hs in Hs'. injection Hs' as <- <-.
    destruct Hroom as [(ring & Er & Hlen) | Hx]; [| by apply Hpos in Hx]. unfold push_free. cbn [set_rg_arcs rg_rings]. rewrite Er. destruct (Z.ltb_spec (Z.of_nat (length ring)) (FREE_RING_CAP - 1)); [| lia].
    eexists. split; [done |]. split_and!; cbn [set_rg_rings set_rg_arcs rg_arcs]; [| done | rewrite lookup_delete_eq; by intros [? ?] | intros j sj m [_ Hx]%lookup_delete_Some; by exists m |].
    2: { intros k (ring' & Er' & Hl). rewrite Er in Er'. injection Er' as <-. eexists. cbn [set_rg_rings set_rg_arcs rg_rings]. rewrite list_lookup_insert_eq by (by eapply lookup_lt_Some). split; [done |]. rewrite length_app. cbn. lia. }
    split; cbn [set_rg_rings set_rg_arcs rg_vm rg_arcs rg_rings].
    + eapply frames_perm; [symmetry; by eapply concat_insert |]. rewrite fmap_delete. by apply frames_retire; [done | by rewrite lookup_fmap, Hs |].
    + split; cbn [rg_arcs rg_next_arc rg_handles set_rg_arcs set_rg_rings]; try done.
      * intros j [x Hx]. apply lookup_delete_Some in Hx as [_ Hx]. apply H1. by rewrite Hx.
      * intros j. change (holders pid j loc s = match delete id (rg_arcs s) !! j with Some (_, n) => n | None => 0%nat end). destruct (decide (j = id)) as [-> | Hne]; [by rewrite lookup_delete_eq |].
        rewrite lookup_delete_ne by done. by rewrite <- H2, Hj.
      * intros j sj [_ Hx]%lookup_delete_Some. by apply (H3 j sj).
      * intros j sj m [Hne Hx]%lookup_delete_Some Hr'. destruct (H4 j sj m Hx Hr') as [| [|]%elem_of_cons]; [by left | congruence | by right].
  - eexists. split; [done |]. split_and!; cbn [set_rg_arcs rg_arcs rg_rings]; [| done | done | intros j sj m Hx; destruct (decide (j = id)) as [-> |]; [rewrite lookup_insert_eq in Hx; injection Hx as <- _; by exists n | rewrite lookup_insert_ne in Hx by done; by exists m] | intros k (ring & ? & ?); exists ring; cbn; split; [done | lia]].
    split; cbn [set_rg_arcs rg_vm rg_arcs rg_rings]; [by rewrite (fst_insert_same _ _ _ n) |]. split; cbn [rg_arcs rg_next_arc rg_handles set_rg_arcs]; try done.
    + intros j Hx. apply H1. destruct (decide (j = id)) as [-> |]; [by rewrite Hs |]. by rewrite lookup_insert_ne in Hx.
    + intros j. change (holders pid j loc s = match <[id := (si, Nat.pred n)]> (rg_arcs s) !! j with Some (_, n) => n | None => 0%nat end). destruct (decide (j = id)) as [-> | Hne]; [rewrite lookup_insert_eq; lia |].
      rewrite lookup_insert_ne by done. by rewrite <- H2, Hj.
    + intros j sj. destruct (decide (j = id)) as [-> |]; [rewrite lookup_insert_eq; intros [= _ ?]; lia | by rewrite lookup_insert_ne].
    + intros j sj k Hx Hr'. destruct (decide (j = id)) as [-> | Hne].
      * rewrite lookup_insert_eq in Hx. injection Hx as <- _. destruct Hrev as [(si' & n' & Hs' & Hr) | Hx]; [| tauto]. rewrite Hs in Hs'. injection Hs' as <- <-. congruence.
      * rewrite lookup_insert_ne in Hx by done. destruct (H4 j sj k Hx Hr') as [| [|]%elem_of_cons]; [by left | congruence | by right].
Qed.

(** What revoking a region does to the process's view. *)
Definition unshown (rt : RootTable) (si : SharedInner) (v v' : Vm) : Prop :=
  forall a, user_half a -> virt_to_phys (pte_mem v') rt a = if decide (in_region si a) then Done None else virt_to_phys (pte_mem v) rt a.

#[global] Instance in_region_dec si va : Decision (in_region si va).
Proof. unfold in_region. apply _. Defined.

Lemma revoke_ok rt pid loc s id si n : regions_ok rt pid loc s -> rg_arcs s !! id = Some (si, n) ->
  exists s', revoke rt id s = Done (Ok tt, s') /\ regions_ok rt pid loc s' /\ is_revoked id s' /\
    rg_rings s' = rg_rings s /\ rg_handles s' = rg_handles s /\ rg_socket_reqs s' = rg_socket_reqs s /\ rg_net s' = rg_net s /\ rg_wakes s' = rg_wakes s /\
    kernel_pages (rg_vm s') = kernel_pages (rg_vm s) /\ user_pages (rg_vm s') = user_pages (rg_vm s) /\ phys_mem (rg_vm s') = phys_mem (rg_vm s) /\ heap_pages (rg_vm s') = heap_pages (rg_vm s) /\
    (if si_revoked si then s' = s else unshown rt si (rg_vm s) (rg_vm s')).
Proof.
  intros [Hf Hc] Hs. unfold revoke. rewrite Hs. destruct (si_revoked si) eqn:Er.
  { exists s. split_and!; try done. by exists si, n. }
  assert ((fst <$> rg_arcs s) !! id = Some si) as Hs' by (by rewrite lookup_fmap, Hs). pose proof (fk_region _ _ _ _ Hf _ _ Hs') as Hrk. pose proof Hrk as [(Hd & H0 & H1) [Hl Hld] _].
  destruct (revoke_walk_ok rt (table_pages (rg_vm s)) (si_user_va si) (si_len si) (pte_mem (rg_vm s)) H0 H1 Hd Hld (fk_leaves _ _ _ _ Hf _ _ Hs' Er) si eq_refl eq_refl ltac:(lia)) as (m & -> & Hwf & Hun & Hk); [apply Hf |].
  cbn [pbind]. eexists. split; [done |]. split_and!; try done; [| by eexists _, n; cbn [set_rg_arcs set_rg_vm rg_arcs]; rewrite lookup_insert_eq |].
  - split; cbn [set_rg_arcs set_rg_vm rg_arcs rg_vm rg_rings]; [rewrite fmap_insert; by apply frames_revoke |].
    destruct Hc as [C1 C2 C3 C4 C5]. split; cbn [set_rg_arcs set_rg_vm rg_arcs rg_next_arc rg_handles]; try done.
    + intros j Hj. apply C1. destruct (decide (j = id)) as [-> |]; [by rewrite Hs |]. by rewrite lookup_insert_ne in Hj.
    + intros j. change (holders pid j loc s = match <[id := (set_revoked si, n)]> (rg_arcs s) !! j with Some (_, n) => n | None => 0%nat end). rewrite C2.
      destruct (decide (j = id)) as [-> |]; [by rewrite lookup_insert_eq, Hs | by rewrite lookup_insert_ne].
    + intros j sj. destruct (decide (j = id)) as [-> |]; [rewrite lookup_insert_eq; intros [= _ ->]; by apply (C3 id si) | by rewrite lookup_insert_ne].
    + intros j sj k Hj Hr. destruct (decide (j = id)) as [-> |]; [rewrite lookup_insert_eq in Hj; by injection Hj as <- _ |]. rewrite lookup_insert_ne in Hj by done. by apply (C4 j sj k).
  - intros a Ha. cbn [set_rg_arcs set_rg_vm rg_vm set_pte_mem pte_mem]. rewrite (Hun a) by (unfold user_half, is_u64, W64 in *; lia). pose proof (off_region si a Hrk Ha).
    destruct (decide (off _ _ < _)); [by rewrite decide_True by tauto | by rewrite decide_False by tauto].
Qed.

(** *** The table of handles *)

Lemma hcount_insert id h c b fd ph : ph_table ph !! fd = None ->
  hcount id (Some (mkHandles (<[fd := mkSlot h c b]> (ph_table ph)) (ph_next_id ph + 1))) = ((if decide (handle_arc h = Some id) then 1 else 0) + hcount id (Some ph))%nat.
Proof.
  intros Hn. unfold hcount. cbn [ph_table]. destruct (decide (handle_arc h = Some id)) as [Ha | Ha].
  - rewrite map_filter_insert_True by done. rewrite map_size_insert_None; [done |]. by rewrite map_lookup_filter, Hn.
  - rewrite map_filter_insert_not' by (done || by rewrite Hn). done.
Qed.

Lemma hcount_new id ph : hcount id (Some (default ProcessHandles_new ph)) = hcount id ph.
Proof. by destruct ph. Qed.

Lemma hcount_remove id fd ph : hcount id (Some ph) = ((if decide (ph_get fd ph ≫= handle_arc = Some id) then 1 else 0) + hcount id (Some (ph_remove fd ph).2))%nat.
Proof.
  unfold hcount, ph_remove, ph_get. cbn [snd ph_table]. rewrite map_filter_delete. destruct (ph_table ph !! fd) as [sl |] eqn:E; cbn [fmap option_fmap option_map mbind option_bind].
  - destruct (decide (handle_arc (sl_handle sl) = Some id)) as [Ha | Ha].
    + rewrite map_size_delete_Some; [| eexists; apply map_lookup_filter_Some; by split].
      assert (size (filter (fun p => handle_arc (sl_handle p.2) = Some id) (ph_table ph)) <> 0%nat); [| lia]. intros Hz%map_size_empty_inv. apply (f_equal (.!! fd)) in Hz.
      rewrite lookup_empty, map_lookup_filter, E in Hz. cbn in Hz. by rewrite option_guard_True in Hz.
    + rewrite map_size_delete_None; [done |]. rewrite map_lookup_filter, E. cbn. by rewrite option_guard_False.
  - rewrite decide_False by done. rewrite map_size_delete_None; [done |]. by rewrite map_lookup_filter, E.
Qed.

Lemma handles_moved rt pid loc loc' s ph : regions_ok rt pid loc s -> ph_ok ph ->
  (forall j, (hcount j (Some ph) + lcount j loc' = hcount j (rg_handles s !! pid) + lcount j loc)%nat) ->
  (forall j si n, rg_arcs s !! j = Some (si, n) -> si_revoked si = false -> hcount j (Some ph) <> 0%nat \/ j ∈ loc') ->
  regions_ok rt pid loc' (set_rg_handles (<[pid := ph]> (rg_handles s)) s).
Proof.
  intros [Hf [C1 C2 C3 C4 C5]] Hph Hcnt Hown. split; [done |]. split; cbn [set_rg_handles rg_arcs rg_next_arc rg_handles]; rewrite ?lookup_insert_eq; try done.
  - intros j. rewrite <- C2. specialize (Hcnt j). unfold holders, queued. cbn [set_rg_handles rg_handles rg_socket_reqs rg_net]. rewrite lookup_insert_eq. lia.
  - by intros ? [= <-].
Qed.

Lemma insert_flags_ok h c b ph fd ph' : ph_ok ph -> insert_with_flags h c b ph = (fd, ph') -> ph_ok ph' /\
  match fd with
  | Some fd => 0 <= fd <= FD_MAX /\ ph_get fd ph' = Some h /\ forall id, hcount id (Some ph') = ((if decide (handle_arc h = Some id) then 1 else 0) + hcount id (Some ph))%nat
  | None => ph' = ph
  end.
Proof.
  intros [Hn Ht]. unfold insert_with_flags. destruct (Z.ltb_spec FD_MAX (ph_next_id ph)); [by intros [= <- <-] |]. destruct (Z.leb_spec (2 ^ 32) (ph_next_id ph + 1)); [by intros [= <- <-] |]. intros [= <- <-].
  assert (ph_table ph !! ph_next_id ph = None) as Hf by (destruct (ph_table ph !! ph_next_id ph) eqn:E; [pose proof (Ht (ph_next_id ph) ltac:(by rewrite E)); lia | done]). split_and!.
  - split; cbn [ph_next_id ph_table]; [lia |]. intros fd Hfd. destruct (decide (fd = ph_next_id ph)) as [-> |]; [lia |]. rewrite lookup_insert_ne in Hfd by done. specialize (Ht fd Hfd). lia.
  - lia.
  - lia.
  - unfold ph_get. cbn [ph_table]. by rewrite lookup_insert_eq.
  - intros id. by apply hcount_insert.
Qed.

Lemma table_ok pid loc s : counts_ok pid loc s -> ph_ok (default ProcessHandles_new (rg_handles s !! pid)).
Proof. intros Hc. destruct (rg_handles s !! pid) as [ph |] eqn:E; [by apply (co_table _ _ _ Hc) | apply ph_new_ok]. Qed.

Lemma release_ok rt pid loc s id hart : regions_ok rt pid (id :: loc) s -> room 1 hart s ->
  exists si n s', rg_arcs s !! id = Some (si, n) /\ release_region hart rt id s = Done (Ok tt, s') /\ regions_ok rt pid loc s' /\ rg_handles s' = rg_handles s /\ rg_wakes s' = rg_wakes s /\
    (if si_revoked si then rg_vm s' = rg_vm s else unshown rt si (rg_vm s) (rg_vm s')) /\ (is_Some (rg_arcs s' !! id) -> is_revoked id s') /\ (forall k, room (S k) hart s -> room k hart s').
Proof.
  intros Hr Hroom. destruct (local_present _ _ _ id (ro_counts _ _ _ _ Hr) ltac:(by left)) as (si & n & Hs & _). exists si, n.
  destruct (revoke_ok rt pid _ s id si n Hr Hs) as (s1 & E1 & Hr1 & Hrev & Erg & Eh & _ & _ & Ew & _ & _ & _ & _ & Hv). unfold release_region. rewrite E1. cbn [pbind fst snd].
  assert (forall k, room k hart s -> room k hart s1) as Hrm by (intros k; unfold room; by rewrite Erg).
  destruct (drop_ok rt pid loc s1 id hart Hr1) as (s2 & E2 & Hr2 & (Ev & Eh2 & _ & _ & _ & Ew2) & _ & Hoth & Hk); [by left | left; by apply Hrm |].
  rewrite E2. cbn [pbind]. exists s2. split_and!; try done; [by rewrite Eh2 | by rewrite Ew2 | | | intros k Hk'; by apply Hk, Hrm].
  - rewrite Ev. by destruct (si_revoked si); [subst s1 |].
  - intros [[sj m] Hj]. destruct (Hoth _ _ _ Hj) as [m' Hm']. destruct Hrev as (si' & n' & Hs' & Hrv). rewrite Hm' in Hs'. injection Hs' as -> ->. by exists si', m.
Qed.

(** ** The calls *)

Lemma room_same k hart s s' : rg_rings s' = rg_rings s -> room k hart s -> room k hart s'.
Proof. unfold room. by intros ->. Qed.

Lemma shared_new_ok rt pid s v' pa va size init :
  regions_ok rt pid [] s -> vm_ok rt v' -> (PAGE_SIZE | va) -> 0 <= va -> 0 < size -> (PAGE_SIZE | size) -> va + size <= 2 ^ 47 -> region_made rt va size pa init (rg_vm s) v' ->
  exists s', shared_new pa (mkLayout size PAGE_SIZE) va size pid (set_rg_vm v' s) = Done (rg_next_arc s, s') /\ regions_ok rt pid [rg_next_arc s] s' /\
    rg_vm s' = v' /\ rg_handles s' = rg_handles s /\ rg_rings s' = rg_rings s /\ rg_socket_reqs s' = rg_socket_reqs s /\ rg_arcs s' !! rg_next_arc s = Some (new_region pa va size pid, 1%nat).
Proof.
  intros [Hf [C1 C2 C3 C4 C5]] Hvm Hva H0 Hsz Hdv Hend Hm. unfold shared_new. rewrite (proj2 (Z.mod_divide va PAGE_SIZE ltac:(done))), (proj2 (Z.mod_divide size PAGE_SIZE ltac:(done))) by done. cbn [Z.eqb negb andb].
  destruct (Z.ltb_spec 0 size); [| lia]. cbn [negb]. eexists. split; [done |]. cbn [set_rg_vm set_rg_arcs set_rg_next_arc rg_vm rg_handles rg_rings rg_socket_reqs rg_arcs rg_next_arc]. rewrite lookup_insert_eq.
  assert (rg_arcs s !! rg_next_arc s = None) as Hnew by (destruct (rg_arcs s !! rg_next_arc s) eqn:E; [pose proof (C1 (rg_next_arc s) ltac:(by rewrite E)); lia | done]).
  split_and!; try done. split; cbn [set_rg_vm set_rg_arcs set_rg_next_arc rg_vm rg_arcs rg_rings].
  - rewrite fmap_insert. eapply (frames_add rt (rg_vm s)); try done. by rewrite lookup_fmap, Hnew.
  - split; cbn [set_rg_vm set_rg_arcs set_rg_next_arc rg_arcs rg_next_arc rg_handles].
    + intros j Hj. destruct (decide (j = rg_next_arc s)) as [-> |]; [lia |]. rewrite lookup_insert_ne in Hj by done. specialize (C1 j Hj). lia.
    + intros j. specialize (C2 j). unfold holders, queued in *. cbn [set_rg_vm set_rg_arcs set_rg_next_arc rg_handles rg_socket_reqs rg_net]. rewrite lcount_cons. unfold lcount at 3. unfold lcount in C2 at 3. cbn [filter list_filter length] in *.
      destruct (decide (j = rg_next_arc s)) as [-> |]; [rewrite lookup_insert_eq, decide_True by done; rewrite Hnew in C2; cbn; lia | rewrite lookup_insert_ne, decide_False by done; cbn; lia].
    + intros j sj. destruct (decide (j = rg_next_arc s)) as [-> |]; [by rewrite lookup_insert_eq | by rewrite lookup_insert_ne].
    + intros j sj n Hj Hr. destruct (decide (j = rg_next_arc s)) as [-> |]; [right; by left |]. rewrite lookup_insert_ne in Hj by done. destruct (C4 j sj n Hj Hr); [by left | set_solver].
    + done.
Qed.

Lemma install_ok rt pid s id h c b hart : regions_ok rt pid [id; id] s -> handle_arc h = Some id -> room 1 hart s ->
  exists fd s', install_handle hart rt pid id h c b s = Done (fd, s') /\
    match fd with
    | Some fd => regions_ok rt pid [id] s' /\ rg_vm s' = rg_vm s /\ rg_arcs s' = rg_arcs s /\ rg_rings s' = rg_rings s /\ rg_socket_reqs s' = rg_socket_reqs s /\ hcount id (rg_handles s' !! pid) <> 0%nat /\
        0 <= fd /\ exists ph, rg_handles s' !! pid = Some ph /\ ph_get fd ph = Some h
    | None => regions_ok rt pid [] s'
    end.
Proof.
  intros Hr Ha Hroom. unfold install_handle. pose proof (table_ok _ _ _ (ro_counts _ _ _ _ Hr)) as Hph. destruct (insert_with_flags h c b (default ProcessHandles_new (rg_handles s !! pid))) as [fd ph] eqn:E.
  destruct (insert_flags_ok _ _ _ _ _ _ Hph E) as [Hph' Hfd]. pose proof (fun j => hcount_new j (rg_handles s !! pid)) as Hnew. destruct fd as [fd |].
  - destruct Hfd as ([Hfd _] & Hget & Hcnt). do 2 eexists. split; [done |]. split_and!; try done.
    + apply (handles_moved rt pid [id; id]); try done.
      * intros j. rewrite Hcnt, Hnew, Ha, !lcount_cons. destruct (decide (id = j)) as [-> |]; [rewrite decide_True by done; lia | rewrite decide_False by congruence; lia].
      * intros j si n Hj Hrv. rewrite Hcnt, Hnew. destruct (co_owned _ _ _ (ro_counts _ _ _ _ Hr) j si n Hj Hrv) as [Ho | Hin]; [left; lia | right; set_solver].
    + cbn [set_rg_handles rg_handles]. rewrite lookup_insert_eq, Hcnt, Ha, decide_True by done. lia.
    + exists ph. split; [| done]. cbn. by rewrite lookup_insert_eq.
  - subst ph. set (s1 := set_rg_handles _ s). assert (regions_ok rt pid [id; id] s1) as Hr1.
    { apply (handles_moved rt pid [id; id]); try done; [intros j; by rewrite Hnew |]. intros j si n Hj Hrv. rewrite Hnew. by apply (co_owned _ _ _ (ro_counts _ _ _ _ Hr) j si n). }
    destruct (drop_ok rt pid [id] s1 id hart Hr1) as (s2 & E2 & Hr2 & _ & Hsame & _); [right; right; by left | right; right; by left |]. rewrite E2. cbn [pbind].
    assert (room 1 hart s2) as Hroom2.
    { eapply room_same; [apply Hsame | exact Hroom]. destruct (local_present _ _ _ id (ro_counts _ _ _ _ Hr2) ltac:(by left)) as (si & n & -> & _). done. }
    destruct (release_ok rt pid [] s2 id hart Hr2 Hroom2) as (si & n & s3 & _ & E3 & Hr3 & _). unfold release_region in E3.
    destruct (revoke rt id s2) as [[r s2'] |]; [| done]. cbn [pbind fst snd] in *. destruct (arc_drop hart id s2') as [s3' |]; [| done]. cbn [pbind] in *. injection E3 as _ ->. do 2 eexists. split; [done | exact Hr3].
Qed.

Lemma queued_insert s hart q req : rg_socket_reqs s !! hart = Some q -> queued (set_rg_socket_reqs (<[hart := q ++ [req]]> (rg_socket_reqs s)) s) ≡ₚ sr_netchan req :: queued s.
Proof. intros Hq. unfold queued. cbn [set_rg_socket_reqs rg_socket_reqs]. by rewrite (concat_insert _ _ _ _ Hq). Qed.

Lemma queue_socket_ok rt pid s req hart : regions_ok rt pid [sr_netchan req] s -> hcount (sr_netchan req) (rg_handles s !! pid) <> 0%nat ->
  exists ok s', queue_socket hart req s = Done (ok, s') /\ regions_ok rt pid [] s' /\ rg_vm s' = rg_vm s /\ rg_handles s' = rg_handles s /\ (forall j si n, rg_arcs s' !! j = Some (si, n) -> exists n', rg_arcs s !! j = Some (si, n')).
Proof.
  intros Hr Hh. destruct (drop_ok rt pid [] s (sr_netchan req) hart Hr) as (s' & E & Hr' & (Ev & Eh & _) & _ & Hoth & _); [right; by left | right; by left |]. unfold queue_socket.
  destruct (rg_socket_reqs s !! hart) as [q |] eqn:Eq; [| rewrite E; by do 2 eexists]. destruct (Z.of_nat (length q) <? SOCKET_REQS_CAP - 1); [| rewrite E; by do 2 eexists].
  do 2 eexists. split; [done |]. split_and!; try done; [| cbn; eauto]. destruct Hr as [Hf [C1 C2 C3 C4 C5]]. split; [done |]. split; cbn [set_rg_socket_reqs rg_arcs rg_next_arc rg_handles]; try done.
  - intros j. rewrite <- C2. unfold holders. rewrite (lcount_perm j _ _ (queued_insert s hart q req Eq)). cbn [set_rg_socket_reqs rg_handles rg_net]. rewrite !lcount_cons. cbn. lia.
  - intros j si n Hj Hrv. destruct (C4 j si n Hj Hrv) as [| Hin%list_elem_of_singleton]; [by left | subst; by left].
Qed.

(** *** Requests as the system calls leave them *)

Definition nc_req_ok (req : NetChannelCreationReq) : Prop := user_shared_range_ok (nr_vaddr req) (nr_region_size req) = true /\ 0 <= nr_region_size req.
Definition efd_req_ok (req : EventFdCreateReq) : Prop := user_shared_range_ok (ef_vaddr_hint req) EVENTFD_REGION_SIZE = true /\ (PAGE_SIZE | ef_vaddr_hint req).

Lemma shared_range va size : user_shared_range_ok va size = true -> 0 <= size -> 0 <= va /\ va + size <= UPROC_SHARED_END.
Proof.
  unfold user_shared_range_ok, checked_add. destruct (Z.ltb_spec va UPROC_SHARED_BASE); [done |]. destruct (Z.ltb_spec (va + size) W64); [| done]. intros ?%Z.leb_le ?.
  assert (0 <= UPROC_SHARED_BASE) by done. lia.
Qed.

Lemma normalize_bound r size : 0 <= r -> normalize_region_size r = Some size -> (PAGE_SIZE | size) /\ PAGE_SIZE <= size <= 2 ^ 23 /\ size < r + PAGE_SIZE.
Proof.
  intros Hr. unfold normalize_region_size. destruct (Z.eqb_spec r 0); [done |]. set (cl := Z.min (Z.max r NC_MIN_REGION_SIZE) NC_MAX_REGION_SIZE).
  assert (4096 <= cl <= 8388608 /\ (cl = 4096 \/ cl <= r)) as [Hcl Hcr] by (unfold cl, NC_MIN_REGION_SIZE, NC_MAX_REGION_SIZE; lia). clearbody cl. unfold round_usize_up.
  rewrite wadd_small, (wsub_small (cl + 4096)), (wsub_small 4096) by (unfold W64; lia). change (4096 - 1) with (2 ^ 12 - 1). rewrite land_round_down by (unfold is_u64, W64; lia).
  pose proof (Z.div_mod (cl + 4096 - 1) (2 ^ 12) ltac:(lia)). pose proof (Z.mod_pos_bound (cl + 4096 - 1) (2 ^ 12) ltac:(lia)). unfold NC_MIN_REGION_SIZE, NC_MAX_REGION_SIZE.
  cases_b; to_prop; try done. intros [= <-].
  unfold PAGE_SIZE. split; [exists ((cl + 4096 - 1) / 2 ^ 12); lia |]. split; [lia |]. destruct Hcr as [-> |]; [| lia]. change ((4096 + 4096 - 1) mod 2 ^ 12) with 4095. lia.
Qed.

(** The region of a request lies in the user half. *)
Lemma nc_range req size : nc_req_ok req -> normalize_region_size (nr_region_size req) = Some size -> nr_vaddr req mod PAGE_SIZE = 0 ->
  (PAGE_SIZE | nr_vaddr req) /\ 0 <= nr_vaddr req /\ 0 < size /\ (PAGE_SIZE | size) /\ nr_vaddr req + size <= 2 ^ 47.
Proof.
  intros [Hr H0] Hn Hm. destruct (shared_range _ _ Hr H0) as [Hv He]. destruct (normalize_bound _ _ H0 Hn) as (Hd & Hs & Hlt). apply Z.mod_divide in Hm as [a Ha]; [| done].
  split_and!; [by exists a | done | unfold PAGE_SIZE in *; lia | done |]. destruct Hd as [c ->]. unfold UPROC_SHARED_END, PAGE_SIZE in *. lia.
Qed.

(** A handle that was given out: where its region is. *)
Definition opened_region (pid va size fd : Z) (s : Regions) : Prop :=
  exists ph h id si n, rg_handles s !! pid = Some ph /\ ph_get fd ph = Some h /\ handle_arc h = Some id /\ rg_arcs s !! id = Some (si, n) /\ si_user_va si = va /\ si_len si = size /\ si_revoked si = false.

Lemma counts_vm pid loc s v : counts_ok pid loc s -> counts_ok pid loc (set_rg_vm v s).
Proof. by intros [? ? ? ? ?]. Qed.

Lemma nc_create_ok rt pid s req hart : regions_ok rt pid [] s -> nc_req_ok req -> room 1 hart s ->
  exists ret fd s', run_nc_create_req hart rt req pid s = Done ((ret, fd), s') /\
    ((ret = to_ret errno.ENOMEM -> normalize_region_size (nr_region_size req) = Some PAGE_SIZE) -> regions_ok rt pid [] s') /\
    (0 <= ret -> ret = nr_vaddr req /\ exists size, normalize_region_size (nr_region_size req) = Some size /\ opened_region pid (nr_vaddr req) size fd s').
Proof.
  intros Hr Hq Hroom. unfold run_nc_create_req. destruct (normalize_region_size (nr_region_size req)) as [size |] eqn:En; [| by do 3 eexists].
  destruct (Z.eqb_spec (nr_vaddr req mod PAGE_SIZE) 0) as [Hm |]; [| by do 3 eexists]. cbn [negb]. destruct (nc_range req size Hq En Hm) as (Hva & H0 & Hsz & Hdv & Hend). rewrite layout_page by lia.
  destruct (map_region_spec rt pid (nr_vaddr req) size (fun pa => nc_init pa size) (rg_vm s)) as (r & v' & -> & Hvm & _ & Hres); try done; [apply Hr |]. cbn [pbind]. destruct r as [pa | e].
  2: { do 3 eexists. split; [done |]. destruct Hres as [Hrf He]. split; [| destruct He as [-> | [-> _]]; done]. intros Hone. split; [| apply counts_vm, Hr]. eapply frames_refused; [apply Hr | done | exact Hrf |].
       destruct He as [-> | [_ ?]]; [left; specialize (Hone eq_refl); congruence | by right]. }
  destruct (shared_new_ok rt pid s v' pa (nr_vaddr req) size _ Hr Hvm Hva H0 Hsz Hdv Hend Hres) as (s1 & -> & Hr1 & Ev & Eh & Erg & Esk & Ear). cbn [pbind]. set (id := rg_next_arc s) in *.
  pose proof (clone_ok rt pid [id] s1 id Hr1 ltac:(by rewrite Ear)) as Hr2. assert (room 1 hart (arc_clone id s1)) as Hroom2 by (eapply room_same; [| exact Hroom]; unfold arc_clone; rewrite Ear; done).
  destruct (install_ok rt pid _ id (HNetChannel id) false false hart Hr2 eq_refl Hroom2) as (fd & s3 & -> & Hfd). cbn [pbind]. destruct fd as [fd |]; [| do 3 eexists; split; [done |]; split; [done |]; done].
  destruct Hfd as (Hr3 & _ & Ear3 & _ & _ & Hh & Hfd0 & ph & Eph & Eget).
  destruct (queue_socket_ok rt pid s3 (mkSocketReq id (nr_type req) pid (ChannelCtx_new (nr_bind req) size)) hart Hr3 Hh) as (ok & s4 & -> & Hr4 & _ & Eh4 & Hoth). cbn [pbind].
  destruct ok; cbn [negb]; [| do 3 eexists; split; [done |]; split; [done |]; done]. do 3 eexists. split; [done |]. split; [done |]. intros _. split; [done |]. exists size. split; [done |].
  rewrite <- Eh4 in Hh. destruct (arc_present pid [] s4 id (ro_counts _ _ _ _ Hr4)) as (si & n & Hs & _); [unfold holders; lia |].
  destruct (Hoth _ _ _ Hs) as [n' Hs']. rewrite Ear3 in Hs'. unfold arc_clone in Hs'. rewrite Ear in Hs'. cbn in Hs'. rewrite lookup_insert_eq in Hs'. injection Hs' as <- _.
  exists ph, (HNetChannel id), id, (new_region pa (nr_vaddr req) size pid), n. rewrite Eh4. done.
Qed.

Lemma efd_create_ok rt pid s req hart : regions_ok rt pid [] s -> efd_req_ok req -> room 1 hart s ->
  exists ret fd s', run_eventfd_create_req hart rt req pid s = Done ((ret, fd), s') /\ regions_ok rt pid [] s' /\
    (0 <= ret -> ret = ef_vaddr_hint req /\ opened_region pid (ef_vaddr_hint req) PAGE_SIZE fd s').
Proof.
  intros Hr [Hq Hal] Hroom. unfold run_eventfd_create_req. destruct (shared_range _ _ Hq ltac:(done)) as [H0 He]. assert (ef_vaddr_hint req + PAGE_SIZE <= 2 ^ 47) as Hend by (unfold EVENTFD_REGION_SIZE, UPROC_SHARED_END, PAGE_SIZE in *; lia).
  change EVENTFD_REGION_SIZE with PAGE_SIZE. rewrite layout_page by done. assert ((PAGE_SIZE | PAGE_SIZE)) as Hdv by reflexivity.
  destruct (map_region_spec rt pid (ef_vaddr_hint req) PAGE_SIZE (fun pa => efd_init pa (ef_initval req) (ef_flags req)) (rg_vm s)) as (r & v' & -> & Hvm & _ & Hres); try done; [apply Hr |]. cbn [pbind]. destruct r as [pa | e].
  2: { do 3 eexists. split; [done |]. destruct Hres as [Hrf He']. split; [split; [| apply counts_vm, Hr]; by eapply frames_refused; [apply Hr | done | exact Hrf | left] | destruct He' as [-> | [-> _]]; done]. }
  destruct (shared_new_ok rt pid s v' pa (ef_vaddr_hint req) PAGE_SIZE _ Hr Hvm Hal H0 ltac:(done) Hdv Hend Hres) as (s1 & -> & Hr1 & Ev & Eh & Erg & Esk & Ear). cbn [pbind]. set (id := rg_next_arc s) in *.
  pose proof (clone_ok rt pid [id] s1 id Hr1 ltac:(by rewrite Ear)) as Hr2. assert (room 1 hart (arc_clone id s1)) as Hroom2 by (eapply room_same; [| exact Hroom]; unfold arc_clone; rewrite Ear; done).
  destruct (install_ok rt pid _ id (HEventFd id 0) (negb (Z.land (ef_flags req) EFD_CLOEXEC =? 0)) (negb (Z.land (ef_flags req) EFD_NONBLOCK =? 0)) hart Hr2 eq_refl Hroom2) as (fd & s3 & -> & Hfd). cbn [pbind].
  destruct fd as [fd |]; [| do 3 eexists; split; [done |]; split; [done |]; done]. destruct Hfd as (Hr3 & _ & Ear3 & _ & _ & Hh & Hfd0 & ph & Eph & Eget).
  destruct (drop_ok rt pid [] s3 id hart Hr3) as (s4 & -> & Hr4 & (_ & Eh4 & _) & _ & Hoth & _); [right; by left | right; by left |]. cbn [pbind]. do 3 eexists. split; [done |]. split; [done |]. intros _. split; [done |].
  rewrite <- Eh4 in Hh. destruct (arc_present pid [] s4 id (ro_counts _ _ _ _ Hr4)) as (si & n & Hs & _); [unfold holders; lia |].
  destruct (Hoth _ _ _ Hs) as [n' Hs']. rewrite Ear3 in Hs'. unfold arc_clone in Hs'. rewrite Ear in Hs'. cbn in Hs'. rewrite lookup_insert_eq in Hs'. injection Hs' as <- _.
  exists ph, (HEventFd id 0), id, (new_region pa (ef_vaddr_hint req) PAGE_SIZE pid), n. rewrite Eh4. done.
Qed.

Lemma close_ok rt pid s req hart : regions_ok rt pid [] s -> room 1 hart s ->
  exists ret s', run_close_req hart rt req pid s = Done (ret, s') /\ regions_ok rt pid [] s' /\
    match rg_handles s !! pid ≫= ph_get (ch_fd req) with
    | None => ret = to_ret errno.EBADF /\ rg_vm s' = rg_vm s
    | Some h => ret = 0 /\ rg_handles s' !! pid ≫= ph_get (ch_fd req) = None /\
        match handle_arc h with
        | None => rg_vm s' = rg_vm s
        | Some id => exists si n, rg_arcs s !! id = Some (si, n) /\ (if si_revoked si then rg_vm s' = rg_vm s else unshown rt si (rg_vm s) (rg_vm s')) /\
            (is_Some (rg_arcs s' !! id) -> is_revoked id s')
        end
    end.
Proof.
  intros Hr Hroom. unfold run_close_req. destruct (rg_handles s !! pid) as [ph |] eqn:Eph; cbn [mbind option_bind]; [| by do 2 eexists].
  pose proof (co_table _ _ _ (ro_counts _ _ _ _ Hr) ph Eph) as Hph. pose proof (ph_remove_ok (ch_fd req) ph Hph) as Hph'. pose proof (fun j => hcount_remove j (ch_fd req) ph) as Hcnt.
  unfold ph_remove in *. cbn [fst snd] in *. set (ph' := mkHandles _ _) in *. set (s1 := set_rg_handles _ s). assert (rg_handles s1 !! pid ≫= ph_get (ch_fd req) = None) as Hgone.
  { unfold s1. cbn [set_rg_handles rg_handles]. rewrite lookup_insert_eq. cbn. unfold ph_get, ph'. cbn [ph_table]. by rewrite lookup_delete_eq. }
  assert (forall o, ph_get (ch_fd req) ph ≫= handle_arc = o -> regions_ok rt pid (option_list o) s1) as Hr1.
  { intros o Ho. apply (handles_moved rt pid []); try done.
    - intros j. rewrite Eph, (Hcnt j), Ho. destruct o as [id |]; [| rewrite decide_False by done; cbn; lia]. change (option_list (Some id)) with [id]. rewrite lcount_cons.
      destruct (decide (id = j)) as [-> |]; [rewrite decide_True by done; cbn; lia | rewrite decide_False by congruence; cbn; lia].
    - intros j si n Hj Hrv. destruct (co_owned _ _ _ (ro_counts _ _ _ _ Hr) j si n Hj Hrv) as [Hh | Hin]; [| set_solver]. rewrite Eph, (Hcnt j), Ho in Hh.
      destruct (decide (o = Some j)) as [-> | _]; [right; apply list_elem_of_singleton; done | left; lia]. }
  assert (forall id s2, regions_ok rt pid [id] s2 -> rg_rings s2 = rg_rings s -> rg_vm s2 = rg_vm s -> rg_arcs s2 = rg_arcs s -> rg_handles s2 = rg_handles s1 -> exists ret s',
    (r <-! release_region hart rt id s2 ;; Done (match fst r with Ok _ => 0 | Err _ => to_ret errno.EIO end, snd r)) = Done (ret, s') /\ regions_ok rt pid [] s' /\ ret = 0 /\ rg_handles s' !! pid ≫= ph_get (ch_fd req) = None /\
    exists si n, rg_arcs s !! id = Some (si, n) /\ (if si_revoked si then rg_vm s' = rg_vm s else unshown rt si (rg_vm s) (rg_vm s')) /\ (is_Some (rg_arcs s' !! id) -> is_revoked id s')) as Hrel.
  { intros id s2 Hr2 Erg Ev Ea Eh. destruct (release_ok rt pid [] s2 id hart Hr2) as (si & n & s' & Hs & -> & Hr' & Eh' & _ & Hv & Hrv & _); [by eapply room_same |]. cbn [pbind fst snd].
    exists 0, s'. split_and!; try done; [by rewrite Eh', Eh |]. exists si, n. by rewrite <- Ea, <- Ev. }
  destruct (ph_get (ch_fd req) ph) as [[id | f | | | | id parked] |] eqn:Eg; cbn [handle_arc]; try (do 2 eexists; split; [done |]; split; [exact (Hr1 None eq_refl) | done]).
  - destruct (Hrel id s1 (Hr1 (Some id) eq_refl) eq_refl eq_refl eq_refl eq_refl) as (ret & s' & E & Hr' & Hret & Hg & Hx). by exists ret, s'.
  - assert (regions_ok rt pid [id] (if parked =? 0 then s1 else set_rg_wakes (rg_wakes s1 ++ [parked]) s1)) as Hr2 by (destruct (parked =? 0); [exact (Hr1 (Some id) eq_refl) | destruct (Hr1 (Some id) eq_refl) as [? [? ? ? ? ?]]; by split]).
    destruct (Hrel id _ Hr2) as (ret & s' & E & Hr' & Hret & Hg & Hx); [by destruct (parked =? 0) .. |]. by exists ret, s'.
Qed.

Lemma net_take_ok rt pid s hart : regions_ok rt pid [] s -> regions_ok rt pid [] (net_take hart s).
Proof.
  intros [Hf [C1 C2 C3 C4 C5]]. unfold net_take. destruct (rg_socket_reqs s !! hart) as [[| r q] |] eqn:E; [by split | | by split]. split; [done |].
  split; cbn [set_rg_net set_rg_socket_reqs rg_arcs rg_next_arc rg_handles]; try done. intros j. rewrite <- C2. unfold holders, queued. cbn [set_rg_net set_rg_socket_reqs rg_handles rg_socket_reqs rg_net].
  rewrite lcount_app. assert (concat (rg_socket_reqs s) ≡ₚ r :: concat (<[hart := q]> (rg_socket_reqs s))) as ->.
  { clear -E. revert hart E. induction (rg_socket_reqs s) as [| x l IH]; intros [| h] E; cbn in *; try done; [by injection E as -> |]. rewrite (IH h E). symmetry. apply Permutation_middle. }
  cbn [fmap list_fmap]. rewrite !lcount_cons. cbn. lia.
Qed.

Lemma net_drop_ok rt pid s hart i : regions_ok rt pid [] s -> room 1 hart s -> exists s', net_drop hart i s = Done s' /\ regions_ok rt pid [] s' /\ rg_vm s' = rg_vm s /\ rg_handles s' = rg_handles s.
Proof.
  intros Hr Hroom. unfold net_drop. destruct (rg_net s !! i) as [id |] eqn:E; [| by exists s]. set (s1 := set_rg_net _ s). assert (regions_ok rt pid [id] s1) as Hr1.
  { destruct Hr as [Hf [C1 C2 C3 C4 C5]]. split; [done |]. split; cbn [s1 set_rg_net rg_arcs rg_next_arc rg_handles]; try done.
    - intros j. rewrite <- C2. unfold holders, queued. cbn [s1 set_rg_net rg_handles rg_socket_reqs rg_net]. rewrite (lcount_perm j (rg_net s) (id :: delete i (rg_net s))) by (by apply delete_Permutation). rewrite !lcount_cons. cbn. lia.
    - intros j si n Hj Hrv. destruct (C4 j si n Hj Hrv); [by left | set_solver]. }
  destruct (local_present _ _ _ id (ro_counts _ _ _ _ Hr1) ltac:(by left)) as (si & n & Hs & _).
  destruct (drop_ok rt pid [] s1 id hart Hr1) as (s' & -> & Hr' & (Ev & Eh & _) & _); [| by left | by exists s'].
  destruct (si_revoked si) eqn:Erv; [left; by exists si, n |]. right. destruct (co_owned _ _ _ (ro_counts _ _ _ _ Hr) id si n Hs Erv); [by left | set_solver].
Qed.

Lemma rings_drain_ok rt pid s : regions_ok rt pid [] s -> regions_ok rt pid [] (drain s) /\
  (forall x, is_free (kernel_pages (rg_vm (drain s))) x <-> is_free (kernel_pages (rg_vm s)) x \/ in_blocks (ring_block <$> concat (rg_rings s)) x) /\ pte_mem (rg_vm (drain s)) = pte_mem (rg_vm s).
Proof.
  intros [Hf [C1 C2 C3 C4 C5]]. destruct (frames_drain _ _ _ _ Hf) as [Hf' Hfr]. split_and!; [| done | done]. split; cbn [drain set_rg_rings set_rg_vm rg_vm rg_arcs rg_rings]; [| by split].
  assert (concat (replicate (length (rg_rings s)) []) = ([] : list (Z * Layout))) as ->; [| done]. clear. by induction (length (rg_rings s)).
Qed.

(** *** The end of a process *)

Section tables.
Context {A : Type} (f : Z -> option A).

Lemma pairs_nodup (l : list Z) : NoDup l -> NoDup (omap (fun x => (fun y => (x, y)) <$> f x) l).
Proof.
  induction 1 as [| x l Hx _ IH]; [constructor |]. cbn. destruct (f x) as [y |] eqn:E; cbn; [| done]. constructor; [| done].
  intros (x' & Hin & Hf)%list_elem_of_omap. destruct (f x') as [y' |]; [| done]. cbn in Hf. injection Hf as -> ->. done.
Qed.

Lemma omap_pairs {B} (g : A -> B) (l : list Z) : omap (fun x => g <$> f x) l = (fun p => g p.2) <$> omap (fun x => (fun y => (x, y)) <$> f x) l.
Proof. induction l as [| x l IH]; [done |]. cbn. destruct (f x); cbn; by rewrite IH. Qed.
End tables.

Lemma table_perm ph : ph_ok ph -> omap (fun fd => (fun sl => (fd, sl)) <$> ph_table ph !! fd) (seqZ 0 (ph_next_id ph)) ≡ₚ map_to_list (ph_table ph).
Proof.
  intros [Hn Ht]. apply NoDup_Permutation; [apply pairs_nodup, NoDup_seqZ | apply NoDup_map_to_list |]. intros [fd sl]. rewrite list_elem_of_omap, elem_of_map_to_list. split.
  - intros (fd' & _ & E). destruct (ph_table ph !! fd') as [sl' |] eqn:El; [| done]. cbn in E. by injection E as -> ->.
  - intros E. exists fd. rewrite E. split; [| done]. apply elem_of_seqZ. pose proof (Ht fd ltac:(by rewrite E)). lia.
Qed.

Lemma lcount_arcs id (l : list (Z * Slot)) : lcount id (omap handle_arc ((fun p => sl_handle p.2) <$> l)) = length (filter (fun p => handle_arc (sl_handle p.2) = Some id) l).
Proof.
  induction l as [| p l IH]; [done |]. cbn [fmap list_fmap omap list_omap]. rewrite filter_cons. destruct (handle_arc (sl_handle p.2)) as [i |].
  - rewrite lcount_cons. destruct (decide (i = id)) as [-> |]; [rewrite decide_True by done; cbn [length]; by rewrite <- IH | rewrite decide_False by congruence; by rewrite <- IH].
  - by rewrite decide_False.
Qed.

Lemma handles_count id ph : ph_ok ph -> lcount id (omap handle_arc (handles_of ph)) = hcount id (Some ph).
Proof.
  intros Hph. unfold handles_of, ph_get. rewrite (omap_pairs (fun fd => ph_table ph !! fd) sl_handle), (table_perm ph Hph), lcount_arcs. unfold hcount. rewrite map_filter_alt, map_size_list_to_map; [done |].
  apply (sublist_NoDup _ (map_to_list (ph_table ph)).*1); [apply NoDup_fst_map_to_list | apply fmap_sublist, sublist_filter].
Qed.

Lemma release_handles_ok rt pid hart l : forall s, regions_ok rt pid (omap handle_arc l) s -> rg_handles s !! pid = None -> room (length (omap handle_arc l)) hart s ->
  exists s', release_handles hart rt l s = Done s' /\ regions_ok rt pid [] s' /\ rg_handles s' = rg_handles s.
Proof.
  induction l as [| h l IH]; intros s Hr Hn Hroom; [by exists s |].
  assert (forall id, handle_arc h = Some id -> exists s', (r <-! release_region hart rt id s ;; release_handles hart rt l (snd r)) = Done s' /\ regions_ok rt pid [] s' /\ rg_handles s' = rg_handles s) as Hrel.
  { intros id Hid. cbn [omap list_omap] in Hr, Hroom. rewrite Hid in Hr, Hroom. destruct (release_ok rt pid _ s id hart Hr) as (si & n & s1 & _ & -> & Hr1 & Eh & _ & _ & _ & Hk).
    { destruct Hroom as (ring & Er & Hl). exists ring. split; [done |]. cbn [length] in Hl. lia. }
    cbn [pbind snd]. destruct (IH s1 Hr1) as (s' & E & Hr' & Eh'); [by rewrite Eh | by apply Hk |]. exists s'. by rewrite Eh', Eh. }
  destruct h; cbn [release_handles handle_arc omap list_omap] in *; by eauto.
Qed.

(** A process's handles go when it ends: if the ring of the hart has room for its
    regions, none of its addresses shows a region any more. *)
Lemma end_handles_ok rt pid s hart : regions_ok rt pid [] s -> room (length (omap handle_arc (default [] (handles_of <$> rg_handles s !! pid)))) hart s ->
  exists s', end_handles hart rt pid s = Done s' /\ regions_ok rt pid [] s' /\ rg_handles s' !! pid = None /\
    (forall va pa, user_half va -> virt_to_phys (pte_mem (rg_vm s')) rt va = Done (Some pa) -> ~ in_blocks (blocks (fst <$> rg_arcs s') (concat (rg_rings s'))) pa).
Proof.
  intros Hr Hroom. unfold end_handles.
  assert (forall s', regions_ok rt pid [] s' -> rg_handles s' !! pid = None -> forall va pa, user_half va -> virt_to_phys (pte_mem (rg_vm s')) rt va = Done (Some pa) -> ~ in_blocks (blocks (fst <$> rg_arcs s') (concat (rg_rings s'))) pa) as Hend.
  { intros s' [Hf Hc] Hn va pa Hva E Hb. destruct (fk_private _ _ _ _ Hf va pa Hva E Hb) as (id & si & Hs & Hrv & _). rewrite lookup_fmap in Hs. destruct (rg_arcs s' !! id) as [[si' n] |] eqn:Ea; [| done]. cbn in Hs. injection Hs as ->.
    destruct (co_owned _ _ _ Hc id si n Ea Hrv) as [Hh | Hin]; [by rewrite Hn in Hh | set_solver]. }
  destruct (rg_handles s !! pid) as [ph |] eqn:Eph; [| exists s; split_and!; try done; by apply Hend]. cbn [fmap option_fmap option_map default] in Hroom.
  pose proof (co_table _ _ _ (ro_counts _ _ _ _ Hr) ph Eph) as Hph. set (s1 := set_rg_handles _ s).
  assert (rg_handles s1 !! pid = None) as Hn by apply lookup_delete_eq. assert (regions_ok rt pid (omap handle_arc (handles_of ph)) s1) as Hr1.
  { destruct Hr as [Hf [C1 C2 C3 C4 C5]]. split; [done |]. split; cbn [s1 set_rg_handles rg_arcs rg_next_arc]; try done.
    - intros j. rewrite <- C2. unfold holders. change (queued s1) with (queued s). change (rg_net s1) with (rg_net s). rewrite Hn, Eph, handles_count by done. change (hcount j None) with 0%nat. change (lcount j []) with 0%nat. lia.
    - intros j si n Hj Hrv. right. destruct (C4 j si n Hj Hrv) as [Hh | Hin]; [| set_solver]. rewrite Eph, <- handles_count in Hh by done.
      destruct (decide (j ∈ omap handle_arc (handles_of ph))) as [| Hno]; [done |]. destruct Hh. by apply lcount_none.
    - intros ph' Hx. by rewrite Hn in Hx. }
  destruct (release_handles_ok rt pid hart _ s1 Hr1 Hn) as (s' & -> & Hr' & Eh); [by eapply room_same |]. exists s'. split_and!; try done; [by rewrite Eh |]. apply Hend; [done | by rewrite Eh].
Qed.

(** ** Runs *)

(** The operations on regions, in any order and on any hart, as long as the ring of the
    hart has room for the frames the operation can give up; a creation that runs out of
    memory is of one page. *)
Inductive region_step (rt : RootTable) (pid : Z) : Regions -> Regions -> Prop :=
  | RNcCreate hart req ret fd s s' : nc_req_ok req -> room 1 hart s -> run_nc_create_req hart rt req pid s = Done ((ret, fd), s') ->
      (ret = to_ret errno.ENOMEM -> normalize_region_size (nr_region_size req) = Some PAGE_SIZE) -> region_step rt pid s s'
  | REventFdCreate hart req r s s' : efd_req_ok req -> room 1 hart s -> run_eventfd_create_req hart rt req pid s = Done (r, s') -> region_step rt pid s s'
  | RClose hart req ret s s' : room 1 hart s -> run_close_req hart rt req pid s = Done (ret, s') -> region_step rt pid s s'
  | RNetTake hart s : region_step rt pid s (net_take hart s)
  | RNetDrop hart i s s' : room 1 hart s -> net_drop hart i s = Done s' -> region_step rt pid s s'
  | RDrain s : region_step rt pid s (drain s)
  | REnd hart s s' : room (length (omap handle_arc (default [] (handles_of <$> rg_handles s !! pid)))) hart s -> end_handles hart rt pid s = Done s' -> region_step rt pid s s'.

Lemma region_step_ok rt pid s s' : region_step rt pid s s' -> regions_ok rt pid [] s -> regions_ok rt pid [] s'.
Proof.
  intros [hart req ret fd x y Hq Hroom E Hone | hart req r x y Hq Hroom E | hart req ret x y Hroom E | hart x | hart i x y Hroom E | x | hart x y Hroom E] Hr.
  - destruct (nc_create_ok rt pid x req hart Hr Hq Hroom) as (ret' & fd' & s2 & E' & Hok & _). rewrite E in E'. injection E' as <- <- <-. by apply Hok.
  - destruct (efd_create_ok rt pid x req hart Hr Hq Hroom) as (ret' & fd' & s2 & E' & Hok & _). rewrite E in E'. by injection E' as -> <-.
  - destruct (close_ok rt pid x req hart Hr Hroom) as (ret' & s2 & E' & Hok & _). rewrite E in E'. by injection E' as <- <-.
  - by apply net_take_ok.
  - destruct (net_drop_ok rt pid x hart i Hr Hroom) as (s2 & E' & Hok & _). rewrite E in E'. by injection E' as <-.
  - by apply rings_drain_ok.
  - destruct (end_handles_ok rt pid x hart Hr Hroom) as (s2 & E' & Hok & _). rewrite E in E'. by injection E' as <-.
Qed.

Lemma regions_invariant rt pid s s' : regions_ok rt pid [] s -> rtc (region_step rt pid) s s' -> regions_ok rt pid [] s'.
Proof. intros Hr Hst. revert Hr. induction Hst as [| x y z Hxy _ IH]; [done |]. intros Hr. by eapply IH, region_step_ok. Qed.

(** A frame that is queued belongs to no region. *)
Lemma queued_frame_hidden rt pid loc s va pa : regions_ok rt pid loc s -> user_half va -> virt_to_phys (pte_mem (rg_vm s)) rt va = Done (Some pa) -> ~ in_blocks (ring_block <$> concat (rg_rings s)) pa.
Proof.
  intros [Hf _] Hva E Hq. destruct (fk_private _ _ _ _ Hf va pa Hva E) as (id & si & Hs & Hrv & Hin); [unfold blocks; rewrite in_blocks_app; by right |].
  destruct (region_pa _ _ _ _ _ _ _ Hf Hs Hrv Hin) as [E' Hb]. rewrite E in E'. injection E' as ->. pose proof (fk_holds _ _ _ _ Hf) as Hh. rewrite (blocks_delete _ id si) in Hh by done.
  apply (holds_apart _ _ _ _ Hh Hb). unfold blocks. rewrite in_blocks_app. by right.
Qed.



(** A process that ends while the ring of the hart has room for its regions: the
    teardown returns, no address of the process shows a region any more, and after the
    drain every frame that the network thread does not hold is in the kernel's pool. *)
Theorem exit_returns_regions rt pid s hart :
  regions_ok rt pid [] s -> room (length (omap handle_arc (default [] (handles_of <$> rg_handles s !! pid)))) hart s ->
  exists s1, end_handles hart rt pid s = Done s1 /\ rg_handles s1 !! pid = None /\
    (forall va pa, user_half va -> virt_to_phys (pte_mem (rg_vm s1)) rt va = Done (Some pa) -> ~ in_blocks (blocks (fst <$> rg_arcs s1) (concat (rg_rings s1))) pa) /\
    (forall x, in_blocks (ring_block <$> concat (rg_rings s1)) x -> is_free (kernel_pages (rg_vm (drain s1))) x) /\
    (forall id, is_Some (rg_arcs s1 !! id) -> id ∈ queued s1 ++ rg_net s1).
Proof.
  intros Hr Hroom. destruct (end_handles_ok rt pid s hart Hr Hroom) as (s1 & E & Hr1 & Hn & Hhid). exists s1. split_and!; try done.
  - intros x Hx. apply (rings_drain_ok rt pid s1 Hr1). by right.
  - intros id [[si n] Hs]. destruct (decide (id ∈ queued s1 ++ rg_net s1)) as [| Hno]; [done |]. exfalso. pose proof (co_count _ _ _ (ro_counts _ _ _ _ Hr1) id) as Hc. rewrite Hs in Hc.
    rewrite not_elem_of_app in Hno. destruct Hno as [H1 H2]. unfold holders in Hc. rewrite Hn, (lcount_none id (queued s1)), (lcount_none id (rg_net s1)) in Hc by done. cbn in Hc. subst n. by apply (co_pos _ _ _ (ro_counts _ _ _ _ Hr1) id si).
Qed.

(** ** Concrete runs *)

Definition rg0 : Regions := mkRegions vm0 ∅ 0 ∅ [[]] [[]] [] [].

Lemma rg0_ok : regions_ok ex_rt 7 [] rg0.
Proof.
  split.
  - split; cbn [rg0 rg_vm rg_arcs rg_rings concat app]; try (intros ? ? [=] || intros ? ? ? [=]).
    + exact vm0_ok.
    + constructor.
    + apply holds_none, vm0_ok.
    + intros x (k & p & Hin & _). by apply not_elem_of_nil in Hin.
  - split; try done. by intros id [? ?].
Qed.

Definition efd_req (i : Z) : EventFdCreateReq := mkEventFdCreateReq (UPROC_SHARED_BASE + i * PAGE_SIZE) 0 0.
Definition nc_req (i pages : Z) : NetChannelCreationReq := mkNetChannelCreationReq (UPROC_SHARED_BASE + i * PAGE_SIZE) (pages * PAGE_SIZE) 0 (ServerRetain 80).

(** [n] event descriptors, all created. *)
Fixpoint many_eventfds (n : nat) (s : Regions) : panics Regions :=
  match n with
  | O => Done s
  | S n =>
      s <-! many_eventfds n s ;;
      r <-! run_eventfd_create_req 0 ex_rt (efd_req (Z.of_nat n)) 7 s ;;
      if fst (fst r) =? ef_vaddr_hint (efd_req (Z.of_nat n)) then Done (snd r) else Panic
  end.

(** A process that ends with sixty-four event descriptors stops the kernel: the ring
    of the hart is full before the teardown is through, and it is drained only after. *)
Theorem exit_overruns_ring : exists s, many_eventfds 64 rg0 = Done s /\ end_handles 0 ex_rt 7 s = Panic.
Proof.
  assert (match many_eventfds 64 rg0 with Done s => match end_handles 0 ex_rt 7 s with Panic => true | Done _ => false end | Panic => false end = true) as H by (vm_compute; reflexivity).
  destruct (many_eventfds 64 rg0) as [s |]; [| discriminate H]. exists s. destruct (end_handles 0 ex_rt 7 s); [discriminate H | done].
Qed.

(** [n] channels of a page, all created. *)
Fixpoint many_channels (n : nat) (s : Regions) : panics Regions :=
  match n with
  | O => Done s
  | S n =>
      s <-! many_channels n s ;;
      r <-! run_nc_create_req 0 ex_rt (nc_req (Z.of_nat n) 1) 7 s ;;
      if fst (fst r) =? nr_vaddr (nc_req (Z.of_nat n) 1) then Done (snd r) else Panic
  end.

Definition sees_region (va size fd : Z) (s : Regions) : bool :=
  match (rg_handles s !! 7 ≫= ph_get fd) ≫= handle_arc with
  | None => false
  | Some id =>
      match rg_arcs s !! id with
      | Some (si, _) => ((si_user_va si =? va) && (si_len si =? size) && negb (si_revoked si))%bool
      | None => false
      end
  end.

Lemma sees_opened va size fd s : sees_region va size fd s = true -> opened_region 7 va size fd s.
Proof.
  unfold sees_region, opened_region. destruct (rg_handles s !! 7) as [ph |] eqn:E1; [| done]. cbn [mbind option_bind]. destruct (ph_get fd ph) as [h |] eqn:E2; [| done]. cbn [mbind option_bind].
  destruct (handle_arc h) as [id |] eqn:E3; [| done]. cbn [mbind option_bind]. destruct (rg_arcs s !! id) as [[si n] |] eqn:E4; [| done]. intros H. to_prop. exists ph, h, id, si, n. by split_and!.
Qed.

(** A channel whose request finds the queue of the network thread full: the caller is
    told to try again and gets no descriptor, but the channel stays in its table, mapped. *)
Theorem refused_channel_kept : exists s s', many_channels 7 rg0 = Done s /\
  run_nc_create_req 0 ex_rt (nc_req 7 1) 7 s = Done ((to_ret errno.EAGAIN, 0), s') /\ opened_region 7 (nr_vaddr (nc_req 7 1)) PAGE_SIZE 7 s'.
Proof.
  assert (match many_channels 7 rg0 with
          | Done s => match run_nc_create_req 0 ex_rt (nc_req 7 1) 7 s with
                      | Done (r, s') => (bool_decide (r = (to_ret errno.EAGAIN, 0)) && sees_region (nr_vaddr (nc_req 7 1)) PAGE_SIZE 7 s')%bool
                      | Panic => false end
          | Panic => false end = true) as H by (vm_compute; reflexivity).
  destruct (many_channels 7 rg0) as [s |]; [| discriminate H]. exists s. destruct (run_nc_create_req 0 ex_rt (nc_req 7 1) 7 s) as [[r s'] |]; [| discriminate H].
  apply andb_true_iff in H as [->%bool_decide_eq_true H]. exists s'. split_and!; [done | done |]. by apply sees_opened.
Qed.

(** A channel of two pages over one that is mapped: the call fails, gives the frame
    back and leaves the first page mapped on it. *)
Theorem failed_channel_dangles : exists s s' pa, run_nc_create_req 0 ex_rt (nc_req 1 1) 7 rg0 = Done ((nr_vaddr (nc_req 1 1), 0), s) /\
  run_nc_create_req 0 ex_rt (nc_req 0 2) 7 s = Done ((to_ret errno.ENOMEM, 0), s') /\
  virt_to_phys (pte_mem (rg_vm s')) ex_rt (nr_vaddr (nc_req 0 2)) = Done (Some pa) /\ is_free (kernel_pages (rg_vm s')) pa.
Proof.
  assert (match run_nc_create_req 0 ex_rt (nc_req 1 1) 7 rg0 with
          | Done (r, s) => match run_nc_create_req 0 ex_rt (nc_req 0 2) 7 s with
                      | Done (r', s') => match virt_to_phys (pte_mem (rg_vm s')) ex_rt (nr_vaddr (nc_req 0 2)) with
                          | Done (Some pa) => (bool_decide (r = (nr_vaddr (nc_req 1 1), 0)) && bool_decide (r' = (to_ret errno.ENOMEM, 0)) && (cov (free_list (kernel_pages (rg_vm s'))) pa =? 1)%nat)%bool
                          | _ => false end
                      | Panic => false end
          | Panic => false end = true) as H by (vm_compute; reflexivity).
  destruct (run_nc_create_req 0 ex_rt (nc_req 1 1) 7 rg0) as [[r s] |]; [| discriminate H]. exists s. destruct (run_nc_create_req 0 ex_rt (nc_req 0 2) 7 s) as [[r' s'] |]; [| discriminate H]. exists s'.
  destruct (virt_to_phys _ _ _) as [[pa |] |]; [| discriminate H ..]. apply andb_true_iff in H as [[->%bool_decide_eq_true ->%bool_decide_eq_true]%andb_true_iff H%Nat.eqb_eq]. by exists pa.
Qed.

Lemma rg0_room k : (k < 64)%nat -> room k 0 rg0.
Proof. intros Hk. exists []. split; [done |]. unfold FREE_RING_CAP. cbn [length]. lia. Qed.

Lemma efd_req_fits i : 0 <= i < 1024 -> efd_req_ok (efd_req i).
Proof.
  intros Hi. split; [| cbn; apply Z.divide_add_r; [by exists 0x400000000 | apply Z.divide_factor_r]]. unfold user_shared_range_ok, checked_add, efd_req. cbn [ef_vaddr_hint].
  destruct (Z.ltb_spec (UPROC_SHARED_BASE + i * PAGE_SIZE) UPROC_SHARED_BASE); [unfold PAGE_SIZE in *; lia |].
  unfold UPROC_SHARED_BASE, UPROC_PRIV_END, UPROC_SHARED_END, EVENTFD_REGION_SIZE, PAGE_SIZE, W64 in *. cases_b; [apply Z.leb_le |]; lia.
Qed.

Definition after_efd (s : Regions) : Regions := match run_eventfd_create_req 0 ex_rt (efd_req 0) 7 s with Done (_, s') => s' | Panic => s end.

Lemma efd_run : run_eventfd_create_req 0 ex_rt (efd_req 0) 7 rg0 = Done ((ef_vaddr_hint (efd_req 0), 0), after_efd rg0).
Proof.
  assert (match run_eventfd_create_req 0 ex_rt (efd_req 0) 7 rg0 with Done (r, _) => bool_decide (r = (ef_vaddr_hint (efd_req 0), 0)) | Panic => false end = true) as H by (vm_compute; reflexivity).
  unfold after_efd. destruct (run_eventfd_create_req 0 ex_rt (efd_req 0) 7 rg0) as [[r s] |]; [| discriminate H]. by apply bool_decide_eq_true in H as ->.
Qed.

Lemma efd_reached : rtc (region_step ex_rt 7) rg0 (after_efd rg0).
Proof. eapply rtc_once, REventFdCreate; [by apply efd_req_fits | apply (rg0_room 1); lia | apply efd_run]. Qed.

Lemma efd_state_ok : regions_ok ex_rt 7 [] (after_efd rg0).
Proof. eapply regions_invariant; [apply rg0_ok | apply efd_reached]. Qed.

Lemma efd_shows : exists si, rg_arcs (after_efd rg0) !! 0 = Some (si, 1%nat) /\ si_revoked si = false /\ si_user_va si = UPROC_SHARED_BASE /\ si_len si = PAGE_SIZE.
Proof.
  assert (match rg_arcs (after_efd rg0) !! 0 with Some (si, n) => (negb (si_revoked si) && (si_user_va si =? UPROC_SHARED_BASE) && (si_len si =? PAGE_SIZE) && (n =? 1)%nat)%bool | None => false end = true) as H by (vm_compute; reflexivity).
  destruct (rg_arcs (after_efd rg0) !! 0) as [[si n] |]; [| discriminate H]. exists si. apply andb_true_iff in H as [H ->%Nat.eqb_eq]. by to_prop.
Qed.


Lemma efd_room : room 1 0 (after_efd rg0).
Proof.
  assert (match rg_rings (after_efd rg0) !! 0%nat with Some ring => (length ring =? 0)%nat | None => false end = true) as H by (vm_compute; reflexivity).
  destruct (rg_rings (after_efd rg0) !! 0%nat) as [ring |] eqn:E; [| discriminate H]. apply Nat.eqb_eq in H. exists ring. split; [done |]. by rewrite H.
Qed.

Lemma efd_handle : rg_handles (after_efd rg0) !! 7 ≫= ph_get 0 = Some (HEventFd 0 0).
Proof. vm_compute. reflexivity. Qed.


Lemma exit_returns_regions_witness : exists s1, end_handles 0 ex_rt 7 (after_efd rg0) = Done s1 /\ rg_arcs s1 !! 0 = None.
Proof.
  assert (length (omap handle_arc (default [] (handles_of <$> rg_handles (after_efd rg0) !! 7))) = 1%nat) as Hlen by (vm_compute; reflexivity).
  assert (room (length (omap handle_arc (default [] (handles_of <$> rg_handles (after_efd rg0) !! 7)))) 0 (after_efd rg0)) as Hroom by (rewrite Hlen; exact efd_room).
  destruct (exit_returns_regions ex_rt 7 (after_efd rg0) 0 efd_state_ok Hroom) as (s1 & E & _ & _ & _ & Hid). exists s1. split; [exact E |].
  assert (match end_handles 0 ex_rt 7 (after_efd rg0) with Done s => match queued s ++ rg_net s with [] => true | _ => false end | Panic => false end = true) as H by (vm_compute; reflexivity).
  rewrite E in H. destruct (queued s1 ++ rg_net s1); [| discriminate H]. clear H E Hroom Hlen. specialize (Hid 0). destruct (rg_arcs s1 !! 0) as [x |]; [| reflexivity]. specialize (Hid (ex_intro _ x eq_refl)). destruct (not_elem_of_nil _ Hid).
Defined.
