(* ===== verification/NetThread.v ===== *)
(** * The network thread

    Models [k_net] of [kmain/src/lib.rs] with the bookkeeping of
    [orbit-core/src/net.rs], and the manager's side of it in [kmain/src/kernel/mod.rs]:
    [check_net] and the loop of [dealloc_process] over a process's sockets.

    A turn of the thread's loop is a sequence of seven phases; between two of them the
    manager and the processes run on other harts. Regions and requests are those of
    [Regions.v], the reconciliation of a channel is [update_tcp] of [NetChannel.v]. The
    network stack is an external crate: its interface, its set of sockets and its DHCP
    client are the class [NetStack], what the thread relies on is [NetStackLaws]. Memory
    fences and the [sstatus] bits are left out. *)

From stdpp Require Import base list option numbers sets gmap.
From S2P Require Import Prelude Sv48 PageTable Mapping Layout Abi Perms Thread Completion NetChannel Work Syscall FsRead Mmap Files Regions.
#[local] Open Scope Z_scope.

(** ** The network stack *)

Inductive DhcpEvent := Configured (address : Z) (router : option Z) | Deconfigured.

(** [S]: a TCP socket; [I]: the interface; [P]: the device; [SS]: a set of sockets.
    [sk_new region (tx, rx)] is a socket over the two rings of a region with the options
    the thread sets; [if_poll] says whether there was nothing to do. *)
Class NetStack (S I P SS : Type) := {
  ss_new : SS;
  ss_add : S -> SS -> Z * SS;
  ss_add_dhcp : SS -> Z * SS;
  ss_remove : Z -> SS -> panics SS;
  ss_get : Z -> SS -> panics S;
  ss_put : Z -> S -> SS -> SS;
  sk_new : Z -> (Z * Z) * (Z * Z) -> S;
  sk_send_queue : S -> Z;
  if_poll : Z -> I -> P -> SS -> bool * I * P * SS;
  if_poll_at : Z -> I -> SS -> option Z;
  dhcp_poll : Z -> SS -> panics (option DhcpEvent * SS);
  if_clear_addrs : I -> I;
  if_push_addr : Z -> I -> option I;
  if_add_default_route : Z -> I -> option I;
  if_remove_default_route : I -> I;
}.

Section net.
Context {S I P SS : Type} `{!TcpSocket S I} `{!NetStack S I P SS}.

(** [ss_view]: the sockets by handle, [None] for the DHCP client. Polling the interface
    adds and removes no socket and withdraws nothing a socket has offered; the interface
    has room for one address and one route. *)
Class NetStackLaws := {
  ss_view : SS -> gmap Z (option S);
  ss_new_view : ss_view ss_new = ∅;
  ss_add_view s ss : ss_view ss !! fst (ss_add s ss) = None /\ ss_view (snd (ss_add s ss)) = <[fst (ss_add s ss) := Some s]> (ss_view ss);
  ss_dhcp_view ss : ss_view ss !! fst (ss_add_dhcp ss) = None /\ ss_view (snd (ss_add_dhcp ss)) = <[fst (ss_add_dhcp ss) := None]> (ss_view ss);
  ss_remove_view h ss : is_Some (ss_view ss !! h) -> exists ss', ss_remove h ss = Done ss' /\ ss_view ss' = delete h (ss_view ss);
  ss_get_view h s ss : ss_view ss !! h = Some (Some s) -> ss_get h ss = Done s;
  ss_put_view h s s' ss : ss_view ss !! h = Some (Some s) -> ss_view (ss_put h s' ss) = <[h := Some s']> (ss_view ss);
  dhcp_poll_view h ss : ss_view ss !! h = Some None -> exists ev ss', dhcp_poll h ss = Done (ev, ss') /\ ss_view ss' = ss_view ss;
  if_poll_view ts i p ss h :
    match ss_view ss !! h, ss_view (if_poll ts i p ss).2 !! h with
    | Some (Some s), Some (Some s') => (forall n, can_recv s n -> can_recv s' n) /\ (forall n, can_send s n -> can_send s' n)
    | Some None, Some None | None, None => True
    | _, _ => False
    end;
  push_addr_fits a i : is_Some (if_push_addr a (if_clear_addrs i));
  add_route_fits r i : is_Some (if_add_default_route r i);
}.

(** ** The thread *)

Inductive NetPc := NPoll | NDelete | NPrune | NUpdate | NPrune2 | NPoll2 | NRequests.

(** [nt_chan]: what the regions hold, by handle; [nt_reads]: how often the clock was
    read; [nt_socks]: the sockets the manager keeps for each live process. *)
Record NetThread := mkNetThread {
  nt_rg : Regions;
  nt_chan : Z -> NetChannel;
  nt_iface : I;
  nt_phy : P;
  nt_sockets : SS;
  nt_dhcp : Z;
  nt_conns : list (Z * SocketReq);
  nt_assoc : list (Z * Z);
  nt_deletions : list Z;
  nt_orphans : list Z;
  nt_socks : gmap Z (list Z);
  nt_wakes : list Z;
  nt_pc : NetPc;
  nt_reads : nat;
  nt_now : Z;
  nt_now_us : Z;
  nt_second : bool;
  nt_wake_time : Z;
}.

Definition eta_net (s : NetThread) : NetThread :=
  mkNetThread (nt_rg s) (nt_chan s) (nt_iface s) (nt_phy s) (nt_sockets s) (nt_dhcp s) (nt_conns s) (nt_assoc s) (nt_deletions s) (nt_orphans s)
    (nt_socks s) (nt_wakes s) (nt_pc s) (nt_reads s) (nt_now s) (nt_now_us s) (nt_second s) (nt_wake_time s).
Definition set_nt_rg : Regions -> NetThread -> NetThread := ltac:(set_field eta_net nt_rg).
Definition set_nt_chan : (Z -> NetChannel) -> NetThread -> NetThread := ltac:(set_field eta_net nt_chan).
Definition set_nt_iface : I -> NetThread -> NetThread := ltac:(set_field eta_net nt_iface).
Definition set_nt_phy : P -> NetThread -> NetThread := ltac:(set_field eta_net nt_phy).
Definition set_nt_sockets : SS -> NetThread -> NetThread := ltac:(set_field eta_net nt_sockets).
Definition set_nt_conns : list (Z * SocketReq) -> NetThread -> NetThread := ltac:(set_field eta_net nt_conns).
Definition set_nt_assoc : list (Z * Z) -> NetThread -> NetThread := ltac:(set_field eta_net nt_assoc).
Definition set_nt_deletions : list Z -> NetThread -> NetThread := ltac:(set_field eta_net nt_deletions).
Definition set_nt_orphans : list Z -> NetThread -> NetThread := ltac:(set_field eta_net nt_orphans).
Definition set_nt_socks : gmap Z (list Z) -> NetThread -> NetThread := ltac:(set_field eta_net nt_socks).
Definition set_nt_wakes : list Z -> NetThread -> NetThread := ltac:(set_field eta_net nt_wakes).
Definition set_nt_pc : NetPc -> NetThread -> NetThread := ltac:(set_field eta_net nt_pc).
Definition set_nt_reads : nat -> NetThread -> NetThread := ltac:(set_field eta_net nt_reads).
Definition set_nt_now : Z -> NetThread -> NetThread := ltac:(set_field eta_net nt_now).
Definition set_nt_now_us : Z -> NetThread -> NetThread := ltac:(set_field eta_net nt_now_us).
Definition set_nt_second : bool -> NetThread -> NetThread := ltac:(set_field eta_net nt_second).
Definition set_nt_wake_time : Z -> NetThread -> NetThread := ltac:(set_field eta_net nt_wake_time).

(** The hart the thread runs on, and the clock, as the value of each read. *)
Context (hart : nat) (clock : nat -> Z).

Definition read_time (s : NetThread) : NetThread :=
  set_nt_reads (Datatypes.S (nt_reads s)) (set_nt_now (clock (nt_reads s)) s).

(** [Instant::from_micros(now as i64 / 10)]. *)
Definition timestamp (now : Z) : Z := Z.quot (as_i64 now) 10.

Definition set_ipv4_addr (cidr : Z) (i : I) : panics I :=
  match if_push_addr cidr (if_clear_addrs i) with Some i => Done i | None => Panic end.

Definition handle_dhcp_event (i : I) (event : DhcpEvent) : panics I :=
  match event with
  | Configured address router =>
      i <-! set_ipv4_addr address i ;;
      match router with
      | Some router => match if_add_default_route router i with Some i => Done i | None => Panic end
      | None => Done (if_remove_default_route i)
      end
  | Deconfigured => Done (if_remove_default_route (if_clear_addrs i))
  end.

(** The loop around [iface.poll]. *)
Fixpoint poll_iface (n : nat) (s : NetThread) : panics NetThread :=
  match n with
  | O => Done s
  | Datatypes.S n =>
      let '(none, i, p, ss) := if_poll (timestamp (nt_now s)) (nt_iface s) (nt_phy s) (nt_sockets s) in
      let s := set_nt_sockets ss (set_nt_phy p (set_nt_iface i s)) in
      if (none : bool) then Done s
      else
        let s := read_time s in
        r <-! dhcp_poll (nt_dhcp s) (nt_sockets s) ;;
        let s := set_nt_sockets (snd r) s in
        match fst r with
        | None => poll_iface n s
        | Some ev => i <-! handle_dhcp_event (nt_iface s) ev ;; poll_iface n (set_nt_iface i s)
        end
  end.

(** *** Connections that go ([orbit-core/src/net.rs]) *)

(** The handle of a request that is dropped. *)
Definition drop_req (req : SocketReq) (s : NetThread) : panics NetThread :=
  match list_find (fun x => x = sr_netchan req) (rg_net (nt_rg s)) with
  | None => Panic
  | Some (i, _) => rg <-! net_drop hart i (nt_rg s) ;; Done (set_nt_rg rg s)
  end.

Definition remove_socket (h : Z) (s : NetThread) : panics NetThread :=
  ss <-! ss_remove h (nt_sockets s) ;; Done (set_nt_sockets ss s).

(** [conns.remove(&k)]: the entry is dropped at once. *)
Definition conns_remove (k : Z) (s : NetThread) : panics (bool * NetThread) :=
  match bm_get k (nt_conns s) with
  | None => Done (false, s)
  | Some req => s <-! drop_req req (set_nt_conns (bm_remove k (nt_conns s)) s) ;; Done (true, s)
  end.

Fixpoint drain_socket_deletions (l : list Z) (s : NetThread) : panics NetThread :=
  match l with
  | [] => Done s
  | k :: l =>
      r <-! conns_remove k s ;;
      s <-! (if fst r then remove_socket k (snd r) else Done (snd r)) ;;
      drain_socket_deletions l s
  end.

Definition region_revoked (id : Z) (s : NetThread) : bool :=
  match rg_arcs (nt_rg s) !! id with Some (si, _) => si_revoked si | None => false end.

Definition scratch (s : NetThread) : list Z :=
  fst <$> filter (fun e => region_revoked (sr_netchan e.2) s = true) (nt_conns s).

Fixpoint prune_keys (l : list Z) (s : NetThread) : panics NetThread :=
  match l with
  | [] => Done s
  | k :: l =>
      r <-! conns_remove k s ;;
      s <-! remove_socket k (snd r) ;;
      prune_keys l s
  end.

Definition prune_revoked_conns (s : NetThread) : panics NetThread := prune_keys (scratch s) s.

(** *** Channels *)

Definition set_sr_ctx (c : ChannelCtx) (req : SocketReq) : SocketReq := mkSocketReq (sr_netchan req) (sr_type req) (sr_pid req) c.

(** A call of [update_tcp] for a connection, and the wake of its process. *)
Definition update_conn (h : Z) (req : SocketReq) (s : NetThread) : panics (SocketReq * UpdateOutcome * NetThread) :=
  socket <-! ss_get h (nt_sockets s) ;;
  p <-! update_tcp (nt_now_us s) socket (nt_iface s) (sr_ctx req) (nt_chan s (sr_netchan req)) ;;
  let s := set_nt_sockets (ss_put h (p_sock p) (nt_sockets s)) (set_nt_iface (p_iface p) s) in
  let s := set_nt_chan (fun id => if decide (id = sr_netchan req) then p_nc p else nt_chan s id) s in
  let s := if should_wake_user (p_out p) then set_nt_wakes (nt_wakes s ++ [sr_pid req]) s else s in
  Done (set_sr_ctx (p_ctx p) req, p_out p, s).

(** The loop over the connections: [try_as_ref] skips a region that is revoked. *)
Fixpoint update_conns (l : list (Z * SocketReq)) (s : NetThread) : panics NetThread :=
  match l with
  | [] => Done s
  | (h, req) :: l =>
      if region_revoked (sr_netchan req) s then update_conns l s
      else if negb (sr_type req =? 0) then update_conns l s
      else
        socket <-! ss_get h (nt_sockets s) ;;
        r <-! update_conn h req s ;;
        let '(req, out, s) := r in
        socket' <-! ss_get h (nt_sockets s) ;;
        let again := ((0 <? sk_recv_queue socket') || (0 <? sk_send_queue socket') || negb (sk_recv_queue socket' =? sk_recv_queue socket) || should_wake_user out)%bool in
        update_conns l (set_nt_second (nt_second s || again) (set_nt_conns (bm_insert h req (nt_conns s)) s))
  end.

(** *** Requests *)

Definition ASSOC_CAP : Z := 8.

(** A request for a channel: its socket, its first poll, its place among the connections. *)
Definition serve_req (req : SocketReq) (s : NetThread) : panics NetThread :=
  if negb (sr_type req =? 0) then drop_req req s
  else
    let sock := sk_new (sr_netchan req) (rings (queue_len (sr_ctx req)) (capacity (sr_ctx req))) in
    let '(h, ss) := ss_add sock (nt_sockets s) in
    let s := set_nt_sockets ss s in
    r <-! (if region_revoked (sr_netchan req) s then Done (req, s)
           else r <-! update_conn h req s ;; Done (fst (fst r), snd r)) ;;
    let '(req, s) := r in
    let s := set_nt_conns (bm_insert h req (nt_conns s)) s in
    Done (if Z.of_nat (length (nt_assoc s)) <? ASSOC_CAP - 1 then set_nt_assoc (nt_assoc s ++ [(sr_pid req, h)]) s else s).

Fixpoint serve_queue (n q : nat) (s : NetThread) : panics NetThread :=
  match n with
  | O => Done s
  | Datatypes.S n =>
      match rg_socket_reqs (nt_rg s) !! q with
      | Some (req :: _) => s <-! serve_req req (set_nt_rg (net_take q (nt_rg s)) s) ;; serve_queue n q s
      | _ => Done s
      end
  end.

Fixpoint serve_queues (l : list nat) (s : NetThread) : panics NetThread :=
  match l with
  | [] => Done s
  | q :: l => s <-! serve_queue (length (default [] (rg_socket_reqs (nt_rg s) !! q))) q s ;; serve_queues l s
  end.

(** *** A turn of the loop, by phases *)

Definition POLL_TRIES : nat := 8.
Definition DEFAULT_WAKE : Z := 1000000.

Definition k_net_step (s : NetThread) : panics NetThread :=
  match nt_pc s with
  | NPoll => s <-! poll_iface POLL_TRIES (read_time s) ;; Done (set_nt_pc NDelete s)
  | NDelete => s <-! drain_socket_deletions (nt_deletions s) (set_nt_deletions [] s) ;; Done (set_nt_pc NPrune s)
  | NPrune => s <-! prune_revoked_conns s ;; Done (set_nt_pc NUpdate s)
  | NUpdate => s <-! update_conns (nt_conns s) (set_nt_second false (set_nt_now_us (nt_now s / 10) s)) ;; Done (set_nt_pc NPrune2 s)
  | NPrune2 => s <-! prune_revoked_conns s ;; Done (set_nt_pc NPoll2 s)
  | NPoll2 =>
      s <-! (if nt_second s then poll_iface POLL_TRIES s else Done s) ;;
      let wake := wadd (nt_now s) DEFAULT_WAKE in
      Done (set_nt_pc NRequests (set_nt_wake_time (Z.min wake (from_option (fun t => wmul (u64 t) 10) wake (if_poll_at (timestamp (nt_now s)) (nt_iface s) (nt_sockets s)))) s))
  | NRequests => s <-! serve_queues (seq 0 (length (rg_socket_reqs (nt_rg s)))) s ;; Done (set_nt_pc NPoll s)
  end.

Definition k_net_turn (s : NetThread) : panics NetThread :=
  s <-! k_net_step s ;; s <-! k_net_step s ;; s <-! k_net_step s ;; s <-! k_net_step s ;; s <-! k_net_step s ;; s <-! k_net_step s ;; k_net_step s.

Definition net_start (rg : Regions) (chan : Z -> NetChannel) (i : I) (p : P) (procs : gmap Z (list Z)) : NetThread :=
  let '(h, ss) := ss_add_dhcp ss_new in
  mkNetThread rg chan i p ss h [] [] [] [] procs [] NPoll 0 0 0 false 0.

(** *** The manager's side *)

Definition DELETIONS_CAP : Z := 8.

Definition push_deletion (h : Z) (s : NetThread) : bool * NetThread :=
  if Z.of_nat (length (nt_deletions s)) <? DELETIONS_CAP - 1 then (true, set_nt_deletions (nt_deletions s ++ [h]) s) else (false, s).

Fixpoint associate (l : list (Z * Z)) (s : NetThread) : NetThread :=
  match l with
  | [] => s
  | (pid, h) :: l =>
      associate l
        (match nt_socks s !! pid with
         | Some hs => set_nt_socks (<[pid := bt_insert h hs]> (nt_socks s)) s
         | None => snd (push_deletion h s)
         end)
  end.

Definition check_net (s : NetThread) : NetThread := associate (nt_assoc s) (set_nt_assoc [] s).

(** [dealloc_process]: the largest socket first. *)
Fixpoint delete_sockets (l : list Z) (s : NetThread) : NetThread :=
  match l with
  | [] => s
  | h :: l =>
      let '(ok, s) := push_deletion h s in
      delete_sockets l (if ok then s else set_nt_orphans (nt_orphans s ++ [h]) s)
  end.

Definition end_sockets (pid : Z) (s : NetThread) : NetThread :=
  delete_sockets (rev (default [] (nt_socks s !! pid))) (set_nt_socks (delete pid (nt_socks s)) s).

(** ** Dropping a handle, whoever holds the others *)

Definition strong (id : Z) (rg : Regions) : nat := match rg_arcs rg !! id with Some (_, n) => n | None => 0%nat end.

(** Requests and connections hold their regions. *)
Definition arcs_held (rg : Regions) : Prop := forall id, (lcount id (queued rg ++ rg_net rg) <= strong id rg)%nat.

(** The ring of the thread's hart has room for all it can drop. *)
Definition fits (rg : Regions) : Prop := room (length (queued rg ++ rg_net rg)) hart rg.

(** What the thread may do to the regions: take requests and drop handles. *)
Record net_moves (rg rg' : Regions) : Prop := {
  nm_held : arcs_held rg';
  nm_fits : fits rg';
  nm_arcs : forall id si n, rg_arcs rg' !! id = Some (si, n) -> exists n', rg_arcs rg !! id = Some (si, n');
  nm_steps : forall rt pid, rtc (region_step rt pid) rg rg';
}.

Lemma net_moves_refl rg : arcs_held rg -> fits rg -> net_moves rg rg.
Proof. intros Hh Hf. split; try done. eauto. Qed.

Lemma net_moves_trans rg rg1 rg2 : net_moves rg rg1 -> net_moves rg1 rg2 -> net_moves rg rg2.
Proof.
  intros [H1 H2 H3 H4] [G1 G2 G3 G4]. split; try done.
  - intros id si n (n' & Hs)%G3. by apply H3 in Hs.
  - intros rt pid. by etrans; [apply H4 | apply G4].
Qed.

Lemma net_drop_moves rg i id : arcs_held rg -> fits rg -> rg_net rg !! i = Some id ->
  exists rg', net_drop hart i rg = Done rg' /\ net_moves rg rg' /\ rg_net rg' = delete i (rg_net rg) /\ rg_socket_reqs rg' = rg_socket_reqs rg.
Proof.
  intros Hh Hf Hi. pose proof (delete_Permutation _ _ _ Hi) as Hp. set (rg1 := set_rg_net (delete i (rg_net rg)) rg).
  assert (queued rg ++ rg_net rg ≡ₚ id :: (queued rg ++ delete i (rg_net rg))) as Hp' by (etrans; [apply Permutation_app_head, Hp |]; symmetry; apply Permutation_middle).
  assert (length (queued rg ++ rg_net rg) = Datatypes.S (length (queued rg ++ delete i (rg_net rg)))) as Hlen by (by rewrite Hp').
  destruct Hf as (ring & Er & Hroom). rewrite Hlen in Hroom. pose proof (Hh id) as Hn. rewrite Hp', lcount_cons, decide_True in Hn by done. unfold strong in Hn. destruct (rg_arcs rg !! id) as [[si n] |] eqn:Ea; [| lia].
  assert (forall j, (lcount j (queued rg ++ delete i (rg_net rg)) <= strong j rg - (if decide (id = j) then 1 else 0))%nat) as Hj by (intros j; pose proof (Hh j) as Hx; rewrite Hp', lcount_cons in Hx; destruct (decide (id = j)); lia).
  assert (room 1 hart rg) as Hr1 by (exists ring; split; [done | lia]). assert (forall rg', net_drop hart i rg = Done rg' -> forall rt pid, rtc (region_step rt pid) rg rg') as Hst by (intros rg' E rt pid; by eapply rtc_once, RNetDrop).
  destruct (net_drop hart i rg) as [rg' |] eqn:E; unfold net_drop in E; rewrite Hi in E; unfold arc_drop in E; cbn [set_rg_net rg_arcs] in E; rewrite Ea in E; destruct (decide (n = 1%nat)) as [-> | Hn1];
    try discriminate E; unfold push_free in E; cbn [set_rg_arcs set_rg_net rg_rings] in E; rewrite ?Er in E; try (destruct (Z.ltb_spec (Z.of_nat (length ring)) (FREE_RING_CAP - 1)); [| lia]); try discriminate E; injection E as <-.
  - eexists. split; [done |]. split_and!; try done. split; [| | intros j sj m; cbn [set_rg_rings set_rg_arcs set_rg_net rg_arcs]; intros [_ Hx]%lookup_delete_Some; by exists m | by apply Hst].
    + intros j. specialize (Hj j). unfold strong in *. change (queued _) with (queued rg). cbn [set_rg_rings set_rg_arcs set_rg_net rg_arcs rg_net]. destruct (decide (id = j)) as [<- | Hne]; [rewrite Ea in Hj; rewrite lookup_delete_eq; lia | rewrite lookup_delete_ne by done; lia].
    + eexists. cbn [set_rg_rings set_rg_arcs set_rg_net rg_rings]. rewrite list_lookup_insert_eq by (by eapply lookup_lt_Some). split; [done |]. change (queued _) with (queued rg). cbn [set_rg_rings set_rg_arcs set_rg_net rg_net]. rewrite length_app. cbn [length]. lia.
  - eexists. split; [done |]. split_and!; try done. split; [| | | by apply Hst].
    + intros j. specialize (Hj j). unfold strong in *. change (queued _) with (queued rg). cbn [set_rg_arcs set_rg_net rg_arcs rg_net]. destruct (decide (id = j)) as [<- | Hne]; [rewrite Ea in Hj; rewrite lookup_insert_eq; lia | rewrite lookup_insert_ne by done; lia].
    + exists ring. split; [done |]. change (queued _) with (queued rg). cbn [set_rg_arcs set_rg_net rg_net]. lia.
    + intros j sj m. cbn [set_rg_arcs set_rg_net rg_arcs]. intros [[<- [= <- <-]] | [_ Hx]]%lookup_insert_Some; eauto.
Qed.

Lemma net_take_moves rg q req l : arcs_held rg -> fits rg -> rg_socket_reqs rg !! q = Some (req :: l) ->
  net_moves rg (net_take q rg) /\ rg_net (net_take q rg) = rg_net rg ++ [sr_netchan req] /\ rg_socket_reqs (net_take q rg) = <[q := l]> (rg_socket_reqs rg) /\ rg_arcs (net_take q rg) = rg_arcs rg.
Proof.
  intros Hh Hf Hq. unfold net_take. rewrite Hq. split_and!; try done. assert (concat (rg_socket_reqs rg) ≡ₚ req :: concat (<[q := l]> (rg_socket_reqs rg))) as Hp.
  { clear -Hq. revert q Hq. induction (rg_socket_reqs rg) as [| x ls IH]; intros [| q] E; cbn in *; try done; [by injection E as -> |]. rewrite (IH q E). symmetry. apply Permutation_middle. }
  assert (queued (set_rg_net (rg_net rg ++ [sr_netchan req]) (set_rg_socket_reqs (<[q := l]> (rg_socket_reqs rg)) rg)) ++ (rg_net rg ++ [sr_netchan req]) ≡ₚ queued rg ++ rg_net rg) as Hp'.
  { unfold queued. cbn [set_rg_net set_rg_socket_reqs rg_socket_reqs]. rewrite Hp. cbn [fmap list_fmap]. rewrite (Permutation_app_comm (rg_net rg)). cbn [app]. symmetry. apply Permutation_middle. }
  split; cbn [set_rg_net rg_net]; [| | eauto |].
  - intros id. unfold strong. cbn [set_rg_net rg_net set_rg_socket_reqs rg_arcs]. rewrite Hp'. apply Hh.
  - unfold fits. cbn [set_rg_net rg_net]. rewrite Hp'. destruct Hf as (ring & ? & ?). by exists ring.
  - intros rt pid. pose proof (RNetTake rt pid q rg) as Hs. unfold net_take in Hs. rewrite Hq in Hs. by apply rtc_once.
Qed.
(** ** The invariant of the thread *)

Context `{!TcpSocketLaws (S := S) (I := I)} `{!NetStackLaws}.

Definition typed_region (c : NetChannel) : Prop := nc_typed c /\ words (increments (tx c)) /\ words (increments (rx c)).

(** Every connection has a socket and every socket but the DHCP client's a connection,
    whose region the thread holds; the record of each channel suits its socket. *)
Record net_private (s : NetThread) : Prop := {
  np_sorted : bm_sorted (nt_conns s);
  np_dhcp : ss_view (nt_sockets s) !! nt_dhcp s = Some None;
  np_socket : forall h, is_Some (bm_get h (nt_conns s)) <-> exists k, ss_view (nt_sockets s) !! h = Some (Some k);
  np_ctx : forall h req k, bm_get h (nt_conns s) = Some req -> ss_view (nt_sockets s) !! h = Some (Some k) -> ctx_ok k (sr_ctx req);
  np_net : rg_net (nt_rg s) ≡ₚ (fun e => sr_netchan e.2) <$> nt_conns s;
}.

(** What the others leave: typed regions, counts that cover the handles in the queues
    and with the thread, and requests of new channels. *)
Record net_shared (s : NetThread) : Prop := {
  ns_typed : forall id, typed_region (nt_chan s id);
  ns_held : arcs_held (nt_rg s);
  ns_fresh : forall req, req ∈ concat (rg_socket_reqs (nt_rg s)) -> exists b size, sr_ctx req = ChannelCtx_new b size;
}.

Definition net_ok (s : NetThread) : Prop := net_private s /\ net_shared s.

(** A piece of the thread's work. *)
Record net_good (s s' : NetThread) : Prop := {
  ng_private : net_private s';
  ng_shared : net_shared s';
  ng_moves : net_moves (nt_rg s) (nt_rg s');
  ng_dhcp : nt_dhcp s' = nt_dhcp s;
}.

Lemma net_good_trans s s1 s2 : net_good s s1 -> net_good s1 s2 -> net_good s s2.
Proof. intros [? ? H1 E1] [? ? H2 E2]. split; try done; [by eapply net_moves_trans | by rewrite E2]. Qed.

Lemma net_good_refl s : net_ok s -> fits (nt_rg s) -> net_good s s.
Proof. intros [Hp Hs] Hf. split; try done. apply net_moves_refl; [apply Hs | done]. Qed.

Lemma good_ok s s' : net_good s s' -> net_ok s'.
Proof. intros Hg. split; apply Hg. Qed.

Lemma good_fits s s' : net_good s s' -> fits (nt_rg s').
Proof. intros Hg. apply (nm_fits _ _ (ng_moves _ _ Hg)). Qed.

(** Sockets that moved on without withdrawing anything. *)
Definition socket_moves (o o' : option (option S)) : Prop :=
  match o, o' with
  | Some (Some s), Some (Some s') => (forall n, can_recv s n -> can_recv s' n) /\ (forall n, can_send s n -> can_send s' n)
  | Some None, Some None | None, None => True
  | _, _ => False
  end.

Lemma ctx_ok_moves k k' c : (forall n, can_recv k n -> can_recv k' n) -> (forall n, can_send k n -> can_send k' n) -> ctx_ok k c -> ctx_ok k' c.
Proof. intros Hr Hs [Ha ? ? ? ?]. split; try done. intros Hph. destruct (Ha Hph). split; auto. Qed.

Lemma private_sockets s s' : net_private s -> nt_conns s' = nt_conns s -> nt_dhcp s' = nt_dhcp s -> nt_rg s' = nt_rg s ->
  (forall h, socket_moves (ss_view (nt_sockets s) !! h) (ss_view (nt_sockets s') !! h)) -> net_private s'.
Proof.
  intros [H1 H2 H3 H4 H5] Ec Ed Er Hm. split; rewrite ?Ec, ?Ed, ?Er; try done.
  - specialize (Hm (nt_dhcp s)). rewrite H2 in Hm. by destruct (ss_view (nt_sockets s') !! nt_dhcp s) as [[k |] |].
  - intros h. rewrite H3. specialize (Hm h). destruct (ss_view (nt_sockets s) !! h) as [[k |] |], (ss_view (nt_sockets s') !! h) as [[k' |] |]; try done; split; intros [x Hx]; try done; eauto.
  - intros h req k Hc Hk. specialize (Hm h). rewrite Hk in Hm. destruct (ss_view (nt_sockets s) !! h) as [[k0 |] |] eqn:E; try done. destruct Hm. eapply ctx_ok_moves; eauto.
Qed.

Lemma socket_moves_refl o : socket_moves o o.
Proof. by destruct o as [[k |] |]. Qed.

(** Changes outside the regions, the connections and the sockets. *)
Lemma good_sockets s s' : net_ok s -> fits (nt_rg s) -> nt_conns s' = nt_conns s -> nt_dhcp s' = nt_dhcp s -> nt_rg s' = nt_rg s -> nt_chan s' = nt_chan s ->
  (forall h, socket_moves (ss_view (nt_sockets s) !! h) (ss_view (nt_sockets s') !! h)) -> net_good s s'.
Proof.
  intros [Hp [T1 T2 T3]] Hf Ec Ed Er Ech Hm. split; [by eapply private_sockets | split; by rewrite ?Ech, ?Er | rewrite Er; by apply net_moves_refl | done].
Qed.

Lemma dhcp_event_ok i ev : exists i', handle_dhcp_event i ev = Done i'.
Proof.
  destruct ev as [a r |]; [| by eexists]. cbn [handle_dhcp_event]. unfold set_ipv4_addr. destruct (push_addr_fits a i) as [i1 ->]. cbn [pbind]. destruct r as [r |]; [| by eexists].
  destruct (add_route_fits r i1) as [i2 ->]. by eexists.
Qed.

Lemma poll_iface_ok n : forall s, net_ok s -> fits (nt_rg s) -> exists s', poll_iface n s = Done s' /\ net_good s s' /\ nt_conns s' = nt_conns s /\ nt_rg s' = nt_rg s /\ nt_pc s' = nt_pc s.
Proof.
  induction n as [| n IH]; intros s Hok Hf; [exists s; by split_and!; [| apply net_good_refl | ..] |]. cbn [poll_iface]. pose proof (if_poll_view (timestamp (nt_now s)) (nt_iface s) (nt_phy s) (nt_sockets s)) as Hv.
  destruct (if_poll _ _ _ _) as [[[none i] p] ss]. cbn [snd] in Hv. set (s1 := set_nt_sockets ss _). assert (net_good s s1) as Hg1 by (by apply good_sockets).
  destruct none; [by exists s1 |]. assert (ss_view (nt_sockets (read_time s1)) !! nt_dhcp (read_time s1) = Some None) as Hd by apply Hg1.
  destruct (dhcp_poll_view _ _ Hd) as (ev & ss' & -> & Hss). cbn [pbind fst snd].
  assert (forall s2, nt_conns s2 = nt_conns s1 -> nt_dhcp s2 = nt_dhcp s1 -> nt_rg s2 = nt_rg s1 -> nt_chan s2 = nt_chan s1 -> nt_pc s2 = nt_pc s1 -> nt_sockets s2 = ss' ->
    exists s', poll_iface n s2 = Done s' /\ net_good s s' /\ nt_conns s' = nt_conns s /\ nt_rg s' = nt_rg s /\ nt_pc s' = nt_pc s) as Hrest.
  { intros s2 Ec Ed Er Ech Ep Ess. assert (net_good s1 s2) as Hg2 by (apply good_sockets; try done; [by eapply good_ok | intros h; rewrite Ess, Hss; apply socket_moves_refl]).
    destruct (IH s2) as (s' & -> & Hg & Ec' & Er' & Ep'); [by eapply good_ok | by eapply good_fits |]. exists s'. split_and!; [done | exact (net_good_trans _ _ _ Hg1 (net_good_trans _ _ _ Hg2 Hg)) | by rewrite Ec', Ec | by rewrite Er', Er | by rewrite Ep', Ep]. }
  destruct ev as [ev |]; [| by apply Hrest]. destruct (dhcp_event_ok (nt_iface (set_nt_sockets ss' (read_time s1))) ev) as [i' ->]. cbn [pbind]. by apply Hrest.
Qed.
(** *** Connections that go *)

(** A connection leaves with its socket and its handle. *)
Lemma conn_gone s k req : net_ok s -> fits (nt_rg s) -> bm_get k (nt_conns s) = Some req ->
  exists s1 s2, conns_remove k s = Done (true, s1) /\ remove_socket k s1 = Done s2 /\ net_good s s2 /\ nt_conns s2 = bm_remove k (nt_conns s) /\ nt_pc s2 = nt_pc s /\
    ss_view (nt_sockets s2) = delete k (ss_view (nt_sockets s)).
Proof.
  intros [[P1 P2 P3 P4 P5] [T1 T2 T3]] Hf Hk. unfold conns_remove. rewrite Hk. pose proof (bm_remove_perm k req _ P1 Hk) as Hp.
  unfold drop_req. cbn [set_nt_conns nt_rg]. destruct (list_find _ _) as [[i id] |] eqn:Ef.
  2: { apply list_find_None in Ef. rewrite Forall_forall in Ef. destruct (Ef (sr_netchan req)); [| done]. rewrite P5, Hp. by left. }
  apply list_find_Some in Ef as (Hi & -> & _). destruct (net_drop_moves _ _ _ T2 Hf Hi) as (rg & -> & Hm & En & Eq). cbn [pbind].
  destruct (proj1 (P3 k) ltac:(by rewrite Hk)) as [sock Hsk]. destruct (ss_remove_view k (nt_sockets s) ltac:(by rewrite Hsk)) as (ss & Ess & Hss).
  do 2 eexists. split; [done |]. unfold remove_socket. cbn [set_nt_rg set_nt_conns nt_sockets]. rewrite Ess. split; [done |]. split_and!; try done.
  assert (k <> nt_dhcp s) as Hne by (intros ->; by rewrite Hsk in P2). split; [| | done | done].
  - split; cbn [set_nt_sockets set_nt_rg set_nt_conns nt_conns nt_sockets nt_dhcp nt_rg]; rewrite ?Hss.
    + by apply bm_filter_sorted.
    + by rewrite lookup_delete_ne.
    + intros h. rewrite bm_get_remove. destruct (decide (h = k)) as [-> | Hh]; [rewrite lookup_delete_eq; split; [by intros [] | by intros []] | rewrite lookup_delete_ne by done; apply P3].
    + intros h r kk. rewrite bm_get_remove. destruct (decide (h = k)) as [-> | Hh]; [done |]. rewrite lookup_delete_ne by done. apply P4.
    + rewrite En. apply (Permutation_cons_inv (a := sr_netchan req)). rewrite <- (delete_Permutation _ _ _ Hi), P5. by rewrite Hp at 1.
  - split; cbn [set_nt_sockets set_nt_rg set_nt_conns nt_chan nt_rg]; [done | apply Hm | by rewrite Eq].
Qed.

Lemma drain_deletions_ok l : forall s, net_ok s -> fits (nt_rg s) -> exists s', drain_socket_deletions l s = Done s' /\ net_good s s' /\ nt_pc s' = nt_pc s /\
  (forall h, h ∉ l -> bm_get h (nt_conns s') = bm_get h (nt_conns s)).
Proof.
  induction l as [| k l IH]; intros s Hok Hf; [exists s; by split_and!; [| apply net_good_refl | ..] |]. cbn [drain_socket_deletions]. destruct (bm_get k (nt_conns s)) as [req |] eqn:Ek.
  - destruct (conn_gone s k req Hok Hf Ek) as (s1 & s2 & -> & E2 & Hg & Ec & Ep & _). cbn [pbind fst snd]. rewrite E2. cbn [pbind].
    destruct (IH s2) as (s' & -> & Hg' & Ep' & Hrest); [by eapply good_ok | by eapply good_fits |]. exists s'. split_and!; [done | by eapply net_good_trans | by rewrite Ep' |].
    intros h [Hne Hn]%not_elem_of_cons. by rewrite Hrest, Ec, bm_get_remove_ne.
  - unfold conns_remove. rewrite Ek. cbn [pbind fst snd]. destruct (IH s Hok Hf) as (s' & -> & Hg' & Ep' & Hrest). exists s'. split_and!; try done. intros h [_ Hn]%not_elem_of_cons. by apply Hrest.
Qed.

Lemma prune_keys_ok l : forall s, net_ok s -> fits (nt_rg s) -> NoDup l -> (forall k, k ∈ l -> is_Some (bm_get k (nt_conns s))) ->
  exists s', prune_keys l s = Done s' /\ net_good s s' /\ nt_pc s' = nt_pc s /\ (forall h, bm_get h (nt_conns s') = if decide (h ∈ l) then None else bm_get h (nt_conns s)).
Proof.
  induction l as [| k l IH]; intros s Hok Hf Hnd Hin; [exists s; by split_and!; [| apply net_good_refl | ..] |]. apply NoDup_cons in Hnd as [Hk Hnd]. cbn [prune_keys].
  destruct (Hin k ltac:(by left)) as [req Ek]. destruct (conn_gone s k req Hok Hf Ek) as (s1 & s2 & -> & E2 & Hg & Ec & Ep & _). cbn [pbind snd]. rewrite E2. cbn [pbind].
  destruct (IH s2) as (s' & -> & Hg' & Ep' & Hrest); [by eapply good_ok | by eapply good_fits | done | |].
  { intros j Hj. rewrite Ec, bm_get_remove_ne by congruence. apply Hin. by right. }
  exists s'. split_and!; [done | by eapply net_good_trans | by rewrite Ep' |]. intros h. rewrite Hrest, Ec, bm_get_remove.
  destruct (decide (h = k)) as [-> | Hne]; [rewrite (decide_True (P := k ∈ k :: l)) by (by left); by destruct (decide _) |].
  destruct (decide (h ∈ l)); [rewrite decide_True by (by right) | rewrite decide_False by (rewrite elem_of_cons; tauto)]; done.
Qed.

Lemma scratch_spec s h : bm_sorted (nt_conns s) -> h ∈ scratch s <-> exists req, bm_get h (nt_conns s) = Some req /\ region_revoked (sr_netchan req) s = true.
Proof.
  intros Hs. unfold scratch. rewrite list_elem_of_fmap. split.
  - intros ([k req] & -> & [Hr Hin]%list_elem_of_filter). exists req. split; [by apply bm_get_sorted | done].
  - intros (req & Hg & Hr). exists (h, req). split; [done |]. apply list_elem_of_filter. split; [done |]. by apply bm_get_sorted.
Qed.

(** Exactly the connections whose region is revoked go. *)
Lemma prune_ok s : net_ok s -> fits (nt_rg s) -> exists s', prune_revoked_conns s = Done s' /\ net_good s s' /\ nt_pc s' = nt_pc s /\
  forall h, bm_get h (nt_conns s') = match bm_get h (nt_conns s) with Some req => if region_revoked (sr_netchan req) s then None else Some req | None => None end.
Proof.
  intros Hok Hf. pose proof (np_sorted _ (proj1 Hok)) as Hs. unfold prune_revoked_conns. destruct (prune_keys_ok (scratch s) s Hok Hf) as (s' & -> & Hg & Ep & Hc).
  - unfold scratch. apply bm_sorted_nodup. by apply bm_filter_sorted.
  - intros k (req & -> & _)%scratch_spec; [by eexists | done].
  - exists s'. split_and!; try done. intros h. rewrite Hc. pose proof (scratch_spec s h Hs) as Hsc. destruct (bm_get h (nt_conns s)) as [req |] eqn:E; [| by destruct (decide _)].
    destruct (region_revoked (sr_netchan req) s) eqn:Er.
    + rewrite decide_True; [done |]. apply Hsc. by exists req.
    + rewrite decide_False; [done |]. intros (r & Hr1 & Hr2)%Hsc. congruence.
Qed.
(** *** Channels that are driven *)

Lemma update_conn_ok s h req k : ss_view (nt_sockets s) !! h = Some (Some k) -> ctx_ok k (sr_ctx req) -> (forall id, typed_region (nt_chan s id)) ->
  exists req' out s' k', update_conn h req s = Done (req', out, s') /\ sr_netchan req' = sr_netchan req /\ sr_type req' = sr_type req /\ sr_pid req' = sr_pid req /\
    ss_view (nt_sockets s') = <[h := Some k']> (ss_view (nt_sockets s)) /\ ctx_ok k' (sr_ctx req') /\ (forall id, typed_region (nt_chan s' id)) /\
    nt_conns s' = nt_conns s /\ nt_rg s' = nt_rg s /\ nt_dhcp s' = nt_dhcp s /\ nt_pc s' = nt_pc s.
Proof.
  intros Hk Hc Ht. unfold update_conn. rewrite (ss_get_view _ _ _ Hk). cbn [pbind]. destruct (Ht (sr_netchan req)) as (T1 & T2 & T3).
  destruct (update_tcp_total (nt_now_us s) k (nt_iface s) (sr_ctx req) (nt_chan s (sr_netchan req)) Hc T1 T2 T3) as (p & -> & Hev & _). cbn [pbind]. pose proof (ev_ok _ _ Hev) as [E1 E2 E3 E4].
  do 3 eexists. exists (p_sock p). split; [done |]. split_and!; try done; destruct (should_wake_user (p_out p)); try done; cbn [set_nt_wakes set_nt_chan set_nt_sockets nt_sockets nt_chan]; try (by apply (ss_put_view h k)).
  all: intros id; destruct (decide (id = sr_netchan req)); [by split_and! | apply Ht].
Qed.

(** The connection [h] with a new record and the socket moved on to [k]. *)
Lemma conn_updated s s1 h req req' k' : net_ok s -> bm_get h (nt_conns s) = Some req -> sr_netchan req' = sr_netchan req ->
  ss_view (nt_sockets s1) = <[h := Some k']> (ss_view (nt_sockets s)) -> ctx_ok k' (sr_ctx req') -> (forall id, typed_region (nt_chan s1 id)) ->
  nt_conns s1 = bm_insert h req' (nt_conns s) -> nt_rg s1 = nt_rg s -> nt_dhcp s1 = nt_dhcp s -> net_ok s1.
Proof.
  intros [[P1 P2 P3 P4 P5] [T1 T2 T3]] Hh En Ess Hc Ht Ec Er Ed. destruct (proj1 (P3 h) ltac:(by rewrite Hh)) as [k Hk]. split; split; rewrite ?Ec, ?Ess, ?Er, ?Ed; try done.
  - by apply bm_insert_sorted.
  - rewrite lookup_insert_ne by congruence. done.
  - intros j. rewrite bm_get_insert. destruct (decide (j = h)) as [-> | Hne]; [rewrite lookup_insert_eq; split; [by eexists | done] | rewrite lookup_insert_ne by done; apply P3].
  - intros j r kk. rewrite bm_get_insert. destruct (decide (j = h)) as [-> | Hne]; [rewrite lookup_insert_eq; by intros [= <-] [= <-] | rewrite lookup_insert_ne by done; apply P4].
  - by rewrite P5, (bm_insert_same sr_netchan h req).
Qed.

Lemma update_conns_ok l : forall s, net_ok s -> fits (nt_rg s) -> NoDup (fst <$> l) -> (forall h req, (h, req) ∈ l -> bm_get h (nt_conns s) = Some req) ->
  exists s', update_conns l s = Done s' /\ net_good s s' /\ nt_pc s' = nt_pc s /\ nt_rg s' = nt_rg s /\ (forall h, sr_netchan <$> bm_get h (nt_conns s') = sr_netchan <$> bm_get h (nt_conns s)).
Proof.
  induction l as [| [h req] l IH]; intros s Hok Hf Hnd Hin; [exists s; by split_and!; [| apply net_good_refl | ..] |]. rewrite fmap_cons in Hnd. apply NoDup_cons in Hnd as [Hnh Hnd]. cbn [update_conns].
  assert (exists s', update_conns l s = Done s' /\ net_good s s' /\ nt_pc s' = nt_pc s /\ nt_rg s' = nt_rg s /\ (forall h, sr_netchan <$> bm_get h (nt_conns s') = sr_netchan <$> bm_get h (nt_conns s))) as Hskip.
  { apply IH; try done. intros j r Hj. apply Hin. by right. }
  destruct (region_revoked _ _); [done |]. destruct (negb _); [done |]. clear Hskip. pose proof (Hin h req ltac:(by left)) as Hh. pose proof Hok as [Hp Hs].
  destruct (proj1 (np_socket _ Hp h) ltac:(by rewrite Hh)) as [k Hk]. rewrite (ss_get_view _ _ _ Hk). cbn [pbind].
  destruct (update_conn_ok s h req k Hk (np_ctx _ Hp _ _ _ Hh Hk) (ns_typed _ Hs)) as (req' & out & s1 & k' & -> & En & _ & _ & Ess & Hc & Ht & Ec & Er & Ed & Ep). cbn [pbind].
  rewrite (ss_get_view h k') by (by rewrite Ess, lookup_insert_eq). cbn [pbind]. set (s2 := set_nt_second _ _).
  assert (net_ok s2) as Hok2 by (apply (conn_updated s s2 h req req' k'); try done; cbn; by rewrite Ec). assert (nt_rg s2 = nt_rg s) as Er2 by done.
  assert (forall j, bm_get j (nt_conns s2) = if decide (j = h) then Some req' else bm_get j (nt_conns s)) as Hg2 by (intros j; unfold s2; cbn [set_nt_second set_nt_conns nt_conns]; by rewrite Ec, bm_get_insert).
  destruct (IH s2 Hok2) as (s' & -> & Hg & Ep' & Er' & Hrest); [by rewrite Er2 | done | |].
  { intros j r Hj. rewrite Hg2, decide_False; [apply Hin; by right |]. intros ->. apply Hnh. by apply (list_elem_of_fmap_2 fst _ (h, r)). }
  exists s'. split_and!; [done | | by rewrite Ep' | by rewrite Er' |].
  - destruct Hg as [G1 G2 G3 G4]. split; try done; [by rewrite <- Er2 | by rewrite G4].
  - intros j. rewrite Hrest, Hg2. destruct (decide (j = h)) as [-> | _]; [by rewrite Hh; cbn; rewrite En | done].
Qed.
(** *** Requests *)

Lemma new_ctx_ok k b size : ctx_ok (S := S) (I := I) k (ChannelCtx_new b size).
Proof. by split. Qed.

Lemma elem_of_queue (ls : list (list SocketReq)) q l req : ls !! q = Some l -> req ∈ l -> req ∈ concat ls.
Proof. intros Hq Hr. apply list_elem_of_In, in_concat. exists l. split; [apply list_elem_of_In; by eapply list_elem_of_lookup_2 | by apply list_elem_of_In]. Qed.

Lemma elem_of_dequeued (ls : list (list SocketReq)) q r l req : ls !! q = Some (r :: l) -> req ∈ concat (<[q := l]> ls) -> req ∈ concat ls.
Proof.
  intros Hq. rewrite !list_elem_of_In, !in_concat. intros (x & Hx & Hr). apply list_elem_of_In in Hx. apply list_elem_of_lookup_1 in Hx as [j Hj]. destruct (decide (j = q)) as [-> | Hne].
  - rewrite list_lookup_insert_eq in Hj by (by eapply lookup_lt_Some). injection Hj as <-. exists (r :: l). split; [apply list_elem_of_In; by eapply list_elem_of_lookup_2 | by right].
  - rewrite list_lookup_insert_ne in Hj by done. exists x. split; [apply list_elem_of_In; by eapply list_elem_of_lookup_2 | done].
Qed.

(** A new connection [h], once its request has left the queue [q]. *)
Lemma conn_added s s' q req req' l h k : net_ok s -> fits (nt_rg s) -> rg_socket_reqs (nt_rg s) !! q = Some (req :: l) -> bm_get h (nt_conns s) = None -> h <> nt_dhcp s ->
  sr_netchan req' = sr_netchan req -> ss_view (nt_sockets s') = <[h := Some k]> (ss_view (nt_sockets s)) -> ctx_ok k (sr_ctx req') -> (forall id, typed_region (nt_chan s' id)) ->
  nt_conns s' = bm_insert h req' (nt_conns s) -> nt_rg s' = net_take q (nt_rg s) -> nt_dhcp s' = nt_dhcp s -> net_good s s'.
Proof.
  intros [[P1 P2 P3 P4 P5] [T1 T2 T3]] Hf Hq Hnc Hd En' Ev Hc Ht Ec Er Ed. destruct (net_take_moves _ _ _ _ T2 Hf Hq) as (Hm & En & Eq & Ea). split; [| | by rewrite Er | done].
  - split; rewrite ?Ec, ?Ev, ?Er, ?Ed.
    + by apply bm_insert_sorted.
    + by rewrite lookup_insert_ne.
    + intros j. rewrite bm_get_insert. destruct (decide (j = h)) as [-> | Hne]; [rewrite lookup_insert_eq; split; [by eexists | done] | rewrite lookup_insert_ne by done; apply P3].
    + intros j r kk. rewrite bm_get_insert. destruct (decide (j = h)) as [-> | Hne]; [rewrite lookup_insert_eq; by intros [= <-] [= <-] | rewrite lookup_insert_ne by done; apply P4].
    + rewrite En, (bm_insert_perm h req' _ (bm_get_none _ _ Hnc)), P5. cbn [fmap list_fmap snd]. rewrite En'. symmetry. apply Permutation_cons_append.
  - split; rewrite ?Er; [done | apply Hm |]. rewrite Eq. intros r Hr. apply T3. by eapply elem_of_dequeued.
Qed.

(** A request of another kind goes. *)
Lemma req_dropped s q req l : net_ok s -> fits (nt_rg s) -> rg_socket_reqs (nt_rg s) !! q = Some (req :: l) ->
  exists s', drop_req req (set_nt_rg (net_take q (nt_rg s)) s) = Done s' /\ net_good s s' /\ nt_pc s' = nt_pc s /\ rg_socket_reqs (nt_rg s') = <[q := l]> (rg_socket_reqs (nt_rg s)).
Proof.
  intros [[P1 P2 P3 P4 P5] [T1 T2 T3]] Hf Hq. destruct (net_take_moves _ _ _ _ T2 Hf Hq) as (Hm & En & Eq & Ea). unfold drop_req. cbn [set_nt_rg nt_rg]. rewrite En. destruct (list_find _ _) as [[i id] |] eqn:Ef.
  2: { apply list_find_None in Ef. rewrite Forall_forall in Ef. destruct (Ef (sr_netchan req)); [set_solver | done]. }
  apply list_find_Some in Ef as (Hi & -> & _). rewrite <- En in Hi. destruct (net_drop_moves _ _ _ (nm_held _ _ Hm) (nm_fits _ _ Hm) Hi) as (rg & -> & Hm2 & En2 & Eq2). cbn [pbind].
  eexists. split; [done |]. split_and!; [| done | cbn; by rewrite Eq2, Eq]. split; [split; try done | split; cbn [set_nt_rg nt_rg nt_chan] | by eapply net_moves_trans | done].
  - change (rg_net rg ≡ₚ (fun e => sr_netchan e.2) <$> nt_conns s). rewrite En2, <- P5. apply (Permutation_cons_inv (a := sr_netchan req)). rewrite <- (delete_Permutation _ _ _ Hi), En. symmetry. apply Permutation_cons_append.
  - done.
  - apply Hm2.
  - rewrite Eq2, Eq. intros r Hr. apply T3. by eapply elem_of_dequeued.
Qed.

(** A request is served: it becomes a connection, or it is of another kind and goes. *)
Lemma serve_req_ok s q req l : net_ok s -> fits (nt_rg s) -> rg_socket_reqs (nt_rg s) !! q = Some (req :: l) ->
  exists s', serve_req req (set_nt_rg (net_take q (nt_rg s)) s) = Done s' /\ net_good s s' /\ nt_pc s' = nt_pc s /\ rg_socket_reqs (nt_rg s') = <[q := l]> (rg_socket_reqs (nt_rg s)).
Proof.
  intros Hok Hf Hq. destruct (req_dropped s q req l Hok Hf Hq) as (s0 & E0 & H0). unfold serve_req. destruct (Z.eqb_spec (sr_type req) 0) as [Hty | Hty]; cbn [negb]; [| by exists s0]. clear s0 E0 H0.
  pose proof Hok as [Hp Hs]. destruct (net_take_moves _ _ _ _ (ns_held _ Hs) Hf Hq) as (_ & _ & Eq & _). cbn [set_nt_rg nt_sockets]. set (sock := sk_new _ _).
  destruct (ss_add_view sock (nt_sockets s)) as [Hnew Hview]. destruct (ss_add sock (nt_sockets s)) as [h ss]. cbn [fst snd] in Hnew, Hview. set (s2 := set_nt_sockets ss _).
  assert (bm_get h (nt_conns s) = None) as Hnc by (destruct (bm_get h (nt_conns s)) eqn:E; [| done]; destruct (proj1 (np_socket _ Hp h) ltac:(by rewrite E)) as [k Hk]; congruence).
  assert (h <> nt_dhcp s) as Hd by (intros ->; by rewrite (np_dhcp _ Hp) in Hnew). destruct (ns_fresh _ Hs req) as (b & size & Ectx); [eapply elem_of_queue; [exact Hq | by left] |].
  assert (forall req' k' s3, sr_netchan req' = sr_netchan req -> ss_view (nt_sockets s3) = <[h := Some k']> (ss_view (nt_sockets s)) -> ctx_ok k' (sr_ctx req') -> (forall id, typed_region (nt_chan s3 id)) ->
    nt_conns s3 = nt_conns s -> nt_rg s3 = net_take q (nt_rg s) -> nt_dhcp s3 = nt_dhcp s -> nt_pc s3 = nt_pc s -> forall s4, s4 = set_nt_conns (bm_insert h req' (nt_conns s3)) s3 ->
    exists s', Done (if Z.of_nat (length (nt_assoc s4)) <? ASSOC_CAP - 1 then set_nt_assoc (nt_assoc s4 ++ [(sr_pid req', h)]) s4 else s4) = Done s' /\
      net_good s s' /\ nt_pc s' = nt_pc s /\ rg_socket_reqs (nt_rg s') = <[q := l]> (rg_socket_reqs (nt_rg s))) as Hdone.
  { intros req' k' s3 En' Ev Hc Ht Ec Er Ed Ep s4 ->. eexists. split; [done |]. split_and!; [eapply (conn_added s _ q req req' l h k'); try done | ..]; destruct (_ <? _); cbn; rewrite ?Ec, ?Er; done. }
  destruct (region_revoked (sr_netchan req) s2); [by apply (Hdone req sock s2); try done; [rewrite Ectx; apply new_ctx_ok | apply Hs] |].
  destruct (update_conn_ok s2 h req sock) as (req' & out & s3 & k' & -> & E1 & _ & E2 & Ess & Hc & Ht & Ec & Er & Ed & Ep); [cbn; by rewrite Hview, lookup_insert_eq | rewrite Ectx; apply new_ctx_ok | apply Hs |].
  cbn [pbind fst snd]. apply (Hdone req' k' s3); try done. rewrite Ess. cbn [s2 set_nt_sockets nt_sockets]. by rewrite Hview, insert_insert_eq.
Qed.
Lemma serve_queue_ok n q : forall s l, net_ok s -> fits (nt_rg s) -> rg_socket_reqs (nt_rg s) !! q = Some l -> (length l <= n)%nat ->
  exists s', serve_queue n q s = Done s' /\ net_good s s' /\ nt_pc s' = nt_pc s /\ rg_socket_reqs (nt_rg s') = <[q := []]> (rg_socket_reqs (nt_rg s)).
Proof.
  induction n as [| n IH]; intros s l Hok Hf Hq Hn; (destruct l as [| req l]; [assert (<[q := []]> (rg_socket_reqs (nt_rg s)) = rg_socket_reqs (nt_rg s)) as E by (by apply list_insert_id) |]).
  - exists s. split_and!; try done. by apply net_good_refl.
  - cbn in Hn. lia.
  - exists s. cbn [serve_queue]. rewrite Hq. split_and!; try done. by apply net_good_refl.
  - cbn [serve_queue]. rewrite Hq. destruct (serve_req_ok s q req l Hok Hf Hq) as (s1 & -> & Hg & Ep & Er). cbn [pbind].
    destruct (IH s1 l) as (s' & -> & Hg' & Ep' & Er'); [by eapply good_ok | by eapply good_fits | rewrite Er; apply list_lookup_insert_eq; by eapply lookup_lt_Some | cbn in Hn; lia |].
    exists s'. split_and!; [done | by eapply net_good_trans | by rewrite Ep' |]. rewrite Er', Er. apply list_insert_insert_eq.
Qed.

Lemma serve_queues_ok l : forall s, net_ok s -> fits (nt_rg s) -> (forall q, q ∈ l -> (q < length (rg_socket_reqs (nt_rg s)))%nat) ->
  exists s', serve_queues l s = Done s' /\ net_good s s' /\ nt_pc s' = nt_pc s /\ length (rg_socket_reqs (nt_rg s')) = length (rg_socket_reqs (nt_rg s)) /\
    (forall q x, q ∈ l \/ rg_socket_reqs (nt_rg s) !! q = Some [] -> rg_socket_reqs (nt_rg s') !! q = Some x -> x = []).
Proof.
  induction l as [| q l IH]; intros s Hok Hf Hl.
  { exists s. split_and!; try done; [by apply net_good_refl |]. intros q x [Hq | ->]; [by apply not_elem_of_nil in Hq | by intros [=]]. }
  cbn [serve_queues]. destruct (lookup_lt_is_Some_2 _ _ (Hl q ltac:(by left))) as [x Hq]. rewrite Hq. change (default [] (Some x)) with x.
  destruct (serve_queue_ok (length x) q s x Hok Hf Hq ltac:(lia)) as (s1 & -> & Hg & Ep & Er). cbn [pbind].
  destruct (IH s1) as (s' & -> & Hg' & Ep' & Elen & Hempty); [by eapply good_ok | by eapply good_fits | intros j Hj; rewrite Er, length_insert; apply Hl; by right |].
  exists s'. split_and!; [done | by eapply net_good_trans | by rewrite Ep' | by rewrite Elen, Er, length_insert |]. intros j y Hj. apply Hempty. rewrite Er. destruct (decide (j = q)) as [-> | Hne].
  - right. apply list_lookup_insert_eq. by eapply lookup_lt_Some.
  - rewrite list_lookup_insert_ne by done. destruct Hj as [[-> |]%elem_of_cons | ?]; [done | by left | by right].
Qed.

(** What a phase does. *)
Definition phase_done (s s' : NetThread) : Prop :=
  match nt_pc s with
  | NPoll => nt_pc s' = NDelete /\ nt_conns s' = nt_conns s
  | NDelete => nt_pc s' = NPrune /\ forall h, h ∉ nt_deletions s -> bm_get h (nt_conns s') = bm_get h (nt_conns s)
  | NPrune | NPrune2 => nt_pc s' = (match nt_pc s with NPrune => NUpdate | _ => NPoll2 end) /\
      forall h, bm_get h (nt_conns s') = match bm_get h (nt_conns s) with Some req => if region_revoked (sr_netchan req) s then None else Some req | None => None end
  | NUpdate => nt_pc s' = NPrune2 /\ forall h, sr_netchan <$> bm_get h (nt_conns s') = sr_netchan <$> bm_get h (nt_conns s)
  | NPoll2 => nt_pc s' = NRequests /\ nt_conns s' = nt_conns s
  | NRequests => nt_pc s' = NPoll /\ concat (rg_socket_reqs (nt_rg s')) = []
  end.

Lemma concat_empty (ls : list (list SocketReq)) : (forall q x, ls !! q = Some x -> x = []) -> concat ls = [].
Proof. intros He. induction ls as [| x ls IH]; [done |]. cbn. rewrite (He 0%nat x eq_refl). apply IH. intros q y Hq. by apply (He (Datatypes.S q)). Qed.

Lemma good_pc s s' pc : net_good s s' -> net_good s (set_nt_pc pc s').
Proof. intros [[? ? ? ? ?] [? ? ?] ? ?]. by split. Qed.

Lemma k_net_step_ok s : net_ok s -> fits (nt_rg s) -> exists s', k_net_step s = Done s' /\ net_good s s' /\ phase_done s s'.
Proof.
  intros Hok Hf. unfold k_net_step, phase_done. destruct (nt_pc s) eqn:Epc.
  - destruct (poll_iface_ok POLL_TRIES (read_time s)) as (s' & -> & Hg & Ec & _); [destruct Hok as [[? ? ? ? ?] [? ? ?]]; by split | done |]. cbn [pbind]. eexists. split; [done |]. split; [| done]. apply good_pc. by destruct Hg.
  - destruct (drain_deletions_ok (nt_deletions s) (set_nt_deletions [] s)) as (s' & -> & Hg & _ & Hc); [destruct Hok as [[? ? ? ? ?] [? ? ?]]; by split | done |]. cbn [pbind]. eexists. split; [done |]. split; [| done]. apply good_pc. by destruct Hg.
  - destruct (prune_ok s Hok Hf) as (s' & -> & Hg & _ & Hc). cbn [pbind]. eexists. split; [done |]. split; [by apply good_pc | done].
  - destruct (update_conns_ok (nt_conns s) (set_nt_second false (set_nt_now_us (nt_now s / 10) s))) as (s' & -> & Hg & _ & _ & Hc);
      [destruct Hok as [[? ? ? ? ?] [? ? ?]]; by split | done | apply bm_sorted_nodup, Hok | intros h req Hin; apply bm_get_sorted; [apply Hok | done] |].
    cbn [pbind]. eexists. split; [done |]. split; [| done]. apply good_pc. by destruct Hg.
  - destruct (prune_ok s Hok Hf) as (s' & -> & Hg & _ & Hc). cbn [pbind]. eexists. split; [done |]. split; [by apply good_pc | done].
  - assert (exists s', (if nt_second s then poll_iface POLL_TRIES s else Done s) = Done s' /\ net_good s s' /\ nt_conns s' = nt_conns s) as (s' & -> & Hg & Ec).
    { destruct (nt_second s); [| exists s; split_and!; try done; by apply net_good_refl]. destruct (poll_iface_ok POLL_TRIES s Hok Hf) as (s' & ? & ? & ? & _). by exists s'. }
    cbn [pbind]. eexists. split; [done |]. split; [| done]. apply good_pc. by destruct Hg as [[? ? ? ? ?] [? ? ?] ? ?].
  - destruct (serve_queues_ok (seq 0 (length (rg_socket_reqs (nt_rg s)))) s Hok Hf) as (s' & -> & Hg & _ & Elen & He); [intros q Hq%elem_of_seq; lia |]. cbn [pbind].
    eexists. split; [done |]. split; [by apply good_pc |]. split; [done |]. apply concat_empty. intros q x Hq. apply (He q x); [| done]. left. apply elem_of_seq. cbn in Hq. apply lookup_lt_Some in Hq. lia.
Qed.
(** ** Runs *)

Lemma net_start_ok rg chan i p procs : rg_net rg = [] -> net_shared (net_start rg chan i p procs) -> net_ok (net_start rg chan i p procs).
Proof.
  intros Hn Hs. split; [| done]. unfold net_start. destruct (ss_dhcp_view ss_new) as [Hnew Hv]. destruct (ss_add_dhcp ss_new) as [h ss]. cbn [fst snd] in *.
  split; cbn [nt_conns nt_sockets nt_dhcp nt_rg]; rewrite ?Hv, ?ss_new_view.
  - constructor.
  - apply lookup_insert_eq.
  - intros j. split; [by intros [? ?] |]. intros [k Hk]. apply lookup_insert_Some in Hk as [[_ ?] | [_ Hk]]; [done |]. by rewrite lookup_empty in Hk.
  - intros ? ? ? [=].
  - by rewrite Hn.
Qed.

(** What runs beside the thread changes nothing of its own. *)
Record net_others (s s' : NetThread) : Prop := {
  no_conns : nt_conns s' = nt_conns s;
  no_sockets : nt_sockets s' = nt_sockets s;
  no_dhcp : nt_dhcp s' = nt_dhcp s;
  no_net : rg_net (nt_rg s') = rg_net (nt_rg s);
  no_shared : net_shared s';
}.

Inductive net_world : NetThread -> NetThread -> Prop :=
  | nw_thread s s' : fits (nt_rg s) -> k_net_step s = Done s' -> net_world s s'
  | nw_others s s' : net_others s s' -> net_world s s'.

Lemma net_world_ok s s' : net_world s s' -> net_ok s -> net_ok s'.
Proof.
  intros [x y Hf E | x y [E1 E2 E3 E4 Hs]] Hok.
  - destruct (k_net_step_ok x Hok Hf) as (z & E' & Hg & _). rewrite E in E'. injection E' as ->. by eapply good_ok.
  - split; [| done]. destruct Hok as [[P1 P2 P3 P4 P5] _]. split; rewrite ?E1, ?E2, ?E3, ?E4; done.
Qed.

Lemma net_reached_ok s s' : net_ok s -> rtc net_world s s' -> net_ok s'.
Proof. intros Hok Hst. revert Hok. induction Hst as [| x y z Hxy _ IH]; [done |]. intros Hok. by eapply IH, net_world_ok. Qed.

Lemma net_thread_go s (K : NetThread -> panics NetThread) Q : net_ok s -> fits (nt_rg s) ->
  (forall s', net_ok s' -> fits (nt_rg s') -> rtc net_world s s' -> exists z, K s' = Done z /\ Q z) -> exists z, pbind (k_net_step s) K = Done z /\ Q z.
Proof.
  intros Hok Hf HK. destruct (k_net_step_ok s Hok Hf) as (s1 & E & Hg & _). rewrite E. cbn [pbind]. apply HK; [by eapply good_ok | by eapply good_fits |]. by apply rtc_once, nw_thread.
Qed.

(** A turn of the loop with nobody else in between. *)
Lemma k_net_turn_ok s : net_ok s -> fits (nt_rg s) -> exists s', k_net_turn s = Done s' /\ net_ok s' /\ fits (nt_rg s') /\ rtc net_world s s'.
Proof.
  intros Hok Hf. unfold k_net_turn. do 6 (apply net_thread_go; [done | done |]; intros ? ? ? ?). destruct (k_net_step_ok s'4) as (s1 & E & Hg & _); [done | done |].
  exists s1. split; [done |]. split; [by eapply good_ok |]. split; [by eapply good_fits |]. repeat (etrans; [eassumption |]). by apply rtc_once, nw_thread.
Qed.

(** The manager's own steps on sockets are such. *)
Lemma associate_same l : forall s, nt_conns (associate l s) = nt_conns s /\ nt_sockets (associate l s) = nt_sockets s /\ nt_dhcp (associate l s) = nt_dhcp s /\ nt_rg (associate l s) = nt_rg s /\ nt_chan (associate l s) = nt_chan s.
Proof.
  induction l as [| [pid h] l IH]; intros s; [done |]. cbn [associate]. destruct (nt_socks s !! pid); [apply (IH (set_nt_socks _ s)) |]. unfold push_deletion. destruct (_ <? _); [apply (IH (set_nt_deletions _ s)) | apply IH].
Qed.

Lemma delete_sockets_same l : forall s, nt_conns (delete_sockets l s) = nt_conns s /\ nt_sockets (delete_sockets l s) = nt_sockets s /\ nt_dhcp (delete_sockets l s) = nt_dhcp s /\ nt_rg (delete_sockets l s) = nt_rg s /\ nt_chan (delete_sockets l s) = nt_chan s.
Proof.
  induction l as [| h l IH]; intros s; [done |]. cbn [delete_sockets]. unfold push_deletion. destruct (_ <? _); [apply (IH (set_nt_deletions _ s)) | apply (IH (set_nt_orphans _ s))].
Qed.

Lemma manager_sockets_others s pid : net_shared s -> net_others s (check_net s) /\ net_others s (end_sockets pid s).
Proof.
  intros [T1 T2 T3]. unfold check_net, end_sockets. destruct (associate_same (nt_assoc s) (set_nt_assoc [] s)) as (E1 & E2 & E3 & E4 & E5).
  destruct (delete_sockets_same (rev (default [] (nt_socks s !! pid))) (set_nt_socks (delete pid (nt_socks s)) s)) as (F1 & F2 & F3 & F4 & F5).
  split; (split; rewrite ?E1, ?E2, ?E3, ?E4, ?F1, ?F2, ?F3, ?F4; try done; split; by rewrite ?E4, ?E5, ?F4, ?F5).
Qed.

(** So are the operations on regions of a process alone. *)
Lemma regions_arcs_held rt pid loc rg : regions_ok rt pid loc rg -> arcs_held rg.
Proof. intros [_ Hc] id. pose proof (co_count _ _ _ Hc id) as E. unfold strong. rewrite <- E. unfold holders. rewrite lcount_app. lia. Qed.

End net.
Arguments NetThread I P SS : clear implicits.

(** ** A stack *)

(** Sockets in a table, where a new one takes the first free slot. *)
Definition first_free (m : gmap Z (option toy)) : Z := default (Z.of_nat (size m)) (snd <$> list_find (fun h => m !! h = None) (seqZ 0 (Z.of_nat (size m) + 1))).

#[export] Instance toy_stack : NetStack toy unit unit (gmap Z (option toy)) := {|
  ss_new := ∅;
  ss_add := fun s m => (first_free m, <[first_free m := Some s]> m);
  ss_add_dhcp := fun m => (first_free m, <[first_free m := None]> m);
  ss_remove := fun h m => match m !! h with Some _ => Done (delete h m) | None => Panic end;
  ss_get := fun h m => match m !! h with Some (Some s) => Done s | _ => Panic end;
  ss_put := fun h s m => <[h := Some s]> m;
  sk_new := fun _ r => mkToy 0 (snd (fst r)) false false;
  sk_send_queue := fun _ => 0;
  if_poll := fun _ i p m => (true, i, p, m);
  if_poll_at := fun _ _ _ => None;
  dhcp_poll := fun h m => match m !! h with Some None => Done (None, m) | _ => Panic end;
  if_clear_addrs := fun i => i;
  if_push_addr := fun _ i => Some i;
  if_add_default_route := fun _ i => Some i;
  if_remove_default_route := fun i => i;
|}.

Lemma first_free_spec m : m !! first_free m = None.
Proof.
  unfold first_free. destruct (list_find _ _) as [[i h] |] eqn:E; cbn; [by apply list_find_Some in E as (_ & ? & _) |]. apply list_find_None in E. exfalso.
  assert (list_to_set (seqZ 0 (Z.of_nat (size m) + 1)) ⊆@{gset Z} dom m) as Hsub.
  { intros h Hh. apply elem_of_list_to_set in Hh. rewrite Forall_forall in E. pose proof (E h Hh) as Hn. apply elem_of_dom. by destruct (m !! h). }
  apply subseteq_size in Hsub. rewrite size_dom, size_list_to_set, length_seqZ in Hsub by apply NoDup_seqZ. lia.
Qed.

#[export] Instance toy_stack_laws : NetStackLaws (S := toy) (I := unit) (P := unit) (SS := gmap Z (option toy)).
Proof.
  refine {| ss_view := fun m : gmap Z (option toy) => m |}; cbn.
  - done.
  - intros s m. by split; [apply first_free_spec |].
  - intros m. by split; [apply first_free_spec |].
  - intros h m [x ->]. by eexists.
  - by intros h s m ->.
  - done.
  - intros h m ->. by do 2 eexists.
  - intros _ _ _ m h. by destruct (m !! h) as [[s |] |].
  - done.
  - done.
Defined.

(** ** Two processes *)

Definition vm2 : Vm := mkVm (kernel_pages vm0) (user_pages vm0) (table_pages vm0) ∅ ∅ {[7 := []; 8 := []]}.
Definition root_of (pid : Z) : RootTable := if pid =? 7 then ex_rt else rt_identity 0x80301000.
Definition rg2 : Regions := mkRegions vm2 ∅ 0 ∅ [[]] [[]] [] [].
Definition chan0 : Z -> NetChannel := fun _ => ex_region.
Definition world0 : NetThread unit unit (gmap Z (option toy)) := net_start rg2 chan0 tt tt {[7 := []; 8 := []]}.

Definition turn (s : NetThread unit unit (gmap Z (option toy))) : panics (NetThread unit unit (gmap Z (option toy))) := k_net_turn 0 (fun _ => 0) s.

(** A process opens a channel, the thread serves it and the manager notes the socket. *)
Definition opens (pid i : Z) (s : NetThread unit unit (gmap Z (option toy))) : panics (NetThread unit unit (gmap Z (option toy))) :=
  r <-! run_nc_create_req 0 (root_of pid) (nc_req i 1) pid (nt_rg s) ;;
  s <-! turn (set_nt_rg (snd r) s) ;;
  Done (check_net s).

Definition closes (pid fd : Z) (s : NetThread unit unit (gmap Z (option toy))) : panics (NetThread unit unit (gmap Z (option toy))) :=
  r <-! run_close_req 0 (root_of pid) (mkCloseHandleReq fd) pid (nt_rg s) ;;
  turn (set_nt_rg (snd r) s).

(** Process 7 opens a channel and closes it, and process 8 opens one. *)
Definition two_channels : panics (NetThread unit unit (gmap Z (option toy))) :=
  s <-! opens 7 0 world0 ;;
  s <-! closes 7 0 s ;;
  opens 8 1 s.

Definition connected (pid : Z) (s : NetThread unit unit (gmap Z (option toy))) : bool :=
  existsb (fun e => ((sr_pid e.2 =? pid) && negb (region_revoked (sr_netchan e.2) s))%bool) (nt_conns s).

Definition open_channel (pid fd : Z) (s : NetThread unit unit (gmap Z (option toy))) : bool :=
  match (rg_handles (nt_rg s) !! pid ≫= ph_get fd) ≫= handle_arc with
  | Some id => negb (region_revoked id s)
  | None => false
  end.

(** The end of a process can cut the connection of another: [close] does not tell the
    manager that the socket is gone, so the manager keeps its handle; the stack gives the
    handle to the next socket, and when the first process ends the manager has that one
    deleted. The second process keeps its descriptor and its region, with no connection. *)
Theorem exit_cuts_other : exists s s', two_channels = Done s /\ connected 8 s = true /\ open_channel 8 0 s = true /\
  turn (end_sockets 7 s) = Done s' /\ connected 8 s' = false /\ open_channel 8 0 s' = true.
Proof.
  assert (match two_channels with
          | Done s => match turn (end_sockets 7 s) with
                      | Done s' => (connected 8 s && open_channel 8 0 s && negb (connected 8 s') && open_channel 8 0 s')%bool
                      | Panic => false end
          | Panic => false end = true) as H by (vm_compute; reflexivity).
  destruct two_channels as [s |]; [| discriminate H]. exists s. destruct (turn (end_sockets 7 s)) as [s' |]; [| discriminate H]. exists s'. to_prop. split_and!; done.
Qed.

(** ** One channel *)

Definition rg1 : Regions := match run_nc_create_req 0 ex_rt (nc_req 0 1) 7 rg0 with Done (_, s) => s | Panic => rg0 end.
#[local] Notation one_channel := (net_start (SS := gmap Z (option toy)) rg1 chan0 tt tt {[7 := []]}).

Lemma nc_req_fits : nc_req_ok (nc_req 0 1).
Proof. split; [vm_compute; reflexivity | cbn; done]. Qed.

Lemma rg1_ok : regions_ok ex_rt 7 [] rg1.
Proof.
  destruct (nc_create_ok ex_rt 7 rg0 (nc_req 0 1) 0 rg0_ok nc_req_fits (rg0_room 1 ltac:(lia))) as (ret & fd & s' & E & Hok & _). unfold rg1. rewrite E. apply Hok. intros _. vm_compute. reflexivity.
Qed.

Lemma rg1_queue : rg_socket_reqs rg1 = [[mkSocketReq 0 0 7 (ChannelCtx_new (ServerRetain 80) 4096)]] /\ rg_net rg1 = [] /\ rg_rings rg1 = [[]].
Proof. split_and!; vm_compute; reflexivity. Qed.

Lemma one_channel_shared : net_shared one_channel.
Proof.
  destruct rg1_queue as (Eq & En & Er). pose proof (regions_arcs_held _ _ _ _ rg1_ok) as Hh. unfold net_start. destruct (ss_add_dhcp ss_new) as [h ss]. split; cbn [nt_chan nt_rg].
  - intros id. apply ex_region_typed.
  - exact Hh.
  - rewrite Eq. cbn [concat app]. intros req Hr. apply list_elem_of_singleton in Hr as ->. by eexists _, _.
Qed.

Lemma fits_one rg req : rg_socket_reqs rg = [[req]] -> rg_net rg = [] -> rg_rings rg = [[]] -> fits 0 rg.
Proof. intros Eq En Er. exists []. unfold queued. rewrite Eq, En, Er. by split. Qed.

Lemma one_channel_fits : fits 0 (nt_rg one_channel).
Proof. destruct rg1_queue as (Eq & En & Er). exact (fits_one rg1 _ Eq En Er). Qed.

