(* ===== verification/UserThread.v ===== *)
(** * The memory of user threads

    Models the creation and the release of the threads of a process:
    - [SlotAlloc], [MappingKind] and [UserMapping] of [process/src/lib.rs];
    - [allocate_user_thread_stack], [map_stack], [map_trap_frame], [create_new_thread],
      [add_new_thread_to_process], [run_create_thread_req], [next_tid] and
      [dealloc_thread] of [kmain/src/kernel/mod.rs].

    Frames, tables and memory are those of [Mmap.v], credentials and registered threads
    those of [Creds.v]. A [Box<Thread>] is the thread, the registry maps its number to
    it, and the scheduler's queue is a list of numbers. Translation caches are flushed
    where the tables change ([Shootdown.v]) and are left out here. *)

From Stdlib Require Import Sorted.
From stdpp Require Import base list option numbers sets gmap sorting.
From S2P Require Import Prelude Text Buddy Sv48 PageTable Translate Mapping Layout Abi Perms Thread Completion Work Syscall Process Creds UserMem Mmap.
#[local] Open Scope Z_scope.

(** ** Thread slots *)

Definition SLOT_CAPACITY : Z := 256.
Definition SLOT_WORDS : nat := 4.

(** [SlotAlloc::bits]. *)
Definition SlotAlloc : Type := list Z.
Definition SlotAlloc_new : SlotAlloc := replicate SLOT_WORDS 0.

Fixpoint trailing_ones (n : nat) (w : Z) : Z :=
  match n with O => 0 | S n => if Z.odd w then 1 + trailing_ones n (Z.div2 w) else 0 end.

Fixpoint slot_alloc (i : Z) (bits : SlotAlloc) : option Z * SlotAlloc :=
  match bits with
  | [] => (None, [])
  | w :: rest =>
      if negb (w =? W64 - 1) then
        let bit := trailing_ones 64 w in
        (Some (i * 64 + bit), Z.lor w (Z.shiftl 1 bit) :: rest)
      else let '(o, rest) := slot_alloc (i + 1) rest in (o, w :: rest)
  end.

Definition slot_free (slot : Z) (bits : SlotAlloc) : panics SlotAlloc :=
  match bits !! Z.to_nat (slot / 64) with
  | None => Panic
  | Some w => Done (<[Z.to_nat (slot / 64) := Z.land w (wnot (Z.shiftl 1 (slot mod 64)))]> bits)
  end.

Definition is_allocated (slot : Z) (bits : SlotAlloc) : panics bool :=
  match bits !! Z.to_nat (slot / 64) with
  | None => Panic
  | Some w => Done (negb (Z.land w (Z.shiftl 1 (slot mod 64)) =? 0))
  end.

(** ** Mappings *)

Inductive MappingKind := KElf | KAnon | KStack (slot : Z) | KGuard (slot : Z) | KTrapFrame (slot : Z) | KTls (slot : Z) | KNetCh (fd : Z).

Definition kind_slot (k : MappingKind) : option Z :=
  match k with KStack s | KGuard s | KTrapFrame s | KTls s => Some s | _ => None end.

Record UserMapping := mkUserMapping { um_vaddr : Z; um_len : Z; um_perms : Z; um_backing : option PhysBacking; um_kind : MappingKind }.

(** What [Process] keeps for its threads. *)
Record ProcMem := mkProcMem {
  pm_root : RootTable;
  pm_root_pa : Z;
  pm_slots : SlotAlloc;
  pm_maps : list (Z * UserMapping);
  pm_tls_template : option (list Z);
  pm_tls_memsz : Z;
  pm_thread_count : Z;
}.

Definition eta_pm (p : ProcMem) : ProcMem := mkProcMem (pm_root p) (pm_root_pa p) (pm_slots p) (pm_maps p) (pm_tls_template p) (pm_tls_memsz p) (pm_thread_count p).
Definition set_pm_slots : SlotAlloc -> ProcMem -> ProcMem := ltac:(set_field eta_pm pm_slots).
Definition set_pm_maps : list (Z * UserMapping) -> ProcMem -> ProcMem := ltac:(set_field eta_pm pm_maps).
Definition set_pm_thread_count : Z -> ProcMem -> ProcMem := ltac:(set_field eta_pm pm_thread_count).

Definition insert_mapping (m : UserMapping) (p : ProcMem) : ProcMem := set_pm_maps (bm_insert (um_vaddr m) m (pm_maps p)) p.

Definition mappings_for_slot (slot : Z) (p : ProcMem) : list Z :=
  fst <$> filter (fun e => kind_slot (um_kind e.2) = Some slot) (pm_maps p).

(** ** State *)

(** [tk_cred]: the processes and the registry; [tk_ready]: the threads queued to run. *)
Record Tk := mkTk {
  tk_vm : Vm;
  tk_mem : gmap Z ProcMem;
  tk_cred : CredState;
  tk_current_tid : Z;
  tk_ready : list Z;
  tk_cpu_count : Z;
}.

Definition eta_tk (k : Tk) : Tk := mkTk (tk_vm k) (tk_mem k) (tk_cred k) (tk_current_tid k) (tk_ready k) (tk_cpu_count k).
Definition set_tk_vm : Vm -> Tk -> Tk := ltac:(set_field eta_tk tk_vm).
Definition set_tk_mem : gmap Z ProcMem -> Tk -> Tk := ltac:(set_field eta_tk tk_mem).
Definition set_tk_cred : CredState -> Tk -> Tk := ltac:(set_field eta_tk tk_cred).
Definition set_tk_current_tid : Z -> Tk -> Tk := ltac:(set_field eta_tk tk_current_tid).
Definition set_tk_ready : list Z -> Tk -> Tk := ltac:(set_field eta_tk tk_ready).

Definition put_mem (pid : Z) (p : ProcMem) (k : Tk) : Tk := set_tk_mem (<[pid := p]> (tk_mem k)) k.

Definition all_harts_mask (k : Tk) : Z := if 64 <=? tk_cpu_count k then W64 - 1 else Z.shiftl 1 (tk_cpu_count k) - 1.

(** The search for a number no registered thread has. *)
Fixpoint next_tid_loop (fuel : nat) (next : Z) (threads : list (Z * Thread)) : option Z :=
  match fuel with
  | O => None
  | S fuel => match bm_get next threads with None => Some next | Some _ => next_tid_loop fuel (as_u32 (next + 1)) threads end
  end.

Definition next_tid (k : Tk) : option (Z * Tk) :=
  next ← next_tid_loop (S (length (cr_threads (tk_cred k)))) (as_u32 (tk_current_tid k + 1)) (cr_threads (tk_cred k));
  Some (next, set_tk_current_tid next k).

(** ** The memory of a thread *)

Definition THREAD_TRAP_FRAME_LAYOUT : Layout := mkLayout PAGE_SIZE PAGE_SIZE.

(** A zeroed block of the user pool. *)
Definition alloc_user_zeroed (layout : Layout) (fill : gmap Z Z -> Z -> gmap Z Z) (s : Vm) : panics (option PhysBacking * Vm) :=
  match alloc_aligned (user_pages s) layout with
  | (fa, None) => Done (None, set_user_pages fa s)
  | (fa, Some pa) =>
      _ <-! window pa (lsize layout) ;;
      Done (Some (BUser pa layout), set_phys_mem (fill (zero_bytes pa (lsize layout) (phys_mem s)) pa) (set_user_pages fa s))
  end.

Definition allocate_user_thread_stack (stack_size : Z) (s : Vm) : panics (option PhysBacking * Vm) :=
  match layout_from_size_align stack_size UPROC_STACK_GRAIN with
  | None => Done (None, s)
  | Some layout => alloc_user_zeroed layout (fun m _ => m) s
  end.

Definition allocate_trap_frame (s : Vm) : option PhysBacking * Vm :=
  match alloc_aligned (kernel_pages s) THREAD_TRAP_FRAME_LAYOUT with
  | (fa, None) => (None, set_kernel_pages fa s)
  | (fa, Some pa) => (Some (BShared pa THREAD_TRAP_FRAME_LAYOUT), set_kernel_pages fa s)
  end.

Definition stack_config (va pa : Z) : MappingConfig := mkMappingConfig (perm_or_u64 PU (perm_or PR PW)) 3 UPROC_STACK_GRAIN va pa false TagNone.

Definition map_stack (rt : RootTable) (pa va stack_size : Z) (s : Vm) : panics (result unit unit * Vm) :=
  map_into rt (stack_config va pa) (wadd va stack_size) (wadd pa stack_size) s.

Definition trap_frame_config (va pa : Z) : MappingConfig := mkMappingConfig (perm_bits PR) 4 PAGE_SIZE va pa false TagNone.

Definition map_trap_frame (rt : RootTable) (pa va : Z) (s : Vm) : panics (result unit unit * Vm) :=
  map_into rt (trap_frame_config va pa) (wadd va PAGE_SIZE) (wadd pa PAGE_SIZE) s.

(** The template over the zeroed block. *)
Definition copy_template (t : option (list Z)) (size : Z) (m : gmap Z Z) (pa : Z) : gmap Z Z :=
  match t with
  | None => m
  | Some l => let l := take (Z.to_nat size) l in write_bytes pa (length l) (fun i => default 0 (l !! i)) m
  end.

(** The stack, the trap frame and the block of thread-local data of a slot, mapped; a
    failure gives the frames back and leaves what was mapped. *)
Definition thread_memory (rt : RootTable) (slot stack_size : Z) (tls_template : option (list Z)) (tls_memsz : Z) (s : Vm) : panics (option (PhysBacking * PhysBacking * option PhysBacking) * Vm) :=
  r <-! allocate_user_thread_stack stack_size s ;;
  match r with
  | (None, s) => Done (None, s)
  | (Some stack, s) =>
      match allocate_trap_frame s with
      | (None, s) => Done (None, free_backing stack s)
      | (Some tf, s) =>
          let undo s := Done (None, free_backing tf (free_backing stack s)) in
          r <-! map_stack rt (backing_pa stack) (user_stack_vaddr slot stack_size) stack_size s ;;
          match r with
          | (Err _, s) => undo s
          | (Ok _, s) =>
              r <-! map_trap_frame rt (backing_pa tf) (user_trap_frame_vaddr slot) s ;;
              match r with
              | (Err _, s) => undo s
              | (Ok _, s) =>
                  if 0 <? tls_memsz then
                    match layout_from_size_align UPROC_TLS_MAX UPROC_STACK_GRAIN with
                    | None => undo s
                    | Some layout =>
                        r <-! alloc_user_zeroed layout (copy_template tls_template (lsize layout)) s ;;
                        match r with
                        | (None, s) => undo s
                        | (Some tls, s) =>
                            r <-! map_stack rt (backing_pa tls) (user_tls_vaddr slot) (lsize layout) s ;;
                            match r with
                            | (Err _, s) => undo (free_backing tls s)
                            | (Ok _, s) => Done (Some (stack, tf, Some tls), s)
                            end
                        end
                    end
                  else Done (Some (stack, tf, None), s)
              end
          end
      end
  end.

(** The entries of [Process::maps], in the order they are made. *)
Definition thread_mappings (slot stack_size : Z) (stack tf : PhysBacking) (tls : option PhysBacking) : list UserMapping :=
  let rwu := perm_or_u64 PU (perm_or PR PW) in
  [ mkUserMapping (user_stack_guard_vaddr slot) (user_stack_guard_size stack_size) 0 None (KGuard slot);
    mkUserMapping (user_stack_vaddr slot stack_size) stack_size rwu (Some stack) (KStack slot);
    mkUserMapping (user_trap_frame_vaddr slot) PAGE_SIZE (perm_bits PR) (Some tf) (KTrapFrame slot) ]
  ++ match tls with Some b => [mkUserMapping (user_tls_vaddr slot) (lsize (backing_layout b)) rwu (Some b) (KTls slot)] | None => [] end.

(** [Satp]: Sv48, the pid, the page number of the root. *)
Definition satp_of (pid root_pa : Z) : Z := Z.lor (Z.shiftl 9 60) (Z.lor (Z.shiftl pid 44) (root_pa / PAGE_SIZE)).

(** The registers of the frame are kept with the thread, and its page as it was zeroed. *)
Definition initial_frame (entrypoint slot stack_size arg pid : Z) : TrapFrame :=
  mkTrapFrame (<[10%nat := arg]> (<[4%nat := user_tls_vaddr slot]> (<[2%nat := wsub (wadd (user_stack_vaddr slot stack_size) stack_size) 16]> (<[1%nat := entrypoint]> (replicate 32 0)))))
    (replicate 32 0) pid 0.

Definition create_new_thread (pid : Z) (rt : RootTable) (root_pa entrypoint slot stack_size allowed_affinity affinity arg : Z) (k : Tk) : panics (result Thread unit * Tk) :=
  if negb (validate_user_stack_size stack_size) then Done (Err tt, k)
  else
    let '(template, memsz) :=
      match tk_mem k !! pid with
      | Some p => if 0 <? pm_tls_memsz p then (pm_tls_template p, pm_tls_memsz p) else (None, 0)
      | None => (None, 0)
      end in
    r <-! thread_memory rt slot stack_size template memsz (tk_vm k) ;;
    match r with
    | (None, v) => Done (Err tt, set_tk_vm v k)
    | (Some (stack, tf, tls), v) =>
        let k := set_tk_vm v k in
        let k := match tk_mem k !! pid with Some p => put_mem pid (foldl (fun p m => insert_mapping m p) p (thread_mappings slot stack_size stack tf tls)) k | None => k end in
        match next_tid k with
        | None => Panic
        | Some (tid, k) =>
            let k := set_tk_vm (set_phys_mem (zero_bytes (backing_pa tf) PAGE_SIZE (phys_mem (tk_vm k))) (tk_vm k)) k in
            let p := bm_get pid (cr_procs (tk_cred k)) in
            let cred f := match p with Some p => f p | None => 0 end in
            Done (Ok (thread_new (mkThreadInit entrypoint (satp_of pid root_pa) User tid pid (initial_frame entrypoint slot stack_size arg pid) (Some slot) allowed_affinity affinity
              (match p with Some p => pr_permissions p | None => Permissions_ZERO end) (cred pr_uid) (cred pr_euid) (cred pr_suid) (cred pr_gid) (cred pr_egid) (cred pr_sgid)
              (match p with Some p => pr_stdout_redirect p | None => None end))), k)
        end
    end.

(** ** The end of a thread *)

(** [unmap_page], whose result is dropped. *)
Definition unmap_quietly (rt : RootTable) (va levels : Z) (s : Vm) : panics Vm :=
  r <-! unmap_page (pte_mem s) rt va levels ;; Done (set_pte_mem (fst r) s).

Fixpoint unmap_stack (n : nat) (rt : RootTable) (va : Z) (s : Vm) : panics Vm :=
  match n with O => Done s | S n => s <-! unmap_quietly rt va 3 s ;; unmap_stack n rt (wadd va UPROC_STACK_GRAIN) s end.

Definition unmap_mapping (rt : RootTable) (m : UserMapping) (s : Vm) : panics Vm :=
  match um_kind m with
  | KStack _ => unmap_stack (Z.to_nat ((um_len m + UPROC_STACK_GRAIN - 1) / UPROC_STACK_GRAIN)) rt (um_vaddr m) s
  | KTrapFrame _ => unmap_quietly rt (um_vaddr m) 4 s
  | KGuard _ => Done s
  | KTls _ => unmap_quietly rt (um_vaddr m) 3 s
  | KElf | KAnon | KNetCh _ => Panic
  end.

Fixpoint release_mappings (pid : Z) (vaddrs : list Z) (k : Tk) : panics Tk :=
  match vaddrs with
  | [] => Done k
  | va :: vaddrs =>
      match tk_mem k !! pid with
      | None => Panic
      | Some p =>
          match bm_get va (pm_maps p) with
          | None => release_mappings pid vaddrs k
          | Some m =>
              let k := put_mem pid (set_pm_maps (bm_remove va (pm_maps p)) p) k in
              v <-! unmap_mapping (pm_root p) m (tk_vm k) ;;
              release_mappings pid vaddrs (set_tk_vm (match um_backing m with Some b => free_backing b v | None => v end) k)
          end
      end
  end.

Definition THREAD_STACK_LAYOUT : Layout := mkLayout (2 * MB) (2 * MB).

Definition free_if (frame : option Z) (layout : Layout) (s : Vm) : Vm := match frame with Some pa => free_backing (BShared pa layout) s | None => s end.

(** The thread is out of the registry. [kernel_stack] and [kernel_trap_frame] are the
    frames a kernel thread owns; a user thread has none. *)
Definition dealloc_thread (kernel_stack kernel_trap_frame : option Z) (t : Thread) (k : Tk) : panics Tk :=
  let k := set_tk_ready (filter (fun tid => tid <> t_tid t) (tk_ready k)) k in
  match t_slot t with
  | None => if t_pid t =? 0 then Done (set_tk_vm (free_if kernel_trap_frame THREAD_TRAP_FRAME_LAYOUT (free_if kernel_stack THREAD_STACK_LAYOUT (tk_vm k))) k) else Done k
  | Some slot =>
      if t_pid t =? 0 then Done k
      else
        match tk_mem k !! t_pid t with
        | None => Done k
        | Some p =>
            k <-! release_mappings (t_pid t) (mappings_for_slot slot p) k ;;
            match tk_mem k !! t_pid t with
            | None => Panic
            | Some p => bits <-! slot_free slot (pm_slots p) ;; Done (put_mem (t_pid t) (set_pm_slots bits p) k)
            end
        end
  end.

(** ** [create_thread] *)

Definition register_thread (t : Thread) (k : Tk) : Tk :=
  set_tk_ready (tk_ready k ++ [t_tid t]) (set_tk_cred (mkCred (cr_procs (tk_cred k)) (bm_insert (t_tid t) t (cr_threads (tk_cred k)))) k).

Definition add_new_thread_to_process (pid entrypoint stack_size allowed_affinity affinity arg : Z) (k : Tk) : panics (result unit unit * Tk) :=
  match tk_mem k !! pid with
  | None => Done (Err tt, k)
  | Some p =>
      let '(slot, bits) := slot_alloc 0 (pm_slots p) in
      let k := put_mem pid (set_pm_slots bits p) k in
      match slot with
      | None => Done (Err tt, k)
      | Some slot =>
          r <-! create_new_thread pid (pm_root p) (pm_root_pa p) entrypoint slot stack_size allowed_affinity affinity arg k ;;
          match r with
          | (Err _, k) =>
              match tk_mem k !! pid with
              | None => Panic
              | Some p => bits <-! slot_free slot (pm_slots p) ;; Done (Err tt, put_mem pid (set_pm_slots bits p) k)
              end
          | (Ok t, k) =>
              match bm_get pid (cr_procs (tk_cred k)), tk_mem k !! pid with
              | Some pr, Some p =>
                  if bool_decide (t_tid t ∈ pr_threads pr) then k <-! dealloc_thread None None t k ;; Done (Err tt, k)
                  else
                    let k := set_tk_cred (cr_put pid (set_pr_threads (bt_insert (t_tid t) (pr_threads pr)) pr) (tk_cred k)) k in
                    Done (Ok tt, register_thread t (put_mem pid (set_pm_thread_count (Z.min (pm_thread_count p + 1) (2 ^ 16 - 1)) p) k))
              | _, _ => Panic
              end
          end
      end
  end.

Definition run_create_thread_req (req : CreateThreadReq) (pid parent_allowed : Z) (k : Tk) : panics (Z * Tk) :=
  let all_harts := all_harts_mask k in
  let allowed := if ct_allowed_affinity req =? 0 then parent_allowed else ct_allowed_affinity req in
  let affinity := if ct_affinity req =? 0 then allowed else ct_affinity req in
  if negb (Z.land allowed (wnot parent_allowed) =? 0) then Done (to_ret errno.EPERM, k)
  else if (negb (Z.land affinity (wnot allowed) =? 0) || (affinity =? 0) || negb (Z.land allowed (wnot all_harts) =? 0))%bool then Done (to_ret errno.EINVAL, k)
  else
    match bm_get pid (cr_procs (tk_cred k)) with
    | None => Done (to_ret errno.ESRCH, k)
    | Some _ =>
        r <-! add_new_thread_to_process pid (ct_entry req) UPROC_STACK_DEFAULT allowed affinity (ct_arg req) k ;;
        match r with
        | (Err _, k) => Done (to_ret errno.ENOMEM, k)
        | (Ok _, k) =>
            match bm_get pid (cr_procs (tk_cred k)) with
            | None => Panic
            | Some pr => match last (pr_threads pr) with Some tid => Done (tid, k) | None => Done (to_ret errno.EAGAIN, k) end
            end
        end
    end.

(** ** Building an address space

    The frames [bl] taken since a state [s0], the ranges [ml] entered into the tables,
    and what memory holds. *)

Definition pool_at (shared : bool) (s : Vm) : FrameAllocator := if shared then kernel_pages s else user_pages s.
Definition set_pool (shared : bool) (fa : FrameAllocator) (s : Vm) : Vm := if shared then set_kernel_pages fa s else set_user_pages fa s.
Definition is_shared (b : PhysBacking) : bool := match b with BShared _ _ => true | BUser _ _ => false end.
Definition backing (shared : bool) (pa : Z) (l : Layout) : PhysBacking := if shared then BShared pa l else BUser pa l.
Definition pool_blocks (shared : bool) (bl : list PhysBacking) : list (nat * Z) := block_of <$> filter (fun b => is_shared b = shared) bl.

(** A range of the tables: [rg_len] bytes from [rg_va] show the bytes from [rg_pa], by
    leaves of level [rg_level]. *)
Record Range := mkRange { rg_va : Z; rg_pa : Z; rg_len : Z; rg_level : Z }.

Definition in_range (r : Range) (va : Z) : Prop := off (rg_va r) va < rg_len r.
#[global] Instance in_range_dec r va : Decision (in_range r va).
Proof. unfold in_range. apply _. Defined.
Definition in_ranges (ml : list Range) (va : Z) : Prop := Exists (fun r => in_range r va) ml.

Record range_ok (r : Range) : Prop := {
  ro_level : 0 <= rg_level r <= 3;
  ro_va : (psize (rg_level r) | rg_va r);
  ro_len : (psize (rg_level r) | rg_len r);
  ro_bounds : 0 <= rg_va r /\ 0 <= rg_len r /\ rg_va r + rg_len r <= 2 ^ 47;
}.

Definition ranges_apart (r r' : Range) : Prop := forall va, is_u64 va -> ~ (in_range r va /\ in_range r' va).

Fixpoint all_apart (ml : list Range) : Prop :=
  match ml with [] => True | r :: ml => Forall (ranges_apart r) ml /\ all_apart ml end.

Lemma ranges_apart_sym r r' : ranges_apart r r' -> ranges_apart r' r.
Proof. intros H va Hva. specialize (H va Hva). tauto. Qed.

Lemma all_apart_perm ml ml' : ml ≡ₚ ml' -> all_apart ml -> all_apart ml'.
Proof.
  induction 1 as [| r l l' Hp IH | r r' l | l l' l'' _ IH1 _ IH2]; cbn; [done | | |].
  - intros [Hf Ha]. split; [by rewrite <- Hp | auto].
  - intros [Hf1 [Hf2 Ha]]. apply Forall_cons in Hf1 as [H1 Hf1]. split; [constructor; [by apply ranges_apart_sym | done] | done].
  - auto.
Qed.

#[global] Instance in_ranges_proper : Proper ((≡ₚ) ==> eq ==> iff) in_ranges.
Proof. intros ml ml' Hp va _ <-. unfold in_ranges. by rewrite Hp. Qed.

Section building.
Context (rt : RootTable) (s0 : Vm).

Record building (bl : list PhysBacking) (ml : list Range) (mem : Z -> Z) (s : Vm) : Prop := {
  bd_layouts : Forall (fun b => layout_ok (backing_layout b)) bl;
  bd_pool : forall sh, holds (pool_at sh s) (pool_blocks sh bl);
  bd_free : forall sh x, is_free (pool_at sh s0) x <-> is_free (pool_at sh s) x \/ in_blocks (pool_blocks sh bl) x;
  bd_tables : pt_wf (pte_mem s) rt (table_pages s);
  bd_ranges : Forall range_ok ml;
  bd_apart : all_apart ml;
  bd_shown : forall r va, r ∈ ml -> is_u64 va -> in_range r va -> virt_to_phys (pte_mem s) rt va = Done (Some (rg_pa r + off (rg_va r) va));
  bd_leaves : forall r, r ∈ ml -> range_leaves (fun _ => True) rt (rg_level r) (rg_va r) (rg_len r) (pte_mem s);
  bd_fresh : forall va, is_u64 va -> in_ranges ml va -> virt_to_phys (pte_mem s0) rt va = Done None;
  bd_else : forall va, is_u64 va -> ~ in_ranges ml va -> virt_to_phys (pte_mem s) rt va = virt_to_phys (pte_mem s0) rt va;
  bd_mem : forall x, byte_at (phys_mem s) x = mem x;
  bd_heap : heap_pages s = heap_pages s0;
}.

Lemma building_start : vm_ok rt s0 -> building [] [] (byte_at (phys_mem s0)) s0.
Proof.
  intros Hs. split; try done; [| | apply Hs | by intros r ? ?%not_elem_of_nil | by intros r ?%not_elem_of_nil | by intros va _ ?%Exists_nil].
  - intros []; apply holds_none, Hs.
  - intros sh x. split; [by left |]. intros [? | (k & p & Hin & _)]; [done |]. by apply not_elem_of_nil in Hin.
Qed.

Lemma building_vm bl ml mem s : vm_ok rt s0 -> building bl ml mem s -> vm_ok rt s.
Proof.
  intros Hs Hb. pose proof (bd_free _ _ _ _ Hb true) as Hk. pose proof (bd_free _ _ _ _ Hb false) as Hu. apply (vm_ok_mono rt s0 s Hs (bd_tables _ _ _ _ Hb)).
  - split; [apply (bd_pool _ _ _ _ Hb true) | apply (bd_pool _ _ _ _ Hb false)].
  - intros x. specialize (Hk x). specialize (Hu x). cbn in *. tauto.
Qed.

Lemma building_perm bl bl' ml ml' mem s : bl ≡ₚ bl' -> ml ≡ₚ ml' -> building bl ml mem s -> building bl' ml' mem s.
Proof.
  intros Hp Hm [H1 H2 H3 H4 H5 H6 H7 H8 H9 H10 H11 H12]. assert (forall sh, pool_blocks sh bl ≡ₚ pool_blocks sh bl') as Hpb by (intros sh; unfold pool_blocks; by rewrite Hp).
  split; try done; [by rewrite <- Hp | intros sh; by rewrite <- Hpb | | by rewrite <- Hm | by eapply all_apart_perm | intros r va; rewrite <- Hm; auto | intros r; rewrite <- Hm; auto | intros va; rewrite <- Hm; auto | intros va; rewrite <- Hm; auto].
  intros sh x. rewrite H3. f_equiv. split; intros (k & p & Hin & Hx); exists k, p; by rewrite Hpb in * || rewrite <- Hpb in *.
Qed.

Lemma layout_block b : layout_ok (backing_layout b) -> exists k, (k < 64)%nat /\ layout_size (backing_layout b) = 2 ^ Z.of_nat k /\ block_of b = (k, backing_pa b) /\ lsize (backing_layout b) <= 2 ^ Z.of_nat k.
Proof. intros Hl. destruct (layout_size_spec _ Hl) as (k & Hk & Ek & Hle). exists k. split_and!; try done. unfold block_of. rewrite Ek, Z.log2_pow2 by lia. by rewrite Nat2Z.id. Qed.

Lemma pool_blocks_cons sh b bl : pool_blocks sh (b :: bl) = if decide (is_shared b = sh) then block_of b :: pool_blocks sh bl else pool_blocks sh bl.
Proof. unfold pool_blocks. rewrite filter_cons. by destruct (decide (is_shared b = sh)). Qed.

Lemma is_shared_backing sh pa l : is_shared (backing sh pa l) = sh.
Proof. by destruct sh. Qed.

Lemma backing_parts sh pa l : backing_pa (backing sh pa l) = pa /\ backing_layout (backing sh pa l) = l.
Proof. by destruct sh. Qed.

Lemma in_block_cons b bl x : in_blocks (b :: bl) x <-> in_blocks [b] x \/ in_blocks bl x.
Proof. apply (in_blocks_app [b] bl). Qed.

(** A frame is taken and its contents set. *)
Lemma building_alloc bl ml mem s sh l fa pa s' val :
  building bl ml mem s -> layout_ok l -> alloc_aligned (pool_at sh s) l = (fa, Some pa) ->
  pool_at sh s' = fa -> pool_at (negb sh) s' = pool_at (negb sh) s -> table_pages s' = table_pages s -> pte_mem s' = pte_mem s -> heap_pages s' = heap_pages s ->
  (forall x, byte_at (phys_mem s') x = if decide (pa <= x < pa + lsize l) then val (x - pa) else byte_at (phys_mem s) x) ->
  building (backing sh pa l :: bl) ml (fun x => if decide (pa <= x < pa + lsize l) then val (x - pa) else mem x) s'.
Proof.
  intros Hb Hl Ea Ep Eo Et Em Eh Hmem. set (b := backing sh pa l). destruct (backing_parts sh pa l) as [Ebp Ebl]. pose proof (is_shared_backing sh pa l) as Ebs. fold b in Ebp, Ebl, Ebs. destruct (layout_block b) as (k & Hk & Ek & Eb & _); [by rewrite Ebl |]. rewrite Ebl, Ebp in *.
  unfold alloc_aligned in Ea. rewrite Ek in Ea. pose proof (bd_pool _ _ _ _ Hb sh) as Hh. pose proof (holds_alloc _ _ _ _ _ Hh Hk Ea) as Hh'.
  assert (forall x, is_free (pool_at sh s) x <-> is_free fa x \/ in_blocks [(k, pa)] x) as Hfr.
  { intros x. pose proof (alloc_pow2_ok _ k (proj1 (ho_wf _ _ Hh)) Hk) as Hx. rewrite Ea in Hx. destruct Hx as (_ & (Hfl & _ & Hc & _) & _). rewrite in_blocks_one. apply (adds_free _ _ k pa x (fa_lists _ (proj1 (ho_wf _ _ Hh))) Hc). }
  split; rewrite ?Em, ?Et, ?Eh; try apply Hb.
  - constructor; [by rewrite Ebl | apply Hb].
  - intros sh'. rewrite pool_blocks_cons. rewrite Ebs. destruct (decide (sh = sh')) as [<- | Hne].
    + rewrite Ep, Eb. eapply holds_perm; [symmetry; apply Permutation_cons_append | done].
    + replace sh' with (negb sh) by (by destruct sh, sh'). rewrite Eo. apply Hb.
  - intros sh' x. rewrite (bd_free _ _ _ _ Hb sh' x), pool_blocks_cons. rewrite Ebs. destruct (decide (sh = sh')) as [<- | Hne].
    + rewrite Ep, Eb, in_block_cons, Hfr. tauto.
    + replace sh' with (negb sh) by (by destruct sh, sh'). by rewrite Eo.
  - intros x. rewrite Hmem. destruct (decide _); [done | apply Hb].
Qed.

(** A frame is given back. *)
Lemma building_free b bl ml mem s : building (b :: bl) ml mem s -> building bl ml mem (free_backing b s).
Proof.
  intros Hb. pose proof (bd_layouts _ _ _ _ Hb) as Hl. apply Forall_cons in Hl as [Hl Hls]. destruct (layout_block b Hl) as (k & Hk & Ek & Eb & _).
  assert (pool_at (negb (is_shared b)) (free_backing b s) = pool_at (negb (is_shared b)) s /\ pool_at (is_shared b) (free_backing b s) = dealloc_power_of_two (pool_at (is_shared b) s) (backing_pa b) (2 ^ Z.of_nat k) /\
    table_pages (free_backing b s) = table_pages s /\ pte_mem (free_backing b s) = pte_mem s /\ phys_mem (free_backing b s) = phys_mem s /\ heap_pages (free_backing b s) = heap_pages s) as (E1 & E2 & E3 & E4 & E5 & E6).
  { destruct b; cbn in *; unfold dealloc_aligned; by rewrite Ek. }
  pose proof (bd_pool _ _ _ _ Hb (is_shared b)) as Hh. rewrite pool_blocks_cons, decide_True, Eb in Hh by done. destruct (holds_free _ _ _ _ Hh) as [Hh' Hfr].
  split; try done; rewrite ?E3, ?E4, ?E5, ?E6; try apply Hb.
  - intros sh. destruct (decide (is_shared b = sh)) as [<- | Hne]; [by rewrite E2 |]. replace sh with (negb (is_shared b)) by (by destruct sh, (is_shared b)). rewrite E1.
    pose proof (bd_pool _ _ _ _ Hb (negb (is_shared b))) as Hp. rewrite pool_blocks_cons, decide_False in Hp by (by destruct (is_shared b)). done.
  - intros sh x. rewrite (bd_free _ _ _ _ Hb sh x), pool_blocks_cons. destruct (decide (is_shared b = sh)) as [<- | Hne].
    + rewrite E2, Hfr, Eb, in_block_cons, in_blocks_one. tauto.
    + replace sh with (negb (is_shared b)) by (by destruct sh, (is_shared b)). by rewrite E1.
Qed.

(** A range is entered, or the part before the page that could not be. *)
Lemma building_map bl ml mem s c n : building bl ml mem s -> config_ok c -> cfg_aligned c -> 0 <= n ->
  vaddr c + n * page_size c <= 2 ^ 47 -> paddr c + n * page_size c < W64 ->
  exists r s' d, map_into rt c (wadd (vaddr c) (n * page_size c)) (wadd (paddr c) (n * page_size c)) s = Done (r, s') /\ building bl (mkRange (vaddr c) (paddr c) d (4 - levels c) :: ml) mem s' /\ 0 <= d <= n * page_size c /\
    match r with Ok _ => d = n * page_size c | Err _ => True end.
Proof.
  intros Hb Hc Hal Hn Hv Hp. pose proof (cfg_vaddr _ Hc) as Hvu. pose proof (cfg_levels _ Hc) as Hlv. unfold is_u64 in Hvu.
  destruct (map_into_range rt c n s (bd_tables _ _ _ _ Hb) Hc Hal Hn) as (r & m & pages & d & -> & Hwf & (Hd & Hdv & Hm & Hnew & Hlf & Hk) & Hr); [unfold W64; lia | done | lia |].
  exists r, (set_table_pages pages (set_pte_mem m s)), d. split; [done |]. split; [| split; [lia | by destruct r]]. set (rg := mkRange (vaddr c) (paddr c) d (4 - levels c)).
  assert (Forall (ranges_apart rg) ml) as Hap.
  { apply Forall_forall. intros r' Hr' va Hva [Hi Hi']. pose proof (bd_shown _ _ _ _ Hb r' va Hr' Hva Hi') as E. by rewrite (Hnew va Hva Hi) in E. }
  destruct Hb as [H1 H2 H3 H4 H5 H6 H7 H8 H9 H10 H11 H12]. pose proof (cfg_size _ Hc) as Hsz. destruct Hal as [Hal1 Hal2].
  assert (range_ok rg) as Hrg by (split; cbn; [lia | by rewrite <- Hsz | by rewrite <- Hsz | lia]).
  split; cbn [pte_mem table_pages phys_mem heap_pages set_table_pages set_pte_mem]; try done.
  - by constructor.
  - intros r' va [-> | Hr']%elem_of_cons Hva Hi; rewrite (Hm va Hva); [by rewrite decide_True |].
    rewrite decide_False; [by apply H7 |]. intros Hi'. rewrite Forall_forall in Hap. by apply (Hap r' Hr' va Hva).
  - intros r' [-> | Hr']%elem_of_cons; [by eapply range_leaves_weaken; [| exact Hlf] |].
    eapply range_leaves_kept; [by apply H8 | exact Hk |]. intros x Hx. rewrite Forall_forall in Hap, H5. destruct (ro_bounds _ (H5 r' Hr')) as (Hb1 & Hb2 & Hb3).
    destruct (Z.le_gt_cases d (off (vaddr c) (rg_va r' + x))) as [| Hlt]; [done |]. exfalso.
    apply (Hap r' Hr' (rg_va r' + x)); [unfold is_u64, W64; lia |]. split; [exact Hlt | unfold in_range; rewrite off_at by lia; lia].
  - intros va Hva [Hi | Hi]%Exists_cons; [| by apply H9]. destruct (decide (in_ranges ml va)) as [|]; [by apply H9 |]. rewrite <- H10 by done. by apply Hnew.
  - intros va Hva Ho. rewrite (Hm va Hva). unfold in_ranges in Ho. rewrite Exists_cons in Ho. rewrite decide_False; [apply H10; [done |]; tauto |]. intros Hi. apply Ho. by left.
Qed.

Lemma in_range_tail va pa l d va' : 0 <= l <= 3 -> 0 <= d -> psize l + d <= 2 ^ 48 ->
  (in_range (mkRange va pa (psize l + d) l) va' <-> off va va' < psize l \/ in_range (mkRange (va + psize l) (pa + psize l) d l) va') /\
  (in_range (mkRange (va + psize l) (pa + psize l) d l) va' -> off va va' = psize l + off (va + psize l) va').
Proof.
  intros Hl Hd Hle. unfold in_range. cbn. pose proof (psize_pos l ltac:(lia)). pose proof (off_range (va + psize l) va'). destruct (decide (d = 0)) as [-> | Hne].
  - split; lia.
  - destruct (off_extend va (psize l) d va') as [He1 He2]; lia.
Qed.

(** The first page of a range is cleared. *)
Lemma building_unmap bl ml mem s va pa l d : building bl (mkRange va pa (psize l + d) l :: ml) mem s -> 0 <= d -> (psize l | d) ->
  exists s', unmap_quietly rt va (4 - l) s = Done s' /\ building bl (mkRange (va + psize l) (pa + psize l) d l :: ml) mem s'.
Proof.
  intros Hb Hd Hdv. set (r := mkRange va pa (psize l + d) l) in *. pose proof (bd_ranges _ _ _ _ Hb) as Hro. apply Forall_cons in Hro as [Hr Hro].
  destruct (ro_bounds _ Hr) as (Hb1 & Hb2 & Hb3). pose proof (ro_level _ Hr) as Hl. cbn in Hb1, Hb2, Hb3, Hl. pose proof (psize_pos l ltac:(lia)) as Hps. pose proof (ro_va _ Hr) as Hva. cbn in Hva.
  destruct (unmap_page_spec rt (pte_mem s) (table_pages s) va (4 - l) (bd_tables _ _ _ _ Hb)) as (m' & res & Eu & Hwf & Hres); [lia |]. replace (4 - (4 - l)) with l in Hres by lia.
  destruct (bd_leaves _ _ _ _ Hb r ltac:(by left) 0) as (raw & _ & Hmp); [cbn; lia | apply Z.divide_0_r |]. cbn [rg_va rg_level] in Hmp. rewrite Z.add_0_r in Hmp.
  destruct res as [u | e]; [| by destruct Hres as [_ Hno]; destruct (Hno raw)]. destruct Hres as (_ & Hm & Hk). set (r2 := mkRange (va + psize l) (pa + psize l) d l).
  assert (forall va', in_range r va' <-> off va va' < psize l \/ in_range r2 va') as Hsp by (intros va'; apply in_range_tail; lia).
  assert (forall va', in_range r2 va' -> off va va' = psize l + off (va + psize l) va') as Hoff by (intros va'; apply in_range_tail; lia).
  assert (forall va', same_page l va va' <-> off va va' < psize l) as Hsm by (intros va'; by apply same_page_off).
  unfold unmap_quietly. rewrite Eu. cbn [pbind fst]. exists (set_pte_mem m' s). split; [done |]. pose proof (bd_apart _ _ _ _ Hb) as [Hap Haps]. destruct Hb as [H1 H2 H3 H4 H5 H6 H7 H8 H9 H10 H11 H12].
  assert (range_ok r2) as Hr2 by (split; cbn; [done | apply Z.divide_add_r; [done | apply Z.divide_refl] | done | lia]).
  assert (forall r', r' ∈ ml -> ranges_apart r r') as Hall by (by apply Forall_forall).
  split; cbn [pte_mem table_pages phys_mem heap_pages set_pte_mem]; try done.
  - by constructor.
  - split; [| done]. apply Forall_forall. intros r' Hr' va' Hu [Hi Hi']. apply (Hall r' Hr' va' Hu). split; [apply Hsp; by right | done].
  - intros r' va' [-> | Hr']%elem_of_cons Hu Hi; rewrite (Hm va' Hu), decide_False; rewrite ?Hsm.
    + rewrite (H7 r va' ltac:(by left) Hu (proj2 (Hsp va') (or_intror Hi))). cbn. rewrite (Hoff va' Hi). do 2 f_equal. lia.
    + rewrite (Hoff va' Hi). pose proof (off_range (va + psize l) va'). lia.
    + apply H7; [by right | done | done].
    + intros Hs. apply (Hall r' Hr' va' Hu). split; [apply Hsp; by left | done].
  - intros r' [-> | Hr']%elem_of_cons x Hx Hxd.
    + destruct (H8 r ltac:(by left) (psize l + x)) as (raw' & _ & Hmx); [cbn in *; lia | cbn in *; apply Z.divide_add_r; [apply Z.divide_refl | done] |]. cbn in *.
      exists raw'. split; [done |]. replace (va + psize l + x) with (va + (psize l + x)) by lia. apply Hk; [| done]. rewrite Hsm, off_at by lia. lia.
    + destruct (H8 r' ltac:(by right) x Hx Hxd) as (raw' & _ & Hmx). exists raw'. split; [done |]. apply Hk; [| done]. rewrite Hsm. rewrite Forall_forall in Hro. destruct (ro_bounds _ (Hro r' Hr')) as (Hc1 & Hc2 & Hc3).
      intros Hs. apply (Hall r' Hr' (rg_va r' + x)); [unfold is_u64, W64; lia |]. split; [apply Hsp; by left | unfold in_range; rewrite off_at by lia; lia].
  - intros va' Hu [Hi | Hi]%Exists_cons; apply H9; try done; apply Exists_cons; [left; apply Hsp; by right | by right].
  - intros va' Hu Ho. unfold in_ranges in Ho. rewrite Exists_cons in Ho. rewrite (Hm va' Hu). destruct (decide _) as [Hs | Hs]; rewrite Hsm in Hs.
    + symmetry. apply H9; [done |]. apply Exists_cons. left. apply Hsp. by left.
    + apply H10; [done |]. unfold in_ranges. rewrite Exists_cons, Hsp. tauto.
Qed.

Lemma building_drop bl ml mem s va pa l : building bl (mkRange va pa 0 l :: ml) mem s -> building bl ml mem s.
Proof.
  intros [H1 H2 H3 H4 H5 H6 H7 H8 H9 H10 H11 H12]. split; try done; [by apply Forall_cons in H5 as [_ ?] | apply H6 | intros; apply H7; [by right | done | done] | intros; apply H8; by right | |].
  - intros va' Hu Hi. apply H9; [done |]. by right.
  - intros va' Hu Hi. apply H10; [done |]. intros [Hz | ?]%Exists_cons; [| done]. unfold in_range in Hz. cbn in Hz. pose proof (off_range va va'). lia.
Qed.

(** A whole range of large pages is cleared. *)
Lemma building_unmap_stack n : forall bl ml mem s va pa, building bl (mkRange va pa (Z.of_nat n * UPROC_STACK_GRAIN) 1 :: ml) mem s ->
  exists s', unmap_stack n rt va s = Done s' /\ building bl ml mem s'.
Proof.
  induction n as [| n IH]; intros bl ml mem s va pa Hb.
  - exists s. split; [done |]. by apply (building_drop bl ml mem s va pa 1).
  - pose proof (bd_ranges _ _ _ _ Hb) as Hro. apply Forall_cons in Hro as [Hr _]. destruct (ro_bounds _ Hr) as (Hb1 & Hb2 & Hb3). cbn [rg_va rg_len] in *. change UPROC_STACK_GRAIN with (psize 1) in *. pose proof (psize_pos 1 ltac:(lia)) as Hp1.
    replace (Z.of_nat (S n) * psize 1) with (psize 1 + Z.of_nat n * psize 1) in * by lia.
    destruct (building_unmap bl ml mem s va pa 1 (Z.of_nat n * psize 1) Hb) as (s' & E & Hb'); [nia | by exists (Z.of_nat n) |].
    destruct (IH bl ml mem s' _ _ Hb') as (s2 & E2 & Hb2'). exists s2. split; [| done]. cbn [unmap_stack]. change (4 - 1) with 3 in E. rewrite E. cbn [pbind]. change UPROC_STACK_GRAIN with (psize 1). rewrite wadd_small; [done |]. unfold W64. nia.
Qed.

(** What a step of the building says of the state it starts from. *)
Lemma alloc_none sh s l : pool_wf (pool_at sh s) -> layout_ok l -> forall fa, alloc_aligned (pool_at sh s) l = (fa, None) -> fa = pool_at sh s.
Proof.
  intros Hp Hl fa E. destruct (layout_size_spec _ Hl) as (k & Hk & Ek & _). unfold alloc_aligned in E. rewrite Ek in E.
  pose proof (alloc_pow2_ok (pool_at sh s) k (proj1 Hp) Hk) as H. rewrite E in H. by destruct H.
Qed.

Lemma set_pool_same sh s : set_pool sh (pool_at sh s) s = s.
Proof. by destruct s, sh. Qed.

(** A block of the user pool, zeroed through the window and filled. *)
Lemma alloc_user_zeroed_ok bl ml mem s size fill val :
  vm_ok rt s0 -> building bl ml mem s -> 0 < size <= KSCRATCH_SIZE -> (UPROC_STACK_GRAIN | size) -> let l := mkLayout size UPROC_STACK_GRAIN in
  (forall m pa x, byte_at (fill (zero_bytes pa size m) pa) x = if decide (pa <= x < pa + size) then val (x - pa) else byte_at m x) ->
  exists o s', alloc_user_zeroed l fill s = Done (o, s') /\
    match o with
    | None => s' = s
    | Some b => exists pa, b = BUser pa l /\ 0 <= pa /\ pa + size <= 2 ^ 56 /\ (UPROC_STACK_GRAIN | pa) /\
        (forall x, pa <= x < pa + size -> is_free (user_pages s) x) /\
        building (b :: bl) ml (fun x => if decide (pa <= x < pa + size) then val (x - pa) else mem x) s'
    end.
Proof.
  intros Hs Hb Hsz Hdv l Hfill. pose proof (building_vm _ _ _ _ Hs Hb) as Hv. change KSCRATCH_SIZE with 33554432 in *.
  assert (layout_ok l) as Hl by (split; [cbn; lia | exists 21; split; [lia | done]]).
  pose proof (pool_block rt s false size 21 Hv ltac:(lia) ltac:(lia)) as Hp. cbv zeta in Hp. change (mkLayout size (2 ^ 21)) with l in Hp. unfold alloc_user_zeroed.
  destruct (alloc_aligned (user_pages s) l) as [fa [pa |]] eqn:Ea.
  - destruct Hp as (Hp0 & Hp1 & Hpd & Hls & Hfr & _). rewrite window_ok; [| etransitivity; [| exact Hpd]; by exists 512 | etransitivity; [| exact Hdv]; by exists 512 | done].
    cbn [pbind]. do 2 eexists. split; [done |]. exists pa. split_and!; try done. { intros x Hx. apply (Hfr x). cbn. lia. }
    apply (building_alloc bl ml mem s false l fa pa _ val Hb Hl Ea); try done. intros x. apply Hfill.
  - do 2 eexists. split; [done |]. subst fa. apply (set_pool_same false).
Qed.

Lemma allocate_trap_frame_ok bl ml mem s :
  vm_ok rt s0 -> building bl ml mem s ->
  exists o s', allocate_trap_frame s = (o, s') /\
    match o with
    | None => s' = s
    | Some b => exists pa, b = BShared pa THREAD_TRAP_FRAME_LAYOUT /\ 0 <= pa /\ pa + PAGE_SIZE <= 2 ^ 56 /\ (PAGE_SIZE | pa) /\
        (forall x, pa <= x < pa + PAGE_SIZE -> is_free (kernel_pages s) x) /\ building (b :: bl) ml mem s'
    end.
Proof.
  intros Hs Hb. pose proof (building_vm _ _ _ _ Hs Hb) as Hv. pose proof (pool_block rt s true PAGE_SIZE 12 Hv ltac:(unfold PAGE_SIZE; lia) ltac:(lia)) as Hp. cbv zeta in Hp.
  change (mkLayout PAGE_SIZE (2 ^ 12)) with THREAD_TRAP_FRAME_LAYOUT in Hp. unfold allocate_trap_frame. destruct (alloc_aligned (kernel_pages s) _) as [fa [pa |]] eqn:Ea.
  - destruct Hp as (Hp0 & Hp1 & Hpd & Hls & Hfr & _). do 2 eexists. split; [done |]. exists pa. split_and!; try done.
    assert (building (BShared pa THREAD_TRAP_FRAME_LAYOUT :: bl) ml (fun x => if decide (pa <= x < pa + PAGE_SIZE) then byte_at (phys_mem s) (pa + (x - pa)) else mem x) (set_kernel_pages fa s)) as Hb'.
    { apply (building_alloc bl ml mem s true THREAD_TRAP_FRAME_LAYOUT fa pa _ (fun i => byte_at (phys_mem s) (pa + i))); try done.
      - split; [cbn; unfold PAGE_SIZE; lia | exists 12; split; [lia | done]].
      - intros x. cbn. destruct (decide _); [f_equal; lia | done]. }
    destruct Hb' as [G1 G2 G3 G4 G5 G6 G7 G8 G9 G10 G11 G12]. split; try done. apply Hb.
  - do 2 eexists. split; [done |]. subst fa. apply (set_pool_same true).
Qed.
End building.

(** ** The memory of a slot *)

Definition stack_range (slot stack_size pa : Z) : Range := mkRange (user_stack_vaddr slot stack_size) pa stack_size 1.
Definition frame_range (slot pa : Z) : Range := mkRange (user_trap_frame_vaddr slot) pa PAGE_SIZE 0.
Definition tls_range (slot pa : Z) : Range := mkRange (user_tls_vaddr slot) pa UPROC_TLS_MAX 1.

(** A part of one of the three ranges of a slot. *)
Definition of_slot (slot stack_size : Z) (r : Range) : Prop :=
  exists r', r' ∈ [stack_range slot stack_size 0; frame_range slot 0; tls_range slot 0] /\ rg_va r = rg_va r' /\ rg_len r <= rg_len r'.

Definition template_byte (t : option (list Z)) (i : Z) : Z :=
  match t with Some l => default 0 (take (Z.to_nat UPROC_TLS_MAX) l !! Z.to_nat i) | None => 0 end.

Definition tls_layout : Layout := mkLayout UPROC_TLS_MAX UPROC_STACK_GRAIN.

(** The frames and the ranges of a thread whose stack, trap frame and thread-local data
    are at [ps], [pf] and [tp]. *)
Definition thread_frames (stack_size ps pf : Z) (tp : option Z) : list PhysBacking :=
  match tp with Some pt => [BUser pt tls_layout] | None => [] end ++ [BShared pf THREAD_TRAP_FRAME_LAYOUT; BUser ps (mkLayout stack_size UPROC_STACK_GRAIN)].
Definition thread_ranges (slot stack_size ps pf : Z) (tp : option Z) : list Range :=
  match tp with Some pt => [tls_range slot pt] | None => [] end ++ [frame_range slot pf; stack_range slot stack_size ps].
Definition thread_bytes (t : option (list Z)) (stack_size ps : Z) (tp : option Z) (mem : Z -> Z) (x : Z) : Z :=
  let stack := if decide (ps <= x < ps + stack_size) then 0 else mem x in
  match tp with Some pt => if decide (pt <= x < pt + UPROC_TLS_MAX) then template_byte t (x - pt) else stack | None => stack end.

Lemma zero_fill size (m : gmap Z Z) pa x : byte_at (zero_bytes pa size m) x = if decide (pa <= x < pa + size) then 0 else byte_at m x.
Proof. apply zero_bytes_at. Qed.

Lemma template_fill t (m : gmap Z Z) pa x :
  byte_at (copy_template t UPROC_TLS_MAX (zero_bytes pa UPROC_TLS_MAX m) pa) x = if decide (pa <= x < pa + UPROC_TLS_MAX) then template_byte t (x - pa) else byte_at m x.
Proof.
  destruct t as [l |]; [| apply zero_bytes_at]. cbn [copy_template template_byte]. assert (0 <= UPROC_TLS_MAX) as HM by done. revert HM. generalize UPROC_TLS_MAX. intros M HM.
  set (l' := take _ l). assert (Z.of_nat (length l') <= M) as Hle by (unfold l'; rewrite length_take; lia). clearbody l'.
  unfold byte_at at 1. destruct (decide (pa <= x < pa + Z.of_nat (length l'))) as [Hx | Hx].
  - rewrite decide_True by lia. replace x with (pa + (x - pa)) at 1 by lia. by rewrite write_bytes_at by lia.
  - rewrite write_bytes_other by done. fold (byte_at (zero_bytes pa M m) x). rewrite zero_bytes_at. destruct (decide _); [| done].
    by rewrite lookup_ge_None_2 by lia.
Qed.

Section slot.
Context (rt : RootTable) (s0 : Vm) (slot stack_size : Z).
Hypothesis (Hslot : 0 <= slot < 256) (Hsize : validate_user_stack_size stack_size = true).

Lemma map_stack_ok bl ml mem s pa va size : building rt s0 bl ml mem s -> (UPROC_STACK_GRAIN | pa) -> (UPROC_STACK_GRAIN | va) -> (UPROC_STACK_GRAIN | size) ->
  0 <= pa -> pa + size <= 2 ^ 56 -> 0 <= va -> 0 <= size -> va + size <= 2 ^ 47 ->
  exists r s' d, map_stack rt pa va size s = Done (r, s') /\ building rt s0 bl (mkRange va pa d 1 :: ml) mem s' /\ 0 <= d <= size /\ match r with Ok _ => d = size | Err _ => True end.
Proof.
  intros Hb Hp Hv [n ->] Hp0 Hp1 Hv0 Hs0 Hv1. change UPROC_STACK_GRAIN with (page_size (stack_config va pa)) in *.
  apply (building_map rt s0 bl ml mem s (stack_config va pa) n Hb); cbn in *; try done; try lia.
  - split; cbn; try done; unfold is_u64, W64; lia.
  - change UPROC_STACK_GRAIN with 2097152 in *. lia.
  - unfold W64. lia.
Qed.

Lemma map_trap_frame_ok bl ml mem s pa va : building rt s0 bl ml mem s -> (PAGE_SIZE | pa) -> (PAGE_SIZE | va) -> 0 <= pa -> pa + PAGE_SIZE <= 2 ^ 56 -> 0 <= va -> va + PAGE_SIZE <= 2 ^ 47 ->
  exists r s' d, map_trap_frame rt pa va s = Done (r, s') /\ building rt s0 bl (mkRange va pa d 0 :: ml) mem s' /\ 0 <= d <= PAGE_SIZE /\ match r with Ok _ => d = PAGE_SIZE | Err _ => True end.
Proof.
  intros Hb Hp Hv Hp0 Hp1 Hv0 Hv1. change PAGE_SIZE with (1 * page_size (trap_frame_config va pa)).
  apply (building_map rt s0 bl ml mem s (trap_frame_config va pa) 1 Hb); cbn in *; try done; try lia.
  - split; cbn; try done; unfold is_u64, W64, PAGE_SIZE in *; lia.
  - unfold W64. lia.
Qed.

Record slot_geometry : Prop := {
  sg_stack : (UPROC_STACK_GRAIN | user_stack_vaddr slot stack_size) /\ 0 <= user_stack_vaddr slot stack_size /\ user_stack_vaddr slot stack_size + stack_size <= 2 ^ 47;
  sg_frame : (PAGE_SIZE | user_trap_frame_vaddr slot) /\ 0 <= user_trap_frame_vaddr slot /\ user_trap_frame_vaddr slot + PAGE_SIZE <= 2 ^ 47;
  sg_tls : (UPROC_STACK_GRAIN | user_tls_vaddr slot) /\ 0 <= user_tls_vaddr slot /\ user_tls_vaddr slot + UPROC_TLS_MAX <= 2 ^ 47;
  sg_size : 0 < stack_size <= KSCRATCH_SIZE /\ (UPROC_STACK_GRAIN | stack_size);
}.

Lemma slot_geometry_ok : slot_geometry.
Proof.
  destruct (stack_size_val _ Hsize) as [Hs1 Hs2]. apply Z.mod_divide in Hs2; [| lia].
  split; cbn; unfold user_stack_vaddr; rewrite ?slot_base_val, ?frame_val, ?tls_val by lia; change UPROC_STACK_GRAIN with 2097152; change UPROC_TLS_MAX with 2097152; change KSCRATCH_SIZE with 33554432; change PAGE_SIZE with 4096; split; try done; try lia.
  - exists (128 + slot * 16). lia.
  - exists (0x7E0000000 + slot). lia.
  - exists (142 + slot * 16). lia.
Qed.

(** The bytes of a frame in use are kept. *)
Definition kept (mem : Z -> Z) : Prop := forall x, ~ is_free (user_pages s0) x -> mem x = byte_at (phys_mem s0) x.

Lemma kept_block mem pa size val : kept mem -> (forall x, pa <= x < pa + size -> is_free (user_pages s0) x) -> kept (fun x => if decide (pa <= x < pa + size) then val x else mem x).
Proof. intros Hk Hf x Hx. destruct (decide _) as [Hi |]; [by destruct Hx; apply Hf | by apply Hk]. Qed.

Lemma free_before bl ml mem s x : building rt s0 bl ml mem s -> is_free (user_pages s) x -> is_free (user_pages s0) x.
Proof. intros Hb Hf. apply (bd_free _ _ _ _ _ _ Hb false). by left. Qed.

(** Nothing is held; a part of the slot may be mapped. *)
Definition undone (s : Vm) : Prop := exists ml mem, building rt s0 [] ml mem s /\ Forall (of_slot slot stack_size) ml /\ kept mem.

Lemma undo_ok stack tf ml mem s : building rt s0 [tf; stack] ml mem s -> Forall (of_slot slot stack_size) ml -> kept mem -> undone (free_backing tf (free_backing stack s)).
Proof.
  intros Hb Hml Hk. exists ml, mem. split; [| done]. apply building_free. apply building_free. eapply building_perm; [apply perm_swap | done | done].
Qed.

Lemma of_slot_stack pa d : d <= stack_size -> of_slot slot stack_size (mkRange (user_stack_vaddr slot stack_size) pa d 1).
Proof. intros Hd. exists (stack_range slot stack_size 0). split; [by left | done]. Qed.

Lemma of_slot_frame pa d : d <= PAGE_SIZE -> of_slot slot stack_size (mkRange (user_trap_frame_vaddr slot) pa d 0).
Proof. intros Hd. exists (frame_range slot 0). split; [right; by left | done]. Qed.

Lemma of_slot_tls pa d : d <= UPROC_TLS_MAX -> of_slot slot stack_size (mkRange (user_tls_vaddr slot) pa d 1).
Proof. intros Hd. exists (tls_range slot 0). split; [right; right; by left | done]. Qed.

(** The memory of a thread at given frames. *)
Definition placed (template : option (list Z)) (memsz ps pf : Z) (tp : option Z) (s : Vm) : Prop :=
  (is_Some tp <-> 0 < memsz) /\ kept (thread_bytes template stack_size ps tp (byte_at (phys_mem s0))) /\
  building rt s0 (thread_frames stack_size ps pf tp) (thread_ranges slot stack_size ps pf tp) (thread_bytes template stack_size ps tp (byte_at (phys_mem s0))) s.

Definition thread_outcome (template : option (list Z)) (memsz : Z) (o : option (PhysBacking * PhysBacking * option PhysBacking)) (s : Vm) : Prop :=
  match o with
  | None => undone s
  | Some (stack, tf, tls) =>
      exists ps pf tp, stack = BUser ps (mkLayout stack_size UPROC_STACK_GRAIN) /\ tf = BShared pf THREAD_TRAP_FRAME_LAYOUT /\ tls = ((fun pt => BUser pt tls_layout) <$> tp) /\
        placed template memsz ps pf tp s
  end.

Lemma stack_layout : layout_from_size_align stack_size UPROC_STACK_GRAIN = Some (mkLayout stack_size UPROC_STACK_GRAIN).
Proof.
  destruct slot_geometry_ok as [_ _ _ [Hs _]]. unfold layout_from_size_align. change (is_power_of_two UPROC_STACK_GRAIN) with true. cbn [andb].
  change UPROC_STACK_GRAIN with 2097152. change KSCRATCH_SIZE with 33554432 in Hs. destruct (Z.leb_spec stack_size (2 ^ 63 - 2097152)); [done | lia].
Qed.

(** The block of thread-local data, once the stack and the trap frame are mapped. *)
Definition tls_step (template : option (list Z)) (memsz : Z) (stack tf : PhysBacking) (s : Vm) : panics (option (PhysBacking * PhysBacking * option PhysBacking) * Vm) :=
  let undo s := Done (None, free_backing tf (free_backing stack s)) in
  if 0 <? memsz then
    r <-! alloc_user_zeroed tls_layout (copy_template template (lsize tls_layout)) s ;;
    match r with
    | (None, s) => undo s
    | (Some tls, s) =>
        r <-! map_stack rt (backing_pa tls) (user_tls_vaddr slot) (lsize tls_layout) s ;;
        match r with
        | (Err _, s) => undo (free_backing tls s)
        | (Ok _, s) => Done (Some (stack, tf, Some tls), s)
        end
    end
  else Done (Some (stack, tf, None), s).

Lemma tls_step_ok template memsz ps pf s : vm_ok rt s0 -> placed template 0 ps pf None s ->
  exists o s', tls_step template memsz (BUser ps (mkLayout stack_size UPROC_STACK_GRAIN)) (BShared pf THREAD_TRAP_FRAME_LAYOUT) s = Done (o, s') /\ thread_outcome template memsz o s'.
Proof.
  intros Hs (_ & Hk & Hb). set (stack := BUser ps _) in *. set (tf := BShared pf _) in *. destruct slot_geometry_ok as [_ _ (Ht1 & Ht2 & Ht3) _].
  assert (Forall (of_slot slot stack_size) (thread_ranges slot stack_size ps pf None)) as Hml by (repeat constructor; [by apply of_slot_frame | by apply of_slot_stack]).
  unfold tls_step. destruct (Z.ltb_spec 0 memsz) as [Hm | Hm].
  2: { do 2 eexists. split; [done |]. exists ps, pf, None. split_and!; try done. split; [| done]. split; [by intros [? ?] | lia]. }
  destruct (alloc_user_zeroed_ok rt s0 _ _ _ s UPROC_TLS_MAX (copy_template template UPROC_TLS_MAX) (template_byte template) Hs Hb) as (o & s1 & Ea & Ho); [done | by exists 1 | apply template_fill |].
  change (lsize tls_layout) with UPROC_TLS_MAX. change (mkLayout UPROC_TLS_MAX UPROC_STACK_GRAIN) with tls_layout in *. rewrite Ea. cbn [pbind]. destruct o as [b |].
  2: { subst s1. do 2 eexists. split; [done |]. eapply undo_ok; [exact Hb | done | done]. }
  destruct Ho as (pt & -> & Hp0 & Hp1 & Hpd & Hfr & Hb1). cbn [backing_pa].
  assert (kept (thread_bytes template stack_size ps (Some pt) (byte_at (phys_mem s0)))) as Hk1 by (apply kept_block; [done | intros x Hx; eapply free_before; [exact Hb | by apply Hfr]]).
  destruct (map_stack_ok _ _ _ s1 pt (user_tls_vaddr slot) UPROC_TLS_MAX Hb1) as (r & s2 & d & -> & Hb2 & Hd & Hr); try done. cbn [pbind]. destruct r as [u | e].
  - subst d. do 2 eexists. split; [done |]. exists ps, pf, (Some pt). split_and!; try done; by split.
  - do 2 eexists. split; [done |]. eapply undo_ok; [apply building_free; exact Hb2 | constructor; [apply of_slot_tls; lia | done] | exact Hk1].
Qed.

Lemma undone_stack stack ml mem s : building rt s0 [stack] ml mem s -> Forall (of_slot slot stack_size) ml -> kept mem -> undone (free_backing stack s).
Proof. intros Hb Hml Hk. exists ml, mem. split; [by apply building_free | done]. Qed.

Lemma tls_layout_some : layout_from_size_align UPROC_TLS_MAX UPROC_STACK_GRAIN = Some tls_layout.
Proof. reflexivity. Qed.

Lemma thread_memory_run template memsz : vm_ok rt s0 ->
  exists o s', thread_memory rt slot stack_size template memsz s0 = Done (o, s') /\ thread_outcome template memsz o s'.
Proof.
  intros Hs. pose proof slot_geometry_ok as [(Hv1 & Hv2 & Hv3) (Hf1 & Hf2 & Hf3) _ [Hz1 Hz2]]. pose proof (building_start rt s0 Hs) as Hb0.
  unfold thread_memory, allocate_user_thread_stack. rewrite stack_layout.
  destruct (alloc_user_zeroed_ok rt s0 _ _ _ s0 stack_size (fun m _ => m) (fun _ => 0) Hs Hb0 Hz1 Hz2) as (o & s1 & -> & Ho); [intros m pa x; apply zero_fill |]. cbn [pbind].
  destruct o as [b |]; [| subst s1; do 2 eexists; split; [done |]; by exists [], (byte_at (phys_mem s0))].
  destruct Ho as (ps & -> & Hp0 & Hp1 & Hpd & Hfr & Hb1). set (stack := BUser ps _) in *. assert (kept (thread_bytes template stack_size ps None (byte_at (phys_mem s0)))) as Hk by (by apply kept_block).
  destruct (allocate_trap_frame_ok rt s0 _ _ _ s1 Hs Hb1) as (o & s2 & -> & Ho). destruct o as [b |]; [| subst s2; do 2 eexists; split; [done |]; by eapply undone_stack].
  destruct Ho as (pf & -> & Hq0 & Hq1 & Hqd & _ & Hb2). set (tf := BShared pf _) in *. change (backing_pa stack) with ps. change (backing_pa tf) with pf.
  destruct (map_stack_ok _ _ _ s2 ps (user_stack_vaddr slot stack_size) stack_size Hb2) as (r & s3 & d & -> & Hb3 & Hd & Hr); try done; [lia |]. cbn [pbind].
  destruct r as [u | e]; [subst d | do 2 eexists; split; [done |]; eapply undo_ok; [exact Hb3 | constructor; [apply of_slot_stack; lia | done] | exact Hk]].
  destruct (map_trap_frame_ok _ _ _ s3 pf (user_trap_frame_vaddr slot) Hb3) as (r & s4 & d & -> & Hb4 & Hd' & Hr); try done. cbn [pbind].
  destruct r as [v | e]; [subst d | do 2 eexists; split; [done |]; eapply undo_ok; [exact Hb4 | constructor; [apply of_slot_frame; lia | constructor; [by apply of_slot_stack | done]] | exact Hk]].
  rewrite tls_layout_some. apply (tls_step_ok template memsz ps pf s4 Hs). split; [| split; [exact Hk | exact Hb4]]. split; [by intros [? ?] | lia].
Qed.
End slot.

(** ** Thread slots: facts *)

Definition slots_wf (bits : SlotAlloc) : Prop := length bits = SLOT_WORDS /\ Forall is_u64 bits.
Definition slot_bit (bits : SlotAlloc) (slot : Z) : bool := Z.testbit (default 0 (bits !! Z.to_nat (slot / 64))) (slot mod 64).

Lemma trailing_ones_spec n : forall w, 0 <= w < 2 ^ Z.of_nat n -> w <> 2 ^ Z.of_nat n - 1 ->
  0 <= trailing_ones n w < Z.of_nat n /\ Z.testbit w (trailing_ones n w) = false /\ forall i, 0 <= i < trailing_ones n w -> Z.testbit w i = true.
Proof.
  induction n as [| n IH]; intros w Hw Hne; [change (2 ^ Z.of_nat 0) with 1 in *; lia |]. cbn [trailing_ones]. rewrite Nat2Z.inj_succ, Z.pow_succ_r in * by lia.
  pose proof (Z.div2_odd w) as Ew. destruct (Z.odd w) eqn:Eo; cbn [Z.b2z] in Ew.
  - destruct (IH (Z.div2 w)) as (Ht & Hf & Hl); [lia | lia |]. split_and!; [lia | lia | |].
    + replace (1 + trailing_ones n (Z.div2 w)) with (Z.succ (trailing_ones n (Z.div2 w))) by lia. by rewrite <- Z.div2_bits, <- Z.div2_div by lia.
    + intros i Hi. destruct (decide (i = 0)) as [-> | Hi0]; [by rewrite Z.bit0_odd |]. replace i with (Z.succ (i - 1)) by lia. rewrite <- Z.div2_bits, <- Z.div2_div by lia. apply Hl. lia.
  - split_and!; [lia | lia | by rewrite Z.bit0_odd | lia].
Qed.

(** The lowest clear bit, set. *)
Lemma set_low_bit w : is_u64 w -> w <> W64 - 1 -> let t := trailing_ones 64 w in
  0 <= t < 64 /\ is_u64 (Z.lor w (Z.shiftl 1 t)) /\ Z.land (Z.lor w (Z.shiftl 1 t)) (wnot (Z.shiftl 1 t)) = w /\
  Z.testbit w t = false /\ Z.testbit (Z.lor w (Z.shiftl 1 t)) t = true /\ forall i, 0 <= i < t -> Z.testbit w i = true.
Proof.
  intros Hw Hne t. destruct (trailing_ones_spec 64 w Hw Hne) as (Ht & Hf & Hl). fold t in Ht, Hf, Hl. rewrite Z.shiftl_1_l.
  assert (is_u64 (2 ^ t)) as Hp by (unfold is_u64; change W64 with (2 ^ 64); pose proof (pow2_bounds t ltac:(lia)); pose proof (Z.pow_lt_mono_r 2 t 64); lia).
  assert (is_u64 (Z.lor w (2 ^ t))) as Hor.
  { unfold is_u64 in *. split; [apply Z.lor_nonneg; lia |]. change W64 with (2 ^ 64) in *. destruct (decide (Z.lor w (2 ^ t) = 0)) as [-> | Hz]; [lia |].
    apply Z.log2_lt_pow2; [pose proof (proj2 (Z.lor_nonneg w (2 ^ t))); lia |]. rewrite Z.log2_lor, Z.log2_pow2 by lia. apply Z.max_lub_lt; [| lia].
    destruct (decide (w = 0)) as [-> |]; [done | apply Z.log2_lt_pow2; lia]. }
  split_and!; [lia | lia | done | | done | | done].
  - rewrite land_wnot by done. apply Z.bits_inj'. intros i Hi. rewrite Z.ldiff_spec, Z.lor_spec, Z.pow2_bits_eqb by lia. destruct (Z.eqb_spec t i) as [<- |]; [by rewrite Hf | by rewrite orb_false_r, andb_true_r].
  - rewrite Z.lor_spec, Z.pow2_bits_true, orb_true_r by lia. done.
Qed.

Lemma slot_alloc_spec bits : forall i, Forall is_u64 bits ->
  match slot_alloc i bits with
  | (None, bits') => bits' = bits /\ Forall (fun w => w = W64 - 1) bits
  | (Some slot, bits') => exists j w, slot = i * 64 + (Z.of_nat j * 64 + trailing_ones 64 w) /\ bits !! j = Some w /\ w <> W64 - 1 /\ (forall j', (j' < j)%nat -> bits !! j' = Some (W64 - 1)) /\
      bits' = <[j := Z.lor w (Z.shiftl 1 (trailing_ones 64 w))]> bits
  end.
Proof.
  induction bits as [| w bits IH]; intros i Hf; [done |]. apply Forall_cons in Hf as [Hw Hf]. cbn [slot_alloc]. destruct (Z.eqb_spec w (W64 - 1)) as [-> | Hne]; cbn [negb].
  - specialize (IH (i + 1) Hf). destruct (slot_alloc (i + 1) bits) as [[slot |] bits'].
    + destruct IH as (j & w & -> & Hj & Hw' & Hlow & ->). exists (S j), w. split_and!; try done; [lia |]. intros [| j'] Hj'; [done |]. apply Hlow. lia.
    + destruct IH as [-> Hall]. split; [done |]. by constructor.
  - exists 0%nat, w. split_and!; try done; lia.
Qed.

(** A slot handed out was free, is below every other free one, and giving it back
    restores the map; none is handed out only when all are taken. *)
Lemma slot_alloc_ok bits : slots_wf bits ->
  match slot_alloc 0 bits with
  | (None, bits') => bits' = bits /\ forall slot, 0 <= slot < SLOT_CAPACITY -> slot_bit bits slot = true
  | (Some slot, bits') => 0 <= slot < SLOT_CAPACITY /\ slots_wf bits' /\ slot_bit bits slot = false /\ slot_bit bits' slot = true /\ slot_free slot bits' = Done bits /\
      (forall slot', 0 <= slot' < slot -> slot_bit bits slot' = true)
  end.
Proof.
  intros [Hlen Hu]. pose proof (slot_alloc_spec bits 0 Hu) as H. unfold SLOT_CAPACITY, SLOT_WORDS in *. destruct (slot_alloc 0 bits) as [[slot |] bits'].
  - destruct H as (j & w & -> & Hj & Hne & Hlow & ->). pose proof (lookup_lt_Some _ _ _ Hj) as Hjl. rewrite Forall_lookup in Hu. destruct (set_low_bit w (Hu _ _ Hj) Hne) as (Ht & Hu' & Hback & Hf & Htr & Hl).
    set (t := trailing_ones 64 w) in *. rewrite Z.mul_0_l, Z.add_0_l. assert ((Z.of_nat j * 64 + t) / 64 = Z.of_nat j) as Ed by (symmetry; apply (Z.div_unique _ _ _ t); lia).
    assert ((Z.of_nat j * 64 + t) mod 64 = t) as Em by (symmetry; apply (Z.mod_unique _ _ (Z.of_nat j)); lia). unfold slot_bit, slot_free, SlotAlloc. rewrite Ed, Em, Nat2Z.id.
    assert (slots_wf (<[j := Z.lor w (Z.shiftl 1 t)]> bits)) as Hwf'.
    { split; [unfold SlotAlloc, SLOT_WORDS; by rewrite length_insert |]. apply Forall_insert; [by rewrite Forall_lookup | done]. }
    rewrite list_lookup_insert_eq by done. split_and!; try lia; try done; [by rewrite Hj | rewrite Hback, list_insert_insert_eq; by rewrite list_insert_id |].
    + intros slot' Hs. pose proof (Z.div_mod slot' 64 ltac:(lia)). pose proof (Z.mod_pos_bound slot' 64 ltac:(lia)). destruct (decide (slot' / 64 = Z.of_nat j)) as [E | Hne'].
      * rewrite E, Nat2Z.id, Hj. apply Hl. lia.
      * assert (0 <= slot' / 64) by (apply Z.div_pos; lia). rewrite Hlow by nia. apply (Z.ones_spec_low 64). lia.
  - destruct H as [-> Hall]. split; [done |]. intros slot Hs. pose proof (Z.mod_pos_bound slot 64 ltac:(lia)). unfold slot_bit, SlotAlloc.
    assert (0 <= slot / 64 < 4) by (split; [apply Z.div_pos; lia | apply Z.div_lt_upper_bound; lia]). destruct (lookup_lt_is_Some_2 bits (Z.to_nat (slot / 64))) as [w Ew]; [lia |].
    rewrite Ew. rewrite Forall_lookup in Hall. rewrite (Hall _ _ Ew). apply (Z.ones_spec_low 64). lia.
Qed.

Lemma slot_alloc_other bits slot bits' slot' : slots_wf bits -> slot_alloc 0 bits = (Some slot, bits') -> 0 <= slot' -> slot' <> slot -> slot_bit bits' slot' = slot_bit bits slot'.
Proof.
  intros [_ Hu] E H0 Hne. pose proof (slot_alloc_spec bits 0 Hu) as H. rewrite E in H. destruct H as (j & w & -> & Hj & Hw & _ & ->). rewrite Forall_lookup in Hu. destruct (set_low_bit w (Hu _ _ Hj) Hw) as (Ht & _).
  set (t := trailing_ones 64 w) in *. unfold slot_bit, SlotAlloc. pose proof (Z.div_mod slot' 64 ltac:(lia)). pose proof (Z.mod_pos_bound slot' 64 ltac:(lia)). assert (0 <= slot' / 64) by (apply Z.div_pos; lia).
  destruct (decide (Z.to_nat (slot' / 64) = j)) as [<- | Hd]; [| by rewrite list_lookup_insert_ne]. rewrite list_lookup_insert_eq by (by eapply lookup_lt_Some). rewrite Hj. clearbody t. cbn [default from_option id].
  rewrite Z.lor_spec, Z.shiftl_1_l, Z.pow2_bits_eqb by lia. destruct (Z.eqb_spec t (slot' mod 64)); [lia | by rewrite orb_false_r].
Qed.

(** ** Thread numbers *)

Lemma next_tid_found fuel : forall next threads tid, next_tid_loop fuel next threads = Some tid -> bm_get tid threads = None.
Proof. induction fuel as [| fuel IH]; intros next threads tid; cbn [next_tid_loop]; [done |]. destruct (bm_get next threads) eqn:E; [apply IH | by intros [= <-]]. Qed.

Lemma next_tid_fails fuel : forall next threads, next_tid_loop fuel next threads = None -> 0 <= next < 2 ^ 32 -> forall i, (i < fuel)%nat -> is_Some (bm_get ((next + Z.of_nat i) mod 2 ^ 32) threads).
Proof.
  induction fuel as [| fuel IH]; intros next threads; cbn [next_tid_loop]; [lia |]. destruct (bm_get next threads) as [t |] eqn:E; [| done]. intros Hf Hn [| i] Hi.
  - rewrite Z.add_0_r, Z.mod_small by done. eauto.
  - unfold as_u32 in Hf. assert (is_Some (bm_get (((next + 1) mod 2 ^ 32 + Z.of_nat i) mod 2 ^ 32) threads)) as Hx by (apply (IH _ threads Hf); [apply Z.mod_pos_bound; lia | lia]).
    rewrite Zplus_mod_idemp_l in Hx. by replace (next + Z.of_nat (S i)) with (next + 1 + Z.of_nat i) by lia.
Qed.

(** Fewer than 2^32 threads leave a number free, and the search finds it. *)
Lemma next_tid_ok k : Z.of_nat (length (cr_threads (tk_cred k))) < 2 ^ 32 ->
  exists tid, next_tid k = Some (tid, set_tk_current_tid tid k) /\ bm_get tid (cr_threads (tk_cred k)) = None.
Proof.
  intros Hl. unfold next_tid. set (threads := cr_threads (tk_cred k)) in *. set (next := as_u32 (tk_current_tid k + 1)). assert (0 <= next < 2 ^ 32) as Hn by (apply Z.mod_pos_bound; lia).
  destruct (next_tid_loop (S (length threads)) next threads) as [tid |] eqn:E; [exists tid; split; [done |]; by eapply next_tid_found |]. exfalso.
  assert ((fun i => (next + Z.of_nat i) mod 2 ^ 32) <$> seq 0 (S (length threads)) ⊆+ threads.*1) as Hsub.
  { apply NoDup_submseteq.
    - apply NoDup_fmap_2_strong; [| apply NoDup_seq]. intros x y Hx%elem_of_seq Hy%elem_of_seq Exy.
      pose proof (Z.div_mod (next + Z.of_nat x) (2 ^ 32) ltac:(lia)) as E1. pose proof (Z.div_mod (next + Z.of_nat y) (2 ^ 32) ltac:(lia)) as E2. rewrite Exy in E1. lia.
    - intros x (i & -> & Hi%elem_of_seq)%list_elem_of_fmap. destruct (next_tid_fails _ _ _ E Hn i ltac:(lia)) as [t Ht]. by apply bm_get_key in Ht. }
  apply submseteq_length in Hsub. rewrite !length_fmap, length_seq in Hsub. lia.
Qed.

(** ** What a thread's process sees *)

Lemma building_sees rt s0 bl ml mem s r i : building rt s0 bl ml mem s -> r ∈ ml -> 0 <= i < rg_len r -> proc_byte rt s (rg_va r + i) = Some (mem (rg_pa r + i)).
Proof.
  intros Hb Hr Hi. pose proof (bd_ranges _ _ _ _ _ _ Hb) as Hro. rewrite Forall_forall in Hro. destruct (ro_bounds _ (Hro r Hr)) as (H1 & H2 & H3).
  assert (is_u64 (rg_va r + i)) as Hu by (unfold is_u64, W64; lia). assert (in_range r (rg_va r + i)) as Hin by (unfold in_range; rewrite off_at by lia; lia).
  unfold proc_byte. rewrite (bd_shown _ _ _ _ _ _ Hb r _ Hr Hu Hin), off_at by lia. by rewrite (bd_mem _ _ _ _ _ _ Hb).
Qed.

Lemma building_write rt s0 bl ml mem s m' mem' : building rt s0 bl ml mem s -> (forall x, byte_at m' x = mem' x) -> building rt s0 bl ml mem' (set_phys_mem m' s).
Proof. intros [H1 H2 H3 H4 H5 H6 H7 H8 H9 H10 H11 H12] Hm. by split. Qed.

(** The block of a frame that is held is free in no pool. *)
Lemma building_held rt s0 bl ml mem s b x : vm_ok rt s0 -> building rt s0 bl ml mem s -> b ∈ bl -> backing_pa b <= x < backing_pa b + lsize (backing_layout b) ->
  is_free (pool_at (is_shared b) s0) x /\ ~ is_free (kernel_pages s) x /\ ~ is_free (user_pages s) x.
Proof.
  intros Hs Hb Hin Hx. pose proof (bd_layouts _ _ _ _ _ _ Hb) as Hl. rewrite Forall_forall in Hl. destruct (layout_block b (Hl b Hin)) as (k & Hk & Ek & Eb & Hle).
  assert (in_blocks (pool_blocks (is_shared b) bl) x) as Hi.
  { exists k, (backing_pa b). split; [| lia]. rewrite <- Eb. apply list_elem_of_fmap_2. by apply list_elem_of_filter. }
  assert (~ is_free (pool_at (is_shared b) s) x) as Hn.
  { intros Hf. pose proof (ho_disj _ _ (bd_pool _ _ _ _ _ _ Hb (is_shared b)) x) as Hd. apply in_blocks_cov in Hi. unfold is_free in Hf. lia. }
  assert (is_free (pool_at (is_shared b) s0) x) as Hf0 by (apply (bd_free _ _ _ _ _ _ Hb); by right). split; [done |].
  pose proof (vo_apart _ _ Hs x) as Hap. assert (forall sh, is_free (pool_at sh s) x -> is_free (pool_at sh s0) x) as Hsub by (intros sh Hf; apply (bd_free _ _ _ _ _ _ Hb); by left).
  pose proof (Hsub true). pose proof (Hsub false). destruct (is_shared b); cbn in *; tauto.
Qed.

Lemma building_no_dangling rt s0 bl ml mem s : vm_ok rt s0 -> no_dangling rt s0 -> building rt s0 bl ml mem s ->
  (forall r, r ∈ ml -> exists b, b ∈ bl /\ rg_pa r = backing_pa b /\ rg_len r <= lsize (backing_layout b)) -> no_dangling rt s.
Proof.
  intros Hs Hn Hb Hr va pa Hva E. assert (is_u64 va) as Hu by (destruct Hva; unfold is_u64, W64; lia). destruct (decide (in_ranges ml va)) as [Hi | Hi].
  - apply Exists_exists in Hi as (r & Hin & Hi). rewrite (bd_shown _ _ _ _ _ _ Hb r va Hin Hu Hi) in E. injection E as <-. destruct (Hr r Hin) as (b & Hb' & Ep & Hl). unfold in_range in Hi. pose proof (off_range (rg_va r) va).
    apply (building_held rt s0 bl ml mem s b); try done. rewrite Ep. lia.
  - rewrite (bd_else _ _ _ _ _ _ Hb va Hu Hi) in E. destruct (Hn va pa Hva E) as [Hk Hu']. split; intros Hf; [apply Hk | apply Hu']; [apply (bd_free _ _ _ _ _ _ Hb true) | apply (bd_free _ _ _ _ _ _ Hb false)]; by left.
Qed.

(** ** Releasing the mappings of a slot *)

Definition mapping_frames (m : UserMapping) : list PhysBacking := option_list (um_backing m).
Definition mapping_ranges (m : UserMapping) : list Range :=
  match um_kind m, um_backing m with
  | (KStack _ | KTls _), Some b => [mkRange (um_vaddr m) (backing_pa b) (um_len m) 1]
  | KTrapFrame _, Some b => [mkRange (um_vaddr m) (backing_pa b) (um_len m) 0]
  | _, _ => []
  end.

(** An entry as [create_new_thread] makes it. *)
Definition slot_mapping (m : UserMapping) : Prop :=
  match um_kind m, um_backing m with
  | KStack _, Some _ => 0 <= um_len m /\ (UPROC_STACK_GRAIN | um_len m)
  | KTls _, Some _ => um_len m = UPROC_STACK_GRAIN
  | KTrapFrame _, Some _ => um_len m = PAGE_SIZE
  | KGuard _, None => True
  | _, _ => False
  end.

Section release.
Context (rt : RootTable) (s0 : Vm) (mem : Z -> Z).

(** A page of its own is cleared. *)
Lemma unmap_one bl ml s va pa l d : building rt s0 bl (mkRange va pa d l :: ml) mem s -> d = psize l ->
  exists s', unmap_quietly rt va (4 - l) s = Done s' /\ building rt s0 bl ml mem s'.
Proof.
  intros Hb ->. rewrite <- (Z.add_0_r (psize l)) in Hb. destruct (building_unmap rt s0 _ _ _ _ _ _ _ _ Hb) as (s' & E & Hb'); [lia | apply Z.divide_0_r |].
  exists s'. split; [done |]. by eapply building_drop.
Qed.

Lemma unmap_mapping_ok bl ml m s : slot_mapping m -> building rt s0 bl (mapping_ranges m ++ ml) mem s ->
  exists s', unmap_mapping rt m s = Done s' /\ building rt s0 bl ml mem s'.
Proof.
  unfold slot_mapping, mapping_ranges, unmap_mapping. destruct (um_kind m) as [| | slot | slot | slot | slot | fd], (um_backing m) as [b |]; try done.
  - intros [H0 [n Hn]] Hb. rewrite Hn in *. change UPROC_STACK_GRAIN with 2097152 in *. replace ((n * 2097152 + 2097152 - 1) / 2097152) with n by (apply (Z.div_unique _ _ _ 2097151); lia).
    apply (building_unmap_stack rt s0 (Z.to_nat n) bl ml mem s (um_vaddr m) (backing_pa b)). change UPROC_STACK_GRAIN with 2097152. by rewrite Z2Nat.id by lia.
  - intros _ Hb. by exists s.
  - intros Hl Hb. by eapply (unmap_one bl ml s _ _ 0).
  - intros Hl Hb. by eapply (unmap_one bl ml s _ _ 1).
Qed.

Lemma free_frames m bl ml s : building rt s0 (mapping_frames m ++ bl) ml mem s -> building rt s0 bl ml mem (match um_backing m with Some b => free_backing b s | None => s end).
Proof. unfold mapping_frames. destruct (um_backing m) as [b |]; [apply building_free | done]. Qed.

(** The frames and ranges of the entries go, whatever their order. *)
Lemma release_mappings_ok pid ms : forall k p, tk_mem k !! pid = Some p -> pm_root p = rt ->
  Forall slot_mapping ms -> Forall (fun m => bm_get (um_vaddr m) (pm_maps p) = Some m) ms -> NoDup (um_vaddr <$> ms) ->
  building rt s0 (ms ≫= mapping_frames) (ms ≫= mapping_ranges) mem (tk_vm k) ->
  exists v k', release_mappings pid (um_vaddr <$> ms) k = Done k' /\ building rt s0 [] [] mem v /\
    k' = set_tk_vm v (put_mem pid (set_pm_maps (foldl (fun l va => bm_remove va l) (pm_maps p) (um_vaddr <$> ms)) p) k).
Proof.
  induction ms as [| m ms IH]; intros k p Hp Hr Hs Hg Hnd Hb; cbn [fmap list_fmap release_mappings foldl].
  - exists (tk_vm k), k. split_and!; try done. destruct k, p. cbn in *. unfold set_tk_vm, put_mem, set_tk_mem, set_pm_maps. cbn. f_equal. by rewrite insert_id.
  - apply Forall_cons in Hs as [Hm Hs]. apply Forall_cons in Hg as [Hgm Hg]. cbn in Hnd. apply NoDup_cons in Hnd as [Hni Hnd]. cbn [mbind list_bind] in Hb. rewrite Hp, Hgm, Hr.
    destruct (unmap_mapping_ok _ _ m _ Hm Hb) as (s' & E & Hb'). cbn [tk_vm put_mem set_tk_mem]. cbn in E. change (tk_vm (put_mem pid _ k)) with (tk_vm k). rewrite E. cbn [pbind]. apply free_frames in Hb'.
    set (v := match um_backing m with Some b => free_backing b s' | None => s' end) in *. set (p1 := set_pm_maps (bm_remove (um_vaddr m) (pm_maps p)) p).
    destruct (IH (set_tk_vm v (put_mem pid p1 k)) p1) as (v' & k' & -> & Hb2 & ->); try done.
    + cbn. by rewrite lookup_insert_eq.
    + rewrite Forall_forall in Hg |- *. intros m' Hm'. cbn. rewrite bm_get_remove_ne; [by apply Hg |]. intros Ee. apply Hni. rewrite <- Ee. by apply list_elem_of_fmap_2.
    + exists v'. eexists. split_and!; try done. unfold set_tk_vm, put_mem, set_tk_mem, set_pm_maps. cbn. by rewrite insert_insert_eq.
Qed.
End release.

(** ** The entries of a process *)

Lemma filter_drop {A} (P : A -> Prop) `{!forall x, Decision (P x)} l : Forall (fun x => ~ P x) l -> filter P l = [].
Proof. induction 1 as [| x l Hx _ IH]; [done |]. by rewrite filter_cons, decide_False. Qed.

Lemma bm_unique {V} (l l' : list (Z * V)) : bm_sorted l -> bm_sorted l' -> l ≡ₚ l' -> l = l'.
Proof.
  assert (forall m : list (Z * V), bm_sorted m -> StronglySorted (fun a b => a.1 < b.1) m) as Hs.
  { unfold bm_sorted. induction m as [| e m IH]; intros H; [constructor |]. apply StronglySorted_inv in H as [H Hall]. constructor; [by apply IH |]. by apply (Forall_fmap (fst : Z * V -> Z) (Z.lt e.1) m) in Hall. }
  intros H1%Hs H2%Hs. apply (StronglySorted_unique_strong (fun a b : Z * V => a.1 < b.1)); [| done | done]. intros a b _ _ Hab Hba. lia.
Qed.

Definition entry_of (m : UserMapping) : Z * UserMapping := (um_vaddr m, m).
Definition insert_all (l : list (Z * UserMapping)) (ms : list UserMapping) : list (Z * UserMapping) := foldl (fun l m => bm_insert (um_vaddr m) m l) l ms.

Lemma insert_mappings p ms : foldl (fun p m => insert_mapping m p) p ms = set_pm_maps (insert_all (pm_maps p) ms) p.
Proof. revert p. induction ms as [| m ms IH]; intros p; [by destruct p |]. cbn [foldl insert_all]. by rewrite IH. Qed.

Lemma insert_all_ok ms : forall l, bm_sorted l -> NoDup (um_vaddr <$> ms) -> Forall (fun m => bm_get (um_vaddr m) l = None) ms ->
  bm_sorted (insert_all l ms) /\ insert_all l ms ≡ₚ (entry_of <$> ms) ++ l.
Proof.
  induction ms as [| m ms IH]; intros l Hl Hnd Hg; [done |]. cbn in Hnd. apply NoDup_cons in Hnd as [Hni Hnd]. apply Forall_cons in Hg as [Hm Hg].
  destruct (IH (bm_insert (um_vaddr m) m l)) as [H1 H2]; [by apply bm_insert_sorted | done | |].
  - rewrite Forall_forall in Hg |- *. intros m' Hm'. rewrite bm_get_insert_ne; [by apply Hg |]. intros E. apply Hni. rewrite <- E. by apply list_elem_of_fmap_2.
  - split; [done |]. cbn [insert_all foldl]. fold (insert_all (bm_insert (um_vaddr m) m l) ms). rewrite H2, bm_insert_perm by (by apply bm_get_none). cbn [fmap list_fmap app]. symmetry. apply Permutation_middle.
Qed.

Lemma remove_all_filter {V} ks : forall l : list (Z * V), foldl (fun l va => bm_remove va l) l ks = filter (fun e => e.1 ∉ ks) l.
Proof.
  induction ks as [| k ks IH]; intros l; cbn [foldl].
  - symmetry. apply filter_keep. apply Forall_forall. intros e _. apply not_elem_of_nil.
  - rewrite IH. unfold bm_remove. rewrite list_filter_filter. apply list_filter_iff. intros e. rewrite not_elem_of_cons. tauto.
Qed.

(** Entries put in and taken out, in whatever order. *)
Lemma remove_inserted l ms ms' : bm_sorted l -> NoDup (um_vaddr <$> ms) -> Forall (fun m => bm_get (um_vaddr m) l = None) ms -> ms' ≡ₚ ms ->
  foldl (fun l va => bm_remove va l) (insert_all l ms) (um_vaddr <$> ms') = l.
Proof.
  intros Hl Hnd Hg Hp. destruct (insert_all_ok ms l Hl Hnd Hg) as [Hs Hperm]. rewrite remove_all_filter. apply bm_unique; [by apply bm_filter_sorted | done |]. rewrite Hperm, filter_app.
  assert (filter (fun e => e.1 ∉ um_vaddr <$> ms') (entry_of <$> ms) = []) as ->.
  { apply filter_drop. apply Forall_fmap, Forall_forall. intros m Hm Hn. apply Hn. cbn. rewrite Hp. by apply list_elem_of_fmap_2. }
  cbn [app]. rewrite filter_keep; [done |]. apply Forall_forall. intros [k v] Hin (m & E & Hm)%list_elem_of_fmap. cbn in E. subst k. rewrite Hp in Hm. rewrite Forall_forall in Hg. specialize (Hg m Hm). apply bm_get_none in Hg. apply Hg.
  by apply (list_elem_of_fmap_2 fst _ (um_vaddr m, v)).
Qed.

Lemma inserted_get l ms m : bm_sorted l -> NoDup (um_vaddr <$> ms) -> Forall (fun m => bm_get (um_vaddr m) l = None) ms -> m ∈ ms -> bm_get (um_vaddr m) (insert_all l ms) = Some m.
Proof. intros Hl Hnd Hg Hm. destruct (insert_all_ok ms l Hl Hnd Hg) as [Hs Hp]. apply bm_get_sorted; [done |]. rewrite Hp. apply elem_of_app. left. by apply (list_elem_of_fmap_2 entry_of). Qed.

Definition slot_entries (slot : Z) (l : list (Z * UserMapping)) : list (Z * UserMapping) := filter (fun e => kind_slot (um_kind e.2) = Some slot) l.

(** A slot with no entries then has the new ones. *)
Lemma inserted_slot l ms slot : bm_sorted l -> NoDup (um_vaddr <$> ms) -> Forall (fun m => bm_get (um_vaddr m) l = None) ms -> Forall (fun m => kind_slot (um_kind m) = Some slot) ms ->
  (forall slot', slot' <> slot -> slot_entries slot' (insert_all l ms) ≡ₚ slot_entries slot' l) /\
  (slot_entries slot l = [] -> exists ms', ms' ≡ₚ ms /\ fst <$> slot_entries slot (insert_all l ms) = um_vaddr <$> ms').
Proof.
  intros Hl Hnd Hg Hk. destruct (insert_all_ok ms l Hl Hnd Hg) as [Hs Hp]. unfold slot_entries. split.
  - intros slot' Hne. rewrite Hp, filter_app. assert (filter (fun e => kind_slot (um_kind e.2) = Some slot') (entry_of <$> ms) = []) as ->; [| done].
    apply filter_drop. apply Forall_fmap. eapply Forall_impl; [exact Hk |]. cbn. intros m ->. by intros [= ?].
  - intros He. assert (slot_entries slot (insert_all l ms) ≡ₚ entry_of <$> ms) as Hpe.
    { unfold slot_entries. rewrite Hp, filter_app, He, app_nil_r, filter_keep; [done |]. apply Forall_fmap. eapply Forall_impl; [exact Hk | done]. }
    exists (snd <$> slot_entries slot (insert_all l ms)). split.
    + rewrite Hpe, <- list_fmap_compose. cbn. by rewrite list_fmap_id.
    + rewrite <- list_fmap_compose. apply list_fmap_ext. intros i [va m] Hi. cbn. apply list_elem_of_lookup_2 in Hi. fold (slot_entries slot (insert_all l ms)) in Hi. rewrite Hpe in Hi. apply list_elem_of_fmap in Hi as (m' & [= -> ->] & _). done.
Qed.

(** The addresses the entries of a slot are kept under. *)
Definition slot_vaddrs (slot : Z) : list Z := [user_stack_guard_vaddr slot; user_stack_vaddr slot 0; user_trap_frame_vaddr slot; user_tls_vaddr slot].

Lemma slot_vaddrs_ok slot : 0 <= slot < 256 -> NoDup (slot_vaddrs slot) /\ forall slot', 0 <= slot' < 256 -> slot' <> slot -> forall va, va ∈ slot_vaddrs slot -> va ∉ slot_vaddrs slot'.
Proof.
  intros Hs. unfold slot_vaddrs, user_stack_vaddr. rewrite !slot_base_val, !frame_val, !tls_val, !guard_val by lia. split.
  - repeat (apply NoDup_cons; split; [rewrite ?elem_of_cons, elem_of_nil; lia |]). constructor.
  - intros slot' Hs' Hne va. rewrite !slot_base_val, !frame_val, !tls_val, !guard_val by lia. rewrite !elem_of_cons, !elem_of_nil. lia.
Qed.

Section mappings.
Context (slot stack_size ps pf : Z) (tp : option Z).
Hypothesis (Hslot : 0 <= slot < 256) (Hsize : validate_user_stack_size stack_size = true).

Let ms : list UserMapping := thread_mappings slot stack_size (BUser ps (mkLayout stack_size UPROC_STACK_GRAIN)) (BShared pf THREAD_TRAP_FRAME_LAYOUT) ((fun pt => BUser pt tls_layout) <$> tp).

Lemma thread_mappings_vaddrs : NoDup (um_vaddr <$> ms) /\ (forall m, m ∈ ms -> um_vaddr m ∈ slot_vaddrs slot).
Proof.
  destruct (slot_vaddrs_ok slot Hslot) as [Hnd _]. change (slot_vaddrs slot) with ([user_stack_guard_vaddr slot; user_stack_vaddr slot stack_size; user_trap_frame_vaddr slot] ++ [user_tls_vaddr slot]) in *.
  unfold ms, thread_mappings. destruct tp as [pt |]; cbn [fmap option_fmap option_map list_fmap um_vaddr app] in *.
  - split; [done |]. intros m Hm. rewrite !elem_of_cons, elem_of_nil in Hm. destruct Hm as [-> | [-> | [-> | [-> | []]]]]; cbn; rewrite !elem_of_cons; tauto.
  - split; [by apply (NoDup_app [user_stack_guard_vaddr slot; user_stack_vaddr slot stack_size; user_trap_frame_vaddr slot]) in Hnd as [? _] |].
    intros m Hm. rewrite !elem_of_cons, elem_of_nil in Hm. destruct Hm as [-> | [-> | [-> | []]]]; cbn; rewrite !elem_of_cons; tauto.
Qed.

Lemma thread_mappings_kinds : Forall (fun m => kind_slot (um_kind m) = Some slot) ms /\ Forall slot_mapping ms.
Proof.
  destruct (slot_geometry_ok slot stack_size Hslot Hsize) as [_ _ _ [[Hs _] Hd]]. unfold ms, thread_mappings. destruct tp; cbn [fmap option_fmap option_map app]; repeat constructor; cbn; lia || done.
Qed.

Lemma thread_mappings_frames : ms ≫= mapping_frames ≡ₚ thread_frames stack_size ps pf tp /\ ms ≫= mapping_ranges ≡ₚ thread_ranges slot stack_size ps pf tp.
Proof.
  unfold ms, thread_mappings, thread_frames, thread_ranges. destruct tp as [pt |]; cbn; unfold tls_range, frame_range, stack_range; split.
  - exact (Permutation_rev [_; _; _]).
  - exact (Permutation_rev [_; _; _]).
  - apply perm_swap.
  - apply perm_swap.
Qed.
End mappings.

(** ** The invariant of a process and its threads *)

Record proc_ok (pid : Z) (p : ProcMem) (pr : Process) (k : Tk) : Prop := {
  po_mem : tk_mem k !! pid = Some p;
  po_proc : bm_get pid (cr_procs (tk_cred k)) = Some pr;
  po_vm : vm_ok (pm_root p) (tk_vm k);
  po_slots : slots_wf (pm_slots p);
  po_sorted : bm_sorted (pm_maps p);
  po_keys : forall slot va, 0 <= slot < 256 -> slot_bit (pm_slots p) slot = false -> va ∈ slot_vaddrs slot -> bm_get va (pm_maps p) = None;
  po_entries : forall slot, 0 <= slot < 256 -> slot_bit (pm_slots p) slot = false -> slot_entries slot (pm_maps p) = [];
  po_threads : forall pid' pr' tid, bm_get pid' (cr_procs (tk_cred k)) = Some pr' -> tid ∈ pr_threads pr' -> is_Some (bm_get tid (cr_threads (tk_cred k)));
}.

(** ** Creation *)

(** The thread a request makes. *)
Definition new_thread (pid root_pa entrypoint slot stack_size allowed affinity arg tid : Z) (pr : Process) : Thread :=
  thread_new (mkThreadInit entrypoint (satp_of pid root_pa) User tid pid (initial_frame entrypoint slot stack_size arg pid) (Some slot) allowed affinity
    (pr_permissions pr) (pr_uid pr) (pr_euid pr) (pr_suid pr) (pr_gid pr) (pr_egid pr) (pr_sgid pr) (pr_stdout_redirect pr)).

Definition thread_memory_bytes (template : option (list Z)) (stack_size ps pf : Z) (tp : option Z) (mem : Z -> Z) (x : Z) : Z :=
  if decide (pf <= x < pf + PAGE_SIZE) then 0 else thread_bytes template stack_size ps tp mem x.

(** The entries of a thread at given frames. *)
Definition entries_at (slot stack_size ps pf : Z) (tp : option Z) : list UserMapping :=
  thread_mappings slot stack_size (BUser ps (mkLayout stack_size UPROC_STACK_GRAIN)) (BShared pf THREAD_TRAP_FRAME_LAYOUT) ((fun pt => BUser pt tls_layout) <$> tp).

(** The memory of the new thread of a process, over the state before. *)
Record thread_built (p : ProcMem) (slot stack_size ps pf : Z) (tp : option Z) (v0 v : Vm) : Prop := {
  tb_tls : is_Some tp <-> 0 < pm_tls_memsz p;
  tb_kept : kept v0 (thread_bytes (pm_tls_template p) stack_size ps tp (byte_at (phys_mem v0)));
  tb_building : building (pm_root p) v0 (thread_frames stack_size ps pf tp) (thread_ranges slot stack_size ps pf tp) (thread_memory_bytes (pm_tls_template p) stack_size ps pf tp (byte_at (phys_mem v0))) v;
}.

Lemma create_new_thread_ok pid p pr k slot stack_size entrypoint allowed affinity arg :
  tk_mem k !! pid = Some p -> bm_get pid (cr_procs (tk_cred k)) = Some pr -> vm_ok (pm_root p) (tk_vm k) -> Z.of_nat (length (cr_threads (tk_cred k))) < 2 ^ 32 ->
  0 <= slot < 256 -> validate_user_stack_size stack_size = true ->
  exists r k', create_new_thread pid (pm_root p) (pm_root_pa p) entrypoint slot stack_size allowed affinity arg k = Done (r, k') /\
    match r with
    | Err _ => exists v, k' = set_tk_vm v k /\ undone (pm_root p) (tk_vm k) slot stack_size v
    | Ok t => exists ps pf tp v tid, bm_get tid (cr_threads (tk_cred k)) = None /\ t = new_thread pid (pm_root_pa p) entrypoint slot stack_size allowed affinity arg tid pr /\
        thread_built p slot stack_size ps pf tp (tk_vm k) v /\
        k' = mkTk v (<[pid := set_pm_maps (insert_all (pm_maps p) (entries_at slot stack_size ps pf tp)) p]> (tk_mem k)) (tk_cred k) tid (tk_ready k) (tk_cpu_count k)
    end.
Proof.
  intros Hp Hpr Hvm Hn Hslot Hsz. unfold create_new_thread. rewrite Hsz, Hp. cbn [negb].
  set (tm := if 0 <? pm_tls_memsz p then (pm_tls_template p, pm_tls_memsz p) else (None, 0)). destruct tm as [template memsz] eqn:Etm.
  destruct (thread_memory_run (pm_root p) (tk_vm k) slot stack_size Hslot Hsz template memsz Hvm) as (o & v & -> & Ho). cbn [pbind].
  destruct o as [[[stack tf] tls] |]; [| do 2 eexists; split; [done |]; by exists v].
  destruct Ho as (ps & pf & tp & -> & -> & -> & Htp & Hk & Hb). cbn [set_tk_vm tk_mem]. rewrite Hp, insert_mappings.
  match goal with |- context [next_tid ?K] => destruct (next_tid_ok K) as (tid & -> & Htid); [done |] end.
  do 2 eexists. split; [done |]. exists ps, pf, tp. do 2 eexists. cbn in Htid. split; [exact Htid |]. split; [cbn; by rewrite Hpr |]. split; [| done].
  assert ((is_Some tp <-> 0 < pm_tls_memsz p) /\ thread_bytes (pm_tls_template p) stack_size ps tp (byte_at (phys_mem (tk_vm k))) = thread_bytes template stack_size ps tp (byte_at (phys_mem (tk_vm k)))) as [H1 E2].
  { unfold tm in Etm. destruct (Z.ltb_spec 0 (pm_tls_memsz p)) as [Hm | Hm]; injection Etm as <- <-; [done |]. assert (tp = None) as -> by (destruct tp; [| done]; destruct Htp as [Htp _]; specialize (Htp ltac:(eauto)); lia).
    split; [| done]. split; [by intros [? ?] | lia]. }
  split; [done | by rewrite E2 |]. cbn. eapply building_write; [exact Hb |]. intros x. unfold thread_memory_bytes. rewrite zero_bytes_at, (bd_mem _ _ _ _ _ _ Hb), E2. done.
Qed.

Lemma in_range_iff r va : range_ok r -> user_half va -> in_range r va <-> rg_va r <= va < rg_va r + rg_len r.
Proof.
  intros Hr [H1 H2]. destruct (ro_bounds _ Hr) as (B1 & B2 & B3). unfold in_range, off. destruct (Z.le_gt_cases (rg_va r) va) as [Hle | Hlt].
  - rewrite Z.mod_small by lia. lia.
  - replace (va - rg_va r) with (va - rg_va r + 2 ^ 48 + (-1) * 2 ^ 48) by lia. rewrite Z.mod_add, Z.mod_small by lia. lia.
Qed.

(** An address of the memory of a thread. *)
Definition thread_addr (p : ProcMem) (slot stack_size va : Z) : Prop :=
  user_stack_vaddr slot stack_size <= va < user_stack_vaddr slot stack_size + stack_size \/
  user_trap_frame_vaddr slot <= va < user_trap_frame_vaddr slot + PAGE_SIZE \/
  (0 < pm_tls_memsz p /\ user_tls_vaddr slot <= va < user_tls_vaddr slot + UPROC_TLS_MAX).

(** What the process sees after the creation. *)
Record thread_sees (p : ProcMem) (slot stack_size : Z) (v0 v : Vm) : Prop := {
  ts_stack : forall i, 0 <= i < stack_size -> proc_byte (pm_root p) v (user_stack_vaddr slot stack_size + i) = Some 0;
  ts_frame : exists pf, forall i, 0 <= i < PAGE_SIZE -> virt_to_phys (pte_mem v) (pm_root p) (user_trap_frame_vaddr slot + i) = Done (Some (pf + i)) /\ is_free (kernel_pages v0) (pf + i) /\ ~ is_free (kernel_pages v) (pf + i);
  ts_tls : 0 < pm_tls_memsz p -> forall i, 0 <= i < UPROC_TLS_MAX -> proc_byte (pm_root p) v (user_tls_vaddr slot + i) = Some (template_byte (pm_tls_template p) i);
  ts_new : forall va, user_half va -> thread_addr p slot stack_size va -> proc_byte (pm_root p) v0 va = None;
  ts_else : forall va, user_half va -> ~ thread_addr p slot stack_size va -> proc_byte (pm_root p) v va = proc_byte (pm_root p) v0 va;
  ts_dangling : no_dangling (pm_root p) v;
}.

Section sees.
Context (p : ProcMem) (slot stack_size ps pf : Z) (tp : option Z) (v0 v : Vm).
Hypothesis (Hvm : vm_ok (pm_root p) v0) (Hb : thread_built p slot stack_size ps pf tp v0 v).

Let Hbd := tb_building _ _ _ _ _ _ _ _ Hb.

Lemma stack_elem : stack_range slot stack_size ps ∈ thread_ranges slot stack_size ps pf tp /\ BUser ps (mkLayout stack_size UPROC_STACK_GRAIN) ∈ thread_frames stack_size ps pf tp.
Proof. unfold thread_ranges, thread_frames. rewrite !elem_of_app, !elem_of_cons. tauto. Qed.

Lemma frame_elem : frame_range slot pf ∈ thread_ranges slot stack_size ps pf tp /\ BShared pf THREAD_TRAP_FRAME_LAYOUT ∈ thread_frames stack_size ps pf tp.
Proof. unfold thread_ranges, thread_frames. rewrite !elem_of_app, !elem_of_cons. tauto. Qed.

Lemma tls_elem pt : tp = Some pt -> tls_range slot pt ∈ thread_ranges slot stack_size ps pf tp /\ BUser pt tls_layout ∈ thread_frames stack_size ps pf tp.
Proof. intros ->. split; by left. Qed.

(** The frames of a thread do not meet. *)
Lemma frames_apart pt x : tp = Some pt -> pt <= x < pt + UPROC_TLS_MAX -> ~ ps <= x < ps + stack_size /\ ~ pf <= x < pf + PAGE_SIZE.
Proof.
  intros E Hx. destruct (tls_elem pt E) as [_ Ht]. destruct (building_held _ _ _ _ _ _ _ x Hvm Hbd Ht) as [Hf _]; [exact Hx |]. split.
  - intros Hx'. pose proof (ho_disj _ _ (bd_pool _ _ _ _ _ _ Hbd false) x) as Hd. rewrite E in Hd. unfold thread_frames in Hd. cbn [app] in Hd. rewrite !pool_blocks_cons in Hd. cbn [is_shared] in Hd.
    pose proof (bd_layouts _ _ _ _ _ _ Hbd) as Hl. rewrite Forall_forall in Hl. destruct (layout_block _ (Hl _ Ht)) as (k1 & _ & _ & E1 & L1). destruct (layout_block _ (Hl _ (proj2 stack_elem))) as (k2 & _ & _ & E2 & L2).
    rewrite E1, E2, !(decide_True (P := false = false)), (decide_False (P := true = false)) in Hd by done. cbn in Hd, L1, L2. rewrite (proj2 (in_block_1 k1 pt x)), (proj2 (in_block_1 k2 ps x)) in Hd by (change UPROC_TLS_MAX with UPROC_STACK_GRAIN in *; lia). lia.
  - intros Hx'. destruct (building_held _ _ _ _ _ _ _ x Hvm Hbd (proj2 frame_elem)) as [Hf' _]; [exact Hx' |]. apply (vo_apart _ _ Hvm x). by split.
Qed.

Lemma addr_in_ranges va : user_half va -> thread_addr p slot stack_size va <-> in_ranges (thread_ranges slot stack_size ps pf tp) va.
Proof.
  intros Hva. pose proof (bd_ranges _ _ _ _ _ _ Hbd) as Hr. rewrite Forall_forall in Hr. unfold thread_addr, in_ranges. pose proof (tb_tls _ _ _ _ _ _ _ _ Hb) as Ht.
  pose proof (in_range_iff _ va (Hr _ (proj1 stack_elem)) Hva) as H1. pose proof (in_range_iff _ va (Hr _ (proj1 frame_elem)) Hva) as H2. unfold thread_ranges. rewrite Exists_app, !Exists_cons, Exists_nil. cbn in H1, H2. rewrite H1, H2.
  destruct tp as [pt |] eqn:E.
  - pose proof (in_range_iff _ va (Hr (tls_range slot pt) ltac:(by left)) Hva) as H3. cbn in H3. rewrite Exists_cons, Exists_nil, H3. assert (0 < pm_tls_memsz p) by (apply Ht; eauto). tauto.
  - rewrite Exists_nil. assert (~ 0 < pm_tls_memsz p) by (intros Hz; apply Ht in Hz as [? ?]; done). tauto.
Qed.

Lemma kept_in_use x : ~ is_free (kernel_pages v0) x -> ~ is_free (user_pages v0) x -> byte_at (phys_mem v) x = byte_at (phys_mem v0) x.
Proof.
  intros Hk Hu. rewrite (bd_mem _ _ _ _ _ _ Hbd). unfold thread_memory_bytes. destruct (decide _) as [Hx | _]; [| by apply (tb_kept _ _ _ _ _ _ _ _ Hb)].
  destruct (building_held _ _ _ _ _ _ _ x Hvm Hbd (proj2 frame_elem)) as [Hf _]; done.
Qed.

Lemma built_sees : no_dangling (pm_root p) v0 -> thread_sees p slot stack_size v0 v.
Proof.
  intros Hn. split.
  - intros i Hi. pose proof (building_sees _ _ _ _ _ _ (stack_range slot stack_size ps) i Hbd (proj1 stack_elem) Hi) as Hs. cbn [rg_pa rg_va stack_range frame_range] in Hs. rewrite Hs. f_equal. unfold thread_memory_bytes. destruct (decide _); [done |]. unfold thread_bytes.
    rewrite (decide_True (P := ps <= _ < _)) by lia. assert (forall pt, tp = Some pt -> ~ (pt <= ps + i < pt + UPROC_TLS_MAX)) as Ha by (intros pt E Hx; destruct (frames_apart pt (ps + i) E Hx) as [[] _]; lia).
    destruct tp as [pt |]; [| done]. by rewrite decide_False by (by apply Ha).
  - exists pf. intros i Hi. destruct (building_held _ _ _ _ _ _ _ (pf + i) Hvm Hbd (proj2 frame_elem)) as (Hf & Hnk & _); [cbn; lia |]. split; [| split; [exact Hf | exact Hnk]].
    pose proof (bd_ranges _ _ _ _ _ _ Hbd) as Hro. rewrite Forall_forall in Hro. destruct (ro_bounds _ (Hro _ (proj1 frame_elem))) as (B1 & B2 & B3). cbn in B1, B2, B3.
    rewrite (bd_shown _ _ _ _ _ _ Hbd (frame_range slot pf) _ (proj1 frame_elem)); [cbn; rewrite off_at by lia; done | unfold is_u64, W64; lia | unfold in_range; cbn; rewrite off_at by lia; lia].
  - intros Hm i Hi. apply (tb_tls _ _ _ _ _ _ _ _ Hb) in Hm as [pt E]. pose proof (building_sees _ _ _ _ _ _ (tls_range slot pt) i Hbd (proj1 (tls_elem pt E)) Hi) as Hs. cbn [rg_pa rg_va tls_range] in Hs. rewrite Hs. f_equal.
    unfold thread_memory_bytes, thread_bytes. destruct (frames_apart pt (pt + i) E ltac:(lia)) as [_ Hx]. rewrite (decide_False (P := pf <= _ < _)) by done. rewrite E, decide_True by lia. f_equal. lia.
  - intros va Hva Ha. unfold proc_byte. rewrite (bd_fresh _ _ _ _ _ _ Hbd va); [done | destruct Hva; unfold is_u64, W64; lia | by apply addr_in_ranges].
  - intros va Hva Ha. unfold proc_byte. rewrite (bd_else _ _ _ _ _ _ Hbd va); [| destruct Hva; unfold is_u64, W64; lia | by rewrite <- addr_in_ranges]. destruct (virt_to_phys (pte_mem v0) (pm_root p) va) as [[pa |] |] eqn:E; [| done | done].
    destruct (Hn va pa Hva E). by rewrite kept_in_use.
  - apply (building_no_dangling _ _ _ _ _ _ Hvm Hn Hbd). intros r Hr. unfold thread_ranges in Hr. apply elem_of_app in Hr as [Hr | Hr].
    + destruct tp as [pt |] eqn:E; [| by apply not_elem_of_nil in Hr]. apply list_elem_of_singleton in Hr as ->. exists (BUser pt tls_layout). split; [by left | split; [done |]]. reflexivity.
    + rewrite !elem_of_cons, elem_of_nil in Hr. destruct Hr as [-> | [-> | []]]; eexists; [split; [apply frame_elem |] | split; [apply stack_elem |]]; by split; reflexivity.
Qed.
End sees.

(** ** A thread is added *)

Lemma insert_all_other ms : forall l va, va ∉ um_vaddr <$> ms -> bm_get va (insert_all l ms) = bm_get va l.
Proof.
  induction ms as [| m ms IH]; intros l va Hva; [done |]. cbn [fmap list_fmap] in Hva. apply not_elem_of_cons in Hva as [Hne Hva]. cbn [insert_all foldl]. fold (insert_all (bm_insert (um_vaddr m) m l) ms).
  by rewrite IH, bm_get_insert_ne.
Qed.

Lemma building_back rt v0 ml mem v : vm_ok rt v0 -> building rt v0 [] ml mem v -> vm_ok rt v /\ given_back v0 v.
Proof.
  intros Hvm Hb. split; [by eapply building_vm |]. assert (forall x, ~ in_blocks [] x) as Hno by (intros x (k & q & Hin & _); by apply not_elem_of_nil in Hin).
  intros x. pose proof (bd_free _ _ _ _ _ _ Hb true x) as H1. pose proof (bd_free _ _ _ _ _ _ Hb false x) as H2. pose proof (Hno x). cbn in *. tauto.
Qed.

Lemma undone_back rt v0 slot stack_size v : vm_ok rt v0 -> undone rt v0 slot stack_size v -> vm_ok rt v /\ given_back v0 v.
Proof. intros Hvm (ml & mem & Hb & _). by apply (building_back rt v0 ml mem v). Qed.

(** The process with the entries of a new slot. *)
Section added.
Context (p : ProcMem) (slot stack_size ps pf : Z) (tp : option Z) (bits : SlotAlloc) (count : Z).
Hypothesis (Hsz : validate_user_stack_size stack_size = true) (Hslots : slots_wf (pm_slots p)) (Hsorted : bm_sorted (pm_maps p)).
Hypothesis (Hkeys : forall slot va, 0 <= slot < 256 -> slot_bit (pm_slots p) slot = false -> va ∈ slot_vaddrs slot -> bm_get va (pm_maps p) = None).
Hypothesis (Hentries : forall slot, 0 <= slot < 256 -> slot_bit (pm_slots p) slot = false -> slot_entries slot (pm_maps p) = []).
Hypothesis (Ea : slot_alloc 0 (pm_slots p) = (Some slot, bits)).

Let ms := entries_at slot stack_size ps pf tp.

Lemma slot_facts : 0 <= slot < 256 /\ slots_wf bits /\ slot_bit (pm_slots p) slot = false /\ slot_bit bits slot = true /\ slot_free slot bits = Done (pm_slots p) /\ (forall slot', 0 <= slot' < slot -> slot_bit (pm_slots p) slot' = true).
Proof. pose proof (slot_alloc_ok _ Hslots) as H. by rewrite Ea in H. Qed.

Lemma entries_fresh : NoDup (um_vaddr <$> ms) /\ Forall (fun m => bm_get (um_vaddr m) (pm_maps p) = None) ms /\ (forall m, m ∈ ms -> um_vaddr m ∈ slot_vaddrs slot).
Proof.
  destruct slot_facts as (Hs & _ & Hf & _). destruct (thread_mappings_vaddrs slot stack_size ps pf tp Hs) as [Hnd Hin]. split_and!; try done.
  apply Forall_forall. intros m Hm. apply (Hkeys slot); [done | done | by apply Hin].
Qed.

(** The invariant of the entries. *)
Lemma added_entries :
  bm_sorted (insert_all (pm_maps p) ms) /\
  (forall slot' va, 0 <= slot' < 256 -> slot_bit bits slot' = false -> va ∈ slot_vaddrs slot' -> bm_get va (insert_all (pm_maps p) ms) = None) /\
  (forall slot', 0 <= slot' < 256 -> slot_bit bits slot' = false -> slot_entries slot' (insert_all (pm_maps p) ms) = []).
Proof.
  destruct slot_facts as (Hs & _ & Hf & Ht & _). destruct entries_fresh as (Hnd & Hg & Hin).
  assert (forall slot', 0 <= slot' < 256 -> slot_bit bits slot' = false -> slot' <> slot /\ slot_bit (pm_slots p) slot' = false) as Hfree.
  { intros slot' Hs' Hf'. assert (slot' <> slot) as Hne by (intros ->; congruence). split; [done |]. by rewrite <- (slot_alloc_other _ _ _ slot' Hslots Ea) by lia. }
  split_and!; [by apply insert_all_ok | |].
  - intros slot' va Hs' Hf' Hva. destruct (Hfree slot' Hs' Hf') as [Hne Hf0]. rewrite insert_all_other; [by apply (Hkeys slot') |].
    intros (m & -> & Hm)%list_elem_of_fmap. destruct (slot_vaddrs_ok slot Hs) as [_ Hd]. by apply (Hd slot' Hs' Hne (um_vaddr m) (Hin m Hm)).
  - intros slot' Hs' Hf'. destruct (Hfree slot' Hs' Hf') as [Hne Hf0]. destruct (inserted_slot (pm_maps p) ms slot) as [Ho _]; try done; [by apply thread_mappings_kinds |].
    specialize (Ho slot' Hne). rewrite (Hentries slot' Hs' Hf0) in Ho. by apply Permutation_nil_r in Ho.
Qed.
End added.

(** The state after a thread was added to a process. *)
Record thread_added (pid : Z) (p : ProcMem) (pr : Process) (entrypoint stack_size allowed affinity arg : Z) (k k' : Tk) (slot tid : Z) : Prop := {
  ta_slot : 0 <= slot < SLOT_CAPACITY /\ slot_bit (pm_slots p) slot = false /\ forall slot', 0 <= slot' < slot -> slot_bit (pm_slots p) slot' = true;
  ta_tid : bm_get tid (cr_threads (tk_cred k)) = None;
  ta_cred : tk_cred k' = mkCred (bm_insert pid (set_pr_threads (bt_insert tid (pr_threads pr)) pr) (cr_procs (tk_cred k)))
    (bm_insert tid (new_thread pid (pm_root_pa p) entrypoint slot stack_size allowed affinity arg tid pr) (cr_threads (tk_cred k)));
  ta_ready : tk_ready k' = tk_ready k ++ [tid];
  ta_built : exists ps pf tp bits, slot_alloc 0 (pm_slots p) = (Some slot, bits) /\ thread_built p slot stack_size ps pf tp (tk_vm k) (tk_vm k') /\
    tk_mem k' = <[pid := set_pm_thread_count (Z.min (pm_thread_count p + 1) (2 ^ 16 - 1)) (set_pm_maps (insert_all (pm_maps p) (entries_at slot stack_size ps pf tp)) (set_pm_slots bits p))]> (tk_mem k);
}.

(** The state after a failure: all that may differ is what the tables say of a free slot,
    and the contents of free frames. *)
Record not_added (p : ProcMem) (stack_size : Z) (k k' : Tk) : Prop := {
  na_cred : tk_cred k' = tk_cred k;
  na_mem : tk_mem k' = tk_mem k;
  na_ready : tk_ready k' = tk_ready k;
  na_back : given_back (tk_vm k) (tk_vm k') /\ vm_ok (pm_root p) (tk_vm k');
  na_else : tk_vm k' = tk_vm k \/ exists slot, slot_bit (pm_slots p) slot = false /\ undone (pm_root p) (tk_vm k) slot stack_size (tk_vm k');
}.

Lemma put_back p bits : set_pm_slots (pm_slots p) (set_pm_slots bits p) = p.
Proof. by destruct p. Qed.

Lemma add_thread_ok pid p pr k entrypoint stack_size allowed affinity arg :
  proc_ok pid p pr k -> Z.of_nat (length (cr_threads (tk_cred k))) < 2 ^ 32 -> validate_user_stack_size stack_size = true ->
  exists r k', add_new_thread_to_process pid entrypoint stack_size allowed affinity arg k = Done (r, k') /\
    match r with Err _ => not_added p stack_size k k' | Ok _ => exists slot tid, thread_added pid p pr entrypoint stack_size allowed affinity arg k k' slot tid end.
Proof.
  intros [Hm Hpr Hvm Hsl Hso Hke Hen Hth] Hn Hsz. unfold add_new_thread_to_process. rewrite Hm. pose proof (slot_alloc_ok _ Hsl) as Ha. destruct (slot_alloc 0 (pm_slots p)) as [[slot |] bits] eqn:Ea.
  2: { destruct Ha as [-> _]. exists (Err tt), k. split; [| split; try done; by left]. do 2 f_equal.
    destruct k, p; unfold put_mem, set_tk_mem, set_pm_slots; cbn in *; f_equal; by rewrite insert_id. }
  destruct Ha as (Hs & _ & Hf & _ & Hback & Hlow). set (p1 := set_pm_slots bits p). set (k1 := put_mem pid p1 k).
  destruct (create_new_thread_ok pid p1 pr k1 slot stack_size entrypoint allowed affinity arg) as (r & k2 & E & Hr); try done; [cbn; by rewrite lookup_insert_eq |].
  change (pm_root p) with (pm_root p1). change (pm_root_pa p) with (pm_root_pa p1). rewrite E. cbn [pbind]. destruct r as [t | e].
  - destruct Hr as (ps & pf & tp & v & tid & Htid & -> & Hb & ->). cbn [tk_cred tk_mem]. change (cr_procs (tk_cred k1)) with (cr_procs (tk_cred k)). rewrite Hpr, lookup_insert_eq.
    change (t_tid (new_thread _ _ _ _ _ _ _ _ _ _)) with tid. rewrite bool_decide_eq_false_2 by (intros Hin; destruct (Hth pid pr tid Hpr Hin) as [t Ht]; change (cr_threads (tk_cred k1)) with (cr_threads (tk_cred k)) in Htid; congruence).
    do 2 eexists. split; [done |]. exists slot, tid. split; try done. exists ps, pf, tp, bits. split; [done |]. split; [by destruct Hb; split |]. cbn. by rewrite !insert_insert_eq.
  - destruct Hr as (v & -> & Hu). cbn [set_tk_vm tk_mem k1 put_mem set_tk_mem]. change (tk_mem (set_tk_vm v k1)) with (<[pid := p1]> (tk_mem k)). rewrite lookup_insert_eq. change (pm_slots p1) with bits. rewrite Hback. cbn [pbind].
    do 2 eexists. split; [done |]. destruct (undone_back _ _ _ _ _ Hvm Hu) as [Hv Hgb]. split; try done; [| right; by exists slot].
    cbn. rewrite insert_insert_eq. change (set_pm_slots (pm_slots p) p1) with (set_pm_slots (pm_slots p) (set_pm_slots bits p)). rewrite put_back. by apply insert_id.
Qed.

Lemma added_ok pid p pr entrypoint stack_size allowed affinity arg k k' slot tid :
  proc_ok pid p pr k -> validate_user_stack_size stack_size = true -> thread_added pid p pr entrypoint stack_size allowed affinity arg k k' slot tid ->
  exists p', pm_root p' = pm_root p /\ proc_ok pid p' (set_pr_threads (bt_insert tid (pr_threads pr)) pr) k'.
Proof.
  intros [Hm Hpr Hvm Hsl Hso Hke Hen Hth] Hsz [Hslot Htid Hcr Hrd (ps & pf & tp & bits & Ea & Hb & Emem)].
  destruct (slot_facts p slot bits Hsl Ea) as (Hs & Hbw & _). destruct (added_entries p slot stack_size ps pf tp bits Hsz Hsl Hso Hke Hen Ea) as (A1 & A2 & A3).
  eexists. split; [| split; [rewrite Emem; apply lookup_insert_eq | rewrite Hcr; apply bm_get_insert_eq | eapply building_vm; [exact Hvm | apply Hb] | exact Hbw | exact A1 | exact A2 | exact A3 |]]; [done |].
  rewrite Hcr. cbn [cr_procs cr_threads]. intros pid' pr' tid' Hp' Hin. rewrite bm_get_insert. destruct (decide (tid' = tid)); [eauto |]. rewrite bm_get_insert in Hp'.
  destruct (decide (pid' = pid)) as [-> |]; [| by apply (Hth pid' pr')]. injection Hp' as <-. cbn in Hin. apply elem_of_bt_insert in Hin as [-> | Hin]; [done | by apply (Hth pid pr)].
Qed.

Lemma added_agree pid p pr entrypoint stack_size allowed affinity arg k k' slot tid :
  proc_ok pid p pr k -> thread_added pid p pr entrypoint stack_size allowed affinity arg k k' slot tid -> threads_agree (tk_cred k) -> threads_agree (tk_cred k').
Proof.
  intros [_ Hpr _ _ _ _ _ Hth] [_ Htid Hcr _ _] Ha. rewrite Hcr. intros pid' pr' tid' t Hp Hin Ht. cbn [cr_procs cr_threads] in *. rewrite bm_get_insert in Hp. rewrite bm_get_insert in Ht.
  destruct (decide (tid' = tid)) as [-> | Hne], (decide (pid' = pid)) as [-> | Hnp].
  - injection Hp as <-. injection Ht as <-. done.
  - destruct (Hth pid' pr' tid Hp Hin) as [? ?]. congruence.
  - injection Hp as <-. cbn in Hin. apply elem_of_bt_insert in Hin as [-> | Hin]; [done |]. by apply (Ha pid pr tid' t Hpr Hin).
  - by apply (Ha pid' pr' tid' t).
Qed.

Lemma last_insert tid l : Forall (fun x => x < tid) l -> last (bt_insert tid l) = Some tid.
Proof.
  induction 1 as [| x l Hx Hl IH]; [done |]. cbn [bt_insert]. destruct (Z.ltb_spec tid x), (Z.eqb_spec tid x); try lia. destruct (bt_insert tid l) as [| y l'] eqn:E; [| exact IH]. done.
Qed.

(** The masks of the harts a new thread may run on. *)
Record masks_ok (parent_allowed all_harts allowed affinity : Z) : Prop := {
  mk_parent : Z.land allowed (wnot parent_allowed) = 0;
  mk_harts : Z.land allowed (wnot all_harts) = 0;
  mk_affinity : Z.land affinity (wnot allowed) = 0;
  mk_some : affinity <> 0;
}.

Definition asked_allowed (req : CreateThreadReq) (parent_allowed : Z) : Z := if ct_allowed_affinity req =? 0 then parent_allowed else ct_allowed_affinity req.
Definition asked_affinity (req : CreateThreadReq) (parent_allowed : Z) : Z := if ct_affinity req =? 0 then asked_allowed req parent_allowed else ct_affinity req.

Inductive create_outcome (pid : Z) (p : ProcMem) (pr : Process) (req : CreateThreadReq) (parent_allowed : Z) (k : Tk) : Z -> Tk -> Prop :=
| co_refused ret : ~ masks_ok parent_allowed (all_harts_mask k) (asked_allowed req parent_allowed) (asked_affinity req parent_allowed) ->
    ret ∈ [to_ret errno.EPERM; to_ret errno.EINVAL] -> create_outcome pid p pr req parent_allowed k ret k
| co_no_room k' : not_added p UPROC_STACK_DEFAULT k k' -> create_outcome pid p pr req parent_allowed k (to_ret errno.ENOMEM) k'
| co_created k' slot tid ret :
    masks_ok parent_allowed (all_harts_mask k) (asked_allowed req parent_allowed) (asked_affinity req parent_allowed) ->
    thread_added pid p pr (ct_entry req) UPROC_STACK_DEFAULT (asked_allowed req parent_allowed) (asked_affinity req parent_allowed) (ct_arg req) k k' slot tid ->
    thread_sees p slot UPROC_STACK_DEFAULT (tk_vm k) (tk_vm k') -> (Forall (fun x => x < tid) (pr_threads pr) -> ret = tid) ->
    create_outcome pid p pr req parent_allowed k ret k'.

Lemma masks_cases parent all allowed affinity :
  masks_ok parent all allowed affinity <->
  negb (Z.land allowed (wnot parent) =? 0) = false /\ (negb (Z.land affinity (wnot allowed) =? 0) || (affinity =? 0) || negb (Z.land allowed (wnot all) =? 0))%bool = false.
Proof.
  rewrite !orb_false_iff, !negb_false_iff, !Z.eqb_eq, Z.eqb_neq. split; [intros [H1 H2 H3 H4]; tauto | intros (H1 & (H3 & H4) & H2); by split].
Qed.

Lemma default_size : validate_user_stack_size UPROC_STACK_DEFAULT = true.
Proof. reflexivity. Qed.

Lemma create_thread_returns pid p pr k req parent_allowed :
  proc_ok pid p pr k -> no_dangling (pm_root p) (tk_vm k) -> Z.of_nat (length (cr_threads (tk_cred k))) < 2 ^ 32 ->
  exists ret k', run_create_thread_req req pid parent_allowed k = Done (ret, k') /\ create_outcome pid p pr req parent_allowed k ret k'.
Proof.
  intros Hok Hnd Hn. pose proof (masks_cases parent_allowed (all_harts_mask k) (asked_allowed req parent_allowed) (asked_affinity req parent_allowed)) as Hmk.
  unfold run_create_thread_req. fold (asked_allowed req parent_allowed). fold (asked_affinity req parent_allowed). set (allowed := asked_allowed req parent_allowed) in *. set (affinity := asked_affinity req parent_allowed) in *. cbv zeta.
  destruct (negb (Z.land allowed (wnot parent_allowed) =? 0)); [do 2 eexists; split; [done |]; apply co_refused; [intros Hc; apply Hmk in Hc; by destruct Hc | by left] |].
  destruct (_ || _)%bool; [do 2 eexists; split; [done |]; apply co_refused; [intros Hc; apply Hmk in Hc; by destruct Hc | right; by left] |].
  rewrite (po_proc _ _ _ _ Hok). destruct (add_thread_ok pid p pr k (ct_entry req) UPROC_STACK_DEFAULT allowed affinity (ct_arg req) Hok Hn default_size) as (r & k' & -> & Hr). cbn [pbind].
  destruct r as [u | e]; [| do 2 eexists; split; [done |]; by apply co_no_room]. destruct Hr as (slot & tid & Hadd).
  assert (thread_sees p slot UPROC_STACK_DEFAULT (tk_vm k) (tk_vm k')) as Hse.
  { destruct (ta_built _ _ _ _ _ _ _ _ _ _ _ _ Hadd) as (ps & pf & tp & bits & _ & Hb & _). by apply (built_sees p slot UPROC_STACK_DEFAULT ps pf tp _ _ (po_vm _ _ _ _ Hok) Hb). }
  rewrite (ta_cred _ _ _ _ _ _ _ _ _ _ _ _ Hadd). cbn [cr_procs]. rewrite bm_get_insert_eq. change (pr_threads (set_pr_threads (bt_insert tid (pr_threads pr)) pr)) with (bt_insert tid (pr_threads pr)).
  assert (masks_ok parent_allowed (all_harts_mask k) allowed affinity) as Hmask by (by apply Hmk). destruct (last (bt_insert tid (pr_threads pr))) as [t |] eqn:El.
  - do 2 eexists. split; [done |]. eapply (co_created _ _ _ _ _ _ k' slot tid); try done. intros Hlt. rewrite (last_insert tid _ Hlt) in El. by injection El.
  - apply last_None in El. assert (tid ∈ bt_insert tid (pr_threads pr)) as Hin by (apply elem_of_bt_insert; by left). rewrite El in Hin. by apply not_elem_of_nil in Hin.
Qed.

(** The process is as it was before the thread [tid]: the slot free, the entries gone, the
    frames back in their pools, every address translated as before, the memory in use
    untouched. *)
Record thread_gone (pid : Z) (p : ProcMem) (tid : Z) (k k2 : Tk) : Prop := {
  tg_mem : exists n, tk_mem k2 !! pid = Some (set_pm_thread_count n p);
  tg_back : given_back (tk_vm k) (tk_vm k2) /\ vm_ok (pm_root p) (tk_vm k2);
  tg_map : forall va, is_u64 va -> virt_to_phys (pte_mem (tk_vm k2)) (pm_root p) va = virt_to_phys (pte_mem (tk_vm k)) (pm_root p) va;
  tg_bytes : forall x, ~ is_free (kernel_pages (tk_vm k)) x -> ~ is_free (user_pages (tk_vm k)) x -> byte_at (phys_mem (tk_vm k2)) x = byte_at (phys_mem (tk_vm k)) x;
  tg_ready : tid ∉ tk_ready k2;
}.

(** A thread added and released. *)
Lemma thread_released pid p pr entrypoint stack_size allowed affinity arg k k' slot tid :
  proc_ok pid p pr k -> pid <> 0 -> validate_user_stack_size stack_size = true -> thread_added pid p pr entrypoint stack_size allowed affinity arg k k' slot tid ->
  exists k2, dealloc_thread None None (new_thread pid (pm_root_pa p) entrypoint slot stack_size allowed affinity arg tid pr) k' = Done k2 /\ thread_gone pid p tid k k2.
Proof.
  intros [Hm Hpr Hvm Hsl Hso Hke Hen Hth] Hpid Hsz [Hslot Htid Hcr Hrd (ps & pf & tp & bits & Ea & Hb & Emem)].
  destruct (slot_facts p slot bits Hsl Ea) as (Hs & Hbw & Hf & _ & Hback & _). destruct (entries_fresh p slot stack_size ps pf tp bits Hsl Hke Ea) as (Hnd & Hg & _).
  destruct (thread_mappings_kinds slot stack_size ps pf tp Hs Hsz) as [Hk Hsm]. set (ms := entries_at slot stack_size ps pf tp) in *.
  destruct (inserted_slot (pm_maps p) ms slot Hso Hnd Hg Hk) as [_ Hone]. destruct (Hone (Hen slot Hs Hf)) as (ms' & Hperm & Ems).
  unfold dealloc_thread. cbn [t_slot t_pid t_tid new_thread thread_new i_slot i_pid i_tid]. destruct (Z.eqb_spec pid 0); [done |]. set (kr := set_tk_ready _ k').
  change (tk_mem kr) with (tk_mem k'). rewrite Emem, lookup_insert_eq. set (p' := set_pm_thread_count _ _) in *. unfold mappings_for_slot. change (filter _ (pm_maps p')) with (slot_entries slot (insert_all (pm_maps p) ms)). rewrite Ems.
  destruct (thread_mappings_frames slot stack_size ps pf tp) as [Hpf Hpr'].
  edestruct (release_mappings_ok (pm_root p) (tk_vm k)) as (v & k2 & -> & Hbd & ->).
  - change (tk_mem kr) with (tk_mem k'). rewrite Emem. apply lookup_insert_eq.
  - done.
  - by rewrite Hperm.
  - rewrite Hperm. apply Forall_forall. intros m Hm'. by apply inserted_get.
  - by rewrite Hperm.
  - eapply building_perm; [| | exact (tb_building _ _ _ _ _ _ _ _ Hb)]; [rewrite Hperm; symmetry; exact Hpf | rewrite Hperm; symmetry; exact Hpr'].
  - cbn [pbind]. change (pm_maps p') with (insert_all (pm_maps p) ms). rewrite (remove_inserted (pm_maps p) ms ms' Hso Hnd Hg Hperm). cbn [set_tk_vm put_mem set_tk_mem tk_mem]. rewrite lookup_insert_eq. change (pm_slots (set_pm_maps (pm_maps p) p')) with bits.
    rewrite Hback. cbn [pbind]. eexists. split; [done |]. split; cbn [tk_mem tk_vm tk_ready put_mem set_tk_mem set_tk_vm].
    + eexists. rewrite lookup_insert_eq. by destruct p.
    + by destruct (building_back _ _ _ _ _ Hvm Hbd).
    + intros va Hva. apply (bd_else _ _ _ _ _ _ Hbd va Hva). by intros ?%Exists_nil.
    + intros x Hx Hx'. rewrite (bd_mem _ _ _ _ _ _ Hbd), <- (bd_mem _ _ _ _ _ _ (tb_building _ _ _ _ _ _ _ _ Hb)). by apply (kept_in_use p slot stack_size ps pf tp _ _ Hvm Hb).
    + intros Hin. change (tk_ready kr) with (filter (fun t => t <> tid) (tk_ready k')) in Hin. by apply list_elem_of_filter in Hin as [? _].
Qed.

(** C40. [create_thread] is always answered. It is refused, or fails with every frame, slot and
    entry as before, or adds one thread: in the lowest free slot, under a number no
    thread has, queued to run, with the credentials of its process and masks within the
    parent's and the harts there are. Its stack reads zero, its thread-local data reads
    the template, its trap frame is a page fresh from the kernel's pool, every other
    address of the process reads as before, and none leads to a free frame. The number is returned unless it wrapped
    below one the process already has. Releasing the thread then puts everything back. *)
Theorem create_thread_correct pid p pr k req parent_allowed :
  proc_ok pid p pr k -> pid <> 0 -> no_dangling (pm_root p) (tk_vm k) -> Z.of_nat (length (cr_threads (tk_cred k))) < 2 ^ 32 ->
  exists ret k', run_create_thread_req req pid parent_allowed k = Done (ret, k') /\ create_outcome pid p pr req parent_allowed k ret k' /\
    (exists p' pr', proc_ok pid p' pr' k') /\ (threads_agree (tk_cred k) -> threads_agree (tk_cred k')) /\
    (forall slot tid t, bm_get tid (cr_threads (tk_cred k')) = Some t -> thread_added pid p pr (ct_entry req) UPROC_STACK_DEFAULT (asked_allowed req parent_allowed) (asked_affinity req parent_allowed) (ct_arg req) k k' slot tid ->
      exists k2, dealloc_thread None None t k' = Done k2 /\ thread_gone pid p tid k k2).
Proof.
  intros Hok Hpid Hnd Hn. destruct (create_thread_returns pid p pr k req parent_allowed Hok Hnd Hn) as (ret & k' & E & Ho). exists ret, k'. split_and!; try done.
  - destruct Ho as [ret _ _ | k' [Hc Hm _ [_ Hv] _] | k' slot tid ret _ Hadd _ _]; [by exists p, pr | | edestruct added_ok as (p' & _ & Hok'); [exact Hok | exact default_size | exact Hadd | eauto]].
    exists p, pr. destruct Hok as [H1 H2 H3 H4 H5 H6 H7 H8]. split; rewrite ?Hc, ?Hm; done.
  - destruct Ho as [ret _ _ | k' [Hc _ _ _ _] | k' slot tid ret _ Hadd _ _]; [done | by rewrite Hc | by eapply added_agree].
  - intros slot tid t Ht Hadd. rewrite (ta_cred _ _ _ _ _ _ _ _ _ _ _ _ Hadd) in Ht. cbn [cr_threads] in Ht. rewrite bm_get_insert_eq in Ht. injection Ht as <-. by apply (thread_released pid p pr _ _ _ _ _ k k' slot tid Hok Hpid default_size).
Qed.

(** ** Concrete processes *)

#[local] Instance pool_free_dec fa x : Decision (is_free fa x).
Proof. unfold is_free. apply _. Defined.

(** Process 7, with a template of three bytes and one thread elsewhere, over [v]. *)
Definition ex_mem : ProcMem := mkProcMem ex_rt 0x80200000 SlotAlloc_new [] (Some [1; 2; 3]) 3 0.
Definition ex_proc : Process := set_pr_threads [] (fresh_process 7 1 false 0).
Definition ex_tk (v : Vm) : Tk := mkTk v {[7 := ex_mem]} (mkCred [(7, ex_proc)] []) 0 [] 4.
Definition ex_req : CreateThreadReq := mkCreateThreadReq 0x400000 0 2 99.

Lemma ex_tk_ok v : vm_ok ex_rt v -> proc_ok 7 ex_mem ex_proc (ex_tk v).
Proof.
  intros Hv. split; try done; [split; [done | repeat constructor; unfold is_u64, W64; lia] | constructor |]. intros pid' pr' tid Hg Hin. cbn in Hg. rewrite bm_get_cons in Hg. destruct (decide _); [| done].
  injection Hg as <-. by apply not_elem_of_nil in Hin.
Qed.

(** As [vm0], with two pages left for tables. *)
Definition vm_few : Vm := set_table_pages (pool 0x80201000 0x80203000) vm0.

Lemma vm_few_ok : vm_ok ex_rt vm_few.
Proof.
  destruct (pool_spec 0x80201000 0x80203000) as [T1 T2]; [lia | lia |]. pose proof vm0_ok as [H1 H2 H3 H4 _]. split; [exact H1 | exact H2 | exact H3 | exact H4 |].
  change (table_pages vm_few) with (pool 0x80201000 0x80203000). change (pte_mem vm_few) with (∅ : gmap Z Z).
  apply fresh_root_wf; [by vm_compute | by exists (0xFFC080200000 / 4096) | by vm_compute | by exists (0xFFC000000000 / 4096) | intros i _; by vm_compute | apply T1 | |].
  - intros x. cbn [psrc_free FrameAllocator_PageSource]. rewrite T2. lia.
  - cbn [psrc_free FrameAllocator_PageSource]. rewrite T2. vm_compute (wsub _ _). lia.
Qed.

(** A creation that fails late leaves the process with memory that is not its own: the
    stack is mapped, the table pages run out at the trap frame, and the stack's frame
    is freed without being unmapped. *)
Theorem failed_create_dangles : exists k' pa, proc_ok 7 ex_mem ex_proc (ex_tk vm_few) /\ run_create_thread_req ex_req 7 15 (ex_tk vm_few) = Done (to_ret errno.ENOMEM, k') /\
  virt_to_phys (pte_mem (tk_vm k')) ex_rt (user_stack_vaddr 0 UPROC_STACK_DEFAULT) = Done (Some pa) /\ is_free (user_pages (tk_vm k')) pa.
Proof.
  assert (match run_create_thread_req ex_req 7 15 (ex_tk vm_few) with
          | Done (c, k') => bool_decide (c = to_ret errno.ENOMEM) && match virt_to_phys (pte_mem (tk_vm k')) ex_rt (user_stack_vaddr 0 UPROC_STACK_DEFAULT) with Done (Some pa) => bool_decide (is_free (user_pages (tk_vm k')) pa) | _ => false end
          | Panic => false
          end = true) as H by (by vm_compute).
  destruct (run_create_thread_req ex_req 7 15 (ex_tk vm_few)) as [[c k'] |]; [| discriminate H]. apply andb_true_iff in H as [H1 H2]. apply bool_decide_eq_true in H1 as ->.
  exists k'. destruct (virt_to_phys _ _ _) as [[pa |] |]; [| discriminate H2 | discriminate H2]. apply bool_decide_eq_true in H2. exists pa. split; [apply ex_tk_ok, vm_few_ok | done].
Qed.

Lemma create_thread_correct_witness : exists k' k2 slot t, run_create_thread_req ex_req 7 15 (ex_tk vm0) = Done (1, k') /\ thread_sees ex_mem slot UPROC_STACK_DEFAULT vm0 (tk_vm k') /\ threads_agree (tk_cred k') /\
  bm_get 1 (cr_threads (tk_cred k')) = Some t /\ dealloc_thread None None t k' = Done k2 /\ thread_gone 7 ex_mem 1 (ex_tk vm0) k2.
Proof.
  destruct (create_thread_correct 7 ex_mem ex_proc (ex_tk vm0) ex_req 15 (ex_tk_ok vm0 vm0_ok) ltac:(discriminate) vm0_no_dangling) as (ret & k' & E & Ho & _ & Ha & Hg); [reflexivity |].
  assert (ret = 1) as ->.
  { change ret with (match Done (ret, k') with Done (c, _) => c | Panic => 0 end). rewrite <- E. vm_compute. reflexivity. }
  inversion Ho as [ret Hn Hin | | k2 slot tid ret Hmk Hadd Hsee Hret]; [rewrite !elem_of_cons, elem_of_nil in Hin; destruct Hin as [Hc | [Hc | []]]; discriminate Hc |].
  assert (tid = 1) as -> by (symmetry; apply Hret; constructor). assert (exists t, bm_get 1 (cr_threads (tk_cred k')) = Some t) as [t Ht] by (rewrite (ta_cred _ _ _ _ _ _ _ _ _ _ _ _ Hadd); eexists; apply bm_get_insert_eq).
  destruct (Hg slot 1 t Ht Hadd) as (k3 & Ed & Hgone). exists k', k3, slot, t. split; [exact E |]. split; [exact Hsee |]. split; [apply Ha; intros pid' pr' tid t' Hp Hin Ht'; discriminate Ht' |].
  split; [exact Ht |]. split; [exact Ed | exact Hgone].
Defined.
