(* ===== verification/Accounting.v ===== *)
(** * Time accounting

    Models [orbit-core/src/accounting.rs] and its wrappers in
    [kmain/src/kernel/accounting.rs]: the four buckets a hart's wall time is
    split into, and the per-system-call service-time table. [now] is the time
    counter read by the caller. *)

From stdpp Require Import base list option numbers sets gmap.
From S2P Require Import Prelude Abi Perms Thread.
#[local] Open Scope Z_scope.

Inductive HartBucket := BUser | BKernel | BScheduler | BIdle.

#[export] Instance HartBucket_eq_dec : EqDecision HartBucket.
Proof. solve_decision. Defined.

Definition bucket_u8 (b : HartBucket) : Z :=
  match b with BUser => 0 | BKernel => 1 | BScheduler => 2 | BIdle => 3 end.

Definition bucket_from_u8 (v : Z) : HartBucket :=
  if v =? 0 then BUser else if v =? 1 then BKernel else if v =? 2 then BScheduler else BIdle.

(** The accounting fields of [device::HartContext]. *)
Record HartTicks := mkHartTicks {
  current_bucket : Z;
  bucket_enter_tick : Z;
  user_ticks : Z;
  kernel_ticks : Z;
  scheduler_ticks : Z;
  idle_ticks : Z;
}.

Definition init_hart_bucket (b : HartBucket) (now : Z) (h : HartTicks) : HartTicks :=
  mkHartTicks (bucket_u8 b) now (user_ticks h) (kernel_ticks h) (scheduler_ticks h) (idle_ticks h).

(** [fetch_add] on the counter of a bucket. *)
Definition credit (b : HartBucket) (d : Z) (h : HartTicks) : HartTicks :=
  match b with
  | BUser => mkHartTicks (current_bucket h) (bucket_enter_tick h) (wadd (user_ticks h) d) (kernel_ticks h) (scheduler_ticks h) (idle_ticks h)
  | BKernel => mkHartTicks (current_bucket h) (bucket_enter_tick h) (user_ticks h) (wadd (kernel_ticks h) d) (scheduler_ticks h) (idle_ticks h)
  | BScheduler => mkHartTicks (current_bucket h) (bucket_enter_tick h) (user_ticks h) (kernel_ticks h) (wadd (scheduler_ticks h) d) (idle_ticks h)
  | BIdle => mkHartTicks (current_bucket h) (bucket_enter_tick h) (user_ticks h) (kernel_ticks h) (scheduler_ticks h) (wadd (idle_ticks h) d)
  end.

(** [switch_bucket]; [cur] is the hart's current thread, if any. *)
Definition switch_bucket (new : HartBucket) (now : Z) (h : HartTicks) (cur : option Thread) : HartTicks * option Thread :=
  let prev := bucket_from_u8 (current_bucket h) in
  let elapsed := wsub now (bucket_enter_tick h) in
  let h := credit prev elapsed (mkHartTicks (bucket_u8 new) now (user_ticks h) (kernel_ticks h) (scheduler_ticks h) (idle_ticks h)) in
  (h, if bool_decide (prev = BUser) then (fun t => store_cpu_ticks_total (wadd (t_cpu_ticks_total t) elapsed) t) <$> cur else cur).

(** One row of the table. *)
Record SyscallSlot := mkSlot { sc_count : Z; sc_total_ticks : Z; sc_max_ticks : Z }.
Definition SyscallSlot_new : SyscallSlot := mkSlot 0 0 0.

Definition slot_record (elapsed : Z) (s : SyscallSlot) : SyscallSlot :=
  mkSlot (wadd (sc_count s) 1) (wadd (sc_total_ticks s) elapsed) (Z.max (sc_max_ticks s) elapsed).

(** [record_syscall]: the table is indexed by [Sysno::ordinal]. *)
Definition SYSCALL_STATS : list SyscallSlot := replicate (Z.to_nat SYSNO_COUNT) SyscallSlot_new.

Definition record_syscall (n start now : Z) (stats : list SyscallSlot) (t : Thread) : list SyscallSlot * Thread :=
  let elapsed := wsub now start in
  (match from_usize n with
   | Some s => alter (slot_record elapsed) (Z.to_nat (ordinal s)) stats
   | None => stats
   end, account_syscall elapsed t).

Definition sum_hart_counter (field : HartTicks -> Z) (harts : list HartTicks) : Z :=
  foldl (fun acc h => wadd acc (field h)) 0 harts.

(** ** Where the time goes *)

Definition counter (b : HartBucket) (h : HartTicks) : Z :=
  match b with BUser => user_ticks h | BKernel => kernel_ticks h | BScheduler => scheduler_ticks h | BIdle => idle_ticks h end.

(** A run of transitions, each with the time it happened at, by one hart. *)
Definition switches (run : list (HartBucket * Z)) (h : HartTicks) (cur : option Thread) : HartTicks * option Thread :=
  foldl (fun s e => switch_bucket e.1 e.2 s.1 s.2) (h, cur) run.

(** The reference: the time spent in bucket [b] by a hart that is in [prev] since
    [start] and then makes the transitions of [run]. *)
Fixpoint spent (b prev : HartBucket) (start : Z) (run : list (HartBucket * Z)) : Z :=
  match run with
  | [] => 0
  | (nb, now) :: run' => (if bool_decide (prev = b) then wsub now start else 0) + spent b nb now run'
  end.

Definition last_time (start : Z) (run : list (HartBucket * Z)) : Z := default start (snd <$> last run).

Lemma bucket_roundtrip b : bucket_from_u8 (bucket_u8 b) = b.
Proof. by destruct b. Qed.

(** A hart in bucket [prev] since [start]. *)
Definition in_bucket (prev : HartBucket) (start : Z) (h : HartTicks) : Prop :=
  current_bucket h = bucket_u8 prev /\ bucket_enter_tick h = start.

Lemma switch_counter b prev start nb now h cur :
  in_bucket prev start h -> is_u64 (counter b h) ->
  let '(h', cur') := switch_bucket nb now h cur in
  in_bucket nb now h' /\ is_u64 (counter b h') /\
  counter b h' = u64 (counter b h + (if bool_decide (prev = b) then wsub now start else 0)) /\
  cur' = (fun t => if bool_decide (prev = BUser) then store_cpu_ticks_total (wadd (t_cpu_ticks_total t) (wsub now start)) t else t) <$> cur.
Proof.
  intros [Hc Ht] Hu. unfold switch_bucket. rewrite Hc, Ht, bucket_roundtrip.
  split; [by destruct prev |]. split; [destruct prev, b; cbn in *; try done; apply u64_range |]. split.
  - destruct prev, b; cbn; rewrite ?Z.add_0_r; try done; symmetry; by apply u64_small.
  - destruct prev, cur; done.
Qed.

Lemma u64_add_l a b : u64 (u64 a + b) = u64 (a + b).
Proof. apply Zplus_mod_idemp_l. Qed.

Lemma switches_counter b run : forall prev start h cur,
  in_bucket prev start h -> is_u64 (counter b h) ->
  counter b (switches run h cur).1 = u64 (counter b h + spent b prev start run).
Proof.
  induction run as [| [nb now] run IH]; intros prev start h cur Hin Hu; cbn [switches foldl spent fst snd].
  - rewrite Z.add_0_r. symmetry. by apply u64_small.
  - pose proof (switch_counter b prev start nb now h cur Hin Hu) as Hs.
    destruct (switch_bucket nb now h cur) as [h' cur']. destruct Hs as (Hin' & Hu' & Ec & _).
    fold (switches run h' cur'). rewrite (IH nb now h' cur' Hin' Hu'), Ec, u64_add_l. f_equal. lia.
Qed.

Lemma switches_thread run : forall prev start h t,
  in_bucket prev start h -> is_u64 (t_cpu_ticks_total t) -> is_u64 (user_ticks h) ->
  exists t', (switches run h (Some t)).2 = Some t' /\
    t_cpu_ticks_total t' = u64 (t_cpu_ticks_total t + spent BUser prev start run).
Proof.
  induction run as [| [nb now] run IH]; intros prev start h t Hin Hu Huh; cbn [switches foldl spent fst snd].
  - exists t. rewrite Z.add_0_r. split; [done |]. symmetry. by apply u64_small.
  - pose proof (switch_counter BUser prev start nb now h (Some t) Hin Huh) as Hs.
    destruct (switch_bucket nb now h (Some t)) as [h' cur']. destruct Hs as (Hin' & Hu' & _ & ->).
    cbn [fmap option_fmap option_map]. fold (switches run h').
    set (t1 := if bool_decide (prev = BUser) then _ else t).
    assert (is_u64 (t_cpu_ticks_total t1) /\
      t_cpu_ticks_total t1 = u64 (t_cpu_ticks_total t + (if bool_decide (prev = BUser) then wsub now start else 0))) as [Ht1 Et1].
    { unfold t1. destruct (bool_decide (prev = BUser)); [split; [apply u64_range | done] |].
      split; [done |]. rewrite Z.add_0_r. symmetry. by apply u64_small. }
    destruct (IH nb now h' t1 Hin' Ht1 Hu') as (t' & Hsw & Hcpu).
    exists t'. split; [exact Hsw |]. rewrite Hcpu, Et1, u64_add_l. f_equal. lia.
Qed.

(** The four shares add up to the time elapsed. *)
Lemma spent_total run : forall prev start,
  u64 (spent BUser prev start run + spent BKernel prev start run + spent BScheduler prev start run + spent BIdle prev start run)
  = wsub (last_time start run) start.
Proof.
  induction run as [| [nb now] run IH]; intros prev start; cbn [spent].
  - unfold last_time. cbn. unfold wsub. by rewrite Z.sub_diag.
  - specialize (IH nb now). assert (last_time start ((nb, now) :: run) = last_time now run) as ->.
    { unfold last_time. destruct run as [| e run] using rev_ind; [done |].
      by rewrite app_comm_cons, !last_snoc. }
    set (d := wsub now start) in *.
    transitivity (u64 (u64 (spent BUser nb now run + spent BKernel nb now run + spent BScheduler nb now run + spent BIdle nb now run) + d)).
    { rewrite u64_add_l. f_equal. clearbody d. destruct prev; repeat case_bool_decide; try congruence; lia. }
    rewrite IH. unfold d, wsub. rewrite u64_add_l. unfold u64. rewrite Zplus_mod_idemp_r. f_equal. lia.
Qed.

(** A hart's time is fully accounted: after any run of bucket switches each
    counter has grown by exactly the time the hart spent in that bucket, the four
    together by the time elapsed since the start (modulo the word), and a thread
    that was current throughout has its CPU time grown by the user share. *)
Theorem time_accounted b run b0 t0 h t :
  (forall c, is_u64 (counter c h)) -> is_u64 (t_cpu_ticks_total t) ->
  let h0 := init_hart_bucket b0 t0 h in
  let '(h', cur') := switches run h0 (Some t) in
  counter b h' = u64 (counter b h + spent b b0 t0 run) /\
  u64 (user_ticks h' + kernel_ticks h' + scheduler_ticks h' + idle_ticks h') =
    u64 (user_ticks h + kernel_ticks h + scheduler_ticks h + idle_ticks h + (last_time t0 run - t0)) /\
  exists t', cur' = Some t' /\ t_cpu_ticks_total t' = u64 (t_cpu_ticks_total t + spent BUser b0 t0 run).
Proof.
  intros Hh Ht h0. assert (Hin : in_bucket b0 t0 h0) by done.
  assert (Hc : forall c, counter c (switches run h0 (Some t)).1 = u64 (counter c h + spent c b0 t0 run)).
  { intros c. assert (counter c h0 = counter c h) as E by (by destruct c). rewrite <- E. apply switches_counter; [done |].
    rewrite E. apply Hh. }
  destruct (switches_thread run b0 t0 h0 t Hin Ht (Hh BUser)) as (t' & Et & Ecpu).
  destruct (switches run h0 (Some t)) as [h' cur']. cbn [fst snd] in *. split_and!; [done | | eauto].
  pose proof (Hc BUser) as E1. pose proof (Hc BKernel) as E2. pose proof (Hc BScheduler) as E3. pose proof (Hc BIdle) as E4.
  cbn [counter] in *. rewrite E1, E2, E3, E4. pose proof (spent_total run b0 t0) as Es. unfold wsub in Es.
  rewrite <- !Z.add_assoc, u64_add_l. rewrite (Z.add_comm (user_ticks h + _)), <- !Z.add_assoc, u64_add_l.
  rewrite (Z.add_comm (kernel_ticks h + _)), <- !Z.add_assoc, u64_add_l. rewrite (Z.add_comm (scheduler_ticks h + _)), <- !Z.add_assoc, u64_add_l.
  transitivity (u64 (u64 (spent BUser b0 t0 run + spent BKernel b0 t0 run + spent BScheduler b0 t0 run + spent BIdle b0 t0 run)
    + (user_ticks h + kernel_ticks h + scheduler_ticks h + idle_ticks h))).
  - rewrite u64_add_l. f_equal. lia.
  - rewrite Es, u64_add_l. f_equal. lia.
Qed.

(** The service-time table: recording a call bumps exactly the row of its
    number, by one call and its elapsed ticks, keeps that row's maximum, and bumps
    the thread's own counters by the same; a number that is no system call leaves
    the table alone. *)
Theorem syscall_recorded n start now stats t :
  length stats = Z.to_nat SYSNO_COUNT ->
  let '(stats', t') := record_syscall n start now stats t in
  length stats' = length stats /\
  t_syscall_count t' = wadd (t_syscall_count t) 1 /\ t_syscall_ticks t' = wadd (t_syscall_ticks t) (wsub now start) /\
  match from_usize n with
  | None => stats' = stats
  | Some s =>
      (exists r, stats !! Z.to_nat (ordinal s) = Some r /\
        stats' !! Z.to_nat (ordinal s) = Some (slot_record (wsub now start) r)) /\
      (forall s', s' <> s -> stats' !! Z.to_nat (ordinal s') = stats !! Z.to_nat (ordinal s'))
  end.
Proof.
  intros Hl. unfold record_syscall. destruct (from_usize n) as [s |]; [| done].
  split_and!; [by rewrite length_alter | done | done | |].
  - destruct (lookup_lt_is_Some_2 stats (Z.to_nat (ordinal s))) as [r Hr].
    { rewrite Hl. destruct s; vm_compute; lia. }
    exists r. split; [done |]. by rewrite list_lookup_alter_eq, Hr.
  - intros s' Hne. rewrite list_lookup_alter_ne; [done |]. intros E. apply Hne. destruct s, s'; try done; vm_compute in E; lia.
Qed.

Definition ex_ticks : HartTicks := mkHartTicks 0 0 0 0 0 0.

Lemma time_accounted_witness :
  let '(h', cur') := switches [(BUser, 110); (BKernel, 150); (BIdle, 160); (BKernel, 400)]
    (init_hart_bucket BKernel 100 ex_ticks) (Some sample) in
  user_ticks h' = 40 /\ idle_ticks h' = 240.
Proof.
  pose proof (time_accounted BUser [(BUser, 110); (BKernel, 150); (BIdle, 160); (BKernel, 400)] BKernel 100 ex_ticks sample
    ltac:(intros []; vm_compute; intuition congruence) ltac:(vm_compute; intuition congruence)) as Hw.
  split; [| reflexivity]. exact (proj1 Hw).
Defined.

Lemma syscall_recorded_witness :
  sc_count <$> (record_syscall sysno.MMAP 5 9 SYSCALL_STATS sample).1 !! Z.to_nat (ordinal Mmap) = Some 1.
Proof.
  pose proof (syscall_recorded sysno.MMAP 5 9 SYSCALL_STATS sample eq_refl) as (_ & _ & _ & (r & Hr & Hr') & _).
  cbn [fst]. etransitivity; [exact (f_equal (fmap sc_count) Hr') |]. vm_compute in Hr. injection Hr as <-. reflexivity.
Defined.
