(* ===== verification/Input.v ===== *)
(** * Keyboard input

    Models [orbit-abi/src/input.rs] (the wire form of key events),
    [virtio_input/src/proto.rs] (evdev codes), [kmain/src/kernel/input.rs] (the
    dispatch of one event), [process/src/stdin.rs] and
    [process/src/key_events.rs] (the per-process rings with their parked reader)
    and the registries [kmain/src/kernel/stdin.rs], [key_events.rs]. *)

From stdpp Require Import base list option numbers sets gmap.
From S2P Require Import Prelude Spsc.
#[local] Open Scope Z_scope.

(** ** Wire form *)

Inductive KeyCode :=
| KChar | KBackspace | KEnter | KLeft | KRight | KUp | KDown | KHome | KEnd | KPageUp | KPageDown | KTab
| KBackTab | KDelete | KInsert | KEscape | KF | KCapsLock | KNumLock | KScrollLock | KPrintScreen | KPause
| KMenu | KNull.

#[export] Instance KeyCode_eq_dec : EqDecision KeyCode.
Proof. solve_decision. Defined.

(** [KeyCode::encode]: the discriminant. *)
Definition key_encode (c : KeyCode) : Z :=
  match c with
  | KChar => 0 | KBackspace => 1 | KEnter => 2 | KLeft => 3 | KRight => 4 | KUp => 5 | KDown => 6 | KHome => 7
  | KEnd => 8 | KPageUp => 9 | KPageDown => 10 | KTab => 11 | KBackTab => 12 | KDelete => 13 | KInsert => 14
  | KEscape => 15 | KF => 16 | KCapsLock => 17 | KNumLock => 18 | KScrollLock => 19 | KPrintScreen => 20
  | KPause => 21 | KMenu => 22 | KNull => 0xFF
  end.

Definition encode_char (c : Z) : Z := Z.lor (Z.shiftl c 8 mod 2 ^ 32) (key_encode KChar).
Definition encode_fn (n : Z) : Z := Z.lor (Z.shiftl n 8) (key_encode KF).

Definition key_decode (bits : Z) : option KeyCode :=
  let tag := Z.land bits 0xff in
  if tag =? 0 then Some KChar else if tag =? 1 then Some KBackspace else if tag =? 2 then Some KEnter
  else if tag =? 3 then Some KLeft else if tag =? 4 then Some KRight else if tag =? 5 then Some KUp
  else if tag =? 6 then Some KDown else if tag =? 7 then Some KHome else if tag =? 8 then Some KEnd
  else if tag =? 9 then Some KPageUp else if tag =? 10 then Some KPageDown else if tag =? 11 then Some KTab
  else if tag =? 12 then Some KBackTab else if tag =? 13 then Some KDelete else if tag =? 14 then Some KInsert
  else if tag =? 15 then Some KEscape else if tag =? 16 then Some KF else if tag =? 17 then Some KCapsLock
  else if tag =? 18 then Some KNumLock else if tag =? 19 then Some KScrollLock else if tag =? 20 then Some KPrintScreen
  else if tag =? 21 then Some KPause else if tag =? 22 then Some KMenu else if tag =? 0xFF then Some KNull
  else None.

(** [char::from_u32(bits >> 8)]: a Unicode scalar value. *)
Definition decoded_char (bits : Z) : option Z :=
  let c := Z.shiftr bits 8 in
  if ((c <? 0xD800) || ((0xE000 <=? c) && (c <? 0x110000)))%bool then Some c else None.
Definition decoded_fn (bits : Z) : Z := Z.shiftr bits 8 mod 256.

Definition MODS_SHIFT : Z := 1.
Definition MODS_CONTROL : Z := 2.
Definition MODS_ALT : Z := 4.
Definition from_bits_truncate (bits : Z) : Z := Z.land bits 15.

Inductive KeyEventKind := Press | Release | Repeat.
Definition kind_u32 (k : KeyEventKind) : Z := match k with Press => 0 | Release => 1 | Repeat => 2 end.

Record KeyEvent := mkKeyEvent { ke_code : Z; ke_modifiers : Z; ke_kind : Z; ke_reserved : Z }.

Definition KeyEvent_new (c : KeyCode) (mods : Z) (k : KeyEventKind) : KeyEvent :=
  mkKeyEvent (key_encode c) mods (kind_u32 k) 0.
Definition ev_key_code (e : KeyEvent) : option KeyCode := key_decode (ke_code e).
Definition ev_mods (e : KeyEvent) : Z := from_bits_truncate (ke_modifiers e).
Definition ev_event_kind (e : KeyEvent) : option KeyEventKind :=
  let k := Z.land (ke_kind e) 0xff in
  if k =? 0 then Some Press else if k =? 1 then Some Release else if k =? 2 then Some Repeat else None.

(** ** evdev *)

Record InputEvent := mkInputEvent { ie_ty : Z; ie_code : Z; ie_value : Z }.
Definition EV_KEY : Z := 1.
Definition VAL_RELEASE : Z := 0.
Definition VAL_PRESS : Z := 1.
Definition VAL_REPEAT : Z := 2.

Definition KEY_ESC : Z := 1.
Definition KEY_1 : Z := 2.
Definition KEY_2 : Z := 3.
Definition KEY_3 : Z := 4.
Definition KEY_4 : Z := 5.
Definition KEY_5 : Z := 6.
Definition KEY_6 : Z := 7.
Definition KEY_7 : Z := 8.
Definition KEY_8 : Z := 9.
Definition KEY_9 : Z := 10.
Definition KEY_0 : Z := 11.
Definition KEY_MINUS : Z := 12.
Definition KEY_EQUAL : Z := 13.
Definition KEY_BACKSPACE : Z := 14.
Definition KEY_TAB : Z := 15.
Definition KEY_Q : Z := 16.
Definition KEY_W : Z := 17.
Definition KEY_E : Z := 18.
Definition KEY_R : Z := 19.
Definition KEY_T : Z := 20.
Definition KEY_Y : Z := 21.
Definition KEY_U : Z := 22.
Definition KEY_I : Z := 23.
Definition KEY_O : Z := 24.
Definition KEY_P : Z := 25.
Definition KEY_LEFTBRACE : Z := 26.
Definition KEY_RIGHTBRACE : Z := 27.
Definition KEY_ENTER : Z := 28.
Definition KEY_LEFTCTRL : Z := 29.
Definition KEY_A : Z := 30.
Definition KEY_S : Z := 31.
Definition KEY_D : Z := 32.
Definition KEY_F : Z := 33.
Definition KEY_G : Z := 34.
Definition KEY_H : Z := 35.
Definition KEY_J : Z := 36.
Definition KEY_K : Z := 37.
Definition KEY_L : Z := 38.
Definition KEY_SEMICOLON : Z := 39.
Definition KEY_APOSTROPHE : Z := 40.
Definition KEY_GRAVE : Z := 41.
Definition KEY_LEFTSHIFT : Z := 42.
Definition KEY_BACKSLASH : Z := 43.
Definition KEY_Z : Z := 44.
Definition KEY_X : Z := 45.
Definition KEY_C : Z := 46.
Definition KEY_V : Z := 47.
Definition KEY_B : Z := 48.
Definition KEY_N : Z := 49.
Definition KEY_M : Z := 50.
Definition KEY_COMMA : Z := 51.
Definition KEY_DOT : Z := 52.
Definition KEY_SLASH : Z := 53.
Definition KEY_RIGHTSHIFT : Z := 54.
Definition KEY_LEFTALT : Z := 56.
Definition KEY_SPACE : Z := 57.
Definition KEY_CAPSLOCK : Z := 58.
Definition KEY_RIGHTCTRL : Z := 97.
Definition KEY_RIGHTALT : Z := 100.
Definition KEY_HOME : Z := 102.
Definition KEY_UP : Z := 103.
Definition KEY_PAGEUP : Z := 104.
Definition KEY_LEFT : Z := 105.
Definition KEY_RIGHT : Z := 106.
Definition KEY_END : Z := 107.
Definition KEY_DOWN : Z := 108.
Definition KEY_PAGEDOWN : Z := 109.
Definition KEY_DELETE : Z := 111.

Definition MOD_SHIFT : Z := 1.
Definition MOD_CTRL : Z := 2.
Definition MOD_ALT : Z := 4.

Definition modifier_bit (code : Z) : option Z :=
  if ((code =? KEY_LEFTSHIFT) || (code =? KEY_RIGHTSHIFT))%bool then Some MOD_SHIFT
  else if ((code =? KEY_LEFTCTRL) || (code =? KEY_RIGHTCTRL))%bool then Some MOD_CTRL
  else if ((code =? KEY_LEFTALT) || (code =? KEY_RIGHTALT))%bool then Some MOD_ALT
  else None.

(** 0..25 for the letter keys. *)
Definition letter_index (code : Z) : option Z :=
  if code =? KEY_A then Some 0
  else if code =? KEY_B then Some 1
  else if code =? KEY_C then Some 2
  else if code =? KEY_D then Some 3
  else if code =? KEY_E then Some 4
  else if code =? KEY_F then Some 5
  else if code =? KEY_G then Some 6
  else if code =? KEY_H then Some 7
  else if code =? KEY_I then Some 8
  else if code =? KEY_J then Some 9
  else if code =? KEY_K then Some 10
  else if code =? KEY_L then Some 11
  else if code =? KEY_M then Some 12
  else if code =? KEY_N then Some 13
  else if code =? KEY_O then Some 14
  else if code =? KEY_P then Some 15
  else if code =? KEY_Q then Some 16
  else if code =? KEY_R then Some 17
  else if code =? KEY_S then Some 18
  else if code =? KEY_T then Some 19
  else if code =? KEY_U then Some 20
  else if code =? KEY_V then Some 21
  else if code =? KEY_W then Some 22
  else if code =? KEY_X then Some 23
  else if code =? KEY_Y then Some 24
  else if code =? KEY_Z then Some 25
  else None.

(** The two glyphs of the number row and symbol keys; the source repeats the table
    in both translations. *)
Definition symbol_glyphs (code : Z) : option (Z * Z) :=
  if code =? KEY_1 then Some (49, 33)
  else if code =? KEY_2 then Some (50, 64)
  else if code =? KEY_3 then Some (51, 35)
  else if code =? KEY_4 then Some (52, 36)
  else if code =? KEY_5 then Some (53, 37)
  else if code =? KEY_6 then Some (54, 94)
  else if code =? KEY_7 then Some (55, 38)
  else if code =? KEY_8 then Some (56, 42)
  else if code =? KEY_9 then Some (57, 40)
  else if code =? KEY_0 then Some (48, 41)
  else if code =? KEY_MINUS then Some (45, 95)
  else if code =? KEY_EQUAL then Some (61, 43)
  else if code =? KEY_LEFTBRACE then Some (91, 123)
  else if code =? KEY_RIGHTBRACE then Some (93, 125)
  else if code =? KEY_BACKSLASH then Some (92, 124)
  else if code =? KEY_SEMICOLON then Some (59, 58)
  else if code =? KEY_APOSTROPHE then Some (39, 34)
  else if code =? KEY_GRAVE then Some (96, 126)
  else if code =? KEY_COMMA then Some (44, 60)
  else if code =? KEY_DOT then Some (46, 62)
  else if code =? KEY_SLASH then Some (47, 63)
  else None.

Definition has_bit (mods bit : Z) : bool := negb (Z.land mods bit =? 0).

Definition event_modifiers (mods : Z) : Z :=
  let m := 0 in
  let m := if has_bit mods MOD_SHIFT then Z.lor m MODS_SHIFT else m in
  let m := if has_bit mods MOD_CTRL then Z.lor m MODS_CONTROL else m in
  if has_bit mods MOD_ALT then Z.lor m MODS_ALT else m.

Definition code_word (code : Z) (shift : bool) : option Z :=
  if code =? KEY_BACKSPACE then Some (key_encode KBackspace)
  else if code =? KEY_ENTER then Some (key_encode KEnter)
  else if code =? KEY_TAB then Some (if shift then key_encode KBackTab else key_encode KTab)
  else if code =? KEY_ESC then Some (key_encode KEscape)
  else if code =? KEY_DELETE then Some (key_encode KDelete)
  else if code =? KEY_LEFT then Some (key_encode KLeft)
  else if code =? KEY_RIGHT then Some (key_encode KRight)
  else if code =? KEY_UP then Some (key_encode KUp)
  else if code =? KEY_DOWN then Some (key_encode KDown)
  else if code =? KEY_HOME then Some (key_encode KHome)
  else if code =? KEY_END then Some (key_encode KEnd)
  else if code =? KEY_SPACE then Some (encode_char 32)
  else
    match letter_index code with
    | Some idx => Some (encode_char (if shift then 65 + idx else 97 + idx))
    | None =>
        match symbol_glyphs code with
        | Some (lo, hi) => Some (encode_char (if shift then hi else lo))
        | None => None
        end
    end.

Definition encode_key_event (code mods_bits : Z) (kind : KeyEventKind) : option KeyEvent :=
  w ← code_word code (has_bit mods_bits MOD_SHIFT);
  Some (mkKeyEvent w (event_modifiers mods_bits) (kind_u32 kind) 0).

(** The first [n] bytes of [out]. *)
Definition evdev_to_bytes (code mods : Z) : list Z :=
  let shift := has_bit mods MOD_SHIFT in
  let ctrl := has_bit mods MOD_CTRL in
  let plain :=
    if code =? KEY_ENTER then [10]
    else if code =? KEY_BACKSPACE then [8]
    else if code =? KEY_TAB then [9]
    else if code =? KEY_ESC then [27]
    else if code =? KEY_SPACE then [32]
    else if code =? KEY_DELETE then [127]
    else if code =? KEY_UP then [27; 91; 65]
    else if code =? KEY_DOWN then [27; 91; 66]
    else if code =? KEY_RIGHT then [27; 91; 67]
    else if code =? KEY_LEFT then [27; 91; 68]
    else if code =? KEY_HOME then [27; 91; 72]
    else if code =? KEY_END then [27; 91; 70]
    else
      match letter_index code with
      | Some idx => [if shift then 65 + idx else 97 + idx]
      | None =>
          match symbol_glyphs code with
          | Some (lo, hi) => [if shift then hi else lo]
          | None => []
          end
      end in
  match (if ctrl then letter_index code else None) with
  | Some letter_idx => [letter_idx + 1]
  | None => plain
  end.

(** ** The per-process rings *)

Definition NO_PARKER : Z := 0.

Record ProcessStdin := mkStdin { si_ring : SpscQueue Z; si_parked_tid : Z }.

Definition STDIN_RING_CAP : Z := 4096.
Definition STDIN_N : Z := STDIN_RING_CAP + 1.
Definition ProcessStdin_new : ProcessStdin := mkStdin (mkSpsc 0 0 (replicate (Z.to_nat STDIN_N) 0)) NO_PARKER.

(** [parked_tid.swap(0)]: the slot is emptied; its reader, if there was one. *)
Definition take_tid (tid : Z) : option Z := if tid =? NO_PARKER then None else Some tid.

Definition stdin_enqueue (b : Z) (s : ProcessStdin) : panics (bool * ProcessStdin) :=
  r <-! enqueue false STDIN_N b (si_ring s) ;;
  Done (match fst r with Ok _ => true | Err _ => false end, mkStdin (snd r) (si_parked_tid s)).
Definition stdin_unpark (s : ProcessStdin) : option Z * ProcessStdin :=
  (take_tid (si_parked_tid s), mkStdin (si_ring s) NO_PARKER).

(** [push_byte]: enqueue, then take the parked reader. [None] is [Err(())]. *)
Definition push_byte (b : Z) (s : ProcessStdin) : panics (option (option Z) * ProcessStdin) :=
  r <-! stdin_enqueue b s ;;
  let '(ok, s) := r in
  if ok then let '(w, s) := stdin_unpark s in Done (Some w, s) else Done (None, s).

(** [try_drain] into a slice of [n] slots: the bytes read, oldest first. *)
Fixpoint drain_ring {T} (N : Z) (n : nat) (q : SpscQueue T) : panics (list T * SpscQueue T) :=
  match n with
  | O => Done ([], q)
  | Datatypes.S n =>
      r <-! dequeue false N q ;;
      match r with
      | (None, q) => Done ([], q)
      | (Some b, q) => r2 <-! drain_ring N n q ;; Done (b :: fst r2, snd r2)
      end
  end.

Definition stdin_try_drain (n : Z) (s : ProcessStdin) : panics (list Z * ProcessStdin) :=
  r <-! drain_ring STDIN_N (Z.to_nat n) (si_ring s) ;;
  Done (fst r, mkStdin (snd r) (si_parked_tid s)).

Definition stdin_park (tid : Z) (s : ProcessStdin) : bool * ProcessStdin :=
  if tid =? NO_PARKER then (false, s)
  else if si_parked_tid s =? NO_PARKER then (true, mkStdin (si_ring s) tid) else (false, s).

Record ProcessKeyEvents := mkKeys { kv_ring : SpscQueue KeyEvent; kv_parked_tid : Z }.

Definition KEYS_RING_CAP : Z := 256.
Definition KEYS_N : Z := KEYS_RING_CAP + 1.
Definition zero_event : KeyEvent := mkKeyEvent 0 0 0 0.
Definition ProcessKeyEvents_new : ProcessKeyEvents := mkKeys (mkSpsc 0 0 (replicate (Z.to_nat KEYS_N) zero_event)) NO_PARKER.

Definition take_parker (s : ProcessKeyEvents) : option Z * ProcessKeyEvents :=
  (take_tid (kv_parked_tid s), mkKeys (kv_ring s) NO_PARKER).

(** [push_event]: a full ring drops the event, the reader is woken all the same. *)
Definition push_event (ev : KeyEvent) (s : ProcessKeyEvents) : panics (option Z * ProcessKeyEvents) :=
  r <-! enqueue false KEYS_N ev (kv_ring s) ;;
  Done (take_parker (mkKeys (snd r) (kv_parked_tid s))).

Definition keys_try_drain (n : Z) (s : ProcessKeyEvents) : panics (list KeyEvent * ProcessKeyEvents) :=
  r <-! drain_ring KEYS_N (Z.to_nat n) (kv_ring s) ;;
  Done (fst r, mkKeys (snd r) (kv_parked_tid s)).

Inductive ParkResult := PInstalled | PAlreadyOwned | PBusy.

Definition set_parker (tid : Z) (s : ProcessKeyEvents) : ParkResult * ProcessKeyEvents :=
  if kv_parked_tid s =? tid then (PAlreadyOwned, s)
  else if kv_parked_tid s =? NO_PARKER then (PInstalled, mkKeys (kv_ring s) tid)
  else (PBusy, s).

Definition clear_parker_if (tid : Z) (s : ProcessKeyEvents) : bool * ProcessKeyEvents :=
  if kv_parked_tid s =? tid then (true, mkKeys (kv_ring s) NO_PARKER) else (false, s).

(** ** Registries and the dispatch *)

(** The input state of the kernel: [MODS], [ACTIVE_PID], the two tables, the
    [InputTid] wakes pushed so far, and the pane switches requested. *)
Record InputState := mkInput {
  in_mods : Z;
  in_active : Z;
  in_stdin : list (Z * ProcessStdin);
  in_keys : list (Z * ProcessKeyEvents);
  in_wakes : list Z;
  in_cycles : nat;
}.

Definition eta_input (s : InputState) : InputState :=
  mkInput (in_mods s) (in_active s) (in_stdin s) (in_keys s) (in_wakes s) (in_cycles s).
Definition set_in_mods : Z -> InputState -> InputState := ltac:(set_field eta_input in_mods).
Definition set_in_active : Z -> InputState -> InputState := ltac:(set_field eta_input in_active).
Definition set_in_stdin : list (Z * ProcessStdin) -> InputState -> InputState := ltac:(set_field eta_input in_stdin).
Definition set_in_keys : list (Z * ProcessKeyEvents) -> InputState -> InputState := ltac:(set_field eta_input in_keys).
Definition set_in_wakes : list Z -> InputState -> InputState := ltac:(set_field eta_input in_wakes).
Definition set_in_cycles : nat -> InputState -> InputState := ltac:(set_field eta_input in_cycles).

(** [wake_queue_push(InputTid(tid))]; the result is dropped. *)
Definition wake_input (w : option Z) (s : InputState) : InputState :=
  match w with Some tid => set_in_wakes (in_wakes s ++ [tid]) s | None => s end.

Definition NO_ACTIVE : Z := -1.
(** [set_active]: [None] is the kernel's own pane. *)
Definition set_active (pane : option Z) (s : InputState) : InputState :=
  set_in_active (match pane with None => NO_ACTIVE | Some pid => pid end) s.
Definition active_pid (s : InputState) : option Z := if in_active s <? 0 then None else Some (in_active s).

Definition stdin_register (pid : Z) (s : InputState) : InputState :=
  match bm_get pid (in_stdin s) with Some _ => s | None => set_in_stdin (bm_insert pid ProcessStdin_new (in_stdin s)) s end.
Definition stdin_unregister (pid : Z) (s : InputState) : InputState :=
  match bm_get pid (in_stdin s) with
  | Some p => wake_input (fst (stdin_unpark p)) (set_in_stdin (bm_remove pid (in_stdin s)) s)
  | None => s
  end.
Definition keys_register (pid : Z) (s : InputState) : InputState :=
  match bm_get pid (in_keys s) with Some _ => s | None => set_in_keys (bm_insert pid ProcessKeyEvents_new (in_keys s)) s end.
Definition keys_unregister (pid : Z) (s : InputState) : InputState :=
  match bm_get pid (in_keys s) with
  | Some p => wake_input (fst (take_parker p)) (set_in_keys (bm_remove pid (in_keys s)) s)
  | None => s
  end.

Definition push_and_wake (pid : Z) (ev : KeyEvent) (s : InputState) : panics InputState :=
  match bm_get pid (in_keys s) with
  | None => Done s
  | Some p =>
      r <-! push_event ev p ;;
      Done (wake_input (fst r) (set_in_keys (bm_insert pid (snd r) (in_keys s)) s))
  end.

(** The byte loop: stops at a full ring; the last reader taken is woken once. *)
Fixpoint push_bytes (bs : list Z) (w : option Z) (p : ProcessStdin) : panics (option Z * ProcessStdin) :=
  match bs with
  | [] => Done (w, p)
  | b :: bs =>
      r <-! push_byte b p ;;
      match r with
      | (None, p) => Done (w, p)
      | (Some None, p) => push_bytes bs w p
      | (Some (Some tid), p) => push_bytes bs (Some tid) p
      end
  end.

Definition dispatch (ev : InputEvent) (s : InputState) : panics InputState :=
  if negb (ie_ty ev =? EV_KEY) then Done s
  else
    match modifier_bit (ie_code ev) with
    | Some bit =>
        if ((ie_value ev =? VAL_PRESS) || (ie_value ev =? VAL_REPEAT))%bool then Done (set_in_mods (Z.lor (in_mods s) bit) s)
        else if ie_value ev =? VAL_RELEASE then Done (set_in_mods (Z.ldiff (in_mods s) bit) s)
        else Done s
    | None =>
        let mods := in_mods s in
        match (if ie_value ev =? VAL_PRESS then Some Press else if ie_value ev =? VAL_RELEASE then Some Release
               else if ie_value ev =? VAL_REPEAT then Some Repeat else None) with
        | None => Done s
        | Some kind =>
            let is_press := match kind with Press => true | _ => false end in
            if (is_press && (ie_code ev =? KEY_TAB) && has_bit mods MOD_CTRL)%bool
            then Done (set_in_cycles (S (in_cycles s)) s)
            else
              match active_pid s with
              | None => Done s
              | Some pid =>
                  s <-! match encode_key_event (ie_code ev) mods kind with
                        | Some e => push_and_wake pid e s
                        | None => Done s
                        end ;;
                  match kind with
                  | Release => Done s
                  | _ =>
                      match bm_get pid (in_stdin s) with
                      | None => Done s
                      | Some p =>
                          r <-! push_bytes (evdev_to_bytes (ie_code ev) mods) None p ;;
                          Done (wake_input (fst r) (set_in_stdin (bm_insert pid (snd r) (in_stdin s)) s))
                      end
                  end
              end
        end
    end.

(** ** Draining a ring *)

Section Drain.
Context {T : Type} (N : Z).
Hypothesis (HN : 0 < N) (HN63 : N < 2 ^ 63).

Lemma drain_ring_spec n : forall (q : SpscQueue T) l,
  holds N q l -> exists q', drain_ring N n q = Done (take n l, q') /\ holds N q' (drop n l).
Proof.
  induction n as [| n IH]; intros q l Hq; simpl; [by eauto |].
  pose proof (dequeue_spec false N HN HN63 q l Hq) as Hd. destruct l as [| v l].
  - rewrite Hd. simpl. by eauto.
  - destruct Hd as (q1 & -> & Hq1). destruct (IH q1 l Hq1) as (q2 & E & Hq2).
    simpl. rewrite E. simpl. eauto.
Qed.
End Drain.

Lemma STDIN_N_pos : 0 < STDIN_N.
Proof. reflexivity. Qed.
Lemma STDIN_N_small : STDIN_N < 2 ^ 63.
Proof. reflexivity. Qed.
Lemma KEYS_N_pos : 0 < KEYS_N.
Proof. reflexivity. Qed.
Lemma KEYS_N_small : KEYS_N < 2 ^ 63.
Proof. reflexivity. Qed.

Definition stdin_holds (s : ProcessStdin) (l : list Z) : Prop := holds STDIN_N (si_ring s) l.
Definition keys_hold (s : ProcessKeyEvents) (l : list KeyEvent) : Prop := holds KEYS_N (kv_ring s) l.

Lemma new_holds {T} N (d : T) : 0 < N -> holds N (mkSpsc 0 0 (replicate (Z.to_nat N) d)) [].
Proof.
  intros HN. exists [], 0%nat. split; [| done]. split; cbn; try done; rewrite ?length_replicate; lia.
Qed.

Lemma stdin_enqueue_spec b s l :
  stdin_holds s l ->
  if Z.of_nat (length l) =? STDIN_RING_CAP then stdin_enqueue b s = Done (false, s)
  else exists s', stdin_enqueue b s = Done (true, s') /\ stdin_holds s' (l ++ [b]) /\ si_parked_tid s' = si_parked_tid s.
Proof.
  intros Hs. pose proof (enqueue_spec false STDIN_N STDIN_N_pos STDIN_N_small _ _ b Hs) as He.
  change (STDIN_N - 1) with STDIN_RING_CAP in He. unfold stdin_enqueue.
  destruct (Z.of_nat (length l) =? STDIN_RING_CAP).
  - rewrite He. by destruct s.
  - destruct He as (q & -> & Hq). eexists. done.
Qed.

Lemma stdin_drain_spec n s l :
  stdin_holds s l -> exists s', stdin_try_drain n s = Done (take (Z.to_nat n) l, s') /\
    stdin_holds s' (drop (Z.to_nat n) l) /\ si_parked_tid s' = si_parked_tid s.
Proof.
  intros Hs. destruct (drain_ring_spec STDIN_N STDIN_N_pos STDIN_N_small (Z.to_nat n) _ _ Hs) as (q & E & Hq).
  unfold stdin_try_drain. rewrite E. simpl. by eexists.
Qed.

(** The byte loop: as much of the burst as fits, and a reader taken exactly when a
    byte went in. *)
Lemma push_bytes_spec bs : forall w s l,
  stdin_holds s l ->
  let fits := take (Z.to_nat (STDIN_RING_CAP - Z.of_nat (length l))) bs in
  exists s', stdin_holds s' (l ++ fits) /\
    push_bytes bs w s =
      Done (match fits with [] => w | _ => match take_tid (si_parked_tid s) with Some tid => Some tid | None => w end end, s') /\
    si_parked_tid s' = match fits with [] => si_parked_tid s | _ => NO_PARKER end.
Proof.
  induction bs as [| b bs IH]; intros w s l Hs; cbn [push_bytes].
  { cbn zeta. rewrite take_nil, app_nil_r. by exists s. }
  pose proof (holds_length _ _ _ Hs) as Hlen. change (STDIN_N - 1) with STDIN_RING_CAP in Hlen.
  pose proof (stdin_enqueue_spec b s l Hs) as He. unfold push_byte.
  destruct (Z.eqb_spec (Z.of_nat (length l)) STDIN_RING_CAP) as [E | E].
  - rewrite He, E, Z.sub_diag. simpl. rewrite app_nil_r. by exists s.
  - destruct He as (s1 & -> & H1 & Hp1). cbn [pbind stdin_unpark].
    replace (Z.to_nat (STDIN_RING_CAP - Z.of_nat (length l))) with (S (Z.to_nat (STDIN_RING_CAP - Z.of_nat (length (l ++ [b]))))) by
      (rewrite length_app; simpl; lia).
    rewrite firstn_cons. rewrite cons_middle, app_assoc. rewrite Hp1.
    set (s2 := mkStdin (si_ring s1) NO_PARKER).
    assert (H2 : stdin_holds s2 (l ++ [b])) by exact H1.
    destruct (IH (match take_tid (si_parked_tid s) with Some tid => Some tid | None => w end) s2 _ H2) as (s3 & H3 & E3 & Hp3).
    exists s3. split; [exact H3 |]. split.
    + transitivity (push_bytes bs (match take_tid (si_parked_tid s) with Some tid => Some tid | None => w end) s2);
        [by destruct (take_tid (si_parked_tid s)) |].
      rewrite E3. by destruct (take _ _).
    + rewrite Hp3. by destruct (take _ _).
Qed.

(** ** A blocking reader against the keyboard *)

(** One thread [tid] in [read_stdin], between its accesses: outside the call, past
    the first empty drain, with its tid stamped, cancelling the stamp, asleep in
    [RetryOnDoorbell]. *)
Inductive reader := Outside | Checked (n : Z) | Stamped (n : Z) | Cancelling | Asleep.

(** [ss_swap]: the keyboard has enqueued a byte and not yet swapped the slot.
    [ss_queue]: [InputTid] events pushed and not drained; [ss_drops]: events a
    full wake queue refused; [ss_noted]: the thread's wake bit. *)
Record session := mkSession {
  ss_dev : ProcessStdin;
  ss_swap : bool;
  ss_reader : reader;
  ss_queue : list Z;
  ss_drops : nat;
  ss_noted : bool;
  ss_sent : list Z;
  ss_recv : list Z;
}.

Section Session.
Context (tid : Z).

Inductive sstep : session -> session -> Prop :=
| s_enqueue b d r q dr nt se rc d' :
    stdin_enqueue b d = Done (true, d') ->
    sstep (mkSession d false r q dr nt se rc) (mkSession d' true r q dr nt (se ++ [b]) rc)
| s_full b d r q dr nt se rc d' :
    stdin_enqueue b d = Done (false, d') ->
    sstep (mkSession d false r q dr nt se rc) (mkSession d' false r q dr nt se rc)
| s_swap_none d r q dr nt se rc d' :
    stdin_unpark d = (None, d') ->
    sstep (mkSession d true r q dr nt se rc) (mkSession d' false r q dr nt se rc)
| s_swap_wake d r q dr nt se rc d' w :
    stdin_unpark d = (Some w, d') ->
    sstep (mkSession d true r q dr nt se rc) (mkSession d' false r (q ++ [w]) dr nt se rc)
| s_swap_drop d r q dr nt se rc d' w :
    stdin_unpark d = (Some w, d') ->
    sstep (mkSession d true r q dr nt se rc) (mkSession d' false r q (S dr) nt se rc)
| s_drain_some n d p q dr nt se rc d' b bs :
    0 < n -> stdin_try_drain n d = Done (b :: bs, d') ->
    sstep (mkSession d p Outside q dr nt se rc) (mkSession d' p Outside q dr nt se (rc ++ b :: bs))
| s_drain_none n d p q dr nt se rc d' :
    0 < n -> stdin_try_drain n d = Done ([], d') ->
    sstep (mkSession d p Outside q dr nt se rc) (mkSession d' p (Checked n) q dr nt se rc)
| s_park n d p q dr nt se rc d' :
    stdin_park tid d = (true, d') ->
    sstep (mkSession d p (Checked n) q dr nt se rc) (mkSession d' p (Stamped n) q dr nt se rc)
| s_busy n d p q dr nt se rc d' :
    stdin_park tid d = (false, d') ->
    sstep (mkSession d p (Checked n) q dr nt se rc) (mkSession d' p Outside q dr nt se rc)
| s_redrain_some n d p q dr nt se rc d' b bs :
    stdin_try_drain n d = Done (b :: bs, d') ->
    sstep (mkSession d p (Stamped n) q dr nt se rc) (mkSession d' p Cancelling q dr nt se (rc ++ b :: bs))
| s_redrain_none n d p q dr nt se rc d' :
    stdin_try_drain n d = Done ([], d') ->
    sstep (mkSession d p (Stamped n) q dr nt se rc) (mkSession d' p Asleep q dr nt se rc)
| s_cancel d p q dr nt se rc d' w :
    stdin_unpark d = (w, d') ->
    sstep (mkSession d p Cancelling q dr nt se rc) (mkSession d' p Outside q dr nt se rc)
| s_note d p r w q dr nt se rc :
    sstep (mkSession d p r (w :: q) dr nt se rc) (mkSession d p r q dr (nt || (w =? tid)) se rc)
| s_resume d p q dr se rc :
    sstep (mkSession d p Asleep q dr true se rc) (mkSession d p Outside q dr false se rc)
| s_spurious d p q dr nt se rc :
    sstep (mkSession d p Asleep q dr nt se rc) (mkSession d p Outside q dr false se rc).

(** A wake for the reader is on its way, or the queue refused one. *)
Definition wake_coming (s : session) : Prop := tid ∈ ss_queue s \/ ss_noted s = true \/ (0 < ss_drops s)%nat.

Definition slot_tid (s : session) : Z := si_parked_tid (ss_dev s).

Definition reader_ok (s : session) (l : list Z) : Prop :=
  match ss_reader s with
  | Outside | Cancelling => True
  | Checked n => 0 < n
  | Stamped n => 0 < n /\ (slot_tid s = tid \/ wake_coming s)
  | Asleep => (slot_tid s = tid /\ (l = [] \/ ss_swap s = true)) \/ wake_coming s
  end.

Definition session_ok (s : session) : Prop :=
  exists l, ss_sent s = ss_recv s ++ l /\ stdin_holds (ss_dev s) l /\
    (slot_tid s = NO_PARKER \/ slot_tid s = tid) /\ reader_ok s l.

Hypothesis (Htid : tid <> NO_PARKER).

Lemma take_nil_pos {A} n (l : list A) : 0 < n -> take (Z.to_nat n) l = [] -> l = [].
Proof. intros Hn. destruct l; [done |]. destruct (Z.to_nat n) eqn:E; [lia | done]. Qed.

Lemma swap_ok d r q q' dr dr' nt se rc :
  session_ok (mkSession d true r q dr nt se rc) ->
  (forall w, fst (stdin_unpark d) = Some w -> wake_coming (mkSession d true r q' dr' nt se rc)) ->
  (wake_coming (mkSession d true r q dr nt se rc) -> wake_coming (mkSession d true r q' dr' nt se rc)) ->
  session_ok (mkSession (snd (stdin_unpark d)) false r q' dr' nt se rc).
Proof.
  intros (l & E & Hl & Hs & Hr) Hw Hmono. exists l. unfold reader_ok, slot_tid, stdin_unpark, take_tid in *.
  cbn [ss_dev ss_reader ss_swap ss_sent ss_recv si_parked_tid fst snd] in *. change (wake_coming _) with (wake_coming (mkSession d true r q' dr' nt se rc)).
  split_and!; [done | done | by left |].
  assert (Ht : si_parked_tid d = tid -> wake_coming (mkSession d true r q' dr' nt se rc)).
  { intros Et. apply (Hw tid). rewrite Et. by apply Z.eqb_neq in Htid as ->. }
  destruct r; try done; [destruct Hr as [? [? |?]]; auto | destruct Hr as [[? _] |?]; auto].
Qed.

Lemma drain_ok n d p r r' q dr nt se rc d' bs :
  session_ok (mkSession d p r q dr nt se rc) -> stdin_try_drain n d = Done (bs, d') ->
  (forall l, stdin_holds d l -> bs = take (Z.to_nat n) l -> reader_ok (mkSession d p r q dr nt se rc) l ->
     reader_ok (mkSession d' p r' q dr nt se (rc ++ bs)) (drop (Z.to_nat n) l)) ->
  session_ok (mkSession d' p r' q dr nt se (rc ++ bs)).
Proof.
  intros (l & E & Hl & Hs & Hr) Hd Hk. destruct (stdin_drain_spec n d l Hl) as (d1 & E1 & Hl1 & Hp1).
  rewrite Hd in E1. injection E1 as -> <-. exists (drop (Z.to_nat n) l). unfold slot_tid in *.
  cbn [ss_sent ss_recv ss_dev] in *. split_and!; [| done | by rewrite Hp1 | by apply Hk].
  by rewrite <- app_assoc, take_drop.
Qed.

Lemma drain_slot n d d' bs : stdin_try_drain n d = Done (bs, d') -> si_parked_tid d' = si_parked_tid d.
Proof.
  unfold stdin_try_drain. destruct (drain_ring _ _ _) as [[? ?] |]; simpl; [| done]. by intros [= _ <-].
Qed.

Lemma sstep_ok s s' : session_ok s -> sstep s s' -> session_ok s'.
Proof.
  intros Hok Hstep. destruct Hstep.
  - destruct Hok as (l & E & Hl & Hs & Hr). pose proof (stdin_enqueue_spec b d l Hl) as He.
    destruct (_ =? _); [congruence |]. destruct He as (d1 & E1 & Hl1 & Hp1). rewrite H in E1. injection E1 as <-.
    exists (l ++ [b]). unfold reader_ok, wake_coming, slot_tid in *.
    cbn [ss_dev ss_reader ss_swap ss_sent ss_recv ss_queue ss_noted ss_drops] in *. rewrite Hp1, E, app_assoc.
    split_and!; [done | done | done |]. destruct r; try exact Hr. destruct Hr as [[? _] |?]; auto.
  - destruct Hok as (l & E & Hl & Hr). pose proof (stdin_enqueue_spec b d l Hl) as He.
    destruct (_ =? _); [| by destruct He as (? & ? & _); congruence]. rewrite H in He. injection He as ->. by exists l.
  - replace d' with (snd (stdin_unpark d)) by by rewrite H. apply (swap_ok _ _ q q dr dr); [done | by rewrite H | done].
  - replace d' with (snd (stdin_unpark d)) by by rewrite H. apply (swap_ok _ _ q (q ++ [w]) dr dr); [done | |].
    + intros w' Hw'. rewrite H in Hw'. injection Hw' as <-. left. cbn. unfold stdin_unpark, take_tid in H.
      destruct (Z.eqb_spec (si_parked_tid d) NO_PARKER); [done |]. injection H as <- <-.
      destruct Hok as (? & _ & _ & [Hz | Ht] & _); [done |]. unfold slot_tid in Ht. cbn in Ht. rewrite Ht. set_solver.
    + unfold wake_coming. cbn. set_solver.
  - replace d' with (snd (stdin_unpark d)) by by rewrite H. apply (swap_ok _ _ q q dr (S dr)); [done | |].
    + intros. right. right. cbn. lia.
    + unfold wake_coming. cbn. intuition lia.
  - by eapply drain_ok.
  - rewrite <- (app_nil_r rc). eapply drain_ok; [done | done |]. intros. done.
  - destruct Hok as (l & E & Hl & Hs & Hr). exists l. unfold stdin_park in H.
    destruct (tid =? NO_PARKER); [done |]. destruct (_ =? _); [| done]. injection H as <-.
    unfold reader_ok, slot_tid in *. cbn [ss_dev ss_reader ss_sent ss_recv si_parked_tid] in *.
    split_and!; [done | done | by right | done | by left].
  - destruct Hok as (l & E & Hl & Hs & Hr). exists l. unfold stdin_park in H.
    destruct (tid =? NO_PARKER); [| destruct (_ =? _); [done |]]; injection H as <-; by split_and!.
  - eapply drain_ok; [done | done |]. intros. done.
  - rewrite <- (app_nil_r rc). eapply drain_ok; [done | done |]. intros l Hl Hnil [Hn Hr].
    unfold reader_ok, slot_tid in *. cbn [ss_dev ss_reader ss_swap] in *. rewrite (drain_slot _ _ _ _ H).
    symmetry in Hnil. apply take_nil_pos in Hnil as ->; [| done]. rewrite drop_nil. destruct Hr; auto.
  - destruct Hok as (l & E & Hl & Hs & Hr). exists l. injection H as <- <-. split_and!; [done | done | by left | done].
  - destruct Hok as (l & E & Hl & Hs & Hr). exists l. split_and!; [done | done | done |].
    assert (Hmono : wake_coming (mkSession d p r (w :: q) dr nt se rc) ->
                    wake_coming (mkSession d p r q dr (nt || (w =? tid)) se rc)).
    { unfold wake_coming. cbn. rewrite elem_of_cons. intros [[-> | ?] | [-> | ?]]; auto.
      rewrite Z.eqb_refl, orb_true_r. auto. }
    unfold reader_ok, slot_tid in *. cbn [ss_dev ss_reader ss_swap] in *.
    destruct r; try done; [destruct Hr as [? [? |?]]; auto | destruct Hr as [[? ?] |?]; auto].
  - destruct Hok as (l & E & Hl & Hs & _). by exists l.
  - destruct Hok as (l & E & Hl & Hs & _). by exists l.
Qed.

Definition fresh_session : session := mkSession ProcessStdin_new false Outside [] 0 false [] [].

Lemma session_reachable_ok s : rtc sstep fresh_session s -> session_ok s.
Proof.
  intros Hr. assert (H0 : session_ok fresh_session).
  { exists []. split_and!; [done | by apply new_holds | by left | done]. }
  revert H0. generalize fresh_session Hr. clear Hr. intros s0 Hr.
  induction Hr as [| s1 s2 s3 Hs _ IH]; [done |]. intros H1. apply IH. by eapply sstep_ok.
Qed.
End Session.

(** ** The two translations of a key *)

Lemma letter_index_range code idx : letter_index code = Some idx -> KEY_Q <= code <= KEY_M /\ 0 <= idx < 26.
Proof.
  unfold letter_index. unfold KEY_Q, KEY_M.
  repeat (match goal with |- context [code =? ?k] => destruct (Z.eqb_spec code k) as [-> |]; [intros [= <-]; vm_compute; split; split; congruence |] end).
  done.
Qed.

Lemma symbol_glyphs_range code p : symbol_glyphs code = Some p -> KEY_1 <= code <= KEY_SLASH.
Proof.
  unfold symbol_glyphs. unfold KEY_1, KEY_SLASH.
  repeat (match goal with |- context [code =? ?k] => destruct (Z.eqb_spec code k) as [-> |]; [intros _; vm_compute; split; congruence |] end).
  done.
Qed.

(** Every key that translates has its code in 1..111. *)
Lemma translated_range code sh mods :
  ~ 1 <= code <= 111 -> code_word code sh = None /\ evdev_to_bytes code mods = [].
Proof.
  intros Hr. assert (Hl : letter_index code = None).
  { destruct (letter_index code) eqn:E; [| done]. apply letter_index_range in E as [E _]. unfold KEY_Q, KEY_M in E. lia. }
  assert (Hg : symbol_glyphs code = None).
  { destruct (symbol_glyphs code) eqn:E; [| done]. apply symbol_glyphs_range in E. unfold KEY_1, KEY_SLASH in E. lia. }
  assert (Hne : forall k, 1 <= k <= 111 -> (code =? k) = false) by (intros; apply Z.eqb_neq; lia).
  unfold code_word, evdev_to_bytes. rewrite Hl, Hg.
  rewrite !Hne by (vm_compute; split; congruence). by destruct (has_bit mods MOD_CTRL).
Qed.

#[export] Instance KeyEventKind_eq_dec : EqDecision KeyEventKind.
Proof. solve_decision. Defined.

(** The check on one key: the structured event decodes to what was encoded, and
    the bytes agree with it. *)
Definition key_agrees (code mods : Z) (kind : KeyEventKind) : bool :=
  match encode_key_event code mods kind with
  | None => bool_decide (evdev_to_bytes code mods = [])
  | Some e =>
      bool_decide (ev_event_kind e = Some kind) && (ev_mods e =? mods) &&
      negb (bool_decide (evdev_to_bytes code mods = [])) &&
      match ev_key_code e, decoded_char (ke_code e) with
      | Some KChar, Some c =>
          match (if has_bit mods MOD_CTRL then letter_index code else None) with
          | Some i => bool_decide (evdev_to_bytes code mods = [i + 1]) && ((c =? 97 + i) || (c =? 65 + i))
          | None => bool_decide (evdev_to_bytes code mods = [c])
          end
      | Some k, _ => (ke_code e =? key_encode k) && negb (bool_decide (k = KChar))
      | None, _ => false
      end
  end.

Lemma keys_agree_table :
  forallb (fun c => forallb (fun m => forallb (key_agrees (Z.of_nat c) (Z.of_nat m)) [Press; Release; Repeat]) (seq 0 8)) (seq 1 111) = true.
Proof. vm_compute. reflexivity. Qed.

Lemma keys_agree code mods kind : 0 <= mods < 8 -> key_agrees code mods kind = true.
Proof.
  intros Hm. destruct (decide (1 <= code <= 111)) as [Hc | Hc].
  - pose proof keys_agree_table as Ht. rewrite forallb_forall in Ht.
    specialize (Ht (Z.to_nat code) ltac:(apply in_seq; lia)). cbv beta in Ht. rewrite forallb_forall in Ht.
    specialize (Ht (Z.to_nat mods) ltac:(apply in_seq; lia)). cbv beta in Ht. rewrite forallb_forall in Ht.
    rewrite !Z2Nat.id in Ht by lia. apply Ht. destruct kind; simpl; auto.
  - unfold key_agrees, encode_key_event. destruct (translated_range code (has_bit mods MOD_SHIFT) mods Hc) as [-> ->]. done.
Qed.

(** ** Properties *)

(** Key translation is faithful: for every code and held modifiers, the
    structured event carries the kind and the modifiers and decodes to its key;
    a key yields bytes exactly when it yields an event; a character event carries
    the very byte of the byte path, or, for Ctrl+letter, the letter whose control
    code the byte path sends. *)
Theorem key_translation_agrees code mods kind :
  0 <= mods < 8 ->
  (encode_key_event code mods kind = None <-> evdev_to_bytes code mods = []) /\
  forall e, encode_key_event code mods kind = Some e ->
    ev_event_kind e = Some kind /\ ev_mods e = mods /\
    (ev_key_code e = Some KChar ->
       exists c, decoded_char (ke_code e) = Some c /\
         match (if has_bit mods MOD_CTRL then letter_index code else None) with
         | Some i => evdev_to_bytes code mods = [i + 1] /\ (c = 97 + i \/ c = 65 + i)
         | None => evdev_to_bytes code mods = [c]
         end) /\
    (ev_key_code e <> Some KChar -> exists k, ev_key_code e = Some k /\ ke_code e = key_encode k).
Proof.
  intros Hm. pose proof (keys_agree code mods kind Hm) as Ha. unfold key_agrees in Ha.
  destruct (encode_key_event code mods kind) as [e |]; [| apply bool_decide_eq_true in Ha; split; [done |]; by intros].
  rewrite !andb_true_iff, negb_true_iff, bool_decide_eq_true, bool_decide_eq_false, Z.eqb_eq in Ha.
  destruct Ha as [[[Hk Hmods] Hne] Ha]. split; [by split |]. intros e' [= <-]. split; [done |]. split; [done |].
  destruct (ev_key_code e) as [k |]; [| done]. destruct (decide (k = KChar)) as [-> | Hnc].
  - split; [intros _ | done]. destruct (decoded_char (ke_code e)) as [c |].
    + exists c. split; [done |]. destruct (if has_bit mods MOD_CTRL then _ else _) as [i |].
      * apply andb_true_iff in Ha as [Hb Hc]. apply bool_decide_eq_true in Hb. split; [done |]. rewrite orb_true_iff, !Z.eqb_eq in Hc. done.
      * by apply bool_decide_eq_true in Ha.
    + apply andb_true_iff in Ha as [_ Ha]. by rewrite bool_decide_true in Ha by done.
  - split; [congruence |]. intros _. exists k. split; [done |].
    assert (Hx : (ke_code e =? key_encode k) = true) by (destruct k; try done; by apply andb_true_iff in Ha as [? _]).
    by apply Z.eqb_eq.
Qed.

Lemma key_translation_agrees_witness :
  exists e, encode_key_event KEY_C MOD_CTRL Press = Some e /\ ev_mods e = MOD_CTRL /\ evdev_to_bytes KEY_C MOD_CTRL = [3].
Proof.
  destruct (key_translation_agrees KEY_C MOD_CTRL Press ltac:(vm_compute; split; congruence)) as [_ Hk].
  eexists. split; [reflexivity |]. split; [exact (proj1 (proj2 (Hk _ eq_refl))) | reflexivity].
Defined.



(** What a push does to the ring of key events. *)
Lemma push_event_spec e s l :
  keys_hold s l -> exists s', push_event e s = Done (take_tid (kv_parked_tid s), s') /\
    keys_hold s' (l ++ if Z.of_nat (length l) =? KEYS_RING_CAP then [] else [e]) /\ kv_parked_tid s' = NO_PARKER.
Proof.
  intros Hs. pose proof (enqueue_spec false KEYS_N KEYS_N_pos KEYS_N_small _ _ e Hs) as He.
  change (KEYS_N - 1) with KEYS_RING_CAP in He. unfold push_event. destruct (_ =? _).
  - rewrite He, app_nil_r. eexists. done.
  - destruct He as (q & -> & Hq). eexists. done.
Qed.

Lemma wake_input_wakes w s : in_wakes (wake_input w s) = in_wakes s ++ option_list w.
Proof. destruct w; [done |]. by rewrite app_nil_r. Qed.

Lemma push_and_wake_spec pid e s kp l :
  bm_get pid (in_keys s) = Some kp -> keys_hold kp l ->
  exists s' kp', push_and_wake pid e s = Done s' /\ bm_get pid (in_keys s') = Some kp' /\ kv_parked_tid kp' = NO_PARKER /\
    keys_hold kp' (l ++ if Z.of_nat (length l) =? KEYS_RING_CAP then [] else [e]) /\
    in_wakes s' = in_wakes s ++ option_list (take_tid (kv_parked_tid kp)) /\
    in_stdin s' = in_stdin s /\ in_active s' = in_active s /\ in_mods s' = in_mods s /\
    (forall j, j <> pid -> bm_get j (in_keys s') = bm_get j (in_keys s)).
Proof.
  intros Hg Hl. unfold push_and_wake. rewrite Hg. destruct (push_event_spec e kp l Hl) as (kp' & -> & Hl' & Hp).
  cbn [pbind fst snd]. do 2 eexists. split; [done |]. rewrite wake_input_wakes.
  assert (Hk : forall w t, in_keys (wake_input w t) = in_keys t /\ in_stdin (wake_input w t) = in_stdin t /\
                 in_active (wake_input w t) = in_active t /\ in_mods (wake_input w t) = in_mods t) by (by intros []).
  destruct (Hk (take_tid (kv_parked_tid kp)) (set_in_keys (bm_insert pid kp' (in_keys s)) s)) as (-> & -> & -> & ->).
  split; [apply bm_get_insert_eq |]. split_and!; try done. intros. by apply bm_get_insert_ne.
Qed.

(** A key press (or repeat) reaches the process of the active pane and no
    other, on both paths: the event is appended to its event ring unless that is
    full, as much of the byte burst as fits is appended to its stdin ring, each
    reader parked there is woken exactly once, and a reader left parked is one
    whose ring took nothing. *)
Theorem key_press_delivered ev s pid kp kl sp sl e kind :
  ie_ty ev = EV_KEY -> modifier_bit (ie_code ev) = None ->
  (ie_value ev = VAL_PRESS /\ kind = Press \/ ie_value ev = VAL_REPEAT /\ kind = Repeat) ->
  (kind = Press -> ie_code ev = KEY_TAB -> has_bit (in_mods s) MOD_CTRL = false) ->
  active_pid s = Some pid -> bm_get pid (in_keys s) = Some kp -> keys_hold kp kl ->
  bm_get pid (in_stdin s) = Some sp -> stdin_holds sp sl -> encode_key_event (ie_code ev) (in_mods s) kind = Some e ->
  let fits := take (Z.to_nat (STDIN_RING_CAP - Z.of_nat (length sl))) (evdev_to_bytes (ie_code ev) (in_mods s)) in
  exists s' kp' sp', dispatch ev s = Done s' /\
    bm_get pid (in_keys s') = Some kp' /\ kv_parked_tid kp' = NO_PARKER /\
    keys_hold kp' (kl ++ if Z.of_nat (length kl) =? KEYS_RING_CAP then [] else [e]) /\
    bm_get pid (in_stdin s') = Some sp' /\ stdin_holds sp' (sl ++ fits) /\
    si_parked_tid sp' = (match fits with [] => si_parked_tid sp | _ => NO_PARKER end) /\
    in_wakes s' = in_wakes s ++ option_list (take_tid (kv_parked_tid kp)) ++
                  (match fits with [] => [] | _ => option_list (take_tid (si_parked_tid sp)) end) /\
    (forall j, j <> pid -> bm_get j (in_keys s') = bm_get j (in_keys s) /\ bm_get j (in_stdin s') = bm_get j (in_stdin s)).
Proof.
  intros Hty Hmod Hval Htab Hact Hk Hkl Hs Hsl Henc fits. unfold dispatch. rewrite Hty, Hmod. cbn [negb Z.eqb EV_KEY Pos.eqb].
  assert (Hkind : (if ie_value ev =? VAL_PRESS then Some Press else if ie_value ev =? VAL_RELEASE then Some Release
               else if ie_value ev =? VAL_REPEAT then Some Repeat else None) = Some kind)
    by (destruct Hval as [[-> ->] | [-> ->]]; done).
  rewrite Hkind. assert (Hcyc : ((match kind with Press => true | _ => false end) && (ie_code ev =? KEY_TAB) && has_bit (in_mods s) MOD_CTRL)%bool = false).
  { destruct kind; try done. destruct (Z.eqb_spec (ie_code ev) KEY_TAB); [| done]. by rewrite Htab. }
  rewrite Hcyc, Hact, Henc. destruct (push_and_wake_spec pid e s kp kl Hk Hkl) as (s1 & kp' & -> & Hk1 & Hp1 & Hl1 & Hw1 & Hs1 & _ & Hm1 & Ho1).
  cbn [pbind]. rewrite Hs1, Hs. destruct (push_bytes_spec (evdev_to_bytes (ie_code ev) (in_mods s)) None sp sl Hsl) as (sp' & Hsl' & Epb & Hpk).
  fold fits in Hsl', Epb, Hpk. clearbody fits.
  exists (wake_input (match fits with [] => None | _ => take_tid (si_parked_tid sp) end) (set_in_stdin (bm_insert pid sp' (in_stdin s)) s1)), kp', sp'.
  split. { rewrite Epb. destruct Hval as [[_ ->] | [_ ->]]; cbn [pbind fst snd]; (destruct fits; [done |]); by destruct (take_tid (si_parked_tid sp)). }
  rewrite wake_input_wakes. assert (Hwk : forall w t, in_keys (wake_input w t) = in_keys t /\ in_stdin (wake_input w t) = in_stdin t) by (by intros []).
  destruct (Hwk (match fits with [] => None | _ => take_tid (si_parked_tid sp) end) (set_in_stdin (bm_insert pid sp' (in_stdin s)) s1)) as (-> & ->).
  cbn [in_keys in_stdin in_wakes set_in_stdin]. split_and!; try done.
  - apply bm_get_insert_eq.
  - rewrite Hw1, <- app_assoc. by destruct fits.
  - intros j Hj. split; [by apply Ho1 | by apply bm_get_insert_ne].
Qed.

(** Pid 3 is active, its threads 5 and 6 parked on the two rings. *)
Definition desk : InputState :=
  mkInput 0 3 [(3, snd (stdin_park 5 ProcessStdin_new))] [(3, snd (set_parker 6 ProcessKeyEvents_new))] [] 0.

Lemma key_press_delivered_witness :
  exists s', dispatch (mkInputEvent EV_KEY KEY_A VAL_PRESS) desk = Done s' /\ in_wakes s' = [6; 5].
Proof.
  destruct (key_press_delivered (mkInputEvent EV_KEY KEY_A VAL_PRESS) desk 3 _ [] _ [] _ Press
              eq_refl eq_refl (or_introl (conj eq_refl eq_refl)) ltac:(intros _ Hx; vm_compute in Hx; congruence) eq_refl eq_refl
              (new_holds KEYS_N zero_event KEYS_N_pos) eq_refl (new_holds STDIN_N 0 STDIN_N_pos) eq_refl)
    as (s' & kp' & sp' & Hd & _ & _ & _ & _ & _ & _ & Hw & _).
  exists s'. split; [exact Hd |]. exact Hw.
Defined.

(** The race that the second drain closes leaves a wake behind: a byte arrives
    between the stamp and the second drain, which reads it and cancels. *)
Definition race_dev (n : nat) : ProcessStdin :=
  let d1 := snd (stdin_park 7 ProcessStdin_new) in
  let d2 := match stdin_enqueue 65 d1 with Done (_, d) => d | Panic => d1 end in
  let d3 := snd (stdin_unpark d2) in
  let d4 := match stdin_try_drain 8 d3 with Done (_, d) => d | Panic => d3 end in
  let d5 := snd (stdin_park 7 d4) in
  nth n [ProcessStdin_new; d1; d2; d3; d4; d5] ProcessStdin_new.

Ltac eval_dev := vm_compute; reflexivity.

(** The thread sleeps in the next call, is resumed by that wake with its own tid
    still stamped, and the call fails with [EBUSY], with no other reader. *)
Example stale_wake_busy :
  exists s, rtc (sstep 7) fresh_session s /\ ss_reader s = Checked 8 /\ ss_queue s = [] /\ ss_drops s = 0%nat /\ fst (stdin_park 7 (ss_dev s)) = false.
Proof.
  exists (mkSession (race_dev 5) false (Checked 8) [] 0 false [65] [65]).
  split; [| split_and!; eval_dev].
  apply (rtc_l _ _ (mkSession (race_dev 0) false (Checked 8) [] 0 false [] [])); [apply s_drain_none; [lia | eval_dev] |].
  apply (rtc_l _ _ (mkSession (race_dev 1) false (Stamped 8) [] 0 false [] [])); [apply s_park; eval_dev |].
  apply (rtc_l _ _ (mkSession (race_dev 2) true (Stamped 8) [] 0 false [65] [])); [apply (s_enqueue 7 65); eval_dev |].
  apply (rtc_l _ _ (mkSession (race_dev 3) false (Stamped 8) [7] 0 false [65] [])); [apply (s_swap_wake 7 _ _ []); eval_dev |].
  apply (rtc_l _ _ (mkSession (race_dev 4) false Cancelling [7] 0 false [65] [65])); [apply (s_redrain_some 7 8 _ _ _ _ _ _ []); eval_dev |].
  apply (rtc_l _ _ (mkSession (race_dev 4) false Outside [7] 0 false [65] [65])); [eapply s_cancel; eval_dev |].
  apply (rtc_l _ _ (mkSession (race_dev 4) false (Checked 8) [7] 0 false [65] [65])); [apply s_drain_none; [lia | eval_dev] |].
  apply (rtc_l _ _ (mkSession (race_dev 5) false (Stamped 8) [7] 0 false [65] [65])); [apply s_park; eval_dev |].
  apply (rtc_l _ _ (mkSession (race_dev 5) false Asleep [7] 0 false [65] [65])); [apply (s_redrain_none 7 8); eval_dev |].
  apply (rtc_l _ _ (mkSession (race_dev 5) false Asleep [] 0 true [65] [65])); [apply (s_note 7 _ _ _ 7 _ _ false) |].
  apply (rtc_l _ _ (mkSession (race_dev 5) false Outside [] 0 false [65] [65])); [apply s_resume |].
  apply (rtc_l _ _ (mkSession (race_dev 5) false (Checked 8) [] 0 false [65] [65])); [apply s_drain_none; [lia | eval_dev] |].
  apply rtc_refl.
Qed.

