(* ===== verification/Ecall.v ===== *)
(** * The system-call trap

    Models the U-mode ecall arm of [s_trap] in [kmain/src/bin/orbit.rs] and what
    it runs in [kmain/src/lib.rs]: the permission gate, the dispatch on the
    number, the bodies that live in kmain, and the shim [dispatch_syscall] that
    commits an outcome and records the service time. *)

From stdpp Require Import base list option numbers sets gmap.
From S2P Require Import Surface.
From S2P Require Import Prelude Text Sv48 Layout Abi Perms Thread NetChannel Work Syscall Accounting.
#[local] Open Scope Z_scope.

(** What kmain's own bodies use beyond [Hardware]: the wake queue, the hart id,
    the clock, the audit queue, the framebuffer and the surface table. *)
Class KernelHw (K : Type) `{Hardware K} := {
  wake_net : K -> K;
  hart_id : K -> Z;
  rtc_nanos : K -> Z;
  push_denial : K -> DenialEvent -> K;
  copy_to_user : K -> Z -> list Z -> panics K;
  fb_size : K -> option (Z * Z);
  surface_snapshot : K -> Z -> Z -> option (option SurfaceSnapshot);
  push_present : K -> Z -> PresentArgs -> K * bool;
  syscall_stats : K -> list SyscallSlot;
  with_stats : list SyscallSlot -> K -> K;
}.

Definition DENIAL_EVENT_SIZE : Z := 48.
Definition STATS_MIN_LEN : Z := 8.
Definition SYSCALL_STATS_MIN_LEN : Z := 8.
Definition STATS_HEADER_SIZE : Z := 8.
Definition STATS_ENTRY_SIZE : Z := 24.
Definition FB_INFO_SIZE : Z := 16.

(** [u32::saturating_add]. *)
Definition sat_add32 (a b : Z) : Z := Z.min (a + b) (2 ^ 32 - 1).

(** What becomes of the thread after the arm: the trap goes on to
    [check_context_and_switch], the thread leaves in a state, or the exit arm
    retries the hand-over of its item until the ring takes it and then exits. *)
Inductive After := Continue | Leave (s : ThreadState) | PushThenExit (w : PendingWork).

Section Ecall.
Context {K : Type} `{KernelHw K}.

(** A handler body: outcome, thread and kernel. Read-only bodies keep the thread. *)
Definition body := Thread -> TrapFrame -> K -> panics (SyscallOutcome * Thread * K).

Definition ro (h : Thread -> TrapFrame -> K -> SyscallOutcome * K) : body :=
  fun t f k => let '(o, k) := h t f k in Done (o, t, k).
Definition ro_mem (h : Thread -> TrapFrame -> K -> panics (SyscallOutcome * K)) : body :=
  fun t f k => r <-! h t f k ;; let '(o, k) := r in Done (o, t, k).
Definition pure_ret (h : Thread -> K -> SyscallOutcome) : body := fun t _ k => Done (h t k, t, k).

(** ** Bodies in kmain *)

Definition perm_gate_check (t : Thread) (n : Z) (k : K) : bool * K :=
  let p := permissions_snapshot t in
  if allows p n then (true, k)
  else (false, push_denial k (PermDeny (class_for n) (perms p) (now_ticks k) (t_tid t) (as_u32 n) (role p) (t_pid t))).

Definition handle_ch_yield (t : Thread) (f : TrapFrame) (k : K) : SyscallOutcome * K :=
  let k := wake_net k in
  let timeout_ms := reg f 11 in
  if timeout_ms =? 0 then (Return 0, k) else (ms_sleep t timeout_ms k, k).

(** The checks of [query_denial_log] and [query_stats] on their buffer. *)
Definition handle_query_denial_log (t : Thread) (f : TrapFrame) (k : K) : SyscallOutcome * K :=
  with_user_va (reg f 11) k (fun buf_va =>
  let buf_len := reg f 12 in
  if buf_len <? DENIAL_EVENT_SIZE then (ret_err errno.EINVAL, k)
  else if negb (user_range_ok buf_va buf_len) then (ret_err errno.EFAULT, k)
  else if PAGE_SIZE <? wadd (Z.land buf_va (PAGE_SIZE - 1)) buf_len then (ret_err errno.EINVAL, k)
  else if negb (user_va_translates k (root_table_addr t) buf_va) then (ret_err errno.EFAULT, k)
  else park_on_manager k (QueryDenials buf_va buf_len (t_pid t) (root_table_addr t) (t_tid t))).

Definition handle_query_stats (t : Thread) (f : TrapFrame) (k : K) : SyscallOutcome * K :=
  with_user_va (reg f 11) k (fun buf_va =>
  let buf_len := reg f 12 in
  if buf_len <? STATS_MIN_LEN then (ret_err errno.EINVAL, k)
  else if negb (user_range_ok buf_va buf_len) then (ret_err errno.EFAULT, k)
  else if PAGE_SIZE <? wadd (Z.land buf_va (PAGE_SIZE - 1)) buf_len then (ret_err errno.EINVAL, k)
  else if negb (user_va_translates k (root_table_addr t) buf_va) then (ret_err errno.EFAULT, k)
  else park_on_manager k (QueryStats (t_pid t) buf_va buf_len (root_table_addr t) (t_tid t))).

(** Writes the rows of the table one after the other. *)
Fixpoint write_entries (va : Z) (rows : list SyscallSlot) (k : K) : panics K :=
  match rows with
  | [] => Done k
  | s :: rows =>
      k <-! copy_to_user k va (le_bytes 8 (sc_count s) ++ le_bytes 8 (sc_total_ticks s) ++ le_bytes 8 (sc_max_ticks s)) ;;
      write_entries (wadd va STATS_ENTRY_SIZE) rows k
  end.

Definition handle_query_syscall_stats (t : Thread) (f : TrapFrame) (k : K) : panics (SyscallOutcome * K) :=
  match UserVa_new (reg f 11) with
  | Err _ => Done (ret_err errno.EFAULT, k)
  | Ok buf_va =>
      let buf_len := reg f 12 in
      if buf_len <? SYSCALL_STATS_MIN_LEN then Done (ret_err errno.EINVAL, k)
      else if negb (user_range_ok buf_va buf_len) then Done (ret_err errno.EFAULT, k)
      else if negb (user_va_translates k (root_table_addr t) buf_va) then Done (ret_err errno.EFAULT, k)
      else
        let native := STATS_HEADER_SIZE + SYSNO_COUNT * STATS_ENTRY_SIZE in
        let to_write := Z.min native buf_len in
        let entries_capacity := if STATS_HEADER_SIZE <=? to_write then (to_write - STATS_HEADER_SIZE) / STATS_ENTRY_SIZE else 0 in
        let entries_to_write := Z.min entries_capacity SYSNO_COUNT in
        let size := STATS_HEADER_SIZE + entries_to_write * STATS_ENTRY_SIZE in
        k <-! copy_to_user k buf_va (le_bytes 4 size ++ le_bytes 4 entries_to_write) ;;
        k <-! write_entries (wadd buf_va STATS_HEADER_SIZE) (take (Z.to_nat entries_to_write) (syscall_stats k)) k ;;
        Done (Return size, k)
  end.

Definition handle_fb_query (t : Thread) (f : TrapFrame) (k : K) : panics (SyscallOutcome * K) :=
  match UserVa_new (reg f 11) with
  | Err _ => Done (ret_err errno.EFAULT, k)
  | Ok buf_va =>
      let buf_len := FB_INFO_SIZE in
      if negb (user_range_ok buf_va buf_len) then Done (ret_err errno.EFAULT, k)
      else if PAGE_SIZE <? wadd (Z.land buf_va (PAGE_SIZE - 1)) buf_len then Done (ret_err errno.EINVAL, k)
      else if negb (user_va_translates k (root_table_addr t) buf_va) then Done (ret_err errno.EFAULT, k)
      else
        match fb_size k with
        | None => Done (ret_err errno.EAGAIN, k)
        | Some (w, h) =>
            k <-! copy_to_user k buf_va (le_bytes 4 w ++ le_bytes 4 h ++ le_bytes 4 1 ++ le_bytes 4 0) ;;
            Done (Return 0, k)
        end
  end.

Definition handle_fb_present (t : Thread) (f : TrapFrame) (k : K) : SyscallOutcome * K :=
  let handle := as_u32 (reg f 11) in
  let rect_x := as_u32 (reg f 12) in
  let rect_y := as_u32 (reg f 13) in
  let rect_w := as_u32 (reg f 14) in
  let rect_h := as_u32 (reg f 15) in
  if ((rect_w =? 0) || (rect_h =? 0))%bool then (ret_err errno.EINVAL, k)
  else
    match surface_snapshot k (t_pid t) handle with
    | None | Some None => (ret_err errno.EBADF, k)
    | Some (Some snapshot) =>
        let x_end := sat_add32 rect_x rect_w in
        let y_end := sat_add32 rect_y rect_h in
        if ((sn_width snapshot <? x_end) || (sn_height snapshot <? y_end))%bool then (ret_err errno.EINVAL, k)
        else
          let args := mkPresentArgs (sn_kdmap_kva snapshot) (sn_width snapshot) (sn_height snapshot)
                        rect_x rect_y rect_w rect_h (FbFormat_raw (sn_format snapshot)) in
          let '(k, ok) := push_present k (t_pid t) args in
          if negb ok then (ret_err errno.EAGAIN, k) else (Return 0, k)
    end.

(** Against a registry of surfaces, the call decides as [fb_present] does. *)
Lemma handle_fb_present_registry t f k table :
  (forall handle, surface_snapshot k (t_pid t) handle = match table !! t_pid t with None => None | Some ps => Some (Surface.snapshot handle ps) end) ->
  handle_fb_present t f k =
    match fb_present (t_pid t) (as_u32 (reg f 11)) (as_u32 (reg f 12)) (as_u32 (reg f 13)) (as_u32 (reg f 14)) (as_u32 (reg f 15)) table with
    | Err e => (Return e, k)
    | Ok args => let '(k, ok) := push_present k (t_pid t) args in if negb ok then (ret_err errno.EAGAIN, k) else (Return 0, k)
    end.
Proof.
  intros Hs. unfold handle_fb_present, fb_present, ret_err. rewrite Hs. unfold sat_add32, sat_u32.
  destruct (_ || _)%bool; [done |]. destruct (table !! t_pid t) as [ps |]; [| done]. destruct (Surface.snapshot _ ps) as [sn |]; [| done]. by destruct (_ || _)%bool.
Qed.

(** [get_micros] and [get_realtime]: the counter runs at 10 MHz. *)
Definition handle_get_micros : body := pure_ret (fun _ k => Return (as_i64 (now_ticks k / 10))).
Definition handle_get_realtime : body :=
  pure_ret (fun _ k => Return2 (as_i64 (rtc_nanos k / 1000000000)) (as_i64 (rtc_nanos k mod 1000000000))).

(** ** The dispatch *)

(** The handlers that hand a request to the manager. *)
Definition request_handler (n : Z) : option (Thread -> TrapFrame -> K -> SyscallOutcome * K) :=
  if n =? sysno.PLEDGE then Some pledge_req
  else if n =? sysno.MMAP then Some mmap_req
  else if n =? sysno.CREATE_NETCH then Some nc_create_req
  else if n =? sysno.CLOSE_HANDLE then Some close_req
  else if n =? sysno.CREATE_PROCESS then Some create_process_req
  else if n =? sysno.QUERY_STATS then Some handle_query_stats
  else if n =? sysno.CREATE_PROCESS_EX then Some create_process_ex_req
  else if n =? sysno.ARGV_ENVP then Some argv_envp_req
  else if n =? sysno.CREATE_PROCESS_V2 then Some create_process_v2_req
  else if n =? sysno.QUERY_DENIAL_LOG then Some handle_query_denial_log
  else if n =? sysno.CHDIR then Some chdir_req
  else if n =? sysno.GETCWD then Some getcwd_req
  else if n =? sysno.GETGROUPS then Some getgroups_req
  else if n =? sysno.GETLOGIN then Some getlogin_req
  else if n =? sysno.SETUID then Some setuid_req
  else if n =? sysno.SETGID then Some setgid_req
  else if n =? sysno.SETGROUPS then Some setgroups_req
  else if n =? sysno.SETLOGIN then Some setlogin_req
  else if n =? sysno.CH_INSPECT then Some ch_inspect_req
  else if n =? sysno.CREATE_THREAD then Some create_thread
  else if n =? sysno.WAIT_PID then Some wait_pid_req
  else if n =? sysno.FUTEX_WAIT then Some futex_wait_req
  else if n =? sysno.FUTEX_WAKE then Some futex_wake_req
  else if n =? sysno.WAKE_TID then Some wake_tid_req
  else if n =? sysno.FS_OPEN then Some fs_open_req
  else if n =? sysno.FS_READ then Some fs_read_req
  else if n =? sysno.FS_STAT then Some fs_stat_req
  else if n =? sysno.FS_READDIR then Some fs_readdir_req
  else if n =? sysno.FS_SEEK then Some fs_seek_req
  else if n =? sysno.FS_FSTAT then Some fs_fstat_req
  else if n =? sysno.FB_SURFACE_CREATE then Some fb_surface_create_req
  else if n =? sysno.FB_SURFACE_DESTROY then Some fb_surface_destroy_req
  else if n =? sysno.EVENTFD then Some eventfd_req
  else None.

(** The other handlers that run through the shim. *)
Definition local_handler (n : Z) : option body :=
  if n =? sysno.SERIAL_PRINT then Some (ro_mem serial_print)
  else if n =? sysno.SLEEP_MS then Some (fun t f k => Done (ms_sleep t (reg f 11) k, t, k))
  else if n =? sysno.CONSOLE_WRITE then Some (ro_mem console_write)
  else if n =? sysno.READ_STDIN then Some (ro_mem read_stdin)
  else if n =? sysno.READ_KEY_EVENT then Some (ro_mem read_key_event)
  else if n =? sysno.SET_AFFINITY then Some (fun t f k => let '(o, t) := set_affinity t f in Done (o, t, k))
  else if n =? sysno.GET_AFFINITY then Some (pure_ret (fun t _ => get_affinity t))
  else if n =? sysno.GET_HART_ID then Some (pure_ret (fun _ k => Return (hart_id k)))
  else if n =? sysno.GET_MICROS then Some handle_get_micros
  else if n =? sysno.GET_REALTIME then Some handle_get_realtime
  else if n =? sysno.CH_YIELD then Some (ro handle_ch_yield)
  else if n =? sysno.QUERY_SYSCALL_STATS then Some (ro_mem handle_query_syscall_stats)
  else if n =? sysno.GETUID then Some (pure_ret (fun t _ => Return (t_uid t)))
  else if n =? sysno.GETEUID then Some (pure_ret (fun t _ => Return (t_euid t)))
  else if n =? sysno.GETGID then Some (pure_ret (fun t _ => Return (t_gid t)))
  else if n =? sysno.GETEGID then Some (pure_ret (fun t _ => Return (t_egid t)))
  else if n =? sysno.GETPID then Some (pure_ret (fun t _ => Return (t_pid t)))
  else if n =? sysno.GETTID then Some (pure_ret (fun t _ => Return (t_tid t)))
  else if n =? sysno.FB_QUERY then Some (ro_mem handle_fb_query)
  else if n =? sysno.FB_PRESENT then Some (ro handle_fb_present)
  else None.

Definition handler (n : Z) : option body :=
  match request_handler n with Some h => Some (ro h) | None => local_handler n end.

(** [dispatch_syscall_rt] on the hart's current thread. *)
Definition dispatch_syscall_rt (b : body) (epc : Z) (t : Thread) (f : TrapFrame) (k : K)
    : panics (Thread * TrapFrame * K * After) :=
  let n := reg f 10 in
  let start := now_ticks k in
  if negb (bool_decide (t_mode t = User)) then Panic
  else
    r <-! b t f k ;;
    let '(o, t, k) := r in
    let '(t, f, action) := apply_syscall_outcome o t f epc in
    let '(stats, t) := record_syscall n start (now_ticks k) (syscall_stats k) t in
    let k := with_stats stats k in
    Done (t, f, k, match action with Resume => Continue | Yield s => Leave s end).

Definition enforce_eperm : body := pure_ret (fun _ _ => ret_err errno.EPERM).

Definition handle_exit (epc : Z) (t : Thread) (f : TrapFrame) (k : K) : Thread * TrapFrame * K * After :=
  let '(t, f) := update_trap_frame t epc f true in
  (t, f, k, PushThenExit (ExitGroup (t_pid t) (t_tid t) (as_i32 (reg f 11)))).

(** The arm of [s_trap] for cause 8, a trap from U-mode. *)
Definition u_ecall (epc : Z) (t : Thread) (f : TrapFrame) (k : K) : panics (Thread * TrapFrame * K * After) :=
  let n := reg f 10 in
  let '(allowed, k) := perm_gate_check t n k in
  if negb allowed then dispatch_syscall_rt enforce_eperm epc t f k
  else if n =? sysno.EXIT then Done (handle_exit epc t f k)
  else if n =? sysno.THREAD_EXIT then
    let '(t, f) := update_trap_frame t epc f true in Done (t, f, k, Leave Exited)
  else
    match handler n with
    | Some b => dispatch_syscall_rt b epc t f k
    | None => let '(t, f) := update_trap_frame t (wadd epc 4) f true in Done (t, f, k, Continue)
    end.

End Ecall.

(** ** What the handlers promise *)

Section Promises.
Context {K : Type} `{KernelHw K}.
Implicit Types (t : Thread) (f : TrapFrame) (k : K).

(** The check [offset + len <= PAGE_SIZE] is [one_page]. *)
Lemma offset_check va len :
  user_window (va, len) -> (PAGE_SIZE <? wadd (Z.land va (PAGE_SIZE - 1)) len) = false -> one_page (va, len).
Proof.
  unfold user_window, one_page. cbn [fst snd]. intros (Hl & Hn & Hh) E. apply Z.ltb_ge in E.
  change (PAGE_SIZE - 1) with (2 ^ 12 - 1) in E. rewrite land_mod in E by lia.
  pose proof (Z.mod_pos_bound va (2 ^ 12) ltac:(lia)). change UPAGE_SIZE with (2 ^ 12). change PAGE_SIZE with (2 ^ 12) in E.
  rewrite wadd_small in E; [done |]. unfold USER_NULL_GUARD_END, LARGE_PAGE, W64, USER_VA_END, USER_TRAP_FRAME_BASE, UPROC_SHARED_END in *. lia.
Qed.

Section Queries.
Context (t : Thread) (f : TrapFrame) (k : K) (Hf : frame_ok f).

Ltac refuse := apply validated_err; auto.

Lemma query_denials_validated : validated t k (handle_query_denial_log t f k).
Proof.
  pose proof (reg_word f 12 Hf) as Hb. unfold handle_query_denial_log. apply validated_va. intros _. lazy zeta.
  destruct (_ <? DENIAL_EVENT_SIZE); [refuse |].
  destruct (user_range_ok _ _) eqn:Er; cbn [negb]; [| refuse]. apply range_window in Er; [| apply Hb].
  destruct (_ <? _) eqn:Eo; [refuse |]. destruct (user_va_translates _ _ _); cbn [negb]; [| refuse].
  apply validated_park. split; cbn [work_pid work_tid work_root work_ranges work_limits]; [done .. | congruence | by apply Forall_singleton |].
  by apply offset_check.
Qed.

Lemma query_stats_validated : validated t k (handle_query_stats t f k).
Proof.
  pose proof (reg_word f 12 Hf) as Hb. unfold handle_query_stats. apply validated_va. intros _. lazy zeta.
  destruct (_ <? STATS_MIN_LEN); [refuse |].
  destruct (user_range_ok _ _) eqn:Er; cbn [negb]; [| refuse]. apply range_window in Er; [| apply Hb].
  destruct (_ <? _) eqn:Eo; [refuse |]. destruct (user_va_translates _ _ _); cbn [negb]; [| refuse].
  apply validated_park. split; cbn [work_pid work_tid work_root work_ranges work_limits]; [done .. | congruence | by apply Forall_singleton |].
  by apply offset_check.
Qed.
End Queries.

#[local] Hint Resolve mmap_validated fb_surface_create_validated eventfd_validated wake_tid_validated fs_seek_validated
  fs_fstat_validated ch_inspect_validated chdir_validated getcwd_validated getgroups_validated setgroups_validated
  getlogin_validated setuid_validated setgid_validated setlogin_validated argv_envp_validated
  fb_surface_destroy_validated nc_create_validated close_validated create_process_validated wait_pid_validated
  fs_open_validated fs_read_validated fs_stat_validated fs_readdir_validated futex_wait_validated
  futex_wake_validated create_thread_validated pledge_validated create_process_v2_validated
  create_process_ex_validated query_denials_validated query_stats_validated : requests.

(** Every request handler validates. *)
Lemma request_validated n h t f k : frame_ok f -> request_handler n = Some h -> validated t k (h t f k).
Proof.
  intros Hf. unfold request_handler.
  repeat (match goal with |- (if ?b then _ else _) = _ -> _ => destruct b; [intros [= <-]; auto with requests |] end).
  done.
Qed.

(** A request has no other handler, and neither exit is a request. *)
Lemma request_is_handler n h : request_handler (K := K) n = Some h -> handler n = Some (ro h).
Proof. intros E. unfold handler. by rewrite E. Qed.

(** The thread as the calls may change it: saved state, deadline, accounting and
    affinity; its identity, address space, permissions and credentials stay. *)
Record same_identity (t t' : Thread) : Prop := {
  si_ids : (t_pid t', t_tid t', t_satp t', t_mode t', t_slot t') = (t_pid t, t_tid t, t_satp t, t_mode t, t_slot t);
  si_perms : permissions_snapshot t' = permissions_snapshot t;
  si_creds : (t_uid t', t_euid t', t_suid t', t_gid t', t_egid t', t_sgid t') = (t_uid t, t_euid t, t_suid t, t_gid t, t_egid t, t_sgid t);
  si_state : t_state t' = t_state t;
  si_allowed : t_allowed_affinity t' = t_allowed_affinity t;
}.

Lemma same_refl t : same_identity t t.
Proof. by split. Qed.

Lemma same_trans t1 t2 t3 : same_identity t1 t2 -> same_identity t2 t3 -> same_identity t1 t3.
Proof. intros [] []. split; congruence. Qed.

(** The mask a thread runs under: not empty, within the allowed one. *)
Definition mask_ok t : Prop := t_affinity t <> 0 /\ Z.land (t_affinity t) (wnot (t_allowed_affinity t)) = 0.

(** A body keeps the thread's identity and its mask in bounds. *)
Definition body_ok (b : body (K := K)) : Prop :=
  forall t f k o t' k', b t f k = Done (o, t', k') -> same_identity t t' /\ (mask_ok t -> mask_ok t').

Lemma ro_body h : body_ok (ro h).
Proof. intros t f k o t' k'. unfold ro. destruct (h t f k) as [? ?]. intros [= <- <- <-]. by split; [apply same_refl |]. Qed.

Lemma ro_mem_body h : body_ok (ro_mem h).
Proof.
  intros t f k o t' k'. unfold ro_mem. destruct (h t f k) as [[? ?] |]; cbn; [| done].
  intros [= <- <- <-]. by split; [apply same_refl |].
Qed.

Lemma pure_body h : body_ok (pure_ret h).
Proof. intros t f k o t' k'. intros [= <- <- <-]. by split; [apply same_refl |]. Qed.

Lemma set_affinity_body : body_ok (fun t f k => let '(o, t) := set_affinity t f in Done (o, t, k)).
Proof.
  intros t f k o t' k'. unfold set_affinity. lazy zeta. destruct (Z.eqb_spec (reg f 11) 0) as [|Hn].
  { intros [= <- <- <-]. by split; [apply same_refl |]. }
  destruct (Z.eqb_spec (Z.land (reg f 11) (wnot (t_allowed_affinity t))) 0) as [Hz |]; cbn [negb]; intros [= <- <- <-].
  - by split; [split |].
  - by split; [apply same_refl |].
Qed.

Lemma sleep_body (g : Thread -> TrapFrame -> K -> SyscallOutcome) : body_ok (fun t f k => Done (g t f k, t, k)).
Proof. intros t f k o t' k' [= <- <- <-]. by split; [apply same_refl |]. Qed.

Lemma handler_ok n b : handler n = Some b -> body_ok b.
Proof.
  unfold handler. destruct (request_handler n); [intros [= <-]; apply ro_body |]. unfold local_handler.
  repeat (match goal with |- (if ?b then _ else _) = _ -> _ => destruct b;
    [intros [= <-]; first [apply ro_body | apply ro_mem_body | apply pure_body | apply set_affinity_body
                          | apply (sleep_body (fun t f k => ms_sleep t (reg f 11) k))] |] end).
  done.
Qed.

Lemma set_reg_frame i v f : frame_ok f -> frame_ok (set_reg i v f).
Proof.
  intros [Hl Hw]. split; cbn [set_reg regs]; [by rewrite length_insert |]. apply Forall_insert; [done | apply u64_range].
Qed.

Lemma outcome_same o t f epc t' f' a :
  apply_syscall_outcome o t f epc = (t', f', a) ->
  same_identity t t' /\ t_affinity t' = t_affinity t /\ (frame_ok f -> frame_ok f').
Proof.
  unfold apply_syscall_outcome. destruct (negb _); [intros [= <- <- <-]; by split; [apply same_refl |] |].
  destruct o; intros [= <- <- <-]; (split; [by split |]); (split; [done |]); auto using set_reg_frame.
Qed.

Lemma snapshot_same t epc f b t' f' :
  update_trap_frame t epc f b = (t', f') ->
  same_identity t t' /\ t_affinity t' = t_affinity t /\ regs f' = regs f /\ (frame_ok f -> frame_ok f').
Proof.
  unfold update_trap_frame. destruct (negb _); [| destruct (_ || _)%bool]; intros [= <- <-];
    (split; [by split |]); (split; [done |]); (split; [done |]); intros [? ?]; by split.
Qed.
End Promises.

(** ** Properties *)

Section Properties.
Context {K : Type} `{KernelHw K}.

Lemma user_shim (b : body (K := K)) epc t f k :
  t_mode t = User ->
  dispatch_syscall_rt b epc t f k =
    (r <-! b t f k ;;
     let '(o, t1, k1) := r in
     let '(t2, f2, action) := apply_syscall_outcome o t1 f epc in
     let '(stats, t3) := record_syscall (reg f 10) (now_ticks k) (now_ticks k1) (syscall_stats k1) t2 in
     Done (t3, f2, with_stats stats k1, match action with Resume => Continue | Yield s => Leave s end)).
Proof. intros Hm. unfold dispatch_syscall_rt. by rewrite bool_decide_true. Qed.

Lemma record_same n s e st t st' t' :
  record_syscall n s e st t = (st', t') -> same_identity t t' /\ t_affinity t' = t_affinity t /\ t_pc t' = t_pc t.
Proof. intros [= <- <-]. by split; [split |]. Qed.

Lemma shim_ok b epc t f k t' f' k' a :
  body_ok b -> dispatch_syscall_rt b epc t f k = Done (t', f', k', a) ->
  same_identity t t' /\ (mask_ok t -> mask_ok t') /\ (frame_ok f -> frame_ok f').
Proof.
  intros Hb. unfold dispatch_syscall_rt. destruct (negb _); [done |].
  destruct (b t f k) as [[[o t1] k1] |] eqn:Eb; cbn [pbind]; [| done].
  destruct (Hb _ _ _ _ _ _ Eb) as [H1 Hm1]. destruct (apply_syscall_outcome o t1 f epc) as [[t2 f2] act] eqn:Eo.
  destruct (outcome_same _ _ _ _ _ _ _ Eo) as (H2 & Ha2 & Hf2).
  destruct (record_syscall _ _ _ _ t2) as [st t3] eqn:Er. destruct (record_same _ _ _ _ _ _ _ Er) as (H3 & Ha3 & _).
  intros [= <- <- <- <-]. split; [by eapply same_trans; [| eapply same_trans] |]. split; [| done].
  intros Hm. specialize (Hm1 Hm). unfold mask_ok in *. rewrite Ha3, Ha2, (si_allowed _ _ H3), (si_allowed _ _ H2). done.
Qed.

(** C15. The permission gate is complete and harmless: a call whose class the
    thread's permissions do not cover, or that has no class, runs no handler and
    changes nothing but the audit queue, where one event names the caller, and
    the statistics; the thread goes on after the [ecall] with [-EPERM] in [a0]. *)
Theorem ecall_gate epc t f k :
  t_mode t = User -> allows (permissions_snapshot t) (reg f 10) = false ->
  exists t' stats,
    u_ecall epc t f k =
      Done (t', if commit_allowed t then set_reg 10 (to_ret errno.EPERM) f else f,
            with_stats stats (push_denial k (PermDeny (class_for (reg f 10)) (t_perms t) (now_ticks k) (t_tid t)
                                              (as_u32 (reg f 10)) (t_perm_role t) (t_pid t))), Continue) /\
    same_identity t t' /\ t_affinity t' = t_affinity t /\ (commit_allowed t = true -> t_pc t' = wadd epc 4).
Proof.
  intros Hm Ha. unfold u_ecall, perm_gate_check. rewrite Ha. cbn [negb]. rewrite user_shim by done.
  unfold enforce_eperm, pure_ret. cbn [pbind].
  destruct (apply_syscall_outcome _ t f epc) as [[t2 f2] act] eqn:Eo.
  destruct (outcome_same _ _ _ _ _ _ _ Eo) as (H2 & Ha2 & _).
  destruct (record_syscall _ _ _ _ t2) as [st t3] eqn:Er. destruct (record_same _ _ _ _ _ _ _ Er) as (H3 & Ha3 & Hpc).
  unfold apply_syscall_outcome in Eo. exists t3, st.
  destruct (commit_allowed t); cbn [negb] in Eo; injection Eo as <- <- <-;
    (split; [done |]); (split; [by eapply same_trans |]); (split; [congruence |]); [by intros; rewrite Hpc | done].
Qed.

(** The dispatch and the permission table cover the same numbers: a number
    has a permission class exactly when it is an exit or has a handler, so the
    dispatch's default arm is dead code. *)
Theorem dispatch_covers_classes n :
  Perms.is_empty (class_for n) = false <-> n = sysno.EXIT \/ n = sysno.THREAD_EXIT \/ is_Some (handler (K := K) n).
Proof.
  split.
  - unfold class_for.
    repeat (match goal with |- context [if n =? ?c then _ else _] => destruct (Z.eqb_spec n c) as [-> |];
              [intros _; first [left; reflexivity | right; left; reflexivity | right; right; eexists; reflexivity] |] end).
    intros E. by vm_compute in E.
  - intros [-> | [-> | [b Hb]]]; [by vm_compute .. |]. revert Hb. unfold handler, request_handler, local_handler.
    repeat (match goal with |- context [if n =? ?c then _ else _] => destruct (Z.eqb_spec n c) as [-> |];
              [intros _; by vm_compute |] end).
    done.
Qed.


(** C26. Every system call keeps its thread well-typed: whatever number and
    registers the user passes, the trap leaves the thread's identity, address
    space, mode, permissions and credentials as they were, a frame of 32 machine
    words is again one, and an affinity mask that is not empty and within the
    allowed mask stays so. *)
Theorem ecall_preserves_thread epc t f k t' f' k' a :
  u_ecall epc t f k = Done (t', f', k', a) ->
  same_identity t t' /\ (mask_ok t -> mask_ok t') /\ (frame_ok f -> frame_ok f').
Proof.
  assert (Hsnap : forall e g t1 f1, update_trap_frame t e g true = (t1, f1) ->
            same_identity t t1 /\ (mask_ok t -> mask_ok t1) /\ (frame_ok g -> frame_ok f1)).
  { intros e g t1 f1 Hu. destruct (snapshot_same _ _ _ _ _ _ Hu) as (Hi & Hx & _ & Hfr). split; [done |]. split; [| done].
    unfold mask_ok. by rewrite Hx, (si_allowed _ _ Hi). }
  unfold u_ecall. destruct (perm_gate_check t (reg f 10) k) as [ok k1]. destruct ok; cbn [negb].
  - destruct (_ =? sysno.EXIT).
    { unfold handle_exit. destruct (update_trap_frame _ _ _ _) as [t1 f1] eqn:Eu. intros [= <- <- <- <-]. by eapply Hsnap. }
    destruct (_ =? sysno.THREAD_EXIT).
    { destruct (update_trap_frame _ _ _ _) as [t1 f1] eqn:Eu. intros [= <- <- <- <-]. by eapply Hsnap. }
    destruct (handler _) as [b |] eqn:Eh; [by apply shim_ok, (handler_ok _ _ Eh) |].
    destruct (update_trap_frame _ _ _ _) as [t1 f1] eqn:Eu. intros [= <- <- <- <-]. by eapply Hsnap.
  - apply shim_ok, pure_body.
Qed.
End Properties.
