(* ===== verification/Hw.v ===== *)
(** * The supervisor's hardware interface

    Models [kmain/src/hw.rs], the implementation of [orbit-core]'s [Hardware] that
    the trap handler passes to the system-call handlers, with the kernel state it
    reaches: the page tables of the running process, the manager's work queue, the
    console queue of [kmain/src/drivers/k_gpu.rs], and the input registries.

    The processor's own translation of a user access (with [sstatus.SUM] set) is a
    parameter: a byte access that it refuses is a fault taken in supervisor mode,
    which the trap handler turns into a panic. *)

From stdpp Require Import base list option numbers sets gmap.
From S2P Require Import Surface.
From S2P Require Import Prelude Text ThingBuf Sv48 PageTable Layout Abi Perms Thread Spsc Work Syscall Accounting Input Ecall.
#[local] Open Scope Z_scope.

(** The [WriteChunk], [CycleActive], [InsertSource] and [PresentSurface] commands of
    [k_gpu]. *)
Inductive Cmd :=
| CmdChunk (source : Source) (bytes : list Z)
| CmdCycleActive
| CmdInsertSource (source : Source)
| CmdPresent (source : Source) (args : PresentArgs).

Definition CMD_BYTES : Z := 4096.

Section Hw.
Context {B : Type -> Type} `{ThingBuf B}.

(** The running process is the one whose root is [mc_root]; [mc_bytes] is RAM
    by physical address, [mc_tables] the words of the page tables. *)
Record Machine := mkMachine {
  mc_time : Z;
  mc_rtc : Z;
  mc_hart : Z;
  mc_tables : gmap Z Z;
  mc_bias : Z;
  mc_root : Z;
  mc_bytes : gmap Z Z;
  mc_work : B PendingWork;
  mc_console : B Cmd;
  mc_gpu_ready : bool;
  mc_serial : list (Z * option Z * list Z);
  mc_ipis : list Z;
  mc_net_wakes : nat;
  mc_denials : list DenialEvent;
  mc_input : InputState;
  mc_fb : option (Z * Z);
  mc_surfaces : gmap Z ProcessSurfaces;
  mc_stats : list SyscallSlot;
}.

Definition eta_machine (m : Machine) : Machine :=
  mkMachine (mc_time m) (mc_rtc m) (mc_hart m) (mc_tables m) (mc_bias m) (mc_root m) (mc_bytes m) (mc_work m)
    (mc_console m) (mc_gpu_ready m) (mc_serial m) (mc_ipis m) (mc_net_wakes m) (mc_denials m) (mc_input m)
    (mc_fb m) (mc_surfaces m) (mc_stats m).
Definition set_mc_bytes : gmap Z Z -> Machine -> Machine := ltac:(set_field eta_machine mc_bytes).
Definition set_mc_work : B PendingWork -> Machine -> Machine := ltac:(set_field eta_machine mc_work).
Definition set_mc_console : B Cmd -> Machine -> Machine := ltac:(set_field eta_machine mc_console).
Definition set_mc_serial : list (Z * option Z * list Z) -> Machine -> Machine := ltac:(set_field eta_machine mc_serial).
Definition set_mc_ipis : list Z -> Machine -> Machine := ltac:(set_field eta_machine mc_ipis).
Definition set_mc_net_wakes : nat -> Machine -> Machine := ltac:(set_field eta_machine mc_net_wakes).
Definition set_mc_denials : list DenialEvent -> Machine -> Machine := ltac:(set_field eta_machine mc_denials).
Definition set_mc_input : InputState -> Machine -> Machine := ltac:(set_field eta_machine mc_input).
Definition set_mc_stats : list SyscallSlot -> Machine -> Machine := ltac:(set_field eta_machine mc_stats).

(** The processor: the physical address of a user byte, for a load or a store. *)
Context (cpu_load cpu_store : gmap Z Z -> Z -> Z -> option Z).

(** [kernel_root_from_pa]. *)
Definition kernel_root_from_pa (pa : Z) (m : Machine) : RootTable := mkRootTable (wadd pa (mc_bias m)) (mc_bias m).

Definition hw_user_va_translates (m : Machine) (root_table_pa user_va : Z) : bool :=
  match virt_to_phys (mc_tables m) (kernel_root_from_pa root_table_pa m) user_va with
  | Done (Some _) => true
  | _ => false
  end.

(** [UserAccess::slice] and [slice_mut]: byte after byte through the user's map. *)
Fixpoint user_load (m : Machine) (va : Z) (n : nat) : panics (list Z) :=
  match n with
  | O => Done []
  | Datatypes.S n =>
      match cpu_load (mc_tables m) (mc_root m) va with
      | None => Panic
      | Some pa => l <-! user_load m (va + 1) n ;; Done (default 0 (mc_bytes m !! pa) :: l)
      end
  end.

Fixpoint user_store (va : Z) (bytes : list Z) (m : Machine) : panics Machine :=
  match bytes with
  | [] => Done m
  | b :: bytes =>
      match cpu_store (mc_tables m) (mc_root m) va with
      | None => Panic
      | Some pa => user_store (va + 1) bytes (set_mc_bytes (<[pa := b]> (mc_bytes m)) m)
      end
  end.

(** A push on a queue whose slot the caller fills; [false] when it is full. *)
Definition hw_push_pending_work (m : Machine) (work : PendingWork) : Machine * bool :=
  match tb_push work (mc_work m) with
  | Ok q => (set_mc_work q m, true)
  | Err _ => (m, false)
  end.

Definition push_cmd (c : Cmd) (m : Machine) : Machine * bool :=
  match tb_push c (mc_console m) with
  | Ok q => (set_mc_console q m, true)
  | Err _ => (m, false)
  end.
Definition push_chunk (source : Source) (bytes : list Z) (m : Machine) : Machine * bool :=
  push_cmd (CmdChunk source (take (Z.to_nat CMD_BYTES) bytes)) m.
Definition push_present_surface (source : Source) (args : PresentArgs) (m : Machine) : Machine * bool :=
  push_cmd (CmdPresent source args) m.

Definition hw_serial_write_user (m : Machine) (pid tid : Z) (text : list Z) : Machine * bool :=
  (set_mc_serial (mc_serial m ++ [(pid, Some tid, text)]) m, true).

Definition hw_console_write_user (m : Machine) (dest_pid : Z) (bytes : list Z) : Machine * bool :=
  if negb (mc_gpu_ready m) then
    (if utf8_valid bytes then set_mc_serial (mc_serial m ++ [(dest_pid, None, bytes)]) m else m, true)
  else push_chunk (SProcess dest_pid) bytes m.

(** The stdin ring of [pid], updated in place. *)
Definition put_stdin (pid : Z) (p : ProcessStdin) (m : Machine) : Machine :=
  set_mc_input (set_in_stdin (bm_insert pid p (in_stdin (mc_input m))) (mc_input m)) m.
Definition put_keys (pid : Z) (p : ProcessKeyEvents) (m : Machine) : Machine :=
  set_mc_input (set_in_keys (bm_insert pid p (in_keys (mc_input m))) (mc_input m)) m.

Definition hw_read_stdin_drain (m : Machine) (pid user_va max_len : Z) : panics (Machine * Z) :=
  match bm_get pid (in_stdin (mc_input m)) with
  | None => Done (m, 0)
  | Some stdin =>
      r <-! stdin_try_drain max_len stdin ;;
      let '(bytes, stdin) := r in
      let m := put_stdin pid stdin m in
      match bytes with
      | [] => Done (m, 0)
      | _ => m <-! user_store user_va bytes m ;; Done (m, Z.of_nat (length bytes))
      end
  end.

Definition hw_park_stdin_reader (m : Machine) (pid tid : Z) : Machine * bool :=
  match bm_get pid (in_stdin (mc_input m)) with
  | None => (m, false)
  | Some stdin => let '(ok, stdin) := stdin_park tid stdin in (put_stdin pid stdin m, ok)
  end.

Definition hw_unpark_stdin_reader (m : Machine) (pid : Z) : Machine * bool :=
  match bm_get pid (in_stdin (mc_input m)) with
  | None => (m, false)
  | Some stdin => let '(w, stdin) := stdin_unpark stdin in (put_stdin pid stdin m, bool_decide (is_Some w))
  end.

(** The memory image of a [KeyEvent]: four 32-bit words. *)
Definition event_bytes (e : KeyEvent) : list Z :=
  le_bytes 4 (ke_code e) ++ le_bytes 4 (ke_modifiers e) ++ le_bytes 4 (ke_kind e) ++ le_bytes 4 (ke_reserved e).

Definition MAX_EVENTS : Z := PAGE_SIZE / KEY_EVENT_SIZE.

Definition hw_read_key_events_drain (m : Machine) (pid user_va max_count : Z) : panics (Machine * Z) :=
  match bm_get pid (in_keys (mc_input m)) with
  | None => Done (m, 0)
  | Some events =>
      let cap := Z.min max_count MAX_EVENTS in
      r <-! keys_try_drain cap events ;;
      let '(evs, events) := r in
      let m := put_keys pid events m in
      match evs with
      | [] => Done (m, 0)
      | _ => m <-! user_store user_va (concat (map event_bytes evs)) m ;; Done (m, Z.of_nat (length evs))
      end
  end.

Definition park_outcome (r : ParkResult) : ParkOutcome :=
  match r with PInstalled => Installed | PAlreadyOwned => AlreadyOwned | PBusy => Busy end.

Definition hw_set_key_event_parker (m : Machine) (pid tid : Z) : Machine * ParkOutcome :=
  match bm_get pid (in_keys (mc_input m)) with
  | None => (m, Busy)
  | Some events => let '(r, events) := set_parker tid events in (put_keys pid events m, park_outcome r)
  end.

Definition hw_clear_key_event_parker_if (m : Machine) (pid tid : Z) : Machine * bool :=
  match bm_get pid (in_keys (mc_input m)) with
  | None => (m, false)
  | Some events => let '(ok, events) := clear_parker_if tid events in (put_keys pid events m, ok)
  end.

#[export] Instance RiscvHardware : Hardware Machine := {
  now_ticks := mc_time;
  ticks_per_ms _ := 10000;
  user_va_translates := hw_user_va_translates;
  copy_from_user m va len := user_load m va (Z.to_nat len);
  serial_write_user := hw_serial_write_user;
  console_write_user := hw_console_write_user;
  hw_wake_hart m h := set_mc_ipis (mc_ipis m ++ [h]) m;
  push_pending_work := hw_push_pending_work;
  read_stdin_drain := hw_read_stdin_drain;
  park_stdin_reader := hw_park_stdin_reader;
  unpark_stdin_reader := hw_unpark_stdin_reader;
  read_key_events_drain := hw_read_key_events_drain;
  set_key_event_parker := hw_set_key_event_parker;
  clear_key_event_parker_if := hw_clear_key_event_parker_if;
}.

#[export] Instance RiscvKernel : KernelHw Machine := {
  wake_net m := set_mc_net_wakes (S (mc_net_wakes m)) m;
  hart_id := mc_hart;
  rtc_nanos := mc_rtc;
  push_denial m e := set_mc_denials (mc_denials m ++ [e]) m;
  copy_to_user m va bytes := user_store va bytes m;
  fb_size := mc_fb;
  surface_snapshot m pid h := match mc_surfaces m !! pid with None => None | Some ps => Some (Surface.snapshot h ps) end;
  push_present m pid args := push_present_surface (SProcess pid) args m;
  syscall_stats := mc_stats;
  with_stats := set_mc_stats;
}.

End Hw.
Arguments Machine B : clear implicits.
Arguments mkMachine {B}.

(** ** Copies through the user's map *)

Section Copies.
Context {B : Type -> Type} `{ThingBuf B}.
Context (cpu_load cpu_store : gmap Z Z -> Z -> Z -> option Z).
Implicit Types m : Machine B.

(** A buffer the processor can reach: each byte has a place of its own, the same
    for loads and stores. *)
Definition buffer_mapped m (va : Z) (n : nat) (pa : nat -> Z) : Prop :=
  (forall i, (i < n)%nat -> cpu_store (mc_tables m) (mc_root m) (va + Z.of_nat i) = Some (pa i) /\
                            cpu_load (mc_tables m) (mc_root m) (va + Z.of_nat i) = Some (pa i)) /\
  (forall i j, (i < n)%nat -> (j < n)%nat -> pa i = pa j -> i = j).

Lemma buffer_mapped_tail m va n pa bs :
  buffer_mapped m va (S n) pa -> buffer_mapped (set_mc_bytes bs m) (va + 1) n (fun i => pa (S i)).
Proof.
  intros [Hm Hi]. split.
  - intros i Hlt. replace (va + 1 + Z.of_nat i) with (va + Z.of_nat (S i)) by lia. apply (Hm (S i)). lia.
  - intros i j ? ? E. apply Hi in E; lia.
Qed.

Lemma user_store_spec bytes : forall va m pa,
  buffer_mapped m va (length bytes) pa ->
  exists mem, user_store cpu_store va bytes m = Done (set_mc_bytes mem m) /\
    (forall i b, bytes !! i = Some b -> mem !! pa i = Some b) /\
    (forall a, (forall i, (i < length bytes)%nat -> pa i <> a) -> mem !! a = mc_bytes m !! a).
Proof.
  induction bytes as [| b bytes IH]; intros va m pa Hm.
  { exists (mc_bytes m). split; [by destruct m |]. split; [done |]. done. }
  destruct (proj1 Hm 0%nat) as [E0 _]; [simpl; lia |]. rewrite Z.add_0_r in E0. cbn [user_store]. rewrite E0.
  destruct (IH (va + 1) (set_mc_bytes (<[pa 0%nat := b]> (mc_bytes m)) m) (fun i => pa (S i))) as (mem & E & Hin & Hout).
  { by apply buffer_mapped_tail. }
  exists mem. split; [by rewrite E |]. split.
  - intros [| i] b' Hb; simpl in Hb; [| by apply Hin]. injection Hb as <-. rewrite Hout.
    + cbn. by rewrite lookup_insert_eq.
    + intros j Hj E'. apply (proj2 Hm) in E'; simpl in *; lia.
  - intros a Ha. rewrite Hout; [| intros i Hi; apply (Ha (S i)); simpl; lia].
    cbn. rewrite lookup_insert_ne; [done |]. apply (Ha 0%nat). simpl. lia.
Qed.

Lemma user_load_spec l : forall va m pa,
  buffer_mapped m va (length l) pa -> (forall i b, l !! i = Some b -> mc_bytes m !! pa i = Some b) ->
  user_load cpu_load m va (length l) = Done l.
Proof.
  induction l as [| b l IH]; intros va m pa Hm Hb; [done |]. cbn [length user_load].
  destruct (proj1 Hm 0%nat) as [_ E0]; [simpl; lia |]. rewrite Z.add_0_r in E0. rewrite E0.
  rewrite (IH (va + 1) m (fun i => pa (S i))).
  - cbn [pbind]. by rewrite (Hb 0%nat b eq_refl).
  - apply (buffer_mapped_tail m va (length l) pa (mc_bytes m)) in Hm. by destruct m.
  - intros i b' Hl. by apply (Hb (S i)).
Qed.

Lemma user_load_faults n : forall m va,
  user_load cpu_load m va n = Panic <-> exists i, (i < n)%nat /\ cpu_load (mc_tables m) (mc_root m) (va + Z.of_nat i) = None.
Proof.
  induction n as [| n IH]; intros m va; cbn [user_load].
  { split; [done |]. intros (i & ? & _). lia. }
  destruct (cpu_load _ _ va) as [pa |] eqn:E.
  - specialize (IH m (va + 1)). destruct (user_load cpu_load m (va + 1) n) as [x |]; cbn [pbind].
    + split; [done |]. intros (i & Hi & Ei). destruct i as [| i]; [rewrite Z.add_0_r in Ei; congruence |].
      exfalso. assert (Done x = Panic); [| done]. apply IH. exists i. split; [lia |].
      by replace (va + 1 + Z.of_nat i) with (va + Z.of_nat (S i)) by lia.
    + split; [| done]. intros _. destruct (proj1 IH eq_refl) as (i & Hi & Ei). exists (S i). split; [lia |].
      by replace (va + Z.of_nat (S i)) with (va + 1 + Z.of_nat i) by lia.
  - split; [| done]. intros _. exists 0%nat. split; [lia |]. by rewrite Z.add_0_r.
Qed.

Lemma buffer_mapped_le m va n n' pa : (n' <= n)%nat -> buffer_mapped m va n pa -> buffer_mapped m va n' pa.
Proof. intros Hle [Hm Hi]. split; intros; [apply Hm | apply Hi]; try done; lia. Qed.

(** A keyboard read, end to end: with bytes waiting in the caller's ring and a
    mapped buffer, [read_stdin] returns their number, at most the length asked
    for; the user then reads exactly the oldest bytes from its buffer; they are
    gone from the ring and the others wait there in order; memory outside the
    buffer and the parked-reader slot are as before. *)
Theorem read_stdin_delivers (t : Thread) f m s l pa :
  user_range_ok (reg f 11) 1 = true -> 0 < reg f 12 <= PAGE_SIZE -> user_range_ok (reg f 11) (reg f 12) = true ->
  hw_user_va_translates m (root_table_addr t) (reg f 11) = true ->
  bm_get (t_pid t) (in_stdin (mc_input m)) = Some s -> stdin_holds s l -> l <> [] ->
  buffer_mapped m (reg f 11) (Z.to_nat (reg f 12)) pa ->
  let got := take (Z.to_nat (reg f 12)) l in
  exists m' s',
    @read_stdin _ (RiscvHardware cpu_load cpu_store) t f m = Done (DoneReschedule (Z.of_nat (length got)), m') /\
    user_load cpu_load m' (reg f 11) (length got) = Done got /\
    bm_get (t_pid t) (in_stdin (mc_input m')) = Some s' /\ stdin_holds s' (drop (Z.to_nat (reg f 12)) l) /\
    si_parked_tid s' = si_parked_tid s /\
    (forall a, (forall i, (i < length got)%nat -> pa i <> a) -> mc_bytes m' !! a = mc_bytes m !! a).
Proof.
  intros Hva Hlen Hr Ht Hg Hl Hne Hm got. destruct (stdin_drain_spec (reg f 12) s l Hl) as (s' & Ed & Hl' & Hp).
  assert (Hgot : got <> []) by (subst got; destruct l; [done |]; destruct (Z.to_nat (reg f 12)) eqn:E; [lia | done]).
  assert (Hgl : (length got <= Z.to_nat (reg f 12))%nat) by (subst got; rewrite length_take; lia).
  destruct (user_store_spec got (reg f 11) (put_stdin (t_pid t) s' m) pa) as (mem & Es & Hin & Hout).
  { apply (buffer_mapped_le _ _ (Z.to_nat (reg f 12))); [done |]. exact Hm. }
  exists (set_mc_bytes mem (put_stdin (t_pid t) s' m)), s'.
  split; [| split; [| split; [| split_and!]]]; try done.
  - unfold read_stdin, UserVa_new. rewrite Hva, Hr. cbn [user_va_translates RiscvHardware read_stdin_drain]. rewrite Ht.
    destruct (Z.eqb_spec (reg f 12) 0); [lia |]. destruct (Z.ltb_spec PAGE_SIZE (reg f 12)); [lia |]. cbn [orb negb].
    unfold hw_read_stdin_drain. rewrite Hg, Ed. cbn [pbind]. fold got. destruct got as [| b g]; [done |]. rewrite Es. cbn [pbind].
    destruct (Z.ltb_spec 0 (Z.of_nat (length (b :: g)))); [done | simpl in *; lia].
  - apply user_load_spec with (pa := pa); [| exact Hin]. by apply (buffer_mapped_le _ _ (Z.to_nat (reg f 12))).
  - apply bm_get_insert_eq.
Qed.
End Copies.

(** ** A machine *)

(** The walk of the tables as the processor's translation. *)
Definition walk_cpu (tables : gmap Z Z) (root va : Z) : option Z :=
  match virt_to_phys tables (mkRootTable root 0) va with Done o => o | Panic => None end.

(** One user page at 4 MiB, backed by physical page 8; the next page is unmapped. *)
Definition one_page_tables : gmap Z Z :=
  <[0x1000 := 0x801]> (<[0x2000 := 0xC01]> (<[0x3010 := 0x1001]> (<[0x4000 := 0x20D7]> ∅))).

Definition demo_input (keys : list Z) : InputState :=
  match push_bytes keys None ProcessStdin_new with
  | Done (_, p) => mkInput 0 3 [(3, p)] [] [] 0
  | Panic => mkInput 0 3 [] [] [] 0
  end.

Definition demo_machine (keys : list Z) : Machine ring :=
  mkMachine 1000 0 1 one_page_tables 0 0x1000 ∅ (mkRing 1 []) (mkRing 256 []) false [] [] 0 [] (demo_input keys) None ∅ SYSCALL_STATS.

(** [a0..a7] of a call. *)
Definition demo_frame (args : list Z) : TrapFrame := mkTrapFrame (replicate 10 0 ++ args ++ replicate (22 - length args) 0) (replicate 32 0) 3 0.

(** Tid 7 of process 3, running in user mode on those tables. *)
Definition demo_thread : Thread :=
  store_state (as_usize Running) (thread_new (mkThreadInit 4096 1 User 7 3 TrapFrame_empty (Some 1) 15 15
    (from_masks class_ALL class_ALL SHELL) 1000 1000 1000 1000 1000 1000 None)).

#[local] Existing Instance RiscvHardware.
#[local] Existing Instance RiscvKernel.

#[local] Instance demo_hw : Hardware (Machine ring) := RiscvHardware walk_cpu walk_cpu.
#[local] Instance demo_kernel : KernelHw (Machine ring) := RiscvKernel walk_cpu walk_cpu.

(** Printing a buffer whose first page is mapped and whose second is not faults in
    the kernel: the handler checks the first page only. *)
Example straddling_print_panics :
  serial_print demo_thread (demo_frame [1; 0x400FFF; 2]) (demo_machine []) = Panic /\
  exists m, serial_print demo_thread (demo_frame [1; 0x400FFF; 1]) (demo_machine []) = Done (ready 0, m).
Proof. split; [vm_compute; reflexivity |]. eexists. vm_compute. reflexivity. Qed.

Definition demo_read : TrapFrame := demo_frame [sysno.READ_STDIN; 0x400010; 2].

Definition demo_stdin : ProcessStdin :=
  match bm_get 3 (in_stdin (demo_input [104; 105; 33])) with Some p => p | None => ProcessStdin_new end.

Lemma demo_holds : stdin_holds demo_stdin [104; 105; 33].
Proof.
  unfold demo_stdin, demo_input. destruct (push_bytes_spec [104; 105; 33] None ProcessStdin_new []) as (s' & Hs & E & _).
  { by apply new_holds. }
  rewrite E. exact Hs.
Qed.

Lemma demo_buffer : buffer_mapped walk_cpu walk_cpu (demo_machine [104; 105; 33]) 0x400010 2 (fun i => 0x8010 + Z.of_nat i).
Proof.
  split; [| intros; lia]. intros i Hi. destruct i as [| [| i]]; [split; vm_compute; reflexivity .. | lia].
Qed.

Lemma read_stdin_delivers_witness :
  exists m', read_stdin demo_thread demo_read (demo_machine [104; 105; 33]) = Done (DoneReschedule 2, m') /\
    user_load walk_cpu m' 0x400010 2 = Done [104; 105].
Proof.
  destruct (read_stdin_delivers walk_cpu walk_cpu demo_thread demo_read (demo_machine [104; 105; 33]) demo_stdin [104; 105; 33] (fun i => 0x8010 + Z.of_nat i))
    as (m' & s' & Hr & Hl & _).
  - vm_compute. reflexivity.
  - vm_compute. split; [reflexivity | congruence].
  - vm_compute. reflexivity.
  - vm_compute. reflexivity.
  - vm_compute. reflexivity.
  - exact demo_holds.
  - congruence.
  - exact demo_buffer.
  - exists m'. split; [exact Hr | exact Hl].
Defined.

(** A thread without the network class, creating a network channel. *)
Definition unprivileged : Thread := store_perms 0 demo_thread.

Lemma ecall_gate_witness :
  exists t' m', u_ecall 0x10000 unprivileged (demo_frame [sysno.MMAP]) (demo_machine []) =
                  Done (t', set_reg 10 (to_ret errno.EPERM) (demo_frame [sysno.MMAP]), m', Continue) /\
    same_identity unprivileged t'.
Proof.
  destruct (ecall_gate 0x10000 unprivileged (demo_frame [sysno.MMAP]) (demo_machine []) ltac:(reflexivity) ltac:(vm_compute; reflexivity))
    as (t' & st & Hu & Hi & _).
  eexists t', _. split; [exact Hu | exact Hi].
Defined.

Lemma demo_frame_ok n a b c d : Forall is_u64 [n; a; b; c; d] -> frame_ok (demo_frame [n; a; b; c; d]).
Proof.
  intros Hw. split; [done |]. cbn [regs demo_frame]. apply Forall_app. split; [apply Forall_replicate; done |].
  apply Forall_app. split; [done |]. apply Forall_replicate. done.
Qed.

Definition demo_mmap : TrapFrame := demo_frame [sysno.MMAP; UPROC_PRIV_BASE; 4096; 6; 0].

Lemma demo_mmap_frame : frame_ok demo_mmap.
Proof. apply demo_frame_ok. repeat (constructor; [vm_compute; split; congruence |]). constructor. Qed.


Definition demo_affinity : TrapFrame := demo_frame [sysno.SET_AFFINITY; 5; 0; 0; 0].

Lemma ecall_preserves_thread_witness :
  exists t' f' m' a, u_ecall 0x10000 demo_thread demo_affinity (demo_machine []) = Done (t', f', m', a) /\
    same_identity demo_thread t' /\ mask_ok t' /\ t_affinity t' = 5.
Proof.
  destruct (u_ecall 0x10000 demo_thread demo_affinity (demo_machine [])) as [[[[t' f'] m'] a] |] eqn:E.
  - exists t', f', m', a. split; [reflexivity |].
    destruct (ecall_preserves_thread 0x10000 demo_thread demo_affinity (demo_machine []) t' f' m' a E) as (Hi & Hm & _).
    split; [exact Hi |]. split; [apply Hm; vm_compute; split; congruence |].
    assert (Ht : t' = match u_ecall 0x10000 demo_thread demo_affinity (demo_machine []) with Done (t, _, _, _) => t | Panic => t' end) by (rewrite E; reflexivity).
    rewrite Ht. vm_compute. reflexivity.
  - exfalso. vm_compute in E. congruence.
Defined.
