(* ===== verification/Manager.v ===== *)
(** * The scheduling manager

    [manager/src/lib.rs] (the registry, the wake drains, the sleep drain and
    the ready inboxes), with the kernel paths that feed it: parking and
    dispatch ([kmain/src/kernel/context.rs]), the inline wakes and the direct
    resume ([kmain/src/kernel/mod.rs]), the exit-group kill and the reaper.

    The rings ([StaticThingBuf] of the thingbuf crate) are a parameter: the
    class [ThingBuf] has the operations the kernel uses and [ThingBufLaws] the
    documented behaviour of a bounded FIFO. *)

From stdpp Require Import base list option numbers sets gmap.
From S2P Require Import Prelude ThingBuf Perms Thread Sched Completion.

#[local] Open Scope Z_scope.

(** ** Data *)

Inductive WakeEvent :=
| WNone
| WNet
| WPid (pid : Z)
| WTid (tid : Z)
| WInputTid (tid : Z)
| WGpu
| WSerial.

Record SleepNotice := mkSleepNotice {
  n_wake_time : Z;
  n_sleep_seq : Z;
  n_thread : ptr;
}.

(** [Manager]; the registry maps a tid to the address of its thread. *)
Record Manager := mkManager {
  threads : list (Z * ptr);
  ready : ReadyQueue;
  sleeping : SleepHeap;
  net_thread_tid : option Z;
  gpu_thread_tid : option Z;
  serial_thread_tid : option Z;
}.

Definition manager_new : Manager := mkManager [] [] [] None None None.

Definition eta_manager (m : Manager) : Manager :=
  mkManager (threads m) (ready m) (sleeping m) (net_thread_tid m) (gpu_thread_tid m) (serial_thread_tid m).
Definition set_threads : list (Z * ptr) -> Manager -> Manager := ltac:(set_field eta_manager threads).
Definition set_ready : ReadyQueue -> Manager -> Manager := ltac:(set_field eta_manager ready).
Definition set_sleeping : SleepHeap -> Manager -> Manager := ltac:(set_field eta_manager sleeping).

(** The kernel state the scheduler works on: the live threads, the manager,
    the rings of [manager/src/lib.rs], the per-hart [current] slots and the
    completion handles. *)
Record Kernel (B : Type -> Type) := mkKernel {
  heap : Heap;
  mgr : Manager;
  ready_inboxes : list (B ptr);
  sleep_inbox : B SleepNotice;
  wake_queue : B WakeEvent;
  wake_queue_peak : Z;
  wake_queue_drops : Z;
  currents : list ptr;
  handles : gmap nat CompletionInner;
}.
Arguments mkKernel {B}.
Arguments heap {B}.
Arguments mgr {B}.
Arguments ready_inboxes {B}.
Arguments sleep_inbox {B}.
Arguments wake_queue {B}.
Arguments wake_queue_peak {B}.
Arguments wake_queue_drops {B}.
Arguments currents {B}.
Arguments handles {B}.

Section Ops.
Context {B : Type -> Type} `{ThingBuf B}.

Definition eta_kernel (k : Kernel B) : Kernel B :=
  mkKernel (heap k) (mgr k) (ready_inboxes k) (sleep_inbox k) (wake_queue k) (wake_queue_peak k)
    (wake_queue_drops k) (currents k) (handles k).
Definition set_heap : Heap -> Kernel B -> Kernel B := ltac:(set_field eta_kernel (@heap B)).
Definition set_mgr : Manager -> Kernel B -> Kernel B := ltac:(set_field eta_kernel (@mgr B)).
Definition set_ready_inboxes : list (B ptr) -> Kernel B -> Kernel B := ltac:(set_field eta_kernel (@ready_inboxes B)).
Definition set_sleep_inbox : B SleepNotice -> Kernel B -> Kernel B := ltac:(set_field eta_kernel (@sleep_inbox B)).
Definition set_wake_queue : B WakeEvent -> Kernel B -> Kernel B := ltac:(set_field eta_kernel (@wake_queue B)).
Definition set_wake_queue_peak : Z -> Kernel B -> Kernel B := ltac:(set_field eta_kernel (@wake_queue_peak B)).
Definition set_wake_queue_drops : Z -> Kernel B -> Kernel B := ltac:(set_field eta_kernel (@wake_queue_drops B)).
Definition set_currents : list ptr -> Kernel B -> Kernel B := ltac:(set_field eta_kernel (@currents B)).
Definition set_handles : gmap nat CompletionInner -> Kernel B -> Kernel B := ltac:(set_field eta_kernel (@handles B)).

(** Writes a thread back to its address. *)
Definition put (p : ptr) (t : Thread) (k : Kernel B) : Kernel B := set_heap (<[p := t]> (heap k)) k.

Definition push_ready (p : ptr) (k : Kernel B) : Kernel B :=
  set_mgr (set_ready (rq_push p (ready (mgr k))) (mgr k)) k.

(** ** Registry *)

Definition register (tid : Z) (p : ptr) (m : Manager) : Manager := set_threads (bm_insert tid p (threads m)) m.
Definition unregister (tid : Z) (m : Manager) : Manager * option ptr :=
  (set_threads (bm_remove tid (threads m)) m, bm_get tid (threads m)).
Definition forget_thread (p : ptr) (m : Manager) : Manager :=
  set_ready (rq_remove_thread p (ready m)) (set_sleeping (sh_remove_thread p (sleeping m)) m).
Definition admit_runnable (p : ptr) (m : Manager) : Manager := set_ready (rq_push p (ready m)) m.
Definition tid_in_use (tid : Z) (m : Manager) : bool := bool_decide (is_Some (bm_get tid (threads m))).

(** ** Wake queue *)

Definition wake_queue_push (ev : WakeEvent) (k : Kernel B) : result unit WakeEvent * Kernel B :=
  match tb_push ev (wake_queue k) with
  | Ok q => (Ok (), set_wake_queue_peak (Z.max (wake_queue_peak k) (tb_len q)) (set_wake_queue q k))
  | Err e => (Err e, set_wake_queue_drops (wadd (wake_queue_drops k) 1) k)
  end.

(** The body of the loop of [set_wake_reason_where]. *)
Definition wake_one (reason : Z) (pred : Thread -> bool) (p : ptr) (k : Kernel B) : panics (Kernel B) :=
  match heap k !! p with
  | None => Panic
  | Some t =>
      if negb (pred t) then Done k
      else
        let st := t_state t in
        let has_rets := pending_signaled t in
        let t1 := note_wake reason t in
        r <-! (if st =? as_usize Suspended then
                 if claim_parked t1 then
                   if has_rets then resume_published t1
                   else t2 <-! promote_wake t1 ;; Done (t2, true)
                 else Done (t1, false)
               else if ((st =? as_usize Blocking) && has_rets)%bool then
                 if claim_parked t1 then resume_published t1 else Done (t1, false)
               else Done (t1, false)) ;;
        let k1 := put p (fst r) k in
        Done (if snd r then push_ready p k1 else k1)
  end.

Definition set_wake_reason_where (reason : Z) (pred : Thread -> bool) (k : Kernel B) : panics (Kernel B) :=
  pfold (wake_one reason pred) (map snd (threads (mgr k))) k.

(** Wakes a latched kernel thread, or every pid-0 thread before the latch. *)
Definition wake_latched (latch : option Z) (k : Kernel B) : panics (Kernel B) :=
  match latch with
  | Some tid => set_wake_reason_where wake_reason.TICKLE (fun t => t_tid t =? tid) k
  | None => set_wake_reason_where wake_reason.TICKLE (fun t => t_pid t =? 0) k
  end.

Definition handle_wake (ev : WakeEvent) (k : Kernel B) : panics (Kernel B) :=
  match ev with
  | WNone => Done k
  | WNet => wake_latched (net_thread_tid (mgr k)) k
  | WPid pid => set_wake_reason_where wake_reason.NET_IO (fun t => t_pid t =? pid) k
  | WTid tid => set_wake_reason_where wake_reason.NET_IO (fun t => t_tid t =? tid) k
  | WInputTid tid => set_wake_reason_where wake_reason.INPUT_IO (fun t => t_tid t =? tid) k
  | WGpu => wake_latched (gpu_thread_tid (mgr k)) k
  | WSerial => wake_latched (serial_thread_tid (mgr k)) k
  end.

(** [while let Some(x) = ring.pop()]: [tb_len] turns empty it and the last
    turn finds it empty. *)
Fixpoint tb_drain {A S} (n : nat) (f : A -> S -> panics S) (b : B A) (s : S) : panics (B A * S) :=
  match n with
  | O => Done (b, s)
  | Datatypes.S n' =>
      match tb_pop b with
      | None => Done (b, s)
      | Some (x, b') => s' <-! f x s ;; tb_drain n' f b' s'
      end
  end.

Definition drain {A S} (f : A -> S -> panics S) (b : B A) (s : S) : panics (B A * S) :=
  tb_drain (Datatypes.S (Z.to_nat (tb_len b))) f b s.

Definition drain_wakes (k : Kernel B) : panics (Kernel B) :=
  r <-! drain handle_wake (wake_queue k) k ;; Done (set_wake_queue (fst r) (snd r)).

(** ** Sleepers *)

Definition fold_notice (n : SleepNotice) (k : Kernel B) : panics (Kernel B) :=
  if n_thread n =? null then Done k
  else
    match heap k !! n_thread n with
    | None => Panic
    | Some t =>
        if has_pending_wake t then
          if claim_parked t then
            t' <-! promote_wake t ;; Done (push_ready (n_thread n) (put (n_thread n) t' k))
          else Done k
        else
          Done (set_mgr (set_sleeping (sh_push (n_thread n) (n_wake_time n) (n_sleep_seq n)
                                         (sleeping (mgr k))) (mgr k)) k)
    end.

(** The callback of [drain_woken]. *)
Definition wake_sleeper (p : ptr) (k : Kernel B) : panics (Kernel B) :=
  match heap k !! p with
  | None => Panic
  | Some t =>
      if claim_parked t then t' <-! promote_wake t ;; Done (push_ready p (put p t' k)) else Done k
  end.

Definition drain_sleeps (now : Z) (k : Kernel B) : panics (Kernel B) :=
  r <-! drain fold_notice (sleep_inbox k) k ;;
  let k1 := set_sleep_inbox (fst r) (snd r) in
  r2 <-! drain_woken heap now wake_sleeper (sleeping (mgr k1)) k1 ;;
  Done (set_mgr (set_sleeping (fst r2) (mgr (snd r2))) (snd r2)).

Definition next_sleep_in_cycles (now cap : Z) (m : Manager) : Z :=
  match next_wake (sleeping m) with
  | Some t => if now <? t then Z.min (t - now) cap else 0
  | None => cap
  end.

(** ** Ready inboxes *)

Definition fold_ready (p : ptr) (k : Kernel B) : panics (Kernel B) :=
  if p =? null then Done k else Done (push_ready p k).

Definition drain_inbox (i : nat) (k : Kernel B) : panics (Kernel B) :=
  match ready_inboxes k !! i with
  | None => Done k
  | Some b =>
      r <-! drain fold_ready b k ;;
      Done (set_ready_inboxes (<[i := fst r]> (ready_inboxes (snd r))) (snd r))
  end.

Definition drain_ready_inboxes (k : Kernel B) : panics (Kernel B) :=
  pfold drain_inbox (seq 0 (length (ready_inboxes k))) k.

Definition push_ready_notice (hart : nat) (p : ptr) (k : Kernel B) : result unit unit * Kernel B :=
  match ready_inboxes k !! hart with
  | None => (Err (), k)
  | Some b =>
      match tb_push p b with
      | Ok b' => (Ok (), set_ready_inboxes (<[hart := b']> (ready_inboxes k)) k)
      | Err _ => (Err (), k)
      end
  end.

(** ** Completion *)

Definition publish_pending_for_tid (tid : Z) (vals : list Z) (k : Kernel B) : panics (Kernel B) :=
  match bm_get tid (threads (mgr k)) with
  | None => Done k
  | Some p =>
      match heap k !! p with
      | None => Panic
      | Some t => Done (snd (wake_queue_push (WTid tid) (put p (publish_results vals t) k)))
      end
  end.

(** [try_wake_pending_inline] and [wake_blocked_inline], on the hart [hart]. *)
Definition try_wake_pending_inline (hart : nat) (p : ptr) (k : Kernel B) : panics (bool * Kernel B) :=
  if p =? null then Done (false, k)
  else
    match heap k !! p with
    | None => Panic
    | Some t =>
        r <-! try_claim_own_pending t ;;
        let k1 := put p (fst r) k in
        Done (if snd r then (true, snd (push_ready_notice hart p k1)) else (false, k1))
    end.

Definition wake_blocked_inline (hart : nat) (p : ptr) (k : Kernel B) : panics (Kernel B) :=
  if p =? null then Done k
  else
    match heap k !! p with
    | None => Panic
    | Some t =>
        match take_handle t with
        | (t1, None) => Done (put p t1 k)
        | (t1, Some h) =>
            match handles k !! h with
            | None => Panic
            | Some c =>
                t2 <-! resume_with (handle_rets c) t1 ;;
                Done (snd (push_ready_notice hart p (put p t2 k)))
            end
        end
    end.

Definition resume_thread_with_values (hart : nat) (tid : Z) (vals : list Z) (k : Kernel B)
    : panics (Kernel B) :=
  match bm_get tid (threads (mgr k)) with
  | None => Done k
  | Some p =>
      match heap k !! p with
      | None => Panic
      | Some t =>
          if claim_parked t then
            t' <-! write_rets vals t ;;
            Done (snd (push_ready_notice hart p (put p t' k)))
          else publish_pending_for_tid tid vals k
      end
  end.

(** ** Parking and dispatch *)

(** The three tails of [exit_thread_with_state], after the state store. *)
Definition exit_tail_sleep (notice : option SleepNotice) (k : Kernel B) : Kernel B :=
  match notice with
  | None => k
  | Some n =>
      match tb_push n (sleep_inbox k) with
      | Ok b => set_sleep_inbox b k
      | Err _ => k
      end
  end.

Definition exit_tail_ready (hart : nat) (p : ptr) (k : Kernel B) : panics (Kernel B) :=
  match heap k !! p with
  | None => Panic
  | Some t => t' <-! into_runnable t ;; Done (snd (push_ready_notice hart p (put p t' k)))
  end.

Definition exit_tail_block (hart : nat) (p : ptr) (k : Kernel B) : panics (Kernel B) :=
  match heap k !! p with
  | None => Panic
  | Some t =>
      k1 <-! match t_handle t with
             | None => Done k
             | Some h =>
                 match handles k !! h with
                 | None => Panic
                 | Some c =>
                     let c1 := set_waiter p c in
                     let k1 := set_handles (<[h := c1]> (handles k)) k in
                     if is_signaled c1 then
                       let '(c2, claimed) := take_waiter c1 in
                       let k2 := set_handles (<[h := c2]> (handles k1)) k1 in
                       if claimed =? 0 then Done k2 else wake_blocked_inline hart p k2
                     else Done k1
                 end
             end ;;
      r <-! try_wake_pending_inline hart p k1 ;; Done (snd r)
  end.

Definition exit_thread_with_state (hart : nat) (s : ThreadState) (k : Kernel B) : panics (Kernel B) :=
  match currents k !! hart with
  | None => Panic
  | Some p =>
      if p =? null then Done k
      else
        match heap k !! p with
        | None => Panic
        | Some t =>
            let '(t1, notice) :=
              if decide (s = Suspended) then
                let seq := wadd (t_sleep_seq t) 1 in
                (store_sleep_seq seq t, Some (mkSleepNotice (t_wake_time t) seq p))
              else (t, None) in
            t2 <-! transition_to s t1 ;;
            let k1 := exit_tail_sleep notice
                        (put p t2 (set_currents (<[hart := null]> (currents k)) k)) in
            match s with
            | Ready => exit_tail_ready hart p k1
            | Blocking => exit_tail_block hart p k1
            | _ => Done k1
            end
        end
  end.

(** [check_context_and_switch]: the end of every trap. *)
Definition check_context_and_switch (hart : nat) (k : Kernel B) : panics (Kernel B) :=
  match currents k !! hart with
  | None => Panic
  | Some p =>
      if p =? null then Done k
      else
        match heap k !! p with
        | None => Panic
        | Some t =>
            let st := t_state t in
            if st =? as_usize Running then exit_thread_with_state hart Ready k
            else if st =? as_usize Exited then exit_thread_with_state hart Exited k
            else if ((st =? as_usize Suspended) || (st =? as_usize Blocking))%bool
            then Done (set_currents (<[hart := null]> (currents k)) k)
            else Done k
        end
  end.

(** [load_thread_into_hart_context_and_jump] up to the jump. [user_va_end] is
    the top of user space. *)
Definition dispatch (user_va_end : Z) (hart : nat) (k : Kernel B) : panics (Kernel B) :=
  match currents k !! hart with
  | None => Panic
  | Some p =>
      if p =? null then Done k
      else
        match heap k !! p with
        | None => Panic
        | Some t =>
            if (bool_decide (t_mode t = Supervisor) && (t_pc t <? user_va_end))%bool then Panic
            else
              t1 <-! mark_running t ;;
              if t_state t1 =? as_usize Exited
              then Done (set_currents (<[hart := null]> (currents k)) (put p t1 k))
              else
                let t2 := store_context_switches (wadd (t_context_switches t1) 1) t1 in
                match t_mode t2, t_slot t2 with
                | User, None => Panic
                | _, _ => Done (put p t2 k)
                end
        end
  end.

(** ** Assignment *)

Definition views (cs : list ptr) : list HartView := imap (fun i c => mkHartView (Z.of_nat i) c) cs.

Definition write_back (vs : list HartView) (cs : list ptr) : list ptr :=
  foldl (fun cs v => <[Z.to_nat (hart_id v) := current v]> cs) cs vs.

Definition manager_assign (self : nat) (k : Kernel B) : panics (Kernel B * list Z) :=
  match views (currents k) !! self with
  | None => Panic
  | Some self_view =>
      let remotes := filter (fun v => hart_id v <> Z.of_nat self) (views (currents k)) in
      r <-! assign_threads self_view remotes (ready (mgr k)) (heap k) ;;
      let '(self', vs, q, hp, ipis) := r in
      Done (set_currents (write_back (vs ++ [self']) (currents k))
              (set_heap hp (set_mgr (set_ready q (mgr k)) k)), ipis)
  end.

(** [Orbit::assign_threads]. *)
Definition orbit_assign_threads (now : Z) (self : nat) (k : Kernel B) : panics (Kernel B * list Z) :=
  k1 <-! drain_sleeps now k ;; k2 <-! drain_ready_inboxes k1 ;; manager_assign self k2.

(** ** Creation, kill and reaping *)

(** A freshly built thread: registered and admitted. *)
Definition create (p : ptr) (i : ThreadInit) (k : Kernel B) : Kernel B :=
  set_mgr (admit_runnable p (register (i_tid i) p (mgr k))) (put p (thread_new i) k).

(** The kill loop of [request_exit_group]. *)
Definition kill_one (tid : Z) (k : Kernel B) : panics (Kernel B) :=
  match bm_get tid (threads (mgr k)) with
  | None => Done k
  | Some p =>
      match heap k !! p with
      | None => Panic
      | Some t => Done (put p (mark_exited t) k)
      end
  end.

Definition request_exit_group (proc_threads : list Z) (leader_tid : Z) (k : Kernel B) : panics (Kernel B) :=
  pfold kill_one (filter (fun tid => tid <> leader_tid) proc_threads) k.

(** The reaper of [cleanup_threads_and_processes] for one [Exited] thread:
    [unregister], [forget_thread] and the free of the box. *)
Definition reap (tid : Z) (k : Kernel B) : panics (Kernel B) :=
  match unregister tid (mgr k) with
  | (_, None) => Panic
  | (m1, Some p) => Done (set_mgr (forget_thread p m1) (set_heap (delete p (heap k)) k))
  end.

(** The tids the reaper's first loop collects. *)
Definition tids_to_remove (known_pid : Z -> bool) (k : Kernel B) : list Z :=
  omap (fun e => match heap k !! e.2 with
                 | Some t => if (known_pid (t_pid t) && claim_exited t)%bool then Some (t_tid t) else None
                 | None => None
                 end) (threads (mgr k)).

Definition cleanup_threads (known_pid : Z -> bool) (k : Kernel B) : panics (Kernel B) :=
  pfold reap (tids_to_remove known_pid k) k.
End Ops.

(** ** Specification: who holds the right to run a thread

    A thread is claimed by a token in the ready queue or an inbox, or by the
    [current] slot of a hart. *)

(** The occupied [current] slots. *)
Definition occupied (cs : list ptr) : list ptr := filter (fun p => p <> null) cs.

Definition on_hart (hp : Heap) (p : ptr) : Prop :=
  exists t, hp !! p = Some t /\ (in_state t Assigned \/ in_state t Running \/ in_state t Exited).

Definition wf_thread (t : Thread) : Prop :=
  (exists s, in_state t s) /\ length (t_pending_rets t) = 4%nat.

(** No thread has two claims; a queued thread is [Ready] or was killed while
    queued; a thread on a hart is [Assigned], [Running] or was killed there. *)
Record claims_ok (hp : Heap) (toks curs : list ptr) : Prop := {
  co_null : hp !! null = None;
  co_wf : forall p t, hp !! p = Some t -> wf_thread t;
  co_nodup : NoDup (toks ++ curs);
  co_toks : Forall (dispatchable hp) toks;
  co_curs : Forall (on_hart hp) curs;
}.

Section ClaimLemmas.
Implicit Types (hp : Heap) (toks curs : list ptr).

#[export] Instance claims_ok_perm : Proper ((=) ==> (≡ₚ) ==> (≡ₚ) ==> iff) claims_ok.
Proof.
  intros hp ? <- t1 t2 Ht c1 c2 Hc. split; intros [H1 H2 H3 H4 H5]; split; try done.
  - by rewrite <- Ht, <- Hc.
  - by rewrite <- Ht.
  - by rewrite <- Hc.
  - by rewrite Ht, Hc.
  - by rewrite Ht.
  - by rewrite Hc.
Qed.

Lemma in_state_inj t s s' : in_state t s -> in_state t s' -> s = s'.
Proof. unfold in_state. intros H1 H2. apply as_usize_inj. congruence. Qed.

(** A claim on another address does not notice a store at [p]. *)
Lemma dispatchable_ne hp p q t : p <> q -> dispatchable (<[p := t]> hp) q <-> dispatchable hp q.
Proof. intros. unfold dispatchable. by rewrite lookup_insert_ne. Qed.

Lemma on_hart_ne hp p q t : p <> q -> on_hart (<[p := t]> hp) q <-> on_hart hp q.
Proof. intros. unfold on_hart. by rewrite lookup_insert_ne. Qed.

(** Updating a thread in place, with the claims on it re-established. *)
Lemma claims_ok_put hp toks curs p t' :
  claims_ok hp toks curs -> p <> null -> wf_thread t' ->
  (p ∈ toks -> in_state t' Ready \/ in_state t' Exited) ->
  (p ∈ curs -> in_state t' Assigned \/ in_state t' Running \/ in_state t' Exited) ->
  claims_ok (<[p := t']> hp) toks curs.
Proof.
  intros [H1 H2 H3 H4 H5] Hp Hw Ht Hc. split; try done.
  - by rewrite lookup_insert_ne.
  - intros q t. destruct (decide (p = q)) as [<- | Hne].
    + rewrite lookup_insert_eq. by intros [= <-].
    + rewrite lookup_insert_ne by done. eauto.
  - rewrite Forall_forall in *. intros q Hq. destruct (decide (p = q)) as [<- | Hne].
    + exists t'. rewrite lookup_insert_eq. auto.
    + apply dispatchable_ne; auto.
  - rewrite Forall_forall in *. intros q Hq. destruct (decide (p = q)) as [<- | Hne].
    + exists t'. rewrite lookup_insert_eq. auto.
    + apply on_hart_ne; auto.
Qed.

Lemma claims_live hp toks curs p t :
  claims_ok hp toks curs -> hp !! p = Some t -> p <> null /\ wf_thread t.
Proof. intros [H1 H2 _ _ _] Hp. split; [intros ->; congruence | eauto]. Qed.

(** A store that keeps the state, or kills. *)
Lemma claims_ok_same hp toks curs p t t' :
  claims_ok hp toks curs -> hp !! p = Some t -> wf_thread t' ->
  t_state t' = t_state t \/ in_state t' Exited -> claims_ok (<[p := t']> hp) toks curs.
Proof.
  intros Hi Hp Hw Hs. destruct (claims_live _ _ _ _ _ Hi Hp) as [Hn _].
  apply claims_ok_put; try done; intros Hin; destruct Hi as [_ _ _ H4 H5]; rewrite Forall_forall in *.
  - destruct (H4 p Hin) as (t0 & Ht0 & H0). simplify_eq. destruct Hs as [Hs | Hs]; [| auto].
    unfold in_state in *. rewrite Hs. tauto.
  - destruct (H5 p Hin) as (t0 & Ht0 & H0). simplify_eq. destruct Hs as [Hs | Hs]; [| auto].
    unfold in_state in *. rewrite Hs. tauto.
Qed.

Lemma parked_unclaimed hp toks curs p t :
  claims_ok hp toks curs -> hp !! p = Some t -> claim_parked t = true -> p ∉ toks /\ p ∉ curs.
Proof.
  intros [_ _ _ H4 H5] Hp Hpk. rewrite Forall_forall in *.
  assert (in_state t Blocking \/ in_state t Suspended) as Hs.
  { unfold claim_parked, is_parked in Hpk. apply orb_true_iff in Hpk as [?%Z.eqb_eq | ?%Z.eqb_eq]; auto. }
  split; intros Hin.
  - destruct (H4 p Hin) as (t0 & Ht0 & H0). simplify_eq.
    destruct Hs as [Hs | Hs], H0 as [H0 | H0]; by pose proof (in_state_inj _ _ _ Hs H0).
  - destruct (H5 p Hin) as (t0 & Ht0 & H0). simplify_eq.
    destruct Hs as [Hs | Hs], H0 as [H0 | [H0 | H0]]; by pose proof (in_state_inj _ _ _ Hs H0).
Qed.

(** A parked thread that becomes [Ready] gets its one token. *)
Lemma claims_ok_wake hp toks curs p t t' :
  claims_ok hp toks curs -> hp !! p = Some t -> claim_parked t = true ->
  wf_thread t' -> in_state t' Ready -> claims_ok (<[p := t']> hp) (p :: toks) curs.
Proof.
  intros Hi Hp Hpk Hw Hr. destruct (parked_unclaimed _ _ _ _ _ Hi Hp Hpk) as [Ht Hc].
  destruct (claims_live _ _ _ _ _ Hi Hp) as [Hn _].
  assert (Hi' : claims_ok (<[p := t']> hp) toks curs) by (apply claims_ok_put; done).
  destruct Hi' as [H1 H2 H3 H4 H5]. split; try done.
  - simpl. apply NoDup_cons. split; [set_solver | done].
  - constructor; [| done]. exists t'. rewrite lookup_insert_eq. auto.
Qed.

(** A token that is dropped. *)
Lemma claims_ok_drop hp toks curs p : claims_ok hp (p :: toks) curs -> claims_ok hp toks curs.
Proof.
  intros [H1 H2 H3 H4 H5]. simpl in H3. apply NoDup_cons in H3 as [_ H3].
  by inversion_clear H4.
Qed.

(** A hart gives up its thread. *)
Lemma claims_ok_leave hp toks curs p : claims_ok hp toks (p :: curs) -> claims_ok hp toks curs.
Proof.
  intros [H1 H2 H3 H4 H5]. inversion_clear H5. split; try done.
  rewrite <- Permutation_middle in H3. by apply NoDup_cons in H3 as [_ H3].
Qed.

(** A hart gives up its thread and the thread changes: nobody else claims it. *)
Lemma claims_ok_park hp toks curs p t' :
  claims_ok hp toks (p :: curs) -> p <> null -> wf_thread t' -> claims_ok (<[p := t']> hp) toks curs.
Proof.
  intros Hi Hn Hw. pose proof (co_nodup _ _ _ Hi) as Hnd. rewrite <- Permutation_middle in Hnd.
  apply NoDup_cons in Hnd as [Hni _]. apply claims_ok_leave in Hi.
  apply claims_ok_put; try done; intros; exfalso; set_solver.
Qed.

(** A hart yields its thread, which becomes [Ready] with a token. *)
Lemma claims_ok_yield hp toks curs p t :
  claims_ok hp toks (p :: curs) -> hp !! p = Some t -> forall t', wf_thread t' -> in_state t' Ready ->
  claims_ok (<[p := t']> hp) (p :: toks) curs.
Proof.
  intros Hi Hp t' Hw Hr. destruct (claims_live _ _ _ _ _ Hi Hp) as [Hn _].
  pose proof (co_nodup _ _ _ Hi) as Hnd. rewrite <- Permutation_middle in Hnd.
  assert (Hi' : claims_ok (<[p := t']> hp) toks curs) by (by apply claims_ok_park).
  destruct Hi' as [H1 H2 H3 H4 H5]. split; try done.
  constructor; [| done]. exists t'. rewrite lookup_insert_eq. auto.
Qed.
End ClaimLemmas.

(** ** Specification: the pointers the scheduler keeps are live

    No system call installs a completion handle on its thread, so the handle
    slot of a thread is always empty. *)

Record refs_ok (hp : Heap) (ths : list (Z * ptr)) (sl : SleepHeap) (ns : list SleepNotice)
    : Prop := {
  ro_registry : Forall (fun e => exists t, hp !! e.2 = Some t /\ t_tid t = e.1) ths;
  ro_sleeping : Forall (fun e => is_Some (hp !! e_thread e)) sl;
  ro_notices : Forall (fun n => n_thread n = null \/ is_Some (hp !! n_thread n)) ns;
  ro_handles : forall p t, hp !! p = Some t -> t_handle t = None;
}.

(** What a verb may do to a thread that keeps every reference to it valid. *)
Definition same_thread (t t' : Thread) : Prop :=
  wf_thread t' /\ t_tid t' = t_tid t /\ (t_handle t = None -> t_handle t' = None).

Lemma is_Some_insert (hp : Heap) p q t : is_Some (hp !! q) -> is_Some (<[p := t]> hp !! q).
Proof. intros Hq. apply lookup_insert_is_Some'. by right. Qed.

Lemma refs_ok_put hp ths sl ns p t t' :
  refs_ok hp ths sl ns -> hp !! p = Some t -> same_thread t t' ->
  refs_ok (<[p := t']> hp) ths sl ns.
Proof.
  intros [H1 H2 H3 H4] Hp (Hw & Ht & Hh). split.
  - eapply Forall_impl; [exact H1 |]. intros [tid q] (t0 & Hq & Ht0). simpl in *.
    destruct (decide (p = q)) as [<- | Hne].
    + exists t'. rewrite lookup_insert_eq. simplify_eq. by rewrite Ht.
    + exists t0. by rewrite lookup_insert_ne.
  - eapply Forall_impl; [exact H2 |]. intros e. apply is_Some_insert.
  - eapply Forall_impl; [exact H3 |]. intros e [He | He]; [by left | right; by apply is_Some_insert].
  - intros q t0 Hq. destruct (decide (p = q)) as [<- | Hne].
    + rewrite lookup_insert_eq in Hq. simplify_eq. by eapply Hh, H4.
    + rewrite lookup_insert_ne in Hq by done. by eapply H4.
Qed.

(** ** Thread verbs, as the manager sees them *)

Lemma promote_wake_ok t :
  wf_thread t -> claim_parked t = true ->
  exists t', promote_wake t = Done t' /\ same_thread t t' /\ in_state t' Ready.
Proof.
  intros [_ Hl] Hp. unfold promote_wake. rewrite promote_parked by exact Hp.
  eexists. split; [done |]. split; [| done]. split; [| split; done]. split; [by exists Ready | exact Hl].
Qed.

Lemma resume_published_ok t :
  wf_thread t -> claim_parked t = true -> pending_signaled t = true ->
  exists t', resume_published t = Done (t', true) /\ same_thread t t' /\ in_state t' Ready.
Proof.
  intros [_ Hl] Hp Hs. unfold resume_published, take_pending_results.
  unfold pending_signaled in Hs. rewrite Hs. rewrite promote_parked by exact Hp.
  eexists. split; [done |]. split; [| done]. split; [| split; done]. split; [by exists Ready | exact Hl].
Qed.

Lemma write_rets_ok vals t :
  wf_thread t -> claim_parked t = true ->
  exists t', write_rets vals t = Done t' /\ same_thread t t' /\ in_state t' Ready.
Proof.
  intros [_ Hl] Hp. unfold write_rets. rewrite promote_parked by exact Hp.
  eexists. split; [done |]. split; [| done]. split; [| split; done]. split; [by exists Ready | exact Hl].
Qed.

Lemma resume_with_ok vals t :
  wf_thread t -> claim_parked t = true ->
  exists t', resume_with vals t = Done t' /\ same_thread t t' /\ in_state t' Ready.
Proof.
  intros [_ Hl] Hp. unfold resume_with. rewrite promote_parked by exact Hp.
  eexists. split; [done |]. split; [| done]. split; [| split; done]. split; [by exists Ready | exact Hl].
Qed.

Lemma try_claim_ok t :
  wf_thread t -> claim_parked t = true ->
  exists t' tok, try_claim_own_pending t = Done (t', tok) /\ same_thread t t' /\
    if tok then in_state t' Ready else t' = t.
Proof.
  intros [Hst Hl] Hp. unfold try_claim_own_pending, take_pending_results.
  destruct (t_pending_state t =? PENDING_STATE_SIGNALED).
  - rewrite promote_parked by exact Hp. eexists _, true. split; [done |]. split; [| done].
    split; [| split; done]. split; [by exists Ready | exact Hl].
  - exists t, false. split; [done |]. split; [| done]. by split.
Qed.

Lemma note_wake_same r t : wf_thread t -> same_thread t (note_wake r t).
Proof. intros [Hst Hl]. split; [| done]. split; [exact Hst | exact Hl]. Qed.

Lemma publish_same vals t : wf_thread t -> same_thread t (publish_results vals t).
Proof.
  intros [Hst Hl]. split; [| done]. split; [exact Hst |].
  unfold publish_results. simpl. by rewrite store_rets_length.
Qed.

Lemma same_thread_trans t1 t2 t3 : same_thread t1 t2 -> same_thread t2 t3 -> same_thread t1 t3.
Proof.
  intros (_ & Ha & Hb) (Hc & Hd & He). split; [done |]. split; [congruence | auto].
Qed.

(** ** The kernel invariant *)

Section Inv.
Context {B : Type -> Type} `{ThingBufLaws B}.
Implicit Types k : Kernel B.

(** With the outstanding tokens and sleep notices made explicit, so that it
    can be stated in the middle of a drain. *)
Definition kernel_inv k (toks : list ptr) (ns : list SleepNotice) : Prop :=
  claims_ok (heap k) toks (occupied (currents k)) /\
  refs_ok (heap k) (threads (mgr k)) (sleeping (mgr k)) ns.

Definition inbox_tokens k : list ptr := concat (map items (ready_inboxes k)).
Definition tokens k : list ptr := ready (mgr k) ++ inbox_tokens k.

Definition kernel_ok k : Prop := kernel_inv k (tokens k) (items (sleep_inbox k)).

Lemma kernel_inv_perm k toks toks' ns : toks ≡ₚ toks' -> kernel_inv k toks ns -> kernel_inv k toks' ns.
Proof. intros Hp [H1 H2]. split; [by rewrite <- Hp | done]. Qed.

(** The effect of the wake operations: threads change and tokens are queued. *)
Definition woken (hp : Heap) (new : list ptr) k : Kernel B :=
  set_heap hp (set_mgr (set_ready (ready (mgr k) ++ new) (mgr k)) k).

Lemma woken_woken hp1 n1 hp2 n2 k : woken hp2 n2 (woken hp1 n1 k) = woken hp2 (n1 ++ n2) k.
Proof. unfold woken. destruct k as [? []]. cbn. by rewrite <- app_assoc. Qed.

Lemma put_woken p t k : put p t k = woken (<[p := t]> (heap k)) [] k.
Proof. unfold woken, put. destruct k as [? []]. cbn. by rewrite app_nil_r. Qed.

Lemma put_push_woken p t k : push_ready p (put p t k) = woken (<[p := t]> (heap k)) [p] k.
Proof. by destruct k as [? []]. Qed.

Lemma woken_id k : k = woken (heap k) [] k.
Proof. unfold woken. destruct k as [? []]. cbn. by rewrite app_nil_r. Qed.

(** An operation that only wakes threads, from [k]. *)
Definition wakes_only k (r : panics (Kernel B)) : Prop :=
  exists hp new, r = Done (woken hp new k) /\
    (forall toks ns, kernel_inv k toks ns -> kernel_inv (woken hp new k) (new ++ toks) ns).

Lemma kernel_inv_same k toks ns p t t' :
  kernel_inv k toks ns -> heap k !! p = Some t -> same_thread t t' ->
  t_state t' = t_state t \/ in_state t' Exited ->
  kernel_inv (woken (<[p := t']> (heap k)) [] k) toks ns.
Proof.
  intros [Hc Hr] Hp Hs Hst. split.
  - apply (claims_ok_same _ _ _ p t t'); [done | done | apply Hs | done].
  - by eapply refs_ok_put.
Qed.

Lemma kernel_inv_wake k toks ns p t t' :
  kernel_inv k toks ns -> heap k !! p = Some t -> claim_parked t = true -> same_thread t t' ->
  in_state t' Ready -> kernel_inv (woken (<[p := t']> (heap k)) [p] k) (p :: toks) ns.
Proof.
  intros [Hc Hr] Hp Hpk Hs Hst. split.
  - apply (claims_ok_wake _ _ _ p t t'); [done | done | done | apply Hs | done].
  - by eapply refs_ok_put.
Qed.

Lemma kernel_inv_wf k toks ns p t : kernel_inv k toks ns -> heap k !! p = Some t -> wf_thread t.
Proof. intros [[_ Hw _ _ _] _]. apply Hw. Qed.

Lemma wakes_only_put k p t t' :
  heap k !! p = Some t -> same_thread t t' -> t_state t' = t_state t ->
  wakes_only k (Done (put p t' k)).
Proof.
  intros Hp Hs Hst. eexists _, []. rewrite put_woken. split; [done |].
  intros toks ns Hi. eapply kernel_inv_same; eauto.
Qed.

Lemma wakes_only_wake k p t t' :
  heap k !! p = Some t -> claim_parked t = true -> same_thread t t' -> in_state t' Ready ->
  wakes_only k (Done (push_ready p (put p t' k))).
Proof.
  intros Hp Hpk Hs Hst. eexists _, [p]. rewrite put_push_woken. split; [done |].
  intros toks ns Hi. simpl. eapply kernel_inv_wake; eauto.
Qed.

Lemma wakes_only_done k : wakes_only k (Done k).
Proof. exists (heap k), []. by rewrite <- woken_id. Qed.

Lemma wakes_only_seq {X} (f : X -> Kernel B -> panics (Kernel B)) (P : Kernel B -> X -> Prop) l :
  (forall x k toks ns, x ∈ l -> kernel_inv k toks ns -> P k x -> wakes_only k (f x k)) ->
  (forall hp new k x, P k x -> P (woken hp new k) x) ->
  forall k toks ns, kernel_inv k toks ns -> (forall x, x ∈ l -> P k x) ->
  exists hp new, pfold f l k = Done (woken hp new k) /\ kernel_inv (woken hp new k) (new ++ toks) ns.
Proof.
  intros Hf Hst. induction l as [| x l IH]; intros k toks ns Hi HP; simpl.
  { exists (heap k), []. rewrite <- woken_id. done. }
  destruct (Hf x k toks ns ltac:(set_solver) Hi (HP x ltac:(set_solver))) as (hp1 & n1 & -> & Hn). simpl.
  specialize (Hn toks ns Hi).
  destruct (IH ltac:(intros; eapply Hf; set_solver) (woken hp1 n1 k) (n1 ++ toks) ns Hn) as (hp2 & n2 & -> & Hn2).
  { intros y Hy. apply Hst, HP. set_solver. }
  exists hp2, (n1 ++ n2). rewrite woken_woken in *. split; [done |].
  eapply kernel_inv_perm; [| exact Hn2]. by rewrite (Permutation_app_comm n1 n2), <- app_assoc.
Qed.

(** ** The wake drain *)

Lemma wake_one_ok reason pred p k t toks ns :
  kernel_inv k toks ns -> heap k !! p = Some t -> wakes_only k (wake_one reason pred p k).
Proof.
  intros Hi Hp. pose proof (kernel_inv_wf _ _ _ _ _ Hi Hp) as Hw.
  pose proof (note_wake_same reason t Hw) as Hn. pose proof (proj1 Hn) as Hw1.
  unfold wake_one. rewrite Hp. destruct (pred t); cbn [negb]; [| apply wakes_only_done].
  assert (Hkeep : wakes_only k (Done (put p (note_wake reason t) k))) by (by eapply wakes_only_put).
  destruct (t_state t =? as_usize Suspended) eqn:Es.
  - destruct (claim_parked (note_wake reason t)) eqn:Ec; [| exact Hkeep].
    destruct (pending_signaled t) eqn:Eg.
    + destruct (resume_published_ok _ Hw1 Ec Eg) as (t' & -> & Hs & Hr). simpl.
      eapply wakes_only_wake; eauto using same_thread_trans.
    + destruct (promote_wake_ok _ Hw1 Ec) as (t' & -> & Hs & Hr). simpl.
      eapply wakes_only_wake; eauto using same_thread_trans.
  - destruct (_ && _)%bool eqn:Eb; [| exact Hkeep]. apply andb_true_iff in Eb as [_ Eg].
    destruct (claim_parked (note_wake reason t)) eqn:Ec; [| exact Hkeep].
    destruct (resume_published_ok _ Hw1 Ec Eg) as (t' & -> & Hs & Hr). simpl.
    eapply wakes_only_wake; eauto using same_thread_trans.
Qed.

Definition registered k (p : ptr) : Prop := p ∈ map snd (threads (mgr k)).

Lemma registered_live k toks ns p :
  kernel_inv k toks ns -> registered k p -> exists t, heap k !! p = Some t.
Proof.
  intros [_ [Hr _ _ _]] Hp. apply list_elem_of_fmap in Hp as (e & -> & He).
  rewrite Forall_forall in Hr. destruct (Hr e He) as (t & Ht & _). eauto.
Qed.

Lemma set_wake_ok reason pred k toks ns :
  kernel_inv k toks ns ->
  exists hp new, set_wake_reason_where reason pred k = Done (woken hp new k) /\
    kernel_inv (woken hp new k) (new ++ toks) ns.
Proof.
  intros Hi. unfold set_wake_reason_where. apply (wakes_only_seq _ registered); try done.
  intros p k' toks' ns' _ Hi' Hp. destruct (registered_live _ _ _ _ Hi' Hp) as [t Ht].
  by eapply wake_one_ok.
Qed.

Lemma handle_wake_ok ev k toks ns :
  kernel_inv k toks ns ->
  exists hp new, handle_wake ev k = Done (woken hp new k) /\
    kernel_inv (woken hp new k) (new ++ toks) ns.
Proof.
  intros Hi. destruct ev; simpl; unfold wake_latched; try (by apply set_wake_ok);
    try (case_match; by apply set_wake_ok).
  exists (heap k), []. by rewrite <- woken_id.
Qed.

(** ** Ring drains *)

Lemma tb_drain_inv {A S} (f : A -> S -> panics S) (I : list A -> S -> Prop) :
  (forall x l s, I (x :: l) s -> exists s', f x s = Done s' /\ I l s') ->
  forall n b s, (length (items b) < n)%nat -> I (items b) s ->
  exists b' s', tb_drain n f b s = Done (b', s') /\ items b' = [] /\ I [] s'.
Proof.
  intros Hf. induction n as [| n IH]; intros b s Hn Hi; [lia |]. simpl.
  destruct (tb_pop b) as [[x b'] |] eqn:Ep.
  - apply tb_pop_some in Ep. rewrite Ep in Hi, Hn. destruct (Hf _ _ _ Hi) as (s' & -> & Hi'). simpl.
    apply IH; [simpl in Hn; lia | done].
  - apply tb_pop_none in Ep. exists b, s. by rewrite Ep in *.
Qed.

Lemma drain_inv {A S} (f : A -> S -> panics S) (I : list A -> S -> Prop) b s :
  (forall x l s, I (x :: l) s -> exists s', f x s = Done s' /\ I l s') -> I (items b) s ->
  exists b' s', drain f b s = Done (b', s') /\ items b' = [] /\ I [] s'.
Proof.
  intros Hf Hi. unfold drain. apply tb_drain_inv; [done | | done].
  rewrite tb_len_items, Nat2Z.id. lia.
Qed.

(** The invariant along a drain that only wakes. *)
Definition woken_from k0 toks ns k : Prop :=
  exists hp new, k = woken hp new k0 /\ kernel_inv k (new ++ toks) ns.

Lemma woken_from_trans k0 toks ns k1 hp2 n2 :
  woken_from k0 toks ns k1 ->
  (forall toks1, kernel_inv k1 toks1 ns -> kernel_inv (woken hp2 n2 k1) (n2 ++ toks1) ns) ->
  woken_from k0 toks ns (woken hp2 n2 k1).
Proof.
  intros (hp & new & -> & Hi) Hk. exists hp2, (new ++ n2). rewrite woken_woken. split; [done |].
  specialize (Hk _ Hi). rewrite woken_woken in Hk. eapply kernel_inv_perm; [| exact Hk].
  by rewrite (Permutation_app_comm new n2), <- app_assoc.
Qed.

Lemma woken_from_tokens k0 ns k :
  woken_from k0 (tokens k0) ns k -> kernel_inv k (tokens k) ns.
Proof.
  intros (hp & new & -> & Hi). eapply kernel_inv_perm; [| exact Hi].
  unfold tokens, inbox_tokens, woken. destruct k0 as [? []]. cbn. rewrite app_assoc.
  apply Permutation_app_tail. apply Permutation_app_comm.
Qed.

Lemma drain_wakes_ok k : kernel_ok k -> exists k', drain_wakes k = Done k' /\ kernel_ok k'.
Proof.
  intros Hi. unfold drain_wakes.
  destruct (drain_inv handle_wake (fun _ k' => woken_from k (tokens k) (items (sleep_inbox k)) k')
              (wake_queue k) k) as (b' & k1 & -> & _ & Hk1).
  - intros ev _ k1 Hk1. pose proof Hk1 as (hp & new & -> & Hi1).
    destruct (handle_wake_ok ev _ _ _ Hi1) as (hp2 & n2 & -> & Hi2). eexists. split; [done |].
    exists hp2, (new ++ n2). rewrite woken_woken in *. split; [done |].
    eapply kernel_inv_perm; [| exact Hi2]. by rewrite (Permutation_app_comm new n2), <- app_assoc.
  - exists (heap k), []. by rewrite <- woken_id.
  - simpl. eexists. split; [done |]. pose proof Hk1 as (hp & new & -> & _).
    apply woken_from_tokens in Hk1. done.
Qed.

(** ** The sleep drain *)

Lemma refs_ok_notice hp ths sl n ns : refs_ok hp ths sl (n :: ns) -> refs_ok hp ths sl ns.
Proof. intros [H1 H2 H3 H4]. by inversion_clear H3. Qed.

Lemma refs_ok_sleeping hp ths sl sl' ns :
  (forall e, e ∈ sl' -> is_Some (hp !! e_thread e)) -> refs_ok hp ths sl ns -> refs_ok hp ths sl' ns.
Proof. intros Hsl [H1 H2 H3 H4]. split; try done. by apply Forall_forall. Qed.

Lemma wake_sleeper_ok p k t toks ns :
  kernel_inv k toks ns -> heap k !! p = Some t -> wakes_only k (wake_sleeper p k).
Proof.
  intros Hi Hp. pose proof (kernel_inv_wf _ _ _ _ _ Hi Hp) as Hw.
  unfold wake_sleeper. rewrite Hp. destruct (claim_parked t) eqn:Ec; [| apply wakes_only_done].
  destruct (promote_wake_ok _ Hw Ec) as (t' & -> & Hs & Hr). simpl. by eapply wakes_only_wake.
Qed.

Lemma sleeping_live k toks ns e :
  kernel_inv k toks ns -> e ∈ sleeping (mgr k) -> exists t, heap k !! e_thread e = Some t.
Proof. intros [_ [_ Hs _ _]] He. rewrite Forall_forall in Hs. by destruct (Hs e He) as [t Ht]; eauto. Qed.

Lemma drain_woken_ok now h : forall k toks ns,
  kernel_inv k toks ns -> (forall e, e ∈ h -> e ∈ sleeping (mgr k)) ->
  exists h' hp new, drain_woken heap now wake_sleeper h k = Done (h', woken hp new k) /\
    kernel_inv (woken hp new k) (new ++ toks) ns /\ (forall e, e ∈ h' -> e ∈ h).
Proof.
  induction h as [| top h IH]; intros k toks ns Hi Hsub; simpl.
  { exists [], (heap k), []. by rewrite <- woken_id. }
  destruct (sleeping_live _ _ _ top Hi) as [t Ht]; [apply Hsub; set_solver |]. rewrite Ht.
  assert (Hstop : exists h' hp new, Done (top :: h, k) = Done (h', woken hp new k) /\
    kernel_inv (woken hp new k) (new ++ toks) ns /\ (forall e, e ∈ h' -> e ∈ top :: h)).
  { exists (top :: h), (heap k), []. by rewrite <- woken_id. }
  destruct (classify _ _ _); [| done |].
  - destruct (IH k toks ns Hi) as (h' & hp & new & -> & Hi' & Hs); [set_solver |].
    exists h', hp, new. split; [done |]. split; [done | set_solver].
  - destruct (now <? e_wake_time top); [done |].
    destruct (wake_sleeper_ok _ k t toks ns Hi Ht) as (hp1 & n1 & -> & Hk). simpl.
    specialize (Hk _ _ Hi).
    destruct (IH (woken hp1 n1 k) _ _ Hk) as (h' & hp & new & -> & Hi' & Hs); [set_solver |].
    exists h', hp, (n1 ++ new). rewrite woken_woken in *. split; [done |]. split; [| set_solver].
    eapply kernel_inv_perm; [| exact Hi']. by rewrite (Permutation_app_comm n1 new), <- app_assoc.
Qed.

(** A state reached from [k0] by queueing tokens and filing sleepers. *)
Definition grown k0 (ns : list SleepNotice) k : Prop :=
  ready_inboxes k = ready_inboxes k0 /\
  exists new, ready (mgr k) = ready (mgr k0) ++ new /\ kernel_inv k (new ++ tokens k0) ns.

Lemma grown_ok k0 ns k : grown k0 ns k -> kernel_inv k (tokens k) ns.
Proof.
  intros (Hb & new & Hr & Hi). eapply kernel_inv_perm; [| exact Hi].
  unfold tokens, inbox_tokens. rewrite Hr, Hb, app_assoc.
  apply Permutation_app_tail, Permutation_app_comm.
Qed.

Lemma grown_woken k0 ns k hp n :
  grown k0 ns k -> (forall toks, kernel_inv k toks ns -> kernel_inv (woken hp n k) (n ++ toks) ns) ->
  grown k0 ns (woken hp n k).
Proof.
  intros (Hb & new & Hr & Hi) Hk. split; [by destruct k |]. exists (new ++ n).
  split; [destruct k as [? []]; cbn in *; by rewrite Hr, app_assoc |].
  eapply kernel_inv_perm; [| by apply Hk, Hi].
  by rewrite (Permutation_app_comm new n), <- app_assoc.
Qed.

Lemma fold_notice_ok k0 n ns k :
  grown k0 (n :: ns) k -> exists k', fold_notice n k = Done k' /\ grown k0 ns k'.
Proof.
  intros Hg. pose proof Hg as (Hb & new & Hr & Hi).
  assert (Htail : grown k0 ns k).
  { split; [done |]. exists new. split; [done |]. destruct Hi as [Hc Hrf].
    split; [done | by eapply refs_ok_notice]. }
  unfold fold_notice. destruct (n_thread n =? null) eqn:En; [eauto |]. to_prop.
  assert (Hlive : is_Some (heap k !! n_thread n)).
  { destruct Hi as [_ [_ _ Hn _]]. inversion_clear Hn. naive_solver. }
  destruct Hlive as [t Ht]. rewrite Ht. pose proof (kernel_inv_wf _ _ _ _ _ Hi Ht) as Hw.
  destruct (has_pending_wake t).
  - destruct (claim_parked t) eqn:Ec; [| eauto].
    destruct (promote_wake_ok _ Hw Ec) as (t' & -> & Hs & Hst). simpl.
    eexists. split; [done |]. rewrite put_push_woken. apply grown_woken; [done |].
    intros toks Hi'. simpl. by eapply kernel_inv_wake.
  - eexists. split; [done |]. destruct Htail as (_ & new' & Hr' & [Hc Hrf]).
    split; [done |]. exists new'. split; [done |]. split; [done |].
    eapply refs_ok_sleeping; [| exact Hrf]. intros e He. unfold sh_push in He. cbn in He.
    apply elem_of_insert_entry in He as [-> | He]; [by exists t |].
    destruct Hrf as [_ Hsl _ _]. rewrite Forall_forall in Hsl. auto.
Qed.

Lemma drain_sleeps_ok now k : kernel_ok k -> exists k', drain_sleeps now k = Done k' /\ kernel_ok k'.
Proof.
  intros Hi. unfold drain_sleeps.
  destruct (drain_inv fold_notice (fun ns k' => grown k ns k') (sleep_inbox k) k)
    as (b' & k1 & -> & Hb & Hg); [intros; by apply fold_notice_ok | |].
  { split; [done |]. exists []. by rewrite app_nil_r. }
  cbn [fst snd pbind]. apply grown_ok in Hg as Hi1.
  assert (Hi2 : kernel_inv (set_sleep_inbox b' k1) (tokens k1) []) by done.
  destruct (drain_woken_ok now (sleeping (mgr k1)) _ _ _ Hi2) as (h' & hp & new & Hd & Hi3 & Hs); [done |].
  change (sleeping (mgr (set_sleep_inbox b' k1))) with (sleeping (mgr k1)). rewrite Hd.
  cbn [fst snd pbind]. eexists. split; [done |].
  assert (Hw : woken_from (set_sleep_inbox b' k1) (tokens (set_sleep_inbox b' k1)) []
                 (woken hp new (set_sleep_inbox b' k1))) by (by exists hp, new).
  apply woken_from_tokens in Hw as [Hc Hr].
  unfold kernel_ok, kernel_inv, tokens, inbox_tokens, woken in *.
  destruct k1 as [? []]. cbn in *. rewrite Hb. split; [done |].
  eapply refs_ok_sleeping; [| exact Hr]. intros e He%Hs.
  destruct Hr as [_ Hsl _ _]. rewrite Forall_forall in Hsl. auto.
Qed.

(** ** The ready inboxes *)

Definition others {A} (i : nat) (l : list A) : list A := take i l ++ drop (S i) l.

Lemma inbox_insert_perm (bs : list (B ptr)) i b b' :
  bs !! i = Some b ->
  concat (map items (<[i := b']> bs)) ≡ₚ items b' ++ concat (map items (others i bs)).
Proof.
  intros Hb. assert (i < length bs)%nat by (by eapply lookup_lt_Some).
  rewrite insert_take_drop by done. unfold others.
  rewrite !map_app, !concat_app. simpl. solve_Permutation.
Qed.

Lemma inbox_perm (bs : list (B ptr)) i b :
  bs !! i = Some b -> concat (map items bs) ≡ₚ items b ++ concat (map items (others i bs)).
Proof. intros Hb. rewrite <- (list_insert_id bs i b Hb) at 1. by apply inbox_insert_perm with b. Qed.

Lemma kernel_inv_drop k p toks ns : kernel_inv k (p :: toks) ns -> kernel_inv k toks ns.
Proof. intros [Hc Hr]. split; [by eapply claims_ok_drop | done]. Qed.

Lemma push_notice_ok hart p k ns :
  kernel_inv k (p :: tokens k) ns ->
  let k' := snd (push_ready_notice hart p k) in
  kernel_inv k' (tokens k') ns /\ sleep_inbox k' = sleep_inbox k.
Proof.
  intros Hi. unfold push_ready_notice.
  destruct (ready_inboxes k !! hart) as [b |] eqn:Eb; [| split; [by eapply kernel_inv_drop | done]].
  destruct (tb_push p b) as [b' | e] eqn:Ep; [| split; [by eapply kernel_inv_drop | done]].
  split; [| done]. cbn [snd]. eapply kernel_inv_perm; [| exact Hi].
  unfold tokens, inbox_tokens. cbn. rewrite (inbox_insert_perm _ _ _ b' Eb), (inbox_perm _ _ _ Eb).
  apply tb_push_ok in Ep. rewrite Ep. solve_Permutation.
Qed.

Lemma drain_inbox_ok i k :
  kernel_ok k -> exists k', drain_inbox i k = Done k' /\ kernel_ok k' /\
    length (ready_inboxes k') = length (ready_inboxes k).
Proof.
  intros Hi. unfold drain_inbox. destruct (ready_inboxes k !! i) as [b |] eqn:Eb; [| eauto].
  set (rest := concat (map items (others i (ready_inboxes k)))).
  destruct (drain_inv fold_ready (fun l k' => ready_inboxes k' = ready_inboxes k /\
      sleep_inbox k' = sleep_inbox k /\
      kernel_inv k' (ready (mgr k') ++ l ++ rest) (items (sleep_inbox k))) b k)
    as (b' & k1 & -> & Hb' & Hk1 & Hs1 & Hi1).
  - intros p l k1 (Hk1 & Hs1 & Hi1). unfold fold_ready. destruct (p =? null).
    + exists k1. split; [done |]. split_and!; try done. eapply kernel_inv_drop.
      eapply kernel_inv_perm; [| exact Hi1]. solve_Permutation.
    + eexists. split; [done |]. split_and!; try done.
      eapply kernel_inv_perm; [| exact Hi1]. destruct k1 as [? []]. cbn. unfold rq_push.
      solve_Permutation.
  - split_and!; try done. eapply kernel_inv_perm; [| exact Hi].
    unfold tokens, inbox_tokens. by rewrite (inbox_perm _ _ _ Eb).
  - cbn [fst snd pbind]. eexists. split; [done |]. split.
    + unfold kernel_ok. cbn [sleep_inbox set_ready_inboxes]. rewrite Hs1.
      eapply kernel_inv_perm; [| exact Hi1]. unfold tokens, inbox_tokens. cbn.
      rewrite Hk1, (inbox_insert_perm _ _ _ b' Eb), Hb'. done.
    + cbn. by rewrite length_insert, Hk1.
Qed.

Lemma drain_ready_inboxes_ok k :
  kernel_ok k -> exists k', drain_ready_inboxes k = Done k' /\ kernel_ok k'.
Proof.
  intros Hi. unfold drain_ready_inboxes. apply pfold_inv; [done |].
  intros i k1 _ Hi1. destruct (drain_inbox_ok i k1 Hi1) as (k' & ? & ? & _). eauto.
Qed.

(** ** Results for a parked thread *)

Lemma kernel_ok_queue k b peak drops :
  kernel_ok k -> kernel_ok (set_wake_queue_peak peak (set_wake_queue b k)) /\
    kernel_ok (set_wake_queue_drops drops k).
Proof. done. Qed.

Lemma wake_queue_push_ok ev k : kernel_ok k -> kernel_ok (snd (wake_queue_push ev k)).
Proof. intros Hi. unfold wake_queue_push. by destruct (tb_push ev (wake_queue k)). Qed.

Lemma bm_get_elem {V} tid (l : list (Z * V)) p : bm_get tid l = Some p -> (tid, p) ∈ l.
Proof.
  unfold bm_get. destruct (head _) as [[a b] |] eqn:E; simpl; [| done]. intros [= ->].
  assert ((a, p) ∈ filter (fun e => e.1 = tid) l) as Hin.
  { destruct (filter _ l); simplify_eq/=. set_solver. }
  apply list_elem_of_filter in Hin as [<- Hin]. done.
Qed.

Lemma lookup_tid_live k toks ns tid p :
  kernel_inv k toks ns -> bm_get tid (threads (mgr k)) = Some p ->
  exists t, heap k !! p = Some t /\ t_tid t = tid /\ wf_thread t.
Proof.
  intros Hi Hb. apply bm_get_elem in Hb. pose proof Hi as [_ [Hr _ _ _]].
  rewrite Forall_forall in Hr. destruct (Hr _ Hb) as (t & Ht & Htid). exists t.
  split_and!; [done | done |]. by eapply kernel_inv_wf.
Qed.

(** Storing a thread in the same state keeps the kernel invariant. *)
Lemma kernel_ok_put k p t t' :
  kernel_ok k -> heap k !! p = Some t -> same_thread t t' ->
  t_state t' = t_state t \/ in_state t' Exited -> kernel_ok (put p t' k).
Proof.
  intros Hi Hp Hs Hst. rewrite put_woken.
  pose proof (kernel_inv_same k _ _ p t t' Hi Hp Hs Hst) as Hi'.
  unfold kernel_ok, tokens in *. destruct k as [? []]. cbn in *. by rewrite app_nil_r.
Qed.

Lemma publish_pending_ok tid vals k :
  kernel_ok k -> exists k', publish_pending_for_tid tid vals k = Done k' /\ kernel_ok k'.
Proof.
  intros Hi. unfold publish_pending_for_tid. destruct (bm_get tid _) as [p |] eqn:Eb; [| eauto].
  destruct (lookup_tid_live _ _ _ _ _ Hi Eb) as (t & Ht & _ & Hw). rewrite Ht.
  eexists. split; [done |]. apply wake_queue_push_ok.
  eapply kernel_ok_put; [done | done | by apply publish_same | by left].
Qed.

(** A parked thread made [Ready] and pushed to an inbox. *)
Lemma wake_to_inbox_ok k p t t' hart :
  kernel_ok k -> heap k !! p = Some t -> claim_parked t = true -> same_thread t t' ->
  in_state t' Ready -> kernel_ok (snd (push_ready_notice hart p (put p t' k))).
Proof.
  intros Hi Hp Hpk Hs Hst. pose proof (kernel_inv_wake k _ _ p t t' Hi Hp Hpk Hs Hst) as Hi'.
  destruct (push_notice_ok hart p (put p t' k) (items (sleep_inbox k))) as [H1 H2].
  - unfold kernel_inv, tokens, inbox_tokens in *. destruct k as [? []]. cbn in *. done.
  - unfold kernel_ok. rewrite H2. done.
Qed.

Lemma resume_values_ok hart tid vals k :
  kernel_ok k -> exists k', resume_thread_with_values hart tid vals k = Done k' /\ kernel_ok k'.
Proof.
  intros Hi. unfold resume_thread_with_values. destruct (bm_get tid _) as [p |] eqn:Eb; [| eauto].
  destruct (lookup_tid_live _ _ _ _ _ Hi Eb) as (t & Ht & _ & Hw). rewrite Ht.
  destruct (claim_parked t) eqn:Ec; [| by apply publish_pending_ok].
  destruct (write_rets_ok vals t Hw Ec) as (t' & -> & Hs & Hst). simpl.
  eexists. split; [done |]. by eapply wake_to_inbox_ok.
Qed.

(** ** Parking *)

Lemma occupied_insert cs h p q :
  cs !! h = Some p -> occupied (<[h := q]> cs) ≡ₚ occupied [q] ++ occupied (others h cs).
Proof.
  intros Hh. assert (h < length cs)%nat by (by eapply lookup_lt_Some).
  rewrite insert_take_drop by done. unfold occupied, others.
  rewrite (cons_middle q), !filter_app. solve_Permutation.
Qed.

Lemma occupied_one p : p <> null -> occupied [p] = [p].
Proof. intros Hp. unfold occupied. by rewrite filter_cons_True. Qed.

Lemma occupied_leave cs h p :
  cs !! h = Some p -> p <> null -> occupied cs ≡ₚ p :: occupied (<[h := null]> cs).
Proof.
  intros Hh Hp. rewrite (occupied_insert cs h p null Hh).
  rewrite <- (list_insert_id cs h p Hh) at 1. rewrite (occupied_insert cs h p p Hh).
  by rewrite (occupied_one p Hp).
Qed.

(** The first half of [exit_thread_with_state]: the slot is cleared, the
    state stored and the sleep notice queued. *)
Lemma park_ok hart k p t t' notice :
  kernel_ok k -> currents k !! hart = Some p -> p <> null -> heap k !! p = Some t ->
  same_thread t t' -> (forall n, notice = Some n -> n_thread n = p) ->
  let k1 := exit_tail_sleep notice (put p t' (set_currents (<[hart := null]> (currents k)) k)) in
  kernel_ok k1 /\ heap k1 = <[p := t']> (heap k) /\
  (in_state t' Ready -> kernel_inv k1 (p :: tokens k1) (items (sleep_inbox k1))).
Proof.
  intros [Hc Hr] Hh Hn Hp Hs Hno. rewrite (occupied_leave _ _ _ Hh Hn) in Hc.
  set (k0 := put p t' (set_currents (<[hart := null]> (currents k)) k)).
  assert (Hr' : refs_ok (heap k0) (threads (mgr k0)) (sleeping (mgr k0)) (items (sleep_inbox k0))).
  { by eapply refs_ok_put. }
  assert (Hc' : claims_ok (heap k0) (tokens k0) (occupied (currents k0))).
  { apply claims_ok_park; [done | done | apply Hs]. }
  assert (Hy : in_state t' Ready -> claims_ok (heap k0) (p :: tokens k0) (occupied (currents k0))).
  { intros Hst. eapply claims_ok_yield; [exact Hc | exact Hp | apply Hs | done]. }
  assert (Hbase : kernel_ok k0 /\ heap k0 = <[p := t']> (heap k) /\
    (in_state t' Ready -> kernel_inv k0 (p :: tokens k0) (items (sleep_inbox k0)))).
  { split; [by split |]. split; [done |]. intros Hst. split; [by apply Hy | done]. }
  destruct notice as [n |]; [| exact Hbase]. unfold exit_tail_sleep. fold k0.
  change (sleep_inbox k0) with (sleep_inbox k).
  destruct (tb_push n (sleep_inbox k)) as [b |] eqn:Eb; [| exact Hbase].
  apply tb_push_ok in Eb.
  assert (Hrn : refs_ok (heap k0) (threads (mgr k0)) (sleeping (mgr k0)) (items b)).
  { destruct Hr' as [R1 R2 R3 R4]. split; try done. rewrite Eb. apply Forall_app. split; [done |].
    constructor; [| done]. right. rewrite (Hno n eq_refl). exists t'. apply lookup_insert_eq. }
  split; [by split |]. split; [done |]. intros Hst. split; [by apply Hy | done].
Qed.

Lemma current_live k hart p :
  kernel_ok k -> currents k !! hart = Some p -> p <> null ->
  exists t, heap k !! p = Some t /\ (in_state t Assigned \/ in_state t Running \/ in_state t Exited).
Proof.
  intros [[_ _ _ _ Hc] _] Hh Hn. rewrite Forall_forall in Hc. apply Hc. unfold occupied.
  apply list_elem_of_filter. split; [done |]. by eapply list_elem_of_lookup_2.
Qed.

Lemma try_wake_ok hart p t k :
  kernel_ok k -> p <> null -> heap k !! p = Some t -> claim_parked t = true ->
  exists b k', try_wake_pending_inline hart p k = Done (b, k') /\ kernel_ok k'.
Proof.
  intros Hi Hn Hp Hpk. unfold try_wake_pending_inline. rewrite (proj2 (Z.eqb_neq p null) Hn), Hp.
  pose proof (kernel_inv_wf _ _ _ _ _ Hi Hp) as Hw.
  destruct (try_claim_ok t Hw Hpk) as (t' & tok & -> & Hs & Htok). simpl. destruct tok.
  - eexists _, _. split; [done |]. by eapply wake_to_inbox_ok.
  - eexists _, _. split; [done |]. subst t'. eapply kernel_ok_put; [done | done | done | by left].
Qed.

Lemma exit_thread_ok hart s k :
  kernel_ok k -> (hart < length (currents k))%nat ->
  (forall p t, currents k !! hart = Some p -> heap k !! p = Some t -> in_state t Running) ->
  s ∈ [Ready; Blocking; Suspended; Exited] ->
  exists k', exit_thread_with_state hart s k = Done k' /\ kernel_ok k'.
Proof.
  intros Hi Hlt Hrun Hs. destruct (lookup_lt_is_Some_2 _ _ Hlt) as [p Hh].
  unfold exit_thread_with_state. rewrite Hh.
  destruct (p =? null) eqn:En; [eauto |]. to_prop.
  destruct (current_live _ _ _ Hi Hh En) as (t & Hp & _). rewrite Hp.
  specialize (Hrun p t Hh Hp). pose proof (kernel_inv_wf _ _ _ _ _ Hi Hp) as [_ Hl].
  set (r := if decide (s = Suspended) then _ else _).
  assert (Hr : t_state (fst r) = as_usize Running /\ same_thread t (store_state (as_usize s) (fst r)) /\
    forall n, snd r = Some n -> n_thread n = p).
  { subst r. destruct (decide (s = Suspended)); simpl; (split; [exact Hrun |]); split;
      try (by intros n [= <-]); try done.
    all: split; [split; [by exists s | exact Hl] | done]. }
  destruct r as [t1 notice]. simpl in Hr. destruct Hr as (Hst & Hsame & Hno).
  assert (Ht : transition_to s t1 = Done (store_state (as_usize s) t1)).
  { unfold transition_to. rewrite Hst. set_unfold in Hs. by destruct_or! Hs; subst s. }
  rewrite Ht. cbn [pbind].
  destruct (park_ok hart k p t _ notice Hi Hh En Hp Hsame Hno) as (Hk1 & Hh1 & Hy).
  set (k1 := exit_tail_sleep _ _) in *.
  assert (Hp1 : heap k1 !! p = Some (store_state (as_usize s) t1)) by (rewrite Hh1; apply lookup_insert_eq).
  destruct s; try (by eexists).
  - unfold exit_tail_ready. rewrite Hp1.
    assert (Hir : into_runnable (store_state (as_usize Ready) t1) = Done (store_state (as_usize Ready) t1))
      by reflexivity.
    rewrite Hir. cbn [pbind]. eexists. split; [done |].
    destruct (push_notice_ok hart p (put p (store_state (as_usize Ready) t1) k1) (items (sleep_inbox k1)))
      as [H1 H2]; [| unfold kernel_ok; by rewrite H2].
    assert (Hid : put p (store_state (as_usize Ready) t1) k1 = k1).
    { unfold put. rewrite insert_id by done. by destruct k1. }
    rewrite Hid. by apply Hy.
  - unfold exit_tail_block. rewrite Hp1.
    assert (Hnone : t_handle (store_state (as_usize Blocking) t1) = None).
    { destruct Hk1 as [_ [_ _ _ Hn]]. by eapply Hn. }
    rewrite Hnone. cbn [pbind].
    destruct (try_wake_ok hart p _ k1 Hk1 En Hp1 eq_refl) as (b & k' & -> & Hk'). by exists k'.
Qed.

Lemma check_context_ok hart k :
  kernel_ok k -> (hart < length (currents k))%nat ->
  exists k', check_context_and_switch hart k = Done k' /\ kernel_ok k'.
Proof.
  intros Hi Hlt. destruct (lookup_lt_is_Some_2 _ _ Hlt) as [p Hh].
  unfold check_context_and_switch. rewrite Hh. destruct (p =? null) eqn:En; [eauto |]. to_prop.
  destruct (current_live _ _ _ Hi Hh En) as (t & Hp & Hs). rewrite Hp. unfold in_state in Hs.
  destruct Hs as [Hs | [Hs | Hs]]; rewrite Hs; cbn [as_usize Z.eqb Pos.eqb orb].
  - eauto.
  - apply exit_thread_ok; [done | done | | set_solver]. intros p' t' Hp' Ht'. simplify_eq. done.
  - unfold exit_thread_with_state. rewrite Hh, (proj2 (Z.eqb_neq p null) En), Hp.
    rewrite decide_False by done. unfold transition_to. rewrite Hs. cbn [as_usize Z.eqb Pos.eqb pbind].
    eexists. split; [done |].
    eapply (park_ok hart k p t t None); [done | done | done | done | | done].
    split; [by eapply kernel_inv_wf | done].
Qed.

Lemma dispatch_ok top hart k p t :
  kernel_ok k -> currents k !! hart = Some p -> p <> null -> heap k !! p = Some t ->
  (t_mode t = Supervisor -> top <= t_pc t) -> (t_mode t = User -> is_Some (t_slot t)) ->
  in_state t Assigned \/ in_state t Exited ->
  exists k', dispatch top hart k = Done k' /\ kernel_ok k'.
Proof.
  intros Hi Hh Hn Hp Hpc Hsl Hs. pose proof (kernel_inv_wf _ _ _ _ _ Hi Hp) as [Hst Hl].
  unfold dispatch. rewrite Hh, (proj2 (Z.eqb_neq p null) Hn), Hp.
  replace (_ && _)%bool with false.
  2: { symmetry. apply andb_false_iff. destruct (t_mode t); [right | by left]. apply Z.ltb_ge. auto. }
  unfold mark_running, transition_to. unfold in_state in Hs.
  destruct Hs as [Hs | Hs]; rewrite Hs; cbn [as_usize Z.eqb Pos.eqb negb transition_allowed pbind].
  - cbn [t_state store_state Z.eqb Pos.eqb as_usize].
    set (t2 := store_context_switches _ _).
    assert (Hok : kernel_ok (put p t2 k)).
    { rewrite put_woken. pose proof Hi as [Hc Hr].
      assert (Hs2 : same_thread t t2) by (split; [split; [by exists Running | exact Hl] | done]).
      assert (Hi' : kernel_inv (woken (<[p := t2]> (heap k)) [] k) (tokens k) (items (sleep_inbox k))).
      { split; [| by eapply refs_ok_put]. apply claims_ok_put; [done | done | apply Hs2 | | by right; left].
        intros Htok. destruct Hc as [_ _ _ H4 _]. rewrite Forall_forall in H4.
        destruct (H4 p Htok) as (t0 & Ht0 & Hst0). rewrite Hp in Ht0. injection Ht0 as <-.
        unfold in_state in Hst0. rewrite Hs in Hst0. by destruct Hst0. }
      unfold kernel_ok, tokens in *. destruct k as [? []]. cbn in *. by rewrite app_nil_r. }
    change (t_mode t2) with (t_mode t). change (t_slot t2) with (t_slot t).
    destruct (t_mode t); [by eexists |]. destruct (Hsl eq_refl) as [sl ->]. by eexists.
  - rewrite Hs. cbn [as_usize Z.eqb Pos.eqb]. eexists. split; [done |].
    apply (park_ok hart k p t t None); try done.
Qed.
End Inv.

(** ** Assignment *)

Definition hid (v : HartView) : nat := Z.to_nat (hart_id v).

Lemma views_lookup cs v : v ∈ views cs -> cs !! hid v = Some (current v) /\ hart_id v = Z.of_nat (hid v).
Proof.
  intros (i & Hi)%list_elem_of_lookup_1. unfold views in Hi. rewrite list_lookup_imap in Hi.
  destruct (cs !! i) as [c |] eqn:E; simplify_eq/=. unfold hid. simpl. rewrite Nat2Z.id. done.
Qed.

Lemma views_hids cs : map hid (views cs) = seq 0 (length cs).
Proof.
  apply list_eq. intros i. rewrite list_lookup_fmap. unfold views. rewrite list_lookup_imap.
  destruct (cs !! i) as [c |] eqn:E; simpl.
  - rewrite lookup_seq_lt by (by eapply lookup_lt_Some). unfold hid. simpl. by rewrite Nat2Z.id.
  - rewrite lookup_seq_ge; [done |]. by apply lookup_ge_None.
Qed.

(** The views a pass goes through: every hart once, the caller's last. *)
Lemma pass_views cs self v0 :
  views cs !! self = Some v0 ->
  let vs := filter (fun v => hart_id v <> Z.of_nat self) (views cs) ++ [v0] in
  NoDup (map hid vs) /\ Forall (fun v => cs !! hid v = Some (current v)) vs.
Proof.
  intros Hv. assert (Hin : v0 ∈ views cs) by (by eapply list_elem_of_lookup_2).
  assert (Hid : hid v0 = self).
  { unfold views in Hv. rewrite list_lookup_imap in Hv. destruct (cs !! self); simplify_eq/=.
    unfold hid. simpl. by rewrite Nat2Z.id. }
  simpl. split.
  - rewrite map_app. apply NoDup_app. split.
    + eapply sublist_NoDup; [| apply fmap_sublist, sublist_filter].
      change (list_fmap _ _ hid (views cs)) with (map hid (views cs)).
      rewrite views_hids. apply NoDup_seq.
    + split; [| apply NoDup_singleton]. intros n Hn Hs. simpl in Hs.
      apply list_elem_of_singleton in Hs as ->. apply list_elem_of_fmap in Hn as (v & Hv' & Hf).
      apply list_elem_of_filter in Hf as [Hne Hf]. apply views_lookup in Hf as [_ Hf].
      rewrite <- Hv', Hid in Hf. done.
  - apply Forall_app. split.
    + apply Forall_forall. intros v [_ Hf]%list_elem_of_filter. by apply views_lookup.
    + constructor; [by apply views_lookup | done].
Qed.

Lemma write_back_occupied hp vs vs' : hp !! null = None ->
  Forall2 (view_step hp) vs vs' -> forall cs,
  NoDup (map hid vs) -> Forall (fun v => cs !! hid v = Some (current v)) vs ->
  occupied (write_back vs' cs) ≡ₚ newly vs vs' ++ occupied cs.
Proof.
  intros Hnull. induction 1 as [| v v' vs vs' Hv Hvs IH]; intros cs Hnd Hcs; [done |].
  simpl in Hnd. apply NoDup_cons in Hnd as [Hni Hnd].
  apply Forall_cons in Hcs as [Hc Hcs].
  assert (Hid : hart_id v' = hart_id v).
  { destruct Hv as [-> | (p & _ & -> & _)]; done. }
  unfold write_back. simpl. fold (write_back vs' (<[Z.to_nat (hart_id v') := current v']> cs)).
  rewrite Hid. fold (hid v). rewrite IH; [| done |].
  2: { rewrite Forall_forall in *. intros w Hw. rewrite list_lookup_insert_ne; [auto |].
       intros Heq. apply Hni. rewrite Heq. by apply list_elem_of_fmap_2. }
  destruct Hv as [-> | (p & Hb & -> & (t & Ht & _) & _)].
  - rewrite list_insert_id by done. unfold newly. simpl. by rewrite decide_True.
  - assert (Hn : p <> null) by (intros ->; congruence).
    assert (Hc0 : current v = null) by (unfold is_busy in Hb; by to_prop).
    simpl. rewrite (occupied_insert cs (hid v) (current v) p Hc), (occupied_one p Hn).
    rewrite <- (list_insert_id cs (hid v) (current v) Hc) at 2.
    rewrite (occupied_insert cs (hid v) (current v) (current v) Hc). rewrite Hc0.
    unfold newly. simpl. rewrite Hc0. rewrite decide_False by done. simpl. solve_Permutation.
Qed.

(** A pass that keeps every thread's identity keeps every reference. *)
Lemma refs_ok_pass (hp hp' : Heap) ths sl ns (taken : list ptr) :
  (forall p, hp' !! p = if decide (p ∈ taken) then popped <$> (hp !! p) else hp !! p) ->
  refs_ok hp ths sl ns -> refs_ok hp' ths sl ns.
Proof.
  intros Hm [H1 H2 H3 H4].
  assert (Hlive : forall p, is_Some (hp !! p) -> is_Some (hp' !! p)).
  { intros p [t Ht]. rewrite Hm, Ht. destruct (decide _); eexists; done. }
  split.
  - eapply Forall_impl; [exact H1 |]. intros e (t & Ht & Htid). rewrite Hm, Ht.
    destruct (decide _); [| by exists t]. exists (popped t). split; [done |].
    rewrite <- Htid. unfold popped. by case_match.
  - eapply Forall_impl; [exact H2 |]. auto.
  - eapply Forall_impl; [exact H3 |]. naive_solver.
  - intros p t. rewrite Hm. destruct (decide _); [| by apply H4].
    destruct (hp !! p) as [t0 |] eqn:E; simpl; [| done]. intros [= <-].
    unfold popped. case_match; by apply (H4 p t0).
Qed.

Lemma popped_wf t : wf_thread t -> wf_thread (popped t).
Proof.
  intros [[s Hs] Hl]. unfold popped. case_match; (split; [| exact Hl]).
  - by exists Assigned.
  - by exists s.
Qed.

Lemma claims_ok_pass (hp hp' : Heap) (q q' inb curs taken new : list ptr) :
  claims_ok hp (q ++ inb) curs -> q ≡ₚ taken ++ q' -> new = filter (is_ready hp) taken ->
  (forall p, hp' !! p = if decide (p ∈ taken) then popped <$> (hp !! p) else hp !! p) ->
  claims_ok hp' (q' ++ inb) (new ++ curs).
Proof.
  intros Hc Hq -> Hm. rewrite Hq in Hc. destruct Hc as [H1 H2 H3 H4 H5].
  rewrite <- !app_assoc in H3. apply NoDup_app in H3 as (Hnt & Hdis & Hnr).
  rewrite <- app_assoc in H4. apply Forall_app in H4 as [H4t H4].
  assert (Hkeep : forall p, p ∈ (q' ++ inb) ++ curs -> hp' !! p = hp !! p).
  { intros p Hp. rewrite Hm, decide_False; [done |]. intros Hin. apply (Hdis p Hin). set_solver. }
  split.
  - rewrite Hm, H1. by destruct (decide _).
  - intros p t. rewrite Hm. destruct (decide _); [| apply H2].
    destruct (hp !! p) eqn:E; simpl; [| done]. intros [= <-]. by eapply popped_wf, H2.
  - rewrite (Permutation_app_comm _ curs), app_assoc. apply NoDup_app.
    split; [by rewrite <- app_assoc |]. split; [| by apply NoDup_filter].
    intros p Hp [_ Ht]%list_elem_of_filter. apply (Hdis p Ht). set_solver.
  - rewrite Forall_forall in *. intros p Hp. unfold dispatchable. rewrite Hkeep by set_solver. by apply H4.
  - apply Forall_app. split.
    + apply Forall_forall. intros p [(t & Ht & Hs) Hin]%list_elem_of_filter.
      exists (popped t). rewrite Hm, decide_True, Ht by done. split; [done |]. left.
      unfold popped, in_state. by rewrite Hs.
    + rewrite Forall_forall in *. intros p Hp. unfold on_hart. rewrite Hkeep by set_solver. by apply H5.
Qed.

Section Inv2.
Context {B : Type -> Type} `{ThingBufLaws B}.
Implicit Types k : Kernel B.

Lemma manager_assign_ok self k :
  kernel_ok k -> (self < length (currents k))%nat ->
  exists k' ipis, manager_assign self k = Done (k', ipis) /\ kernel_ok k'.
Proof.
  intros [Hc Hr] Hlt. unfold manager_assign.
  assert (Hl : (self < length (views (currents k)))%nat) by (unfold views; by rewrite length_imap).
  destruct (lookup_lt_is_Some_2 _ _ Hl) as [v0 Hv0]. rewrite Hv0.
  destruct (pass_views (currents k) self v0 Hv0) as [Hnd Hcs].
  set (remotes := filter _ _) in *.
  assert (Hq : queue_ok (heap k) (ready (mgr k))).
  { destruct Hc as [C1 C2 C3 C4 C5]. split_and!; [| | done].
    - apply NoDup_app in C3 as [C3 _]. by apply NoDup_app in C3 as [C3 _].
    - by apply Forall_app in C4 as [C4 _]. }
  destruct (assign_threads_ok v0 remotes (ready (mgr k)) (heap k) Hq)
    as (self' & vs & q' & hp' & ipis & taken & Ha & (P1 & P2 & P3 & P4) & _).
  rewrite Ha. cbn [pbind]. eexists _, _. split; [done |]. split; [| exact (refs_ok_pass (heap k) hp' _ _ _ taken P2 Hr)].
  unfold tokens, inbox_tokens. cbn.
  rewrite (write_back_occupied (heap k) (remotes ++ [v0]) (vs ++ [self']));
    [| apply Hc | done | done | done].
  eapply claims_ok_pass; [exact Hc | exact P1 | exact P4 | exact P2].
Qed.


(** ** Creation, kill and reaping *)

Lemma elem_of_bm_insert {V} tid (v : V) l e : e ∈ bm_insert tid v l -> e = (tid, v) \/ e ∈ l.
Proof.
  induction l as [| [a b] l IH]; simpl; [set_solver |]. repeat case_match; set_solver.
Qed.

Lemma create_ok p i k :
  kernel_ok k -> p <> null -> heap k !! p = None -> kernel_ok (create p i k).
Proof.
  intros [[C1 C2 C3 C4 C5] [R1 R2 R3 R4]] Hn Hp. unfold create, kernel_ok, kernel_inv.
  assert (Hfresh : forall q, is_Some (heap k !! q) -> p <> q).
  { intros q [t Ht] ->. congruence. }
  assert (Hlive : forall q t, heap k !! q = Some t -> <[p := thread_new i]> (heap k) !! q = Some t).
  { intros q t Hq. rewrite lookup_insert_ne; [done |]. apply Hfresh. eauto. }
  assert (Hni : p ∉ tokens k ++ occupied (currents k)).
  { rewrite Forall_forall in C4, C5. intros [Hin | Hin]%elem_of_app.
    - destruct (C4 p Hin) as (t & Ht & _). congruence.
    - destruct (C5 p Hin) as (t & Ht & _). congruence. }
  split.
  - assert (Hperm : tokens (set_mgr (admit_runnable p (register (i_tid i) p (mgr k))) (put p (thread_new i) k))
                    ≡ₚ p :: tokens k).
    { unfold tokens, inbox_tokens. destruct k as [? []]. cbn. unfold rq_push. solve_Permutation. }
    rewrite Hperm. cbn. split.
    + by rewrite lookup_insert_ne.
    + intros q t. destruct (decide (p = q)) as [<- | Hne].
      * rewrite lookup_insert_eq. intros [= <-]. split; [by exists Ready | done].
      * rewrite lookup_insert_ne by done. apply C2.
    + simpl. apply NoDup_cons. done.
    + constructor; [exists (thread_new i); rewrite lookup_insert_eq; by split; [| left] |].
      eapply Forall_impl; [exact C4 |]. intros q (t & Ht & Hs). exists t. eauto.
    + eapply Forall_impl; [exact C5 |]. intros q (t & Ht & Hs). exists t. eauto.
  - cbn. split.
    + rewrite Forall_forall in *. intros e [-> | He]%elem_of_bm_insert.
      * exists (thread_new i). simpl. by rewrite lookup_insert_eq.
      * destruct (R1 e He) as (t & Ht & Htid). eauto.
    + eapply Forall_impl; [exact R2 |]. intros e [t Ht]. eexists. eauto.
    + eapply Forall_impl; [exact R3 |]. intros n [Hnn | [t Ht]]; [by left | right; eexists; eauto].
    + intros q t. destruct (decide (p = q)) as [<- | Hne].
      * rewrite lookup_insert_eq. by intros [= <-].
      * rewrite lookup_insert_ne by done. apply R4.
Qed.

Lemma kill_one_ok tid k : kernel_ok k -> exists k', kill_one tid k = Done k' /\ kernel_ok k'.
Proof.
  intros Hi. unfold kill_one. destruct (bm_get tid _) as [p |] eqn:Eb; [| eauto].
  destruct (lookup_tid_live _ _ _ _ _ Hi Eb) as (t & Ht & _ & [_ Hl]). rewrite Ht.
  eexists. split; [done |]. eapply kernel_ok_put; [done | done | | by right].
  split; [| done]. split; [by exists Exited | exact Hl].
Qed.

Lemma exit_group_ok tids leader k :
  kernel_ok k -> exists k', request_exit_group tids leader k = Done k' /\ kernel_ok k'.
Proof. intros Hi. apply pfold_inv; [done |]. intros tid k1 _. apply kill_one_ok. Qed.

(** The references the reaper does not scrub: no hart runs the thread, and no
    inbox names it. *)
Definition quiescent k (p : ptr) : Prop :=
  p ∉ occupied (currents k) /\ p ∉ inbox_tokens k /\
  Forall (fun n => n_thread n <> p) (items (sleep_inbox k)).

Lemma reap_ok tid k p :
  kernel_ok k -> bm_get tid (threads (mgr k)) = Some p -> quiescent k p ->
  exists k', reap tid k = Done k' /\ kernel_ok k'.
Proof.
  intros Hi Hb (Q1 & Q2 & Q3). unfold reap, unregister. rewrite Hb.
  eexists. split; [done |].
  destruct (lookup_tid_live _ _ _ _ _ Hi Hb) as (t & Ht & Htid & _).
  destruct Hi as [[C1 C2 C3 C4 C5] [R1 R2 R3 R4]].
  assert (Hkeep : forall q, q <> p -> delete p (heap k) !! q = heap k !! q).
  { intros q Hq. by rewrite lookup_delete_ne. }
  split; cbn.
  - unfold tokens, inbox_tokens in *. cbn. split.
    + rewrite lookup_delete_None. by right.
    + intros q t' [_ Hq]%lookup_delete_Some. by eapply C2.
    + eapply sublist_NoDup; [exact C3 |]. repeat apply sublist_app; try done. apply sublist_filter.
    + apply Forall_app in C4 as [C4a C4b]. apply Forall_app. unfold rq_remove_thread. split.
      * rewrite Forall_forall in *. intros q [Hq Hin]%list_elem_of_filter.
        unfold dispatchable. rewrite Hkeep by done. by apply C4a.
      * rewrite Forall_forall in *. intros q Hin. unfold dispatchable.
        rewrite Hkeep by set_solver. by apply C4b.
    + rewrite Forall_forall in *. intros q Hin. unfold on_hart. rewrite Hkeep by set_solver. by apply C5.
  - unfold sh_remove_thread. split.
    + rewrite Forall_forall in *. intros e [He Hin]%list_elem_of_filter.
      destruct (R1 e Hin) as (t' & Ht' & Htid'). exists t'. rewrite Hkeep; [done |].
      intros Heq. rewrite Heq in Ht'. congruence.
    + rewrite Forall_forall in *. intros e [He Hin]%list_elem_of_filter.
      rewrite Hkeep by done. auto.
    + rewrite Forall_forall in *. intros n Hin. destruct (R3 n Hin) as [? | ?]; [by left | right].
      rewrite Hkeep; [done | auto].
    + intros q t' [_ Hq]%lookup_delete_Some. by eapply R4.
Qed.

(** ** Parking and dispatching in any state *)

Lemma exit_thread_inv hart s k k' :
  kernel_ok k -> s ∈ [Ready; Blocking; Suspended; Exited] ->
  exit_thread_with_state hart s k = Done k' -> kernel_ok k'.
Proof.
  intros Hi Hs He. destruct (currents k !! hart) as [p |] eqn:Hh.
  2: { unfold exit_thread_with_state in He. by rewrite Hh in He. }
  destruct (decide (p = null)) as [-> | Hn].
  { unfold exit_thread_with_state in He. rewrite Hh in He. by simplify_eq/=. }
  destruct (current_live _ _ _ Hi Hh Hn) as (t & Hp & Hst).
  destruct (decide (in_state t Running)) as [Hr | Hnr].
  { destruct (exit_thread_ok hart s k Hi) as (k1 & He1 & Hk1).
    - by eapply lookup_lt_Some.
    - intros p' t' Hp' Ht'. by simplify_eq.
    - done.
    - congruence. }
  unfold exit_thread_with_state in He. rewrite Hh, (proj2 (Z.eqb_neq p null) Hn), Hp in He.
  set (r := if decide (s = Suspended) then _ else _) in He.
  assert (Hr : t_state (fst r) = t_state t /\ same_thread t (fst r) /\
    forall n, snd r = Some n -> n_thread n = p).
  { pose proof (kernel_inv_wf _ _ _ _ _ Hi Hp) as Hw. subst r.
    destruct (decide (s = Suspended)); simpl; (split; [done |]); split; try done; by intros n [= <-]. }
  destruct r as [t1 notice]. simpl in Hr. destruct Hr as (Hst1 & Hsame & Hno).
  unfold transition_to in He. rewrite Hst1 in He. unfold in_state in Hst, Hnr.
  destruct Hst as [Hst | [Hst | Hst]]; [| done |]; rewrite Hst in He; cbn [as_usize Z.eqb Pos.eqb] in He.
  { set_unfold in Hs. destruct_or! Hs; subst s; done. }
  cbn [pbind] in He.
  destruct (park_ok hart k p t t1 notice Hi Hh Hn Hp Hsame Hno) as (Hk1 & Hh1 & _).
  set (k1 := exit_tail_sleep _ _) in *.
  assert (Hp1 : heap k1 !! p = Some t1) by (rewrite Hh1; apply lookup_insert_eq).
  destruct s; simplify_eq; try done.
  - unfold exit_tail_ready, into_runnable in He. rewrite Hp1, Hst1, Hst in He. done.
  - unfold exit_tail_block in He. rewrite Hp1 in He.
    assert (Hnone : t_handle t1 = None) by (destruct Hk1 as [_ [_ _ _ Hx]]; by eapply Hx).
    rewrite Hnone in He. cbn [pbind] in He. unfold try_wake_pending_inline in He.
    rewrite (proj2 (Z.eqb_neq p null) Hn), Hp1 in He.
    unfold try_claim_own_pending, take_pending_results in He.
    destruct (t_pending_state t1 =? _).
    + unfold promote_ready_from_parked in He. cbn -[u64] in He. rewrite Hst1, Hst in He. done.
    + simpl in He. simplify_eq. eapply kernel_ok_put; [done | done | | by left].
      split; [by eapply kernel_inv_wf | done].
Qed.

Lemma dispatch_inv top hart k k' : kernel_ok k -> dispatch top hart k = Done k' -> kernel_ok k'.
Proof.
  intros Hi Hd. destruct (currents k !! hart) as [p |] eqn:Hh.
  2: { unfold dispatch in Hd. by rewrite Hh in Hd. }
  destruct (decide (p = null)) as [-> | Hn].
  { unfold dispatch in Hd. rewrite Hh in Hd. by simplify_eq/=. }
  destruct (current_live _ _ _ Hi Hh Hn) as (t & Hp & Hst).
  pose proof Hd as Hd0. unfold dispatch in Hd0.
  rewrite Hh, (proj2 (Z.eqb_neq p null) Hn), Hp in Hd0.
  destruct (_ && _)%bool eqn:Eb; [done |]. apply andb_false_iff in Eb.
  unfold mark_running, transition_to, in_state in *.
  destruct Hst as [Hst | [Hst | Hst]]; rewrite Hst in Hd0; cbn [as_usize Z.eqb Pos.eqb negb transition_allowed pbind] in Hd0;
    [| done |].
  - destruct (dispatch_ok top hart k p t Hi Hh Hn Hp) as (k1 & Hd1 & Hk1).
    + intros Hm. destruct Eb as [Eb | Eb]; [by rewrite bool_decide_eq_false in Eb | by to_prop].
    + cbn in Hd0. intros Hm. rewrite Hm in Hd0. destruct (t_slot t); [eauto | done].
    + by left.
    + congruence.
  - rewrite Hst in Hd0. cbn in Hd0. simplify_eq.
    apply (park_ok hart k p t t None); try done. split; [by eapply kernel_inv_wf | done].
Qed.

(** A store by the running hart that leaves the state alone. *)
Definition hart_put (hart : nat) (f : Thread -> Thread) k : Kernel B :=
  match currents k !! hart with
  | Some p => match heap k !! p with Some t => put p (f t) k | None => k end
  | None => k
  end.

Lemma hart_put_ok hart f k :
  kernel_ok k -> (forall t, wf_thread t -> same_thread t (f t) /\ t_state (f t) = t_state t) ->
  kernel_ok (hart_put hart f k).
Proof.
  intros Hi Hf. unfold hart_put. destruct (currents k !! hart) as [p |]; [| done].
  destruct (heap k !! p) as [t |] eqn:Hp; [| done].
  destruct (Hf t (kernel_inv_wf _ _ _ _ _ Hi Hp)) as [Hs Hst].
  eapply kernel_ok_put; [done | done | done | by left].
Qed.

(** ** The kernel as a transition system *)

(** One operation of a hart or of the manager. The reaper takes a thread that
    is [Exited] and to which nothing but the manager's own structures points. *)
Inductive kstep (top : Z) : Kernel B -> Kernel B -> Prop :=
| ks_create p i k : p <> null -> heap k !! p = None -> kstep top k (create p i k)
| ks_event ev k : kstep top k (snd (wake_queue_push ev k))
| ks_drain_wakes k k' : drain_wakes k = Done k' -> kstep top k k'
| ks_drain_sleeps now k k' : drain_sleeps now k = Done k' -> kstep top k k'
| ks_drain_ready k k' : drain_ready_inboxes k = Done k' -> kstep top k k'
| ks_assign self k k' ipis : manager_assign self k = Done (k', ipis) -> kstep top k k'
| ks_publish tid vals k k' : publish_pending_for_tid tid vals k = Done k' -> kstep top k k'
| ks_resume hart tid vals k k' : resume_thread_with_values hart tid vals k = Done k' -> kstep top k k'
| ks_kill tids leader k k' : request_exit_group tids leader k = Done k' -> kstep top k k'
| ks_reap tid p t k k' :
    bm_get tid (threads (mgr k)) = Some p -> heap k !! p = Some t -> claim_exited t = true ->
    quiescent k p -> reap tid k = Done k' -> kstep top k k'
| ks_dispatch hart k k' : dispatch top hart k = Done k' -> kstep top k k'
| ks_outcome hart o f epc k :
    kstep top k (hart_put hart (fun t => fst (fst (apply_syscall_outcome o t f epc))) k)
| ks_trap hart epc f u k : kstep top k (hart_put hart (fun t => fst (update_trap_frame t epc f u)) k)
| ks_exit hart s k k' :
    s ∈ [Ready; Blocking; Suspended; Exited] -> exit_thread_with_state hart s k = Done k' -> kstep top k k'
| ks_switch hart k k' :
    (hart < length (currents k))%nat -> check_context_and_switch hart k = Done k' -> kstep top k k'.

Lemma kstep_ok top k k' : kstep top k k' -> kernel_ok k -> kernel_ok k'.
Proof.
  intros Hst Hi. destruct Hst.
  - by apply create_ok.
  - by apply wake_queue_push_ok.
  - destruct (drain_wakes_ok k Hi) as (k1 & ? & ?). congruence.
  - destruct (drain_sleeps_ok now k Hi) as (k1 & ? & ?). congruence.
  - destruct (drain_ready_inboxes_ok k Hi) as (k1 & ? & ?). congruence.
  - destruct (decide (self < length (currents k))%nat) as [Hl | Hl].
    + destruct (manager_assign_ok self k Hi Hl) as (k1 & i1 & ? & ?). congruence.
    + unfold manager_assign in *. rewrite lookup_ge_None_2 in *; [done |].
      unfold views. rewrite length_imap. lia.
  - destruct (publish_pending_ok tid vals k Hi) as (k1 & ? & ?). congruence.
  - destruct (resume_values_ok hart tid vals k Hi) as (k1 & ? & ?). congruence.
  - destruct (exit_group_ok tids leader k Hi) as (k1 & ? & ?). congruence.
  - destruct (reap_ok tid k p Hi) as (k1 & ? & ?); [done | done |]. congruence.
  - by eapply dispatch_inv.
  - apply hart_put_ok; [done |]. intros t Hw. unfold apply_syscall_outcome.
    destruct (commit_allowed t), o; by split.
  - apply hart_put_ok; [done |]. intros t Hw. unfold update_trap_frame.
    repeat case_match; by split.
  - by eapply exit_thread_inv.
  - destruct (check_context_ok hart k Hi) as (k1 & ? & ?); [done |]. congruence.
Qed.

(** The state after boot, before any thread exists. *)
Definition booted k : Prop :=
  heap k = ∅ /\ mgr k = manager_new /\ items (sleep_inbox k) = [] /\
  Forall (fun b => items b = []) (ready_inboxes k) /\ Forall (fun c => c = null) (currents k).

Lemma booted_ok k : booted k -> kernel_ok k.
Proof.
  intros (Hh & Hm & Hs & Hb & Hc). unfold kernel_ok, kernel_inv, tokens, inbox_tokens. rewrite Hh, Hm, Hs. simpl.
  assert (concat (map items (ready_inboxes k)) = []) as ->.
  { induction Hb as [| b bs E _ IH]; simpl; [done |]. by rewrite E, IH. }
  assert (occupied (currents k) = []) as ->.
  { unfold occupied. induction Hc as [| c cs -> _ IH]; [done |]. rewrite filter_cons_False; [done |]. naive_solver. }
  split; (split; try done); try (constructor || (intros p t; by rewrite lookup_empty)).
Qed.

Lemma reachable_ok top k0 k : booted k0 -> rtc (kstep top) k0 k -> kernel_ok k.
Proof.
  intros Hb Hr. apply booted_ok in Hb. induction Hr as [| k1 k2 k3 Hs _ IH]; [done |].
  apply IH. by eapply kstep_ok.
Qed.
End Inv2.

(** ** Delivery of a published result *)

Section Delivery.
Context {B : Type -> Type} `{ThingBufLaws B}.
Variables (p : ptr) (tid : Z) (vals : list Z) (f0 : TrapFrame).
Implicit Types k : Kernel B.

(** The thread still sleeps on its published results, or it has been resumed
    with them and is queued. *)
Definition waiting k : Prop :=
  exists t, heap k !! p = Some t /\ in_state t Blocking /\ pending_signaled t = true /\
    t_frame t = f0 /\ snd (take_pending_results t) = Some (take 4 vals) /\ t_tid t = tid.

Definition resumed k : Prop :=
  exists t, heap k !! p = Some t /\ in_state t Ready /\ delivered vals f0 (t_frame t) /\
    p ∈ ready (mgr k).

Lemma resume_waiting reason t :
  in_state t Blocking -> pending_signaled t = true -> snd (take_pending_results t) = Some (take 4 vals) ->
  exists t', resume_published (note_wake reason t) = Done (t', true) /\ in_state t' Ready /\
    delivered vals (t_frame t) (t_frame t').
Proof.
  intros Hs Hp Hr. unfold pending_signaled, take_pending_results in *.
  unfold resume_published, take_pending_results. cbn [t_pending_state note_wake store_wake_override].
  rewrite Hp in *. cbn [snd] in Hr. injection Hr as Hr. rewrite promote_parked.
  2: { unfold claim_parked, is_parked. cbn. by rewrite Hs. }
  eexists. split; [done |]. split; [done |]. cbn -[marshal take]. cbn -[marshal take] in Hr.
  rewrite Hr. apply marshal_delivered.
Qed.

Lemma wake_one_other reason pred q k k' :
  q <> p -> wake_one reason pred q k = Done k' ->
  heap k' !! p = heap k !! p /\ (p ∈ ready (mgr k) -> p ∈ ready (mgr k')).
Proof.
  intros Hne. unfold wake_one. destruct (heap k !! q) as [t |]; [| done].
  destruct (negb (pred t)); [by intros [= <-] |].
  match goal with |- (pbind ?m _ = _) -> _ => destruct m as [[t' tok] |] end; [| done].
  simpl. intros [= <-]. destruct tok; cbn; rewrite lookup_insert_ne by done; (split; [done |]).
  - unfold rq_push. set_solver.
  - done.
Qed.

Lemma wake_one_waiting reason pred k k' :
  waiting k -> wake_one reason pred p k = Done k' ->
  resumed k' \/ (waiting k' /\ exists t, heap k !! p = Some t /\ pred t = false).
Proof.
  intros (t & Hp & Hs & Hg & Hf & Hr & Ht). unfold wake_one. rewrite Hp.
  destruct (pred t) eqn:Ep; cbn [negb].
  - unfold in_state in Hs. rewrite Hs, Hg. cbn [as_usize Z.eqb Pos.eqb andb].
    destruct (resume_waiting reason t Hs Hg Hr) as (t' & -> & Hs' & Hd).
    replace (claim_parked _) with true by (unfold claim_parked, is_parked; cbn; by rewrite Hs).
    cbn [pbind fst snd]. intros [= <-]. left. exists t'. cbn. rewrite lookup_insert_eq.
    rewrite <- Hf. split_and!; try done. unfold rq_push. set_solver.
  - intros [= <-]. right. split; [exists t; by split_and! | by exists t].
Qed.

Lemma wake_one_resumed reason pred k k' :
  resumed k -> wake_one reason pred p k = Done k' -> resumed k'.
Proof.
  intros (t & Hp & Hs & Hd & Hin). unfold wake_one. rewrite Hp.
  destruct (negb (pred t)); [intros [= <-]; by exists t |].
  unfold in_state in Hs. rewrite Hs. cbn [as_usize Z.eqb Pos.eqb andb pbind fst snd].
  intros [= <-]. exists (note_wake reason t). cbn. by rewrite lookup_insert_eq.
Qed.

Lemma wake_one_status reason pred q k k' :
  wake_one reason pred q k = Done k' ->
  (resumed k -> resumed k') /\ (waiting k -> waiting k' \/ resumed k') /\
  (q = p -> (forall t, t_tid t = tid -> pred t = true) -> waiting k -> resumed k').
Proof.
  intros Hw. destruct (decide (q = p)) as [-> | Hne].
  - split_and!.
    + intros Hr. by eapply wake_one_resumed.
    + intros Hk. destruct (wake_one_waiting _ _ _ _ Hk Hw) as [? | [? _]]; auto.
    + intros _ Hpred Hk. pose proof Hk as (t & Hp & _ & _ & _ & _ & Ht).
      destruct (wake_one_waiting _ _ _ _ Hk Hw) as [? | [_ (t' & Ht' & Hf)]]; [done |].
      simplify_eq. by rewrite Hpred in Hf.
  - destruct (wake_one_other _ _ _ _ _ Hne Hw) as [Hh Hrd]. split_and!; [| | done].
    + intros (t & Hp & Hs & Hd & Hin). exists t. rewrite Hh. auto.
    + intros (t & Hp & Hrest). left. exists t. by rewrite Hh.
Qed.

Lemma pfold_status reason pred l : forall k k',
  pfold (wake_one reason pred) l k = Done k' ->
  (resumed k -> resumed k') /\ (waiting k -> waiting k' \/ resumed k') /\
  (p ∈ l -> (forall t, t_tid t = tid -> pred t = true) -> waiting k -> resumed k').
Proof.
  induction l as [| q l IH]; intros k k' Hf; simpl in Hf.
  { injection Hf as <-. split_and!; try done; [by left | set_solver]. }
  destruct (wake_one reason pred q k) as [k1 |] eqn:E; [| done]. simpl in Hf.
  destruct (wake_one_status _ _ _ _ _ E) as (A1 & A2 & A3).
  destruct (IH k1 k' Hf) as (B1 & B2 & B3). split_and!.
  - auto.
  - intros Hk. destruct (A2 Hk); auto.
  - intros Hin Hpred Hk. destruct (decide (q = p)) as [-> | Hne]; [auto |].
    destruct (A2 Hk); [| auto]. apply B3; [set_solver | done | done].
Qed.

Lemma handle_wake_status ev k k' :
  registered k p -> handle_wake ev k = Done k' -> waiting k \/ resumed k ->
  (waiting k' \/ resumed k') /\ (ev = WTid tid \/ resumed k -> resumed k').
Proof.
  intros Hreg Hh Hst.
  assert (Hgen : forall reason pred, set_wake_reason_where reason pred k = Done k' ->
    (waiting k' \/ resumed k') /\ (resumed k -> resumed k')).
  { intros reason pred Hp. unfold set_wake_reason_where in Hp.
    destruct (pfold_status _ _ _ _ _ Hp) as (A1 & A2 & _). split; [| done]. destruct Hst; auto. }
  destruct ev; simpl in Hh; unfold wake_latched in Hh; repeat case_match; simplify_eq;
    try (destruct (Hgen _ _ Hh) as [G1 G2]; split; [done |]; intros [? | ?]; [done | auto]).
  - split; [done |]. intros [? | ?]; [done | done].
  - destruct (Hgen _ _ Hh) as [G1 G2]. split; [done |]. intros [[= ->] | ?]; [| auto].
    unfold set_wake_reason_where in Hh. destruct (pfold_status _ _ _ _ _ Hh) as (A1 & _ & A3).
    destruct Hst as [Hw | Hr]; [| auto]. apply A3; [done | | done]. intros t ->. apply Z.eqb_refl.
Qed.
End Delivery.

(** ** Sleepers that are due *)

Section Due.
Context {B : Type -> Type} `{ThingBufLaws B}.
Implicit Types k : Kernel B.

Definition verdict k (e : SleepEntry) : option Verdict :=
  (fun t => classify (t_sleep_seq t) (t_state t) (e_sleep_seq e)) <$> heap k !! e_thread e.

(** What [drain_woken] leaves: nothing, or a top that is still in flight, or a
    top whose deadline is ahead. *)
Lemma drain_woken_top now cb h : forall k h' k',
  drain_woken heap now cb h k = Done (h', k') ->
  suffix h' h /\
  match h' with
  | [] => True
  | e :: _ => verdict k' e = Some Transient \/ (verdict k' e = Some Live /\ now < e_wake_time e)
  end.
Proof.
  induction h as [| top h IH]; intros k h' k'; simpl.
  { intros [= <- <-]. done. }
  destruct (heap k !! e_thread top) as [t |] eqn:Et; [| done].
  destruct (classify _ _ _) eqn:Ec.
  - intros Hd. destruct (IH _ _ _ Hd) as [Hs Hm]. split; [by apply suffix_cons_r | done].
  - intros [= <- <-]. split; [done |]. left. unfold verdict. rewrite Et. simpl. by rewrite Ec.
  - destruct (now <? e_wake_time top) eqn:En.
    + intros [= <- <-]. split; [done |]. right. unfold verdict. rewrite Et. simpl. rewrite Ec. by to_prop.
    + destruct (cb (e_thread top) k) as [k1 |]; [| done]. simpl. intros Hd.
      destruct (IH _ _ _ Hd) as [Hs Hm]. split; [by apply suffix_cons_r | done].
Qed.

Lemma heap_sorted_suffix h h' : suffix h' h -> heap_sorted h -> heap_sorted h'.
Proof.
  intros [l ->]. unfold heap_sorted. induction l as [| e l IH]; simpl; [done |].
  inversion 1; auto.
Qed.

Lemma fold_notice_sorted n k k' :
  fold_notice n k = Done k' -> heap_sorted (sleeping (mgr k)) -> heap_sorted (sleeping (mgr k')).
Proof.
  unfold fold_notice. destruct (_ =? _); [by intros [= <-] |].
  destruct (heap k !! _) as [t |]; [| done]. destruct (has_pending_wake t).
  - destruct (claim_parked t); [| by intros [= <-]].
    destruct (promote_wake t); [| done]. by intros [= <-].
  - intros [= <-] Hs. cbn. by apply insert_entry_sorted.
Qed.

Lemma drain_sleeps_top now k k' :
  kernel_ok k -> heap_sorted (sleeping (mgr k)) -> drain_sleeps now k = Done k' ->
  heap_sorted (sleeping (mgr k')) /\
  match sleeping (mgr k') with
  | [] => True
  | e :: _ => verdict k' e = Some Transient \/ (verdict k' e = Some Live /\ now < e_wake_time e)
  end.
Proof.
  intros Hi Hs. unfold drain_sleeps.
  destruct (drain_inv fold_notice (fun ns k' => grown k ns k' /\ heap_sorted (sleeping (mgr k')))
              (sleep_inbox k) k) as (b' & k1 & -> & Hb & Hg & Hs1).
  - intros n ns k1 [Hg Hs1]. destruct (fold_notice_ok _ _ _ _ Hg) as (k2 & Hf & Hg2).
    exists k2. split; [done |]. split; [done |]. by eapply fold_notice_sorted.
  - split; [| done]. split; [done |]. exists []. by rewrite app_nil_r.
  - cbn [fst snd pbind]. destruct (drain_woken _ _ _ _ _) as [[h' k2] |] eqn:Ed; [| done].
    cbn [pbind fst snd]. intros [= <-]. apply drain_woken_top in Ed as [Hsuf Htop].
    split; [| by destruct k2 as [? []]]. cbn. by eapply heap_sorted_suffix.
Qed.
End Due.

(** ** Properties *)

Section Properties.
Context {B : Type -> Type} `{ThingBufLaws B}.
Implicit Types k : Kernel B.




(** No due sleeper is left behind: after the sleep drain, if any park
    entry is still live and its deadline has passed, then the entry at the
    top of the heap is a park still in flight; and with nothing in flight at
    the top no live entry is due. *)
Theorem no_oversleep now k e :
  kernel_ok k -> heap_sorted (sleeping (mgr k)) ->
  exists k', drain_sleeps now k = Done k' /\ kernel_ok k' /\ heap_sorted (sleeping (mgr k')) /\
    (e ∈ sleeping (mgr k') -> e_wake_time e <= now ->
     exists top, head (sleeping (mgr k')) = Some top /\ verdict k' top = Some Transient).
Proof.
  intros Hi Hs. destruct (drain_sleeps_ok now k Hi) as (k' & Hd & Hk').
  exists k'. split; [done |]. split; [done |].
  destruct (drain_sleeps_top now k k' Hi Hs Hd) as [Hs' Htop]. split; [done |].
  intros Hin Hdue. destruct (sleeping (mgr k')) as [| top h]; [by apply not_elem_of_nil in Hin |].
  exists top. split; [done |]. destruct Htop as [? | [_ Hlt]]; [done |]. exfalso.
  inversion Hs' as [| ? ? _ Hf]; subst. apply elem_of_cons in Hin as [-> | Hin]; [lia |].
  rewrite Forall_forall in Hf. specialize (Hf e Hin). unfold entry_le in Hf.
  rewrite orb_true_iff, andb_true_iff, Z.ltb_lt, Z.eqb_eq in Hf. lia.
Qed.

(** The idle timer is never late: the interval the manager programs is at
    most the cap and reaches no further than any deadline in the heap, and it
    is zero exactly when the earliest deadline is not ahead. *)
Theorem timer_never_late now cap (m : Manager) :
  heap_sorted (sleeping m) -> 0 < cap ->
  let d := next_sleep_in_cycles now cap m in
  0 <= d <= cap /\
  (forall e, e ∈ sleeping m -> now + d <= Z.max now (e_wake_time e)) /\
  (d = 0 <-> exists e, e ∈ sleeping m /\ e_wake_time e <= now).
Proof.
  intros Hs Hcap. unfold next_sleep_in_cycles, next_wake.
  destruct (sleeping m) as [| top h]; simpl.
  { split; [lia |]. split; [intros e He; by apply not_elem_of_nil in He |].
    split; [lia |]. intros (e & He & _). by apply not_elem_of_nil in He. }
  assert (Hmin : forall e, e ∈ top :: h -> e_wake_time top <= e_wake_time e).
  { inversion Hs as [| ? ? _ Hf]; subst. intros e [-> | He]%elem_of_cons; [lia |].
    rewrite Forall_forall in Hf. specialize (Hf e He). unfold entry_le in Hf.
    rewrite orb_true_iff, andb_true_iff, Z.ltb_lt, Z.eqb_eq in Hf. lia. }
  destruct (now <? e_wake_time top) eqn:E; to_prop.
  - split; [lia |]. split.
    + intros e He. specialize (Hmin e He). lia.
    + split; [lia |]. intros (e & He & Hle). specialize (Hmin e He). lia.
  - split; [lia |]. split; [lia |]. split; [| lia]. intros _. exists top. split; [set_solver | lia].
Qed.

(** The kill races. If the thread a hart runs was marked [Exited] by an
    exit-group on another hart, then the cooperative yield
    ([exit_thread_with_state(Ready)]) panics in [into_runnable], although
    [transition_to] tolerates the race, and a [Blocking] park panics in
    [promote_ready_from_parked] when results had been published. *)
Theorem kill_race_panics hart k p t :
  currents k !! hart = Some p -> p <> null -> heap k !! p = Some t -> in_state t Exited ->
  t_handle t = None ->
  exit_thread_with_state hart Ready k = Panic /\
  (pending_signaled t = true -> exit_thread_with_state hart Blocking k = Panic).
Proof.
  intros Hh Hn Hp Hs Hnone. unfold exit_thread_with_state, in_state in *.
  rewrite Hh, (proj2 (Z.eqb_neq p null) Hn), Hp.
  rewrite !decide_False by done. unfold transition_to. rewrite Hs.
  cbn [as_usize Z.eqb Pos.eqb pbind exit_tail_sleep]. split.
  - unfold exit_tail_ready, into_runnable. cbn. by rewrite lookup_insert_eq, Hs.
  - intros Hg. unfold exit_tail_block. cbn [heap put set_heap]. rewrite lookup_insert_eq, Hnone.
    cbn [pbind]. unfold try_wake_pending_inline. rewrite (proj2 (Z.eqb_neq p null) Hn).
    cbn [heap put set_heap]. rewrite lookup_insert_eq.
    unfold try_claim_own_pending, take_pending_results, pending_signaled in *. rewrite Hg.
    unfold promote_ready_from_parked. cbn -[marshal]. by rewrite Hs.
Qed.

(** The reaper does not look at the harts: an [Exited] thread of a known
    process is collected even while a hart's [current] slot names it, and
    freeing it leaves that slot pointing at memory that is no longer a
    thread. *)
Theorem reaper_ignores_harts known_pid hart k tid p t :
  bm_get tid (threads (mgr k)) = Some p -> heap k !! p = Some t -> t_tid t = tid ->
  in_state t Exited -> known_pid (t_pid t) = true -> currents k !! hart = Some p ->
  tid ∈ tids_to_remove known_pid k /\
  exists k', reap tid k = Done k' /\ currents k' !! hart = Some p /\ heap k' !! p = None.
Proof.
  intros Hb Hp Ht Hs Hk Hh. split.
  - apply list_elem_of_omap. exists (tid, p). split; [by apply bm_get_elem |]. simpl.
    rewrite Hp, Hk. unfold claim_exited. rewrite Hs. simpl. by rewrite Ht.
  - unfold reap, unregister. rewrite Hb. eexists. split; [done |]. split; [done |].
    cbn. apply lookup_delete_eq.
Qed.
End Properties.

(** ** Witnesses *)

(** Two harts, no threads, the capacities of [manager/src/lib.rs]. *)
Definition boot2 : Kernel ring :=
  mkKernel ∅ manager_new [mkRing 32 []; mkRing 32 []] (mkRing 64 []) (mkRing 128 []) 0 0 [null; null] ∅.

Definition done_or {A} (d : A) (m : panics A) : A := match m with Done a => a | Panic => d end.

(** One thread is created and assigned, runs, and parks for a result. *)
Definition k_created : Kernel ring := create 256 sample_init boot2.
Definition k_assigned : Kernel ring := fst (done_or (k_created, []) (manager_assign 0 k_created)).
Definition k_running : Kernel ring := done_or k_assigned (dispatch 1 1 k_assigned).
Definition k_blocked : Kernel ring := done_or k_running (exit_thread_with_state 1 Blocking k_running).
Definition k_killed : Kernel ring := done_or k_running (request_exit_group [7] 0 k_running).

Lemma boot2_booted : booted boot2.
Proof. split_and!; try done; repeat constructor. Qed.

Lemma k_running_reachable : rtc (kstep 1) boot2 k_running.
Proof.
  eapply rtc_l; [by apply (ks_create 1 256 sample_init boot2) |].
  eapply rtc_l; [apply (ks_assign 1 0 k_created k_assigned [1]); vm_compute; reflexivity |].
  eapply rtc_l; [apply (ks_dispatch 1 1 k_assigned k_running); vm_compute; reflexivity |].
  apply rtc_refl.
Qed.

Lemma k_blocked_reachable : rtc (kstep 1) boot2 k_blocked.
Proof.
  eapply rtc_r; [apply k_running_reachable |].
  apply (ks_exit 1 1 Blocking k_running k_blocked); [set_solver | vm_compute; reflexivity].
Qed.




Lemma no_oversleep_witness : exists k', drain_sleeps 1000 k_blocked = Done k' /\ kernel_ok k'.
Proof.
  destruct (no_oversleep 1000 k_blocked (mkSleepEntry 5 1 256)) as (k' & H1 & H2 & _).
  - apply (reachable_ok 1 boot2); [apply boot2_booted | apply k_blocked_reachable].
  - vm_compute. constructor.
  - by exists k'.
Defined.

Lemma timer_never_late_witness :
  0 <= next_sleep_in_cycles 10 100000 (set_sleeping [mkSleepEntry 500 1 256] manager_new) <= 100000.
Proof.
  apply (timer_never_late 10 100000 (set_sleeping [mkSleepEntry 500 1 256] manager_new)).
  - repeat constructor.
  - lia.
Defined.

Lemma kill_race_panics_witness : exit_thread_with_state 1 Ready k_killed = Panic.
Proof.
  apply (kill_race_panics 1 k_killed 256 (default sample (heap k_killed !! 256)));
    [vm_compute; reflexivity | done | vm_compute; reflexivity | vm_compute; reflexivity
    | vm_compute; reflexivity].
Defined.

Lemma reaper_ignores_harts_witness : 7 ∈ tids_to_remove (fun _ => true) k_killed.
Proof.
  apply (reaper_ignores_harts (fun _ => true) 1 k_killed 7 256 (default sample (heap k_killed !! 256)));
    vm_compute; reflexivity.
Defined.
